(* ===== verification/_CoqProject ===== *)
-Q . S2P
Prelude.v
Alloc.v
Bytes.v
Pmm.v
Heap.v
Arena.v
Slab.v
Vmm.v
Paging.v
MemInit.v
Elf.v
Loading.v
Pipe.v
Proc.v
Fd.v
Signal.v
Sched.v
PipeEnds.v
Env.v
Path.v
Vga.v
Input.v
Console.v
Block.v
Ata.v
Buffer.v
NoxFS.v
NoxDisk.v
NoxFiles.v
NoxDemo.v
NoxDir.v
NoxMount.v
MkDisk.v
MkDiskSpec.v
MkDiskMount.v
MkDiskDemo.v
Vfs.v
Files.v
VfsDemo.v
Syscalls.v
Usys.v
Exec.v
Boot.v
DiskBoot.v
KStore.v
Libc.v
Numbers.v
Readline.v
Shell.v
Script.v
ScriptRun.v
Utils.v
UtilsSpec.v
FileUtils.v
Umalloc.v
Traps.v
Asm.v
KernelMain.v
