(* ===== verification/Prelude.v ===== *)
(** * Noxis OS: a verification development

    Noxis is a 64-bit hobby operating system for the PC: a kernel with paging,
    preemptive processes, pipes, signals and an inode file system on an ATA
    disk, a small C runtime for user programs, a shell and the usual tools.
    This library is a shallow embedding of that code: every function is a Rocq
    function with the name it has in the source, state is passed explicitly,
    errors are values, and integers are reduced at the width of their C type.
    Paths below are relative to src/ of the repository unless they begin with
    tools/.

    ** Conventions

    - [Prelude], [Bytes], [Alloc] hold what the components share: machine
      integers ([u8] ... [s64]), word-addressed memory as a finite map that
      reads 0 where nothing was stored ([rd], [wr]), counted loops ([for_up]),
      the state monad [M] with its weakest preconditions [runs], byte buffers
      and little-endian fields, and the contract of the kernel heap.
    - [M S A] is [S -> option (A * S)].  [None] is a behaviour the code does
      not define or does not finish: an access outside an array, a walk of a
      cyclic list.  A theorem stated with [runs] says that there is a result
      and what it is, so it includes termination and memory safety.
    - A component relies on another through a class that states the promise:
      [Allocator] (kmalloc to slabs and arenas), [ReliableDisk] (a driver to the
      block layer), [AtaDisk] and [Ports] (a drive to its driver), [DiskIO] (a
      device to the cache), [BufferCache] (the cache to the file system),
      [ObjHeap] (kmalloc to the file system), [Kernel] (other processes to the
      shell), [FileSys] (system calls to the file tools).  The kernel's own
      components are instances; for hardware there is a simulated instance on
      which the witnesses run.

    ** Parts of the system and the files that model them

    Memory.  [Pmm]: mm/phys/pmm.c, the frame bitmap and reference counts.
    [Heap]: mm/virt/heap.c, first fit with headers in memory.  [Arena]:
    mm/arena.c.  [Slab]: mm/slab.c.  [Vmm]: mm/virt/vmm.c and proc/elf.c, with
    the theorems on translation and copy-on-write in [Paging], on the boot
    tables in [MemInit], on loading programs in [Elf] and on the frames that
    takes in [Loading].  [KStore]: stores of the kernel into user pages.

    Processes.  [Pipe]: proc/pipe.c.  [Proc]: proc/process.c and
    proc/scheduler.c.  [Fd]: the calls of proc/fd.c and proc/syscalls.c that
    create, copy and drop descriptors.  [Signal]: proc/signal.c and the timer
    tick.  [Sched] and [PipeEnds] hold the theorems on the ready queue and on
    the pipe counts.  [Env] and [Path]: the environment and the path strings of
    proc/syscalls.c.  [Syscalls]: the other system calls and the dispatcher of
    kernel/syscall/syscall.c.  [Exec]: the stack of a new program.

    Devices.  [Vga]: drivers/vga.c.  [Input]: drivers/kbd.c, keymap.c, tty.c.
    [Console]: reads from the terminal (proc/fd.c).  [Block]:
    drivers/block/block.c.  [Ata]: drivers/ata.c over the port instructions.
    [Traps]: kernel/hal/gdt.c, pic.c and fpu.c, kernel/isr/isr.c, drivers/pit.c
    and syscall_init.  [Asm]: the entry and switch code in assembly
    (proc/kthread_switch.asm, proc/user_enter.asm,
    kernel/syscall/syscall_entry.asm, kernel/isr/isr_stubs.asm,
    lib/noxlib/crt0.asm).  The serial line of drivers/serial.c is in [Boot].

    File systems.  [Buffer]: fs/noxfs/buffer.c.  [NoxFS]: fs/noxfs/noxfs.c, the
    executable model; [NoxDisk] (blocks, bitmaps, inodes), [NoxFiles] (block map
    and contents), [NoxDir] (directories and paths) and [NoxMount] (mounting)
    hold its theorems.  [MkDisk]: the program in tools/linux/build_disk.sh that
    writes the disk image, with its invariant in [MkDiskSpec] and the proof that
    the image is a well-formed volume in [MkDiskMount].  [Vfs]: fs/vfs,
    fs/procfs, fs/devfs and the state of the whole kernel.  [Files]: open, lseek,
    read and write of proc/fd.c.  [NoxDemo], [MkDiskDemo] and [VfsDemo] hold
    concrete volumes and the instances of theorems on them.

    Boot.  kernel/core/early.c: [KernelMain] is [kernel_main] over the state of
    the whole machine; its parts on memory, on disks and on the first processes
    are in [MemInit], [DiskBoot] and [Boot].

    User programs.  [Libc], [Numbers], [Readline], [Umalloc], [Usys]:
    lib/noxlib/noxlib.h.  [Shell], [Script], [ScriptRun]: bin/nsh/nsh.c.
    [Utils], [UtilsSpec], [FileUtils]: the other programs of bin/.

    ** What the theorems show

    - Allocators.  The bitmap and the counters implement a map from frames to
      references on every sequence of calls; kmalloc returns a fresh, aligned
      payload and fails only when no block fits; kfree gives back exactly one;
      slabs and arenas, over the heap's contract, return zeroed, disjoint memory.
    - Address spaces.  Mapping a page changes that translation only; a
      copy-on-write fault gives a private copy; the loader places every byte of
      every segment; the memory phase of the boot establishes the invariants.
    - Processes.  The linked ready queue is a round-robin queue and a process at
      position i runs within 10 (i + 1) ticks; pipe counts are the numbers of
      open descriptors whatever calls run; pipes are FIFO and transfers finish;
      the lowest pending signal is delivered first.
    - Processor entry.  System calls, interrupts and context switches keep the
      registers they must keep, and a forked child enters ring 3 with 0 in RAX.
    - Storage.  The ATA driver makes a reliable block device; the elevator serves
      by address; the cache shows current contents and loses no write; storing
      and loading a file are inverse and leave the others alone; an added
      directory entry is found and hides no other.  [boot_finds_files] composes
      them: the image the build writes, on a drive that keeps the protocol, is
      mounted by the boot code and every file has its contents of the host.
    - Boot.  [kernel_boots] composes the storage theorems with those on memory,
      loading and scheduling: from reset, [kernel_main] ends in the shell, loaded
      byte for byte from the image, with all invariants established.
    - Names and arguments.  The environment is a dictionary, path strings are
      normalised, the arguments of exec read back, and every wrapper of the
      runtime reaches its handler with its arguments.
    - User programs.  strtol undoes printing, vsnprintf is an unbounded
      formatter cut to size, the line editor implements an editor on lists,
      malloc is first fit, a command always returns, and the shell run on the
      text of a structured program runs that program.
    - Theorems that name a defect ([path_lookups_exhaust_table],
      [balloc_makes_hash_chain_cyclic], [sigkill_is_catchable] and others) state
      what the code does on the inputs where it does not do what it means to.

    ** Bounds and fuel

    Loops over a counter are [for_up] or recursion on that counter.  Polling
    loops of the drivers have the bounds of the source.  Walks of linked lists
    take fuel for one step more than the number of nodes there can be
    ([HEAP_FUEL]: one header per 32 bytes of the heap; [WALK_FUEL]: the buffers
    of the cache; [QUEUE_FUEL]: the request slots; [walk_fuel]: the processes),
    and the theorems prove that it suffices.  Scans of a string take its length.
    The loops of a script may run for ever: there the theorem relates the shell
    and the program for every fuel.  A call that waits for other processes or
    for interrupts takes what they do as a list, one item per wait.

    ** Parameters

    Ports and drives ([Ports], [AtaDisk]); where kmalloc puts an object of the
    file system ([pick], with [ObjHeap]); the contents of uninitialised stack
    buffers; the host's files for the image builder; addresses the linker or the
    loader choose; the bytes of user memory a system call reads.

    ** Not modelled

    - The files of boot/ and the instructions that load descriptor tables: 16-bit and
      32-bit code that calls the BIOS, and state of the processor only.
      kernel/hal/ports.asm, tss_load.asm and mm/virt/paging.asm are 32-bit files
      that are not linked into the kernel.
    - The endless loops of kernel/core/early.c: idling, and the heartbeat
      beyond one round.
    - Interrupt masking inside critical sections, the TLB, and most log lines of
      the initialisation functions.  Messages of user programs to the error
      output.
    - Other processes as seen by the shell: they are behind [Kernel].
    - tools/windows (a second implementation of the image builder in
      PowerShell), the floppy builders, the Makefile and the linker scripts;
      kernel/hal/idt.h and kernel/core/panic.h, which declare functions that
      do not exist. *)
From Stdlib Require Import ZArith Lia.
From stdpp Require Export base tactics numbers gmap.
From stdpp Require Export list.

#[global] Open Scope Z_scope.

(** ** Machine integers

    The kernel's [uint8_t] ... [uint64_t] are integers kept in range by
    reduction modulo a power of two, written out at every place where the
    C expression can leave the range. *)

Definition u8 (x : Z) : Z := x mod 2 ^ 8.
Definition u16 (x : Z) : Z := x mod 2 ^ 16.
Definition u32 (x : Z) : Z := x mod 2 ^ 32.
Definition u64 (x : Z) : Z := x mod 2 ^ 64.

Lemma u8_id x : 0 <= x < 2 ^ 8 -> u8 x = x.
Proof. apply Z.mod_small. Qed.
Lemma u16_id x : 0 <= x < 2 ^ 16 -> u16 x = x.
Proof. apply Z.mod_small. Qed.
Lemma u32_id x : 0 <= x < 2 ^ 32 -> u32 x = x.
Proof. apply Z.mod_small. Qed.
Lemma u64_id x : 0 <= x < 2 ^ 64 -> u64 x = x.
Proof. apply Z.mod_small. Qed.

(** A reduction whose argument [lia] shows to be in range disappears. *)
Create HintDb words.
#[export] Hint Rewrite u8_id u16_id u32_id u64_id using lia : words.
Ltac words := autorewrite with words.

(** Conversion of an unsigned pattern to the signed type of the same width. *)
Definition s32 (x : Z) : Z := let y := u32 x in if y <? 2 ^ 31 then y else y - 2 ^ 32.
Definition s64 (x : Z) : Z := let y := u64 x in if y <? 2 ^ 63 then y else y - 2 ^ 64.

(** The C value [(uint32_t)-1], the error result of the allocators. *)
Definition U32_NEG1 : Z := 4294967295.

(** A nonzero C integer used as a condition. *)
Definition ctrue (x : Z) : bool := negb (x =? 0).

(** ** Status codes (common/status.h) *)

Inductive os_status : Set :=
| OS_OK | OS_ERR_NULL | OS_ERR_OOM | OS_ERR_INVALID | OS_ERR_IO
| OS_ERR_NOT_FOUND | OS_ERR_PERM | OS_ERR_BUSY | OS_ERR_RANGE | OS_ERR_NOSYS.

#[export] Instance os_status_eq_dec : EqDecision os_status.
Proof. solve_decision. Defined.

(** ** Arrays and word-addressed memory

    A zero-initialised C array, or a region of memory seen as cells, is a
    finite map whose absent cells read as zero. *)

Abbreviation mem := (gmap Z Z).

Definition rd (m : mem) (a : Z) : Z := default 0 (m !! a).
Definition wr (m : mem) (a v : Z) : mem := <[a := v]> m.

Lemma rd_wr_eq m a v : rd (wr m a v) a = v.
Proof. unfold rd, wr. by rewrite lookup_insert_eq. Qed.

Lemma rd_wr_ne m a b v : a <> b -> rd (wr m a v) b = rd m b.
Proof. intros H. unfold rd, wr. by rewrite lookup_insert_ne. Qed.

Lemma rd_empty a : rd ∅ a = 0.
Proof. reflexivity. Qed.

(** Rewrites every read of a written memory whose addresses [lia] can
    compare. *)
Ltac mem_simpl :=
  repeat first
    [ rewrite rd_wr_eq
    | rewrite rd_wr_ne by lia ].
Ltac mem_simpl_in H :=
  repeat first
    [ rewrite rd_wr_eq in H
    | rewrite rd_wr_ne in H by lia ].

(** ** Counted loops

    [for (i = lo; i < hi; i++) body] with a body that only changes the
    state.  The bound is fixed at entry, as in every loop it translates. *)

Fixpoint for_loop {S : Type} (n : nat) (i : Z) (body : Z -> S -> S) (s : S) : S :=
  match n with
  | O => s
  | Datatypes.S n' => for_loop n' (i + 1) body (body i s)
  end.

Definition for_up {S : Type} (lo hi : Z) (body : Z -> S -> S) (s : S) : S :=
  for_loop (Z.to_nat (hi - lo)) lo body s.

(** Loop rule: an indexed invariant established at entry and kept by the
    body holds at exit with the index at its final value. *)
Lemma for_up_ind {S : Type} (P : Z -> S -> Prop) lo hi body s :
  P lo s ->
  (forall i s, lo <= i < hi -> P i s -> P (i + 1) (body i s)) ->
  P (Z.max lo hi) (for_up lo hi body s).
Proof.
  intros H0 Hstep. unfold for_up.
  assert (Hgen : forall n i s, lo <= i -> i + Z.of_nat n <= Z.max lo hi ->
            P i s -> P (i + Z.of_nat n) (for_loop n i body s)).
  { induction n as [|n IH]; intros i s' Hlo Hhi HP; simpl.
    - by rewrite Z.add_0_r.
    - replace (i + Z.of_nat (Datatypes.S n)) with (i + 1 + Z.of_nat n) by lia.
      apply IH; [lia | lia |]. apply Hstep; [lia | done]. }
  specialize (Hgen (Z.to_nat (hi - lo)) lo s).
  replace (Z.max lo hi) with (lo + Z.of_nat (Z.to_nat (hi - lo))) by lia.
  apply Hgen; [lia | lia | done].
Qed.

(** ** Counting

    [countb p n] is the number of indices below [n] that satisfy [p]. *)

Fixpoint countb (p : Z -> bool) (n : nat) : Z :=
  match n with
  | O => 0
  | S n' => countb p n' + (if p (Z.of_nat n') then 1 else 0)
  end.

Lemma countb_ext p q n :
  (forall i, 0 <= i < Z.of_nat n -> p i = q i) -> countb p n = countb q n.
Proof.
  induction n as [|n IH]; intros H; simpl; [done|].
  rewrite IH by (intros; apply H; lia). rewrite H by lia. done.
Qed.

Lemma countb_bounds p n : 0 <= countb p n <= Z.of_nat n.
Proof. induction n as [|n IH]; simpl; [lia|]. destruct (p _); lia. Qed.

(** Changing the predicate at one index below the bound changes the count
    by the difference at that index. *)
Lemma countb_change p q n k :
  0 <= k < Z.of_nat n -> (forall i, 0 <= i -> i <> k -> p i = q i) ->
  countb q n = countb p n - Z.b2z (p k) + Z.b2z (q k).
Proof.
  induction n as [|n IH]; intros Hk Hext; [lia|]. simpl.
  destruct (Z.eq_dec k (Z.of_nat n)) as [->|Hne].
  - rewrite (countb_ext q p) by (intros; rewrite Hext by lia; done).
    destruct (p (Z.of_nat n)), (q (Z.of_nat n)); simpl; lia.
  - rewrite IH by (auto; lia). rewrite (Hext (Z.of_nat n)) by lia.
    destruct (q (Z.of_nat n)); lia.
Qed.

Lemma countb_zero p n i : countb p n = 0 -> 0 <= i < Z.of_nat n -> p i = false.
Proof.
  induction n as [|n IH]; intros H Hi; [lia|]. simpl in H.
  pose proof (countb_bounds p n).
  destruct (Z.eq_dec i (Z.of_nat n)) as [->|].
  - destruct (p (Z.of_nat n)); [lia | done].
  - apply IH; [destruct (p (Z.of_nat n)); lia | lia].
Qed.

(** ** Bits of a word *)

Lemma land_63 x : Z.land x 63 = x mod 64.
Proof. change 63 with (Z.ones 6). by rewrite Z.land_ones by lia. Qed.

Lemma shiftr_6 x : Z.shiftr x 6 = x / 64.
Proof. by rewrite Z.shiftr_div_pow2 by lia. Qed.

Lemma land_1_testbit x n : 0 <= n -> Z.land (Z.shiftr x n) 1 = Z.b2z (Z.testbit x n).
Proof.
  intros Hn. change 1 with (Z.ones 1) at 1. rewrite Z.land_ones by lia.
  change (2 ^ 1) with 2. rewrite <- Z.bit0_mod, Z.shiftr_spec by lia. f_equal.
Qed.

Lemma testbit_u64 x n : 0 <= n -> Z.testbit (u64 x) n = (n <? 64) && Z.testbit x n.
Proof.
  intros Hn. unfold u64. destruct (Z.ltb_spec n 64) as [H|H]; simpl.
  - by rewrite Z.mod_pow2_bits_low.
  - rewrite Z.mod_pow2_bits_high by lia. done.
Qed.

Lemma testbit_1_shiftl k n : 0 <= k -> 0 <= n -> Z.testbit (Z.shiftl 1 k) n = (n =? k).
Proof.
  intros Hk Hn. rewrite Z.shiftl_spec by lia. destruct (Z.eqb_spec n k) as [->|Hne].
  - by rewrite Z.sub_diag.
  - destruct (Z.lt_trichotomy n k) as [?|[?|?]]; [|lia|].
    + apply Z.testbit_neg_r. lia.
    + change 1 with (2 ^ 0). rewrite Z.pow2_bits_false by lia. done.
Qed.


(** ** Presence in a map, as a boolean *)

Lemma bd_Some {A} (x : A) : bool_decide (is_Some (Some x)) = true.
Proof. apply bool_decide_eq_true_2. by eexists. Qed.

Lemma bd_None {A} : bool_decide (is_Some (@None A)) = false.
Proof. apply bool_decide_eq_false_2. by intros [? ?]. Qed.

(** ** Aligned addresses and flag bits below the alignment *)

Lemma land_mask_width w k x : 0 <= w -> 0 <= k -> 0 <= x < 2 ^ w ->
  Z.land x (Z.lnot (Z.ones k) mod 2 ^ w) = x - x mod 2 ^ k.
Proof.
  intros Hw Hk Hx.
  assert (Z.land x (Z.lnot (Z.ones k) mod 2 ^ w) = Z.ldiff x (Z.ones k)) as ->.
  { apply Z.bits_inj'. intros n Hn. rewrite Z.land_spec, Z.ldiff_spec.
    destruct (Z.lt_ge_cases n w).
    - by rewrite Z.mod_pow2_bits_low, Z.lnot_spec.
    - rewrite Z.mod_pow2_bits_high by lia.
      destruct (Z.eq_dec x 0) as [->|]; [by rewrite Z.testbit_0_l|].
      rewrite (Z.bits_above_log2 x n); [done | lia |].
      apply Z.log2_lt_pow2; [lia|]. apply Z.lt_le_trans with (2 ^ w); [lia|].
      apply Z.pow_le_mono_r; lia. }
  rewrite Z.ldiff_ones_r, Z.shiftr_div_pow2, Z.shiftl_mul_pow2 by done.
  rewrite (Z.div_mod x (2 ^ k)) at 2 by (apply Z.pow_nonzero; lia). lia.
Qed.

Lemma land_mask k x : 0 <= k -> 0 <= x < 2 ^ 64 ->
  Z.land x (u64 (Z.lnot (Z.ones k))) = x - x mod 2 ^ k.
Proof. apply (land_mask_width 64). done. Qed.

Lemma land_mask32 k x : 0 <= k -> 0 <= x < 2 ^ 32 ->
  Z.land x (u32 (Z.lnot (Z.ones k))) = x - x mod 2 ^ k.
Proof. apply (land_mask_width 32). done. Qed.

Lemma lor_low k x y : 0 <= k -> x mod 2 ^ k = 0 -> 0 <= y < 2 ^ k -> Z.lor x y = x + y.
Proof.
  intros Hk Hx Hy. rewrite <- Z.add_lor_land.
  assert (Z.land x y = 0) as ->; [|lia].
  apply Z.bits_inj'. intros n Hn. rewrite Z.land_spec, Z.testbit_0_l.
  destruct (Z.lt_ge_cases n k) as [H|H].
  - rewrite <- (Z.mod_pow2_bits_low x k) by lia. by rewrite Hx, Z.testbit_0_l.
  - destruct (Z.eq_dec y 0) as [->|]; [by rewrite Z.testbit_0_l, andb_false_r|].
    rewrite (Z.bits_above_log2 y n); [by rewrite andb_false_r | lia |].
    apply Z.log2_lt_pow2; [lia|]. apply Z.lt_le_trans with (2 ^ k); [lia|].
    apply Z.pow_le_mono_r; lia.
Qed.

Lemma mod_add_low k x y : 0 <= k -> x mod 2 ^ k = 0 -> 0 <= y < 2 ^ k -> (x + y) mod 2 ^ k = y.
Proof.
  intros Hk Hx Hy. rewrite Z.add_mod, Hx, Z.add_0_l, Z.mod_mod by lia.
  by apply Z.mod_small.
Qed.

(** ** Stateful computations that may run out of fuel

    A computation over a state [S] either has a result and a new state, or
    ([None]) has used up the fuel of a loop; the theorems about each component
    show that the fuel it is given is enough. *)

Definition M (S A : Type) : Type := S -> option (A * S).

Definition ret {S A} (a : A) : M S A := fun s => Some (a, s).
Definition bind {S A B} (c : M S A) (k : A -> M S B) : M S B :=
  fun s => match c s with Some (a, s') => k a s' | None => None end.
Definition get {S} : M S S := fun s => Some (s, s).
Definition modify {S} (f : S -> S) : M S unit := fun s => Some (tt, f s).

Declare Scope kernel_scope.
Delimit Scope kernel_scope with kernel.
Notation "'let*' x := c 'in' k" := (bind c (fun x => k))
  (at level 10, x name, c at level 100, k at level 200) : kernel_scope.
Notation "'let*' ' x := c 'in' k" := (bind c (fun y => match y with x => k end))
  (at level 10, x strict pattern, c at level 100, k at level 200) : kernel_scope.
Notation "'do*' c 'in' k" := (bind c (fun _ => k))
  (at level 10, c at level 100, k at level 200) : kernel_scope.
#[global] Open Scope kernel_scope.

(** [for (i = lo; ...; i++)] with a body that may leave the enclosing function:
    the result says whether the loop ran to its end. *)
Fixpoint for_m {S : Type} (n : nat) (i : Z) (body : Z -> M S bool) : M S bool :=
  match n with
  | O => ret true
  | Datatypes.S n =>
      let* go := body i in
      if go then for_m n (i + 1) body else ret false
  end.

(** A computation on a component of a larger state. *)
Definition zoom {S T A : Type} (view : S -> T) (put : T -> S -> S) (m : M T A) : M S A := fun s =>
  match m (view s) with Some (a, t) => Some (a, put t s) | None => None end.

Lemma bind_Some {S A B} (c : M S A) (k : A -> M S B) s a s' :
  c s = Some (a, s') -> bind c k s = k a s'.
Proof. intros H. unfold bind. by rewrite H. Qed.

(** [runs m s Q]: the computation has a result from [s], and it satisfies [Q]. *)
Definition runs {S A} (m : M S A) (s : S) (Q : A -> S -> Prop) : Prop :=
  match m s with Some (a, s') => Q a s' | None => False end.

Lemma runs_bind {S A B} (m : M S A) (k : A -> M S B) s Q :
  runs m s (fun a s' => runs (k a) s' Q) -> runs (bind m k) s Q.
Proof. unfold runs, bind. by destruct (m s) as [[a s']|]. Qed.

Lemma runs_ret {S A} (a : A) (s : S) (Q : A -> S -> Prop) : Q a s -> runs (ret a) s Q.
Proof. done. Qed.

Lemma runs_mono {S A} (m : M S A) s (Q Q' : A -> S -> Prop) :
  runs m s Q -> (forall a s', Q a s' -> Q' a s') -> runs m s Q'.
Proof. unfold runs. destruct (m s) as [[a s']|]; auto. Qed.

Lemma runs_and {S A} (m : M S A) s (P Q : A -> S -> Prop) : runs m s P -> runs m s Q -> runs m s (fun a s' => P a s' /\ Q a s').
Proof. unfold runs. by destruct (m s) as [[a s']|]. Qed.

Lemma runs_zoom {S T A} (view : S -> T) put (m : M T A) s (Q : A -> S -> Prop) :
  runs m (view s) (fun a t => Q a (put t s)) -> runs (zoom view put m) s Q.
Proof. unfold runs, zoom. by destruct (m (view s)) as [[a t]|]. Qed.

Lemma runs_result {S A} (m : M S A) s (Q : A -> S -> Prop) :
  runs m s Q <-> exists a s', m s = Some (a, s') /\ Q a s'.
Proof.
  unfold runs. split.
  - destruct (m s) as [[a s']|]; [by eauto | done].
  - intros (a & s' & -> & HQ). done.
Qed.

(** The first step of a sequence is an update or a read of the state. *)
Ltac pure_step := apply runs_bind; unfold runs at 1, modify, get.

(** ** Filling a range of bytes *)

Definition fill (p n v : Z) (m : mem) : mem := for_up 0 n (fun i m => wr m (p + i) v) m.

Lemma rd_fill p n v m x :
  rd (fill p n v m) x = if (p <=? x) && (x <? p + n) then v else rd m x.
Proof.
  unfold fill.
  pose proof (for_up_ind (fun k m' => rd m' x = if (p <=? x) && (x <? p + k) then v else rd m x)
    0 n (fun i m => wr m (p + i) v) m) as H.
  cbv beta in H. rewrite H; clear H.
  - destruct (Z.leb_spec p x), (Z.ltb_spec x (p + Z.max 0 n)), (Z.ltb_spec x (p + n)); simpl; lia || done.
  - destruct (Z.leb_spec p x), (Z.ltb_spec x (p + 0)); simpl; lia || done.
  - intros i m' Hi IH. destruct (Z.eq_dec (p + i) x) as [<-|].
    + rewrite rd_wr_eq. destruct (Z.leb_spec p (p + i)), (Z.ltb_spec (p + i) (p + (i + 1))); simpl; lia || done.
    + rewrite rd_wr_ne, IH by done.
      destruct (Z.leb_spec p x), (Z.ltb_spec x (p + i)), (Z.ltb_spec x (p + (i + 1))); simpl; lia || done.
Qed.

Lemma rd_fill_in p n v m x : p <= x < p + n -> rd (fill p n v m) x = v.
Proof.
  intros H. rewrite rd_fill. destruct (Z.leb_spec p x), (Z.ltb_spec x (p + n)); simpl; lia || done.
Qed.

Lemma rd_fill_out p n v m x : x < p \/ p + n <= x -> rd (fill p n v m) x = rd m x.
Proof.
  intros H. rewrite rd_fill. destruct (Z.leb_spec p x), (Z.ltb_spec x (p + n)); simpl; lia || done.
Qed.

(** ** Sums over the values of a map *)

Definition msum {A : Type} (f : A -> Z) (m : gmap Z A) : Z := map_fold (fun _ x n => f x + n) 0 m.

Lemma msum_insert {A : Type} (f : A -> Z) m k x : m !! k = None -> msum f (<[k := x]> m) = f x + msum f m.
Proof. intros Hk. unfold msum. rewrite (map_fold_insert_L (fun _ x n => f x + n)); [done | intros; lia | done]. Qed.

Lemma msum_delete {A : Type} (f : A -> Z) m k x : m !! k = Some x -> msum f m = f x + msum f (delete k m).
Proof.
  intros Hk. rewrite <- (insert_delete_id m k x) at 1 by done. apply msum_insert. apply lookup_delete_eq.
Qed.

Lemma msum_replace {A : Type} (f : A -> Z) m k x y : m !! k = Some x -> msum f (<[k := y]> m) = msum f m - f x + f y.
Proof.
  intros Hk. rewrite (msum_delete f m k x Hk). rewrite <- (insert_delete_eq m k y). rewrite msum_insert by apply lookup_delete_eq. lia.
Qed.

Lemma msum_nonneg {A : Type} (f : A -> Z) m : (forall x, 0 <= f x) -> 0 <= msum f m.
Proof. intros Hf. unfold msum. apply (map_fold_weak_ind (fun n _ => 0 <= n)); [done|]. intros i x m' n _ Hn. pose proof (Hf x). lia. Qed.

Lemma msum_ge {A : Type} (f : A -> Z) m k x : (forall x, 0 <= f x) -> m !! k = Some x -> f x <= msum f m.
Proof. intros Hf Hk. rewrite (msum_delete f m k x Hk). pose proof (msum_nonneg f (delete k m) Hf). lia. Qed.

(** The sum depends on the values of [f] only. *)
Lemma msum_fmap {A : Type} (f : A -> Z) m m' : (forall k, f <$> m' !! k = f <$> m !! k) -> msum f m' = msum f m.
Proof.
  intros H. assert (E : f <$> m' = f <$> m) by (apply map_eq; intros k; rewrite !lookup_fmap; done).
  assert (S : forall m : gmap Z A, msum f m = map_fold (fun _ n acc => n + acc) 0 (f <$> m)).
  { intros m0. induction m0 as [|k x m0 Hk IH] using map_ind; [by rewrite fmap_empty|].
    rewrite msum_insert, fmap_insert by done. rewrite (map_fold_insert_L (fun _ n acc => n + acc)), IH; [done | intros; lia | by rewrite lookup_fmap, Hk]. }
  by rewrite !S, E.
Qed.
