(* ===== verification/Alloc.v ===== *)
(** * The contract of the kernel heap

    What the components that call [kmalloc] and [kfree] rely on.  A heap state
    is a memory; [al_rep m L] says that in [m] exactly the payloads of [L]
    (start address to size) are handed out.  The kernel heap implements it
    (Heap.v); the arena and slab allocators are proved against it. *)
From S2P Require Import Prelude.

(** The payload words of [L] hold the same in both memories. *)
Definition same_payloads (L : gmap Z Z) (m m' : mem) : Prop :=
  forall q n x, L !! q = Some n -> q <= x < q + n -> rd m' x = rd m x.

(** Largest request the alignment arithmetic does not wrap on. *)
Definition MAX_REQUEST : Z := 2 ^ 64 - 16.

Class Allocator (alloc : Z -> mem -> option (Z * mem)) (free : Z -> mem -> mem) := {
  al_rep : mem -> gmap Z Z -> Prop;
  (** Payloads are non-null, 16-byte aligned, inside the address space ... *)
  al_range m L p n : al_rep m L -> L !! p = Some n ->
    0 < p /\ p mod 16 = 0 /\ 0 < n /\ p + n <= 2 ^ 64;
  (** ... and pairwise disjoint. *)
  al_disjoint m L p n q k : al_rep m L -> L !! p = Some n -> L !! q = Some k -> p <> q ->
    p + n <= q \/ q + k <= p;
  (** Allocation always returns, with NULL or a fresh payload of the size asked for. *)
  al_alloc m L n : al_rep m L -> 0 < n <= MAX_REQUEST ->
    alloc n m = Some (0, m) \/
    exists p k m', alloc n m = Some (p, m') /\ n <= k /\ L !! p = None /\
                   al_rep m' (<[p := k]> L) /\ same_payloads L m m';
  (** Releasing a payload leaves the others as they are. *)
  al_free m L p n : al_rep m L -> L !! p = Some n ->
    al_rep (free p m) (delete p L) /\ same_payloads (delete p L) m (free p m);
  (** The bookkeeping lies outside the payloads. *)
  al_write m L p n x v : al_rep m L -> L !! p = Some n -> p <= x < p + n -> al_rep (wr m x v) L
}.

Section Laws.
Context {alloc : Z -> mem -> option (Z * mem)} {free : Z -> mem -> mem} `{!Allocator alloc free}.

Lemma al_fill m L p n q k v : al_rep m L -> L !! p = Some n -> p <= q -> q + k <= p + n ->
  al_rep (fill q k v m) L.
Proof.
  intros Hr Hp Hq Hk. unfold fill.
  apply (for_up_ind (fun _ m' => al_rep m' L)); [done|].
  intros i m' Hi IH. eapply al_write; [done | done | lia].
Qed.

Lemma same_payloads_trans L m1 m2 m3 :
  same_payloads L m1 m2 -> same_payloads L m2 m3 -> same_payloads L m1 m3.
Proof. intros H1 H2 q n x Hq Hx. by rewrite (H2 q n x Hq Hx), (H1 q n x Hq Hx). Qed.

Lemma same_payloads_sub L L' m m' : L ⊆ L' -> same_payloads L' m m' -> same_payloads L m m'.
Proof. intros Hs H q n x Hq. apply H. by eapply lookup_weaken. Qed.

Lemma lookup_delete_list (ps : list Z) (L : gmap Z Z) q :
  foldl (fun L p => delete p L) L ps !! q = if decide (q ∈ ps) then None else L !! q.
Proof.
  revert L. induction ps as [|p ps IH]; intros L; [done|].
  cbn [foldl]. rewrite IH. destruct (decide (q ∈ ps)), (decide (q ∈ p :: ps)); try set_solver.
  - destruct (decide (q = p)) as [->|]; [by rewrite lookup_delete_eq | set_solver].
  - rewrite lookup_delete_ne; [done | set_solver].
Qed.

(** Releasing a list of distinct payloads one by one. *)
Lemma al_free_list ps m L : al_rep m L -> NoDup ps -> Forall (fun p => is_Some (L !! p)) ps ->
  al_rep (foldl (fun m p => free p m) m ps) (foldl (fun L p => delete p L) L ps) /\
  same_payloads (foldl (fun L p => delete p L) L ps) m (foldl (fun m p => free p m) m ps).
Proof.
  revert m L. induction ps as [|p ps IH]; intros m L Hr Hnd Hin; simpl; [by split; [|intros ?]|].
  apply NoDup_cons in Hnd as [Hp Hnd]. apply Forall_cons_iff in Hin as [[n Hn] Hin].
  destruct (al_free m L p n Hr Hn) as [Hr' Hs].
  destruct (IH (free p m) (delete p L) Hr' Hnd) as [Hr2 Hs2].
  - rewrite Forall_forall in Hin |- *. intros q Hq. rewrite lookup_delete_ne by set_solver. by apply Hin.
  - split; [done|]. eapply same_payloads_trans; [|done].
    eapply same_payloads_sub; [|done]. apply map_subseteq_spec. intros q k.
    rewrite lookup_delete_list. by destruct (decide _).
Qed.
End Laws.
