(* ===== verification/Bytes.v ===== *)
(** * Byte buffers

    Blocks, packed structures and C strings are lists of bytes: little-endian
    fields, sub-ranges, overwriting a range in place. *)
From S2P Require Import Prelude.

(** Byte [i] of a buffer; for a C string, the terminator beyond its end. *)
Definition byte (d : list Z) (i : Z) : Z := nth (Z.to_nat i) d 0.

Definition bytes_ok (d : list Z) : Prop := Forall (fun x => 0 <= x < 256) d.

(** The bytes [d[o .. o + n)]. *)
Definition slice (o n : Z) (d : list Z) : list Z := take (Z.to_nat n) (drop (Z.to_nat o) d).

(** [d] with [l] copied to offset [o]. *)
Definition splice (o : Z) (l d : list Z) : list Z :=
  take (Z.to_nat o) d ++ l ++ drop (Z.to_nat o + length l) d.

Fixpoint le_bytes (n : nat) (v : Z) : list Z :=
  match n with O => [] | S n => v mod 256 :: le_bytes n (v / 256) end.

Fixpoint le_val (l : list Z) : Z :=
  match l with [] => 0 | b :: l => b + 256 * le_val l end.

Definition get16 (d : list Z) (o : Z) : Z := le_val (slice o 2 d).
Definition get32 (d : list Z) (o : Z) : Z := le_val (slice o 4 d).
Definition put32 (o v : Z) (d : list Z) : list Z := splice o (le_bytes 4 v) d.

(** ** Ranges *)

Lemma length_slice o n d : 0 <= o -> 0 <= n -> o + n <= Z.of_nat (length d) -> length (slice o n d) = Z.to_nat n.
Proof. intros. unfold slice. rewrite length_take, length_drop. lia. Qed.

Lemma length_splice o l d : 0 <= o -> o + Z.of_nat (length l) <= Z.of_nat (length d) -> length (splice o l d) = length d.
Proof. intros. unfold splice. rewrite !length_app, length_take, length_drop. lia. Qed.

Lemma slice_splice_same o l d : 0 <= o -> o + Z.of_nat (length l) <= Z.of_nat (length d) ->
  slice o (Z.of_nat (length l)) (splice o l d) = l.
Proof.
  intros. unfold slice, splice. rewrite drop_app_length' by (rewrite length_take; lia).
  by rewrite Nat2Z.id, take_app_length.
Qed.

Lemma lookup_slice o n d i : 0 <= o -> slice o n d !! i = if decide (i < Z.to_nat n)%nat then d !! (Z.to_nat o + i)%nat else None.
Proof.
  intros. unfold slice. destruct (decide _).
  - by rewrite lookup_take_lt, lookup_drop.
  - by rewrite lookup_take_ge by lia.
Qed.

Lemma lookup_splice o l d i : 0 <= o -> o + Z.of_nat (length l) <= Z.of_nat (length d) ->
  splice o l d !! i = if decide (Z.to_nat o <= i < Z.to_nat o + length l)%nat then l !! (i - Z.to_nat o)%nat else d !! i.
Proof.
  intros. unfold splice. destruct (decide (i < Z.to_nat o)%nat).
  - rewrite lookup_app_l by (rewrite length_take; lia). rewrite decide_False by lia. by rewrite lookup_take_lt.
  - rewrite lookup_app_r by (rewrite length_take; lia). rewrite length_take, Nat.min_l by lia.
    destruct (decide (i < Z.to_nat o + length l)%nat).
    + rewrite decide_True by lia. by rewrite lookup_app_l by lia.
    + rewrite decide_False by lia. rewrite lookup_app_r by lia. rewrite lookup_drop. f_equal. lia.
Qed.

Lemma slice_splice_disjoint o n o' l d : 0 <= o -> 0 <= o' -> o' + Z.of_nat (length l) <= Z.of_nat (length d) ->
  o + n <= o' \/ o' + Z.of_nat (length l) <= o -> slice o n (splice o' l d) = slice o n d.
Proof.
  intros. apply list_eq. intros i. rewrite !lookup_slice by done. destruct (decide _); [|done].
  rewrite lookup_splice by done. by rewrite decide_False by lia.
Qed.

Lemma slice_slice o n o' n' d : 0 <= o -> 0 <= o' -> 0 <= n' -> o' + n' <= n -> slice o' n' (slice o n d) = slice (o + o') n' d.
Proof.
  intros. apply list_eq. intros i. rewrite !lookup_slice by lia. destruct (decide _); [|done].
  rewrite decide_True by lia. f_equal. lia.
Qed.

Lemma slice_all d n : Z.of_nat (length d) <= n -> slice 0 n d = d.
Proof. intros. unfold slice. simpl. rewrite drop_0, take_ge by lia. done. Qed.

(** Fields of a concatenation: skip whole components, then take one. *)
Lemma slice_app_skip a o n d : Z.of_nat (length a) <= o -> slice o n (a ++ d) = slice (o - Z.of_nat (length a)) n d.
Proof.
  intros. unfold slice. rewrite drop_app_ge by lia. do 2 f_equal. lia.
Qed.

Lemma slice_app_here a o n d : o = 0 -> n = Z.of_nat (length a) -> slice o n (a ++ d) = a.
Proof. intros -> ->. unfold slice. simpl. by rewrite drop_0, Nat2Z.id, take_app_length. Qed.

Lemma slice_here a o n : o = 0 -> n = Z.of_nat (length a) -> slice o n a = a.
Proof. intros -> ->. apply slice_all. lia. Qed.

(** ** Little-endian fields *)

Lemma length_le_bytes n v : length (le_bytes n v) = n.
Proof. revert v. induction n as [|n IH]; intros v; simpl; [done|]. by rewrite IH. Qed.

Lemma le_bytes_ok n v : bytes_ok (le_bytes n v).
Proof.
  revert v. induction n as [|n IH]; intros v; constructor; [|apply IH]. apply Z.mod_pos_bound. lia.
Qed.

Lemma le_val_bytes n v : 0 <= v < 256 ^ Z.of_nat n -> le_val (le_bytes n v) = v.
Proof.
  revert v. induction n as [|n IH]; intros v Hv; [simpl in *; lia|]. cbn [le_bytes le_val].
  rewrite IH; [pose proof (Z.div_mod v 256); lia|].
  rewrite Nat2Z.inj_succ, Z.pow_succ_r in Hv by lia.
  split; [apply Z.div_pos; lia|]. apply Z.div_lt_upper_bound; lia.
Qed.

Lemma le_val_bound l : bytes_ok l -> 0 <= le_val l < 256 ^ Z.of_nat (length l).
Proof.
  induction 1 as [|b l Hb Hl IH]; [simpl; lia|]. cbn [le_val length].
  rewrite Nat2Z.inj_succ, Z.pow_succ_r by lia. lia.
Qed.

Lemma bytes_ok_slice o n d : bytes_ok d -> bytes_ok (slice o n d).
Proof. intros H. by apply Forall_take, Forall_drop. Qed.

Lemma bytes_ok_splice o l d : bytes_ok d -> bytes_ok l -> bytes_ok (splice o l d).
Proof. intros Hd Hl. apply Forall_app. split; [by apply Forall_take|]. apply Forall_app. split; [done | by apply Forall_drop]. Qed.

Lemma get32_range d o : bytes_ok d -> 0 <= get32 d o < 2 ^ 32.
Proof.
  intros H. pose proof (le_val_bound _ (bytes_ok_slice o 4 d H)) as Hb. unfold get32.
  assert (Hl : (length (slice o 4 d) <= 4)%nat) by (unfold slice; rewrite length_take; lia).
  assert (256 ^ Z.of_nat (length (slice o 4 d)) <= 256 ^ 4) by (apply Z.pow_le_mono_r; lia).
  change (2 ^ 32) with (256 ^ 4). lia.
Qed.

Lemma get32_put32 o v d : 0 <= o -> o + 4 <= Z.of_nat (length d) -> 0 <= v < 2 ^ 32 -> get32 (put32 o v d) o = v.
Proof.
  intros. unfold get32, put32. change 4 with (Z.of_nat (length (le_bytes 4 v))) at 1.
  rewrite slice_splice_same by (rewrite ?length_le_bytes; lia). by apply le_val_bytes.
Qed.

Lemma get32_put32_ne o o' v d : 0 <= o -> 0 <= o' -> o' + 4 <= Z.of_nat (length d) -> o + 4 <= o' \/ o' + 4 <= o ->
  get32 (put32 o' v d) o = get32 d o.
Proof. intros. unfold get32, put32. by rewrite slice_splice_disjoint by (rewrite ?length_le_bytes; lia). Qed.

Lemma length_put32 o v d : 0 <= o -> o + 4 <= Z.of_nat (length d) -> length (put32 o v d) = length d.
Proof. intros. apply length_splice; rewrite ?length_le_bytes; lia. Qed.

(** ** Single bytes and bits *)

Lemma byte_lookup d i : byte d i = default 0 (d !! Z.to_nat i).
Proof. apply nth_lookup. Qed.

Lemma byte_insert d k v j : 0 <= k < Z.of_nat (length d) -> 0 <= j ->
  byte (<[Z.to_nat k := v]> d) j = if decide (j = k) then v else byte d j.
Proof.
  intros Hk Hj. rewrite !byte_lookup. destruct (decide (j = k)) as [->|].
  - by rewrite list_lookup_insert_eq by lia.
  - by rewrite list_lookup_insert_ne by lia.
Qed.

Lemma byte_range d i : bytes_ok d -> 0 <= byte d i < 256.
Proof.
  intros H. rewrite byte_lookup. destruct (d !! Z.to_nat i) as [x|] eqn:E; simpl; [|lia].
  by eapply (Forall_lookup_1 _ _ _ _ H).
Qed.

Lemma bytes_ok_insert d k v : bytes_ok d -> 0 <= v < 256 -> bytes_ok (<[k := v]> d).
Proof. intros. by apply Forall_insert. Qed.

Lemma byte_slice o n d j : 0 <= o -> 0 <= j < n -> byte (slice o n d) j = byte d (o + j).
Proof.
  intros. rewrite !byte_lookup, lookup_slice by done. rewrite decide_True by lia.
  by rewrite Z2Nat.inj_add by lia.
Qed.

(** Bit [i] of a bitmap. *)
Definition bit_set (d : list Z) (i : Z) : bool := Z.testbit (byte d (i / 8)) (i mod 8).

Lemma land_shiftl_1 x k : 0 <= k -> (Z.land x (Z.shiftl 1 k) =? 0) = negb (Z.testbit x k).
Proof.
  intros Hk. destruct (Z.testbit x k) eqn:E; simpl.
  - apply Z.eqb_neq. intros H. apply (f_equal (fun y => Z.testbit y k)) in H.
    rewrite Z.land_spec, E, testbit_1_shiftl, Z.eqb_refl, Z.testbit_0_l in H by lia. done.
  - apply Z.eqb_eq, Z.bits_inj'. intros n Hn. rewrite Z.land_spec, testbit_1_shiftl, Z.testbit_0_l by lia.
    destruct (Z.eqb_spec n k) as [->|]; [by rewrite E | by rewrite andb_false_r].
Qed.

Lemma testbit_u8 x n : 0 <= n < 8 -> Z.testbit (u8 x) n = Z.testbit x n.
Proof. intros Hn. unfold u8. by rewrite Z.mod_pow2_bits_low by lia. Qed.

Lemma u8_range x : 0 <= u8 x < 256.
Proof. apply Z.mod_pos_bound. lia. Qed.

(** Replacing the byte that holds bit [i] by one that differs from it in that
    bit only. *)
Lemma bit_set_insert d i v j : 0 <= i -> i / 8 < Z.of_nat (length d) -> 0 <= j ->
  (forall n, 0 <= n < 8 -> n <> i mod 8 -> Z.testbit v n = Z.testbit (byte d (i / 8)) n) ->
  bit_set (<[Z.to_nat (i / 8) := v]> d) j = if decide (j = i) then Z.testbit v (i mod 8) else bit_set d j.
Proof.
  intros Hi Hd Hj Hv. unfold bit_set.
  assert (0 <= i / 8) by (apply Z.div_pos; lia). assert (0 <= j / 8) by (apply Z.div_pos; lia).
  pose proof (Z.div_mod i 8). pose proof (Z.div_mod j 8).
  pose proof (Z.mod_pos_bound i 8). pose proof (Z.mod_pos_bound j 8).
  rewrite byte_insert by lia. destruct (decide (j / 8 = i / 8)) as [E|E].
  - destruct (decide (j = i)) as [->|]; [done|]. rewrite E. apply Hv; lia.
  - rewrite decide_False by congruence. done.
Qed.

(** ** Automation: lists of bytes *)

Lemma bytes_ok_app a b : bytes_ok a -> bytes_ok b -> bytes_ok (a ++ b).
Proof. intros. by apply Forall_app. Qed.
Lemma bytes_ok_cons x l : 0 <= x < 256 -> bytes_ok l -> bytes_ok (x :: l).
Proof. by constructor. Qed.
Lemma bytes_ok_nil : bytes_ok [].
Proof. constructor. Qed.
Lemma bytes_ok_zeros n : bytes_ok (replicate n 0).
Proof. apply Forall_replicate. lia. Qed.

Create HintDb bytes.
#[export] Hint Resolve le_bytes_ok bytes_ok_slice bytes_ok_splice bytes_ok_insert u8_range
  bytes_ok_app bytes_ok_cons bytes_ok_nil bytes_ok_zeros : bytes.
#[export] Hint Extern 1 (_ <= _ < _) => lia : bytes.
