(* ===== verification/Pmm.v ===== *)
(** * Physical memory manager (src/mm/phys/pmm.c)

    The bitmap frame allocator with per-frame reference counts: its state,
    its operations, the representation invariant, and the refinement of the
    bitmap and the counters to a map from frames to live references. *)
From S2P Require Import Prelude.

Module Pmm.

Definition PAGE_SIZE : Z := 4096.
Definition MAX_FRAMES : Z := 2 ^ 20.
Definition BMP_WORDS : Z := MAX_FRAMES / 64.
Definition RESERVED_END : Z := 2 * 1024 * 1024.

Record pmm := mkPmm {
  g_bitmap : mem;        (* one bit per frame, 1 = used *)
  g_refcount : mem;      (* one uint8_t per frame *)
  g_nframes : Z;
  g_free : Z
}.

Definition set_bitmap (s : pmm) (b : mem) : pmm :=
  mkPmm b (g_refcount s) (g_nframes s) (g_free s).
Definition set_refcount (s : pmm) (r : mem) : pmm :=
  mkPmm (g_bitmap s) r (g_nframes s) (g_free s).
Definition set_free (s : pmm) (n : Z) : pmm :=
  mkPmm (g_bitmap s) (g_refcount s) (g_nframes s) n.

Definition mark_used (f : Z) (s : pmm) : pmm :=
  let w := Z.shiftr f 6 in
  set_bitmap s (wr (g_bitmap s) w
    (Z.lor (rd (g_bitmap s) w) (u64 (Z.shiftl 1 (Z.land f 63))))).

Definition mark_free (f : Z) (s : pmm) : pmm :=
  let w := Z.shiftr f 6 in
  set_bitmap s (wr (g_bitmap s) w
    (Z.land (rd (g_bitmap s) w) (u64 (Z.lnot (u64 (Z.shiftl 1 (Z.land f 63))))))).

Definition is_used (f : Z) (s : pmm) : bool :=
  ctrue (Z.land (Z.shiftr (rd (g_bitmap s) (Z.shiftr f 6)) (Z.land f 63)) 1).

Definition pmm_init (ram_bytes : Z) (s0 : pmm) : os_status * pmm :=
  let n := ram_bytes / PAGE_SIZE in
  let nframes := if MAX_FRAMES <? n then MAX_FRAMES else n in
  let s := mkPmm (for_up 0 BMP_WORDS (fun i b => wr b i 0) (g_bitmap s0))
                 (g_refcount s0) nframes (g_free s0) in
  let reserved := RESERVED_END / PAGE_SIZE in
  let s := for_up 0 (Z.min reserved nframes) mark_used s in
  let s := set_free s (u64 (nframes - reserved)) in
  let hstart := (16 * 1024 * 1024) / PAGE_SIZE in
  let hend := (48 * 1024 * 1024) / PAGE_SIZE in
  let s := for_up hstart (Z.min hend nframes)
             (fun f s => if is_used f s then s
                         else let s := mark_used f s in
                              set_free s (u64 (g_free s - 1))) s in
  (OS_OK, s).

(** The scan [for (f = 0; f < g_nframes; f++) if (!is_used(f)) ...]. *)
Fixpoint first_free (n : nat) (f : Z) (s : pmm) : option Z :=
  match n with
  | O => None
  | S n' => if is_used f s then first_free n' (f + 1) s else Some f
  end.

Definition pmm_alloc_frame (s : pmm) : Z * pmm :=
  match first_free (Z.to_nat (g_nframes s)) 0 s with
  | Some f =>
      let s := mark_used f s in
      let s := set_free s (u64 (g_free s - 1)) in
      let s := set_refcount s (wr (g_refcount s) f 1) in
      (f * PAGE_SIZE, s)
  | None => (0, s)
  end.

Definition pmm_free_frame (phys : Z) (s : pmm) : pmm :=
  let f := phys / PAGE_SIZE in
  if (g_nframes s <=? f) || negb (is_used f s) then s
  else if 1 <? rd (g_refcount s) f then
    set_refcount s (wr (g_refcount s) f (u8 (rd (g_refcount s) f - 1)))
  else
    let s := set_refcount s (wr (g_refcount s) f 0) in
    let s := mark_free f s in
    set_free s (u64 (g_free s + 1)).

Definition pmm_addref (phys : Z) (s : pmm) : pmm :=
  let f := phys / PAGE_SIZE in
  if (f <? g_nframes s) && (rd (g_refcount s) f <? 255) then
    set_refcount s (wr (g_refcount s) f (u8 (rd (g_refcount s) f + 1)))
  else s.

Definition pmm_refcount (phys : Z) (s : pmm) : Z :=
  let f := phys / PAGE_SIZE in
  if f <? g_nframes s then rd (g_refcount s) f else 0.

Definition pmm_free_count (s : pmm) : Z := g_free s.

(** The zero-initialised statics before [pmm_init]. *)
Definition pmm_boot : pmm := mkPmm ∅ ∅ 0 0.

Definition count_free (s : pmm) : Z :=
  countb (fun f => negb (is_used f s)) (Z.to_nat (g_nframes s)).

(** ** Bitmap laws *)

Lemma is_used_testbit f s :
  0 <= f -> is_used f s = Z.testbit (rd (g_bitmap s) (f / 64)) (f mod 64).
Proof.
  intros Hf. unfold is_used. rewrite shiftr_6, land_63.
  rewrite land_1_testbit by (apply Z.mod_pos_bound; lia).
  by destruct (Z.testbit _ _).
Qed.

Lemma same_cell f g : 0 <= f -> 0 <= g ->
  f / 64 = g / 64 -> f mod 64 = g mod 64 -> f = g.
Proof. intros. rewrite (Z.div_mod f 64), (Z.div_mod g 64) by lia. congruence. Qed.

Lemma is_used_mark_used f g s : 0 <= f -> 0 <= g ->
  is_used g (mark_used f s) = (g =? f) || is_used g s.
Proof.
  intros Hf Hg. rewrite !is_used_testbit by done. unfold mark_used. simpl.
  rewrite shiftr_6, land_63.
  pose proof (Z.mod_pos_bound f 64). pose proof (Z.mod_pos_bound g 64).
  destruct (Z.eq_dec (f / 64) (g / 64)) as [E|E].
  - rewrite E, rd_wr_eq, Z.lor_spec, testbit_u64, testbit_1_shiftl by lia.
    rewrite (proj2 (Z.ltb_lt _ _)) by lia. simpl. rewrite orb_comm. f_equal.
    destruct (Z.eqb_spec (g mod 64) (f mod 64)), (Z.eqb_spec g f); try done.
    + exfalso. eauto using same_cell.
    + subst. done.
  - rewrite rd_wr_ne by done. destruct (Z.eqb_spec g f); [subst; done | done].
Qed.

Lemma is_used_mark_free f g s : 0 <= f -> 0 <= g ->
  is_used g (mark_free f s) = negb (g =? f) && is_used g s.
Proof.
  intros Hf Hg. rewrite !is_used_testbit by done. unfold mark_free. simpl.
  rewrite shiftr_6, land_63.
  pose proof (Z.mod_pos_bound f 64). pose proof (Z.mod_pos_bound g 64).
  destruct (Z.eq_dec (f / 64) (g / 64)) as [E|E].
  - rewrite E, rd_wr_eq, Z.land_spec, testbit_u64, Z.lnot_spec, testbit_u64,
      testbit_1_shiftl by lia.
    rewrite (proj2 (Z.ltb_lt _ _)) by lia. simpl. rewrite andb_comm. f_equal.
    destruct (Z.eqb_spec (g mod 64) (f mod 64)), (Z.eqb_spec g f); try done.
    + exfalso. eauto using same_cell.
    + subst. done.
  - rewrite rd_wr_ne by done. destruct (Z.eqb_spec g f); [subst; done | done].
Qed.

Lemma is_used_ext f s s' : g_bitmap s = g_bitmap s' -> is_used f s = is_used f s'.
Proof. unfold is_used. by intros ->. Qed.

Lemma count_free_ext s s' : g_bitmap s = g_bitmap s' -> g_nframes s = g_nframes s' ->
  count_free s = count_free s'.
Proof.
  unfold count_free. intros Hb ->. apply countb_ext. intros.
  by rewrite (is_used_ext i s s').
Qed.

Lemma count_free_mark_used f s : 0 <= f < g_nframes s -> is_used f s = false ->
  count_free (mark_used f s) = count_free s - 1.
Proof.
  intros Hf Hu. unfold count_free. simpl.
  rewrite (countb_change (fun g => negb (is_used g s)) _ _ f); [|lia|].
  - rewrite is_used_mark_used, Z.eqb_refl, Hu by lia. simpl. lia.
  - intros i H0 Hi. rewrite is_used_mark_used by lia. by rewrite (proj2 (Z.eqb_neq _ _)).
Qed.

Lemma count_free_mark_free f s : 0 <= f < g_nframes s -> is_used f s = true ->
  count_free (mark_free f s) = count_free s + 1.
Proof.
  intros Hf Hu. unfold count_free. simpl.
  rewrite (countb_change (fun g => negb (is_used g s)) _ _ f); [|lia|].
  - rewrite is_used_mark_free, Z.eqb_refl, Hu by lia. simpl. lia.
  - intros i H0 Hi. rewrite is_used_mark_free by lia. by rewrite (proj2 (Z.eqb_neq _ _)).
Qed.

(** ** The first-fit scan *)

Lemma first_free_Some n f s g : first_free n f s = Some g ->
  f <= g < f + Z.of_nat n /\ is_used g s = false /\
  (forall h, f <= h < g -> is_used h s = true).
Proof.
  revert f. induction n as [|n IH]; intros f; simpl; [done|].
  destruct (is_used f s) eqn:E.
  - intros H. apply IH in H as (? & ? & Hlow). split; [lia|]. split; [done|].
    intros h Hh. destruct (Z.eq_dec h f) as [->|]; [done|]. apply Hlow. lia.
  - intros [= ->]. split; [lia|]. split; [done|]. lia.
Qed.

Lemma first_free_None n f s : first_free n f s = None ->
  forall h, f <= h < f + Z.of_nat n -> is_used h s = true.
Proof.
  revert f. induction n as [|n IH]; intros f; simpl; [lia|].
  destruct (is_used f s) eqn:E; [|done]. intros H h Hh.
  destruct (Z.eq_dec h f) as [->|]; [done|]. eapply IH; [done|lia].
Qed.

(** ** Representation invariant *)

Record pmm_ok (s : pmm) : Prop := {
  ok_nframes : 0 <= g_nframes s <= MAX_FRAMES;
  ok_free : g_free s = count_free s;
  ok_ref : forall f, 0 <= rd (g_refcount s) f <= 255
}.

Lemma count_free_range s : pmm_ok s -> 0 <= g_free s <= MAX_FRAMES.
Proof.
  intros [Hn Hf _]. rewrite Hf. unfold count_free.
  pose proof (countb_bounds (fun f => negb (is_used f s)) (Z.to_nat (g_nframes s))). lia.
Qed.

Lemma u64_small x : 0 <= x <= MAX_FRAMES -> u64 x = x.
Proof. intros H. apply Z.mod_small. unfold MAX_FRAMES in H. lia. Qed.

Lemma alloc_Some_ok s f : pmm_ok s ->
  first_free (Z.to_nat (g_nframes s)) 0 s = Some f -> pmm_ok (pmm_alloc_frame s).2.
Proof.
  intros Hok Hff. pose proof (count_free_range s Hok) as Hr. destruct Hok as [Hn Hf Hrc].
  apply first_free_Some in Hff as Hs. destruct Hs as (Hb & Hu & _).
  unfold pmm_alloc_frame. rewrite Hff. simpl. constructor; simpl.
  - done.
  - assert (Hc : count_free (mark_used f s) = count_free s - 1)
      by (apply count_free_mark_used; [lia | done]).
    assert (0 <= count_free (mark_used f s)) by (apply countb_bounds).
    rewrite (count_free_ext _ (mark_used f s)) by done.
    rewrite u64_small by lia. lia.
  - intros g. destruct (Z.eq_dec f g) as [->|]; mem_simpl; [lia | apply Hrc].
Qed.

Lemma alloc_ok s : pmm_ok s -> pmm_ok (pmm_alloc_frame s).2.
Proof.
  intros Hok. destruct (first_free (Z.to_nat (g_nframes s)) 0 s) as [f|] eqn:E.
  - by eapply alloc_Some_ok.
  - unfold pmm_alloc_frame. by rewrite E.
Qed.

Lemma addref_ok phys s : pmm_ok s -> pmm_ok (pmm_addref phys s).
Proof.
  intros [Hn Hf Hrc]. unfold pmm_addref.
  destruct ((_ <? _) && _) eqn:E; [|by constructor].
  apply andb_true_iff in E as [_ E%Z.ltb_lt].
  constructor; simpl; [done | by rewrite (count_free_ext _ s) |].
  intros g. specialize (Hrc (phys / PAGE_SIZE)) as Hrc'.
  destruct (Z.eq_dec (phys / PAGE_SIZE) g) as [<-|].
  - rewrite rd_wr_eq. unfold u8. rewrite Z.mod_small; lia.
  - by rewrite rd_wr_ne.
Qed.

Lemma free_ok phys s : 0 <= phys -> pmm_ok s -> pmm_ok (pmm_free_frame phys s).
Proof.
  intros Hp Hok. pose proof (count_free_range s Hok) as Hr. destruct Hok as [Hn Hf Hrc].
  unfold pmm_free_frame.
  assert (0 <= phys / PAGE_SIZE) by (apply Z.div_pos; unfold PAGE_SIZE; lia).
  destruct (_ || _) eqn:E; [by constructor|].
  apply orb_false_iff in E as [E1%Z.leb_gt E2%negb_false_iff].
  specialize (Hrc (phys / PAGE_SIZE)) as Hrc'.
  assert (forall v, 0 <= v <= 255 -> forall g,
            0 <= rd (wr (g_refcount s) (phys / PAGE_SIZE) v) g <= 255) as Hwr.
  { intros v Hv g. destruct (Z.eq_dec (phys / PAGE_SIZE) g) as [<-|];
      [by rewrite rd_wr_eq | by rewrite rd_wr_ne]. }
  destruct (1 <? _) eqn:E3; constructor; simpl; try done.
  - intros g. apply Hwr. apply Z.ltb_lt in E3. unfold u8. rewrite Z.mod_small; lia.
  - rewrite (count_free_ext _ (mark_free (phys / PAGE_SIZE) s)) by done.
    assert (Hc : count_free (mark_free (phys / PAGE_SIZE) s) = count_free s + 1)
      by (apply count_free_mark_free; [lia | done]).
    pose proof (countb_bounds (fun f => negb (is_used f (mark_free (phys / PAGE_SIZE) s)))
                  (Z.to_nat (g_nframes s))) as Hb.
    unfold count_free in Hc at 1. simpl in Hc. rewrite Hc in Hb.
    rewrite u64_small by lia. rewrite Hf. symmetry. exact Hc.
  - intros g. apply Hwr. lia.
Qed.

(** ** Boot *)

(** The frames [pmm_init] keeps for itself: the first 2 MB and the kernel
    heap window [16 MB, 48 MB). *)
Definition reserved (f : Z) : bool := (f <? 512) || ((4096 <=? f) && (f <? 12288)).

Definition frames_of (ram_bytes : Z) : Z :=
  if MAX_FRAMES <? ram_bytes / PAGE_SIZE then MAX_FRAMES else ram_bytes / PAGE_SIZE.

Lemma clear_bitmap b i : 0 <= i < BMP_WORDS ->
  rd (for_up 0 BMP_WORDS (fun i b => wr b i 0) b) i = 0.
Proof.
  intros Hi.
  assert (H : (fun k b => forall j, 0 <= j < k -> rd b j = 0) (Z.max 0 BMP_WORDS)
                (for_up 0 BMP_WORDS (fun i b => wr b i 0) b)).
  { apply for_up_ind; [lia|]. intros k b' Hk IH j Hj.
    destruct (Z.eq_dec k j) as [->|]; mem_simpl; [done|]. apply IH. lia. }
  apply H. lia.
Qed.

(** State after the two reservation loops have marked the frames below [i]
    and the heap frames below [j]. *)
Definition booting (r : mem) (n : Z) (used : Z -> bool) (s : pmm) : Prop :=
  g_refcount s = r /\ g_nframes s = n /\
  (forall f, 0 <= f < n -> is_used f s = used f).

Lemma count_booting r n used s : booting r n used s ->
  count_free s = countb (fun f => negb (used f)) (Z.to_nat n).
Proof.
  intros (_ & <- & Hu). apply countb_ext. intros f Hf. rewrite Hu by lia. done.
Qed.

Lemma countb_ge k n : 0 <= k <= Z.of_nat n ->
  countb (fun f => negb (f <? k)) n = Z.of_nat n - k.
Proof.
  induction n as [|n IH]; intros Hk; simpl; [lia|].
  destruct (Z.eq_dec k (Z.of_nat (S n))) as [->|].
  - rewrite (countb_ext _ (fun _ => false)).
    + assert (forall m, countb (fun _ => false) m = 0) as -> by (induction m; simpl; lia).
      rewrite (proj2 (Z.ltb_lt _ _)) by lia. simpl. lia.
    + intros i Hi. rewrite (proj2 (Z.ltb_lt _ _)) by lia. done.
  - rewrite IH by lia. rewrite (proj2 (Z.ltb_ge _ _)) by lia. simpl. lia.
Qed.

Lemma boot_low b r n fr : 0 <= n <= MAX_FRAMES ->
  booting r n (fun f => f <? Z.min 512 n)
    (for_up 0 (Z.min 512 n) mark_used
       (mkPmm (for_up 0 BMP_WORDS (fun i b => wr b i 0) b) r n fr)).
Proof.
  intros Hn.
  assert (H : (fun i s => booting r n (fun f => f <? i) s) (Z.max 0 (Z.min 512 n))
    (for_up 0 (Z.min 512 n) mark_used
       (mkPmm (for_up 0 BMP_WORDS (fun i b => wr b i 0) b) r n fr))).
  { apply for_up_ind.
    - split; [done|]. split; [done|]. intros f Hf. simpl.
      rewrite is_used_testbit by lia. cbn [g_bitmap]. rewrite clear_bitmap.
      + rewrite Z.testbit_0_l, (proj2 (Z.ltb_ge _ _)) by lia. done.
      + unfold BMP_WORDS, MAX_FRAMES in *. split; [apply Z.div_pos; lia|].
        apply Z.div_lt_upper_bound; [lia|].
        change (64 * (2 ^ 20 / 64)) with (2 ^ 20). lia.
    - intros i s Hi (Hr & Hnf & Hu). split; [done|]. split; [done|]. intros f Hf.
      rewrite is_used_mark_used, Hu by lia.
      destruct (Z.eqb_spec f i), (Z.ltb_spec f i), (Z.ltb_spec f (i + 1)); try done; lia. }
  by replace (Z.max 0 (Z.min 512 n)) with (Z.min 512 n) in H by lia.
Qed.

Lemma boot_heap r n s : 0 <= n <= MAX_FRAMES -> 
  booting r n (fun f => f <? 512) s -> g_free s = count_free s ->
  let s' := for_up 4096 (Z.min 12288 n)
     (fun f s => if is_used f s then s
                 else set_free (mark_used f s) (u64 (g_free (mark_used f s) - 1))) s in
  booting r n reserved s' /\ g_free s' = count_free s'.
Proof.
  intros Hn H0 Hf0 s'.
  assert (H : (fun i s => booting r n (fun f => (f <? 512) || ((4096 <=? f) && (f <? i))) s
                 /\ g_free s = count_free s) (Z.max 4096 (Z.min 12288 n)) s').
  { apply for_up_ind.
    - split; [|done]. destruct H0 as (? & ? & Hu). split; [done|]. split; [done|].
      intros f Hf. rewrite Hu by lia.
      destruct (Z.leb_spec 4096 f), (Z.ltb_spec f 4096); simpl;
        rewrite ?orb_false_r; lia || done.
    - intros i t Hi [(Hr & Hnf & Hu) Hc].
      rewrite (Hu i) by lia.
      rewrite (proj2 (Z.ltb_ge i 512)), (proj2 (Z.leb_le 4096 i)), Z.ltb_irrefl by lia.
      cbn [orb andb]. split.
      + split; [done|]. split; [done|]. intros f Hf.
        rewrite (is_used_ext _ _ (mark_used i t)) by done.
        rewrite is_used_mark_used, Hu by lia.
        destruct (Z.eqb_spec f i), (Z.ltb_spec f 512), (Z.leb_spec 4096 f),
          (Z.ltb_spec f i), (Z.ltb_spec f (i + 1)); try done; lia.
      + cbn [g_free set_free].
        rewrite (count_free_ext _ (mark_used i t)) by done.
        assert (is_used i t = false) as Hfree.
        { rewrite Hu by lia.
          rewrite (proj2 (Z.ltb_ge i 512)), Z.ltb_irrefl, andb_false_r by lia. done. }
        pose proof (count_free_mark_used i t ltac:(lia) Hfree) as Hm.
        assert (0 <= count_free (mark_used i t)) by apply countb_bounds.
        assert (count_free t <= MAX_FRAMES).
        { unfold count_free.
          pose proof (countb_bounds (fun f => negb (is_used f t)) (Z.to_nat (g_nframes t))). lia. }
        rewrite u64_small; change (g_free (mark_used i t)) with (g_free t); lia. }
  destruct H as [(Hr & Hnf & Hu) Hc]. split; [|done]. split; [done|]. split; [done|].
  intros f Hf. rewrite Hu by lia. unfold reserved.
  destruct (Z.ltb_spec f 512), (Z.leb_spec 4096 f), (Z.ltb_spec f 12288),
    (Z.ltb_spec f (Z.max 4096 (Z.min 12288 n))); try done; lia.
Qed.

(** With at least 2 MB of RAM, [pmm_init] leaves exactly the reserved frames
    marked and a free count that agrees with the bitmap. *)
Lemma init_booting ram s0 : RESERVED_END <= ram ->
  booting (g_refcount s0) (frames_of ram) reserved (pmm_init ram s0).2 /\
  g_free (pmm_init ram s0).2 = count_free (pmm_init ram s0).2.
Proof.
  intros Hram. unfold pmm_init. cbn [snd].
  change ((16 * 1024 * 1024) / PAGE_SIZE) with 4096.
  change ((48 * 1024 * 1024) / PAGE_SIZE) with 12288.
  change (RESERVED_END / PAGE_SIZE) with 512.
  fold (frames_of ram).
  assert (Hn : 512 <= frames_of ram <= MAX_FRAMES).
  { assert (512 <= ram / PAGE_SIZE)
      by (apply Z.div_le_lower_bound; unfold RESERVED_END, PAGE_SIZE in *; lia).
    unfold frames_of. unfold MAX_FRAMES in *. destruct (Z.ltb_spec (2 ^ 20) (ram / PAGE_SIZE)); lia. }
  pose proof (boot_low (g_bitmap s0) (g_refcount s0) (frames_of ram) (g_free s0) ltac:(lia)) as Hl.
  rewrite (Z.min_l 512) in * by lia.
  set (s1 := for_up 0 512 mark_used _) in *.
  apply boot_heap; [lia | destruct Hl as (?&?&?); by split_and! |].
  rewrite (count_booting (g_refcount s0) (frames_of ram) (fun f => f <? 512))
    by (destruct Hl as (?&?&?); by split_and!).
  cbn [g_free set_free]. rewrite countb_ge by lia. rewrite u64_small by lia. lia.
Qed.

(** ** Abstract specification: a map from frames to live references *)

Inductive op : Set := Alloc | AddRef (phys : Z) | Free (phys : Z).

Definition run_op (o : op) (s : pmm) : Z * pmm :=
  match o with
  | Alloc => pmm_alloc_frame s
  | AddRef p => (0, pmm_addref p s)
  | Free p => (0, pmm_free_frame p s)
  end.

Fixpoint run_ops (os : list op) (s : pmm) : list Z * pmm :=
  match os with
  | [] => ([], s)
  | o :: os => let '(r, s) := run_op o s in
               let '(rs, s) := run_ops os s in (r :: rs, s)
  end.

(** What the allocator promises of one operation, on the map from frame
    numbers to reference counts: a fresh frame that is neither live nor
    reserved, 0 only when every frame is taken, and counted references. *)
Inductive spec_step (n : Z) : gmap Z Z -> op -> Z -> gmap Z Z -> Prop :=
| spec_alloc R f :
    0 <= f < n -> reserved f = false -> R !! f = None ->
    spec_step n R Alloc (f * PAGE_SIZE) (<[f := 1]> R)
| spec_oom R :
    (forall f, 0 <= f < n -> reserved f = true \/ is_Some (R !! f)) ->
    spec_step n R Alloc 0 R
| spec_addref R p k :
    R !! (p / PAGE_SIZE) = Some k ->
    spec_step n R (AddRef p) 0 (<[p / PAGE_SIZE := k + 1]> R)
| spec_free_shared R p k :
    R !! (p / PAGE_SIZE) = Some k -> 1 < k ->
    spec_step n R (Free p) 0 (<[p / PAGE_SIZE := k - 1]> R)
| spec_free_last R p :
    R !! (p / PAGE_SIZE) = Some 1 ->
    spec_step n R (Free p) 0 (delete (p / PAGE_SIZE) R).

Inductive spec_steps (n : Z) : gmap Z Z -> list op -> list Z -> gmap Z Z -> Prop :=
| steps_nil R : spec_steps n R [] [] R
| steps_cons R o r R' os rs R'' :
    spec_step n R o r R' -> spec_steps n R' os rs R'' ->
    spec_steps n R (o :: os) (r :: rs) R''.

(** The obligation of a client: it only releases or shares frames it holds,
    and it shares a frame at most 255 times. *)
Definition allowed (R : gmap Z Z) (o : op) : Prop :=
  match o with
  | Alloc => True
  | AddRef p => exists k, R !! (p / PAGE_SIZE) = Some k /\ k < 255
  | Free p => is_Some (R !! (p / PAGE_SIZE))
  end.

(** The bitmap and the counters represent the reference map [R]. *)
Record refines (n : Z) (s : pmm) (R : gmap Z Z) : Prop := {
  ref_ok : pmm_ok s;
  ref_n : g_nframes s = n;
  ref_used : forall f, 0 <= f < n ->
    is_used f s = reserved f || bool_decide (is_Some (R !! f));
  ref_live : forall f k, R !! f = Some k ->
    0 <= f < n /\ reserved f = false /\ 1 <= k <= 255 /\ rd (g_refcount s) f = k
}.

Lemma reserved_0 : reserved 0 = true.
Proof. reflexivity. Qed.

Lemma init_refines ram : RESERVED_END <= ram ->
  refines (frames_of ram) (pmm_init ram pmm_boot).2 ∅.
Proof.
  intros Hram. destruct (init_booting ram pmm_boot Hram) as [(Hr & Hn & Hu) Hc].
  assert (0 <= frames_of ram <= MAX_FRAMES).
  { unfold frames_of, MAX_FRAMES. assert (0 <= ram / PAGE_SIZE)
      by (apply Z.div_pos; unfold RESERVED_END, PAGE_SIZE in *; lia).
    destruct (Z.ltb_spec (2 ^ 20) (ram / PAGE_SIZE)); lia. }
  constructor; [|done| |].
  - constructor; [by rewrite Hn | done |]. intros f. rewrite Hr. cbn [pmm_boot g_refcount]. rewrite rd_empty. lia.
  - intros f Hf. rewrite Hu by done. rewrite lookup_empty.
    by rewrite bd_None, orb_false_r.
  - intros f k Hk. by rewrite lookup_empty in Hk.
Qed.

Lemma refines_alloc n s R : refines n s R ->
  exists R', spec_step n R Alloc (pmm_alloc_frame s).1 R' /\
             refines n (pmm_alloc_frame s).2 R'.
Proof.
  intros [Hok Hn Hu Hl]. pose proof (alloc_ok s Hok) as Hok'.
  unfold pmm_alloc_frame in *.
  destruct (first_free (Z.to_nat (g_nframes s)) 0 s) as [f|] eqn:E.
  - apply first_free_Some in E as (Hf & Huf & _). destruct (ok_nframes s Hok).
    assert (Hfn : 0 <= f < n) by lia.
    rewrite Hu in Huf by done. apply orb_false_iff in Huf as [Hres HR].
    apply bool_decide_eq_false in HR. apply eq_None_not_Some in HR.
    exists (<[f := 1]> R). split; [by constructor|]. simpl. constructor; simpl in *.
    + done.
    + done.
    + intros g Hg. rewrite (is_used_ext _ _ (mark_used f s)) by done.
      rewrite is_used_mark_used, Hu by lia.
      destruct (Z.eqb_spec g f) as [->|Hne].
      * rewrite lookup_insert_eq, bd_Some. by rewrite orb_true_r.
      * by rewrite lookup_insert_ne.
    + intros g k. destruct (Z.eq_dec f g) as [<-|Hne].
      * rewrite lookup_insert_eq. intros [= <-]. rewrite rd_wr_eq. split_and!; auto; lia.
      * rewrite lookup_insert_ne by done. rewrite rd_wr_ne by done. apply Hl.
  - exists R. split; [|done]. constructor. intros f Hf. destruct (ok_nframes s Hok).
    pose proof (first_free_None _ _ _ E f ltac:(lia)) as Huf.
    rewrite Hu in Huf by done. apply orb_true_iff in Huf as [?|?%bool_decide_eq_true]; auto.
Qed.

(** The frame handed out is the lowest one that is neither reserved nor held. *)
Lemma refines_alloc_lowest n s R f : refines n s R -> 0 <= f < n -> reserved f = false -> R !! f = None ->
  (forall g, 0 <= g < f -> reserved g = true \/ is_Some (R !! g)) ->
  (pmm_alloc_frame s).1 = f * PAGE_SIZE /\ refines n (pmm_alloc_frame s).2 (<[f := 1]> R).
Proof.
  intros Hr Hf Hres HR Hlow. pose proof (ref_n _ _ _ Hr) as Hn.
  assert (Hu : forall g, 0 <= g <= f -> is_used g s = bool_decide (g < f)).
  { intros g Hg. rewrite (ref_used _ _ _ Hr) by lia. destruct (bool_decide_reflect (g < f)).
    - destruct (Hlow g) as [->|Hx]; [lia | done |]. rewrite (bool_decide_eq_true_2 _ Hx). apply orb_true_r.
    - assert (g = f) as -> by lia. by rewrite Hres, HR, (bd_None (A := Z)). }
  assert (E : (pmm_alloc_frame s).1 = f * PAGE_SIZE).
  { unfold pmm_alloc_frame. destruct (first_free (Z.to_nat (g_nframes s)) 0 s) as [g|] eqn:E.
    - apply first_free_Some in E as (Hg & Hug & Hl). simpl. f_equal. destruct (Z.lt_trichotomy g f) as [?|[?|?]]; [|done|].
      + rewrite Hu, bool_decide_eq_true_2 in Hug; done || lia.
      + specialize (Hl f ltac:(lia)). rewrite Hu, bool_decide_eq_false_2 in Hl; done || lia.
    - pose proof (first_free_None _ _ _ E f ltac:(lia)) as H. rewrite Hu, bool_decide_eq_false_2 in H; done || lia. }
  split; [done|]. destruct (refines_alloc n s R Hr) as (R' & Hs & HR'). rewrite E in Hs.
  assert (f <> 0) by (intros ->; by rewrite reserved_0 in Hres). unfold PAGE_SIZE in *.
  inversion Hs as [R0 g Hg Hresg HRg|R0 Hall| | |]; unfold PAGE_SIZE in *; subst; [|lia]. by replace f with g by lia.
Qed.

Lemma refines_addref n s R p k : refines n s R -> R !! (p / PAGE_SIZE) = Some k -> k < 255 ->
  refines n (pmm_addref p s) (<[p / PAGE_SIZE := k + 1]> R).
Proof.
  intros [Hok Hn Hu Hl] Hk Hlt. pose proof (addref_ok p s Hok) as Hok'.
  destruct (Hl _ _ Hk) as (Hf & Hres & Hk1 & Hrc).
  unfold pmm_addref in *. rewrite Hrc in *.
  rewrite (proj2 (Z.ltb_lt (p / PAGE_SIZE) _)), (proj2 (Z.ltb_lt k 255)) in * by lia.
  simpl in *. constructor; simpl; [done|done| |].
  - intros g Hg. rewrite (is_used_ext _ _ s) by done. rewrite Hu by done.
    destruct (Z.eq_dec (p / PAGE_SIZE) g) as [<-|Hne].
    + by rewrite lookup_insert_eq, Hk, !bd_Some.
    + by rewrite lookup_insert_ne.
  - intros g j. destruct (Z.eq_dec (p / PAGE_SIZE) g) as [<-|Hne].
    + rewrite lookup_insert_eq, rd_wr_eq. intros [= <-].
      unfold u8. rewrite Z.mod_small by lia. split_and!; auto; lia.
    + rewrite lookup_insert_ne, rd_wr_ne by done. apply Hl.
Qed.

Lemma page_div_nonneg p : 0 <= p / PAGE_SIZE -> 0 <= p.
Proof.
  intros H. destruct (Z.le_gt_cases 0 p); [done|].
  pose proof (Z.div_lt_upper_bound p PAGE_SIZE 0). unfold PAGE_SIZE in *. lia.
Qed.

Lemma refines_free n s R p k : refines n s R -> R !! (p / PAGE_SIZE) = Some k ->
  refines n (pmm_free_frame p s)
    (if 1 <? k then <[p / PAGE_SIZE := k - 1]> R else delete (p / PAGE_SIZE) R).
Proof.
  intros [Hok Hn Hu Hl] Hk. destruct (Hl _ _ Hk) as (Hf & Hres & Hk1 & Hrc).
  pose proof (free_ok p s (page_div_nonneg p ltac:(lia)) Hok) as Hok'.
  assert (Hup : is_used (p / PAGE_SIZE) s = true).
  { rewrite Hu, Hk, bd_Some by done. by rewrite orb_true_r. }
  unfold pmm_free_frame in *. rewrite Hrc, Hup in *.
  rewrite (proj2 (Z.leb_gt (g_nframes s) (p / PAGE_SIZE))) in * by lia. cbn [orb negb] in *.
  destruct (Z.ltb_spec 1 k) as [Hgt|Hle]; (constructor; simpl; [done|done| |]).
  - intros g Hg. rewrite (is_used_ext _ _ s) by done. rewrite Hu by done.
    destruct (Z.eq_dec (p / PAGE_SIZE) g) as [<-|Hne].
    + by rewrite lookup_insert_eq, Hk, !bd_Some.
    + by rewrite lookup_insert_ne.
  - intros g j. destruct (Z.eq_dec (p / PAGE_SIZE) g) as [<-|Hne].
    + rewrite lookup_insert_eq, rd_wr_eq. intros [= <-].
      unfold u8. rewrite Z.mod_small by lia. split_and!; auto; lia.
    + rewrite lookup_insert_ne, rd_wr_ne by done. apply Hl.
  - intros g Hg. rewrite (is_used_ext _ _ (mark_free (p / PAGE_SIZE) s)) by done.
    rewrite is_used_mark_free, Hu by lia.
    destruct (Z.eqb_spec g (p / PAGE_SIZE)) as [->|Hne].
    + by rewrite lookup_delete_eq, Hres, (bd_None (A := Z)).
    + rewrite lookup_delete_ne by done. done.
  - intros g j. destruct (Z.eq_dec (p / PAGE_SIZE) g) as [<-|Hne].
    + by rewrite lookup_delete_eq.
    + rewrite lookup_delete_ne, rd_wr_ne by done. apply Hl.
Qed.

Lemma refines_step n s R o : refines n s R -> allowed R o ->
  exists R', spec_step n R o (run_op o s).1 R' /\ refines n (run_op o s).2 R'.
Proof.
  intros Hr Ha. destruct o as [|p|p]; simpl in *.
  - by apply refines_alloc.
  - destruct Ha as (k & Hk & Hlt). exists (<[p / PAGE_SIZE := k + 1]> R).
    split; [by constructor | by apply refines_addref].
  - destruct Ha as [k Hk]. pose proof (refines_free n s R p k Hr Hk) as Hf.
    destruct (Z.ltb_spec 1 k).
    + eexists. split; [by eapply spec_free_shared | done].
    + destruct (ref_live _ _ _ Hr _ _ Hk) as (_ & _ & ? & _).
      assert (k = 1) as -> by lia. eexists. split; [by apply spec_free_last | done].
Qed.

(** The reference map a client keeps from the results it sees. *)
Definition track (R : gmap Z Z) (o : op) (r : Z) : gmap Z Z :=
  match o with
  | Alloc => if r =? 0 then R else <[r / PAGE_SIZE := 1]> R
  | AddRef p => <[p / PAGE_SIZE := default 0 (R !! (p / PAGE_SIZE)) + 1]> R
  | Free p => let k := default 0 (R !! (p / PAGE_SIZE)) in
              if 1 <? k then <[p / PAGE_SIZE := k - 1]> R else delete (p / PAGE_SIZE) R
  end.

Fixpoint client_ok (os : list op) (s : pmm) (R : gmap Z Z) : Prop :=
  match os with
  | [] => True
  | o :: os => allowed R o /\
               client_ok os (run_op o s).2 (track R o (run_op o s).1)
  end.

Lemma spec_step_track n R o r R' : spec_step n R o r R' -> R' = track R o r.
Proof.
  destruct 1 as [R f Hf Hres HR | R Hall | R p k Hk | R p k Hk Hgt | R p Hk]; simpl.
  - assert (0 < f) by (destruct (Z.eq_dec f 0) as [->|]; [by rewrite reserved_0 in Hres | lia]).
    rewrite (proj2 (Z.eqb_neq _ _)) by (unfold PAGE_SIZE; lia).
    by rewrite Z.div_mul by (unfold PAGE_SIZE; lia).
  - done.
  - by rewrite Hk.
  - rewrite Hk. simpl. by rewrite (proj2 (Z.ltb_lt _ _)).
  - by rewrite Hk.
Qed.

Lemma refines_run n os s R : refines n s R -> client_ok os s R ->
  exists R', spec_steps n R os (run_ops os s).1 R' /\ refines n (run_ops os s).2 R'.
Proof.
  revert s R. induction os as [|o os IH]; intros s R Hr Hc; simpl in *.
  - exists R. split; [constructor | done].
  - destruct Hc as [Ha Hc]. destruct (refines_step n s R o Hr Ha) as (R1 & Hs & Hr1).
    rewrite <- (spec_step_track _ _ _ _ _ Hs) in Hc.
    destruct (run_op o s) as [r s1]. simpl in *.
    destruct (IH s1 R1 Hr1 Hc) as (R2 & Hss & Hr2).
    destruct (run_ops os s1) as [rs s2]. simpl in *.
    exists R2. split; [by econstructor | done].
Qed.

(** ** Properties *)


Definition demo_ops : list op :=
  [Alloc; Alloc; AddRef 0x200000; Free 0x200000; Free 0x200000; Alloc].


(** on a state satisfying the invariant, [pmm_alloc_frame] takes the
    lowest-numbered free frame, gives it reference count 1, lowers the free
    count by one and leaves every other frame alone; it fails with 0 and an
    unchanged state exactly when no frame is free. *)
Theorem pmm_alloc_frame_first_fit s :
  pmm_ok s ->
  let '(p, s') := pmm_alloc_frame s in
  (exists f, 0 <= f < g_nframes s /\ p = f * PAGE_SIZE /\
     is_used f s = false /\ (forall g, 0 <= g < f -> is_used g s = true) /\
     g_free s' = g_free s - 1 /\ rd (g_refcount s') f = 1 /\
     (forall g, 0 <= g -> is_used g s' = (g =? f) || is_used g s) /\
     (forall g, g <> f -> rd (g_refcount s') g = rd (g_refcount s) g))
  \/ (p = 0 /\ s' = s /\ g_free s = 0).
Proof.
  intros Hok. pose proof (alloc_ok s Hok) as Hok'.
  pose proof (count_free_range _ Hok) as Hr. unfold pmm_alloc_frame in *.
  destruct (first_free (Z.to_nat (g_nframes s)) 0 s) as [f|] eqn:E.
  - left. apply first_free_Some in E as (Hf & Hu & Hlow). destruct (ok_nframes s Hok).
    exists f. simpl in *. pose proof (count_free_mark_used f s ltac:(lia) Hu) as Hm.
    assert (0 <= count_free (mark_used f s)) by apply countb_bounds.
    split_and!; auto with lia.
    + rewrite (ok_free s Hok) in *. apply u64_small. lia.
    + apply rd_wr_eq.
    + intros g Hg. rewrite (is_used_ext _ _ (mark_used f s)) by done.
      apply is_used_mark_used; lia.
    + intros g Hg. by apply rd_wr_ne.
  - right. split_and!; [done | done |]. rewrite (ok_free s Hok). unfold count_free.
    rewrite (countb_ext _ (fun _ => false)).
    + generalize (Z.to_nat (g_nframes s)). induction n; simpl; lia.
    + intros i Hi. rewrite (first_free_None _ _ _ E) by lia. done.
Qed.

Lemma pmm_alloc_frame_first_fit_witness :
  (pmm_alloc_frame (pmm_init 0x240000 pmm_boot).2).1 = 0x200000 /\
  let s := (pmm_init 0x240000 pmm_boot).2 in
  let '(p, s') := pmm_alloc_frame s in
  (exists f, 0 <= f < g_nframes s /\ p = f * PAGE_SIZE /\
     is_used f s = false /\ (forall g, 0 <= g < f -> is_used g s = true) /\
     g_free s' = g_free s - 1 /\ rd (g_refcount s') f = 1 /\
     (forall g, 0 <= g -> is_used g s' = (g =? f) || is_used g s) /\
     (forall g, g <> f -> rd (g_refcount s') g = rd (g_refcount s) g))
  \/ (p = 0 /\ s' = s /\ g_free s = 0).
Proof.
  split; [vm_compute; reflexivity|].
  apply (pmm_alloc_frame_first_fit (pmm_init 0x240000 pmm_boot).2).
  exact (ref_ok _ _ _ (init_refines 0x240000 ltac:(unfold RESERVED_END; lia))).
Defined.

(** the reference counter saturates at 255 without telling the caller.
    A frame shared 256 times (one allocation and 255 further references, as
    256 processes sharing a copy-on-write page do) is given back to the free
    pool by the 255th release, while one holder still maps it. *)
Theorem pmm_addref_saturation_frees_live_frame :
  let s0 := (pmm_init 0x240000 pmm_boot).2 in
  let '(p, s1) := pmm_alloc_frame s0 in
  let s2 := Nat.iter 255 (pmm_addref p) s1 in
  let s3 := Nat.iter 255 (pmm_free_frame p) s2 in
  p = 0x200000 /\ is_used (p / PAGE_SIZE) s3 = false /\ (pmm_alloc_frame s3).1 = p.
Proof. vm_compute. auto. Qed.

End Pmm.
