(* ===== verification/Heap.v ===== *)
(** * Kernel heap (src/mm/virt/heap.c)

    The first-fit allocator with boundary coalescing, on a word-addressed
    memory: block headers are the four 64-bit words the C code stores (magic,
    size, tagged next pointer, prev pointer), so pointer chasing, the free bit
    kept in bit 0 of [next] and the poisoning of released payloads are all
    memory operations.  The refinement theorems relate that memory to the list
    of cells that tile the heap window. *)
From S2P Require Import Prelude.
From S2P Require Import Alloc.

Module Heap.

Definition PHYSMAP_BASE : Z := 0xFFFF800000000000.
Definition HEAP_BASE : Z := PHYSMAP_BASE + 16 * 1024 * 1024.
Definition HEAP_SIZE : Z := 32 * 1024 * 1024.
Definition MAGIC : Z := 0xB10C600DB10C600D.
Abbreviation POISON := 0xDEADC0DEDEADC0DE.
Definition ALIGN16 (n : Z) : Z := Z.land (u64 (n + 15)) (u64 (Z.lnot 15)).

(** [sizeof(block_t)] and the offsets of its members. *)
Definition SIZEOF_BLOCK : Z := 32.
Abbreviation f_magic b := (b) (only parsing).
Abbreviation f_size b := (b + 8) (only parsing).
Abbreviation f_next b := (b + 16) (only parsing).
Abbreviation f_prev b := (b + 24) (only parsing).

Definition BLK_FREE_BIT : Z := 1.
Definition blk_next (m : mem) (b : Z) : Z := Z.land (rd m (f_next b)) (u64 (Z.lnot BLK_FREE_BIT)).
Definition blk_is_free (m : mem) (b : Z) : bool := ctrue (Z.land (rd m (f_next b)) BLK_FREE_BIT).
Definition blk_set_free (m : mem) (b : Z) : mem :=
  wr m (f_next b) (Z.lor (rd m (f_next b)) BLK_FREE_BIT).
Definition blk_set_used (m : mem) (b : Z) : mem :=
  wr m (f_next b) (Z.land (rd m (f_next b)) (u64 (Z.lnot BLK_FREE_BIT))).

(** [g_head] always holds [HEAP_BASE] after [heap_init]; the heap state is
    the memory behind it. *)
Definition heap_init (m : mem) : os_status * mem :=
  let b := HEAP_BASE in
  let m := wr m (f_magic b) MAGIC in
  let m := wr m (f_size b) (HEAP_SIZE - SIZEOF_BLOCK) in
  let m := wr m (f_next b) 0 in
  let m := wr m (f_prev b) 0 in
  (OS_OK, blk_set_free m b).

(** Splitting the block [b] after its first [want] payload bytes. *)
Definition split_block (m : mem) (b want : Z) : mem :=
  let nb := b + SIZEOF_BLOCK + want in
  let m := wr m (f_magic nb) MAGIC in
  let m := wr m (f_size nb) (u64 (rd m (f_size b) - want - SIZEOF_BLOCK)) in
  let b_old_next := blk_next m b in
  let m := wr m (f_next nb) b_old_next in
  let m := wr m (f_prev nb) b in
  let m := blk_set_free m nb in
  let m := if b_old_next =? 0 then m else wr m (f_prev b_old_next) nb in
  let m := wr m (f_next b) nb in
  wr m (f_size b) want.

(** The scan of [kmalloc]; [None] is a scan that ran out of fuel. *)
Fixpoint kmalloc_scan (fuel : nat) (want b : Z) (m : mem) : option (Z * mem) :=
  match fuel with
  | O => None
  | S fuel =>
      if b =? 0 then Some (0, m)
      else if negb (blk_is_free m b) || (rd m (f_size b) <? want)
      then kmalloc_scan fuel want (blk_next m b) m
      else
        let m := if u64 (want + SIZEOF_BLOCK + 16) <=? rd m (f_size b)
                 then split_block m b want else m in
        let m := blk_set_used m b in
        Some (b + SIZEOF_BLOCK, m)
  end.

(** A heap of [HEAP_SIZE] bytes holds fewer blocks than this. *)
Definition HEAP_FUEL : nat := Z.to_nat (HEAP_SIZE / SIZEOF_BLOCK) + 1.

Definition kmalloc (want : Z) (m : mem) : option (Z * mem) :=
  if want =? 0 then Some (0, m)
  else kmalloc_scan HEAP_FUEL (ALIGN16 want) HEAP_BASE m.

Definition kmalloc_tagged (size tag : Z) (m : mem) : option (Z * mem) := kmalloc size m.

(** [b] swallows the block [bn] that follows it. *)
Definition absorb (m : mem) (b bn : Z) : mem :=
  let m := wr m (f_size b) (u64 (rd m (f_size b) + (SIZEOF_BLOCK + rd m (f_size bn)))) in
  let m := wr m (f_next b) (Z.lor (blk_next m bn) BLK_FREE_BIT) in
  if blk_next m bn =? 0 then m else wr m (f_prev (blk_next m bn)) b.

Definition kfree (p : Z) (m : mem) : mem :=
  if p =? 0 then m
  else
    let b := p - SIZEOF_BLOCK in
    if negb (rd m (f_magic b) =? MAGIC) then m
    else
      let m := blk_set_free m b in
      let m := for_up 0 (rd m (f_size b) / 8) (fun i m => wr m (p + 8 * i) POISON) m in
      let bn := blk_next m b in
      let m := if negb (bn =? 0) && blk_is_free m bn then absorb m b bn else m in
      let bp := rd m (f_prev b) in
      if negb (bp =? 0) && blk_is_free m bp then absorb m bp b else m.

Fixpoint heap_get_free_scan (fuel : nat) (b f : Z) (m : mem) : option Z :=
  match fuel with
  | O => None
  | S fuel =>
      if b =? 0 then Some f
      else heap_get_free_scan fuel (blk_next m b)
             (if blk_is_free m b then u64 (f + rd m (f_size b)) else f) m
  end.

Definition heap_get_free (m : mem) : option Z := heap_get_free_scan HEAP_FUEL HEAP_BASE 0 m.

(** ** Cells and their representation in memory *)

Record cell := mkCell { csize : Z; cfree : bool }.

Definition cell_ok (c : cell) : Prop := 16 <= csize c /\ csize c mod 16 = 0.

(** Bytes covered by a run of cells, headers included. *)
Fixpoint span (l : list cell) : Z :=
  match l with [] => 0 | c :: l => SIZEOF_BLOCK + csize c + span l end.

Definition head_ptr (a : Z) (l : list cell) : Z := match l with [] => 0 | _ => a end.

Record header (m : mem) (a : Z) (c : cell) (nxt prev : Z) : Prop := {
  h_magic : rd m (f_magic a) = MAGIC;
  h_size : rd m (f_size a) = csize c;
  h_next : rd m (f_next a) = nxt + Z.b2z (cfree c);
  h_prev : rd m (f_prev a) = prev
}.

(** The cells [l] lie one after the other from address [a]; the first one's
    [prev] is [prev] and the last one's [next] is [nxt]. *)
Fixpoint seg (m : mem) (prev a : Z) (l : list cell) (nxt : Z) : Prop :=
  match l with
  | [] => True
  | c :: l' =>
      header m a c (match l' with [] => nxt | _ => a + SIZEOF_BLOCK + csize c end) prev /\
      seg m a (a + SIZEOF_BLOCK + csize c) l' nxt
  end.

Record heap_wf (m : mem) (l : list cell) : Prop := {
  wf_seg : seg m 0 HEAP_BASE l 0;
  wf_cells : Forall cell_ok l;
  wf_span : span l = HEAP_SIZE
}.

(** ** Tagged pointers *)

(** An untagged pointer of this heap: even, and within the address width. *)
Definition even64 (x : Z) : Prop := 0 <= x < 2 ^ 64 /\ x mod 2 = 0.

Lemma untag x fr : even64 x -> Z.land (x + Z.b2z fr) (u64 (Z.lnot BLK_FREE_BIT)) = x.
Proof.
  intros [Hx He]. change BLK_FREE_BIT with (Z.ones 1). rewrite land_mask; [|lia|].
  - rewrite mod_add_low; [lia | lia | done | destruct fr; simpl; lia].
  - assert (x <> 2 ^ 64 - 1) by (intros ->; by vm_compute in He).
    destruct fr; simpl; lia.
Qed.

Lemma tag_free x fr : even64 x -> Z.lor (x + Z.b2z fr) BLK_FREE_BIT = x + 1.
Proof.
  intros [Hx He]. unfold BLK_FREE_BIT.
  rewrite <- (lor_low 1 x (Z.b2z fr)), <- Z.lor_assoc by (lia || done || destruct fr; simpl; lia).
  destruct fr; simpl (Z.lor _ 1); by rewrite (lor_low 1).
Qed.

Lemma tag_is_free x fr : even64 x -> ctrue (Z.land (x + Z.b2z fr) BLK_FREE_BIT) = fr.
Proof.
  intros [Hx He]. change BLK_FREE_BIT with (Z.ones 1). rewrite Z.land_ones by lia.
  rewrite mod_add_low; [by destruct fr | lia | done | destruct fr; simpl; lia].
Qed.

Section Headers.
Context (m : mem) (a : Z) (c : cell) (nxt prev : Z).
Hypothesis Hh : header m a c nxt prev.
Hypothesis Hn : even64 nxt.

Lemma header_next : blk_next m a = nxt.
Proof using Hh Hn. unfold blk_next. rewrite (h_next _ _ _ _ _ Hh). by apply untag. Qed.

Lemma header_is_free : blk_is_free m a = cfree c.
Proof using Hh Hn. unfold blk_is_free. rewrite (h_next _ _ _ _ _ Hh). by apply tag_is_free. Qed.
End Headers.

(** Two memories that agree on the header words hold the same header. *)
Lemma header_frame m m' a c nxt prev :
  header m a c nxt prev ->
  (forall x, a <= x < a + SIZEOF_BLOCK -> rd m' x = rd m x) ->
  header m' a c nxt prev.
Proof.
  unfold SIZEOF_BLOCK. intros [H1 H2 H3 H4] Hf.
  constructor; rewrite Hf by lia; done.
Qed.

Lemma span_nonneg l : Forall cell_ok l -> 0 <= span l.
Proof.
  induction 1 as [|c l [Hc _] _ IH]; simpl; [lia|]. unfold SIZEOF_BLOCK. lia.
Qed.

Lemma span_app l1 l2 : span (l1 ++ l2) = span l1 + span l2.
Proof. induction l1 as [|c l1 IH]; simpl; lia. Qed.

Lemma seg_frame m m' prev a l nxt :
  Forall cell_ok l -> seg m prev a l nxt ->
  (forall x, a <= x < a + span l -> rd m' x = rd m x) ->
  seg m' prev a l nxt.
Proof.
  intros Hok. revert prev a. induction Hok as [|c l [Hc _] Hok IH]; intros prev a Hs Hf; [done|].
  destruct Hs as [Hh Hs]. pose proof (span_nonneg l Hok). simpl in Hf.
  split.
  - eapply header_frame; [done|]. intros x Hx. apply Hf. unfold SIZEOF_BLOCK in *. lia.
  - apply IH; [done|]. intros x Hx. apply Hf. unfold SIZEOF_BLOCK in *. lia.
Qed.

(** Address of the last cell of a run, or [prev] when it is empty. *)
Fixpoint last_addr (prev a : Z) (l : list cell) : Z :=
  match l with [] => prev | c :: l => last_addr a (a + SIZEOF_BLOCK + csize c) l end.

Lemma seg_app m prev a l1 l2 nxt : l2 <> [] ->
  seg m prev a (l1 ++ l2) nxt <->
  seg m prev a l1 (a + span l1) /\ seg m (last_addr prev a l1) (a + span l1) l2 nxt.
Proof.
  intros H2. revert prev a. induction l1 as [|c l1 IH]; intros prev a; simpl.
  - rewrite Z.add_0_r. tauto.
  - rewrite IH. replace (a + SIZEOF_BLOCK + csize c + span l1)
      with (a + (SIZEOF_BLOCK + csize c + span l1)) by lia.
    destruct l1 as [|d l1]; simpl.
    + destruct l2; [done|]. rewrite Z.add_0_r, Z.add_assoc. tauto.
    + tauto.
Qed.

(** ** Placement *)

Definition placed (a : Z) (l : list cell) : Prop :=
  0 < a /\ a mod 16 = 0 /\ a + span l < 2 ^ 64 /\ Forall cell_ok l.

Definition next_ptr (a : Z) (c : cell) (l : list cell) : Z :=
  match l with [] => 0 | _ => a + SIZEOF_BLOCK + csize c end.

Lemma placed_cons a c l : placed a (c :: l) -> placed (a + SIZEOF_BLOCK + csize c) l.
Proof.
  intros (Ha & Hm & Hs & Hf). inversion Hf as [|? ? [Hc1 Hc2] Hl]; subst.
  simpl in Hs. pose proof (span_nonneg l Hl). unfold placed, SIZEOF_BLOCK in *.
  split_and!; [lia | | lia | done].
  rewrite Z.add_mod, Hc2, (Z.add_mod a), Hm by lia. done.
Qed.

Lemma placed_cell a c l : placed a (c :: l) -> cell_ok c.
Proof. intros (_ & _ & _ & Hf). by inversion Hf. Qed.

Lemma mod16_even x : x mod 16 = 0 -> x mod 2 = 0.
Proof.
  intros H. rewrite (Z.div_mod x 16), H by lia.
  replace (16 * (x / 16) + 0) with ((8 * (x / 16)) * 2) by lia. by rewrite Z.mod_mul.
Qed.

Lemma next_ptr_even a c l : placed a (c :: l) -> even64 (next_ptr a c l).
Proof.
  intros H. destruct (placed_cons a c l H) as (Ha & Hm & Hs & Hf).
  destruct l as [|d l]; simpl; [split; [lia | done]|].
  pose proof (span_nonneg _ Hf). split; [lia|]. by apply mod16_even.
Qed.

Lemma seg_cons m prev a c l nxt :
  seg m prev a (c :: l) nxt <->
  header m a c (match l with [] => nxt | _ => a + SIZEOF_BLOCK + csize c end) prev /\
  seg m a (a + SIZEOF_BLOCK + csize c) l nxt.
Proof. reflexivity. Qed.

Lemma head_ptr_next a c l : head_ptr (a + SIZEOF_BLOCK + csize c) l = next_ptr a c l.
Proof. by destruct l. Qed.

(** Changing only the [prev] word of the first header. *)
Lemma seg_set_prev m m' prev prev' a l nxt :
  placed a l -> seg m prev a l nxt ->
  (l <> [] -> rd m' (f_prev a) = prev') ->
  (forall x, a <= x < a + span l -> x <> f_prev a -> rd m' x = rd m x) ->
  seg m' prev' a l nxt.
Proof.
  intros Hp Hs Hprev Hf. destruct l as [|c l]; [done|].
  pose proof (placed_cons _ _ _ Hp) as (_ & _ & _ & Hok).
  pose proof (span_nonneg l Hok). destruct (placed_cell _ _ _ Hp) as [Hc _].
  destruct Hs as [[H1 H2 H3 H4] Hs]. simpl in Hf. unfold SIZEOF_BLOCK in *. split.
  - constructor; [rewrite Hf by lia; done.. | by apply Hprev].
  - eapply seg_frame; [done | done |]. intros x Hx. apply Hf; unfold SIZEOF_BLOCK in *; lia.
Qed.

(** ** [kmalloc] refines first fit on cells *)

Fixpoint first_fit (want a : Z) (l : list cell) : option (Z * list cell) :=
  match l with
  | [] => None
  | c :: l =>
      if cfree c && (want <=? csize c) then
        Some (a + SIZEOF_BLOCK,
              if want + SIZEOF_BLOCK + 16 <=? csize c
              then mkCell want false :: mkCell (csize c - want - SIZEOF_BLOCK) true :: l
              else mkCell (csize c) false :: l)
      else match first_fit want (a + SIZEOF_BLOCK + csize c) l with
           | Some (p, l') => Some (p, c :: l')
           | None => None
           end
  end.

(** Payload address to payload size, for the cells in use. *)
Fixpoint live (a : Z) (l : list cell) : gmap Z Z :=
  match l with
  | [] => ∅
  | c :: l => let r := live (a + SIZEOF_BLOCK + csize c) l in
              if cfree c then r else <[a + SIZEOF_BLOCK := csize c]> r
  end.

Lemma live_range a l q n : Forall cell_ok l -> live a l !! q = Some n ->
  a + SIZEOF_BLOCK <= q /\ q + n <= a + span l /\ 16 <= n.
Proof.
  intros Hf. revert a. induction Hf as [|c l [Hc _] Hf IH]; intros a; [done|].
  simpl. pose proof (span_nonneg l Hf).
  assert (live (a + SIZEOF_BLOCK + csize c) l !! q = Some n ->
          a + SIZEOF_BLOCK <= q /\ q + n <= a + (SIZEOF_BLOCK + csize c + span l) /\ 16 <= n).
  { intros Hl%IH. unfold SIZEOF_BLOCK in *. lia. }
  destruct (cfree c); [done|].
  destruct (Z.eq_dec (a + SIZEOF_BLOCK) q) as [<-|].
  - rewrite lookup_insert_eq. intros [= <-]. lia.
  - by rewrite lookup_insert_ne.
Qed.

Lemma split_block_spec m a c nxt prev want :
  header m a c nxt prev -> cfree c = true -> 0 < a -> a mod 16 = 0 -> csize c < 2 ^ 64 ->
  16 <= want -> want mod 16 = 0 -> want + SIZEOF_BLOCK + 16 <= csize c ->
  a + SIZEOF_BLOCK + want < 2 ^ 64 ->
  nxt = 0 \/ nxt = a + SIZEOF_BLOCK + csize c -> even64 nxt ->
  let nb := a + SIZEOF_BLOCK + want in
  let m' := blk_set_used (split_block m a want) a in
  header m' a (mkCell want false) nb prev /\
  header m' nb (mkCell (csize c - want - SIZEOF_BLOCK) true) nxt a /\
  (nxt <> 0 -> rd m' (f_prev nxt) = nb) /\
  (forall x, x < a \/ a + SIZEOF_BLOCK <= x < nb \/ nb + SIZEOF_BLOCK <= x ->
     (nxt <> 0 -> x <> f_prev nxt) -> rd m' x = rd m x).
Proof.
  intros Hh Hfree Ha Ham Hcs Hw Hwm Hfit Hnb Hnxt Hev nb m'.
  pose proof (header_next _ _ _ _ _ Hh Hev) as Hnext. destruct Hh as [H1 H2 H3 H4].
  assert (Hnbe : even64 nb).
  { split; [unfold nb, SIZEOF_BLOCK in *; lia|]. apply mod16_even. unfold nb.
    rewrite Z.add_mod, Hwm, (Z.add_mod a), Ham by lia. done. }
  unfold SIZEOF_BLOCK in *.
  set (m4 := wr (wr (wr (wr m nb MAGIC) (nb + 8) (csize c - want - 32)) (nb + 16) nxt) (nb + 24) a).
  set (m5 := wr m4 (nb + 16) (nxt + 1)).
  assert (Hm' : m' = wr (wr (wr (if nxt =? 0 then m5 else wr m5 (nxt + 24) nb) (a + 16) nb)
                          (a + 8) want) (a + 16) nb).
  { unfold m', split_block. unfold SIZEOF_BLOCK. fold nb.
    rewrite (rd_wr_ne m nb (a + 8)), H2 by (unfold nb; lia).
    rewrite (u64_id (csize c - want - 32)) by lia.
    assert (blk_next (wr (wr m nb MAGIC) (nb + 8) (csize c - want - 32)) a = nxt) as ->.
    { unfold blk_next in *. rewrite !rd_wr_ne by (unfold nb; lia). done. }
    fold m4. assert (blk_set_free m4 nb = m5) as ->.
    { unfold blk_set_free, m5. f_equal. unfold m4. mem_simpl.
      pose proof (tag_free nxt false Hev) as Ht. simpl in Ht. by rewrite Z.add_0_r in Ht. }
    unfold blk_set_used.
    rewrite (rd_wr_ne _ (a + 8)), rd_wr_eq by lia.
    pose proof (untag nb false Hnbe) as Hu. simpl in Hu. rewrite Z.add_0_r in Hu. by rewrite Hu. }
  assert (Hn0 : (nxt =? 0) = false -> nxt = a + 32 + csize c) by (intros ?%Z.eqb_neq; lia).
  rewrite Hm'. unfold m5, m4, nb.
  split_and!; [constructor; simpl.. | |]; [destruct (nxt =? 0);
    [|pose proof (Hn0 eq_refl)]; mem_simpl; lia || done ..| |].
  - intros Hne%Z.eqb_neq. rewrite Hne in *. pose proof (Hn0 eq_refl). by mem_simpl.
  - intros x Hx Hx'. destruct (nxt =? 0) eqn:E.
    + by mem_simpl.
    + apply Z.eqb_neq in E. specialize (Hx' E). by mem_simpl.
Qed.

Lemma set_used_spec m a c nxt prev : header m a c nxt prev -> even64 nxt ->
  header (blk_set_used m a) a (mkCell (csize c) false) nxt prev.
Proof.
  intros [H1 H2 H3 H4] He. unfold blk_set_used.
  constructor; simpl; mem_simpl; try done.
  rewrite H3, untag by done. lia.
Qed.

Lemma set_free_spec m a c nxt prev : header m a c nxt prev -> even64 nxt ->
  header (blk_set_free m a) a (mkCell (csize c) true) nxt prev.
Proof.
  intros [H1 H2 H3 H4] He. unfold blk_set_free.
  constructor; simpl; mem_simpl; try done.
  rewrite H3, tag_free by done. lia.
Qed.

(** The words a run of [kmalloc] leaves alone: everything outside the run of
    cells it scanned, and every payload in use. *)
Definition keeps (m m' : mem) (a : Z) (l : list cell) : Prop :=
  (forall x, x < a \/ a + span l <= x -> rd m' x = rd m x) /\
  (forall q n x, live a l !! q = Some n -> q <= x < q + n -> rd m' x = rd m x).

Definition request_ok (want : Z) : Prop := 16 <= want /\ want mod 16 = 0.

Lemma fit_here m prev a c l want : placed a (c :: l) -> seg m prev a (c :: l) 0 ->
  request_ok want -> cfree c = true -> want <= csize c ->
  let l' := if want + SIZEOF_BLOCK + 16 <=? csize c
            then mkCell want false :: mkCell (csize c - want - SIZEOF_BLOCK) true :: l
            else mkCell (csize c) false :: l in
  let m' := blk_set_used (if u64 (want + SIZEOF_BLOCK + 16) <=? csize c
                          then split_block m a want else m) a in
  seg m' prev a l' 0 /\ Forall cell_ok l' /\ span l' = span (c :: l) /\ keeps m m' a (c :: l).
Proof.
  intros Hp [Hh Hs] [Hw Hwm] Hfree Hle l' m'.
  pose proof (next_ptr_even _ _ _ Hp) as Hev. unfold next_ptr in Hev.
  pose proof (placed_cons _ _ _ Hp) as Hpl. destruct (placed_cell _ _ _ Hp) as [Hc Hcm].
  destruct Hp as (Ha & Ham & Hsp & Hok). inversion Hok as [|? ? _ Hokl]; subst.
  pose proof (span_nonneg l Hokl). simpl in Hsp.
  assert (Hlive : forall q n x, live a (c :: l) !! q = Some n -> q <= x < q + n ->
            a + SIZEOF_BLOCK + csize c + SIZEOF_BLOCK <= x /\ 
            exists c' l0, l = c' :: l0).
  { intros q n x Hq Hx. simpl in Hq. rewrite Hfree in Hq.
    apply live_range in Hq as Hr; [|done]. split; [lia|]. destruct l; [done|eauto]. }
  assert (16 <= a) by (pose proof (Z.div_mod a 16 ltac:(lia)); lia).
  unfold l', m'. unfold SIZEOF_BLOCK in *. words. destruct (Z.leb_spec (want + 32 + 16) (csize c)) as [Hsplit|Hno].
  - destruct (split_block_spec m a c _ prev want Hh Hfree Ha Ham ltac:(lia) Hw Hwm Hsplit ltac:(unfold SIZEOF_BLOCK; lia))
      as (Hha & Hhn & Hnp & Hfr); [destruct l; auto | done |].
    unfold SIZEOF_BLOCK in *.
    set (nxt := match l with [] => 0 | _ => a + 32 + csize c end) in *.
    assert (Hnx : nxt = 0 /\ l = [] \/ nxt = a + 32 + csize c /\ l <> [])
      by (unfold nxt; destruct l; [left | right]; done).
    split_and!.
    + apply seg_cons. split; [done|]. apply seg_cons. simpl csize.
      unfold SIZEOF_BLOCK. split.
      * replace (match l with [] => 0 | _ => a + 32 + want + 32 + (csize c - want - 32) end)
          with nxt; [done | unfold nxt; destruct l; lia].
      * replace (a + 32 + want + 32 + (csize c - want - 32)) with (a + 32 + csize c) by lia.
        eapply seg_set_prev; [done | done | |].
        -- intros Hne. destruct Hnx as [[_ ->]|[Hx _]]; [done|]. rewrite <- Hx. apply Hnp. lia.
        -- intros x Hx Hx'. apply Hfr; [lia|]. lia.
    + constructor; [done|]. constructor; [|done]. split; simpl; [lia|].
      rewrite Zminus_mod, (Zminus_mod (csize c)), Hcm, Hwm. done.
    + simpl. unfold SIZEOF_BLOCK. lia.
    + split.
      * intros x Hx. simpl in Hx. unfold SIZEOF_BLOCK in Hx. apply Hfr; [lia|].
        intros Hn. destruct Hnx as [[? ?]|[Hx' Hne]]; [done|].
        destruct l as [|d l]; [done|]. inversion Hokl as [|? ? [? _] Hl']; subst.
        pose proof (span_nonneg l Hl'). simpl in *. unfold SIZEOF_BLOCK in *. lia.
      * intros q n x Hq Hx. destruct (Hlive q n x Hq Hx) as [Hge (d & l0 & ->)].
        apply Hfr; [lia|]. simpl in nxt. unfold nxt. lia.
  - pose proof (set_used_spec _ _ _ _ _ Hh Hev) as Hhu.
    split_and!.
    + split; [by destruct l|]. eapply seg_frame; [done | done |].
      intros x Hx. unfold blk_set_used. simpl in Hx. unfold SIZEOF_BLOCK in *. by mem_simpl.
    + by constructor.
    + done.
    + split; intros; unfold blk_set_used; rewrite rd_wr_ne; try done; simpl in *; unfold SIZEOF_BLOCK in *.
      * lia.
      * destruct (Hlive q n x H1 H2). lia.
Qed.

Lemma first_fit_cons_ne want a l p l' : first_fit want a l = Some (p, l') -> l <> [] /\ l' <> [].
Proof.
  destruct l as [|c l]; [done|]. simpl. destruct (cfree c && _).
  - intros [= <- <-]. split; [done|]. by destruct (_ <=? _).
  - destruct (first_fit _ _ l) as [[? ?]|]; [|done]. by intros [= <- <-].
Qed.

Lemma kmalloc_scan_spec fuel want prev a l m :
  placed a l -> seg m prev a l 0 -> request_ok want -> (length l < fuel)%nat ->
  match first_fit want a l with
  | None => kmalloc_scan fuel want (head_ptr a l) m = Some (0, m)
  | Some (p, l') => exists m', kmalloc_scan fuel want (head_ptr a l) m = Some (p, m') /\
      seg m' prev a l' 0 /\ Forall cell_ok l' /\ span l' = span l /\ keeps m m' a l
  end.
Proof.
  revert fuel prev a. induction l as [|c l IH]; intros [|fuel] prev a Hp Hs Hw Hfuel;
    simpl in Hfuel; try lia; [done|].
  destruct (Hs) as [Hh Hsl]. pose proof (next_ptr_even _ _ _ Hp) as Hev. unfold next_ptr in Hev.
  pose proof (placed_cons _ _ _ Hp) as Hpl. destruct (placed_cell _ _ _ Hp) as [Hc Hcm].
  assert (Ha : 0 < a) by apply Hp.
  cbn [kmalloc_scan head_ptr first_fit]. rewrite (proj2 (Z.eqb_neq a 0)) by lia.
  rewrite (header_is_free _ _ _ _ _ Hh Hev), (header_next _ _ _ _ _ Hh Hev), (h_size _ _ _ _ _ Hh).
  replace (cfree c && (want <=? csize c)) with (negb (negb (cfree c) || (csize c <? want)))
    by (rewrite (Z.leb_antisym (csize c) want); by destruct (cfree c), (csize c <? want)).
  destruct (negb (cfree c) || (csize c <? want)) eqn:E; cbn [negb].
  - specialize (IH fuel a (a + SIZEOF_BLOCK + csize c) Hpl Hsl Hw ltac:(lia)).
    rewrite head_ptr_next in IH. unfold next_ptr in IH.
    destruct (first_fit want (a + SIZEOF_BLOCK + csize c) l) as [[p l']|] eqn:Eff; [|exact IH].
    destruct IH as (m' & Hk & Hs' & Hok' & Hspan & Hout & Hpay).
    destruct (first_fit_cons_ne _ _ _ _ _ Eff) as [Hne Hne'].
    exists m'. split; [exact Hk|]. split_and!.
    + apply seg_cons. split; [|done]. destruct l as [|d l]; [done|]. destruct l' as [|d' l']; [done|].
      eapply header_frame; [done|]. intros x Hx. apply Hout. lia.
    + by constructor.
    + simpl. lia.
    + split.
      * intros x Hx. apply Hout. simpl in Hx. unfold SIZEOF_BLOCK in *. lia.
      * intros q n x Hq Hx. simpl in Hq.
        destruct (cfree c); [by eapply Hpay|].
        destruct (Z.eq_dec (a + SIZEOF_BLOCK) q) as [<-|].
        -- rewrite lookup_insert_eq in Hq. injection Hq as <-. apply Hout. lia.
        -- rewrite lookup_insert_ne in Hq by done. by eapply Hpay.
  - apply orb_false_iff in E as [E1%negb_false_iff E2%Z.ltb_ge].
    eexists. split; [reflexivity|].
    destruct (fit_here m prev a c l want Hp Hs Hw E1 E2) as (?&?&?&?). by split_and!.
Qed.

(** ** The cells in use *)

Lemma live_app a l1 l2 : live a (l1 ++ l2) = live a l1 ∪ live (a + span l1) l2.
Proof.
  revert a. induction l1 as [|c l1 IH]; intros a; simpl.
  - by rewrite (left_id_L ∅ (∪)), Z.add_0_r.
  - rewrite IH. replace (a + SIZEOF_BLOCK + csize c + span l1)
      with (a + (SIZEOF_BLOCK + csize c + span l1)) by lia.
    destruct (cfree c); [done|]. by rewrite insert_union_l.
Qed.

Lemma live_lookup_app a l1 l2 q : Forall cell_ok l1 -> Forall cell_ok l2 ->
  live a (l1 ++ l2) !! q =
  if q <? a + span l1 then live a l1 !! q else live (a + span l1) l2 !! q.
Proof.
  intros H1 H2. rewrite live_app. destruct (Z.ltb_spec q (a + span l1)) as [Hq|Hq].
  - apply lookup_union_l. destruct (live (a + span l1) l2 !! q) eqn:E; [|done].
    apply live_range in E; [|done]. unfold SIZEOF_BLOCK in *. lia.
  - apply lookup_union_r. destruct (live a l1 !! q) eqn:E; [|done].
    apply live_range in E; [|done]. lia.
Qed.

(** Payloads in use never overlap. *)
Lemma live_disjoint a l q n q' n' : Forall cell_ok l ->
  live a l !! q = Some n -> live a l !! q' = Some n' -> q <> q' -> q + n <= q' \/ q' + n' <= q.
Proof.
  intros Hf. revert a. induction Hf as [|c l Hc Hf IH]; intros a; [done|]. simpl.
  destruct (cfree c); [apply IH|].
  destruct (Z.eq_dec (a + SIZEOF_BLOCK) q) as [<-|], (Z.eq_dec (a + SIZEOF_BLOCK) q') as [<-|];
    rewrite ?lookup_insert_eq, ?lookup_insert_ne by done; intros Hq Hq' Hne; try done.
  - injection Hq as <-. apply live_range in Hq'; [|done]. unfold SIZEOF_BLOCK in *. lia.
  - injection Hq' as <-. apply live_range in Hq; [|done]. unfold SIZEOF_BLOCK in *. lia.
  - by eapply IH.
Qed.

(** Payloads never overlap headers. *)
Lemma live_not_header a l1 d l2 q n x : Forall cell_ok (l1 ++ d :: l2) ->
  live a (l1 ++ d :: l2) !! q = Some n -> q <= x < q + n ->
  x < a + span l1 \/ a + span l1 + SIZEOF_BLOCK <= x.
Proof.
  intros [H1 H2]%Forall_app Hq Hx. rewrite live_lookup_app in Hq by done.
  destruct (Z.ltb_spec q (a + span l1)).
  - apply live_range in Hq; [|done]. lia.
  - apply live_range in Hq; [|done]. lia.
Qed.

Lemma first_fit_live want a l p l' : Forall cell_ok l -> first_fit want a l = Some (p, l') ->
  exists n, want <= n /\ live a l !! p = None /\ live a l' = <[p := n]> (live a l) /\
            a + SIZEOF_BLOCK <= p /\ (a mod 16 = 0 -> p mod 16 = 0).
Proof.
  intros Hf. revert a p l'. induction Hf as [|c l [Hc Hcm] Hf IH]; intros a p l'; [done|].
  simpl. destruct (cfree c) eqn:Ec; simpl.
  - destruct (Z.leb_spec want (csize c)) as [Hle|Hgt].
    + intros [= <- <-].
      assert (live (a + SIZEOF_BLOCK + csize c) l !! (a + SIZEOF_BLOCK) = None) as Hn.
      { destruct (live _ l !! _) eqn:E; [|done]. apply live_range in E; [|done].
        unfold SIZEOF_BLOCK in *. lia. }
      exists (if want + SIZEOF_BLOCK + 16 <=? csize c then want else csize c).
      split_and!; [by destruct (_ <=? _) | done | | lia |].
      * destruct (_ <=? _); simpl; [|done]. do 2 f_equal. lia.
      * intros Ha. unfold SIZEOF_BLOCK. rewrite Z.add_mod, Ha by lia. done.
    + destruct (first_fit _ _ l) as [[p1 l1]|] eqn:E; [|done]. intros [= <- <-].
      apply IH in E as (n & Hn & Hnone & Hl & Hp & Hm). exists n. simpl. rewrite Ec.
      split_and!; try done; [unfold SIZEOF_BLOCK in *; lia|].
      intros Ha. apply Hm. unfold SIZEOF_BLOCK.
      rewrite Z.add_mod, (Z.add_mod a), Ha, Hcm by lia. done.
  - destruct (first_fit _ _ l) as [[p1 l1]|] eqn:E; [|done]. intros [= <- <-].
    apply IH in E as (n & Hn & Hnone & Hl & Hp & Hm). exists n. simpl. rewrite Ec.
    assert (p1 <> a + SIZEOF_BLOCK) by (unfold SIZEOF_BLOCK in *; lia).
    split_and!; [done | by rewrite lookup_insert_ne | | unfold SIZEOF_BLOCK in *; lia |].
    + rewrite Hl. by rewrite insert_insert_ne.
    + intros Ha. apply Hm. unfold SIZEOF_BLOCK.
      rewrite Z.add_mod, (Z.add_mod a), Ha, Hcm by lia. done.
Qed.

Lemma ALIGN16_spec n : 0 < n <= 2 ^ 64 - 16 ->
  request_ok (ALIGN16 n) /\ n <= ALIGN16 n < n + 16.
Proof.
  intros Hn.
  assert (ALIGN16 n = n + 15 - (n + 15) mod 16) as ->.
  { unfold ALIGN16. words. apply (land_mask 4); lia. }
  pose proof (Z.mod_pos_bound (n + 15) 16 ltac:(lia)).
  pose proof (Z.div_mod (n + 15) 16 ltac:(lia)).
  assert (n + 15 - (n + 15) mod 16 = (n + 15) / 16 * 16) as E by lia.
  split; [|lia]. split; [|rewrite E; by rewrite Z.mod_mul].
  assert (1 <= (n + 15) / 16) by (apply Z.div_le_lower_bound; lia). lia.
Qed.

Lemma layout_length l : Forall cell_ok l -> Z.of_nat (length l) * SIZEOF_BLOCK <= span l.
Proof.
  induction 1 as [|c l [Hc _] _ IH]; simpl; [lia|]. unfold SIZEOF_BLOCK in *. lia.
Qed.

Lemma wf_placed m l : heap_wf m l -> placed HEAP_BASE l.
Proof. intros [_ Hc Hs]. split_and!; [done | done | by rewrite Hs | done]. Qed.

Lemma wf_fuel m l : heap_wf m l -> (length l < HEAP_FUEL)%nat.
Proof.
  intros [_ Hc Hs]. pose proof (layout_length l Hc) as H. rewrite Hs in H.
  unfold HEAP_FUEL. assert (Z.of_nat (length l) <= HEAP_SIZE / SIZEOF_BLOCK).
  { apply Z.div_le_lower_bound; unfold SIZEOF_BLOCK in *; lia. }
  lia.
Qed.

Lemma wf_head m l : heap_wf m l -> head_ptr HEAP_BASE l = HEAP_BASE.
Proof. intros [_ _ Hs]. by destruct l. Qed.

Lemma kmalloc_spec m l want : heap_wf m l -> 0 < want <= 2 ^ 64 - 16 ->
  match first_fit (ALIGN16 want) HEAP_BASE l with
  | None => kmalloc want m = Some (0, m)
  | Some (p, l') => exists m', kmalloc want m = Some (p, m') /\ heap_wf m' l' /\
                               keeps m m' HEAP_BASE l
  end.
Proof.
  intros Hwf Hw. destruct (ALIGN16_spec want Hw) as [Hr _].
  pose proof (kmalloc_scan_spec HEAP_FUEL (ALIGN16 want) 0 HEAP_BASE l m
    (wf_placed _ _ Hwf) (wf_seg _ _ Hwf) Hr (wf_fuel _ _ Hwf)) as H.
  rewrite (wf_head _ _ Hwf) in H.
  unfold kmalloc. rewrite (proj2 (Z.eqb_neq want 0)) by lia.
  destruct (first_fit _ _ _) as [[p l']|]; [|done].
  destruct H as (m' & Hk & Hs & Hok & Hsp & Hkeep). exists m'.
  split; [done|]. split; [|done]. split; [done | done |]. rewrite Hsp. apply Hwf.
Qed.

Lemma init_wf m : heap_wf (heap_init m).2 [mkCell (HEAP_SIZE - SIZEOF_BLOCK) true].
Proof.
  split; [|repeat constructor; done | done].
  split; [|done]. unfold heap_init, blk_set_free. cbn [snd].
  constructor; simpl; mem_simpl; done.
Qed.

(** ** [kfree] refines coalescing on cells *)

Definition merge (c d : cell) : cell := mkCell (csize c + SIZEOF_BLOCK + csize d) true.

Definition merge_right (c : cell) (l : list cell) : list cell :=
  match l with
  | d :: l' => if cfree d then merge c d :: l' else c :: l
  | [] => [c]
  end.

Definition merge_left (l : list cell) (r : list cell) : list cell :=
  match list.last l, r with
  | Some e, c :: r' => if cfree e then removelast l ++ merge e c :: r' else l ++ r
  | _, _ => l ++ r
  end.

(** The cells after the one between [l1] and [l2] is released. *)
Definition release (l1 : list cell) (c : cell) (l2 : list cell) : list cell :=
  merge_left l1 (merge_right (mkCell (csize c) true) l2).

Lemma absorb_spec m prev a c d l : placed a (c :: d :: l) -> seg m prev a (c :: d :: l) 0 ->
  let b' := a + SIZEOF_BLOCK + csize c in
  let m' := absorb m a b' in
  seg m' prev a (merge c d :: l) 0 /\
  (forall x, x < a \/ a + SIZEOF_BLOCK <= x ->
     (l <> [] -> x <> f_prev (b' + SIZEOF_BLOCK + csize d)) -> rd m' x = rd m x).
Proof.
  intros Hp [[H1 H2 H3 H4] [Hd Hs]] b' m'.
  pose proof (placed_cons _ _ _ Hp) as Hpd. pose proof (placed_cons _ _ _ Hpd) as Hpl.
  pose proof (next_ptr_even _ _ _ Hpd) as Hev. unfold next_ptr in Hev.
  pose proof (header_next _ _ _ _ _ Hd Hev) as Hdn.
  destruct (placed_cell _ _ _ Hp) as [Hc _], (placed_cell _ _ _ Hpd) as [Hcd _].
  destruct Hp as (Ha & _ & Hsp & Hok). simpl in Hsp.
  destruct Hpl as (Hpos & Hplm & Hplr & Hokl). pose proof (span_nonneg l Hokl).
  fold b' in Hd, Hs, Hdn, Hpos, Hplm, Hplr, Hev.
  set (nd := match l with [] => 0 | _ => b' + SIZEOF_BLOCK + csize d end) in *.
  assert (Hnd : nd = 0 /\ l = [] \/ nd = b' + SIZEOF_BLOCK + csize d /\ l <> [])
    by (unfold nd; destruct l; [left | right]; done).
  assert (Hm' : m' = let m1 := wr (wr m (a + 8) (csize c + SIZEOF_BLOCK + csize d)) (a + 16) (nd + 1) in
                     if nd =? 0 then m1 else wr m1 (nd + 24) a).
  { unfold m', absorb, blk_next in *. unfold SIZEOF_BLOCK in *.
    rewrite H2, (h_size _ _ _ _ _ Hd), (u64_id _) by lia.
    rewrite !(rd_wr_ne _ _ (b' + 16)) by (unfold b'; lia). rewrite Hdn.
    pose proof (tag_free nd false Hev) as Ht. simpl in Ht. rewrite Z.add_0_r in Ht. rewrite Ht.
    by replace (csize c + (32 + csize d)) with (csize c + 32 + csize d) by lia. }
  assert (Hfr : forall x, x < a \/ a + SIZEOF_BLOCK <= x -> (l <> [] -> x <> f_prev nd) ->
                 rd m' x = rd m x).
  { intros x Hx Hn. rewrite Hm'. simpl. unfold SIZEOF_BLOCK in *. destruct (Z.eqb_spec nd 0).
    - by mem_simpl.
    - destruct Hnd as [[? ?]|[? Hne]]; [done|]. specialize (Hn Hne). by mem_simpl. }
  split.
  - apply seg_cons. simpl csize.
    replace (a + SIZEOF_BLOCK + (csize c + SIZEOF_BLOCK + csize d))
      with (b' + SIZEOF_BLOCK + csize d) by (unfold b'; lia).
    split.
    + fold nd. rewrite Hm'. simpl. unfold SIZEOF_BLOCK in *. unfold b' in *.
      constructor; simpl; destruct (Z.eqb_spec nd 0);
        try (destruct Hnd as [[? ?]|[? ?]]; [done|]); mem_simpl; done.
    + apply (seg_set_prev m m' b' a _ _ _); [done | done | |].
      * intros Hne. destruct Hnd as [[_ ?]|[Hx _]]; [done|]. rewrite <- Hx, Hm'. simpl.
        unfold SIZEOF_BLOCK in *. rewrite (proj2 (Z.eqb_neq nd 0)) by lia. by rewrite rd_wr_eq.
      * intros x Hx Hx'. apply Hfr; [unfold b', SIZEOF_BLOCK in *; lia|].
        intros Hne. destruct Hnd as [[_ ?]|[-> _]]; [done|]. done.
  - intros x Hx Hn. apply Hfr; [done|]. intros Hne.
    destruct Hnd as [[_ ?]|[-> _]]; [done|]. by apply Hn.
Qed.

(** Words of the heap that belong to some header of the layout. *)
Definition header_word (a : Z) (l : list cell) (x : Z) : Prop :=
  exists l1 d l2, l = l1 ++ d :: l2 /\ a + span l1 <= x < a + span l1 + SIZEOF_BLOCK.

Lemma header_word_cons a c l x : header_word (a + SIZEOF_BLOCK + csize c) l x -> header_word a (c :: l) x.
Proof.
  intros (l1 & d & l2 & -> & Hx). exists (c :: l1), d, l2. split; [done|]. simpl. lia.
Qed.

Lemma header_word_here a c l x : a <= x < a + SIZEOF_BLOCK -> header_word a (c :: l) x.
Proof. intros Hx. exists [], c, l. simpl. split; [done|lia]. Qed.

Lemma header_word_app a l1 l2 x : header_word (a + span l1) l2 x -> header_word a (l1 ++ l2) x.
Proof.
  intros (r1 & d & r2 & -> & Hx). exists (l1 ++ r1), d, r2.
  rewrite <- (assoc_L (++)), span_app. split; [done|lia].
Qed.

(** Releasing the first cell of a run and absorbing a free successor. *)
Lemma release_right_spec m prev a c l : placed a (c :: l) -> seg m prev a (c :: l) 0 ->
  let p := a + SIZEOF_BLOCK in
  let m1 := blk_set_free m a in
  let m2 := for_up 0 (rd m1 (f_size a) / 8) (fun i m => wr m (p + 8 * i) POISON) m1 in
  let bn := blk_next m2 a in
  let m3 := if negb (bn =? 0) && blk_is_free m2 bn then absorb m2 a bn else m2 in
  seg m3 prev a (merge_right (mkCell (csize c) true) l) 0 /\
  (forall x, ~ header_word a (c :: l) x -> ~ p <= x < p + csize c -> rd m3 x = rd m x).
Proof.
  intros Hp [Hh Hs] p m1 m2 bn m3.
  pose proof (next_ptr_even _ _ _ Hp) as Hev. unfold next_ptr in Hev.
  pose proof (set_free_spec _ _ _ _ _ Hh Hev) as Hh1. fold m1 in Hh1.
  destruct (placed_cell _ _ _ Hp) as [Hc Hcm]. pose proof (placed_cons _ _ _ Hp) as Hpl.
  pose proof Hp as (Ha & Ham & Hsp & Hok). inversion Hok as [|? ? _ Hokl]; subst.
  assert (Hfr : forall x, x < p \/ p + csize c <= x -> rd m2 x = rd m1 x).
  { unfold m2. rewrite (h_size _ _ _ _ _ Hh1). simpl.
    assert (8 * (csize c / 8) <= csize c) by (apply Z.mul_div_le; lia).
    apply (for_up_ind (fun _ m' => forall x, x < p \/ p + csize c <= x -> rd m' x = rd m1 x));
      [done |].
    intros i m' Hi IH x Hx. rewrite rd_wr_ne by lia. by apply IH. }
  assert (Hfr1 : forall x, x < a \/ p <= x -> rd m1 x = rd m x).
  { intros x Hx. unfold m1, blk_set_free, p, SIZEOF_BLOCK in *. by rewrite rd_wr_ne by lia. }
  assert (Hs2 : seg m2 prev a (mkCell (csize c) true :: l) 0).
  { split.
    - eapply header_frame; [exact Hh1|]. intros x Hx. apply Hfr. unfold p. lia.
    - eapply seg_frame; [done | done |]. intros x Hx. rewrite Hfr by (unfold p; simpl in Hx; lia).
      apply Hfr1. unfold p. simpl in Hx. lia. }
  assert (Hbn : bn = match l with [] => 0 | _ => a + SIZEOF_BLOCK + csize c end).
  { unfold bn. exact (header_next _ _ _ _ _ (proj1 Hs2) Hev). }
  assert (Hout2 : forall x, ~ header_word a (c :: l) x -> ~ p <= x < p + csize c -> rd m2 x = rd m x).
  { intros x Hx Hx'. assert (x < a \/ p <= x).
    { destruct (decide (a <= x < p)) as [?|?]; [|lia]. destruct Hx. by apply header_word_here. }
    rewrite Hfr by lia. apply Hfr1. done. }
  unfold m3. destruct l as [|d l]; rewrite Hbn.
  - by split.
  - destruct Hs2 as [Hh2 Hs2]. rewrite (proj2 (Z.eqb_neq _ 0)) by (unfold SIZEOF_BLOCK in *; lia). simpl.
    pose proof (header_is_free _ _ _ _ _ (proj1 Hs2) (next_ptr_even _ _ _ Hpl)) as Hfd.
    simpl csize in Hfd. rewrite Hfd. destruct (cfree d); [|by split].
    assert (placed a (mkCell (csize c) true :: d :: l)) as Hp'.
    { split_and!; try done. by constructor. }
    destruct (absorb_spec m2 prev a (mkCell (csize c) true) d l Hp' (conj Hh2 Hs2)) as [Hseg Hab].
    simpl in Hab. split; [done|]. intros x Hx Hx'. rewrite Hab; [by apply Hout2| |].
    + destruct (decide (a <= x < a + SIZEOF_BLOCK)); [|lia]. destruct Hx. by apply header_word_here.
    + intros Hne ->. destruct Hx. apply header_word_cons, header_word_cons.
      destruct l; [done|]. apply header_word_here. unfold SIZEOF_BLOCK. lia.
Qed.

Lemma placed_app a l1 l2 : placed a (l1 ++ l2) -> placed (a + span l1) l2.
Proof.
  revert a. induction l1 as [|c l1 IH]; intros a Hp; simpl; [by rewrite Z.add_0_r|].
  replace (a + (SIZEOF_BLOCK + csize c + span l1)) with (a + SIZEOF_BLOCK + csize c + span l1) by lia.
  apply IH. by apply placed_cons.
Qed.

Lemma last_addr_snoc prev a l e : last_addr prev a (l ++ [e]) = a + span l.
Proof.
  revert prev a. induction l as [|c l IH]; intros prev a; simpl; [lia|]. rewrite IH. lia.
Qed.

Lemma seg_last_header m prev a l e c r : seg m prev a ((l ++ [e]) ++ c :: r) 0 ->
  header m (a + span l) e (a + span (l ++ [e])) (last_addr prev a l).
Proof.
  rewrite <- (assoc_L (++)). intros [_ [Hh _]]%seg_app; [|done]. simpl in Hh.
  rewrite span_app. simpl. by rewrite Z.add_0_r, !Z.add_assoc.
Qed.

Lemma merge_ok c d : cell_ok c -> cell_ok d -> cell_ok (merge c d).
Proof.
  intros [Hc Hcm] [Hd Hdm]. split; simpl; unfold SIZEOF_BLOCK; [lia|].
  rewrite Z.add_mod, (Z.add_mod (csize c)), Hcm, Hdm by lia. done.
Qed.

Lemma merge_right_ok c l : cell_ok c -> Forall cell_ok l ->
  Forall cell_ok (merge_right c l) /\ span (merge_right c l) = span (c :: l) /\ merge_right c l <> [].
Proof.
  intros Hc Hl. destruct l as [|d l]; simpl; [split; [by constructor|done]|].
  inversion Hl as [|? ? Hd Hl']; subst.
  destruct (cfree d); split_and!; try done; [|simpl; lia|by constructor].
  constructor; [by apply merge_ok | done].
Qed.

Lemma merge_left_ok l c r : Forall cell_ok l -> Forall cell_ok (c :: r) ->
  Forall cell_ok (merge_left l (c :: r)) /\ span (merge_left l (c :: r)) = span (l ++ c :: r).
Proof.
  intros Hl Hr. assert (Forall cell_ok (l ++ c :: r)) by by apply Forall_app.
  destruct l as [|e l _] using rev_ind; [done|].
  unfold merge_left. rewrite list.last_snoc, removelast_last.
  destruct (cfree e); [|done]. apply Forall_app in Hl as [Hl He].
  inversion He; inversion Hr; subst. split.
  - apply Forall_app. split; [done|]. constructor; [by apply merge_ok | done].
  - rewrite !span_app. simpl. lia.
Qed.

Lemma header_word_mono a l r r' x :
  (forall y, header_word (a + span l) r y -> header_word (a + span l) r' y) ->
  header_word a (l ++ r) x -> header_word a (l ++ r') x.
Proof.
  revert a. induction l as [|c l IH]; intros a Hr; simpl in *.
  - rewrite Z.add_0_r in Hr. apply Hr.
  - intros ([|k k1] & d & k2 & [= <- E] & Hx); simpl in Hx.
    + apply header_word_here. lia.
    + apply header_word_cons, IH; [|exists k1, d, k2; split; [done|lia]].
      replace (a + SIZEOF_BLOCK + csize c + span l) with (a + (SIZEOF_BLOCK + csize c + span l)) by lia.
      done.
Qed.

Lemma header_word_resize a c c' l y : csize c = csize c' ->
  header_word a (c :: l) y -> header_word a (c' :: l) y.
Proof.
  intros Hc ([|k k1] & d & k2 & [= <- E] & Hy); simpl in Hy.
  - apply header_word_here. lia.
  - apply header_word_cons. exists k1, d, k2. split; [done|]. lia.
Qed.

Lemma header_word_merge_right a c l x : header_word a (merge_right c l) x -> header_word a (c :: l) x.
Proof.
  destruct l as [|d l]; [done|]. simpl. destruct (cfree d); [|done].
  intros ([|k k1] & e & k2 & [= <- E] & Hx); simpl in Hx.
  - apply header_word_here. lia.
  - apply header_word_cons, header_word_cons. exists k1, e, k2. split; [done|]. lia.
Qed.

(** Absorbing a released cell into a free predecessor. *)
Lemma release_left_spec m a l c r : placed a (l ++ c :: r) -> seg m 0 a (l ++ c :: r) 0 ->
  let b := a + span l in
  let bp := rd m (f_prev b) in
  let m' := if negb (bp =? 0) && blk_is_free m bp then absorb m bp b else m in
  seg m' 0 a (merge_left l (c :: r)) 0 /\
  (forall x, ~ header_word a (l ++ c :: r) x -> rd m' x = rd m x).
Proof.
  intros Hp Hseg b bp m'.
  assert (Hbp : bp = last_addr 0 a l).
  { apply seg_app in Hseg as [_ [Hh _]]; [|done]. apply (h_prev _ _ _ _ _ Hh). }
  destruct l as [|e l _] using rev_ind; [by unfold m'; rewrite Hbp|].
  rewrite last_addr_snoc in Hbp. unfold merge_left. rewrite list.last_snoc, removelast_last.
  pose proof (seg_last_header _ _ _ _ _ _ _ Hseg) as He. fold b in He.
  assert (even64 b).
  { destruct (placed_app _ _ _ Hp) as (Hb & Hbm & Hbs & Hbok). pose proof (span_nonneg _ Hbok).
    fold b in Hb, Hbm, Hbs. split; [lia|]. by apply mod16_even. }
  rewrite <- (assoc_L (++)) in Hp, Hseg |- *. simpl in Hp, Hseg |- *.
  pose proof (placed_app _ _ _ Hp) as Hpe. assert (0 < bp) by (rewrite Hbp; apply Hpe).
  unfold m'. rewrite (proj2 (Z.eqb_neq bp 0)) by lia. simpl.
  rewrite Hbp, (header_is_free _ _ _ _ _ He) by done. destruct (cfree e); [|done].
  apply seg_app in Hseg as [Hs1 Hs2]; [|done].
  destruct (absorb_spec m _ _ e c r Hpe Hs2) as [Hsa Hfr].
  assert (Hb : a + span l + SIZEOF_BLOCK + csize e = b).
  { unfold b. rewrite span_app. simpl. lia. }
  rewrite Hb in Hsa, Hfr. split.
  - apply seg_app; [done|]. split; [|done]. destruct Hp as (_ & _ & _ & [Hokl Hokr]%Forall_app).
    inversion Hokr as [|? ? [Hce _] Hokr']; inversion Hokr' as [|? ? [Hcc _] _]; subst.
    eapply seg_frame; [done | done |]. intros x Hx. apply Hfr; [lia|].
    intros _. unfold SIZEOF_BLOCK in *. lia.
  - intros x Hx. apply Hfr.
    + destruct (decide (a + span l <= x < a + span l + SIZEOF_BLOCK)); [|lia].
      destruct Hx. by apply header_word_app, header_word_here.
    + intros Hne ->. destruct Hx. apply header_word_app, header_word_cons, header_word_cons.
      rewrite Hb. destruct r; [done|]. apply header_word_here. unfold SIZEOF_BLOCK. lia.
Qed.

Lemma kfree_spec m l1 c l2 : heap_wf m (l1 ++ c :: l2) ->
  let p := HEAP_BASE + span l1 + SIZEOF_BLOCK in
  heap_wf (kfree p m) (release l1 c l2) /\
  (forall x, ~ header_word HEAP_BASE (l1 ++ c :: l2) x -> ~ p <= x < p + csize c ->
     rd (kfree p m) x = rd m x).
Proof.
  intros Hwf p. pose proof (wf_placed _ _ Hwf) as Hp0. destruct Hwf as [Hseg Hok Hspan].
  pose proof Hseg as [Hs1 Hs2]%seg_app; [|done].
  pose proof (placed_app _ _ _ Hp0) as Hp. pose proof Hok as [Hok1 Hok2]%Forall_app.
  inversion Hok2 as [|? ? Hc Hokl2]; subst.
  set (b := HEAP_BASE + span l1) in *.
  assert (0 < b) by apply Hp.
  destruct (release_right_spec m _ b c l2 Hp Hs2) as [Hseg3 Hout].
  fold p in Hseg3, Hout. match type of Hseg3 with seg ?mm _ _ _ _ => set (m3 := mm) in * end.
  unfold kfree. replace (p - SIZEOF_BLOCK) with b by (unfold p; lia).
  rewrite (proj2 (Z.eqb_neq p 0)) by (unfold p, SIZEOF_BLOCK; lia).
  rewrite (h_magic _ _ _ _ _ (proj1 Hs2)), Z.eqb_refl. cbv zeta. cbn [negb]. fold m3.
  destruct (merge_right_ok (mkCell (csize c) true) l2 Hc Hokl2) as (Hokr & Hspr & Hner).
  pose proof (header_word_merge_right b (mkCell (csize c) true) l2) as Hhw.
  unfold release. destruct (merge_right (mkCell (csize c) true) l2) as [|c' r]; [done|].
  assert (Hfull : seg m3 0 HEAP_BASE (l1 ++ c' :: r) 0).
  { apply seg_app; [done|]. split; [|done]. eapply seg_frame; [done | done |].
    intros x Hx. apply Hout; [|unfold p, SIZEOF_BLOCK; lia]. intros (k1 & d & k2 & E & Hx').
    assert (0 <= span k1); [|lia]. apply span_nonneg. rewrite E in Hok2. by apply Forall_app in Hok2 as [? _]. }
  assert (Hspf : span (l1 ++ c' :: r) = HEAP_SIZE).
  { rewrite <- Hspan, !span_app, Hspr. done. }
  assert (Hpf : placed HEAP_BASE (l1 ++ c' :: r)).
  { split_and!; [done | done | by rewrite Hspf | by apply Forall_app]. }
  destruct (release_left_spec m3 _ _ _ _ Hpf Hfull) as [Hsf Hof].
  destruct (merge_left_ok l1 c' r Hok1 Hokr) as [Hokf Hspl].
  split; [split; [done | done | by rewrite Hspl]|].
  intros x Hx Hxp. rewrite Hof.
  - apply Hout; [|done]. intros ?. apply Hx. by apply header_word_app.
  - intros Hh. apply Hx. revert Hh. apply header_word_mono. intros y Hy%Hhw.
    revert Hy. by apply header_word_resize.
Qed.

(** ** Coalescing: no two neighbours are free *)

Definition head_free (l : list cell) : bool := match l with c :: _ => cfree c | [] => false end.
Definition last_free (l : list cell) : bool :=
  match list.last l with Some c => cfree c | None => false end.

Fixpoint coalesced (l : list cell) : bool :=
  match l with [] => true | c :: l => negb (cfree c && head_free l) && coalesced l end.

Lemma coalesced_app l1 l2 :
  coalesced (l1 ++ l2) = coalesced l1 && coalesced l2 && negb (last_free l1 && head_free l2).
Proof.
  induction l1 as [|c l1 IH]; simpl; [by rewrite andb_true_r|]. rewrite IH.
  destruct l1 as [|d l1]; simpl.
  - unfold last_free. simpl. destruct (cfree c), (head_free l2), (coalesced l2); done.
  - change (last_free (c :: d :: l1)) with (last_free (d :: l1)).
    destruct (cfree c), (cfree d), (coalesced l1), (coalesced l2), (head_free l1); done.
Qed.

Lemma coalesced_cons c l : coalesced (c :: l) = true <->
  coalesced l = true /\ (cfree c = true -> head_free l = false).
Proof. simpl. destruct (cfree c), (head_free l), (coalesced l); naive_solver. Qed.

Lemma first_fit_coalesced want a l p l' : first_fit want a l = Some (p, l') ->
  coalesced l = true -> coalesced l' = true /\ (head_free l' = true -> head_free l = true).
Proof.
  revert a p l'. induction l as [|c l IH]; intros a p l'; [done|]. cbn [first_fit].
  rewrite coalesced_cons. destruct (cfree c) eqn:Ec, (Z.leb_spec want (csize c)); cbn [andb];
    [|destruct (first_fit _ _ l) as [[p1 l1]|] eqn:E; [|done]..];
    intros [= <- <-] [Hl Hc].
  - destruct (_ <=? _); rewrite !coalesced_cons; simpl; naive_solver.
  - destruct (IH _ _ _ E Hl) as [? Hh]. rewrite coalesced_cons, Ec. simpl. rewrite Ec.
    split; [split; [done|] | done]. intros _. destruct (head_free l1); naive_solver.
  - destruct (IH _ _ _ E Hl) as [? Hh]. rewrite coalesced_cons, Ec. simpl. by rewrite Ec.
  - destruct (IH _ _ _ E Hl) as [? Hh]. rewrite coalesced_cons, Ec. simpl. by rewrite Ec.
Qed.

Lemma release_coalesced l1 c l2 : coalesced (l1 ++ c :: l2) = true ->
  coalesced (release l1 c l2) = true.
Proof.
  rewrite coalesced_app, !andb_true_iff. intros [[H1 [H2 _]%coalesced_cons] _].
  set (c' := mkCell (csize c) true).
  assert (exists d r, merge_right c' l2 = d :: r /\ cfree d = true /\ coalesced (d :: r) = true)
    as (d & r & Er & Hd & Hr).
  { destruct l2 as [|d l2]; simpl; [by eexists _, _|].
    apply coalesced_cons in H2 as H2'. destruct (cfree d) eqn:Ed; eexists _, _; (split; [done|]).
    - split; [done|]. apply coalesced_cons. simpl. naive_solver.
    - split; [done|]. apply coalesced_cons. simpl. naive_solver. }
  unfold release. fold c'. rewrite Er. destruct l1 as [|e l1 _] using rev_ind; [done|].
  unfold merge_left. rewrite list.last_snoc, removelast_last. destruct (cfree e) eqn:Ee.
  - rewrite coalesced_app in H1 |- *. apply coalesced_cons in Hr as [Hr Hh].
    rewrite !andb_true_iff in H1 |- *. destruct H1 as [[H1 _] H3]. simpl in H3 |- *. rewrite Ee in H3.
    rewrite Hr, (Hh Hd). by destruct (last_free l1).
  - rewrite coalesced_app, H1, Hr. unfold last_free. rewrite list.last_snoc, Ee. done.
Qed.

Lemma live_decompose a l p n : live a l !! p = Some n ->
  exists l1 c l2, l = l1 ++ c :: l2 /\ cfree c = false /\ csize c = n /\
                  p = a + span l1 + SIZEOF_BLOCK.
Proof.
  revert a. induction l as [|c l IH]; intros a; [done|]. simpl.
  assert (live (a + SIZEOF_BLOCK + csize c) l !! p = Some n ->
    exists l1 d l2, c :: l = l1 ++ d :: l2 /\ cfree d = false /\ csize d = n /\
                    p = a + span l1 + SIZEOF_BLOCK) as Hrec.
  { intros (l1 & d & l2 & -> & ? & ? & ->)%IH. exists (c :: l1), d, l2. simpl.
    split_and!; try done. lia. }
  destruct (cfree c) eqn:Ec; [done|].
  destruct (Z.eq_dec (a + SIZEOF_BLOCK) p) as [<-|].
  - rewrite lookup_insert_eq. intros [= <-]. exists [], c, l. simpl. split_and!; done || lia.
  - by rewrite lookup_insert_ne.
Qed.

Lemma live_merge_right a n l : live a (merge_right (mkCell n true) l) = live (a + SIZEOF_BLOCK + n) l.
Proof.
  destruct l as [|d l]; [done|]. simpl. destruct (cfree d) eqn:E; simpl; [f_equal; lia|by rewrite E].
Qed.

Lemma live_merge_left a l c r : cfree c = true -> live a (merge_left l (c :: r)) = live a (l ++ c :: r).
Proof.
  intros Hc. destruct l as [|e l _] using rev_ind; [done|].
  unfold merge_left. rewrite list.last_snoc, removelast_last. destruct (cfree e) eqn:Ee; [|done].
  rewrite <- (assoc_L (++)). simpl. rewrite !live_app. simpl. rewrite Ee, Hc.
  by replace (a + span l + SIZEOF_BLOCK + (csize e + SIZEOF_BLOCK + csize c)) with
    (a + span l + SIZEOF_BLOCK + csize e + SIZEOF_BLOCK + csize c) by lia.
Qed.

Lemma live_release a l1 c l2 : Forall cell_ok (l1 ++ c :: l2) -> cfree c = false ->
  live a (release l1 c l2) = delete (a + span l1 + SIZEOF_BLOCK) (live a (l1 ++ c :: l2)).
Proof.
  intros [H1 H2]%Forall_app Hc. unfold release.
  assert (live a (merge_left l1 (merge_right (mkCell (csize c) true) l2)) =
          live a (l1 ++ merge_right (mkCell (csize c) true) l2)) as ->.
  { destruct l2 as [|d l2]; simpl; [by apply live_merge_left|].
    destruct (cfree d); by apply live_merge_left. }
  rewrite !live_app, live_merge_right. simpl. rewrite Hc.
  inversion H2 as [|? ? [Hn _] Hl2]; subst. rewrite delete_union, delete_insert_eq, !delete_id; try done.
  - destruct (live _ l2 !! _) eqn:E; [|done]. apply live_range in E; [|done]. unfold SIZEOF_BLOCK in *. lia.
  - destruct (live _ l1 !! _) eqn:E; [|done]. apply live_range in E; [|done]. unfold SIZEOF_BLOCK in *. lia.
Qed.

(** ** The heap as an allocator *)

(** The payloads handed out, in a well-formed coalesced heap. *)
Definition heap_rep (m : mem) (L : gmap Z Z) : Prop :=
  exists l, heap_wf m l /\ coalesced l = true /\ live HEAP_BASE l = L.

Lemma live_aligned a l q n : Forall cell_ok l -> a mod 16 = 0 -> live a l !! q = Some n -> q mod 16 = 0.
Proof.
  intros Hf. revert a. induction Hf as [|c l [Hc Hcm] Hf IH]; intros a Ha; [done|]. simpl.
  assert ((a + SIZEOF_BLOCK) mod 16 = 0) as Ha'.
  { unfold SIZEOF_BLOCK. rewrite Z.add_mod, Ha by lia. done. }
  assert ((a + SIZEOF_BLOCK + csize c) mod 16 = 0) as Hn by (rewrite Z.add_mod, Ha', Hcm by lia; done).
  destruct (cfree c); [by apply IH|].
  destruct (Z.eq_dec (a + SIZEOF_BLOCK) q) as [<-|]; [done|].
  rewrite lookup_insert_ne by done. by apply IH.
Qed.

Lemma rep_range m L p n : heap_rep m L -> L !! p = Some n ->
  0 < p /\ p mod 16 = 0 /\ 0 < n /\ p + n <= 2 ^ 64.
Proof.
  intros (l & Hwf & _ & <-) Hp. pose proof (wf_placed _ _ Hwf) as (Hb & Hm & Hs & Hok).
  pose proof (live_aligned _ _ _ _ Hok Hm Hp). apply live_range in Hp; [|done].
  unfold SIZEOF_BLOCK in *. lia.
Qed.

Lemma rep_alloc m L n : heap_rep m L -> 0 < n <= MAX_REQUEST ->
  kmalloc n m = Some (0, m) \/
  exists p k m', kmalloc n m = Some (p, m') /\ n <= k /\ L !! p = None /\
                 heap_rep m' (<[p := k]> L) /\ same_payloads L m m'.
Proof.
  intros (l & Hwf & Hco & <-) Hn. pose proof (kmalloc_spec m l n Hwf Hn) as H.
  destruct (first_fit _ _ _) as [[p l']|] eqn:E; [right | by left].
  destruct H as (m' & Hk & Hwf' & _ & Hpay).
  destruct (first_fit_live _ _ _ _ _ (wf_cells _ _ Hwf) E) as (k & Hle & Hnone & Hlive & _).
  destruct (ALIGN16_spec n Hn) as [_ Hal].
  exists p, k, m'. split_and!; [done | lia | done | | done].
  exists l'. split_and!; [done | by eapply first_fit_coalesced | done].
Qed.

Lemma rep_free m L p n : heap_rep m L -> L !! p = Some n ->
  heap_rep (kfree p m) (delete p L) /\ same_payloads (delete p L) m (kfree p m).
Proof.
  intros (l & Hwf & Hco & <-) Hp. pose proof Hp as Hp0.
  apply live_decompose in Hp as (l1 & c & l2 & -> & Hc & Hn & ->).
  destruct (kfree_spec m l1 c l2 Hwf) as [Hwf' Hout]. pose proof (wf_cells _ _ Hwf) as Hok. split.
  - exists (release l1 c l2). split_and!; [done | by apply release_coalesced | by apply live_release].
  - intros q k x [Hne Hq]%lookup_delete_Some Hx. apply Hout.
    + intros (k1 & d & k2 & E & Hx'). rewrite E in Hq, Hok.
      destruct (live_not_header _ _ _ _ _ _ x Hok Hq Hx); lia.
    + destruct (live_disjoint _ _ _ _ _ _ Hok Hp0 Hq ltac:(done)); lia.
Qed.

Lemma seg_payload_write m prev a l nxt q n x v : Forall cell_ok l ->
  live a l !! q = Some n -> q <= x < q + n -> seg m prev a l nxt -> seg (wr m x v) prev a l nxt.
Proof.
  intros Hf. revert prev a. induction Hf as [|c l Hc Hf IH]; intros prev a Hq Hx Hs; [done|].
  pose proof (live_not_header a [] c l q n x (Forall_cons_2 _ _ _ Hc Hf) Hq Hx) as Hnh. simpl in Hnh.
  destruct Hs as [Hh Hs]. split.
  - eapply header_frame; [done|]. intros y Hy. apply rd_wr_ne. lia.
  - simpl in Hq. destruct (cfree c); [by apply IH|].
    destruct (Z.eq_dec (a + SIZEOF_BLOCK) q) as [<-|].
    + rewrite lookup_insert_eq in Hq. injection Hq as <-.
      eapply seg_frame; [done | done |]. intros y Hy. apply rd_wr_ne. lia.
    + rewrite lookup_insert_ne in Hq by done. by apply IH.
Qed.

Lemma rep_write m L p n x v : heap_rep m L -> L !! p = Some n -> p <= x < p + n -> heap_rep (wr m x v) L.
Proof.
  intros (l & [Hs Hc Hsp] & Hco & <-) Hp Hx. exists l. split_and!; [|done|done].
  split; [|done|done]. by eapply seg_payload_write.
Qed.

#[export] Instance heap_allocator : Allocator kmalloc kfree.
Proof.
  refine {| al_rep := heap_rep; al_range := rep_range; al_alloc := rep_alloc;
            al_free := rep_free; al_write := rep_write |}.
  intros m L p n q k (l & Hwf & _ & <-). eapply live_disjoint. apply Hwf.
Defined.

Lemma init_rep m : heap_rep (heap_init m).2 ∅.
Proof. eexists. split_and!; [apply init_wf | done | done]. Qed.

(** ** Free space *)

Definition free_bytes (l : list cell) : Z :=
  foldr (fun c f => (if cfree c then csize c else 0) + f) 0 l.

Lemma free_bytes_bound l : Forall cell_ok l -> 0 <= free_bytes l <= span l.
Proof.
  induction 1 as [|c l [Hc _] _ IH]; simpl; [lia|].
  unfold SIZEOF_BLOCK. destruct (cfree c); lia.
Qed.

Lemma heap_get_free_scan_spec fuel m prev a l f : placed a l -> seg m prev a l 0 ->
  (length l < fuel)%nat -> 0 <= f -> f + span l < 2 ^ 64 ->
  heap_get_free_scan fuel (head_ptr a l) f m = Some (f + free_bytes l).
Proof.
  revert fuel prev a f. induction l as [|c l IH]; intros [|fuel] prev a f Hp Hs Hfuel Hf Hb;
    simpl in Hfuel; try lia.
  { simpl. f_equal. lia. }
  pose proof (placed_cons _ _ _ Hp) as Hpl. destruct (placed_cell _ _ _ Hp) as [Hc _].
  pose proof (next_ptr_even _ _ _ Hp) as Hev. unfold next_ptr in Hev.
  destruct Hs as [Hh Hs]. assert (0 < a) by apply Hp. pose proof Hpl as (_ & _ & _ & Hok).
  pose proof (span_nonneg l Hok). simpl in Hb. cbn [heap_get_free_scan head_ptr].
  rewrite (proj2 (Z.eqb_neq a 0)) by lia.
  rewrite (header_is_free _ _ _ _ _ Hh Hev), (header_next _ _ _ _ _ Hh Hev), (h_size _ _ _ _ _ Hh).
  specialize (IH fuel a (a + SIZEOF_BLOCK + csize c)). rewrite head_ptr_next in IH. unfold next_ptr in IH.
  unfold SIZEOF_BLOCK in *. rewrite (IH _ Hpl Hs ltac:(lia)); destruct (cfree c) eqn:Ec; simpl;
    rewrite ?Ec, ?u64_id by lia; try lia; f_equal; lia.
Qed.

Lemma heap_get_free_spec m l : heap_wf m l -> heap_get_free m = Some (free_bytes l).
Proof.
  intros Hwf. unfold heap_get_free. rewrite <- (wf_head _ _ Hwf).
  rewrite (heap_get_free_scan_spec _ _ 0); [f_equal; lia | by eapply wf_placed | apply Hwf |
    by eapply wf_fuel | lia |]. by rewrite (wf_span _ _ Hwf).
Qed.

(** ** Client traces *)

Inductive op := OpAlloc (n : Z) | OpFree (p : Z) | OpStore (x v : Z).

(** One client step; [L] is what the client holds.  A client only frees and
    writes what it was given. *)
Inductive client_step : mem * gmap Z Z -> op -> mem * gmap Z Z -> Prop :=
| step_alloc m L n p m' k : 0 < n <= MAX_REQUEST -> kmalloc n m = Some (p, m') -> p <> 0 ->
    rd m' (f_size (p - SIZEOF_BLOCK)) = k ->
    client_step (m, L) (OpAlloc n) (m', <[p := k]> L)
| step_oom m L n m' : 0 < n <= MAX_REQUEST -> kmalloc n m = Some (0, m') ->
    client_step (m, L) (OpAlloc n) (m', L)
| step_free m L p n : L !! p = Some n -> client_step (m, L) (OpFree p) (kfree p m, delete p L)
| step_store m L p n x v : L !! p = Some n -> p <= x < p + n ->
    client_step (m, L) (OpStore x v) (wr m x v, L).

Inductive reachable : mem * gmap Z Z -> Prop :=
| reach_init m : reachable ((heap_init m).2, ∅)
| reach_step s o s' : reachable s -> client_step s o s' -> reachable s'.

Lemma seg_live_size m prev a l nxt q n : seg m prev a l nxt -> live a l !! q = Some n ->
  rd m (f_size (q - SIZEOF_BLOCK)) = n.
Proof.
  revert prev a. induction l as [|c l IH]; intros prev a; [done|]. intros [Hh Hs]. simpl.
  destruct (cfree c); [by eapply IH|].
  destruct (Z.eq_dec (a + SIZEOF_BLOCK) q) as [<-|].
  - rewrite lookup_insert_eq. intros [= <-]. rewrite Z.add_simpl_r. apply Hh.
  - rewrite lookup_insert_ne by done. by eapply IH.
Qed.

Lemma rep_alloc_size m L p k : heap_rep m (<[p := k]> L) -> rd m (f_size (p - SIZEOF_BLOCK)) = k.
Proof.
  intros (l & Hwf & _ & Hl). eapply seg_live_size; [apply Hwf|]. rewrite Hl. apply lookup_insert_eq.
Qed.

Lemma reachable_rep s : reachable s -> heap_rep s.1 s.2.
Proof.
  induction 1 as [m|s o s' _ IH Hstep]; [apply init_rep|].
  destruct Hstep as [m L n p m' k Hn Hk Hp Hsz|m L n m' Hn Hk|m L p n Hp|m L p n x v Hp Hx]; simpl in *.
  - destruct (rep_alloc m L n IH Hn) as [E|(q & j & m2 & E & _ & _ & Hrep & _)]; rewrite Hk in E;
      simplify_eq. by rewrite (rep_alloc_size _ _ _ _ Hrep).
  - destruct (rep_alloc m L n IH Hn) as [E|(q & j & m2 & E & _ & _ & Hrep & _)]; rewrite Hk in E;
      simplify_eq; [done|].
    destruct (rep_range _ _ _ _ Hrep (lookup_insert_eq _ _ _)). lia.
  - by apply (rep_free _ _ _ _ IH Hp).
  - by eapply rep_write.
Qed.

Lemma live_empty a l : live a l = ∅ -> forallb cfree l = true.
Proof.
  revert a. induction l as [|c l IH]; intros a; simpl; [done|].
  destruct (cfree c); [apply IH|]. intros H. by apply insert_non_empty in H.
Qed.

Lemma idle_layout m l : heap_wf m l -> coalesced l = true -> live HEAP_BASE l = ∅ ->
  l = [mkCell (HEAP_SIZE - SIZEOF_BLOCK) true].
Proof.
  intros [_ _ Hs] Hco Hl%live_empty. destruct l as [|c [|d l]]; simpl in *; [done| |].
  - destruct c as [n b]. simpl in *. destruct b; [|done]. do 2 f_equal. unfold SIZEOF_BLOCK in *. lia.
  - by destruct (cfree c), (cfree d).
Qed.

Lemma first_fit_None want a l : first_fit want a l = None <->
  Forall (fun c => cfree c = true -> csize c < want) l.
Proof.
  revert a. induction l as [|c l IH]; intros a; simpl; [by split|].
  rewrite Forall_cons_iff. rewrite <- (IH (a + SIZEOF_BLOCK + csize c)).
  destruct (cfree c), (Z.leb_spec want (csize c)), (first_fit _ _ l) as [[? ?]|]; simpl;
    split; intros; try done; intuition (congruence || lia).
Qed.


Definition l_init : list cell := [mkCell (HEAP_SIZE - SIZEOF_BLOCK) true].


(** C19: freeing a payload that is in use removes exactly that payload from the
    ones in use, leaves the contents of every other payload alone, and keeps the
    heap well-formed with no two neighbouring free blocks. *)
Theorem kfree_releases_one m l p n : heap_wf m l -> coalesced l = true ->
  live HEAP_BASE l !! p = Some n ->
  exists l', heap_wf (kfree p m) l' /\ coalesced l' = true /\
    live HEAP_BASE l' = delete p (live HEAP_BASE l) /\
    same_payloads (delete p (live HEAP_BASE l)) m (kfree p m).
Proof.
  intros Hwf Hco Hp.
  destruct (rep_free m _ p n (ex_intro _ l (conj Hwf (conj Hco eq_refl))) Hp) as [(l' & H1 & H2 & H3) H4].
  by exists l'.
Qed.

Definition l_one : list cell := [mkCell 112 false; mkCell (HEAP_SIZE - 176) true].

Definition m_one : mem := default ∅ (snd <$> kmalloc 100 (heap_init ∅).2).

Lemma m_one_wf : heap_wf m_one l_one.
Proof.
  split; [|repeat constructor; done | done]. repeat split; vm_compute; reflexivity.
Qed.

Lemma kfree_releases_one_witness : exists l', heap_wf (kfree (HEAP_BASE + 32) m_one) l' /\ live HEAP_BASE l' = ∅.
Proof.
  destruct (kfree_releases_one m_one l_one (HEAP_BASE + 32) 112 m_one_wf eq_refl eq_refl)
    as (l' & Hwf & _ & Hl & _).
  exists l'. split; [exact Hwf|]. rewrite Hl. reflexivity.
Defined.

(** whatever sequence of allocations, releases and payload writes a client
    made, once it has released everything the heap is a single free block
    again, as [heap_init] left it: neither headers nor fragments leak. *)
Theorem heap_idle_is_one_block m : reachable (m, ∅) ->
  heap_wf m [mkCell (HEAP_SIZE - SIZEOF_BLOCK) true] /\
  heap_get_free m = Some (HEAP_SIZE - SIZEOF_BLOCK).
Proof.
  intros (l & Hwf & Hco & Hl)%reachable_rep. simpl in *.
  rewrite (idle_layout _ _ Hwf Hco Hl) in Hwf. split; [done|].
  by rewrite (heap_get_free_spec _ _ Hwf).
Qed.

Lemma heap_idle_is_one_block_witness :
  heap_get_free (kfree (HEAP_BASE + 32) m_one) = Some (HEAP_SIZE - SIZEOF_BLOCK).
Proof.
  apply (heap_idle_is_one_block (kfree (HEAP_BASE + 32) m_one)).
  apply (reach_step (m_one, {[HEAP_BASE + 32 := 112]}) (OpFree (HEAP_BASE + 32))).
  - apply (reach_step ((heap_init ∅).2, ∅) (OpAlloc 100)); [apply reach_init|].
    apply step_alloc; [unfold MAX_REQUEST; lia | | discriminate |]; vm_compute; reflexivity.
  - replace ∅ with (delete (HEAP_BASE + 32) ({[HEAP_BASE + 32 := 112]} : gmap Z Z)) by reflexivity.
    apply (step_free _ _ _ 112). reflexivity.
Defined.

(** a request within 15 bytes of [2^64] wraps to zero in [ALIGN16], and
    [kmalloc] then answers with a non-NULL payload of size zero instead of
    failing. *)
Theorem kmalloc_huge_request_wraps n : 2 ^ 64 - 16 < n < 2 ^ 64 ->
  ALIGN16 n = 0 /\
  exists m', kmalloc n (heap_init ∅).2 = Some (HEAP_BASE + SIZEOF_BLOCK, m') /\
             rd m' (f_size HEAP_BASE) = 0.
Proof.
  intros Hn. assert (ALIGN16 n = 0) as E.
  { unfold ALIGN16. assert (u64 (n + 15) = n + 15 - 2 ^ 64) as ->.
    { unfold u64. symmetry. apply (Z.mod_unique _ _ 1); lia. }
    change 15 with (Z.ones 4) at 2. rewrite land_mask by lia. rewrite Z.mod_small; lia. }
  split; [done|]. unfold kmalloc. rewrite (proj2 (Z.eqb_neq n 0)), E by lia.
  eexists. split; vm_compute; reflexivity.
Qed.

Lemma kmalloc_huge_request_wraps_witness : ALIGN16 (2 ^ 64 - 1) = 0.
Proof. apply (kmalloc_huge_request_wraps (2 ^ 64 - 1)). lia. Defined.

End Heap.
