(* ===== verification/Arena.v ===== *)
(** * Arena allocator (src/mm/arena.c)

    Bump allocation out of blocks taken from the kernel heap.  The structs
    [arena_t] and [arena_block_t] are records that carry the address the heap
    gave them; the list of blocks is the chain of [next] pointers from [head].
    The client data lives in memory.  Everything is proved for any
    implementation of the heap contract of Alloc.v. *)
From S2P Require Import Prelude.
From S2P Require Import Alloc.
From S2P Require Import Heap.

Module Arena.

Definition ARENA_BLOCK_SIZE : Z := 4096.
Definition ARENA_LARGE_THRESH : Z := ARENA_BLOCK_SIZE / 2.
Definition SIZEOF_ARENA_BLOCK : Z := 16.
Definition SIZEOF_ARENA : Z := 16.

Record arena_block := mkBlock { b_addr : Z; b_used : Z; b_cap : Z }.

Record arena := mkArena {
  a_addr : Z;
  a_blocks : list arena_block;
  a_n_alloc : Z;
  a_n_blocks : Z
}.

Definition b_data (b : arena_block) : Z := b_addr b + SIZEOF_ARENA_BLOCK.
Definition with_used (b : arena_block) (u : Z) : arena_block := mkBlock (b_addr b) u (b_cap b).

(** [_zero]. *)
Definition zero (p n : Z) : M mem unit := modify (fill p n 0).

(** [size = (size + 3u) & ~3u]. *)
Definition ALIGN4 (size : Z) : Z := Z.land (u32 (size + 3)) (u32 (Z.lnot 3)).

Section Ops.
Context (alloc : Z -> mem -> option (Z * mem)) (free : Z -> mem -> mem).

(** [_block_new]. *)
Definition block_new (min_cap : Z) : M mem (option arena_block) :=
  let total := if ARENA_BLOCK_SIZE - SIZEOF_ARENA_BLOCK <? min_cap
               then u32 (SIZEOF_ARENA_BLOCK + min_cap) else ARENA_BLOCK_SIZE in
  let* p := alloc total in
  if p =? 0 then ret None
  else ret (Some (mkBlock p 0 (u32 (total - SIZEOF_ARENA_BLOCK)))).

Definition arena_create : M mem (option arena) :=
  let* p := alloc SIZEOF_ARENA in
  if p =? 0 then ret None
  else
    let* ob := block_new 0 in
    match ob with
    | None => do* modify (free p) in ret None
    | Some b => ret (Some (mkArena p [b] 0 1))
    end.

Definition arena_alloc_large (a : arena) (size : Z) : M mem (Z * arena) :=
  let* ob := block_new size in
  match ob with
  | None => ret (0, a)
  | Some b =>
      let b := with_used b size in
      let blocks := match a_blocks a with [] => [b] | h :: t => h :: b :: t end in
      do* zero (b_data b) size in
      ret (b_data b, mkArena (a_addr a) blocks (u32 (a_n_alloc a + size)) (u32 (a_n_blocks a + 1)))
  end.

(** The bump out of the head block, which has room. *)
Definition arena_bump (a : arena) (size : Z) : M mem (Z * arena) :=
  match a_blocks a with
  | [] => ret (0, a)
  | h :: t =>
      let ptr := b_data h + b_used h in
      let a' := mkArena (a_addr a) (with_used h (u32 (b_used h + size)) :: t)
                        (u32 (a_n_alloc a + size)) (a_n_blocks a) in
      do* zero ptr size in
      ret (ptr, a')
  end.

Definition has_room (a : arena) (size : Z) : bool :=
  match a_blocks a with [] => false | h :: _ => u32 (b_used h + size) <=? b_cap h end.

Definition arena_alloc (oa : option arena) (size : Z) : M mem (Z * option arena) :=
  match oa with
  | None => ret (0, None)
  | Some a =>
      if size =? 0 then ret (0, Some a)
      else
        let size := ALIGN4 size in
        let* '(p, a') :=
          (if ARENA_LARGE_THRESH <? size then arena_alloc_large a size
           else if has_room a size then arena_bump a size
           else
             let* ob := block_new 0 in
             match ob with
             | None => ret (0, a)
             | Some b => arena_bump (mkArena (a_addr a) (b :: a_blocks a) (a_n_alloc a)
                                             (u32 (a_n_blocks a + 1))) size
             end) in
        ret (p, Some a')
  end.

Definition arena_reset (a : arena) : arena :=
  mkArena (a_addr a) ((fun b => with_used b 0) <$> a_blocks a) 0 (a_n_blocks a).

Definition arena_destroy (oa : option arena) : mem -> mem :=
  match oa with
  | None => fun m => m
  | Some a => fun m => free (a_addr a) (foldl (fun m b => free (b_addr b) m) m (a_blocks a))
  end.
End Ops.

(** ** Well-formed arenas *)

Definition owned (a : arena) : list Z := (b_addr <$> a_blocks a) ++ [a_addr a].

Definition block_ok (L : gmap Z Z) (b : arena_block) : Prop :=
  0 <= b_used b <= b_cap b /\ b_cap b < 2 ^ 32 /\ b_used b mod 4 = 0 /\
  exists k, L !! b_addr b = Some k /\ SIZEOF_ARENA_BLOCK + b_cap b <= k.

Record arena_ok (L : gmap Z Z) (a : arena) : Prop := {
  ok_nodup : NoDup (owned a);
  ok_self : is_Some (L !! a_addr a);
  ok_blocks : Forall (block_ok L) (a_blocks a);
  ok_head : b_cap <$> head (a_blocks a) = Some (ARENA_BLOCK_SIZE - SIZEOF_ARENA_BLOCK)
}.

(** The bytes the arena has handed out. *)
Definition handed_out (a : arena) (x : Z) : Prop :=
  exists b, b ∈ a_blocks a /\ b_data b <= x < b_data b + b_used b.

(** The heap the arena would leave behind. *)
Definition without (a : arena) (L : gmap Z Z) : gmap Z Z := foldl (fun L p => delete p L) L (owned a).

Lemma ALIGN4_spec n : 0 <= n < 2 ^ 32 - 3 -> n <= ALIGN4 n < n + 4 /\ ALIGN4 n mod 4 = 0.
Proof.
  intros Hn. assert (ALIGN4 n = n + 3 - (n + 3) mod 4) as ->.
  { unfold ALIGN4. words. apply (land_mask32 2); lia. }
  pose proof (Z.mod_pos_bound (n + 3) 4 ltac:(lia)). split; [lia|].
  rewrite Zminus_mod, Z.mod_mod, Z.sub_diag by lia. done.
Qed.

Lemma lookup_without a L q : without a L !! q = if decide (q ∈ owned a) then None else L !! q.
Proof. apply lookup_delete_list. Qed.

Section Correct.
Context {alloc : Z -> mem -> option (Z * mem)} {free : Z -> mem -> mem} `{!Allocator alloc free}.

Lemma block_new_spec m L mc : al_rep m L -> 0 <= mc < 2 ^ 32 - SIZEOF_ARENA_BLOCK ->
  let cap := Z.max mc (ARENA_BLOCK_SIZE - SIZEOF_ARENA_BLOCK) in
  block_new alloc mc m = Some (None, m) \/
  exists p k m', block_new alloc mc m = Some (Some (mkBlock p 0 cap), m') /\ L !! p = None /\
    al_rep m' (<[p := k]> L) /\ SIZEOF_ARENA_BLOCK + cap <= k /\ same_payloads L m m'.
Proof.
  intros Hr Hmc cap. unfold block_new, SIZEOF_ARENA_BLOCK, ARENA_BLOCK_SIZE in *.
  assert ((if 4096 - 16 <? mc then u32 (16 + mc) else 4096) = 16 + cap) as ->.
  { unfold cap. destruct (Z.ltb_spec (4096 - 16) mc); [rewrite u32_id|]; lia. }
  destruct (al_alloc m L (16 + cap) Hr) as [E|(p & k & m' & E & Hk & Hn & Hr' & Hs)];
    [unfold MAX_REQUEST; lia | left | right]; rewrite (bind_Some _ _ _ _ _ E).
  - done.
  - destruct (al_range _ _ _ _ Hr' (lookup_insert_eq _ _ _)) as [Hp _].
    exists p, k, m'. rewrite (proj2 (Z.eqb_neq p 0)) by lia.
    words. replace (16 + cap - 16) with cap by lia. done.
Qed.

(** Adding a fresh block to the chain. *)
Lemma add_block L a b k blocks n1 n2 : arena_ok L a -> L !! b_addr b = None ->
  0 <= b_used b <= b_cap b -> b_cap b < 2 ^ 32 -> b_used b mod 4 = 0 -> SIZEOF_ARENA_BLOCK + b_cap b <= k ->
  blocks ≡ₚ b :: a_blocks a ->
  b_cap <$> head blocks = Some (ARENA_BLOCK_SIZE - SIZEOF_ARENA_BLOCK) ->
  let a' := mkArena (a_addr a) blocks n1 n2 in
  arena_ok (<[b_addr b := k]> L) a' /\ without a' (<[b_addr b := k]> L) = without a L.
Proof.
  intros [Hnd [ks Hself] Hbl _] Hfresh Hu Hc Hm Hk Hperm Hhd a'.
  assert (Hown : owned a' ≡ₚ b_addr b :: owned a).
  { unfold owned, a'. simpl. by rewrite Hperm. }
  assert (Hnew : b_addr b ∉ owned a).
  { unfold owned. rewrite elem_of_app, list_elem_of_singleton, list_elem_of_fmap.
    intros [(b' & E & Hb')|E]; [|congruence].
    rewrite Forall_forall in Hbl. destruct (Hbl b' Hb') as (_ & _ & _ & k' & E' & _). congruence. }
  split.
  - split; simpl; [|apply lookup_insert_is_Some; right; split; [congruence | by eexists]| |done].
    + rewrite Hown. by apply NoDup_cons.
    + rewrite Hperm. constructor.
      * split_and!; try done; try lia. exists k. rewrite lookup_insert_eq. done.
      * eapply Forall_impl; [done|]. intros b' (? & ? & ? & k' & E & ?). split_and!; try done; try lia.
        exists k'. rewrite lookup_insert_ne; [done|congruence].
  - apply map_eq. intros q. rewrite !lookup_without.
    assert (q ∈ owned a' <-> q = b_addr b \/ q ∈ owned a) by (rewrite Hown; set_solver).
    destruct (decide (q ∈ owned a)), (decide (q ∈ owned a')); try tauto.
    + assert (q = b_addr b) as -> by tauto. done.
    + rewrite lookup_insert_ne; [done|]. intros <-. tauto.
Qed.

Lemma block_elem L a b : arena_ok L a -> b ∈ a_blocks a -> block_ok L b /\ b_addr b ∈ owned a.
Proof.
  intros Hok Hb. split.
  - pose proof (ok_blocks _ _ Hok) as HF. rewrite Forall_forall in HF. by apply HF.
  - unfold owned. apply elem_of_app. left. by apply list_elem_of_fmap_2.
Qed.

Lemma block_addr_inj L a b b' : arena_ok L a -> b ∈ a_blocks a -> b' ∈ a_blocks a ->
  b_addr b = b_addr b' -> b = b'.
Proof.
  intros Hok [i Hi]%list_elem_of_lookup [j Hj]%list_elem_of_lookup E.
  pose proof (ok_nodup _ _ Hok) as Hnd. apply NoDup_app in Hnd as [Hnd _].
  assert (i = j) as ->; [|congruence].
  eapply NoDup_lookup; [exact Hnd | rewrite list_lookup_fmap, Hi; done |].
  rewrite list_lookup_fmap, Hj. simpl. by rewrite E.
Qed.

(** Zeroing unused bytes of one block touches nothing else. *)
Lemma zero_fresh m L a b u n : al_rep m L -> arena_ok L a -> b ∈ a_blocks a ->
  0 <= u -> 0 <= n -> u + n <= b_cap b ->
  let q := b_data b + u in
  let m' := fill q n 0 m in
  al_rep m' L /\ same_payloads (without a L) m m' /\
  (forall b' x, b' ∈ a_blocks a -> b_data b' <= x < b_data b' + b_used b' -> (b' = b -> x < q) ->
     rd m' x = rd m x /\ ~ q <= x < q + n).
Proof.
  intros Hr Hok Hb Hu Hn Hc q m'.
  destruct (block_elem _ _ _ Hok Hb) as [(Hub & _ & _ & k & Hk & Hck) Hown].
  unfold SIZEOF_ARENA_BLOCK in *. assert (Hq : b_addr b + 16 <= q) by (unfold q, b_data, SIZEOF_ARENA_BLOCK; lia).
  assert (Hq' : q + n <= b_addr b + k) by (unfold q, b_data, SIZEOF_ARENA_BLOCK; lia).
  split_and!.
  - eapply al_fill; [done | done | lia | lia].
  - intros p j x Hp Hx. rewrite lookup_without in Hp. destruct (decide (p ∈ owned a)); [done|].
    assert (p <> b_addr b) by (intros ->; done).
    destruct (al_disjoint _ _ _ _ _ _ Hr Hp Hk ltac:(done)); apply rd_fill_out; lia.
  - intros b' x Hb' Hx Hlt. assert (~ q <= x < q + n); [|split; [apply rd_fill_out; lia | done]].
    destruct (decide (b_addr b' = b_addr b)) as [E|Hne].
    + apply (block_addr_inj L a) in E; [|done..]. specialize (Hlt E). lia.
    + destruct (block_elem _ _ _ Hok Hb') as [(? & _ & _ & k' & Hk' & ?) _].
      destruct (al_disjoint _ _ _ _ _ _ Hr Hk' Hk Hne); unfold b_data, SIZEOF_ARENA_BLOCK in *; lia.
Qed.

(** What an allocation of [sz] bytes at [p] (or a failed one, [p = 0])
    leaves behind. *)
Record alloc_post (m : mem) (L : gmap Z Z) (a : arena) (sz p : Z) (a' : arena) (m' : mem) : Prop := {
  po_heap : exists L', al_rep m' L' /\ arena_ok L' a' /\ without a' L' = without a L;
  po_others : same_payloads (without a L) m m';
  po_old : forall x, handed_out a x -> handed_out a' x /\ rd m' x = rd m x /\ (p <> 0 -> ~ p <= x < p + sz);
  po_fail : p = 0 -> a' = a;
  po_new : p <> 0 -> p mod 4 = 0 /\ forall x, p <= x < p + sz -> handed_out a' x /\ rd m' x = 0
}.

Lemma data_aligned m L b : al_rep m L -> block_ok L b -> 0 < b_data b /\ b_data b mod 4 = 0.
Proof.
  intros Hr (_ & _ & _ & k & Hk & _). destruct (al_range _ _ _ _ Hr Hk) as (Hp & Hm & _).
  unfold b_data, SIZEOF_ARENA_BLOCK. split; [lia|].
  rewrite (Z.div_mod (b_addr b) 16), Hm by lia.
  replace (16 * (b_addr b / 16) + 0 + 16) with ((4 * (b_addr b / 16) + 4) * 4) by lia.
  by rewrite Z.mod_mul.
Qed.

Lemma bump_spec m L a sz : al_rep m L -> arena_ok L a -> 0 < sz <= ARENA_LARGE_THRESH -> sz mod 4 = 0 ->
  has_room a sz = true ->
  exists p a' m', arena_bump a sz m = Some ((p, a'), m') /\ p <> 0 /\ alloc_post m L a sz p a' m'.
Proof.
  intros Hr Hok Hsz Hmod. pose proof (ok_head _ _ Hok) as Hhd.
  unfold arena_bump, has_room. destruct (a_blocks a) as [|h t] eqn:Ebl; [done|].
  simpl in Hhd. injection Hhd as Hcap.
  assert (Hh : h ∈ a_blocks a) by (rewrite Ebl; set_solver).
  destruct (block_elem _ _ _ Hok Hh) as [Hbh _]. pose proof Hbh as (Hu & _ & Hum & k & Hk & Hck).
  destruct (data_aligned _ _ _ Hr Hbh) as [Hd Hdm].
  unfold ARENA_LARGE_THRESH, ARENA_BLOCK_SIZE, SIZEOF_ARENA_BLOCK in *. change (4096 / 2) with 2048 in Hsz.
  words. intros Hroom%Z.leb_le.
  destruct (zero_fresh m L a h (b_used h) sz Hr Hok Hh ltac:(lia) ltac:(lia) Hroom) as (Hr' & Hs & Hold).
  set (a' := mkArena _ _ _ _). set (h' := with_used h (b_used h + sz)) in *.
  assert (Hown : owned a' = owned a) by (unfold owned, a'; rewrite Ebl; done).
  eexists _, a', _. split; [reflexivity|]. split; [lia|]. split.
  - exists L. split; [done|]. split; [|unfold without; by rewrite Hown].
    destruct Hok as [H1 H2 H3 H4]. rewrite Ebl in H3. split; [by rewrite Hown | done | |].
    + inversion H3; subst. constructor; [|done]. split_and!; simpl; try lia.
      * rewrite Z.add_mod, Hum, Hmod by lia. done.
      * exists k. split; [done|]. unfold SIZEOF_ARENA_BLOCK. simpl. lia.
    + simpl. by rewrite Hcap.
  - done.
  - intros x (b & Hb & Hx). destruct (Hold b x Hb Hx) as [E Hn]; [intros ->; lia|].
    split_and!; [|done|done]. rewrite Ebl in Hb. apply elem_of_cons in Hb as [->|Hb].
    + exists h'. split; [unfold a'; set_solver|]. simpl. unfold b_data in *. simpl. lia.
    + exists b. split; [unfold a'; set_solver | done].
  - lia.
  - intros _. split; [rewrite Z.add_mod, Hdm, Hum by lia; done|]. intros x Hx. split.
    + exists h'. split; [unfold a'; set_solver|]. simpl. unfold b_data in *. simpl. lia.
    + by apply rd_fill_in.
Qed.

Lemma large_spec m L a sz : al_rep m L -> arena_ok L a -> 0 < sz < 2 ^ 32 - SIZEOF_ARENA_BLOCK -> sz mod 4 = 0 ->
  exists p a' m', arena_alloc_large alloc a sz m = Some ((p, a'), m') /\ alloc_post m L a sz p a' m'.
Proof.
  intros Hr Hok Hsz Hmod. unfold arena_alloc_large.
  destruct (block_new_spec m L sz Hr ltac:(lia)) as [E|(p & k & m1 & E & Hfresh & Hr1 & Hk & Hs1)];
    rewrite (bind_Some _ _ _ _ _ E).
  { exists 0, a, m. split; [done|]. split; [by exists L | by intros ? | | done | done]. naive_solver. }
  set (cap := Z.max sz _) in *. set (b := with_used _ sz). cbv zeta.
  set (blocks := match a_blocks a with [] => _ | _ => _ end).
  assert (Hperm : blocks ≡ₚ b :: a_blocks a).
  { unfold blocks. destruct (a_blocks a); [done|]. apply Permutation_swap. }
  unfold SIZEOF_ARENA_BLOCK, ARENA_BLOCK_SIZE in *.
  destruct (add_block L a b k blocks (u32 (a_n_alloc a + sz)) (u32 (a_n_blocks a + 1))) as [Hok' Hw];
    try done; [simpl; lia | simpl; lia | |].
  { pose proof (ok_head _ _ Hok) as Hhd. unfold blocks. by destruct (a_blocks a). }
  set (a' := mkArena _ _ _ _) in *. change (b_addr b) with p in Hok', Hw.
  assert (Hb : b ∈ a_blocks a') by (unfold a'; simpl; rewrite Hperm; set_solver).
  destruct (data_aligned _ _ _ Hr1 (proj1 (block_elem _ _ _ Hok' Hb))) as [Hd Hdm].
  destruct (zero_fresh m1 _ a' b 0 sz Hr1 Hok' Hb) as (Hr' & Hs & Hold); [lia | lia | simpl; lia |].
  rewrite Z.add_0_r in *. eexists _, a', _. split; [reflexivity|]. split.
  - by eexists.
  - rewrite Hw in Hs. eapply same_payloads_trans; [|done]. eapply same_payloads_sub; [|done].
    apply map_subseteq_spec. intros q j. rewrite lookup_without. by destruct (decide _).
  - intros x (b0 & Hb0 & Hx). assert (b0 ∈ a_blocks a') by (unfold a'; simpl; rewrite Hperm; set_solver).
    destruct (block_elem _ _ _ Hok Hb0) as [(Hu0 & _ & _ & k0 & Hk0 & Hc0) _].
    unfold SIZEOF_ARENA_BLOCK in *.
    destruct (Hold b0 x) as [Eq Hn]; [done | done | intros ->; simpl in Hk0; congruence |].
    split_and!; [by exists b0 | | done]. rewrite Eq. apply (Hs1 (b_addr b0) k0 x); [done|].
    unfold b_data, SIZEOF_ARENA_BLOCK in Hx. lia.
  - lia.
  - intros _. split; [done|]. intros x Hx. split; [exists b; split; [done|]; simpl; lia|].
    by apply rd_fill_in.
Qed.

Lemma without_subseteq a L : without a L ⊆ L.
Proof. apply map_subseteq_spec. intros q j. rewrite lookup_without. by destruct (decide _). Qed.

Lemma alloc_ok_spec m L a size : al_rep m L -> arena_ok L a -> 0 < size <= 2 ^ 32 - 20 ->
  exists p a' m', arena_alloc alloc (Some a) size m = Some ((p, Some a'), m') /\
                  alloc_post m L a (ALIGN4 size) p a' m'.
Proof.
  intros Hr Hok Hsize. unfold arena_alloc. rewrite (proj2 (Z.eqb_neq size 0)) by lia. cbv zeta.
  destruct (ALIGN4_spec size ltac:(lia)) as [Hsz Hmod]. set (sz := ALIGN4 size) in *.
  destruct (Z.ltb_spec ARENA_LARGE_THRESH sz) as [Hl|Hl].
  { destruct (large_spec m L a sz) as (p & a' & m' & E & Hpost); [done | done | unfold SIZEOF_ARENA_BLOCK; lia | done |].
    rewrite (bind_Some _ _ _ _ _ E). by exists p, a', m'. }
  destruct (has_room a sz) eqn:Hroom.
  { destruct (bump_spec m L a sz) as (p & a' & m' & E & _ & Hpost); try done; [lia|].
    rewrite (bind_Some _ _ _ _ _ E). by exists p, a', m'. }
  destruct (block_new_spec m L 0 Hr) as [E|(p & k & m1 & E & Hfresh & Hr1 & Hk & Hs1)];
    [unfold SIZEOF_ARENA_BLOCK; lia | unfold bind at 1; rewrite (bind_Some _ _ _ _ _ E)..].
  { exists 0, a, m. split; [done|]. split; [by exists L | by intros ? | naive_solver | done | done]. }
  set (b := mkBlock p 0 _) in *.
  destruct (add_block L a b k (b :: a_blocks a) (a_n_alloc a) (u32 (a_n_blocks a + 1))) as [Hok' Hw]; try done.
  set (a1 := mkArena _ _ _ _) in *. change (b_addr b) with p in Hok', Hw.
  assert (Hr' : has_room a1 sz = true).
  { unfold has_room, a1, b, ARENA_LARGE_THRESH, ARENA_BLOCK_SIZE, SIZEOF_ARENA_BLOCK in *. simpl.
    change (4096 / 2) with 2048 in Hl. words. apply Z.leb_le. lia. }
  destruct (bump_spec m1 _ a1 sz Hr1 Hok' ltac:(lia) Hmod Hr') as (q & a' & m' & Eb & Hq & [P1 P2 P3 P4 P5]).
  exists q, a', m'. rewrite Eb. split; [done|]. rewrite Hw in P1, P2. split; [done | | | done | done].
  - eapply same_payloads_trans; [|done]. eapply same_payloads_sub; [apply without_subseteq | done].
  - intros x (b0 & Hb0 & Hx). destruct (P3 x) as (H1 & H2 & H3); [exists b0; split; [unfold a1; set_solver | done]|].
    split_and!; [done | | done]. rewrite H2.
    destruct (block_elem _ _ _ Hok Hb0) as [(? & _ & _ & k0 & Hk0 & ?) _].
    apply (Hs1 _ _ x Hk0). unfold b_data in Hx. unfold SIZEOF_ARENA_BLOCK in *. lia.
Qed.

Lemma create_spec m L : al_rep m L ->
  (exists m', arena_create alloc free m = Some (None, m') /\ al_rep m' L /\ same_payloads L m m') \/
  exists a m' L', arena_create alloc free m = Some (Some a, m') /\ al_rep m' L' /\ arena_ok L' a /\
    without a L' = L /\ same_payloads L m m'.
Proof.
  intros Hr. unfold arena_create.
  destruct (al_alloc m L SIZEOF_ARENA Hr) as [E|(p & k & m1 & E & Hk & Hfresh & Hr1 & Hs1)];
    [unfold SIZEOF_ARENA, MAX_REQUEST; lia | rewrite (bind_Some _ _ _ _ _ E)..].
  { left. exists m. split_and!; [done | done | by intros ?]. }
  destruct (al_range _ _ _ _ Hr1 (lookup_insert_eq _ _ _)) as [Hp _].
  rewrite (proj2 (Z.eqb_neq p 0)) by lia.
  destruct (block_new_spec m1 _ 0 Hr1) as [E'|(q & j & m2 & E' & Hf2 & Hr2 & Hj & Hs2)];
    [unfold SIZEOF_ARENA_BLOCK; lia | rewrite (bind_Some _ _ _ _ _ E')..].
  - left. exists (free p m1). split; [done|].
    destruct (al_free _ _ p k Hr1 (lookup_insert_eq _ _ _)) as [Hr3 Hs3].
    rewrite delete_insert_eq, delete_id in Hr3, Hs3 by done. split; [done|].
    by eapply same_payloads_trans.
  - right. apply lookup_insert_None in Hf2 as [HqL Hpq].
    eexists _, m2, _. split; [reflexivity|]. split; [exact Hr2|]. split_and!.
    + split; simpl.
      * unfold owned. simpl. apply NoDup_cons. split; [set_solver|]. apply NoDup_singleton.
      * rewrite lookup_insert_ne, lookup_insert_eq by done. by eexists.
      * constructor; [|done]. split_and!; simpl; try done. exists j. by rewrite lookup_insert_eq.
      * done.
    + apply map_eq. intros x. rewrite lookup_without. unfold owned. simpl.
      destruct (decide (x ∈ [q; p])) as [Hin|Hin].
      * apply elem_of_cons in Hin as [->|Hin%list_elem_of_singleton]; [|subst x]; done.
      * rewrite !lookup_insert_ne by set_solver. done.
    + eapply same_payloads_trans; [done|]. eapply same_payloads_sub; [|done]. by apply insert_subseteq.
Qed.

Lemma destroy_spec m L a : al_rep m L -> arena_ok L a ->
  al_rep (arena_destroy free (Some a) m) (without a L) /\
  same_payloads (without a L) m (arena_destroy free (Some a) m).
Proof.
  intros Hr Hok.
  assert (arena_destroy free (Some a) m = foldl (fun m p => free p m) m (owned a)) as ->.
  { unfold arena_destroy, owned. rewrite foldl_app. simpl. f_equal.
    generalize m. induction (a_blocks a) as [|b l IH]; intros m0; simpl; [done|]. apply IH. }
  apply al_free_list; [done | apply Hok |]. unfold owned. apply Forall_app. split.
  - apply Forall_fmap. eapply Forall_impl; [apply Hok|]. intros b (_ & _ & _ & k & Hk & _). by exists k.
  - constructor; [apply Hok | done].
Qed.

Lemma reset_ok L a : arena_ok L a -> arena_ok L (arena_reset a) /\ without (arena_reset a) L = without a L.
Proof.
  intros [H1 H2 H3 H4].
  assert (owned (arena_reset a) = owned a) as E.
  { unfold owned, arena_reset. simpl. by rewrite <- list_fmap_compose. }
  split; [|unfold without; by rewrite E]. split; [by rewrite E | done | |].
  - unfold arena_reset. simpl. apply Forall_fmap. eapply Forall_impl; [exact H3|].
    intros b (Hu & Hc & Hm & Hk). split_and!; simpl; try done; lia.
  - unfold arena_reset. simpl. destruct (a_blocks a); [done|]. simpl in *. done.
Qed.

(** A client of one arena. *)
Inductive arena_op := OpAlloc (size : Z) | OpReset.

Fixpoint run_arena (ops : list arena_op) (a : arena) : M mem (option arena) :=
  match ops with
  | [] => ret (Some a)
  | OpReset :: ops => run_arena ops (arena_reset a)
  | OpAlloc size :: ops =>
      let* '(_, oa) := arena_alloc alloc (Some a) size in
      match oa with Some a' => run_arena ops a' | None => ret None end
  end.

Definition op_ok (o : arena_op) : Prop :=
  match o with OpAlloc size => 0 < size <= 2 ^ 32 - 20 | OpReset => True end.

Lemma run_arena_spec ops m L a : al_rep m L -> arena_ok L a -> Forall op_ok ops ->
  exists a' m' L', run_arena ops a m = Some (Some a', m') /\ al_rep m' L' /\ arena_ok L' a' /\
    without a' L' = without a L /\ same_payloads (without a L) m m'.
Proof.
  revert m L a. induction ops as [|[size|] ops IH]; intros m L a Hr Hok Hops; simpl.
  - exists a, m, L. split_and!; try done.
  - apply Forall_cons_iff in Hops as [Hop Hops].
    destruct (alloc_ok_spec m L a size Hr Hok Hop) as (p & a1 & m1 & E & [(L1 & Hr1 & Hok1 & Hw1) Hs1 _ _ _]).
    rewrite (bind_Some _ _ _ _ _ E).
    destruct (IH m1 L1 a1 Hr1 Hok1 Hops) as (a2 & m2 & L2 & E2 & Hr2 & Hok2 & Hw2 & Hs2).
    exists a2, m2, L2. rewrite Hw1 in Hw2, Hs2. split_and!; try done. by eapply same_payloads_trans.
  - apply Forall_cons_iff in Hops as [_ Hops]. destruct (reset_ok _ _ Hok) as [Hok1 Hw1].
    destruct (IH m L (arena_reset a) Hr Hok1 Hops) as (a2 & m2 & L2 & E2 & Hr2 & Hok2 & Hw2 & Hs2).
    exists a2, m2, L2. by rewrite Hw1 in Hw2, Hs2.
Qed.


(** whatever a client allocates from an arena or resets, destroying the
    arena returns the kernel heap to exactly the payloads it had before the
    arena was created, with their contents intact. *)
Theorem arena_lifecycle_restores_heap m L ops : al_rep m L -> Forall op_ok ops ->
  exists oa m1, arena_create alloc free m = Some (oa, m1) /\
  match oa with
  | None => al_rep m1 L /\ same_payloads L m m1
  | Some a => exists a' m2, run_arena ops a m1 = Some (Some a', m2) /\
      let m3 := arena_destroy free (Some a') m2 in al_rep m3 L /\ same_payloads L m m3
  end.
Proof.
  intros Hr Hops. destruct (create_spec m L Hr) as [(m1 & E & Hr1 & Hs1)|(a & m1 & L1 & E & Hr1 & Hok1 & Hw1 & Hs1)].
  { by exists None, m1. }
  exists (Some a), m1. split; [done|].
  destruct (run_arena_spec ops m1 L1 a Hr1 Hok1 Hops) as (a' & m2 & L2 & E2 & Hr2 & Hok2 & Hw2 & Hs2).
  exists a', m2. split; [done|]. destruct (destroy_spec m2 L2 a' Hr2 Hok2) as [Hr3 Hs3].
  rewrite Hw2, Hw1 in Hr3, Hs3. rewrite Hw1 in Hs2. split; [done|].
  eapply same_payloads_trans; [|done]. by eapply same_payloads_trans.
Qed.

End Correct.

(** ** The arena on the kernel heap *)

Definition heap0 : mem := (Heap.heap_init ∅).2.

Lemma heap0_rep : al_rep (Allocator := Heap.heap_allocator) heap0 ∅.
Proof. apply Heap.init_rep. Qed.

Definition is_created {A} (r : option (option A * mem)) : bool :=
  match r with Some (Some _, _) => true | _ => false end.

Lemma demo_create : is_created (arena_create Heap.kmalloc Heap.kfree heap0) = true.
Proof. vm_compute. reflexivity. Qed.

Lemma demo_wrapped_block : is_created (block_new Heap.kmalloc (2 ^ 32 - 12) heap0) = true.
Proof. vm_compute. reflexivity. Qed.


Lemma arena_lifecycle_restores_heap_witness :
  exists oa m1, arena_create Heap.kmalloc Heap.kfree heap0 = Some (oa, m1).
Proof.
  destruct (arena_lifecycle_restores_heap heap0 ∅ [OpAlloc 100; OpAlloc 5000; OpReset; OpAlloc 8] heap0_rep)
    as (oa & m1 & E & _).
  - repeat constructor; lia.
  - exists oa, m1. exact E.
Defined.

(** for a request in the last 16 bytes below [2^32] the block size
    [sizeof(arena_block_t) + min_cap] wraps, so the heap is asked for fewer
    than 16 bytes while the block claims a capacity of the whole request. *)
Theorem arena_block_size_wraps alloc n m b m' : 2 ^ 32 - SIZEOF_ARENA_BLOCK <= n < 2 ^ 32 ->
  block_new alloc n m = Some (Some b, m') ->
  b_cap b = n /\ alloc (n + SIZEOF_ARENA_BLOCK - 2 ^ 32) m = Some (b_addr b, m').
Proof.
  intros Hn. unfold block_new, bind, ARENA_BLOCK_SIZE, SIZEOF_ARENA_BLOCK in *.
  rewrite (proj2 (Z.ltb_lt (4096 - 16) n)) by lia.
  assert (u32 (16 + n) = n + 16 - 2 ^ 32) as -> by (unfold u32; symmetry; apply (Z.mod_unique _ _ 1); lia).
  destruct (alloc _ m) as [[p m1]|]; [|done]. destruct (Z.eqb_spec p 0); [done|].
  intros [= <- <-]. simpl. split; [|done].
  unfold u32. symmetry. apply (Z.mod_unique _ _ (-1)); lia.
Qed.

Lemma arena_block_size_wraps_witness :
  exists b m', block_new Heap.kmalloc (2 ^ 32 - 12) heap0 = Some (Some b, m') /\ b_cap b = 2 ^ 32 - 12.
Proof.
  pose proof demo_wrapped_block as H.
  destruct (block_new Heap.kmalloc (2 ^ 32 - 12) heap0) as [[[b|] m']|] eqn:E; [| discriminate H ..].
  exists b, m'. split; [reflexivity|].
  apply (arena_block_size_wraps Heap.kmalloc (2 ^ 32 - 12) heap0 b m'); [unfold SIZEOF_ARENA_BLOCK; lia | exact E].
Defined.

End Arena.
