(* ===== verification/Slab.v ===== *)
(** * Slab allocator (src/mm/slab.c)

    Caches of equally sized objects.  The descriptors [slab_cache_t] and
    [slab_block_t] are records carrying the address the kernel heap gave them;
    the free list is the intrusive one of the code: the first word of a free
    object, in memory, points to the next free object.  Everything is proved
    for any implementation of the heap contract of Alloc.v. *)
From S2P Require Import Prelude.
From S2P Require Import Alloc.
From S2P Require Import Heap.

Module Slab.

Definition SIZEOF_SLAB_BLOCK : Z := 24.
Definition SIZEOF_SLAB_CACHE : Z := 48.
Definition SIZEOF_PTR : Z := 8.
Abbreviation SLAB_POISON := 0xDEADC0DE.

Record slab_block := mkSBlock { sb_addr : Z; sb_base : Z; sb_n_objs : Z; sb_n_free : Z }.

Record slab_cache := mkCache {
  c_addr : Z;
  c_name : Z;
  c_obj_size : Z;
  c_free_head : Z;
  c_blocks : list slab_block;
  c_n_alloc : Z;
  c_n_free : Z;
  c_n_alloc_peak : Z;
  c_grow_by : Z
}.

(** [p >= lo && p < hi], the range of a block. *)
Definition in_block (obj_size : Z) (b : slab_block) (p : Z) : bool :=
  (sb_base b <=? p) && (p <? sb_base b + u32 (sb_n_objs b * obj_size)).

(** [_block_of]: position of the block that owns an object. *)
Fixpoint block_of (obj_size : Z) (bs : list slab_block) (obj : Z) : option nat :=
  match bs with
  | [] => None
  | b :: bs => if in_block obj_size b obj then Some O else S <$> block_of obj_size bs obj
  end.

Definition set_blk_free (n : Z) (b : slab_block) : slab_block :=
  mkSBlock (sb_addr b) (sb_base b) (sb_n_objs b) n.

Section Ops.
Context (alloc : Z -> mem -> option (Z * mem)) (free : Z -> mem -> mem).

Definition slab_create (g_all_caches : list Z) (name obj_size grow_by : Z) :
    M mem (option slab_cache * list Z) :=
  let obj_size := if obj_size <? SIZEOF_PTR then SIZEOF_PTR else obj_size in
  let* c := alloc SIZEOF_SLAB_CACHE in
  if c =? 0 then ret (None, g_all_caches)
  else
    let cache := mkCache c name obj_size 0 [] 0 0 0 (if grow_by =? 0 then 8 else grow_by) in
    ret (Some cache, if Z.of_nat (length g_all_caches) <? 8 then g_all_caches ++ [c] else g_all_caches).

(** The loop of [_slab_grow] that threads a new block onto the free list;
    its state is memory, [free_head] and [n_free]. *)
Definition grow_link (base obj_size n : Z) (s : mem * Z * Z) : mem * Z * Z :=
  for_up 0 n (fun i '(m, head, n_free) =>
    let obj := base + i * obj_size in
    (wr m obj head, obj, u32 (n_free + 1))) s.

Definition slab_grow (c : slab_cache) : M mem (bool * slab_cache) :=
  let* b := alloc SIZEOF_SLAB_BLOCK in
  if b =? 0 then ret (false, c)
  else
    let* base := alloc (u32 (c_obj_size c * c_grow_by c)) in
    if base =? 0 then do* modify (free b) in ret (false, c)
    else fun m =>
      let '(m, head, n_free) := grow_link base (c_obj_size c) (c_grow_by c) (m, c_free_head c, c_n_free c) in
      Some ((true, mkCache (c_addr c) (c_name c) (c_obj_size c) head
                     (mkSBlock b base (c_grow_by c) (c_grow_by c) :: c_blocks c)
                     (c_n_alloc c) n_free (c_n_alloc_peak c) (c_grow_by c)), m).

(** Taking the first object off the free list. *)
Definition slab_pop (c : slab_cache) : M mem (Z * slab_cache) := fun m =>
  let obj := c_free_head c in
  let free_head := rd m obj in
  let n_alloc := u32 (c_n_alloc c + 1) in
  let peak := if c_n_alloc_peak c <? n_alloc then n_alloc else c_n_alloc_peak c in
  let blocks := match block_of (c_obj_size c) (c_blocks c) obj with
                | Some i => alter (fun b => if sb_n_free b =? 0 then b
                                            else set_blk_free (sb_n_free b - 1) b) i (c_blocks c)
                | None => c_blocks c
                end in
  Some ((obj, mkCache (c_addr c) (c_name c) (c_obj_size c) free_head blocks n_alloc
                (u32 (c_n_free c - 1)) peak (c_grow_by c)),
        fill obj (c_obj_size c) 0 m).

Definition slab_alloc (oc : option slab_cache) : M mem (Z * option slab_cache) :=
  match oc with
  | None => ret (0, None)
  | Some c =>
      let* '(ok, c) := (if c_free_head c =? 0 then slab_grow c else ret (true, c)) in
      if negb ok then ret (0, Some c)
      else let* '(obj, c) := slab_pop c in ret (obj, Some c)
  end.

Definition slab_free (oc : option slab_cache) (obj : Z) (m : mem) : option slab_cache * mem :=
  match oc with
  | None => (None, m)
  | Some c =>
      if obj =? 0 then (Some c, m)
      else
        let m := wr m obj SLAB_POISON in
        let m := wr m obj (c_free_head c) in
        let blocks := match block_of (c_obj_size c) (c_blocks c) obj with
                      | Some i => alter (fun b => set_blk_free (u32 (sb_n_free b + 1)) b) i (c_blocks c)
                      | None => c_blocks c
                      end in
        (Some (mkCache (c_addr c) (c_name c) (c_obj_size c) obj blocks (u32 (c_n_alloc c - 1))
                 (u32 (c_n_free c + 1)) (c_n_alloc_peak c) (c_grow_by c)), m)
  end.

(** Unlinking the objects of one block from the free list.  [slot] is the
    place the current pointer was read from: [None] is [&c->free_head]. *)
Fixpoint reap_unlink (fuel : nat) (lo hi : Z) (slot : option Z) (head n_free : Z) (m : mem) :
    option (Z * Z * mem) :=
  match fuel with
  | O => None
  | S fuel =>
      let cur := match slot with None => head | Some s => rd m s end in
      if cur =? 0 then Some (head, n_free, m)
      else if (lo <=? cur) && (cur <? hi) then
        let n_free := u32 (n_free - 1) in
        match slot with
        | None => reap_unlink fuel lo hi None (rd m cur) n_free m
        | Some s => reap_unlink fuel lo hi slot head n_free (wr m s (rd m cur))
        end
      else reap_unlink fuel lo hi (Some cur) head n_free m
  end.

(** The walk over the blocks: what is left of them, the free list head and
    count, and the bytes reclaimed. *)
Fixpoint reap_blocks (fuel : nat) (obj_size : Z) (bs : list slab_block) (head n_free reclaimed : Z) (m : mem) :
    option (list slab_block * Z * Z * Z * mem) :=
  match bs with
  | [] => Some ([], head, n_free, reclaimed, m)
  | b :: bs =>
      if negb (sb_n_free b =? sb_n_objs b) then
        match reap_blocks fuel obj_size bs head n_free reclaimed m with
        | Some (bs', head, n_free, reclaimed, m) => Some (b :: bs', head, n_free, reclaimed, m)
        | None => None
        end
      else
        let lo := sb_base b in
        let hi := sb_base b + u32 (sb_n_objs b * obj_size) in
        match reap_unlink fuel lo hi None head n_free m with
        | None => None
        | Some (head, n_free, m) =>
            let reclaimed := u32 (reclaimed + u32 (u32 (obj_size * sb_n_objs b) + SIZEOF_SLAB_BLOCK)) in
            let m := free (sb_base b) m in
            let m := free (sb_addr b) m in
            reap_blocks fuel obj_size bs head n_free reclaimed m
        end
  end.

Definition slab_reap (fuel : nat) (oc : option slab_cache) : M mem (Z * option slab_cache) :=
  match oc with
  | None => ret (0, None)
  | Some c => fun m =>
      match reap_blocks fuel (c_obj_size c) (c_blocks c) (c_free_head c) (c_n_free c) 0 m with
      | None => None
      | Some (bs, head, n_free, reclaimed, m) =>
          Some ((reclaimed, Some (mkCache (c_addr c) (c_name c) (c_obj_size c) head bs (c_n_alloc c)
                                    n_free (c_n_alloc_peak c) (c_grow_by c))), m)
      end
  end.

Fixpoint slab_reap_all (fuel : nat) (g_all_caches : list slab_cache) (total : Z) :
    M mem (Z * list slab_cache) :=
  match g_all_caches with
  | [] => ret (total, [])
  | c :: cs =>
      let* '(n, oc) := slab_reap fuel (Some c) in
      let* '(total, cs) := slab_reap_all fuel cs (u32 (total + n)) in
      ret (total, match oc with Some c => c :: cs | None => cs end)
  end.
End Ops.

(** ** The free list in memory *)

Fixpoint chain (m : mem) (h : Z) (l : list Z) : Prop :=
  match l with
  | [] => h = 0
  | x :: l => h = x /\ x <> 0 /\ chain m (rd m x) l
  end.

Lemma chain_frame m m' h l : (forall x, x ∈ l -> rd m' x = rd m x) -> chain m h l -> chain m' h l.
Proof.
  revert h. induction l as [|x l IH]; intros h Hf; simpl; [done|].
  intros (-> & Hx & Hc). split_and!; [done | done |]. rewrite Hf by set_solver.
  apply IH; [|done]. intros y Hy. apply Hf. set_solver.
Qed.

(** Objects of a block. *)
Definition objs (sz : Z) (b : slab_block) : list Z :=
  (fun i => sb_base b + Z.of_nat i * sz) <$> seq 0 (Z.to_nat (sb_n_objs b)).

Definition all_objs (c : slab_cache) : list Z := c_blocks c ≫= objs (c_obj_size c).

Definition block_ok (sz : Z) (L : gmap Z Z) (b : slab_block) : Prop :=
  0 < sb_n_objs b /\ sb_n_objs b * sz < 2 ^ 32 /\
  is_Some (L !! sb_addr b) /\ exists k, L !! sb_base b = Some k /\ sb_n_objs b * sz <= k.

Definition owned (bs : list slab_block) : list Z := bs ≫= fun b => [sb_base b; sb_addr b].

(** How many of the objects [l] lie in block [b]. *)
Definition count_in (sz : Z) (b : slab_block) (l : list Z) : Z :=
  Z.of_nat (length (filter (fun o => in_block sz b o = true) l)).

(** A cache with free list [fl] whose clients hold the objects [lv]. *)
Record cache_ok (m : mem) (L : gmap Z Z) (c : slab_cache) (fl lv : list Z) : Prop := {
  ok_size : SIZEOF_PTR <= c_obj_size c < 2 ^ 32;
  ok_grow : 0 < c_grow_by c /\ c_obj_size c * c_grow_by c < 2 ^ 32;
  ok_chain : chain m (c_free_head c) fl;
  ok_blocks : Forall (block_ok (c_obj_size c) L) (c_blocks c);
  ok_owned : NoDup (owned (c_blocks c));
  ok_objs : fl ++ lv ≡ₚ all_objs c;
  ok_counts : Forall (fun b => sb_n_free b = count_in (c_obj_size c) b fl) (c_blocks c);
  ok_n_free : c_n_free c = u32 (Z.of_nat (length fl));
  ok_n_alloc : c_n_alloc c = u32 (Z.of_nat (length lv))
}.

Lemma elem_objs sz b o : o ∈ objs sz b <-> exists i, 0 <= i < sb_n_objs b /\ o = sb_base b + i * sz.
Proof.
  unfold objs. rewrite list_elem_of_fmap. setoid_rewrite elem_of_seq. split.
  - intros (i & -> & Hi). exists (Z.of_nat i). split; [lia|done].
  - intros (i & Hi & ->). exists (Z.to_nat i). split; [|lia]. by rewrite Z2Nat.id by lia.
Qed.

Lemma count_in_cons sz b o l : count_in sz b (o :: l) = Z.b2z (in_block sz b o) + count_in sz b l.
Proof.
  unfold count_in. rewrite filter_cons. destruct (in_block sz b o); simpl; [|done]. lia.
Qed.

Lemma count_in_perm sz b l l' : l ≡ₚ l' -> count_in sz b l = count_in sz b l'.
Proof. intros H. unfold count_in. by rewrite H. Qed.

Lemma count_in_app sz b l l' : count_in sz b (l ++ l') = count_in sz b l + count_in sz b l'.
Proof. unfold count_in. rewrite filter_app, length_app. lia. Qed.

Lemma count_in_nonneg sz b l : 0 <= count_in sz b l.
Proof. unfold count_in. lia. Qed.

Lemma alter_bind {A B} (g : A -> list B) (f : A -> A) i l : (forall x, g (f x) = g x) ->
  alter f i l ≫= g = l ≫= g.
Proof.
  intros Hg. revert i. induction l as [|x l IH]; intros [|i]; csimpl; [done | done | by rewrite Hg | by rewrite IH].
Qed.

Lemma u32_succ x : u32 (u32 x + 1) = u32 (x + 1).
Proof. apply Zplus_mod_idemp_l. Qed.

Lemma u32_pred x : u32 (u32 (x + 1) - 1) = u32 x.
Proof. unfold u32. rewrite Zminus_mod_idemp_l. f_equal. lia. Qed.

Lemma filter_keep {A} (P : A -> Prop) `{!forall x, Decision (P x)} (l : list A) :
  (forall x, x ∈ l -> P x) -> filter P l = l.
Proof.
  induction l as [|x l IH]; intros Hl; [done|]. rewrite filter_cons, decide_True by (apply Hl; set_solver).
  rewrite IH; [done|]. intros y Hy. apply Hl. set_solver.
Qed.

Lemma filter_drop {A} (P : A -> Prop) `{!forall x, Decision (P x)} (l : list A) :
  (forall x, x ∈ l -> ~ P x) -> filter P l = [].
Proof.
  induction l as [|x l IH]; intros Hl; [done|]. rewrite filter_cons, decide_False by (apply Hl; set_solver).
  apply IH. intros y Hy. apply Hl. set_solver.
Qed.

Section Correct.
Context {alloc : Z -> mem -> option (Z * mem)} {free : Z -> mem -> mem} `{!Allocator alloc free}.

Lemma in_block_range sz L b o : block_ok sz L b -> 0 < sz ->
  in_block sz b o = true <-> sb_base b <= o < sb_base b + sb_n_objs b * sz.
Proof.
  intros (Hn & Hlt & _) Hs. unfold in_block. rewrite u32_id by nia.
  rewrite andb_true_iff, Z.leb_le, Z.ltb_lt. lia.
Qed.

Lemma obj_range sz b o : 0 < sz -> o ∈ objs sz b -> sb_base b <= o /\ o + sz <= sb_base b + sb_n_objs b * sz.
Proof. intros Hs (i & Hi & ->)%elem_objs. nia. Qed.

Lemma objs_in sz L b o : block_ok sz L b -> 0 < sz -> o ∈ objs sz b -> in_block sz b o = true.
Proof. intros Hb Hs Ho%obj_range; [|done]. apply (in_block_range sz L); [done|done|]. lia. Qed.

Lemma objs_NoDup sz b : 0 < sz -> NoDup (objs sz b).
Proof.
  intros Hs. unfold objs. apply NoDup_fmap_2_strong; [|apply NoDup_seq].
  intros i j _ _ E. nia.
Qed.

(** Two objects that share a byte are the same object of the same block. *)
Lemma objs_apart sz b o o' : 0 < sz -> o ∈ objs sz b -> o' ∈ objs sz b -> o <> o' ->
  o + sz <= o' \/ o' + sz <= o.
Proof.
  intros Hs (i & Hi & ->)%elem_objs (j & Hj & ->)%elem_objs Hne.
  destruct (Z.lt_trichotomy i j) as [|[->|]]; [left; nia | done | right; nia].
Qed.

Lemma blocks_apart m sz L bs i j b b' : al_rep m L -> Forall (block_ok sz L) bs -> NoDup (owned bs) ->
  bs !! i = Some b -> bs !! j = Some b' -> i <> j ->
  sb_base b + sb_n_objs b * sz <= sb_base b' \/ sb_base b' + sb_n_objs b' * sz <= sb_base b.
Proof.
  intros Hr HF Hnd Hi Hj Hne.
  destruct (Forall_lookup_1 _ _ _ _ HF Hi) as (_ & _ & _ & k & Hk & Hk').
  destruct (Forall_lookup_1 _ _ _ _ HF Hj) as (_ & _ & _ & k' & Hkk & Hkk').
  assert (sb_base b <> sb_base b').
  { clear -Hnd Hi Hj Hne. revert i j Hi Hj Hne. induction bs as [|b0 bs IH]; intros [|i] [|j]; simpl; try done.
    - intros [= ->] Hj _ E. change (owned (b :: bs)) with (sb_base b :: sb_addr b :: owned bs) in Hnd.
      apply NoDup_cons in Hnd as [Hn _]. destruct Hn. right. apply list_elem_of_bind.
      exists b'. split; [set_solver|]. by eapply list_elem_of_lookup_2.
    - intros Hi [= ->] _ E. change (owned (b' :: bs)) with (sb_base b' :: sb_addr b' :: owned bs) in Hnd.
      apply NoDup_cons in Hnd as [Hn _]. destruct Hn. right. apply list_elem_of_bind.
      exists b. split; [set_solver|]. by eapply list_elem_of_lookup_2.
    - intros Hi Hj Hne. change (owned (b0 :: bs)) with (sb_base b0 :: sb_addr b0 :: owned bs) in Hnd.
      apply NoDup_cons in Hnd as [_ [_ Hnd]%NoDup_cons]. eapply (IH Hnd i j); [done|done|congruence]. }
  destruct (al_disjoint _ _ _ _ _ _ Hr Hk Hkk ltac:(done)); lia.
Qed.

Lemma block_of_spec m sz L bs i b o : al_rep m L -> 0 < sz -> Forall (block_ok sz L) bs -> NoDup (owned bs) ->
  bs !! i = Some b -> o ∈ objs sz b -> block_of sz bs o = Some i.
Proof.
  intros Hr Hs HF Hnd Hi Ho.
  assert (forall j b', bs !! j = Some b' -> in_block sz b' o = true -> j = i) as Huniq.
  { intros j b' Hj Hin. destruct (decide (j = i)) as [|Hne]; [done|].
    pose proof (blocks_apart _ _ _ _ _ _ _ _ Hr HF Hnd Hj Hi Hne).
    apply (in_block_range sz L) in Hin; [|by eapply Forall_lookup_1|done]. apply obj_range in Ho; [|done]. lia. }
  assert (in_block sz b o = true) as Hb by (eapply objs_in; [by eapply Forall_lookup_1|done|done]).
  clear -Huniq Hi Hb. revert i Hi Huniq. induction bs as [|b0 bs IH]; intros i Hi Huniq; [done|]. simpl.
  destruct (in_block sz b0 o) eqn:E; [by rewrite <- (Huniq O b0)|].
  destruct i as [|i]; simpl in Hi; [congruence|]. rewrite (IH i); [done | done |].
  intros j b' Hj Hin. specialize (Huniq (S j) b' Hj Hin). congruence.
Qed.

Lemma elem_all_objs c o : o ∈ all_objs c <-> exists i b, c_blocks c !! i = Some b /\ o ∈ objs (c_obj_size c) b.
Proof.
  unfold all_objs. rewrite list_elem_of_bind. split.
  - intros (b & Ho & [i Hi]%list_elem_of_lookup). by exists i, b.
  - intros (i & b & Hi & Ho). exists b. split; [done|]. by eapply list_elem_of_lookup_2.
Qed.

Section Cache.
Context (m : mem) (L : gmap Z Z) (c : slab_cache).
Context (Hr : al_rep m L) (Hsz : 0 < c_obj_size c)
  (HF : Forall (block_ok (c_obj_size c) L) (c_blocks c)) (Hnd : NoDup (owned (c_blocks c))).

Lemma all_objs_apart o o' : o ∈ all_objs c -> o' ∈ all_objs c -> o <> o' ->
  o + c_obj_size c <= o' \/ o' + c_obj_size c <= o.
Proof using All.
  intros (i & b & Hi & Ho)%elem_all_objs (j & b' & Hj & Ho')%elem_all_objs Hne.
  destruct (decide (i = j)) as [->|Hij].
  - assert (b = b') as -> by congruence. by eapply objs_apart.
  - apply obj_range in Ho, Ho'; [|done..].
    pose proof (blocks_apart _ _ _ _ _ _ _ _ Hr HF Hnd Hi Hj Hij). lia.
Qed.

Lemma all_objs_payload o : o ∈ all_objs c ->
  exists b k, sb_base b ∈ owned (c_blocks c) /\ L !! sb_base b = Some k /\
    sb_base b <= o /\ o + c_obj_size c <= sb_base b + k.
Proof using All.
  intros (i & b & Hi & Ho)%elem_all_objs.
  destruct (Forall_lookup_1 _ _ _ _ HF Hi) as (_ & _ & _ & k & Hk & Hk').
  apply obj_range in Ho; [|done]. exists b, k. split_and!; try done; try lia.
  apply list_elem_of_bind. exists b. split; [set_solver|]. by eapply list_elem_of_lookup_2.
Qed.

Lemma all_objs_NoDup : NoDup (all_objs c).
Proof using All.
  unfold all_objs. assert (forall i j b b', c_blocks c !! i = Some b -> c_blocks c !! j = Some b' -> i <> j ->
    sb_base b + sb_n_objs b * c_obj_size c <= sb_base b' \/ sb_base b' + sb_n_objs b' * c_obj_size c <= sb_base b)
    as Hap by (intros; by eapply blocks_apart).
  revert Hap. generalize (c_blocks c) as bs. clear HF Hnd.
  induction bs as [|b bs IH]; intros Hap; csimpl; [constructor|].
  apply NoDup_app. split_and!; [by apply objs_NoDup | | apply IH; intros i j b1 b2 ?? Hne; apply (Hap (S i) (S j)); [done|done|congruence]].
  intros o Ho (b' & Ho' & [j Hj]%list_elem_of_lookup)%list_elem_of_bind.
  apply obj_range in Ho, Ho'; [|done..].
  pose proof (Hap O (S j) b b' eq_refl Hj ltac:(done)). nia.
Qed.

(** The other objects and the payloads outside the cache do not see a write
    inside one object. *)
Lemma write_object o m' : o ∈ all_objs c ->
  (forall x, x < o \/ o + c_obj_size c <= x -> rd m' x = rd m x) ->
  (forall o' x, o' ∈ all_objs c -> o' <> o -> o' <= x < o' + c_obj_size c -> rd m' x = rd m x) /\
  (forall q k x, L !! q = Some k -> q ∉ owned (c_blocks c) -> q <= x < q + k -> rd m' x = rd m x).
Proof using All.
  intros Ho Hout. split.
  - intros o' x Ho' Hne Hx. apply Hout. destruct (all_objs_apart o' o Ho' Ho Hne); lia.
  - intros q k x Hq Hn Hx. apply Hout.
    destruct (all_objs_payload o Ho) as (b & kb & Hin & Hkb & H1 & H2).
    assert (q <> sb_base b) by (intros ->; done).
    destruct (al_disjoint _ _ _ _ _ _ Hr Hq Hkb ltac:(done)); lia.
Qed.

Lemma write_object_rep o x v : o ∈ all_objs c -> o <= x < o + c_obj_size c -> al_rep (wr m x v) L.
Proof using All.
  intros Ho Hx. destruct (all_objs_payload o Ho) as (b & kb & Hin & Hkb & H1 & H2).
  eapply al_write; [done | done | lia].
Qed.

(** Accounting one object more or less on its block. *)
Lemma alter_counts (f : slab_block -> slab_block) i b o fl fl' :
  c_blocks c !! i = Some b -> o ∈ objs (c_obj_size c) b ->
  Forall (fun b => sb_n_free b = count_in (c_obj_size c) b fl) (c_blocks c) ->
  (forall b, f b = set_blk_free (sb_n_free (f b)) b) ->
  sb_n_free (f b) = count_in (c_obj_size c) b fl' ->
  (forall b', in_block (c_obj_size c) b' o = false -> count_in (c_obj_size c) b' fl' = count_in (c_obj_size c) b' fl) ->
  Forall (fun b => sb_n_free b = count_in (c_obj_size c) b fl') (alter f i (c_blocks c)) /\
  Forall (block_ok (c_obj_size c) L) (alter f i (c_blocks c)) /\
  owned (alter f i (c_blocks c)) = owned (c_blocks c) /\
  alter f i (c_blocks c) ≫= objs (c_obj_size c) = all_objs c.
Proof using All.
  intros Hi Ho Hcnt Hf Hb Hother. split_and!.
  - apply Forall_lookup. intros j b1 Hj. rewrite list_lookup_alter in Hj.
    destruct (decide (i = j)) as [->|Hne].
    + rewrite Hi in Hj. injection Hj as <-. rewrite Hb, (Hf b). done.
    + rewrite (Forall_lookup_1 _ _ _ _ Hcnt Hj). symmetry. apply Hother.
      destruct (in_block _ b1 o) eqn:E; [|done].
      apply (in_block_range _ L) in E; [|by eapply Forall_lookup_1|done]. apply obj_range in Ho; [|done].
      pose proof (blocks_apart _ _ _ _ _ _ _ _ Hr HF Hnd Hi Hj Hne). lia.
  - apply Forall_lookup. intros j b1 Hj. rewrite list_lookup_alter in Hj.
    destruct (decide (i = j)) as [->|Hne]; [|by eapply Forall_lookup_1].
    rewrite Hi in Hj. injection Hj as <-. rewrite (Hf b). exact (Forall_lookup_1 _ _ _ _ HF Hi).
  - unfold owned. apply alter_bind. intros b1. by rewrite (Hf b1).
  - apply alter_bind. intros b1. by rewrite (Hf b1).
Qed.

Lemma filter_block pre b post : c_blocks c = pre ++ b :: post ->
  filter (fun o => in_block (c_obj_size c) b o = true) (all_objs c) = objs (c_obj_size c) b /\
  filter (fun o => in_block (c_obj_size c) b o <> true) (all_objs c) = (pre ++ post) ≫= objs (c_obj_size c).
Proof using All.
  intros E. assert (Hb : c_blocks c !! length pre = Some b) by (rewrite E; by apply list_lookup_middle).
  assert (Hbi : forall o, o ∈ objs (c_obj_size c) b -> in_block (c_obj_size c) b o = true).
  { intros o Ho. eapply objs_in; [by eapply Forall_lookup_1 | done | done]. }
  assert (Hother : forall j b' o, c_blocks c !! j = Some b' -> j <> length pre ->
            o ∈ objs (c_obj_size c) b' -> in_block (c_obj_size c) b o <> true).
  { intros j b' o Hj Hne Ho Hin. apply (in_block_range _ L) in Hin; [|by eapply Forall_lookup_1|done].
    apply obj_range in Ho; [|done]. pose proof (blocks_apart _ _ _ _ _ _ _ _ Hr HF Hnd Hb Hj ltac:(done)). lia. }
  assert (Hpre : forall o, o ∈ pre ≫= objs (c_obj_size c) -> in_block (c_obj_size c) b o <> true).
  { intros o (b' & Ho & [j Hj]%list_elem_of_lookup)%list_elem_of_bind.
    pose proof (lookup_lt_Some _ _ _ Hj). apply (Hother j b'); [|lia|done].
    rewrite E. by apply lookup_app_l_Some. }
  assert (Hpost : forall o, o ∈ post ≫= objs (c_obj_size c) -> in_block (c_obj_size c) b o <> true).
  { intros o (b' & Ho & [j Hj]%list_elem_of_lookup)%list_elem_of_bind.
    apply (Hother (length pre + S j)%nat b'); [|lia|done].
    rewrite E, lookup_app_r by lia. by replace (length pre + S j - length pre)%nat with (S j) by lia. }
  unfold all_objs. rewrite E, !bind_app. csimpl. rewrite !filter_app. split.
  - rewrite (filter_drop _ (pre ≫= _)), (filter_drop _ (post ≫= _)), filter_keep by done. by rewrite app_nil_r.
  - rewrite (filter_keep _ (pre ≫= _)), (filter_keep _ (post ≫= _)), (filter_drop _ (objs _ b)) by (done || naive_solver).
    done.
Qed.

Lemma count_all_objs pre b post : c_blocks c = pre ++ b :: post ->
  count_in (c_obj_size c) b (all_objs c) = sb_n_objs b.
Proof using All.
  intros E. unfold count_in. rewrite (proj1 (filter_block _ _ _ E)). unfold objs.
  rewrite length_fmap, length_seq. rewrite E in HF. apply Forall_app in HF as [_ [(? & _) _]%Forall_cons_iff]. lia.
Qed.
End Cache.

(** Contents of the objects [lv] and of the payloads outside the cache. *)
Definition undisturbed (L : gmap Z Z) (c : slab_cache) (lv : list Z) (m m' : mem) : Prop :=
  (forall o x, o ∈ lv -> o <= x < o + c_obj_size c -> rd m' x = rd m x) /\
  (forall q k x, L !! q = Some k -> q ∉ owned (c_blocks c) -> q <= x < q + k -> rd m' x = rd m x).

Lemma ok_pos m L c fl lv : cache_ok m L c fl lv -> 0 < c_obj_size c.
Proof. intros H. pose proof (ok_size _ _ _ _ _ H). unfold SIZEOF_PTR in *. lia. Qed.

Lemma ok_NoDup m L c fl lv : al_rep m L -> cache_ok m L c fl lv -> NoDup (fl ++ lv).
Proof.
  intros Hr H. rewrite (ok_objs _ _ _ _ _ H).
  eapply all_objs_NoDup; [done | by eapply ok_pos | apply H | apply H].
Qed.

Lemma pop_spec m L c o fl lv : al_rep m L -> cache_ok m L c (o :: fl) lv ->
  exists c' m', slab_pop c m = Some ((o, c'), m') /\ al_rep m' L /\ cache_ok m' L c' fl (o :: lv) /\
    owned (c_blocks c') = owned (c_blocks c) /\ c_obj_size c' = c_obj_size c /\
    (forall x, o <= x < o + c_obj_size c -> rd m' x = 0) /\ undisturbed L c lv m m'.
Proof.
  intros Hr Hok. pose proof (ok_pos _ _ _ _ _ Hok) as Hs. pose proof (ok_NoDup _ _ _ _ _ Hr Hok) as Hnd.
  destruct Hok as [Hsz Hg (Hhead & Ho0 & Hch) HF Hown Hobj Hcnt Hnf Hna].
  assert (Hoin : o ∈ all_objs c) by (rewrite <- Hobj; set_solver).
  pose proof Hoin as (i & b & Hi & Hob)%elem_all_objs.
  pose proof (block_of_spec _ _ _ _ _ _ _ Hr Hs HF Hown Hi Hob) as Hbo.
  assert (Hin : in_block (c_obj_size c) b o = true) by (eapply objs_in; [by eapply Forall_lookup_1 | done | done]).
  assert (Hbn : sb_n_free b = 1 + count_in (c_obj_size c) b fl).
  { rewrite (Forall_lookup_1 _ _ _ _ Hcnt Hi), count_in_cons, Hin. done. }
  pose proof (count_in_nonneg (c_obj_size c) b fl) as Hnn.
  set (f := fun b => if sb_n_free b =? 0 then b else set_blk_free (sb_n_free b - 1) b).
  destruct (alter_counts m L c Hr Hs HF Hown f i b o (o :: fl) fl Hi Hob Hcnt) as (A1 & A2 & A3 & A4).
  { intros b1. unfold f. destruct (_ =? _); by destruct b1. }
  { unfold f. rewrite (proj2 (Z.eqb_neq _ 0)) by lia. simpl. lia. }
  { intros b' Hb'. rewrite count_in_cons, Hb'. done. }
  subst f. set (m' := fill o (c_obj_size c) 0 m).
  destruct (write_object m L c Hr Hs HF Hown o m' Hoin) as [W1 W2].
  { intros x Hx. by apply rd_fill_out. }
  eexists _, m'. split; [unfold slab_pop; rewrite Hhead, Hbo; reflexivity|].
  apply NoDup_cons in Hnd as [Hno Hnd].
  split_and!.
  - destruct (all_objs_payload m L c Hr Hs HF Hown o Hoin) as (b0 & k & _ & Hk & H1 & H2).
    eapply al_fill; [done | done | lia | lia].
  - split; simpl; try done.
    + eapply chain_frame; [|exact Hch]. intros x Hx. apply (W1 x); [| |lia].
      * rewrite <- Hobj. set_solver.
      * intros ->. set_solver.
    + by rewrite A3.
    + unfold all_objs. simpl. rewrite A4, <- Hobj. symmetry. apply Permutation_middle.
    + rewrite Hnf. simpl length. replace (Z.of_nat (S (length fl))) with (Z.of_nat (length fl) + 1) by lia.
      apply u32_pred.
    + rewrite Hna, u32_succ. f_equal. lia.
  - done.
  - done.
  - intros x Hx. by apply rd_fill_in.
  - split; [|done]. intros o' x Ho' Hx. apply (W1 o'); [rewrite <- Hobj; set_solver | | done].
    intros ->. set_solver.
Qed.

Lemma free_spec m L c fl lv lv' o : al_rep m L -> cache_ok m L c fl lv -> lv ≡ₚ o :: lv' ->
  exists c' m', slab_free (Some c) o m = (Some c', m') /\ al_rep m' L /\ cache_ok m' L c' (o :: fl) lv' /\
    owned (c_blocks c') = owned (c_blocks c) /\ c_obj_size c' = c_obj_size c /\ undisturbed L c lv' m m'.
Proof.
  intros Hr Hok Hlv. pose proof (ok_pos _ _ _ _ _ Hok) as Hs. pose proof (ok_NoDup _ _ _ _ _ Hr Hok) as Hnd.
  destruct Hok as [Hsz Hg Hch HF Hown Hobj Hcnt Hnf Hna].
  rewrite Hlv in Hnd, Hobj.
  assert (Hoin : o ∈ all_objs c) by (rewrite <- Hobj; set_solver).
  pose proof Hoin as (i & b & Hi & Hob)%elem_all_objs.
  pose proof (block_of_spec _ _ _ _ _ _ _ Hr Hs HF Hown Hi Hob) as Hbo.
  pose proof (Forall_lookup_1 _ _ _ _ HF Hi) as (Hb1 & Hb2 & _ & k & Hk & _).
  assert (Hin : in_block (c_obj_size c) b o = true) by (eapply objs_in; [by eapply Forall_lookup_1 | done | done]).
  assert (Ho0 : o <> 0).
  { destruct (al_range _ _ _ _ Hr Hk). apply obj_range in Hob; [|done]. lia. }
  assert (Hbn : sb_n_free b = count_in (c_obj_size c) b fl) by apply (Forall_lookup_1 _ _ _ _ Hcnt Hi).
  pose proof (count_in_nonneg (c_obj_size c) b fl) as Hnn.
  assert (Hlim : count_in (c_obj_size c) b fl + 1 <= sb_n_objs b).
  { rewrite <- (count_all_objs m L c Hr Hs HF Hown _ _ _ (eq_sym (take_drop_middle _ _ _ Hi))).
    rewrite <- (count_in_perm _ _ _ _ Hobj), count_in_app, count_in_cons, Hin.
    pose proof (count_in_nonneg (c_obj_size c) b lv'). simpl. lia. }
  set (f := fun b => set_blk_free (u32 (sb_n_free b + 1)) b).
  destruct (alter_counts m L c Hr Hs HF Hown f i b o fl (o :: fl) Hi Hob Hcnt) as (A1 & A2 & A3 & A4).
  { done. }
  { unfold f. simpl. rewrite count_in_cons, Hin, Hbn. rewrite u32_id by (unfold SIZEOF_PTR in *; nia). simpl. lia. }
  { intros b' Hb'. rewrite count_in_cons, Hb'. done. }
  subst f. set (m' := wr (wr m o SLAB_POISON) o (c_free_head c)).
  destruct (write_object m L c Hr Hs HF Hown o m' Hoin) as [W1 W2].
  { intros x Hx. unfold m'. by mem_simpl. }
  eexists _, m'. split; [unfold slab_free; rewrite (proj2 (Z.eqb_neq o 0)), Hbo by done; reflexivity|].
  apply NoDup_app in Hnd as (_ & Hdj & [Hno _]%NoDup_cons).
  split_and!.
  - unfold m'. destruct (all_objs_payload m L c Hr Hs HF Hown o Hoin) as (b0 & k0 & _ & Hk0 & H1 & H2).
    eapply al_write; [eapply al_write; [done|done|lia] | done | lia].
  - split; simpl; try done.
    + unfold m'. rewrite rd_wr_eq. split_and!; [done | done |].
      eapply chain_frame; [|exact Hch]. intros x Hx. apply (W1 x); [| |lia].
      * rewrite <- Hobj. set_solver.
      * intros ->. destruct (Hdj o Hx). set_solver.
    + by rewrite A3.
    + unfold all_objs. simpl. rewrite A4, <- Hobj. apply Permutation_middle.
    + rewrite Hnf, u32_succ. f_equal. lia.
    + rewrite Hna, Hlv. simpl length. replace (Z.of_nat (S (length lv'))) with (Z.of_nat (length lv') + 1) by lia.
      apply u32_pred.
  - done.
  - done.
  - split; [|done]. intros o' x Ho' Hx. apply (W1 o'); [rewrite <- Hobj; set_solver | | done].
    intros ->. set_solver.
Qed.

(** The cache only depends on the payloads it owns. *)
Lemma cache_ok_local m m' L L' c fl lv : cache_ok m L c fl lv -> al_rep m L ->
  (forall q k, q ∈ owned (c_blocks c) -> L !! q = Some k ->
     L' !! q = Some k /\ forall x, q <= x < q + k -> rd m' x = rd m x) ->
  cache_ok m' L' c fl lv.
Proof.
  intros Hok Hr Hloc. pose proof (ok_pos _ _ _ _ _ Hok) as Hpos.
  destruct Hok as [Hsz Hg Hch HF Hown Hobj Hcnt Hnf Hna]. split; try done.
  - eapply chain_frame; [|exact Hch]. intros x Hx.
    destruct (all_objs_payload m L c Hr Hpos HF Hown x) as (b & k & Hin & Hk & H1 & H2);
      [rewrite <- Hobj; set_solver|].
    apply (Hloc _ _ Hin Hk). lia.
  - rewrite Forall_forall in HF |- *. intros b Hb. destruct (HF b Hb) as (H1 & H2 & [k1 H3] & k & H4 & H5).
    assert (forall q, q ∈ [sb_base b; sb_addr b] -> q ∈ owned (c_blocks c)) as Hq.
    { intros q Hq. apply list_elem_of_bind. by exists b. }
    split_and!; try done.
    + exists k1. apply Hloc; [apply Hq; set_solver | done].
    + exists k. split; [|done]. apply Hloc; [apply Hq; set_solver | done].
Qed.

Lemma cache_ok_frame m m' L L' c fl lv : cache_ok m L c fl lv -> same_payloads L m m' -> L ⊆ L' ->
  al_rep m L -> cache_ok m' L' c fl lv.
Proof.
  intros Hok Hs Hsub Hr. eapply cache_ok_local; [done | done |].
  intros q k _ Hq. split; [by eapply lookup_weaken | by intros x; apply Hs].
Qed.

Lemma grow_link_spec base sz n m h nf fl : 0 < base -> 0 < sz -> 0 <= n -> chain m h fl ->
  (forall x j, x ∈ fl -> 0 <= j < n -> x <> base + j * sz) ->
  exists m' h', grow_link base sz n (m, h, u32 nf) = (m', h', u32 (nf + n)) /\
    chain m' h' (reverse (objs sz (mkSBlock 0 base n n)) ++ fl) /\
    (forall x, (forall j, 0 <= j < n -> x <> base + j * sz) -> rd m' x = rd m x).
Proof.
  intros Hb Hsz Hn Hch Hfl. unfold grow_link.
  set (body := fun (i : Z) '(m, head, n_free) =>
    (wr m (base + i * sz) head, base + i * sz, u32 (n_free + 1)) : mem * Z * Z).
  pose proof (for_up_ind (fun i '(m', h', nf') =>
    chain m' h' (reverse ((fun j => base + Z.of_nat j * sz) <$> seq 0 (Z.to_nat i)) ++ fl) /\
    nf' = u32 (nf + i) /\
    (forall x, (forall j, 0 <= j < n -> x <> base + j * sz) -> rd m' x = rd m x)) 0 n body (m, h, u32 nf)) as H.
  cbv beta in H. rewrite Z.max_r in H by lia.
  destruct (for_up 0 n body (m, h, u32 nf)) as [[m' h'] nf'] eqn:E.
  destruct H as (H1 & -> & H3); [by rewrite Z.add_0_r | | by exists m', h'].
  clear E. intros i [[m1 h1] nf1] Hi (C1 & -> & C3). simpl.
  assert (Hpos : base + i * sz <> 0) by nia.
  split_and!.
  - replace (Z.to_nat (i + 1)) with (S (Z.to_nat i)) by lia.
    rewrite seq_S, fmap_app, reverse_app. simpl. rewrite Z2Nat.id by lia. rewrite rd_wr_eq.
    split_and!; [done | done |]. eapply chain_frame; [|exact C1].
    intros x [Hx|Hx]%elem_of_app; rewrite rd_wr_ne; try done.
    + apply elem_of_reverse, list_elem_of_fmap in Hx as (j & -> & Hj%elem_of_seq). nia.
    + intros <-. by apply (Hfl (base + i * sz) i).
  - rewrite u32_succ. f_equal. lia.
  - intros x Hx. rewrite rd_wr_ne by (intros <-; by apply (Hx i)). by apply C3.
Qed.

Lemma grow_link_rep base sz n m h nf L k : al_rep m L -> L !! base = Some k -> 0 < sz -> n * sz <= k ->
  al_rep (grow_link base sz n (m, h, nf)).1.1 L.
Proof.
  intros Hr Hk Hs Hn. unfold grow_link.
  apply (for_up_ind (fun _ s => al_rep s.1.1 L)); [done|].
  intros i [[m1 h1] nf1] Hi IH. simpl. eapply al_write; [done | done | nia].
Qed.

(** A cache that takes over a new block, all of it free. *)
Lemma slab_add_block m L c fl lv b k h : al_rep m L -> cache_ok m L c fl lv ->
  sb_n_objs b = c_grow_by c -> sb_n_free b = c_grow_by c ->
  is_Some (L !! sb_addr b) -> L !! sb_base b = Some k -> c_grow_by c * c_obj_size c <= k ->
  sb_base b ∉ owned (c_blocks c) -> sb_addr b ∉ owned (c_blocks c) -> sb_base b <> sb_addr b ->
  let fl' := reverse (objs (c_obj_size c) b) ++ fl in
  forall m', chain m' h fl' ->
  cache_ok m' L (mkCache (c_addr c) (c_name c) (c_obj_size c) h (b :: c_blocks c) (c_n_alloc c)
    (u32 (Z.of_nat (length fl) + c_grow_by c)) (c_n_alloc_peak c) (c_grow_by c)) fl' lv.
Proof.
  intros Hr Hok Hn Hnf Haddr Hbase Hk Hb1 Hb2 Hne fl' m' Hch.
  pose proof (ok_pos _ _ _ _ _ Hok) as Hpos. pose proof (ok_grow _ _ _ _ _ Hok) as [Hg Hgs].
  set (c' := mkCache _ _ _ _ _ _ _ _ _).
  assert (HF' : Forall (block_ok (c_obj_size c) L) (b :: c_blocks c)).
  { constructor; [|apply Hok]. split_and!; [lia | lia | done |]. exists k. split; [done|lia]. }
  assert (Hown' : NoDup (owned (b :: c_blocks c))).
  { change (owned (b :: c_blocks c)) with (sb_base b :: sb_addr b :: owned (c_blocks c)).
    rewrite !NoDup_cons. split_and!; [set_solver | done | apply Hok]. }
  pose proof (filter_block m L c' Hr Hpos HF' Hown' [] b (c_blocks c) eq_refl) as [Hf1 Hf2]. simpl in Hf1, Hf2.
  assert (Hobjs : fl' ++ lv ≡ₚ all_objs c').
  { unfold fl', all_objs. csimpl. rewrite reverse_Permutation, <- (assoc_L (++)).
    apply Permutation_app_head. apply Hok. }
  assert (Hcb : forall o, o ∈ objs (c_obj_size c) b -> in_block (c_obj_size c) b o = true).
  { intros o Ho. eapply objs_in; [by apply Forall_inv in HF' | done | done]. }
  assert (Hlen : Z.of_nat (length (objs (c_obj_size c) b)) = c_grow_by c).
  { unfold objs. rewrite length_fmap, length_seq, Hn. lia. }
  assert (Hlf : length fl' = (length (objs (c_obj_size c) b) + length fl)%nat).
  { unfold fl'. by rewrite length_app, length_reverse. }
  split; simpl; try done; try apply Hok.
  - constructor.
    + pose proof (count_all_objs m L c' Hr Hpos HF' Hown' [] b (c_blocks c) eq_refl) as Hcount.
      rewrite <- (count_in_perm _ _ _ _ Hobjs), Hn in Hcount. unfold fl' in *. simpl in Hcount.
      rewrite !count_in_app in *.
      assert (count_in (c_obj_size c) b (reverse (objs (c_obj_size c) b)) = c_grow_by c) as E.
      { unfold count_in. rewrite filter_keep; [by rewrite length_reverse|].
        intros x Hx. apply Hcb. by apply elem_of_reverse. }
      pose proof (count_in_nonneg (c_obj_size c) b fl). pose proof (count_in_nonneg (c_obj_size c) b lv). lia.
    + apply Forall_lookup. intros i b' Hi. unfold fl'. rewrite count_in_app.
      rewrite (Forall_lookup_1 _ _ _ _ (ok_counts _ _ _ _ _ Hok) Hi).
      unfold count_in at 2. rewrite filter_drop; [done|]. intros o Ho Hin. rewrite elem_of_reverse in Ho.
      apply (in_block_range _ L) in Hin; [|eapply Forall_lookup_1; [apply Hok | done] | done].
      apply obj_range in Ho; [|done].
      pose proof (blocks_apart m _ L (b :: c_blocks c) O (S i) b b' Hr HF' Hown' eq_refl Hi ltac:(done)). lia.
  - f_equal. lia.
Qed.

Lemma grow_spec m L c fl lv : al_rep m L -> cache_ok m L c fl lv ->
  exists ok c' m' L' fl', slab_grow alloc free c m = Some ((ok, c'), m') /\ al_rep m' L' /\
    cache_ok m' L' c' fl' lv /\ L ⊆ L' /\ same_payloads L m m' /\ c_obj_size c' = c_obj_size c /\
    foldl (fun L p => delete p L) L' (owned (c_blocks c')) = foldl (fun L p => delete p L) L (owned (c_blocks c)) /\
    if ok then fl' <> [] else c' = c /\ fl' = fl /\ L' = L.
Proof.
  intros Hr Hok. pose proof (ok_pos _ _ _ _ _ Hok) as Hpos. pose proof (ok_grow _ _ _ _ _ Hok) as [Hg Hgs].
  unfold slab_grow.
  destruct (al_alloc m L SIZEOF_SLAB_BLOCK Hr) as [E|(d & kd & m1 & E & Hkd & Hfd & Hr1 & Hs1)];
    [unfold SIZEOF_SLAB_BLOCK, MAX_REQUEST; lia | rewrite (bind_Some _ _ _ _ _ E)..].
  { exists false, c, m, L, fl. split_and!; try done. }
  destruct (al_range _ _ _ _ Hr1 (lookup_insert_eq _ _ _)) as [Hd _].
  rewrite (proj2 (Z.eqb_neq d 0)), u32_id by nia.
  destruct (al_alloc m1 _ (c_obj_size c * c_grow_by c) Hr1) as [E2|(base & kb & m2 & E2 & Hkb & Hfb & Hr2 & Hs2)];
    [unfold MAX_REQUEST; nia | rewrite (bind_Some _ _ _ _ _ E2)..].
  { destruct (al_free _ _ d kd Hr1 (lookup_insert_eq _ _ _)) as [Hr3 Hs3].
    rewrite delete_insert_eq, delete_id in Hr3, Hs3 by done.
    assert (same_payloads L m (free d m1)) by by eapply same_payloads_trans.
    exists false, c, (free d m1), L, fl. split_and!; try done. by eapply cache_ok_frame. }
  destruct (al_range _ _ _ _ Hr2 (lookup_insert_eq _ _ _)) as [Hb _].
  rewrite (proj2 (Z.eqb_neq base 0)) by lia.
  apply lookup_insert_None in Hfb as [HfbL Hdb].
  set (L' := <[base := kb]> (<[d := kd]> L)) in *.
  assert (Hsub : L ⊆ L').
  { apply map_subseteq_spec. intros q k Hq. unfold L'. rewrite !lookup_insert_ne; [done|congruence..]. }
  assert (Hs02 : same_payloads L m m2).
  { eapply same_payloads_trans; [done|]. eapply same_payloads_sub; [|exact Hs2]. by apply insert_subseteq. }
  pose proof (cache_ok_frame _ _ _ _ _ _ _ Hok Hs02 Hsub Hr) as Hok2.
  assert (Hnew : forall q, is_Some (L !! q) -> q <> base /\ q <> d) by (intros q [? ?]; split; congruence).
  assert (Hfresh : forall q, q ∈ owned (c_blocks c) -> q <> base /\ q <> d).
  { intros q (b & Hq & Hb')%list_elem_of_bind. apply Hnew.
    pose proof (ok_blocks _ _ _ _ _ Hok) as HF. rewrite Forall_forall in HF.
    destruct (HF b Hb') as (_ & _ & ? & k & ? & _).
    repeat (apply elem_of_cons in Hq as [->|Hq]); [by eexists | done | by apply elem_of_nil in Hq]. }
  assert (Hbk : L' !! base = Some kb) by apply lookup_insert_eq.
  destruct (grow_link_spec base (c_obj_size c) (c_grow_by c) m2 (c_free_head c) (Z.of_nat (length fl)) fl)
    as (m3 & h3 & E3 & Hch3 & Hout3); [lia | lia | lia | apply Hok2 | |].
  { intros x j Hx Hj ->.
    destruct (all_objs_payload m L c Hr Hpos (ok_blocks _ _ _ _ _ Hok) (ok_owned _ _ _ _ _ Hok) _
      ltac:(rewrite <- (ok_objs _ _ _ _ _ Hok); apply elem_of_app; left; exact Hx)) as (b & k & _ & Hk & H1 & H2).
    destruct (al_disjoint _ _ _ _ _ _ Hr2 (lookup_weaken _ _ _ _ Hk Hsub) Hbk); [apply Hnew; by eexists | nia | nia]. }
  rewrite (ok_n_free _ _ _ _ _ Hok). rewrite E3.
  pose proof (grow_link_rep base (c_obj_size c) (c_grow_by c) m2 (c_free_head c) (u32 (Z.of_nat (length fl)))
    L' kb Hr2 Hbk Hpos ltac:(nia)) as Hr3. rewrite E3 in Hr3. simpl in Hr3.
  assert (Hs23 : same_payloads L m2 m3).
  { intros q k x Hq Hx. apply Hout3. intros j Hj ->.
    destruct (al_disjoint _ _ _ _ _ _ Hr2 (lookup_weaken _ _ _ _ Hq Hsub) Hbk); [apply Hnew; by eexists | nia | nia]. }
  eexists true, _, m3, L', _. split; [reflexivity|]. split; [done|]. split.
  { eapply (slab_add_block m2 L' c fl lv (mkSBlock d base (c_grow_by c) (c_grow_by c)) kb h3 Hr2 Hok2); try done; simpl.
    - unfold L'. rewrite lookup_insert_ne, lookup_insert_eq by done. by eexists.
    - nia.
    - intros Hq. by destruct (Hfresh _ Hq).
    - intros Hq. by destruct (Hfresh _ Hq). }
  split_and!; [done | by eapply same_payloads_trans | done | |].
  - apply map_eq. intros q. rewrite !lookup_delete_list. simpl.
    change (owned (mkSBlock d base (c_grow_by c) (c_grow_by c) :: c_blocks c)) with (base :: d :: owned (c_blocks c)).
    destruct (decide (q ∈ owned (c_blocks c))) as [Hi|Hi],
      (decide (q ∈ base :: d :: owned (c_blocks c))) as [Hj|Hj]; rewrite !elem_of_cons in Hj; try tauto.
    + assert (q = base \/ q = d) as [-> | ->] by tauto; done.
    + unfold L'. rewrite !lookup_insert_ne by (intros <-; tauto). done.
  - unfold objs. simpl. replace (Z.to_nat (c_grow_by c)) with (S (Z.to_nat (c_grow_by c - 1))) by lia.
    rewrite seq_S, fmap_app, reverse_app. done.
Qed.

Definition outside (lo hi : Z) (o : Z) : Prop := ((lo <=? o) && (o <? hi)) <> true.
#[local] Instance outside_dec lo hi o : Decision (outside lo hi o).
Proof. unfold outside. apply _. Defined.

Lemma filter_outside_cons lo hi o l :
  filter (outside lo hi) (o :: l) =
  if (lo <=? o) && (o <? hi) then filter (outside lo hi) l else o :: filter (outside lo hi) l.
Proof.
  rewrite filter_cons. destruct (decide (outside lo hi o)) as [H|H]; unfold outside in H;
    destruct ((lo <=? o) && (o <? hi)); done || by destruct H.
Qed.

(** Number of objects [reap_unlink] takes off. *)
Definition gone (lo hi : Z) (l : list Z) : Z := Z.of_nat (length l) - Z.of_nat (length (filter (outside lo hi) l)).

Lemma gone_nil lo hi : gone lo hi [] = 0.
Proof. done. Qed.

Lemma gone_cons lo hi o l : gone lo hi (o :: l) = Z.b2z ((lo <=? o) && (o <? hi)) + gone lo hi l.
Proof. unfold gone. rewrite filter_outside_cons. destruct (_ && _); simpl length; simpl Z.b2z; lia. Qed.

(** [Q] stands for whatever the writes to the listed words preserve. *)
Lemma unlink_slot_spec (Q : mem -> Prop) fuel lo hi s head n m l :
  (forall m x v, x ∈ s :: l -> Q m -> Q (wr m x v)) -> Q m ->
  NoDup (s :: l) -> s <> 0 -> chain m (rd m s) l -> (length l < fuel)%nat ->
  exists m', Q m' /\ reap_unlink fuel lo hi (Some s) head (u32 n) m = Some (head, u32 (n - gone lo hi l), m') /\
    chain m' (rd m' s) (filter (outside lo hi) l) /\ (forall x, x ∉ s :: l -> rd m' x = rd m x).
Proof.
  revert fuel s n m. induction l as [|x l IH]; intros [|fuel] s n m HQ Hm Hnd Hs Hch Hf; simpl in Hf; try lia.
  - simpl in *. rewrite Hch. simpl. exists m. by rewrite gone_nil, Z.sub_0_r.
  - destruct Hch as (Hx & Hx0 & Hch). cbn [reap_unlink]. rewrite Hx, (proj2 (Z.eqb_neq x 0)) by done.
    rewrite filter_outside_cons, gone_cons.
    apply NoDup_cons in Hnd as [Hsn Hnd]. pose proof Hnd as [Hxn Hndl]%NoDup_cons.
    destruct ((lo <=? x) && (x <? hi)).
    + destruct (IH fuel s (n - 1) (wr m s (rd m x))) as (m' & Hm' & E & Hch' & Hout).
      * intros m0 y v Hy. apply HQ. set_solver.
      * apply HQ; [set_solver | done].
      * constructor; [set_solver | done].
      * done.
      * rewrite rd_wr_eq. eapply chain_frame; [|exact Hch]. intros y Hy. apply rd_wr_ne. set_solver.
      * lia.
      * exists m'. split_and!; [done| |done|].
        -- replace (u32 (u32 n - 1)) with (u32 (n - 1)) by (unfold u32; by rewrite Zminus_mod_idemp_l).
           rewrite E. simpl Z.b2z. by rewrite Z.sub_add_distr.
        -- intros y Hy. rewrite Hout by set_solver. apply rd_wr_ne. set_solver.
    + destruct (IH fuel x n m) as (m' & Hm' & E & Hch' & Hout); try done; [|lia|].
      { intros m0 y v Hy. apply HQ. set_solver. }
      exists m'. split_and!; [done | by rewrite E | | intros y Hy; apply Hout; set_solver].
      simpl. rewrite (Hout s) by set_solver. done.
Qed.

Lemma unlink_spec (Q : mem -> Prop) fuel lo hi head n m l :
  (forall m x v, x ∈ l -> Q m -> Q (wr m x v)) -> Q m ->
  NoDup l -> chain m head l -> (length l < fuel)%nat ->
  exists head' m', Q m' /\ reap_unlink fuel lo hi None head (u32 n) m = Some (head', u32 (n - gone lo hi l), m') /\
    chain m' head' (filter (outside lo hi) l) /\ (forall x, x ∉ l -> rd m' x = rd m x).
Proof.
  revert fuel head n. induction l as [|x l IH]; intros [|fuel] head n HQ Hm Hnd Hch Hf; simpl in Hf; try lia.
  - simpl in *. subst head. simpl. exists 0, m. by rewrite gone_nil, Z.sub_0_r.
  - destruct Hch as (-> & Hx0 & Hch). cbn [reap_unlink]. rewrite (proj2 (Z.eqb_neq x 0)) by done.
    rewrite filter_outside_cons, gone_cons. pose proof Hnd as [Hxn Hndl]%NoDup_cons.
    destruct ((lo <=? x) && (x <? hi)).
    + destruct (IH fuel (rd m x) (n - 1)) as (h' & m' & Hm' & E & Hch' & Hout); try done; [|lia|].
      { intros m0 y v Hy. apply HQ. set_solver. }
      exists h', m'. split_and!; [done| |done|intros y Hy; apply Hout; set_solver].
      replace (u32 (u32 n - 1)) with (u32 (n - 1)) by (unfold u32; by rewrite Zminus_mod_idemp_l).
      rewrite E. simpl Z.b2z. by rewrite Z.sub_add_distr.
    + destruct (unlink_slot_spec Q fuel lo hi x x n m l HQ Hm Hnd Hx0 Hch ltac:(lia)) as (m' & Hm' & E & Hch' & Hout).
      exists x, m'. split_and!; [done | by rewrite E | | done].
      simpl. done.
Qed.

Definition with_blocks (c : slab_cache) (bs : list slab_block) (head n_free : Z) : slab_cache :=
  mkCache (c_addr c) (c_name c) (c_obj_size c) head bs (c_n_alloc c) n_free (c_n_alloc_peak c) (c_grow_by c).

Lemma filter_filter_sub {A} (P Q : A -> Prop) {HP : forall x, Decision (P x)} {HQ : forall x, Decision (Q x)} (l : list A) :
  (forall x, x ∈ l -> P x -> Q x) -> filter P (filter Q l) = filter P l.
Proof.
  induction l as [|x l IH]; intros Hl; [done|]. rewrite !filter_cons.
  assert (filter P (filter Q l) = filter P l) as E by (apply IH; intros y Hy; apply Hl; set_solver).
  destruct (decide (Q x)) as [Hq|Hq]; [rewrite filter_cons|]; destruct (decide (P x)) as [Hp|Hp]; rewrite ?E; try done.
  destruct Hq. apply Hl; [set_solver | done].
Qed.

Lemma NoDup_owned_mid pre b post : NoDup (owned (pre ++ b :: post)) ->
  NoDup (owned (pre ++ post)) /\ (sb_base b ∉ owned (pre ++ post)) /\ (sb_addr b ∉ owned (pre ++ post)) /\
  sb_base b <> sb_addr b.
Proof.
  unfold owned. rewrite !bind_app. csimpl. fold (owned pre) (owned post).
  rewrite (Permutation_app_comm (owned pre) (sb_base b :: _)). simpl.
  rewrite (Permutation_app_comm (owned post) (owned pre)).
  rewrite !NoDup_cons. set_solver.
Qed.

(** An idle block leaves the cache together with its objects. *)
Lemma remove_block m L c pre b post fl lv m' h' : al_rep m L -> cache_ok m L c fl lv ->
  c_blocks c = pre ++ b :: post -> sb_n_free b = sb_n_objs b ->
  let hi := sb_base b + u32 (sb_n_objs b * c_obj_size c) in
  let fl' := filter (outside (sb_base b) hi) fl in
  chain m' h' fl' ->
  cache_ok m' L (with_blocks c (pre ++ post) h' (u32 (Z.of_nat (length fl) - gone (sb_base b) hi fl))) fl' lv.
Proof.
  intros Hr Hok Eb Hidle hi fl' Hch. pose proof (ok_pos _ _ _ _ _ Hok) as Hs.
  destruct Hok as [Hsz Hg _ HF Hown Hobj Hcnt Hnf Hna].
  pose proof (filter_block m L c Hr Hs HF Hown pre b post Eb) as [_ Hf2].
  pose proof (count_all_objs m L c Hr Hs HF Hown pre b post Eb) as Hca.
  rewrite <- (count_in_perm _ _ _ _ Hobj), count_in_app, <- Hidle in Hca.
  assert (Hbl : block_ok (c_obj_size c) L b /\ sb_n_free b = count_in (c_obj_size c) b fl).
  { rewrite Eb in HF, Hcnt. apply Forall_app in HF as [_ [? _]%Forall_cons_iff].
    apply Forall_app in Hcnt as [_ [? _]%Forall_cons_iff]. done. }
  destruct Hbl as [Hbok Hbn].
  assert (Hlv : filter (outside (sb_base b) hi) lv = lv).
  { apply filter_keep. intros o Ho Hin. assert (count_in (c_obj_size c) b lv = 0) as H0 by lia.
    unfold count_in in H0.
    assert (o ∈ filter (fun o => in_block (c_obj_size c) b o = true) lv) as Hf by by apply list_elem_of_filter.
    destruct (filter _ lv); [by apply elem_of_nil in Hf | simpl in H0; lia]. }
  split; simpl; try done.
  - rewrite Eb in HF. apply Forall_app in HF as [? [_ ?]%Forall_cons_iff]. by apply Forall_app.
  - rewrite Eb in Hown. by destruct (NoDup_owned_mid _ _ _ Hown).
  - unfold all_objs. simpl. change (filter (outside (sb_base b) hi) (all_objs c) = (pre ++ post) ≫= objs (c_obj_size c)) in Hf2.
    rewrite <- Hf2, <- Hobj, filter_app, Hlv. done.
  - apply Forall_forall. intros b' Hb'. assert (b' ∈ c_blocks c) as [j Hj]%list_elem_of_lookup by (rewrite Eb; set_solver).
    rewrite (Forall_lookup_1 _ _ _ _ Hcnt Hj). unfold count_in, fl'. rewrite filter_filter_sub; [done|].
    intros o _ Hin Hin2. change (in_block (c_obj_size c) b o = true) in Hin2.
    assert (Hbi : c_blocks c !! length pre = Some b) by (rewrite Eb; by apply list_lookup_middle).
    apply (in_block_range _ L) in Hin; [|by eapply Forall_lookup_1|done].
    apply (in_block_range _ L) in Hin2; [|done|done].
    destruct (decide (j = length pre)) as [->|Hne].
    + assert (b' = b) as -> by congruence. rewrite Eb in Hown. apply NoDup_owned_mid in Hown as (_ & Hn & _).
      apply Hn, list_elem_of_bind. exists b. split; [set_solver | done].
    + pose proof (blocks_apart _ _ _ _ _ _ _ _ Hr HF Hown Hj Hbi Hne). lia.
  - f_equal. unfold gone, fl'. lia.
Qed.

(** Bytes [slab_reap] reports. *)
Definition reap_bytes (sz : Z) (bs : list slab_block) (r : Z) : Z :=
  foldl (fun r b => if sb_n_free b =? sb_n_objs b
                    then u32 (r + u32 (u32 (sz * sb_n_objs b) + SIZEOF_SLAB_BLOCK)) else r) r bs.

Definition busy (b : slab_block) : Prop := sb_n_free b <> sb_n_objs b.

(** Releasing the two payloads of a block the cache no longer uses. *)
Lemma free_block m L c fl lv b : al_rep m L -> cache_ok m L c fl lv ->
  is_Some (L !! sb_base b) -> is_Some (L !! sb_addr b) -> sb_base b <> sb_addr b ->
  sb_base b ∉ owned (c_blocks c) -> sb_addr b ∉ owned (c_blocks c) ->
  let m' := free (sb_addr b) (free (sb_base b) m) in
  let L' := delete (sb_addr b) (delete (sb_base b) L) in
  al_rep m' L' /\ cache_ok m' L' c fl lv /\ same_payloads L' m m'.
Proof.
  intros Hr Hok [k Hk] [k' Hk'] Hne Hn1 Hn2 m' L'.
  destruct (al_free _ _ _ _ Hr Hk) as [Hr1 Hs1].
  destruct (al_free (free (sb_base b) m) _ (sb_addr b) k' Hr1) as [Hr2 Hs2]; [by rewrite lookup_delete_ne|].
  assert (Hs : same_payloads L' m m').
  { eapply same_payloads_trans; [|exact Hs2]. eapply same_payloads_sub; [apply delete_subseteq | done]. }
  split_and!; [done | | done]. eapply cache_ok_local; [done | done |].
  intros q j Hq Hj. assert (L' !! q = Some j).
  { unfold L'. rewrite !lookup_delete_ne; [done | intros <-; done..]. }
  split; [done|]. intros x. by apply Hs.
Qed.

(** The words of the free list belong to no live object and to no payload
    outside the cache. *)
Lemma free_words_apart m L c fl lv : al_rep m L -> cache_ok m L c fl lv ->
  (forall o x, o ∈ lv -> o <= x < o + c_obj_size c -> x ∉ fl) /\
  (forall q k x, L !! q = Some k -> q ∉ owned (c_blocks c) -> q <= x < q + k -> x ∉ fl).
Proof.
  intros Hr Hok. pose proof (ok_pos _ _ _ _ _ Hok) as Hs. pose proof (ok_NoDup _ _ _ _ _ Hr Hok) as Hnd.
  destruct Hok as [_ _ _ HF Hown Hobj _ _ _]. apply NoDup_app in Hnd as (_ & Hdj & _). split.
  - intros o x Ho Hx Hf. assert (o <> x) by (intros ->; by apply (Hdj x)).
    destruct (all_objs_apart m L c Hr Hs HF Hown o x); try lia; rewrite <- Hobj; set_solver.
  - intros q k x Hq Hn Hx Hf.
    destruct (all_objs_payload m L c Hr Hs HF Hown x) as (b & j & Hin & Hj & H1 & H2); [rewrite <- Hobj; set_solver|].
    assert (q <> sb_base b) by (intros ->; done).
    destruct (al_disjoint _ _ _ _ _ _ Hr Hq Hj ltac:(done)); lia.
Qed.

Lemma reap_blocks_spec bs fuel c pre m L fl lv head n r : al_rep m L ->
  cache_ok m L (with_blocks c (pre ++ bs) head n) fl lv -> (length fl < fuel)%nat ->
  exists head' n' m' L' fl',
    reap_blocks free fuel (c_obj_size c) bs head n r m =
      Some (filter busy bs, head', n', reap_bytes (c_obj_size c) bs r, m') /\
    al_rep m' L' /\ cache_ok m' L' (with_blocks c (pre ++ filter busy bs) head' n') fl' lv /\
    L' ⊆ L /\ (forall q, q ∉ owned (pre ++ bs) -> L' !! q = L !! q) /\
    undisturbed L (with_blocks c (pre ++ bs) head n) lv m m'.
Proof.
  revert fuel pre m L fl head n r. induction bs as [|b bs IH]; intros fuel pre m L fl head n r Hr Hok Hfuel.
  { exists head, n, m, L, fl. by split_and!. }
  cbn [reap_blocks]. rewrite filter_cons. unfold reap_bytes. cbn [foldl]. fold (reap_bytes (c_obj_size c) bs).
  destruct (Z.eqb_spec (sb_n_free b) (sb_n_objs b)) as [Hidle|Hbusy]; cbn [negb].
  - rewrite decide_False by (intros Hb; by apply Hb).
    set (c0 := with_blocks c (pre ++ b :: bs) head n) in *. set (hi := sb_base b + _).
    pose proof (ok_pos _ _ _ _ _ Hok) as Hs. pose proof (ok_NoDup _ _ _ _ _ Hr Hok) as Hnd.
    apply NoDup_app in Hnd as (Hndf & _ & _).
    assert (Hn : n = u32 (Z.of_nat (length fl))) by apply (ok_n_free _ _ _ _ _ Hok).
    destruct (free_words_apart _ _ _ _ _ Hr Hok) as [Hap1 Hap2].
    destruct (unlink_spec (fun m => al_rep m L) fuel (sb_base b) hi head (Z.of_nat (length fl)) m fl)
      as (h1 & m1 & Hr1 & E1 & Hch1 & Hout1); [|done|done|apply Hok|done|].
    { intros m0 x v Hx Hm0. destruct (all_objs_payload m L c0 Hr Hs (ok_blocks _ _ _ _ _ Hok) (ok_owned _ _ _ _ _ Hok) x)
        as (b1 & k1 & _ & Hk1 & H1 & H2); [rewrite <- (ok_objs _ _ _ _ _ Hok); set_solver|].
      eapply al_write; [done | done | lia]. }
    rewrite Hn, E1. set (n1 := u32 (_ - _)).
    pose proof (remove_block m L c0 pre b bs fl lv m1 h1 Hr Hok eq_refl Hidle Hch1) as Hok1.
    change (cache_ok m1 L (with_blocks c (pre ++ bs) h1 n1) (filter (outside (sb_base b) hi) fl) lv) in Hok1.
    destruct (NoDup_owned_mid pre b bs (ok_owned _ _ _ _ _ Hok)) as (_ & Hn1 & Hn2 & Hn3).
    assert (Hbok : block_ok (c_obj_size c) L b).
    { pose proof (ok_blocks _ _ _ _ _ Hok) as HF. by apply Forall_app in HF as [_ [? _]%Forall_cons_iff]. }
    destruct Hbok as (_ & _ & Ha & k & Hk & _).
    destruct (free_block m1 L _ _ _ b Hr1 Hok1 (ex_intro _ k Hk) Ha Hn3 Hn1 Hn2) as (Hr3 & Hok3 & Hs3).
    set (m3 := free (sb_addr b) _) in *. set (L3 := delete (sb_addr b) _) in *.
    destruct (IH fuel pre m3 L3 _ h1 n1 (u32 (r + u32 (u32 (c_obj_size c * sb_n_objs b) + SIZEOF_SLAB_BLOCK))) Hr3 Hok3)
      as (h' & n' & m' & L' & fl' & E & Hr' & Hok' & Hsub & Hq & Hu1 & Hu2).
    { eapply Nat.le_lt_trans; [apply length_filter | done]. }
    exists h', n', m', L', fl'. rewrite E.
    assert (Hown : forall q, q ∉ owned (pre ++ b :: bs) -> L3 !! q = L !! q /\ q ∉ owned (pre ++ bs)).
    { intros q Hqn. unfold owned in Hqn. rewrite bind_app in Hqn. csimpl in Hqn.
      unfold L3, owned. rewrite bind_app. split; [rewrite !lookup_delete_ne by set_solver; done | set_solver]. }
    split_and!; [done | done | done | | |].
    + etrans; [done|]. unfold L3. etrans; [apply delete_subseteq|]. apply delete_subseteq.
    + intros q Hqn. destruct (Hown q Hqn) as [<- ?]. by apply Hq.
    + split.
      * intros o x Ho Hx. rewrite (Hu1 o x Ho Hx).
        destruct (all_objs_payload m1 L _ Hr1 (ok_pos _ _ _ _ _ Hok1) (ok_blocks _ _ _ _ _ Hok1) (ok_owned _ _ _ _ _ Hok1) o)
          as (b1 & k1 & Hin & Hk1 & H1 & H2); [rewrite <- (ok_objs _ _ _ _ _ Hok1); set_solver|].
        simpl in Hin, Hx, H2. rewrite (Hs3 (sb_base b1) k1 x); [by apply Hout1, (Hap1 o) | | lia].
        unfold L3. rewrite !lookup_delete_ne; [done | intros E2; by rewrite E2 in *..].
      * intros q j x Hqj Hqn Hx. simpl in Hqn. destruct (Hown q Hqn) as [EL Hqn'].
        rewrite (Hu2 q j x), (Hs3 q j x), Hout1; try done; [by eapply Hap2 | congruence..].
  - rewrite decide_True by done.
    replace (pre ++ b :: bs) with ((pre ++ [b]) ++ bs) in * by by rewrite <- (assoc_L (++)).
    destruct (IH fuel (pre ++ [b]) m L fl head n r Hr Hok Hfuel) as (h' & n' & m' & L' & fl' & E & Hr' & Hok' & Hsub & Hq & Hu).
    exists h', n', m', L', fl'. rewrite E. rewrite <- (assoc_L (++)) in Hok'. done.
Qed.

Lemma chain_head m h fl : chain m h fl -> (h = 0 <-> fl = []).
Proof. destruct fl as [|x fl]; simpl; [by split|]. intros (-> & Hx & _). by split. Qed.

(** C26: [slab_alloc] always returns.  It fails only when the free list is
    empty and the heap is exhausted, and then changes nothing; otherwise it
    returns an object that no client holds, zeroed, inside the cache's blocks
    and disjoint from every live object.  The contents of live objects and of
    the heap payloads outside the cache are unchanged, and the free list, the
    counters of the cache and of its blocks stay consistent. *)
Theorem slab_alloc_fresh_zeroed m L c fl lv : al_rep m L -> cache_ok m L c fl lv ->
  exists o c' m' L' fl', slab_alloc alloc free (Some c) m = Some ((o, Some c'), m') /\
    al_rep m' L' /\ L ⊆ L' /\ undisturbed L c lv m m' /\
    if o =? 0 then c' = c /\ fl = [] /\ L' = L /\ cache_ok m' L' c' fl lv
    else (o ∉ lv) /\ cache_ok m' L' c' fl' (o :: lv) /\
         (forall x, o <= x < o + c_obj_size c -> rd m' x = 0) /\
         (forall o', o' ∈ lv -> o + c_obj_size c <= o' \/ o' + c_obj_size c <= o).
Proof.
  intros Hr Hok. unfold slab_alloc.
  assert (exists ok c1 m1 L1 fl1, (if c_free_head c =? 0 then slab_grow alloc free c else ret (true, c)) m
      = Some ((ok, c1), m1) /\ al_rep m1 L1 /\ cache_ok m1 L1 c1 fl1 lv /\ L ⊆ L1 /\ same_payloads L m m1 /\
      c_obj_size c1 = c_obj_size c /\
      (forall q k, L !! q = Some k -> q ∉ owned (c_blocks c) -> q ∉ owned (c_blocks c1)) /\
      if ok then fl1 <> [] else c1 = c /\ fl = [] /\ fl1 = fl /\ L1 = L)
    as (ok & c1 & m1 & L1 & fl1 & E & Hr1 & Hok1 & Hsub & Hs & Hsz & Hown & Hif).
  { pose proof (chain_head _ _ _ (ok_chain _ _ _ _ _ Hok)) as Hh. destruct (Z.eqb_spec (c_free_head c) 0) as [E0|E0].
    - destruct (grow_spec m L c fl lv Hr Hok) as (ok & c1 & m1 & L1 & fl1 & E & H1 & H2 & H3 & H4 & H5 & H6 & H7).
      exists ok, c1, m1, L1, fl1. split_and!; try done.
      + intros q k Hq Hn Hn1.
        assert (foldl (fun L p => delete p L) L1 (owned (c_blocks c1)) !! q = None)
          by (rewrite lookup_delete_list; by rewrite decide_True).
        rewrite H6, lookup_delete_list, decide_False in H by done. congruence.
      + destruct ok; [done|]. destruct H7 as (-> & -> & ->). tauto.
    - exists true, c, m, L, fl. split_and!; try done. naive_solver. }
  rewrite (bind_Some _ _ _ _ _ E).
  assert (Hund : undisturbed L c lv m m1).
  { split; [|intros q k x Hq _; by apply Hs]. intros o x Ho Hx.
    destruct (all_objs_payload m L c Hr (ok_pos _ _ _ _ _ Hok) (ok_blocks _ _ _ _ _ Hok) (ok_owned _ _ _ _ _ Hok) o)
      as (b & k & _ & Hk & H1 & H2); [rewrite <- (ok_objs _ _ _ _ _ Hok); set_solver|].
    apply (Hs _ _ _ Hk). lia. }
  destruct ok; simpl.
  - destruct fl1 as [|o fl1]; [done|].
    destruct (pop_spec m1 L1 c1 o fl1 lv Hr1 Hok1) as (c2 & m2 & E2 & Hr2 & Hok2 & _ & Hsz2 & Hz & Hu1 & Hu2).
    rewrite (bind_Some _ _ _ _ _ E2). exists o, c2, m2, L1, fl1.
    pose proof (ok_chain _ _ _ _ _ Hok1) as (_ & Ho & _). pose proof (ok_NoDup _ _ _ _ _ Hr1 Hok1) as Hnd.
    rewrite (proj2 (Z.eqb_neq o 0)) by done. rewrite Hsz in *.
    assert (o ∉ lv) by (apply NoDup_cons in Hnd as [? _]; set_solver).
    split_and!; try done.
    + destruct Hund as [U1 U2]. split.
      * intros o' x Ho' Hx. rewrite (Hu1 o' x), (U1 o' x); done.
      * intros q k x Hq Hn Hx. rewrite (Hu2 q k x), (U2 q k x); try done; [by eapply lookup_weaken | by eapply Hown].
    + intros o' Ho'. rewrite <- Hsz.
      apply (all_objs_apart m1 L1 c1 Hr1 (ok_pos _ _ _ _ _ Hok1) (ok_blocks _ _ _ _ _ Hok1) (ok_owned _ _ _ _ _ Hok1));
        try (rewrite <- (ok_objs _ _ _ _ _ Hok1); set_solver). intros ->. done.
  - destruct Hif as (-> & -> & -> & ->). exists 0, c, m1, L, []. split_and!; done.
Qed.

(** [slab_reap], with fuel for the free list, always returns.  It gives
    back exactly the blocks none of whose objects is in use, both their payload
    and their descriptor, and reports their size; live objects stay in use
    with their contents, the other payloads of the heap are untouched, and the
    cache stays consistent. *)
Theorem slab_reap_releases_idle_blocks m L c fl lv fuel : al_rep m L -> cache_ok m L c fl lv ->
  (length fl < fuel)%nat ->
  exists c' m' L' fl', slab_reap free fuel (Some c) m =
      Some ((reap_bytes (c_obj_size c) (c_blocks c) 0, Some c'), m') /\
    c_blocks c' = filter busy (c_blocks c) /\
    al_rep m' L' /\ cache_ok m' L' c' fl' lv /\ L' ⊆ L /\
    (forall q, q ∉ owned (c_blocks c) -> L' !! q = L !! q) /\ undisturbed L c lv m m'.
Proof.
  intros Hr Hok Hfuel.
  destruct (reap_blocks_spec (c_blocks c) fuel c [] m L fl lv (c_free_head c) (c_n_free c) 0 Hr)
    as (h & n & m' & L' & fl' & E & H1 & H2 & H3 & H4 & H5); [by destruct c | done |].
  unfold slab_reap. rewrite E. eexists _, m', L', fl'. split; [reflexivity|].
  split_and!; try done.
Qed.

(** A released object is the next one handed out. *)
Lemma free_then_alloc m L c fl lv lv' o : al_rep m L -> cache_ok m L c fl lv -> lv ≡ₚ o :: lv' ->
  exists c1 m1 c2 m2, slab_free (Some c) o m = (Some c1, m1) /\
    slab_alloc alloc free (Some c1) m1 = Some ((o, Some c2), m2) /\ cache_ok m2 L c2 fl (o :: lv').
Proof.
  intros Hr Hok Hlv. destruct (free_spec m L c fl lv lv' o Hr Hok Hlv) as (c1 & m1 & E1 & Hr1 & Hok1 & _).
  destruct (pop_spec m1 L c1 o fl lv' Hr1 Hok1) as (c2 & m2 & E2 & Hr2 & Hok2 & _).
  exists c1, m1, c2, m2. split_and!; [done | | done]. unfold slab_alloc.
  destruct (ok_chain _ _ _ _ _ Hok1) as (Hh & Ho & _). rewrite Hh, (proj2 (Z.eqb_neq o 0)) by done.
  unfold bind at 1, ret at 1. simpl. by rewrite (bind_Some _ _ _ _ _ E2).
Qed.

End Correct.

(** ** A cache on the kernel heap *)

Definition demo_cache (c : Z) : slab_cache := mkCache c 0 64 0 [] 0 0 0 8.

Definition heap0 : mem := (Heap.heap_init ∅).2.

Lemma demo_ok c L m : cache_ok m L (demo_cache c) [] [].
Proof. split; simpl; try done; try constructor; unfold SIZEOF_PTR; lia || done. Qed.

Lemma slab_heap0_rep : al_rep (Allocator := Heap.heap_allocator) heap0 ∅.
Proof. apply Heap.init_rep. Qed.

Lemma slab_alloc_fresh_zeroed_witness :
  exists o c' m', slab_alloc Heap.kmalloc Heap.kfree (Some (demo_cache 4096)) heap0 = Some ((o, Some c'), m').
Proof.
  destruct (slab_alloc_fresh_zeroed heap0 ∅ (demo_cache 4096) [] [] slab_heap0_rep (demo_ok _ _ _))
    as (o & c' & m' & L' & fl' & E & _).
  exists o, c', m'. exact E.
Defined.

Lemma demo_grown :
  (fst ∘ fst <$> slab_grow Heap.kmalloc Heap.kfree (demo_cache 4096) heap0) = Some true.
Proof. vm_compute. reflexivity. Qed.

Lemma slab_reap_releases_idle_blocks_witness :
  exists c1 m1 c2 m2, slab_grow Heap.kmalloc Heap.kfree (demo_cache 4096) heap0 = Some ((true, c1), m1) /\
    exists fuel, slab_reap Heap.kfree fuel (Some c1) m1 =
      Some ((reap_bytes (c_obj_size c1) (c_blocks c1) 0, Some c2), m2).
Proof.
  destruct (grow_spec heap0 ∅ (demo_cache 4096) [] [] slab_heap0_rep (demo_ok _ _ _))
    as (ok & c1 & m1 & L1 & fl1 & E & Hr1 & Hok1 & _ & _ & _ & _ & Hif).
  pose proof demo_grown as Hg. rewrite E in Hg. simpl in Hg. injection Hg as ->.
  destruct (slab_reap_releases_idle_blocks m1 L1 c1 fl1 [] (S (length fl1)) Hr1 Hok1 ltac:(lia))
    as (c2 & m2 & L2 & fl2 & E2 & _).
  exists c1, m1, c2, m2. split; [exact E|]. exists (S (length fl1)). exact E2.
Defined.

End Slab.
