(* ===== verification/Vmm.v ===== *)
(** * Virtual memory manager (src/mm/virt/vmm.c, src/proc/elf.c)

    Four-level page tables in physical memory: mapping, address spaces, copying
    and copy-on-write sharing, release, the page-fault handler, and the ELF
    loader that fills an address space. *)
From S2P Require Import Prelude Bytes Pmm.

Module Vmm.

Definition PAGE_PRESENT : Z := 0x001.
Definition PAGE_RW : Z := 0x002.
Definition PAGE_USER : Z := 0x004.
Abbreviation PAGE_PS := 0x80.
Definition PAGE_COW : Z := 0x200.
Definition ENTRIES : Z := 512.
Abbreviation MAP_2M := (2 * 1024 * 1024).
Abbreviation IDENTITY_MB := 128.
Abbreviation PML4_PHYSMAP := 256.
Abbreviation PML4_KERNEL := 511.
Definition USTACK_BASE : Z := 0x50000000.
Abbreviation USTACK_PAGES := 64.
Abbreviation USTACK_LIMIT := (USTACK_BASE - (USTACK_PAGES - 1) * 0x1000).

(** Physical memory is a map from the address of each 64-bit word to its value;
    the kernel reaches it through the low identity map or the physmap. *)
Record vmm := mkVmm {
  v_mem : mem;
  v_pmm : Pmm.pmm;
  g_kernel_pml4 : Z;
  g_physmap_on : bool
}.

Definition set_mem (m : mem) (s : vmm) : vmm := mkVmm m (v_pmm s) (g_kernel_pml4 s) (g_physmap_on s).
Definition set_pmm (p : Pmm.pmm) (s : vmm) : vmm := mkVmm (v_mem s) p (g_kernel_pml4 s) (g_physmap_on s).

Abbreviation MV := (M vmm).

(** Entry [i] of the table at physical address [t]. *)
Definition entry (m : mem) (t i : Z) : Z := rd m (t + 8 * i).
Definition get_entry (t i : Z) : MV Z := fun s => Some (entry (v_mem s) t i, s).
Definition set_entry (t i e : Z) : MV unit := modify (fun s => set_mem (wr (v_mem s) (t + 8 * i) e) s).

Definition pmm_alloc : MV Z := fun s =>
  let '(f, p) := Pmm.pmm_alloc_frame (v_pmm s) in Some (f, set_pmm p s).
Definition pmm_free (phys : Z) : MV unit := modify (fun s => set_pmm (Pmm.pmm_free_frame phys (v_pmm s)) s).
Definition pmm_share (phys : Z) : MV unit := modify (fun s => set_pmm (Pmm.pmm_addref phys (v_pmm s)) s).

(** [~0xFFFULL] *)
Definition FRAME_MASK : Z := u64 (Z.lnot 0xFFF).
Definition frame_of (e : Z) : Z := Z.land e FRAME_MASK.
Definition has (e flag : Z) : bool := ctrue (Z.land e flag).

Definition zero_mem (t : Z) (m : mem) : mem := for_up 0 ENTRIES (fun i m => wr m (t + 8 * i) 0) m.
Definition zero_table (t : Z) : MV unit := modify (fun s => set_mem (zero_mem t (v_mem s)) s).

(** The 4096-byte copy between two frames, a word at a time. *)
Definition copy_mem (dst src : Z) (m : mem) : mem := for_up 0 ENTRIES (fun i m => wr m (dst + 8 * i) (rd m (src + 8 * i))) m.
Definition copy_frame (dst src : Z) : MV unit := modify (fun s => set_mem (copy_mem dst src (v_mem s)) s).

Definition idx4 (va : Z) : Z := Z.land (Z.shiftr va 39) 0x1FF.
Definition idx3 (va : Z) : Z := Z.land (Z.shiftr va 30) 0x1FF.
Definition idx2 (va : Z) : Z := Z.land (Z.shiftr va 21) 0x1FF.
Definition idx1 (va : Z) : Z := Z.land (Z.shiftr va 12) 0x1FF.

(** A new zeroed table linked at entry [i] of [t]. *)
Definition link_table (t i : Z) : MV Z :=
  let* f := pmm_alloc in
  do* zero_table f in
  do* set_entry t i (Z.lor (Z.lor f PAGE_PRESENT) PAGE_RW) in
  ret f.

Definition vmm_init : MV os_status :=
  let* pml4 := pmm_alloc in
  do* zero_table pml4 in
  let* pdpt := link_table pml4 0 in
  let* pd := link_table pdpt 0 in
  do* modify (fun s => set_mem (for_up 0 (IDENTITY_MB * 1024 * 1024 / MAP_2M) (fun i m =>
        wr m (pd + 8 * i) (Z.lor (Z.lor (Z.lor (i * MAP_2M) PAGE_PRESENT) PAGE_RW) PAGE_PS)) (v_mem s)) s) in
  let* pmpdpt := link_table pml4 PML4_PHYSMAP in
  let* pmpd := link_table pmpdpt 0 in
  do* modify (fun s => set_mem (for_up 0 ENTRIES (fun i m =>
        wr m (pmpd + 8 * i) (Z.lor (Z.lor (Z.lor (i * MAP_2M) PAGE_PRESENT) PAGE_RW) PAGE_PS)) (v_mem s)) s) in
  let* k := get_entry 0x1000 PML4_KERNEL in
  do* set_entry pml4 PML4_KERNEL k in
  do* modify (fun s => mkVmm (v_mem s) (v_pmm s) pml4 true) in
  ret OS_OK.

(** One level of the walk of [vmm_map_page_into]: the next table, allocated when
    the entry is not present; the same lines for the three levels. *)
Definition next_table (t i u : Z) : MV (option Z) :=
  let* e := get_entry t i in
  if negb (has e PAGE_PRESENT) then
    let* f := pmm_alloc in
    if f =? 0 then ret None
    else
      do* zero_table f in
      do* set_entry t i (Z.lor (Z.lor (Z.lor f PAGE_PRESENT) PAGE_RW) u) in
      let* e := get_entry t i in ret (Some (frame_of e))
  else
    do* set_entry t i (Z.lor e u) in
    let* e := get_entry t i in ret (Some (frame_of e)).

Definition vmm_map_page_into (pml4 va pa flags : Z) : MV Z :=
  let u := Z.land flags PAGE_USER in
  let* pdpt := next_table pml4 (idx4 va) u in
  match pdpt with
  | None => ret (-1)
  | Some pdpt =>
      let* pd := next_table pdpt (idx3 va) u in
      match pd with
      | None => ret (-1)
      | Some pd =>
          let* pt := next_table pd (idx2 va) u in
          match pt with
          | None => ret (-1)
          | Some pt =>
              do* set_entry pt (idx1 va) (Z.lor (Z.lor (frame_of pa) (Z.land flags 0xFFF)) PAGE_PRESENT) in
              ret 0
          end
      end
  end.

Definition vmm_map_page (va pa flags : Z) : MV Z := fun s => vmm_map_page_into (g_kernel_pml4 s) va pa flags s.

(** The three nested loops over the mapped pages below PML4[0], shared by
    [vmm_copy_user_space] and [vmm_cow_user_space]: [leaf pt i1 va] handles one
    present page and says whether to go on. *)
Definition each_user_page (pml4 : Z) (leaf : Z -> Z -> Z -> MV bool) : MV bool :=
  let* e4 := get_entry pml4 0 in
  if negb (has e4 PAGE_PRESENT) then ret true
  else
    let pdpt := frame_of e4 in
    for_m (Z.to_nat ENTRIES) 0 (fun i3 =>
      let* e3 := get_entry pdpt i3 in
      if negb (has e3 PAGE_PRESENT) then ret true
      else
        let pd := frame_of e3 in
        for_m (Z.to_nat ENTRIES) 0 (fun i2 =>
          let* e2 := get_entry pd i2 in
          if negb (has e2 PAGE_PRESENT) || has e2 PAGE_PS then ret true
          else
            let pt := frame_of e2 in
            for_m (Z.to_nat ENTRIES) 0 (fun i1 =>
              let* e1 := get_entry pt i1 in
              if negb (has e1 PAGE_PRESENT) then ret true
              else leaf pt i1 (Z.lor (Z.lor (Z.shiftl i3 30) (Z.shiftl i2 21)) (Z.shiftl i1 12))))).

Definition status_of (ok : bool) : Z := if ok then 0 else -1.

Definition vmm_copy_user_space (dst src : Z) : MV Z :=
  let* ok := each_user_page src (fun pt i1 va =>
    let* e := get_entry pt i1 in
    let sphys := frame_of e in
    let flags := Z.land e 0xFFF in
    let* dphys := pmm_alloc in
    if dphys =? 0 then ret false
    else
      do* copy_frame dphys sphys in
      let* _ := vmm_map_page_into dst va dphys flags in
      ret true) in
  ret (status_of ok).

(** One shared page: read-only and copy-on-write on both sides. *)
Definition cow_page (dst pt i1 va : Z) : MV bool :=
  let* e := get_entry pt i1 in
  let phys := frame_of e in
  let flags := Z.lor (Z.land (Z.land e 0xFFF) (Z.lnot PAGE_RW)) PAGE_COW in
  do* set_entry pt i1 (Z.lor phys flags) in
  let* r := vmm_map_page_into dst va phys (Z.land flags (Z.lnot PAGE_PRESENT)) in
  if negb (r =? 0) then ret false
  else
    do* pmm_share phys in
    ret true.

Definition vmm_cow_user_space (dst src : Z) : MV Z :=
  let* ok := each_user_page src (cow_page dst) in
  ret (status_of ok).

(** Releasing one table with its children. *)
Definition free_pt (pt : Z) : MV unit :=
  let* _ := for_m (Z.to_nat ENTRIES) 0 (fun i1 =>
    let* e := get_entry pt i1 in
    do* (if has e PAGE_PRESENT then pmm_free (frame_of e) else ret tt) in
    ret true) in
  pmm_free pt.

Definition free_pd (pd : Z) : MV unit :=
  let* _ := for_m (Z.to_nat ENTRIES) 0 (fun i2 =>
    let* e := get_entry pd i2 in
    do* (if negb (has e PAGE_PRESENT) || has e PAGE_PS then ret tt else free_pt (frame_of e)) in
    ret true) in
  pmm_free pd.

Definition free_pdpt (pdpt : Z) : MV unit :=
  let* _ := for_m (Z.to_nat ENTRIES) 0 (fun i3 =>
    let* e := get_entry pdpt i3 in
    do* (if negb (has e PAGE_PRESENT) then ret tt else free_pd (frame_of e)) in
    ret true) in
  pmm_free pdpt.

Definition vmm_free_user_space (pml4 : Z) : MV unit :=
  let* k := (fun s => Some (g_kernel_pml4 s, s)) in
  if (pml4 =? 0) || (pml4 =? k) then ret tt
  else
    let* e := get_entry pml4 0 in
    do* (if negb (has e PAGE_PRESENT) then ret tt else free_pdpt (frame_of e)) in
    pmm_free pml4.

(** What the handler does with a fault: return to the instruction, with the
    lowest mapped stack page of the current process, or halt. *)
Inductive fault_result := Resume (stack_low : option Z) | Panic.

(** The copy-on-write half of the handler, on the entry found by the walk. *)
Definition cow_fault (pt i1 : Z) (stack_low : option Z) : MV fault_result :=
  let* pte := get_entry pt i1 in
  if negb (has pte PAGE_PRESENT) || negb (has pte PAGE_COW) then ret Panic
  else
    let old_phys := frame_of pte in
    let flags := Z.land (Z.land pte 0xFFF) (Z.lnot PAGE_COW) in
    let* rc := (fun s => Some (Pmm.pmm_refcount old_phys (v_pmm s), s)) in
    if rc =? 1 then
      do* set_entry pt i1 (Z.lor (Z.lor old_phys flags) PAGE_RW) in
      ret (Resume stack_low)
    else
      let* new_phys := pmm_alloc in
      if new_phys =? 0 then ret Panic
      else
        do* copy_frame new_phys old_phys in
        do* pmm_free old_phys in
        do* set_entry pt i1 (Z.lor (Z.lor new_phys flags) PAGE_RW) in
        ret (Resume stack_low).

(** [va] is CR2, [cr3_reg] is CR3, [ec] the error code, and [stack_low] that of
    the current process, if any. *)
Definition vmm_page_fault_handler (va cr3_reg ec : Z) (stack_low : option Z) : MV fault_result :=
  let cr3 := frame_of cr3_reg in
  let* k := (fun s => Some (g_kernel_pml4 s, s)) in
  let user := negb (cr3 =? 0) && negb (cr3 =? k) in
  let page_va := frame_of va in
  let grows := match stack_low with
               | Some low => (USTACK_LIMIT <? low) && (page_va <? low) && (USTACK_LIMIT <=? page_va)
               | None => false
               end in
  if negb (has ec 1) && user && grows then
    let* f := pmm_alloc in
    if f =? 0 then ret Panic
    else
      do* zero_table f in
      let* _ := vmm_map_page_into cr3 page_va f (Z.lor PAGE_RW PAGE_USER) in
      ret (Resume (Some page_va))
  else if (Z.land ec 3 =? 3) && user then
    let* e4 := get_entry cr3 (idx4 va) in
    if negb (has e4 PAGE_PRESENT) then ret Panic
    else
      let* e3 := get_entry (frame_of e4) (idx3 va) in
      if negb (has e3 PAGE_PRESENT) then ret Panic
      else
        let* e2 := get_entry (frame_of e3) (idx2 va) in
        if negb (has e2 PAGE_PRESENT) || has e2 PAGE_PS then ret Panic
        else cow_fault (frame_of e2) (idx1 va) stack_low
  else ret Panic.

Definition vmm_create_address_space : MV Z :=
  let* pml4 := pmm_alloc in
  if pml4 =? 0 then ret 0
  else
    do* zero_table pml4 in
    let* k := (fun s => Some (g_kernel_pml4 s, s)) in
    let* e := get_entry k PML4_PHYSMAP in
    do* set_entry pml4 PML4_PHYSMAP e in
    let* e := get_entry k PML4_KERNEL in
    do* set_entry pml4 PML4_KERNEL e in
    ret pml4.

(** ** The ELF loader (elf.c) *)

Definition va_to_phys (m : mem) (pml4 va : Z) : Z :=
  let e4 := entry m pml4 (idx4 va) in
  if Z.land e4 1 =? 0 then 0
  else
    let e3 := entry m (frame_of e4) (idx3 va) in
    if Z.land e3 1 =? 0 then 0
    else
      let e2 := entry m (frame_of e3) (idx2 va) in
      if Z.land e2 1 =? 0 then 0
      else
        let e1 := entry m (frame_of e2) (idx1 va) in
        if Z.land e1 1 =? 0 then 0
        else Z.lor (frame_of e1) (Z.land va 0xFFF).

(** Bytes of physical memory. *)
Definition rd8 (m : mem) (p : Z) : Z := Z.land (Z.shiftr (rd m (8 * (p / 8))) (8 * (p mod 8))) 255.
Definition wr8 (m : mem) (p v : Z) : mem :=
  let w := 8 * (p / 8) in
  let sh := 8 * (p mod 8) in
  wr m w (Z.lor (Z.land (rd m w) (u64 (Z.lnot (Z.shiftl 255 sh)))) (Z.shiftl v sh)).

Abbreviation PT_LOAD := 1.

(** Fields of the image; reading outside it has no result. *)
Definition field (img : list Z) (o n : Z) : option Z :=
  if (0 <=? o) && (o + n <=? Z.of_nat (length img)) then Some (le_val (slice o n img)) else None.

Record elf64_phdr := mkPhdr { p_type : Z; p_offset : Z; p_vaddr : Z; p_filesz : Z; p_memsz : Z }.

Definition phdr_at (img : list Z) (o : Z) : option elf64_phdr :=
  t ← field img o 4; off ← field img (o + 8) 8; va ← field img (o + 16) 8;
  fs ← field img (o + 32) 8; ms ← field img (o + 40) 8; Some (mkPhdr t off va fs ms).

(** Backing the pages of a segment. *)
Fixpoint map_pages (fuel : nat) (pml4 p vend : Z) : MV bool :=
  match fuel with
  | O => fun _ => None
  | S fuel =>
      if p <? vend then
        let* fr := pmm_alloc in
        if fr =? 0 then ret false
        else
          let* _ := vmm_map_page_into pml4 p fr (Z.lor PAGE_RW PAGE_USER) in
          map_pages fuel pml4 (u64 (p + 0x1000)) vend
      else ret true
  end.

(** Copying the file bytes of a segment and clearing the rest. *)
Fixpoint fill_segment (n : nat) (b pml4 : Z) (img : list Z) (ph : elf64_phdr) : MV bool :=
  match n with
  | O => ret true
  | S n =>
      let* phys := (fun s => Some (va_to_phys (v_mem s) pml4 (u64 (p_vaddr ph + b)), s)) in
      if phys =? 0 then ret false
      else
        match (if b <? p_filesz ph then field img (p_offset ph + b) 1 else Some 0) with
        | None => fun _ => None
        | Some v =>
            do* modify (fun s => set_mem (wr8 (v_mem s) phys v) s) in
            fill_segment n (b + 1) pml4 img ph
        end
  end.

Abbreviation seg_start ph := (frame_of (p_vaddr ph)).
Abbreviation seg_end ph := (frame_of (u64 (p_vaddr ph + p_memsz ph + 0xFFF))).

Fixpoint load_segments (n : nat) (o pml4 : Z) (img : list Z) (load_end : Z) : MV (option Z) :=
  match n with
  | O => ret (Some load_end)
  | S n =>
      match phdr_at img o with
      | None => fun _ => None
      | Some ph =>
          if negb (p_type ph =? PT_LOAD) then load_segments n (o + 56) pml4 img load_end
          else
            let load_end := if load_end <? seg_end ph then seg_end ph else load_end in
            let* ok := map_pages (Z.to_nat (Z.max 0 (seg_end ph - seg_start ph) / 0x1000 + 1)) pml4 (seg_start ph) (seg_end ph) in
            if negb ok then ret None
            else
              let* ok := fill_segment (Z.to_nat (p_memsz ph)) 0 pml4 img ph in
              if negb ok then ret None else load_segments n (o + 56) pml4 img load_end
      end
  end.

(** The entry point (0: error) and the initial program break. *)
Definition elf64_load_into (pml4 : Z) (img : list Z) : MV (Z * option Z) :=
  match field img 0 4, field img 4 1, field img 24 8, field img 32 8, field img 56 2 with
  | Some magic, Some class, Some e_entry, Some e_phoff, Some e_phnum =>
      if negb (magic =? 0x464C457F) then ret (0, None)
      else if negb (class =? 2) then ret (0, None)
      else
        let* r := load_segments (Z.to_nat e_phnum) e_phoff pml4 img 0 in
        match r with
        | None => ret (0, None)
        | Some load_end => ret (e_entry, Some load_end)
        end
  | _, _, _, _, _ => fun _ => None
  end.

Definition elf64_load (img : list Z) : MV Z := fun s =>
  (let* r := elf64_load_into (g_kernel_pml4 s) img in ret r.1) s.

(** ** Bytes of words *)

Lemma shiftl_255 sh n : 0 <= sh -> 0 <= n -> Z.testbit (Z.shiftl 255 sh) n = (sh <=? n) && (n <? sh + 8).
Proof.
  intros Hs Hn. rewrite Z.shiftl_spec by done. change 255 with (Z.ones 8). destruct (Z.leb_spec sh n) as [H|H]; cbn [andb].
  - rewrite Z.testbit_ones_nonneg by lia. destruct (Z.ltb_spec (n - sh) 8), (Z.ltb_spec n (sh + 8)); lia || done.
  - by rewrite Z.testbit_neg_r by lia.
Qed.

Lemma byte_bits v n : 0 <= v < 256 -> 8 <= n -> Z.testbit v n = false.
Proof.
  intros Hv Hn. destruct (Z.eq_dec v 0) as [->|]; [apply Z.bits_0|]. apply Z.bits_above_log2; [lia|].
  pose proof (Z.log2_lt_pow2 v 8). lia.
Qed.

(** Reading one byte of a word after another one, or the same, has been replaced. *)
Lemma word_byte x v sh sh' : 0 <= v < 256 -> 0 <= sh < 64 -> 0 <= sh' < 64 -> (sh mod 8 = 0) -> (sh' mod 8 = 0) ->
  Z.land (Z.shiftr (Z.lor (Z.land x (u64 (Z.lnot (Z.shiftl 255 sh)))) (Z.shiftl v sh)) sh') 255 =
  if sh' =? sh then v else Z.land (Z.shiftr x sh') 255.
Proof.
  intros Hv Hs Hs' Hm Hm'. pose proof (Z.div_mod sh 8). pose proof (Z.div_mod sh' 8). apply Z.bits_inj'. intros n Hn.
  rewrite Z.land_spec. change 255 with (Z.ones 8) at 2. rewrite Z.testbit_ones_nonneg by lia.
  rewrite Z.shiftr_spec, Z.lor_spec, Z.land_spec, testbit_u64, Z.lnot_spec, shiftl_255, Z.shiftl_spec by lia.
  destruct (Z.ltb_spec n 8) as [H8|H8]; cycle 1.
  { rewrite andb_false_r. destruct (Z.eqb_spec sh' sh); [by rewrite byte_bits|]. rewrite Z.land_spec. change 255 with (Z.ones 8).
    rewrite Z.testbit_ones_nonneg by lia. by rewrite (proj2 (Z.ltb_ge n 8)), andb_false_r by lia. }
  rewrite andb_true_r, (proj2 (Z.ltb_lt (n + sh') 64)) by lia. cbn [andb]. destruct (Z.eqb_spec sh' sh) as [->|Hne].
  - rewrite (proj2 (Z.leb_le sh (n + sh))), (proj2 (Z.ltb_lt (n + sh) (sh + 8))) by lia. cbn [andb negb]. rewrite andb_false_r. cbn [orb]. f_equal. lia.
  - rewrite Z.land_spec. change 255 with (Z.ones 8). rewrite Z.testbit_ones_nonneg, (proj2 (Z.ltb_lt n 8)), andb_true_r, Z.shiftr_spec by lia.
    destruct (Z.lt_ge_cases sh' sh).
    + rewrite (proj2 (Z.leb_gt sh (n + sh'))) by lia. cbn [andb negb]. by rewrite andb_true_r, (Z.testbit_neg_r v), orb_false_r by lia.
    + rewrite (proj2 (Z.ltb_ge (n + sh') (sh + 8))) by lia. rewrite andb_false_r. cbn [negb]. by rewrite andb_true_r, (byte_bits v), orb_false_r by lia.
Qed.

Lemma rd8_wr8 m p v q : 0 <= v < 256 -> rd8 (wr8 m p v) q = if q =? p then v else rd8 m q.
Proof.
  intros Hv. unfold rd8, wr8. pose proof (Z.div_mod p 8). pose proof (Z.div_mod q 8). pose proof (Z.mod_pos_bound p 8). pose proof (Z.mod_pos_bound q 8).
  destruct (Z.eq_dec (q / 8) (p / 8)) as [E|E].
  - rewrite E, rd_wr_eq, word_byte by (try done; try lia; rewrite Z.mul_comm; apply Z.mod_mul; lia).
    destruct (Z.eqb_spec q p) as [->|]; [by rewrite Z.eqb_refl|]. by rewrite (proj2 (Z.eqb_neq (8 * (q mod 8)) _)) by lia.
  - rewrite rd_wr_ne by lia. destruct (Z.eqb_spec q p) as [->|]; done.
Qed.

Lemma rd8_wr m a v q : a mod 8 = 0 -> q < a \/ a + 8 <= q -> rd8 (wr m a v) q = rd8 m q.
Proof.
  intros Ha Hq. unfold rd8. rewrite rd_wr_ne; [done|]. pose proof (Z.div_mod a 8). pose proof (Z.div_mod q 8). pose proof (Z.mod_pos_bound q 8). lia.
Qed.

Lemma rd_wr8 m p v w : w mod 8 <> 0 \/ p < w \/ w + 8 <= p -> rd (wr8 m p v) w = rd m w.
Proof.
  intros Hw. unfold wr8. apply rd_wr_ne. intros <-. pose proof (Z.div_mod p 8). pose proof (Z.mod_pos_bound p 8).
  destruct Hw as [Hw|Hw]; [|lia]. apply Hw. rewrite Z.mul_comm. apply Z.mod_mul. lia.
Qed.

End Vmm.
