(* ===== verification/Paging.v ===== *)
(** * Page tables: translation, mapping and copy-on-write

    The tree of tables of each address space, the invariant that keeps the
    trees apart, and what mapping a page and resolving a copy-on-write fault do
    to translations and to the contents of frames. *)
From S2P Require Import Prelude Bytes Pmm Vmm.
Import Vmm.

Module Paging.

(** ** Page-table entries *)

Lemma FRAME_MASK_eq : FRAME_MASK = Z.lnot (Z.ones 12) mod 2 ^ 64.
Proof. reflexivity. Qed.

Lemma frame_of_eq e : 0 <= e < 2 ^ 64 -> frame_of e = e - e mod 4096.
Proof. intros He. unfold frame_of, FRAME_MASK. change 0xFFF with (Z.ones 12). by rewrite land_mask by lia. Qed.

Lemma frame_of_aligned e : 0 <= e < 2 ^ 64 -> frame_of e mod 4096 = 0 /\ 0 <= frame_of e < 2 ^ 64.
Proof.
  intros He. rewrite frame_of_eq by done. pose proof (Z.div_mod e 4096). pose proof (Z.mod_pos_bound e 4096).
  split; [|lia]. replace (e - e mod 4096) with (e / 4096 * 4096) by lia. apply Z.mod_mul. lia.
Qed.

(** A frame with flag bits below the page size. *)
Lemma lor_flags f g : f mod 4096 = 0 -> 0 <= g < 4096 -> Z.lor f g = f + g.
Proof. intros. by apply (lor_low 12). Qed.

Lemma frame_of_flags f g : 0 <= f < 2 ^ 64 -> f mod 4096 = 0 -> 0 <= g < 4096 -> 0 <= f + g < 2 ^ 64 /\ frame_of (f + g) = f.
Proof.
  intros Hf Hm Hg. assert (Hr : f + g < 2 ^ 64).
  { pose proof (Z.div_mod f 4096). assert (f / 4096 < 2 ^ 52) by (apply Z.div_lt_upper_bound; lia). lia. }
  split; [lia|]. rewrite frame_of_eq by lia. rewrite (mod_add_low 12) by (done || lia). lia.
Qed.

Lemma has_bit e k : 0 <= k -> has e (2 ^ k) = Z.testbit e k.
Proof.
  intros Hk. unfold has, ctrue. rewrite <- Z.shiftl_1_l by done. rewrite land_shiftl_1 by done. by rewrite negb_involutive.
Qed.

Lemma has_present e : has e PAGE_PRESENT = Z.testbit e 0.
Proof. apply (has_bit e 0). lia. Qed.

Lemma testbit_low f g k : f mod 4096 = 0 -> 0 <= g < 4096 -> 0 <= k < 12 -> Z.testbit (f + g) k = Z.testbit g k.
Proof.
  intros Hf Hg Hk. rewrite <- (Z.mod_pow2_bits_low (f + g) 12) by lia. by rewrite (mod_add_low 12) by (done || lia).
Qed.

(** ** The tree of tables *)

Definition child (m : mem) (t i : Z) : option Z :=
  if has (entry m t i) PAGE_PRESENT then Some (frame_of (entry m t i)) else None.

Fixpoint node (m : mem) (t : Z) (p : list Z) : option Z :=
  match p with
  | [] => Some t
  | i :: p => match child m t i with Some t' => node m t' p | None => None end
  end.

Lemma node_snoc m t p i : node m t (p ++ [i]) = match node m t p with Some t' => child m t' i | None => None end.
Proof.
  revert t. induction p as [|j p IH]; intros t; simpl; [by destruct (child m t i)|].
  destruct (child m t j); [apply IH | done].
Qed.

(** Paths of tables in the user half: at most three indices, the first below 256. *)
Definition path (p : list Z) : Prop :=
  (length p <= 3)%nat /\ Forall (fun i => 0 <= i < 512) p /\ match p with i :: _ => i < 256 | [] => True end.

Lemma path_snoc p i : path (p ++ [i]) -> path p /\ 0 <= i < 512.
Proof.
  intros (Hl & Hf & Hu). rewrite length_app in Hl. simpl in Hl. apply Forall_app in Hf as [Hf Hi].
  apply Forall_cons_iff in Hi as [Hi _]. split; [|done]. split; [lia|]. split; [done|]. by destruct p.
Qed.

(** Addresses of entries determine the table and the index. *)
Lemma entry_addr_inj t t' i j : t mod 4096 = 0 -> t' mod 4096 = 0 -> 0 <= i < 512 -> 0 <= j < 512 ->
  t + 8 * i = t' + 8 * j -> t = t' /\ i = j.
Proof.
  intros Ht Ht' Hi Hj E. pose proof (Z.div_mod t 4096). pose proof (Z.div_mod t' 4096). lia.
Qed.

Lemma entry_wr_ne m t i e t' j : t mod 4096 = 0 -> t' mod 4096 = 0 -> 0 <= i < 512 -> 0 <= j < 512 ->
  (t' <> t \/ j <> i) -> entry (wr m (t + 8 * i) e) t' j = entry m t' j.
Proof.
  intros Ht Ht' Hi Hj Hne. unfold entry. apply rd_wr_ne. intros E.
  destruct (entry_addr_inj t t' i j) as [-> ->]; try done. by destruct Hne.
Qed.

Lemma rd_zero_mem t m a : t mod 4096 = 0 -> a mod 8 = 0 ->
  rd (zero_mem t m) a = if decide (t <= a < t + 4096) then 0 else rd m a.
Proof.
  intros Ht Ha. unfold zero_mem.
  pose proof (for_up_ind (fun k m' => rd m' a = if decide (t <= a < t + 8 * k) then 0 else rd m a) 0 ENTRIES
    (fun i m => wr m (t + 8 * i) 0) m) as H. cbv beta in H. change (Z.max 0 ENTRIES) with 512 in H.
  rewrite H; [done | by rewrite decide_False by lia |].
  intros i m' Hi IH. destruct (Z.eq_dec (t + 8 * i) a) as [<-|Hne].
  - rewrite rd_wr_eq. by rewrite decide_True by lia.
  - rewrite rd_wr_ne, IH by done. pose proof (Z.div_mod t 4096). pose proof (Z.div_mod a 8).
    destruct (decide (t <= a < t + 8 * i)), (decide (t <= a < t + 8 * (i + 1))); lia || done.
Qed.

Lemma entry_zero_in t m i : t mod 4096 = 0 -> 0 <= i < 512 -> entry (zero_mem t m) t i = 0.
Proof.
  intros Ht Hi. unfold entry. rewrite rd_zero_mem; [by rewrite decide_True by lia | done |].
  pose proof (Z.div_mod t 4096).
  replace (t + 8 * i) with ((512 * (t / 4096) + i) * 8) by lia. apply Z.mod_mul. lia.
Qed.

Lemma entry_zero_out t m t' i : t mod 4096 = 0 -> t' mod 4096 = 0 -> t' <> t -> 0 <= i < 512 ->
  entry (zero_mem t m) t' i = entry m t' i.
Proof.
  intros Ht Ht' Hne Hi. unfold entry. pose proof (Z.div_mod t 4096). pose proof (Z.div_mod t' 4096).
  rewrite rd_zero_mem; [by rewrite decide_False by lia | done |].
  replace (t' + 8 * i) with ((512 * (t' / 4096) + i) * 8) by lia. apply Z.mod_mul. lia.
Qed.

(** ** The invariant

    [As] holds of the roots of the address spaces; [R] is the reference map of
    the frame allocator. *)
Record tables_ok (As : Z -> Prop) (R : gmap Z Z) (m : mem) : Prop := {
  t_frame : forall r p t, As r -> path p -> node m r p = Some t ->
    t mod 4096 = 0 /\ 0 < t < 2 ^ 52 /\ is_Some (R !! (t / 4096));
  t_inj : forall r p r' p' t, As r -> As r' -> path p -> path p' ->
    node m r p = Some t -> node m r' p' = Some t -> r = r' /\ p = p';
  t_entry : forall r p t i, As r -> path p -> node m r p = Some t -> 0 <= i < 512 -> 0 <= entry m t i < 2 ^ 64
}.

(** The leaf entry of a virtual address, when it is mapped. *)
Definition leaf (m : mem) (r va : Z) : option Z :=
  match node m r [idx4 va; idx3 va; idx2 va] with
  | Some pt => if has (entry m pt (idx1 va)) PAGE_PRESENT then Some (entry m pt (idx1 va)) else None
  | None => None
  end.

Definition user_va (va : Z) : Prop := 0 <= va < 2 ^ 47.

Lemma idx_eq va k : 0 <= k -> Z.land (Z.shiftr va k) 0x1FF = (va / 2 ^ k) mod 512.
Proof. intros. change 0x1FF with (Z.ones 9). rewrite Z.land_ones, Z.shiftr_div_pow2 by lia. done. Qed.

Lemma idx_range va : 0 <= idx4 va < 512 /\ 0 <= idx3 va < 512 /\ 0 <= idx2 va < 512 /\ 0 <= idx1 va < 512.
Proof. unfold idx4, idx3, idx2, idx1. rewrite !idx_eq by lia. split_and!; apply Z.mod_pos_bound; lia. Qed.

Lemma idx4_user va : user_va va -> idx4 va < 256.
Proof.
  intros Hv. unfold idx4. rewrite idx_eq by lia. unfold user_va in Hv.
  assert (0 <= va / 2 ^ 39 < 256) by (split; [apply Z.div_pos | apply Z.div_lt_upper_bound]; lia). rewrite Z.mod_small; lia.
Qed.

Lemma va_path va k : user_va va -> path (take k [idx4 va; idx3 va; idx2 va]).
Proof.
  intros Hv. pose proof (idx_range va) as (H4 & H3 & H2 & _). pose proof (idx4_user va Hv).
  split; [rewrite length_take; simpl; lia|]. split.
  - apply Forall_take. repeat constructor; lia.
  - destruct k; [done|]. simpl. lia.
Qed.

(** ** How writes to entries change the tree *)

Lemma path_prefix p i : path (p ++ [i]) -> path p.
Proof. intros H. by apply path_snoc in H as [? _]. Qed.

Lemma child_ext m m' t i : entry m' t i = entry m t i -> child m' t i = child m t i.
Proof. intros E. unfold child. by rewrite E. Qed.

Lemma node_frame (As : Z -> Prop) m m' :
  (forall r p t i, As r -> path (p ++ [i]) -> node m r p = Some t -> child m' t i = child m t i) ->
  forall r p, As r -> path p -> node m' r p = node m r p.
Proof.
  intros Hc r p Hr. induction p as [|i p IH] using rev_ind; intros Hp; [done|].
  rewrite !node_snoc. rewrite IH by (by eapply path_prefix). destruct (node m r p) as [t|] eqn:E; [|done]. by eapply Hc.
Qed.

(** A write that keeps every child, and every leaf but one, keeps the invariant. *)
Lemma tables_ok_frame As R R' m m' : tables_ok As R m -> (forall f, is_Some (R !! f) -> is_Some (R' !! f)) ->
  (forall r p, As r -> path p -> node m' r p = node m r p) ->
  (forall r p t i, As r -> path p -> node m r p = Some t -> 0 <= i < 512 -> 0 <= entry m' t i < 2 ^ 64) -> tables_ok As R' m'.
Proof.
  intros [T1 T2 T3] HR Hn He. split.
  - intros r p t Hr Hp E. rewrite Hn in E by done. destruct (T1 r p t Hr Hp E) as (? & ? & ?). split_and!; auto; lia.
  - intros r p r' p' t Hr Hr' Hp Hp' E E'. rewrite Hn in E, E' by done. by eapply T2.
  - intros r p t i Hr Hp E Hi. rewrite Hn in E by done. by eapply He.
Qed.

(** Writing an entry of the table at [r0, p0] changes no other entry of any table. *)
Lemma entry_other As R m r0 p0 t0 i0 e r p t i : tables_ok As R m -> As r0 -> path p0 -> node m r0 p0 = Some t0 -> 0 <= i0 < 512 ->
  As r -> path p -> node m r p = Some t -> 0 <= i < 512 -> (r, p, i) <> (r0, p0, i0) ->
  entry (wr m (t0 + 8 * i0) e) t i = entry m t i.
Proof.
  intros HT Hr0 Hp0 E0 Hi0 Hr Hp E Hi Hne. destruct (t_frame _ _ _ HT r0 p0 t0 Hr0 Hp0 E0) as (A0 & _).
  destruct (t_frame _ _ _ HT r p t Hr Hp E) as (A & _). apply entry_wr_ne; try done.
  destruct (Z.eq_dec t t0) as [->|]; [|by left]. right. intros ->.
  destruct (t_inj _ _ _ HT r p r0 p0 t0) as [-> ->]; done.
Qed.

Lemma entry_same m t i e : entry (wr m (t + 8 * i) e) t i = e.
Proof. apply rd_wr_eq. Qed.

(** Changing flags of a present table entry. *)
Lemma flags_update As R m r0 p0 t0 i0 e : tables_ok As R m -> As r0 -> path (p0 ++ [i0]) -> node m r0 p0 = Some t0 ->
  0 <= e < 2 ^ 64 -> has e PAGE_PRESENT = has (entry m t0 i0) PAGE_PRESENT -> frame_of e = frame_of (entry m t0 i0) ->
  let m' := wr m (t0 + 8 * i0) e in
  tables_ok As R m' /\ (forall r p, As r -> path p -> node m' r p = node m r p) /\
  forall r va, As r -> user_va va -> leaf m' r va = leaf m r va.
Proof.
  intros HT Hr0 Hp E0 He Hpr Hfr m'. destruct (path_snoc _ _ Hp) as [Hp0 Hi0].
  assert (Hoth : forall r p t i, As r -> path p -> node m r p = Some t -> 0 <= i < 512 -> (r, p, i) <> (r0, p0, i0) -> entry m' t i = entry m t i).
  { intros. by eapply (entry_other As R m r0 p0). }
  assert (Hn : forall r p, As r -> path p -> node m' r p = node m r p).
  { apply node_frame. intros r p t i Hr Hpi E. destruct (path_snoc _ _ Hpi) as [Hp' Hi].
    destruct (decide ((r, p, i) = (r0, p0, i0))) as [[= -> -> ->]|]; [|by eapply child_ext, Hoth].
    assert (t = t0) as -> by congruence. unfold child, m'. rewrite entry_same. by rewrite Hpr, Hfr. }
  split_and!; [|done|].
  - apply (tables_ok_frame _ R _ m); [done | done | done |]. intros r p t i Hr Hp' E Hi.
    destruct (decide ((r, p, i) = (r0, p0, i0))) as [[= -> -> ->]|].
    + assert (t = t0) as -> by congruence. unfold m'. by rewrite entry_same.
    + rewrite (Hoth r p) by done. by eapply (t_entry _ _ _ HT).
  - intros r va Hr Hva. pose proof (va_path va 3 Hva) as Hp3. simpl in Hp3. pose proof (idx_range va) as (_ & _ & _ & Hi1).
    unfold leaf. rewrite Hn by done. destruct (node m r _) as [t|] eqn:E; [|done].
    rewrite (Hoth r [idx4 va; idx3 va; idx2 va] t); try done. intros [= -> Hpp _].
    destruct Hp as (Hl & _). rewrite <- Hpp in Hl. simpl in Hl. lia.
Qed.

(** Linking a new zeroed table. *)
Lemma link_update As R m r0 p0 t0 i0 f g : tables_ok As R m -> As r0 -> path (p0 ++ [i0]) -> node m r0 p0 = Some t0 ->
  has (entry m t0 i0) PAGE_PRESENT = false -> f mod 4096 = 0 -> 0 < f < 2 ^ 52 -> R !! (f / 4096) = None ->
  0 <= g < 4096 -> Z.testbit g 0 = true ->
  let m' := wr (zero_mem f m) (t0 + 8 * i0) (f + g) in
  tables_ok As (<[f / 4096 := 1]> R) m' /\ node m' r0 (p0 ++ [i0]) = Some f /\
  (forall r va, As r -> user_va va -> leaf m' r va = leaf m r va) /\
  (forall r p t, As r -> path p -> node m' r p = Some t -> t = f \/ node m r p = Some t).
Proof.
  intros HT Hr0 Hp E0 Hnp Hf Hfr HRf Hg Hg0 m'. destruct (path_snoc _ _ Hp) as [Hp0 Hi0].
  destruct (t_frame _ _ _ HT r0 p0 t0 Hr0 Hp0 E0) as (A0 & F0 & R0).
  assert (Hnf : forall r p t, As r -> path p -> node m r p = Some t -> t <> f).
  { intros r p t Hr Hp' E ->. destruct (t_frame _ _ _ HT r p f Hr Hp' E) as (_ & _ & [x Hx]). congruence. }
  assert (Hoth : forall r p t i, As r -> path p -> node m r p = Some t -> 0 <= i < 512 -> (r, p, i) <> (r0, p0, i0) -> entry m' t i = entry m t i).
  { intros r p t i Hr Hp' E Hi Hne. destruct (t_frame _ _ _ HT r p t Hr Hp' E) as (A & _). unfold m'.
    rewrite entry_wr_ne; try done; [by apply entry_zero_out; [done | done | by eapply Hnf | done]|].
    destruct (Z.eq_dec t t0) as [->|]; [|by left]. right. intros ->. destruct (t_inj _ _ _ HT r p r0 p0 t0) as [-> ->]; done. }
  assert (Hz : forall i, 0 <= i < 512 -> entry m' f i = 0).
  { intros i Hi. unfold m'. rewrite entry_wr_ne; try done; [by apply entry_zero_in|]. left. intros ->. by apply (Hnf r0 p0 t0). }
  assert (Hsame : entry m' t0 i0 = f + g) by apply entry_same. clearbody m'.
  assert (Hnew : child m' t0 i0 = Some f).
  { destruct (frame_of_flags f g ltac:(lia) Hf Hg) as [_ Ef]. unfold child. rewrite Hsame, has_present.
    by rewrite (testbit_low f g 0 Hf Hg ltac:(lia)), Hg0, Ef. }
  assert (Hold : node m r0 (p0 ++ [i0]) = None) by (rewrite node_snoc, E0; unfold child; by rewrite Hnp).
  assert (Hn : forall r p, As r -> path p -> node m' r p = if decide (r = r0 /\ p = p0 ++ [i0]) then Some f else node m r p).
  { intros r p Hr. induction p as [|j p IH] using rev_ind; intros Hpp.
    { rewrite decide_False; [done|]. intros [_ E]. by destruct p0. }
    destruct (path_snoc _ _ Hpp) as [Hp' Hj]. rewrite !node_snoc, (IH Hp').
    destruct (decide (r = r0 /\ p = p0 ++ [i0])) as [[-> ->]|Hne].
    - rewrite Hold. unfold child. rewrite Hz by done. rewrite decide_False; [done|].
      intros [_ E]. apply (f_equal length) in E. rewrite !length_app in E. simpl in E. lia.
    - destruct (node m r p) as [t|] eqn:E.
      + destruct (decide ((r, p, j) = (r0, p0, i0))) as [[= -> -> ->]|Hx].
        * assert (t = t0) as -> by congruence. by rewrite decide_True.
        * rewrite decide_False by (intros [-> [-> [= ->]]%app_inj_2]; done). apply child_ext. by eapply Hoth.
      + rewrite decide_False; [done|]. intros [-> [-> _]%app_inj_2]; [congruence | done]. }
  split_and!.
  - split.
    + intros r p t Hr Hpp. rewrite Hn by done. destruct (decide _) as [_|_].
      * intros [= <-]. split_and!; [done | lia | lia |]. rewrite lookup_insert_eq. by eexists.
      * intros E. destruct (t_frame _ _ _ HT r p t Hr Hpp E) as (? & ? & ?). split_and!; [done | lia | lia | by apply lookup_insert_is_Some'; right].
    + intros r p r' p' t Hr Hr' Hpp Hpp'. rewrite !Hn by done.
      destruct (decide (r = r0 /\ p = p0 ++ [i0])) as [[-> ->]|], (decide (r' = r0 /\ p' = p0 ++ [i0])) as [[-> ->]|].
      * done.
      * intros [= <-] E. by apply Hnf in E.
      * intros E [= <-]. by apply Hnf in E.
      * by apply (t_inj _ _ _ HT).
    + intros r p t i Hr Hpp. rewrite Hn by done. destruct (decide _) as [_|_].
      * intros [= <-] Hi. rewrite Hz by done. lia.
      * intros E Hi. destruct (decide ((r, p, i) = (r0, p0, i0))) as [[= -> -> ->]|].
        -- assert (t = t0) as -> by congruence. rewrite Hsame. apply (frame_of_flags f g); [lia | done | done].
        -- rewrite (Hoth r p) by done. by eapply (t_entry _ _ _ HT).
  - rewrite Hn by done. by rewrite decide_True.
  - intros r va Hr Hva. pose proof (va_path va 3 Hva) as Hp3. simpl in Hp3. pose proof (idx_range va) as (_ & _ & _ & Hi1).
    unfold leaf. rewrite Hn by done. destruct (decide _) as [[-> Ep]|_].
    + rewrite Ep, Hold, Hz by done. done.
    + destruct (node m r _) as [t|] eqn:E; [|done]. rewrite (Hoth r [idx4 va; idx3 va; idx2 va] t); try done.
      intros [= -> Hpp _]. destruct Hp as (Hl & _). rewrite <- Hpp in Hl. simpl in Hl. lia.
  - intros r p t Hr Hpp. rewrite Hn by done. destruct (decide _) as [_|_]; [intros [= <-]; by left | by right].
Qed.

(** ** Mapping a page *)

Section Map.
Context (As : Z -> Prop) (n : Z).

Record vm_ok (R : gmap Z Z) (s : vmm) : Prop := {
  vm_tables : tables_ok As R (v_mem s);
  vm_frames : Pmm.refines n (v_pmm s) R
}.

(** No frame is left. *)
Definition exhausted (R : gmap Z Z) : Prop := forall f, 0 <= f < n -> Pmm.reserved f = true \/ is_Some (R !! f).

Lemma pmm_alloc_runs m p k on R (Q : Z -> vmm -> Prop) : Pmm.refines n p R ->
  (forall p', exhausted R -> Pmm.refines n p' R -> Q 0 (mkVmm m p' k on)) ->
  (forall f p', 0 < f < 2 ^ 20 -> R !! f = None -> Pmm.refines n p' (<[f := 1]> R) -> Q (f * 4096) (mkVmm m p' k on)) ->
  runs pmm_alloc (mkVmm m p k on) Q.
Proof.
  intros HR H0 H1. destruct (Pmm.refines_alloc n p R HR) as (R' & Hs & HR').
  unfold runs, pmm_alloc. cbn [v_pmm]. destruct (Pmm.pmm_alloc_frame p) as [a p'] eqn:E. simpl in Hs, HR'.
  unfold set_pmm. cbn [v_mem v_pmm g_kernel_pml4 g_physmap_on].
  pose proof (Pmm.ref_ok _ _ _ HR) as Hok. pose proof (Pmm.ok_nframes _ Hok) as Hn. rewrite (Pmm.ref_n _ _ _ HR) in Hn.
  inversion Hs as [R0 f Hf Hres HRf|R0 Hall| | |]; subst.
  - apply H1; [|done|done]. unfold Pmm.MAX_FRAMES in Hn. destruct (Z.eq_dec f 0) as [->|]; [by rewrite Pmm.reserved_0 in Hres | lia].
  - by apply H0.
Qed.

(** A frame in use that holds no table, and what leaves all of these alone. *)
Definition data (R : gmap Z Z) (m : mem) (g : Z) : Prop :=
  is_Some (R !! g) /\ forall r p, As r -> path p -> node m r p <> Some (g * 4096).
Definition keeps_data (R : gmap Z Z) (m : mem) (R' : gmap Z Z) (m' : mem) : Prop := forall g, data R m g ->
  data R' m' g /\ forall o, 0 <= o < 512 -> rd m' (g * 4096 + 8 * o) = rd m (g * 4096 + 8 * o).

Lemma keeps_data_refl R m : keeps_data R m R m.
Proof. intros g Hg. by split. Qed.

Lemma keeps_data_trans R1 m1 R2 m2 R3 m3 : keeps_data R1 m1 R2 m2 -> keeps_data R2 m2 R3 m3 -> keeps_data R1 m1 R3 m3.
Proof.
  intros H1 H2 g Hg. destruct (H1 g Hg) as [D2 E2]. destruct (H2 g D2) as [D3 E3]. split; [done|].
  intros o Ho. by rewrite E3, E2.
Qed.

(** Writing an entry of a table. *)
Lemma table_write_keeps R m r0 p0 t i e : tables_ok As R m -> As r0 -> path p0 -> node m r0 p0 = Some t -> 0 <= i < 512 ->
  (forall r p, As r -> path p -> node (wr m (t + 8 * i) e) r p = node m r p) -> keeps_data R m R (wr m (t + 8 * i) e).
Proof.
  intros HT Hr Hp E Hi Hn g [Hg Hnd]. destruct (t_frame _ _ _ HT r0 p0 t Hr Hp E) as (A & _). split.
  - split; [done|]. intros r p Hr' Hp'. rewrite Hn by done. by apply Hnd.
  - intros o Ho. apply rd_wr_ne. intros Ha. apply (Hnd r0 p0 Hr Hp). rewrite E. f_equal.
    pose proof (Z.div_mod t 4096). lia.
Qed.

(** Linking a fresh zeroed table. *)
Lemma link_keeps R m r0 p0 t i f e : tables_ok As R m -> As r0 -> path p0 -> node m r0 p0 = Some t -> 0 <= i < 512 ->
  f mod 4096 = 0 -> R !! (f / 4096) = None -> let m' := wr (zero_mem f m) (t + 8 * i) e in
  (forall r p u, As r -> path p -> node m' r p = Some u -> u = f \/ node m r p = Some u) ->
  keeps_data R m (<[f / 4096 := 1]> R) m'.
Proof.
  intros HT Hr Hp E Hi Hf HRf m' Hn g [Hg Hnd]. destruct (t_frame _ _ _ HT r0 p0 t Hr Hp E) as (A & _).
  assert (Hgf : g * 4096 <> f) by (intros <-; rewrite Z.div_mul in HRf by lia; destruct Hg; congruence). split.
  - split; [apply lookup_insert_is_Some'; by right|]. intros r p Hr' Hp' E'. destruct (Hn r p _ Hr' Hp' E') as [?|E2]; [done | by apply (Hnd r p)].
  - intros o Ho. unfold m'. rewrite rd_wr_ne.
    + change (rd m (g * 4096 + 8 * o)) with (entry m (g * 4096) o). apply entry_zero_out; [done | by apply Z.mod_mul | done | done].
    + intros Ha. apply (Hnd r0 p0 Hr Hp). rewrite E. f_equal. pose proof (Z.div_mod t 4096). lia.
Qed.

Definition leaves_same (m m' : mem) : Prop := forall r va, As r -> user_va va -> leaf m' r va = leaf m r va.

Lemma frame_aligned f : 0 < f < 2 ^ 20 -> (f * 4096) mod 4096 = 0 /\ 0 < f * 4096 < 2 ^ 52 /\ f * 4096 / 4096 = f.
Proof. intros H. split_and!; [by rewrite Z.mod_mul | lia | lia | by rewrite Z.div_mul]. Qed.

Lemma user_flag flags : Z.land flags PAGE_USER = 0 \/ Z.land flags PAGE_USER = 4.
Proof.
  unfold PAGE_USER. change 4 with (Z.shiftl 1 2). destruct (Z.testbit flags 2) eqn:E.
  - right. apply Z.bits_inj'. intros j Hj. rewrite Z.land_spec, testbit_1_shiftl by lia. destruct (Z.eqb_spec j 2) as [->|]; [by rewrite E|]. apply andb_false_r.
  - left. apply Z.bits_inj'. intros j Hj. rewrite Z.land_spec, testbit_1_shiftl, Z.testbit_0_l by lia. destruct (Z.eqb_spec j 2) as [->|]; [by rewrite E|]. apply andb_false_r.
Qed.

(** Setting the user bit of an entry keeps its frame and its other flags. *)
Lemma lor_user e u : u = 0 \/ u = 4 -> 0 <= e < 2 ^ 64 ->
  0 <= Z.lor e u < 2 ^ 64 /\ has (Z.lor e u) PAGE_PRESENT = has e PAGE_PRESENT /\ frame_of (Z.lor e u) = frame_of e.
Proof.
  intros Hu He. pose proof (Z.div_mod e 4096) as Hd. pose proof (Z.mod_pos_bound e 4096) as Hm. destruct (frame_of_aligned e He) as [Fa Fr].
  assert (He' : e = frame_of e + e mod 4096) by (rewrite frame_of_eq by done; lia).
  assert (Hlow : 0 <= Z.lor (e mod 4096) u < 4096).
  { split; [apply Z.lor_nonneg; lia|]. destruct (Z.eq_dec (Z.lor (e mod 4096) u) 0) as [->|]; [lia|].
    apply (Z.log2_lt_pow2 _ 12); [pose proof (proj2 (Z.lor_nonneg (e mod 4096) u) ltac:(lia)); lia|].
    rewrite Z.log2_lor by lia. apply Z.max_lub_lt; [destruct (Z.eq_dec (e mod 4096) 0) as [->|]; [simpl; lia | apply Z.log2_lt_pow2; lia] | destruct Hu as [-> | ->]; simpl; lia]. }
  assert (E : Z.lor e u = frame_of e + Z.lor (e mod 4096) u).
  { rewrite He' at 1. rewrite <- (lor_flags (frame_of e) (e mod 4096)), <- Z.lor_assoc by (done || lia). by apply lor_flags. }
  destruct (frame_of_flags (frame_of e) (Z.lor (e mod 4096) u) Fr Fa Hlow) as [R1 R2]. rewrite E. split_and!; [lia | lia | | done].
  rewrite !has_present, testbit_low by (done || lia). rewrite Z.lor_spec. rewrite He' at 2. rewrite testbit_low by (done || lia).
  destruct Hu as [-> | ->]; apply orb_false_r.
Qed.

Lemma next_table_runs m p k on R r0 p0 t i u (Q : option Z -> vmm -> Prop) : vm_ok R (mkVmm m p k on) ->
  As r0 -> path (p0 ++ [i]) -> node m r0 p0 = Some t -> (u = 0 \/ u = 4) ->
  (forall s', exhausted R -> vm_ok R s' -> v_mem s' = m -> Q None s') ->
  (forall t' m' p' R', vm_ok R' (mkVmm m' p' k on) -> node m' r0 (p0 ++ [i]) = Some t' -> leaves_same m m' -> keeps_data R m R' m' ->
     (forall f, is_Some (R !! f) -> is_Some (R' !! f)) -> Q (Some t') (mkVmm m' p' k on)) ->
  runs (next_table t i u) (mkVmm m p k on) Q.
Proof.
  intros [HT HR] Hr0 Hp E0 Hu Hno Hyes. cbn [v_mem v_pmm] in *. destruct (path_snoc _ _ Hp) as [Hp0 Hi].
  pose proof (t_entry _ _ _ HT r0 p0 t i Hr0 Hp0 E0 Hi) as He.
  unfold next_table. apply runs_bind. unfold get_entry at 1, runs at 1. cbn [v_mem].
  destruct (has (entry m t i) PAGE_PRESENT) eqn:Epr; cbn [negb].
  - destruct (lor_user (entry m t i) u Hu He) as (He' & Hpr' & Hfr').
    destruct (flags_update As R m r0 p0 t i (Z.lor (entry m t i) u) HT Hr0 Hp E0 He' Hpr' Hfr') as (HT' & Hn' & Hl').
    apply runs_bind. unfold set_entry, modify, runs at 1, set_mem. cbn [v_mem v_pmm g_kernel_pml4 g_physmap_on].
    apply runs_bind. unfold get_entry, runs at 1. cbn [v_mem]. apply runs_ret. rewrite entry_same, Hfr'.
    apply (Hyes _ _ p R); [by split | | done | by apply (table_write_keeps R m r0 p0) | done].
    rewrite Hn', node_snoc, E0 by done. unfold child. by rewrite Epr.
  - apply runs_bind. apply (pmm_alloc_runs m p k on R); [done | |].
    + intros p' Hex HR'. apply runs_ret. apply Hno; [done | by split | done].
    + intros f p' Hf HRf HR'. destruct (frame_aligned f Hf) as (Ha & Hr & Hd). rewrite (proj2 (Z.eqb_neq (f * 4096) 0)) by lia.
      assert (Hg : Z.lor (Z.lor (Z.lor (f * 4096) PAGE_PRESENT) PAGE_RW) u = f * 4096 + (3 + u)).
      { rewrite <- !Z.lor_assoc. rewrite lor_flags; [|done | by destruct Hu as [-> | ->]; split; vm_compute]. f_equal. by destruct Hu as [-> | ->]. }
      destruct (link_update As R m r0 p0 t i (f * 4096) (3 + u) HT Hr0 Hp E0 Epr Ha Hr) as (HT' & Hn' & Hl' & Hnn);
        [by rewrite Hd | destruct Hu; lia | by destruct Hu as [-> | ->] |].
      apply runs_bind. unfold zero_table at 1, modify, runs at 1, set_mem. cbn [v_mem v_pmm g_kernel_pml4 g_physmap_on].
      apply runs_bind. unfold set_entry, modify, runs at 1, set_mem. cbn [v_mem v_pmm g_kernel_pml4 g_physmap_on].
      apply runs_bind. unfold get_entry, runs at 1. cbn [v_mem]. apply runs_ret. rewrite entry_same, Hg.
      destruct (frame_of_flags (f * 4096) (3 + u) ltac:(lia) Ha ltac:(destruct Hu; lia)) as [_ ->].
      pose proof (link_keeps R m r0 p0 t i (f * 4096) _ HT Hr0 Hp0 E0 Hi Ha ltac:(by rewrite Hd) Hnn) as Hkd. rewrite Hd in HT', Hkd.
      apply (Hyes _ _ p' (<[f := 1]> R)); [by split | done | done | done |].
      intros g Hg'. apply lookup_insert_is_Some'. by right.
Qed.

(** The entry a mapping writes. *)
Definition leaf_entry (pa flags : Z) : Z := Z.lor (Z.lor (frame_of pa) (Z.land flags 0xFFF)) PAGE_PRESENT.

Lemma leaf_entry_ok pa flags : 0 <= pa < 2 ^ 64 -> 0 <= flags ->
  0 <= leaf_entry pa flags < 2 ^ 64 /\ has (leaf_entry pa flags) PAGE_PRESENT = true /\ frame_of (leaf_entry pa flags) = frame_of pa.
Proof.
  intros Hp Hf. destruct (frame_of_aligned pa Hp) as [Fa Fr]. unfold leaf_entry. rewrite <- Z.lor_assoc.
  assert (Hlow : 0 <= Z.land flags 0xFFF < 4096) by (change 0xFFF with (Z.ones 12); rewrite Z.land_ones by lia; apply Z.mod_pos_bound; lia).
  assert (Hg : 0 <= Z.lor (Z.land flags 0xFFF) PAGE_PRESENT < 4096 /\ Z.testbit (Z.lor (Z.land flags 0xFFF) PAGE_PRESENT) 0 = true).
  { split; [|rewrite Z.lor_spec; apply orb_true_r]. split; [apply Z.lor_nonneg; unfold PAGE_PRESENT; lia|].
    apply (Z.log2_lt_pow2 _ 12).
    - pose proof (proj2 (Z.lor_nonneg (Z.land flags 0xFFF) PAGE_PRESENT) ltac:(unfold PAGE_PRESENT; lia)).
      destruct (Z.eq_dec (Z.lor (Z.land flags 0xFFF) PAGE_PRESENT) 0) as [E|]; [|lia].
      apply Z.lor_eq_0_iff in E as [_ E]. done.
    - rewrite Z.log2_lor by (unfold PAGE_PRESENT; lia). apply Z.max_lub_lt; [|simpl; lia].
      destruct (Z.eq_dec (Z.land flags 0xFFF) 0) as [->|]; [simpl; lia | apply Z.log2_lt_pow2; lia]. }
  destruct Hg as [Hg Hg0]. rewrite lor_flags by (done || lia). destruct (frame_of_flags (frame_of pa) _ Fr Fa Hg) as [R1 R2].
  split_and!; [lia | lia | | done]. rewrite has_present, testbit_low by (done || lia). done.
Qed.

(** Two addresses of the same page have the same four indices. *)
Definition same_page (va va' : Z) : Prop := idx4 va = idx4 va' /\ idx3 va = idx3 va' /\ idx2 va = idx2 va' /\ idx1 va = idx1 va'.

(** Writing the leaf entry of a page. *)
(** Every page but that of [va] in [r0] translates as before. *)
Definition others_same (m m' : mem) (r0 va : Z) : Prop :=
  forall r va', As r -> user_va va' -> r <> r0 \/ ~ same_page va va' -> leaf m' r va' = leaf m r va'.

Lemma leaf_update R m r0 va pt e : tables_ok As R m -> As r0 -> user_va va ->
  node m r0 [idx4 va; idx3 va; idx2 va] = Some pt -> 0 <= e < 2 ^ 64 -> has e PAGE_PRESENT = true ->
  let m' := wr m (pt + 8 * idx1 va) e in
  tables_ok As R m' /\ leaf m' r0 va = Some e /\
  (forall r p, As r -> path p -> node m' r p = node m r p) /\
  others_same m m' r0 va.
Proof.
  intros HT Hr0 Hva E0 He Hpr m'. pose proof (va_path va 3 Hva) as Hp. simpl in Hp. pose proof (idx_range va) as (_ & _ & _ & Hi).
  assert (Hoth : forall r p t i, As r -> path p -> node m r p = Some t -> 0 <= i < 512 ->
            (r, p, i) <> (r0, [idx4 va; idx3 va; idx2 va], idx1 va) -> entry m' t i = entry m t i).
  { intros. by eapply (entry_other As R m r0 [idx4 va; idx3 va; idx2 va]). }
  assert (Hn : forall r p, As r -> path p -> node m' r p = node m r p).
  { apply node_frame. intros r p t i Hr Hpi E. destruct (path_snoc _ _ Hpi) as [Hp' Hi']. eapply child_ext, Hoth; try done.
    intros [= -> -> ->]. destruct Hpi as (Hl & _). simpl in Hl. lia. }
  split_and!; [| | done |].
  - apply (tables_ok_frame _ R _ m); [done | done | done |]. intros r p t i Hr Hp' E Hi'.
    destruct (decide ((r, p, i) = (r0, [idx4 va; idx3 va; idx2 va], idx1 va))) as [[= -> -> ->]|].
    + assert (t = pt) as -> by congruence. unfold m'. by rewrite entry_same.
    + rewrite (Hoth r p) by done. by eapply (t_entry _ _ _ HT).
  - unfold leaf. rewrite Hn, E0 by done. unfold m'. rewrite entry_same, Hpr. done.
  - intros r va' Hr Hva' Hne. pose proof (va_path va' 3 Hva') as Hp'. simpl in Hp'. pose proof (idx_range va') as (_ & _ & _ & Hi').
    unfold leaf. rewrite Hn by done. destruct (node m r _) as [t|] eqn:E; [|done].
    rewrite (Hoth r [idx4 va'; idx3 va'; idx2 va'] t); try done. intros [= -> E4 E3 E2 E1].
    destruct Hne as [?|Hne]; [done|]. apply Hne. unfold same_page. by rewrite E4, E3, E2, E1.
Qed.

Lemma map_page_runs R s r0 va pa flags : vm_ok R s -> As r0 -> user_va va -> 0 <= pa < 2 ^ 64 -> 0 <= flags ->
  runs (vmm_map_page_into r0 va pa flags) s (fun res s' =>
    exists R', vm_ok R' s' /\ (forall f, is_Some (R !! f) -> is_Some (R' !! f)) /\ keeps_data R (v_mem s) R' (v_mem s') /\
      ((res = 0 /\ leaf (v_mem s') r0 va = Some (leaf_entry pa flags) /\
        others_same (v_mem s) (v_mem s') r0 va) \/
       (res = -1 /\ exhausted R' /\ leaves_same (v_mem s) (v_mem s')))).
Proof.
  intros Hv Hr0 Hva Hpa Hfl. destruct s as [m p k on]. pose proof (va_path va 1 Hva) as P1. pose proof (va_path va 2 Hva) as P2.
  pose proof (va_path va 3 Hva) as P3. simpl in P1, P2, P3. pose proof (user_flag flags) as Hu.
  unfold vmm_map_page_into. apply runs_bind. apply (next_table_runs m p k on R r0 [] r0 (idx4 va)); [done | done | done | done | done | |].
  { intros s' Hex Hv' Em. apply runs_ret. exists R. cbn [v_mem]. rewrite Em. split_and!; [done | done | apply keeps_data_refl | by right]. }
  intros t1 m1 p1 R1 Hv1 N1 L1 K1 S1. apply runs_bind.
  apply (next_table_runs m1 p1 k on R1 r0 [idx4 va] t1 (idx3 va)); [done | done | done | done | done | |].
  { intros s' Hex Hv' Em. apply runs_ret. exists R1. cbn [v_mem]. rewrite Em. split_and!; [done | done | done | by right]. }
  intros t2 m2 p2 R2 Hv2 N2 L2 K2 S2. apply runs_bind. pose proof (keeps_data_trans _ _ _ _ _ _ K1 K2) as K12.
  apply (next_table_runs m2 p2 k on R2 r0 [idx4 va; idx3 va] t2 (idx2 va)); [done | done | done | done | done | |].
  { intros s' Hex Hv' Em. apply runs_ret. exists R2. cbn [v_mem]. rewrite Em. split_and!; [done | by eauto | done |]. right. split_and!; [done | done |].
    intros r va' Hr Hva'. rewrite L2, L1 by done. done. }
  intros t3 m3 p3 R3 [HT3 HR3] N3 L3 K3 S3. cbn [v_mem v_pmm] in *.
  destruct (leaf_entry_ok pa flags Hpa Hfl) as (He & Hpr & _).
  destruct (leaf_update R3 m3 r0 va t3 (leaf_entry pa flags) HT3 Hr0 Hva N3 He Hpr) as (HT4 & HL4 & HN4 & HO4).
  pose proof (table_write_keeps R3 m3 r0 [idx4 va; idx3 va; idx2 va] t3 (idx1 va) _ HT3 Hr0 P3 N3 ltac:(apply idx_range) HN4) as K4.
  apply runs_bind. unfold set_entry, modify, runs at 1, set_mem. cbn [v_mem v_pmm g_kernel_pml4 g_physmap_on]. apply runs_ret.
  exists R3. split_and!; [by split | by eauto | by eapply keeps_data_trans; [exact K12 | eapply keeps_data_trans] |]. left. split_and!; [done | done |].
  intros r va' Hr Hva' Hne. cbn [v_mem]. rewrite HO4, L3, L2, L1 by done. done.
Qed.

(** C15: [vmm_map_page_into] maps exactly the page it is asked to.  On address
    spaces whose tables do not overlap, it either returns 0, after which the
    page translates to the given frame and flags and every other page of every
    address space translates as before, or it returns -1 with no translation
    changed, and only when no frame is left; the tables stay apart, and the
    contents of the frames that are not tables do not change. *)
Theorem map_page_translates R s r0 va pa flags : vm_ok R s -> As r0 -> user_va va -> 0 <= pa < 2 ^ 64 -> 0 <= flags ->
  runs (vmm_map_page_into r0 va pa flags) s (fun res s' =>
    exists R', vm_ok R' s' /\ (forall f, is_Some (R !! f) -> is_Some (R' !! f)) /\ keeps_data R (v_mem s) R' (v_mem s') /\
      ((res = 0 /\ leaf (v_mem s') r0 va = Some (leaf_entry pa flags) /\
        others_same (v_mem s) (v_mem s') r0 va) \/
       (res = -1 /\ exhausted R' /\ leaves_same (v_mem s) (v_mem s')))).
Proof. apply map_page_runs. Qed.

(** ** Copy-on-write faults *)

Lemma rd_copy_mem d f m a : d mod 4096 = 0 -> f mod 4096 = 0 -> d <> f -> a mod 8 = 0 ->
  rd (copy_mem d f m) a = if decide (d <= a < d + 4096) then rd m (f + (a - d)) else rd m a.
Proof.
  intros Hd Hf Hne Ha. unfold copy_mem. pose proof (Z.div_mod d 4096). pose proof (Z.div_mod f 4096). pose proof (Z.div_mod a 8).
  pose proof (for_up_ind (fun k m' => forall a, a mod 8 = 0 -> rd m' a = if decide (d <= a < d + 8 * k) then rd m (f + (a - d)) else rd m a) 0 ENTRIES
    (fun i m => wr m (d + 8 * i) (rd m (f + 8 * i))) m) as H'. cbv beta in H'. change (Z.max 0 ENTRIES) with 512 in H'.
  rewrite H'; [done | | | done]; clear H'.
  - intros b Hb. by rewrite decide_False by lia.
  - intros i m' Hi IH b Hb. change ENTRIES with 512 in Hi. pose proof (Z.div_mod b 8). destruct (Z.eq_dec (d + 8 * i) b) as [<-|Hnb].
    + rewrite rd_wr_eq, IH.
      * rewrite decide_False by lia. rewrite decide_True by lia. f_equal. lia.
      * replace (f + 8 * i) with ((512 * (f / 4096) + i) * 8) by lia. apply Z.mod_mul. lia.
    + rewrite rd_wr_ne, IH by done. destruct (decide (d <= b < d + 8 * i)), (decide (d <= b < d + 8 * (i + 1))); lia || done.
Qed.

Lemma entry_mod8 t i : t mod 4096 = 0 -> (t + 8 * i) mod 8 = 0.
Proof. intros Ht. pose proof (Z.div_mod t 4096). replace (t + 8 * i) with ((512 * (t / 4096) + i) * 8) by lia. apply Z.mod_mul. lia. Qed.

Lemma entry_copy d f m t i : d mod 4096 = 0 -> f mod 4096 = 0 -> d <> f -> t mod 4096 = 0 -> 0 <= i < 512 ->
  entry (copy_mem d f m) t i = if decide (t = d) then entry m f i else entry m t i.
Proof.
  intros Hd Hf Hne Ht Hi. unfold entry. rewrite rd_copy_mem by (done || by apply entry_mod8).
  pose proof (Z.div_mod d 4096). pose proof (Z.div_mod t 4096). destruct (decide (t = d)) as [->|].
  - rewrite decide_True by lia. f_equal. lia.
  - by rewrite decide_False by lia.
Qed.

(** Writing to a frame that is not a table. *)
Lemma data_frame_ok R R' m m' : tables_ok As R m -> (forall f, is_Some (R !! f) -> is_Some (R' !! f)) ->
  (forall r p t i, As r -> path p -> node m r p = Some t -> 0 <= i < 512 -> entry m' t i = entry m t i) ->
  tables_ok As R' m' /\ (forall r p, As r -> path p -> node m' r p = node m r p) /\ leaves_same m m'.
Proof.
  intros HT HR He.
  assert (Hn : forall r p, As r -> path p -> node m' r p = node m r p).
  { apply node_frame. intros r p t i Hr Hp E. destruct (path_snoc _ _ Hp) as [Hp' Hi]. eapply child_ext, He; done. }
  split_and!; [|done|].
  - apply (tables_ok_frame _ R _ m); [done | done | done |]. intros r p t i Hr Hp E Hi. erewrite He by done. by eapply (t_entry _ _ _ HT).
  - intros r va Hr Hva. pose proof (va_path va 3 Hva) as Hp. simpl in Hp. pose proof (idx_range va) as (_ & _ & _ & Hi).
    unfold leaf. rewrite Hn by done. destruct (node m r _) as [t|] eqn:E; [|done]. by erewrite He by done.
Qed.

(** The flags of a page after its copy-on-write fault. *)
Definition cow_flags (pte : Z) : Z := Z.lor (Z.land (Z.land pte 0xFFF) (Z.lnot PAGE_COW)) PAGE_RW.

Lemma testbit_cow_flags pte k : 0 <= k -> Z.testbit (cow_flags pte) k = (Z.testbit pte k && (k <? 12) && negb (k =? 9)) || (k =? 1).
Proof.
  intros Hk. unfold cow_flags. rewrite Z.lor_spec, !Z.land_spec, Z.lnot_spec by done.
  change PAGE_COW with (Z.shiftl 1 9). change PAGE_RW with (Z.shiftl 1 1). change 0xFFF with (Z.ones 12).
  rewrite !testbit_1_shiftl by lia. f_equal. f_equal. f_equal. destruct (Z.ltb_spec k 12).
  - by rewrite Z.ones_spec_low by lia.
  - by rewrite Z.ones_spec_high by lia.
Qed.

Lemma cow_flags_range pte : 0 <= pte -> 0 <= cow_flags pte < 4096.
Proof.
  intros Hp. assert (0 <= cow_flags pte).
  { unfold cow_flags. apply Z.lor_nonneg. split; [|done]. apply Z.land_nonneg. left. apply Z.land_nonneg. by left. }
  split; [done|]. destruct (Z.eq_dec (cow_flags pte) 0) as [->|]; [lia|]. apply (Z.log2_lt_pow2 _ 12); [lia|].
  destruct (Z.lt_ge_cases (Z.log2 (cow_flags pte)) 12) as [|Hge]; [done|]. exfalso.
  pose proof (Z.bit_log2 (cow_flags pte) ltac:(lia)) as Hb. rewrite testbit_cow_flags in Hb by lia.
  rewrite (proj2 (Z.ltb_ge _ 12)), (proj2 (Z.eqb_neq _ 1)) in Hb by lia. by rewrite andb_false_r in Hb.
Qed.

(** What a copy-on-write fault on a page of frame [f] leaves behind. *)
Inductive cow_outcome (R : gmap Z Z) (m : mem) (r0 va pte k : Z) (low : option Z) : fault_result -> gmap Z Z -> mem -> Prop :=
| cow_sole m' : k = 1 ->
    leaf m' r0 va = Some (frame_of pte + cow_flags pte) ->
    (forall t i, t mod 4096 = 0 -> 0 <= i < 512 -> (forall r p, As r -> path p -> node m r p <> Some t) -> entry m' t i = entry m t i) ->
    cow_outcome R m r0 va pte k low (Resume low) R m'
| cow_copied g m' : 1 < k -> R !! (g / 4096) = None -> g mod 4096 = 0 ->
    leaf m' r0 va = Some (g + cow_flags pte) ->
    (forall i, 0 <= i < 512 -> entry m' g i = entry m (frame_of pte) i) ->
    (forall t i, t mod 4096 = 0 -> t <> g -> 0 <= i < 512 -> (forall r p, As r -> path p -> node m r p <> Some t) -> entry m' t i = entry m t i) ->
    cow_outcome R m r0 va pte k low (Resume low) (<[g / 4096 := 1]> (<[frame_of pte / 4096 := k - 1]> R)) m'
| cow_oom : 1 < k -> exhausted R -> cow_outcome R m r0 va pte k low Panic R m.

Lemma cow_entry pte f : 0 <= pte -> f mod 4096 = 0 ->
  Z.lor (Z.lor f (Z.land (Z.land pte 0xFFF) (Z.lnot PAGE_COW))) PAGE_RW = f + cow_flags pte.
Proof. intros Hp Hf. rewrite <- Z.lor_assoc. fold (cow_flags pte). apply lor_flags; [done | by apply cow_flags_range]. Qed.

Lemma cow_entry_ok pte f : 0 <= pte -> has pte PAGE_PRESENT = true -> f mod 4096 = 0 -> 0 <= f < 2 ^ 64 ->
  0 <= f + cow_flags pte < 2 ^ 64 /\ has (f + cow_flags pte) PAGE_PRESENT = true.
Proof.
  intros Hp Hpr Hf Hr. pose proof (cow_flags_range pte Hp) as Hc. destruct (frame_of_flags f _ Hr Hf Hc) as [R1 _]. split; [done|].
  rewrite has_present in *. rewrite testbit_low, testbit_cow_flags by (done || lia). by rewrite Hpr.
Qed.

Lemma live_refcount p R f k : Pmm.refines n p R -> R !! (f / 4096) = Some k ->
  Pmm.pmm_refcount f p = k /\ 1 <= k /\ 0 <= f / 4096 < 2 ^ 20.
Proof.
  intros HR Hk. destruct (Pmm.ref_live _ _ _ HR _ _ Hk) as (Hf & _ & Hk1 & Hrc).
  pose proof (Pmm.ok_nframes _ (Pmm.ref_ok _ _ _ HR)) as Hn. rewrite (Pmm.ref_n _ _ _ HR) in Hn. unfold Pmm.MAX_FRAMES in Hn.
  split_and!; try lia. unfold Pmm.pmm_refcount, Pmm.PAGE_SIZE in *. rewrite (Pmm.ref_n _ _ _ HR).
  by rewrite (proj2 (Z.ltb_lt _ _)) by lia.
Qed.

(** A frame that holds no table can be overwritten by a copy of another frame. *)
Lemma copy_fresh R m f g k : tables_ok As R m -> R !! g = None -> R !! (f / 4096) = Some k -> 0 < g < 2 ^ 20 -> f mod 4096 = 0 ->
  let m1 := copy_mem (g * 4096) f m in let R2 := <[g := 1]> (<[f / 4096 := k - 1]> R) in
  tables_ok As R2 m1 /\ (forall r p, As r -> path p -> node m1 r p = node m r p) /\ leaves_same m m1 /\
  (forall t i, t mod 4096 = 0 -> 0 <= i < 512 -> entry m1 t i = if decide (t = g * 4096) then entry m f i else entry m t i) /\
  (forall r p, As r -> path p -> node m1 r p <> Some (g * 4096)).
Proof.
  intros HT HRg HRf Hg Hf m1 R2. destruct (frame_aligned g Hg) as (Ga & _ & Gd).
  assert (Hcp : forall t i, t mod 4096 = 0 -> 0 <= i < 512 -> entry m1 t i = if decide (t = g * 4096) then entry m f i else entry m t i).
  { intros t i Ht Hi. apply entry_copy; try done. intros <-. rewrite Gd in HRf. congruence. }
  clearbody m1. assert (Hfree : forall r p, As r -> path p -> node m r p <> Some (g * 4096)).
  { intros r q Hr Hq E. destruct (t_frame _ _ _ HT r q _ Hr Hq E) as (_ & _ & [x Hx]). rewrite Gd in Hx. congruence. }
  destruct (data_frame_ok R R2 m m1 HT) as (HT1 & Hn1 & HL1).
  - intros x Hx. apply lookup_insert_is_Some'. right. apply lookup_insert_is_Some'. by right.
  - intros r q t i Hr Hq E Hi. destruct (t_frame _ _ _ HT r q t Hr Hq E) as (At & _).
    rewrite Hcp, decide_False by (done || (intros ->; by apply (Hfree r q))). done.
  - split_and!; try done. intros r q Hr Hq. rewrite Hn1 by done. by apply Hfree.
Qed.

Lemma cow_sole_ok R m r0 va pt pte low : tables_ok As R m -> As r0 -> user_va va ->
  node m r0 [idx4 va; idx3 va; idx2 va] = Some pt -> 0 <= pte < 2 ^ 64 -> has pte PAGE_PRESENT = true ->
  let m' := wr m (pt + 8 * idx1 va) (frame_of pte + cow_flags pte) in
  cow_outcome R m r0 va pte 1 low (Resume low) R m' /\ tables_ok As R m' /\ others_same m m' r0 va.
Proof.
  intros HT Hr0 Hva Hpt Hpte Hpr m'. destruct (frame_of_aligned pte Hpte) as [Fa Fr]. pose proof (va_path va 3 Hva) as P3. simpl in P3.
  destruct (cow_entry_ok pte (frame_of pte) ltac:(lia) Hpr Fa Fr) as [R1 R2]. pose proof (idx_range va) as (_ & _ & _ & Hi1).
  destruct (leaf_update R m r0 va pt _ HT Hr0 Hva Hpt R1 R2) as (HT' & HL' & _ & HO'). split_and!; [|done | done].
  constructor; [done | done |]. intros t i Ht Hi Hnt. destruct (t_frame _ _ _ HT r0 _ pt Hr0 P3 Hpt) as (Apt & _).
  apply entry_wr_ne; try done. left. intros ->. by apply (Hnt r0 [idx4 va; idx3 va; idx2 va]).
Qed.

Lemma cow_copied_ok R m r0 va pt pte k low g : tables_ok As R m -> As r0 -> user_va va ->
  node m r0 [idx4 va; idx3 va; idx2 va] = Some pt -> 0 <= pte < 2 ^ 64 -> has pte PAGE_PRESENT = true ->
  R !! (frame_of pte / 4096) = Some k -> 1 < k -> R !! g = None -> 0 < g < 2 ^ 20 ->
  let m' := wr (copy_mem (g * 4096) (frame_of pte) m) (pt + 8 * idx1 va) (g * 4096 + cow_flags pte) in
  let R' := <[g := 1]> (<[frame_of pte / 4096 := k - 1]> R) in
  cow_outcome R m r0 va pte k low (Resume low) R' m' /\ tables_ok As R' m' /\ others_same m m' r0 va.
Proof.
  intros HT Hr0 Hva Hpt Hpte Hpr HRf Hk HRg Hg. destruct (frame_of_aligned pte Hpte) as [Fa Fr]. pose proof (va_path va 3 Hva) as P3. simpl in P3.
  destruct (frame_aligned g Hg) as (Ga & Gr & Gd). pose proof (idx_range va) as (_ & _ & _ & Hi1).
  destruct (cow_entry_ok pte (g * 4096) ltac:(lia) Hpr Ga ltac:(lia)) as [E1 E2].
  destruct (copy_fresh R m (frame_of pte) g k HT HRg HRf Hg Fa) as (HT1 & Hn1 & HL1 & Hcp & Hfree).
  set (m1 := copy_mem _ _ m) in *. clearbody m1. intros m' R'. fold R' in HT1. rewrite <- (Hn1 r0) in Hpt by done.
  destruct (t_frame _ _ _ HT1 r0 _ pt Hr0 P3 Hpt) as (Apt & _).
  destruct (leaf_update R' m1 r0 va pt _ HT1 Hr0 Hva Hpt E1 E2) as (HT' & HL' & _ & HO'). split_and!; [|done |].
  - unfold R'. rewrite <- Gd at 1. constructor; try done; [by rewrite Gd | |].
    + intros i Hi. unfold m'. rewrite entry_wr_ne; try done; [by rewrite Hcp, decide_True by done|].
      left. intros E. by apply (Hfree r0 [idx4 va; idx3 va; idx2 va]); [..| rewrite E].
    + intros t i At Htg Hi Htab. unfold m'. rewrite entry_wr_ne; try done; [by rewrite Hcp, decide_False by done|].
      left. intros ->. rewrite Hn1 in Hpt by done. by apply (Htab r0 [idx4 va; idx3 va; idx2 va]).
  - intros r va' Hr Hva' Hne. unfold m'. rewrite HO' by done. by apply HL1.
Qed.

Lemma cow_fault_runs R m p kp on r0 va pt pte k low : tables_ok As R m -> Pmm.refines n p R -> As r0 -> user_va va ->
  node m r0 [idx4 va; idx3 va; idx2 va] = Some pt -> entry m pt (idx1 va) = pte ->
  has pte PAGE_PRESENT = true -> has pte PAGE_COW = true -> R !! (frame_of pte / 4096) = Some k ->
  runs (cow_fault pt (idx1 va) low) (mkVmm m p kp on) (fun res s' =>
    exists R', cow_outcome R m r0 va pte k low res R' (v_mem s') /\ vm_ok R' s' /\ others_same m (v_mem s') r0 va).
Proof.
  intros HT HR Hr0 Hva Hpt Hpte Hpr Hcow HRf. pose proof (va_path va 3 Hva) as P3. simpl in P3.
  pose proof (idx_range va) as (_ & _ & _ & Hi1). pose proof (t_entry _ _ _ HT r0 _ pt (idx1 va) Hr0 P3 Hpt Hi1) as He. rewrite Hpte in He.
  destruct (frame_of_aligned pte He) as [Fa Fr]. destruct (live_refcount p R _ k HR HRf) as (Hrc & Hk1 & Hfn).
  unfold cow_fault. apply runs_bind. unfold get_entry, runs at 1. cbn [v_mem]. rewrite Hpte, Hpr, Hcow. cbn [negb orb].
  apply runs_bind. unfold runs at 1. cbn [v_pmm]. rewrite Hrc. destruct (Z.eqb_spec k 1) as [->|Hk].
  - apply runs_bind. unfold set_entry, modify, runs at 1, set_mem. cbn [v_mem v_pmm g_kernel_pml4 g_physmap_on]. apply runs_ret.
    rewrite cow_entry by (lia || done). destruct (cow_sole_ok R m r0 va pt pte low) as (Ho & HT' & Hoth); try done.
    exists R. split_and!; [done | by split | done].
  - apply runs_bind. apply (pmm_alloc_runs m p kp on R); [done | |].
    { intros p' Hex HR'. apply runs_ret. exists R. split_and!; [by constructor; [lia | done] | by split | done]. }
    intros g p' Hg HRg HR'. destruct (frame_aligned g Hg) as (Ga & Gr & Gd). rewrite (proj2 (Z.eqb_neq (g * 4096) 0)) by lia.
    apply runs_bind. unfold copy_frame, modify, runs at 1, set_mem. cbn [v_mem v_pmm g_kernel_pml4 g_physmap_on].
    apply runs_bind. unfold pmm_free, modify, runs at 1, set_pmm. cbn [v_mem v_pmm g_kernel_pml4 g_physmap_on].
    apply runs_bind. unfold set_entry, modify, runs at 1, set_mem. cbn [v_mem v_pmm g_kernel_pml4 g_physmap_on]. apply runs_ret.
    rewrite cow_entry by (lia || done). destruct (cow_copied_ok R m r0 va pt pte k low g) as (Ho & HT' & Hoth); try done; [lia|].
    eexists. split_and!; [exact Ho | split; [exact HT'|] | exact Hoth]. cbn [v_pmm].
    pose proof (Pmm.refines_free n p' (<[g := 1]> R) (frame_of pte) k HR') as Hfr. unfold Pmm.PAGE_SIZE in Hfr.
    assert (Hgf : g <> frame_of pte / 4096) by congruence.
    rewrite lookup_insert_ne in Hfr by done. specialize (Hfr HRf). rewrite (proj2 (Z.ltb_lt 1 k)) in Hfr by lia.
    by rewrite insert_insert_ne by done.
Qed.

Lemma land_3 ec : Z.land ec 3 = 3 -> has ec 1 = true.
Proof.
  intros E. change 1 with (2 ^ 0). rewrite has_bit by lia. apply (f_equal (fun x => Z.testbit x 0)) in E. rewrite Z.land_spec in E.
  simpl in E. by rewrite andb_true_r in E.
Qed.

(** C10: a write fault on a copy-on-write page is resolved privately.  When the
    process is the only holder of the frame the page becomes writable in place;
    otherwise it gets a fresh frame with the same contents, the old frame loses
    one reference, and the contents of all other data frames, hence what the
    other holders see, stay as they were; the handler halts only when no frame
    is left.  Every other page of every address space translates as before. *)
Theorem cow_fault_private R s r0 va ec low pte k : vm_ok R s -> As r0 -> user_va va -> r0 <> g_kernel_pml4 s ->
  Z.land ec 3 = 3 -> leaf (v_mem s) r0 va = Some pte -> has pte PAGE_COW = true ->
  R !! (frame_of pte / 4096) = Some k ->
  (forall t, node (v_mem s) r0 [idx4 va; idx3 va] = Some t -> has (entry (v_mem s) t (idx2 va)) PAGE_PS = false) ->
  runs (vmm_page_fault_handler va r0 ec low) s (fun res s' =>
    exists R', cow_outcome R (v_mem s) r0 va pte k low res R' (v_mem s') /\ vm_ok R' s' /\ others_same (v_mem s) (v_mem s') r0 va).
Proof.
  intros [HT HR] Hr0 Hva Hk Hec Hleaf Hcow HRf Hps. destruct s as [m p kp on]. cbn [v_mem v_pmm g_kernel_pml4] in *.
  destruct (t_frame _ _ _ HT r0 [] r0 Hr0) as (A0 & F0 & _); [by repeat constructor; simpl; lia | done |].
  assert (Er : frame_of r0 = r0) by (rewrite frame_of_eq by lia; lia).
  unfold vmm_page_fault_handler. rewrite Er. apply runs_bind. unfold runs at 1. cbn [g_kernel_pml4].
  rewrite (land_3 ec Hec), Hec. cbn [negb andb]. rewrite (proj2 (Z.eqb_neq r0 0)), (proj2 (Z.eqb_neq r0 kp)) by (done || lia). cbn [negb andb Z.eqb].
  pose proof Hleaf as Hwalk. unfold leaf in Hwalk. cbn [node] in Hwalk.
  destruct (child m r0 (idx4 va)) as [t1|] eqn:C1; [|done]. destruct (child m t1 (idx3 va)) as [t2|] eqn:C2; [|done].
  destruct (child m t2 (idx2 va)) as [pt|] eqn:C3; [|done].
  destruct (has (entry m pt (idx1 va)) PAGE_PRESENT) eqn:Hpr; [|done]. injection Hwalk as Hpte.
  assert (N2 : node m r0 [idx4 va; idx3 va] = Some t2) by (cbn [node]; by rewrite C1, C2).
  assert (N3 : node m r0 [idx4 va; idx3 va; idx2 va] = Some pt) by (cbn [node]; by rewrite C1, C2, C3).
  specialize (Hps t2 N2). unfold child in C1, C2, C3.
  apply runs_bind. unfold get_entry, runs at 1. cbn [v_mem]. destruct (has (entry m r0 (idx4 va)) PAGE_PRESENT); [|done]. injection C1 as ->. cbn [negb].
  apply runs_bind. unfold runs at 1. cbn [v_mem]. destruct (has (entry m t1 (idx3 va)) PAGE_PRESENT); [|done]. injection C2 as ->. cbn [negb].
  apply runs_bind. unfold runs at 1. cbn [v_mem]. destruct (has (entry m t2 (idx2 va)) PAGE_PRESENT); [|done]. injection C3 as ->. rewrite Hps. cbn [negb orb].
  rewrite <- Hpte in *. by eapply cow_fault_runs.
Qed.
End Map.

(** ** A concrete address space

    A machine with 2.25 MB of RAM; the first free frame is the root, the second
    a data frame with two owners, mapped copy-on-write at 0x400000. *)
Definition frames_ops : list Pmm.op := [Pmm.Alloc; Pmm.Alloc; Pmm.AddRef 0x201000].
Definition pmm1 : Pmm.pmm := (Pmm.run_ops frames_ops (Pmm.pmm_init 0x240000 Pmm.pmm_boot).2).2.
Definition root1 : Z := 0x200000.
Definition vm1 : vmm := mkVmm ∅ pmm1 0x1000 true.
Definition vm2 : vmm :=
  match vmm_map_page_into root1 0x400000 0x201000 (PAGE_USER + PAGE_COW) vm1 with Some (_, s) => s | None => vm1 end.

Lemma used_live n p R f : Pmm.refines n p R -> 0 <= f < n -> Pmm.reserved f = false -> Pmm.is_used f p = true -> is_Some (R !! f).
Proof. intros HR Hf Hr Hu. rewrite (Pmm.ref_used _ _ _ HR), Hr in Hu by done. by apply bool_decide_eq_true in Hu. Qed.

Lemma refines1 : exists R, Pmm.refines 576 pmm1 R /\ is_Some (R !! 512) /\ is_Some (R !! 513).
Proof.
  destruct (Pmm.refines_run 576 frames_ops (Pmm.pmm_init 0x240000 Pmm.pmm_boot).2 ∅) as (R & _ & HR).
  - change 576 with (Pmm.frames_of 0x240000). apply Pmm.init_refines. by vm_compute.
  - split; [done|]. split; [done|]. split; [|done]. exists 1. by split; [vm_compute|].
  - exists R. split; [exact HR|]. split; (eapply used_live; [exact HR | lia | reflexivity | vm_compute; reflexivity]).
Qed.

Lemma tables1 R : is_Some (R !! 512) -> tables_ok (eq root1) R ∅.
Proof.
  intros HR. assert (Hc : forall t i, child ∅ t i = None).
  { intros t i. unfold child, entry. by rewrite rd_empty. }
  assert (Hn : forall t p u, node ∅ t p = Some u -> p = [] /\ u = t) by (intros t [|i p] u; cbn [node]; rewrite ?Hc; naive_solver).
  constructor.
  - intros r p t <- _ [-> ->]%Hn. by split_and!.
  - intros r p r' p' t <- <- _ _ [-> ->]%Hn [-> _]%Hn. done.
  - intros r p t i <- _ _ _. unfold entry. rewrite rd_empty. lia.
Qed.

Lemma vm1_ok : exists R, vm_ok (eq root1) 576 R vm1 /\ is_Some (R !! 513).
Proof. destruct refines1 as (R & HR & H1 & H2). exists R. split; [split; [by apply tables1 | done] | done]. Qed.

Lemma map_page_translates_witness : exists R : gmap Z Z,
  runs (vmm_map_page_into root1 0x400000 0x201000 5) vm1 (fun res s' =>
    exists R', vm_ok (eq root1) 576 R' s' /\ (forall f, is_Some (R !! f) -> is_Some (R' !! f)) /\ keeps_data (eq root1) R (v_mem vm1) R' (v_mem s') /\
      ((res = 0 /\ leaf (v_mem s') root1 0x400000 = Some (leaf_entry 0x201000 5) /\
        others_same (eq root1) (v_mem vm1) (v_mem s') root1 0x400000) \/
       (res = -1 /\ exhausted 576 R' /\ leaves_same (eq root1) (v_mem vm1) (v_mem s')))).
Proof.
  destruct vm1_ok as (R & Hv & _). exists R.
  apply (map_page_translates (eq root1) 576 R vm1 root1 0x400000 0x201000 5 Hv eq_refl); unfold user_va; lia.
Defined.

Lemma vm2_refcount : Pmm.pmm_refcount 0x201000 (v_pmm vm2) = 2.
Proof. vm_compute. reflexivity. Qed.

Lemma vm2_ok : exists R, vm_ok (eq root1) 576 R vm2 /\ R !! 513 = Some 2.
Proof.
  destruct vm1_ok as (R & Hv & H513).
  pose proof (map_page_runs (eq root1) 576 R vm1 root1 0x400000 0x201000 (PAGE_USER + PAGE_COW) Hv eq_refl
    ltac:(unfold user_va; lia) ltac:(lia) ltac:(by vm_compute)) as H.
  pose proof vm2_refcount as Hrc. unfold vm2 in *. unfold runs in H.
  destruct (vmm_map_page_into root1 0x400000 0x201000 (PAGE_USER + PAGE_COW) vm1) as [[res s]|]; [|destruct H]. destruct H as (R' & Hv' & Hs & _).
  exists R'. split; [done|]. destruct (Hs _ H513) as [k Hk]. destruct (live_refcount 576 (v_pmm s) R' 0x201000 k (vm_frames _ _ _ _ Hv') Hk) as (Hr & _).
  rewrite Hk. f_equal. by rewrite <- Hr, Hrc.
Qed.

Lemma vm2_walk :
  leaf (v_mem vm2) root1 0x400010 = Some (leaf_entry 0x201000 (PAGE_USER + PAGE_COW)) /\
  node (v_mem vm2) root1 [idx4 0x400010; idx3 0x400010] = Some 0x203000 /\
  has (entry (v_mem vm2) 0x203000 (idx2 0x400010)) PAGE_PS = false /\ g_kernel_pml4 vm2 = 0x1000.
Proof. split_and!; vm_compute; reflexivity. Qed.

Lemma cow_fault_private_witness : exists R : gmap Z Z,
  runs (vmm_page_fault_handler 0x400010 root1 7 None) vm2 (fun res s' =>
    exists R', cow_outcome (eq root1) 576 R (v_mem vm2) root1 0x400010 (leaf_entry 0x201000 (PAGE_USER + PAGE_COW)) 2 None res R' (v_mem s') /\
      vm_ok (eq root1) 576 R' s' /\ others_same (eq root1) (v_mem vm2) (v_mem s') root1 0x400010).
Proof.
  destruct vm2_ok as (R & Hv & Hk). exists R.
  destruct vm2_walk as (E1 & E2 & E3 & E4).
  apply (cow_fault_private (eq root1) 576 R vm2 root1 0x400010 7 None _ 2 Hv eq_refl).
  - unfold user_va. lia.
  - rewrite E4. by compute.
  - reflexivity.
  - exact E1.
  - reflexivity.
  - exact Hk.
  - intros t Et. rewrite E2 in Et. injection Et as <-. exact E3.
Defined.

End Paging.
