(* ===== verification/MemInit.v ===== *)
(** * Memory at boot (src/kernel/core/early.c, src/mm/virt/vmm.c)

    The memory phase of [kernel_main], from the zeroed frame allocator to the first
    user address space: what the processor translates through the tables
    [vmm_init] builds, and that the invariants of frames and page tables hold. *)
From S2P Require Import Prelude Bytes Heap Pmm Vmm Paging.
Import Vmm Paging.

Module MemInit.

(** ** The phase of [kernel_main] *)

Definition RAM : Z := 128 * 1024 * 1024.

Definition init_memory : MV os_status :=
  do* modify (fun s => set_pmm (Pmm.pmm_init RAM (v_pmm s)).2 s) in
  vmm_init.

(** The machine before it: the statics are zero, memory is what the boot
    loader left. *)
Definition before (m0 : mem) : vmm := mkVmm m0 Pmm.pmm_boot 0 false.

(** ** The processor's translation

    A walk from the table in CR3, with pages of 1 GB, 2 MB and 4 KB; the bits of
    the address above bit 47 repeat bit 47 and are not looked at. *)
Definition page_base (e k : Z) : Z := Z.land e (u64 (Z.lnot (Z.ones k))).
Definition translate (m : mem) (cr3 va : Z) : option Z :=
  let e4 := entry m cr3 (idx4 va) in
  if negb (has e4 PAGE_PRESENT) then None
  else
    let e3 := entry m (frame_of e4) (idx3 va) in
    if negb (has e3 PAGE_PRESENT) then None
    else if has e3 PAGE_PS then Some (page_base e3 30 + va mod 2 ^ 30)
    else
      let e2 := entry m (frame_of e3) (idx2 va) in
      if negb (has e2 PAGE_PRESENT) then None
      else if has e2 PAGE_PS then Some (page_base e2 21 + va mod 2 ^ 21)
      else
        let e1 := entry m (frame_of e2) (idx1 va) in
        if negb (has e1 PAGE_PRESENT) then None else Some (page_base e1 12 + va mod 2 ^ 12).

(** The test [kernel_main] makes of a mapping: a store and a load at the new virtual
    address; an address that is not mapped has no result. *)
Abbreviation PATTERN := 0xCAFEBABEDEADBEEF.
Definition paging_test : MV bool :=
  let* fr := pmm_alloc in
  let* _ := vmm_map_page 0x40000000 fr PAGE_RW in
  fun s =>
    match translate (v_mem s) (g_kernel_pml4 s) 0x40000000 with
    | None => None
    | Some pa =>
        let m := wr (v_mem s) pa PATTERN in
        match translate m (g_kernel_pml4 s) 0x40000000 with
        | None => None
        | Some pa => Some (rd m pa =? PATTERN, set_mem m s)
        end
    end.

(** ** The frames handed out *)

Fixpoint frames_taken (k : nat) : Pmm.pmm :=
  match k with
  | O => (Pmm.pmm_init RAM Pmm.pmm_boot).2
  | S k => (Pmm.pmm_alloc_frame (frames_taken k)).2
  end.

Lemma taken_0 : (Pmm.pmm_init RAM Pmm.pmm_boot).2 = frames_taken 0.
Proof. cbn [frames_taken]. reflexivity. Qed.

(** From the end of the reserved 2 MB upwards, as long as they last. *)
Definition boot_frame (k : nat) : Z := (512 + Z.of_nat k) * 4096.
Fixpoint boot_refs (k : nat) : gmap Z Z :=
  match k with O => ∅ | S k => <[512 + Z.of_nat k := 1]> (boot_refs k) end.

Lemma boot_refs_spec k f : boot_refs k !! f = if decide (512 <= f < 512 + Z.of_nat k) then Some 1 else None.
Proof.
  induction k as [|k IH]; cbn [boot_refs]; [by rewrite lookup_empty, decide_False by lia|].
  destruct (Z.eq_dec f (512 + Z.of_nat k)) as [->|]; [by rewrite lookup_insert_eq, decide_True by lia|].
  rewrite lookup_insert_ne, IH by done. repeat case_decide; lia || done.
Qed.

Lemma frames_taken_next k : (k < 3584)%nat -> Pmm.refines (Pmm.frames_of RAM) (frames_taken k) (boot_refs k) ->
  (Pmm.pmm_alloc_frame (frames_taken k)).1 = boot_frame k /\ Pmm.refines (Pmm.frames_of RAM) (frames_taken (S k)) (boot_refs (S k)).
Proof.
  intros Hk Hr. assert (Hn : 512 + Z.of_nat k < Pmm.frames_of RAM) by (change (Pmm.frames_of RAM) with 32768; lia).
  apply (Pmm.refines_alloc_lowest _ _ _ (512 + Z.of_nat k) Hr); [lia | unfold Pmm.reserved; lia | by rewrite boot_refs_spec, decide_False by lia |].
  intros g Hg. rewrite boot_refs_spec. unfold Pmm.reserved. destruct (Z.ltb_spec g 512); [by left|]. right. rewrite decide_True by lia. by eexists.
Qed.

Lemma frames_taken_refines k : (k <= 3584)%nat -> Pmm.refines (Pmm.frames_of RAM) (frames_taken k) (boot_refs k).
Proof.
  induction k as [|k IH]; intros Hk; [apply Pmm.init_refines; by vm_compute|]. apply frames_taken_next; [lia | apply IH; lia].
Qed.

Lemma pmm_alloc_boot k m kp on (Q : Z -> vmm -> Prop) : (k < 3584)%nat ->
  Q (boot_frame k) (mkVmm m (frames_taken (S k)) kp on) -> runs pmm_alloc (mkVmm m (frames_taken k) kp on) Q.
Proof.
  intros Hk HQ. destruct (frames_taken_next k Hk (frames_taken_refines k ltac:(lia))) as [E _].
  unfold runs, pmm_alloc. cbn [v_pmm]. cbn [frames_taken] in HQ. destruct (Pmm.pmm_alloc_frame (frames_taken k)) as [f p]. by rewrite <- E in HQ.
Qed.
#[local] Opaque frames_taken.

(** ** The tables [vmm_init] builds *)

Definition large (i : Z) : Z := Z.lor (Z.lor (Z.lor (i * MAP_2M) PAGE_PRESENT) PAGE_RW) PAGE_PS.
Definition fill_large (t n : Z) (m : mem) : mem := for_up 0 n (fun i m => wr m (t + 8 * i) (large i)) m.
Definition linked (t i f : Z) (m : mem) : mem := wr (zero_mem f m) (t + 8 * i) (f + 3).

Lemma entry_fill_large t n m t' i : t mod 4096 = 0 -> t' mod 4096 = 0 -> n <= 512 -> 0 <= i < 512 ->
  entry (fill_large t n m) t' i = if decide (t' = t /\ i < n) then large i else entry m t' i.
Proof.
  intros Ht Ht' Hn Hi. unfold fill_large.
  pose proof (for_up_ind (fun k m' => entry m' t' i = if decide (t' = t /\ i < k) then large i else entry m t' i) 0 n
    (fun i m => wr m (t + 8 * i) (large i)) m) as H. cbv beta in H. rewrite H; clear H.
  - repeat case_decide; lia || done.
  - rewrite decide_False by lia. done.
  - intros k m' Hk IH. destruct (decide (t' = t /\ i = k)) as [[-> ->]|Hne].
    + rewrite entry_same. by rewrite decide_True by lia.
    + rewrite entry_wr_ne, IH by (done || lia). repeat case_decide; lia || done.
Qed.

Lemma entry_linked t i f m t' j : t mod 4096 = 0 -> f mod 4096 = 0 -> t' mod 4096 = 0 -> t <> f -> 0 <= i < 512 -> 0 <= j < 512 ->
  entry (linked t i f m) t' j = if decide (t' = t /\ j = i) then f + 3 else if decide (t' = f) then 0 else entry m t' j.
Proof.
  intros Ht Hf Ht' Hne Hi Hj. unfold linked. case_decide as H1.
  - destruct H1 as [-> ->]. apply entry_same.
  - rewrite entry_wr_ne by (done || lia). case_decide as H2; [subst; by apply entry_zero_in | by apply entry_zero_out].
Qed.

Lemma boot_frame_flags k : Z.lor (Z.lor (boot_frame k) PAGE_PRESENT) PAGE_RW = boot_frame k + 3.
Proof. rewrite <- Z.lor_assoc. apply (lor_low 12); [lia | apply Z.mod_mul; lia | done]. Qed.

Lemma link_table_boot t i k m kp on (Q : Z -> vmm -> Prop) : (k < 3584)%nat ->
  Q (boot_frame k) (mkVmm (linked t i (boot_frame k) m) (frames_taken (S k)) kp on) -> runs (link_table t i) (mkVmm m (frames_taken k) kp on) Q.
Proof.
  intros Hk HQ. unfold link_table. apply runs_bind. apply pmm_alloc_boot; [done|]. apply runs_bind. unfold zero_table, modify, runs at 1.
  apply runs_bind. unfold set_entry, modify, runs at 1. apply runs_ret. cbn [v_mem set_mem v_pmm g_kernel_pml4 g_physmap_on].
  by rewrite boot_frame_flags.
Qed.

(** The five tables: PML4, and PDPT and PD of the identity map and of the physmap. *)
Definition boot_tables (m0 : mem) : mem :=
  let f := boot_frame in
  let m := linked (f 1%nat) 0 (f 2%nat) (linked (f 0%nat) 0 (f 1%nat) (zero_mem (f 0%nat) m0)) in
  let m := fill_large (f 2%nat) (IDENTITY_MB * 1024 * 1024 / MAP_2M) m in
  let m := linked (f 3%nat) 0 (f 4%nat) (linked (f 0%nat) 256 (f 3%nat) m) in
  let m := fill_large (f 4%nat) ENTRIES m in
  wr m (f 0%nat + 8 * 511) (entry m 0x1000 PML4_KERNEL).

Lemma init_memory_runs m0 : runs init_memory (before m0) (fun st s =>
  st = OS_OK /\ s = mkVmm (boot_tables m0) (frames_taken 5) (boot_frame 0) true).
Proof.
  unfold init_memory. apply runs_bind. unfold modify, runs at 1, before, set_pmm. cbn [v_mem v_pmm g_kernel_pml4 g_physmap_on].
  rewrite taken_0. unfold vmm_init.
  apply runs_bind, pmm_alloc_boot; [lia|]. apply runs_bind. unfold zero_table, modify at 1, runs at 1.
  cbn [v_mem set_mem v_pmm g_kernel_pml4 g_physmap_on].
  apply runs_bind, link_table_boot; [lia|]. apply runs_bind, link_table_boot; [lia|].
  apply runs_bind. unfold modify at 1, runs at 1. cbn [v_mem set_mem v_pmm g_kernel_pml4 g_physmap_on].
  apply runs_bind, link_table_boot; [lia|]. apply runs_bind, link_table_boot; [lia|].
  apply runs_bind. unfold modify at 1, runs at 1. cbn [v_mem set_mem v_pmm g_kernel_pml4 g_physmap_on].
  apply runs_bind. unfold get_entry, runs at 1. apply runs_bind. unfold set_entry, modify at 1, runs at 1.
  apply runs_bind. unfold modify, runs at 1. apply runs_ret. cbn [v_mem set_mem v_pmm g_kernel_pml4 g_physmap_on].
  split; [done|]. unfold boot_tables, fill_large, large. cbv zeta. reflexivity.
Qed.

(** Evaluation of an entry of nested updates at frame-aligned tables. *)
Ltac entry_step :=
  first [ rewrite entry_same
        | rewrite entry_wr_ne by (done || lia)
        | rewrite entry_fill_large by (done || lia)
        | rewrite entry_linked by (done || lia)
        | rewrite entry_zero_in by (done || lia)
        | rewrite entry_zero_out by (done || lia) ];
  repeat first [rewrite decide_True by lia | rewrite decide_False by lia].

(** What a walk from [r] finds: nothing in the user half but, when [low], the
    identity map, and above it the physmap and the kernel image. *)
Record kernel_half (m : mem) (r k : Z) (low : bool) : Prop := {
  kh_user : forall i, 0 < i < 256 \/ i = 0 /\ low = false -> entry m r i = 0;
  kh_physmap : entry m r 256 = 0x203003;
  kh_rest : forall i, 256 < i < 511 -> entry m r i = 0;
  kh_kernel : entry m r 511 = k;
  kh_low : low = true -> entry m r 0 = 0x201003
}.

Record shared_tables (m : mem) : Prop := {
  sh_pdpt : entry m 0x201000 0 = 0x202003;
  sh_pd : forall i, 0 <= i < 64 -> entry m 0x202000 i = large i;
  sh_pmpdpt : entry m 0x203000 0 = 0x204003;
  sh_pmpd : forall i, 0 <= i < 512 -> entry m 0x204000 i = large i
}.

Lemma boot_tables_entries m0 : kernel_half (boot_tables m0) 0x200000 (entry m0 0x1000 511) true /\ shared_tables (boot_tables m0) /\ entry (boot_tables m0) 0x201000 1 = 0.
Proof.
  unfold boot_tables. cbv zeta. change (IDENTITY_MB * 1024 * 1024 / MAP_2M) with 64. unfold ENTRIES.
  change (boot_frame 0) with 0x200000. change (boot_frame 1) with 0x201000. change (boot_frame 2) with 0x202000.
  change (boot_frame 3) with 0x203000. change (boot_frame 4) with 0x204000.
  split_and!; [split; intros; repeat entry_step; done || lia.. | by repeat entry_step].
Qed.

(** ** The mapping test *)

(** The tables it adds: a PD at the second entry of the low PDPT, and a PT. *)
Definition test_tables (m : mem) : mem :=
  let m := wr m (0x200000 + 8 * 0) (entry m 0x200000 0) in
  let m := linked 0x206000 0 0x207000 (linked 0x201000 1 0x206000 m) in
  wr m (0x207000 + 8 * 0) 0x205003.

Record test_mapping (m : mem) : Prop := {
  tm_pdpt : entry m 0x201000 1 = 0x206003;
  tm_pd : entry m 0x206000 0 = 0x207003;
  tm_pt : entry m 0x207000 0 = 0x205003
}.

Lemma test_tables_entries m k : kernel_half m 0x200000 k true -> shared_tables m ->
  let m' := test_tables m in kernel_half m' 0x200000 k true /\ shared_tables m' /\ test_mapping m'.
Proof.
  intros [U P R K L] [S1 S2 S3 S4] m'. unfold m', test_tables. cbv zeta.
  split_and!; split; intros; repeat entry_step; try lia; auto.
Qed.

(** Storing a word in the data frame. *)
Lemma data_entries m k v : kernel_half m 0x200000 k true -> shared_tables m -> test_mapping m ->
  let m' := wr m 0x205000 v in kernel_half m' 0x200000 k true /\ shared_tables m' /\ test_mapping m'.
Proof.
  intros [U P R K L] [S1 S2 S3 S4] [T1 T2 T3] m'. unfold m'. replace 0x205000 with (0x205000 + 8 * 0) by done.
  split_and!; split; intros; repeat entry_step; try lia; auto.
Qed.

Lemma test_translates m k : kernel_half m 0x200000 k true -> test_mapping m -> translate m 0x200000 0x40000000 = Some 0x205000.
Proof.
  intros HK [T1 T2 T3]. unfold translate. change (idx4 0x40000000) with 0. change (idx3 0x40000000) with 1. change (idx2 0x40000000) with 0. change (idx1 0x40000000) with 0.
  rewrite (kh_low _ _ _ _ HK) by done. change (frame_of 0x201003) with 0x201000. rewrite T1. change (frame_of 0x206003) with 0x206000. rewrite T2.
  change (frame_of 0x207003) with 0x207000. rewrite T3. reflexivity.
Qed.

Lemma next_present t i e k m kp on (Q : option Z -> vmm -> Prop) : entry m t i = e -> has e PAGE_PRESENT = true ->
  Q (Some (frame_of e)) (mkVmm (wr m (t + 8 * i) e) (frames_taken k) kp on) -> runs (next_table t i 0) (mkVmm m (frames_taken k) kp on) Q.
Proof.
  intros He Hp HQ. unfold next_table. apply runs_bind. unfold get_entry at 1, runs at 1. cbn [v_mem]. rewrite He, Hp. cbn [negb].
  apply runs_bind. unfold set_entry, modify, runs at 1. rewrite Z.lor_0_r. apply runs_bind. unfold get_entry, runs at 1. apply runs_ret.
  cbn [v_mem set_mem v_pmm g_kernel_pml4 g_physmap_on]. by rewrite entry_same.
Qed.

Lemma next_linked t i k m kp on (Q : option Z -> vmm -> Prop) : (k < 3584)%nat -> entry m t i = 0 ->
  Q (Some (boot_frame k)) (mkVmm (linked t i (boot_frame k) m) (frames_taken (S k)) kp on) -> runs (next_table t i 0) (mkVmm m (frames_taken k) kp on) Q.
Proof.
  intros Hk He HQ. unfold next_table. apply runs_bind. unfold get_entry at 1, runs at 1. cbn [v_mem]. rewrite He. cbn [negb has PAGE_PRESENT].
  change (negb (has 0 PAGE_PRESENT)) with true. cbv iota. apply runs_bind, pmm_alloc_boot; [done|].
  rewrite (proj2 (Z.eqb_neq (boot_frame k) 0)) by (unfold boot_frame; lia). apply runs_bind. unfold zero_table, modify, runs at 1.
  apply runs_bind. unfold set_entry, modify, runs at 1. apply runs_bind. unfold get_entry, runs at 1. apply runs_ret.
  cbn [v_mem set_mem v_pmm g_kernel_pml4 g_physmap_on]. rewrite entry_same, Z.lor_0_r, boot_frame_flags.
  replace (frame_of (boot_frame k + 3)) with (boot_frame k); [exact HQ|].
  symmetry. apply frame_of_flags; [unfold boot_frame; lia | apply Z.mod_mul; lia | lia].
Qed.

Definition tested (m : mem) : mem := wr (test_tables m) 0x205000 PATTERN.

Lemma map_test_page m k : kernel_half m 0x200000 k true -> entry m 0x201000 1 = 0 ->
  runs (vmm_map_page 0x40000000 0x205000 PAGE_RW) (mkVmm m (frames_taken 6) 0x200000 true) (fun _ s => s = mkVmm (test_tables m) (frames_taken 8) 0x200000 true).
Proof.
  intros HK H1. change (runs (vmm_map_page_into 0x200000 0x40000000 0x205000 PAGE_RW) (mkVmm m (frames_taken 6) 0x200000 true) (fun _ s => s = mkVmm (test_tables m) (frames_taken 8) 0x200000 true)).
  unfold vmm_map_page_into. change (Z.land PAGE_RW PAGE_USER) with 0. change (idx4 0x40000000) with 0. change (idx3 0x40000000) with 1. change (idx2 0x40000000) with 0. change (idx1 0x40000000) with 0.
  cbv zeta. pose proof (kh_low _ _ _ _ HK eq_refl) as E0.
  apply runs_bind. eapply next_present; [exact E0 | done |]. change (frame_of 0x201003) with 0x201000. cbv iota.
  apply runs_bind, next_linked; [lia | by repeat entry_step |]. change (boot_frame 6) with 0x206000. cbv iota.
  apply runs_bind, next_linked; [lia | by repeat entry_step |]. change (boot_frame 7) with 0x207000. cbv iota.
  apply runs_bind. unfold set_entry, modify, runs at 1. apply runs_ret. cbn [v_mem set_mem v_pmm g_kernel_pml4 g_physmap_on].
  change (Z.lor (Z.lor (frame_of 0x205000) (Z.land PAGE_RW 0xFFF)) PAGE_PRESENT) with 0x205003. unfold test_tables. by rewrite E0.
Qed.

Lemma paging_test_runs m k : kernel_half m 0x200000 k true -> shared_tables m -> entry m 0x201000 1 = 0 ->
  runs paging_test (mkVmm m (frames_taken 5) 0x200000 true) (fun ok s => ok = true /\ s = mkVmm (tested m) (frames_taken 8) 0x200000 true).
Proof.
  intros HK HS H1. unfold paging_test. apply runs_bind, pmm_alloc_boot; [lia|]. change (boot_frame 5) with 0x205000.
  apply runs_bind. eapply runs_mono; [by apply (map_test_page m k)|]. intros _ s ->. unfold runs. cbn [v_mem g_kernel_pml4].
  destruct (test_tables_entries m k HK HS) as (K1 & S1 & T1). destruct (data_entries _ _ PATTERN K1 S1 T1) as (K2 & S2 & T2).
  rewrite (test_translates _ k) by done. rewrite (test_translates _ k) by done. rewrite rd_wr_eq. done.
Qed.

(** ** A new address space *)

Definition new_space (f k : Z) (m : mem) : mem :=
  let m1 := zero_mem f m in
  let m2 := wr m1 (f + 8 * PML4_PHYSMAP) (entry m1 k PML4_PHYSMAP) in
  wr m2 (f + 8 * PML4_KERNEL) (entry m2 k PML4_KERNEL).

Lemma create_runs m : runs vmm_create_address_space (mkVmm m (frames_taken 8) 0x200000 true) (fun u s =>
  u = 0x208000 /\ s = mkVmm (new_space 0x208000 0x200000 m) (frames_taken 9) 0x200000 true).
Proof.
  unfold vmm_create_address_space. apply runs_bind, pmm_alloc_boot; [lia|]. change (boot_frame 8) with 0x208000. change (0x208000 =? 0) with false. cbv iota.
  apply runs_bind. unfold zero_table, modify at 1, runs at 1. apply runs_bind. unfold runs at 1.
  apply runs_bind. unfold get_entry at 1, runs at 1. apply runs_bind. unfold set_entry at 1, modify at 1, runs at 1.
  apply runs_bind. unfold get_entry at 1, runs at 1. apply runs_bind. unfold set_entry at 1, modify at 1, runs at 1.
  apply runs_ret. cbn [v_mem set_mem v_pmm g_kernel_pml4 g_physmap_on]. done.
Qed.

Lemma new_space_entries m k : kernel_half m 0x200000 k true -> shared_tables m ->
  let m' := new_space 0x208000 0x200000 m in
  kernel_half m' 0x200000 k true /\ kernel_half m' 0x208000 k false /\ shared_tables m'.
Proof.
  intros [U P R K L] [S1 S2 S3 S4] m'. unfold m', new_space. cbv zeta.
  split_and!; split; intros; repeat entry_step; try lia; auto.
Qed.

(** ** Translations *)

Lemma large_eq i : 0 <= i < 512 -> large i = i * 2 ^ 21 + 0x83.
Proof.
  intros Hi. unfold large. rewrite <- !Z.lor_assoc. change (Z.lor PAGE_PRESENT _) with 0x83.
  replace MAP_2M with (2 ^ 21) by done. apply (lor_low 21); [lia | apply Z.mod_mul; lia | done].
Qed.

(** A walk through tables at [t2] and [t3] to a 2 MB page. *)
Lemma translate_large m r va e4 e3 i : 0 <= i < 512 ->
  entry m r (idx4 va) = e4 -> entry m (frame_of e4) (idx3 va) = e3 -> entry m (frame_of e3) (idx2 va) = large i ->
  has e4 PAGE_PRESENT = true -> has e3 PAGE_PRESENT = true -> has e3 PAGE_PS = false ->
  translate m r va = Some (i * 2 ^ 21 + va mod 2 ^ 21).
Proof.
  intros Hi E4 E3 E2 P4 P3 S3. unfold translate. rewrite E4, P4, E3, P3, S3, E2. cbn [negb]. rewrite large_eq by done.
  assert (Hm : (i * 2 ^ 21) mod 4096 = 0) by (replace (i * 2 ^ 21) with (i * 512 * 4096) by lia; apply Z.mod_mul; lia).
  unfold page_base. rewrite has_present, (testbit_low _ 0x83 0 Hm) by lia. rewrite land_mask by lia.
  replace (has (i * 2 ^ 21 + 0x83) PAGE_PS) with true.
  - rewrite (mod_add_low 21) by (lia || apply Z.mod_mul; lia). cbn. f_equal. lia.
  - change PAGE_PS with (2 ^ 7). by rewrite (has_bit _ 7), (testbit_low _ 0x83 7 Hm) by lia.
Qed.

Lemma idx_low va k : 0 <= k -> 0 <= va < 2 ^ (k + 9) -> Z.land (Z.shiftr va k) 0x1FF = va / 2 ^ k.
Proof.
  intros Hk Hv. rewrite idx_eq by done. apply Z.mod_small. rewrite Z.pow_add_r in Hv by lia.
  split; [apply Z.div_pos | apply Z.div_lt_upper_bound]; lia.
Qed.

Lemma low_indices pa : 0 <= pa < 2 ^ 30 -> idx4 pa = 0 /\ idx3 pa = 0 /\ idx2 pa = pa / 2 ^ 21 /\ 0 <= pa / 2 ^ 21 < 512.
Proof.
  intros Hp. unfold idx4, idx3, idx2. rewrite (idx_low _ 39), (idx_low _ 30), (idx_low _ 21) by lia.
  rewrite !(Z.div_small pa) by lia. split_and!; try done; [apply Z.div_pos | apply Z.div_lt_upper_bound]; lia.
Qed.

Lemma physmap_indices pa : 0 <= pa < 2 ^ 30 -> let va := Heap.PHYSMAP_BASE + pa in
  idx4 va = 256 /\ idx3 va = 0 /\ idx2 va = pa / 2 ^ 21 /\ va mod 2 ^ 21 = pa mod 2 ^ 21 /\ 0 <= pa / 2 ^ 21 < 512.
Proof.
  intros Hp va. destruct (low_indices pa Hp) as (_ & E3 & E2 & Hr). unfold idx3, idx2, idx4 in *. rewrite idx_eq in E3, E2 by lia.
  assert (D : forall k, 0 <= k <= 39 -> va / 2 ^ k = (2 ^ (39 - k) * (2 ^ 25 - 256)) + pa / 2 ^ k).
  { intros k Hk. unfold va. rewrite <- Z.div_add_l by (apply Z.pow_nonzero; lia). f_equal. f_equal. unfold Heap.PHYSMAP_BASE.
    replace (2 ^ (39 - k) * (2 ^ 25 - 256) * 2 ^ k) with ((2 ^ (39 - k) * 2 ^ k) * (2 ^ 25 - 256)) by lia.
    rewrite <- Z.pow_add_r by lia. by replace (39 - k + k) with 39 by lia. }
  split_and!; [| | |unfold va; by replace Heap.PHYSMAP_BASE with ((2 ^ 43 - 2 ^ 26) * 2 ^ 21) by done; rewrite Z.add_comm, Z.mod_add by lia | lia | lia].
  - rewrite idx_eq, D by lia. by rewrite (Z.div_small pa) by lia.
  - rewrite idx_eq, D by lia. by rewrite (Z.div_small pa) by lia.
  - rewrite idx_eq, D by lia. rewrite Z.add_comm. change (2 ^ (39 - 21) * (2 ^ 25 - 256)) with ((2 ^ 9 * (2 ^ 25 - 256)) * 512). rewrite Z.mod_add by lia. exact E2.
Qed.

Lemma physmap_translates m r k low pa : kernel_half m r k low -> shared_tables m -> 0 <= pa < 2 ^ 30 ->
  translate m r (Heap.PHYSMAP_BASE + pa) = Some pa.
Proof.
  intros HK HS Hp. destruct (physmap_indices pa Hp) as (E4 & E3 & E2 & Em & Hi).
  rewrite (translate_large _ _ _ 0x203003 0x204003 (pa / 2 ^ 21)); try done.
  - rewrite Em. f_equal. rewrite (Z.div_mod pa (2 ^ 21)) at 3 by lia. lia.
  - rewrite E4. apply (kh_physmap _ _ _ _ HK).
  - rewrite E3. apply (sh_pmpdpt _ HS).
  - rewrite E2. by apply (sh_pmpd _ HS).
Qed.

Lemma identity_translates m r k pa : kernel_half m r k true -> shared_tables m -> 0 <= pa < RAM -> translate m r pa = Some pa.
Proof.
  intros HK HS Hp. unfold RAM in Hp. destruct (low_indices pa ltac:(lia)) as (E4 & E3 & E2 & Hi).
  rewrite (translate_large _ _ _ 0x201003 0x202003 (pa / 2 ^ 21)); try done.
  - f_equal. rewrite (Z.div_mod pa (2 ^ 21)) at 3 by lia. lia.
  - rewrite E4. by apply (kh_low _ _ _ _ HK).
  - rewrite E3. apply (sh_pdpt _ HS).
  - rewrite E2. apply (sh_pd _ HS). split; [lia|]. apply Z.div_lt_upper_bound; lia.
Qed.

Lemma user_half_empty m r k : kernel_half m r k false -> forall p t, path p -> node m r p = Some t -> p = [] /\ t = r.
Proof.
  intros HK [|i p] t (_ & Hi & Hu) E; cbn in E; [by injection E|]. apply Forall_cons_iff in Hi as [Hi _].
  unfold child in E. rewrite (kh_user _ _ _ _ HK) in E by lia. done.
Qed.

Lemma empty_space_ok m r k R : kernel_half m r k false -> 0 <= k < 2 ^ 64 -> r mod 4096 = 0 -> 0 < r < 2 ^ 52 ->
  is_Some (R !! (r / 4096)) -> tables_ok (eq r) R m.
Proof.
  intros HK Hk Ha Hr HR. split.
  - intros ? p t <- Hp E. destruct (user_half_empty _ _ _ HK p t Hp E) as [_ ->]. done.
  - intros ? p ? p' t <- <- Hp Hp' E E'. destruct (user_half_empty _ _ _ HK p t Hp E) as [-> _], (user_half_empty _ _ _ HK p' t Hp' E') as [-> _]. done.
  - intros ? p t i <- Hp E Hi. destruct (user_half_empty _ _ _ HK p t Hp E) as [_ ->].
    destruct (Z.eq_dec i 256) as [->|]; [by rewrite (kh_physmap _ _ _ _ HK)|].
    destruct (Z.eq_dec i 511) as [->|]; [by rewrite (kh_kernel _ _ _ _ HK)|].
    destruct (Z.lt_ge_cases i 256); [rewrite (kh_user _ _ _ _ HK) | rewrite (kh_rest _ _ _ _ HK)]; lia.
Qed.

(** What holds of memory when the first user address space [u] has been made.
    [kimg] is the entry of the boot loader's tables for the kernel image. *)
Record memory_up (kimg u : Z) (s : vmm) : Prop := {
  mu_tables : vm_ok (eq u) (Pmm.frames_of RAM) (boot_refs 9) s;
  mu_physmap : forall r pa, r = u \/ r = g_kernel_pml4 s -> 0 <= pa < 2 ^ 30 ->
    translate (v_mem s) r (Heap.PHYSMAP_BASE + pa) = Some pa;
  mu_identity : forall pa, 0 <= pa < RAM -> translate (v_mem s) (g_kernel_pml4 s) pa = Some pa;
  mu_user : forall va, user_va va -> translate (v_mem s) u va = None;
  mu_image : entry (v_mem s) u 511 = kimg /\ entry (v_mem s) (g_kernel_pml4 s) 511 = kimg;
  mu_heap : forall a, Heap.HEAP_BASE <= a < Heap.HEAP_BASE + Heap.HEAP_SIZE ->
    exists pa, translate (v_mem s) u a = Some pa /\ Pmm.reserved (pa / 4096) = true
}.

Lemma heap_window a : Heap.HEAP_BASE <= a < Heap.HEAP_BASE + Heap.HEAP_SIZE ->
  exists pa, a = Heap.PHYSMAP_BASE + pa /\ 0 <= pa < 2 ^ 30 /\ Pmm.reserved (pa / 4096) = true.
Proof.
  unfold Heap.HEAP_BASE, Heap.HEAP_SIZE. intros Ha. exists (a - Heap.PHYSMAP_BASE). split_and!; [lia.. |].
  set (pa := a - _) in *. assert (4096 <= pa / 4096 < 12288) by (split; [apply Z.div_le_lower_bound | apply Z.div_lt_upper_bound]; lia).
  unfold Pmm.reserved. rewrite (proj2 (Z.leb_le _ _)), (proj2 (Z.ltb_lt (pa / 4096) 12288)) by lia. apply orb_true_r.
Qed.

(** The memory part of [kernel_main]: its result is the outcome of the test and the first
    user address space. *)
Definition memory_phase : MV (bool * Z) :=
  do* init_memory in
  let* ok := paging_test in
  let* u := vmm_create_address_space in
  ret (ok, u).

(** The two parts of it. *)
Lemma tested_runs m0 : runs init_memory (before m0) (fun _ s => runs paging_test s (fun ok s' =>
  ok = true /\ s' = mkVmm (tested (boot_tables m0)) (frames_taken 8) 0x200000 true)).
Proof.
  eapply runs_mono; [apply init_memory_runs|]. intros st s [_ ->]. change (boot_frame 0) with 0x200000.
  destruct (boot_tables_entries m0) as (HK & HS & H1). by eapply paging_test_runs.
Qed.

Lemma first_space_runs m0 : 0 <= entry m0 0x1000 511 < 2 ^ 64 ->
  runs vmm_create_address_space (mkVmm (tested (boot_tables m0)) (frames_taken 8) 0x200000 true) (fun u s =>
    u <> 0 /\ g_physmap_on s = true /\ memory_up (entry m0 0x1000 511) u s /\ v_pmm s = frames_taken 9 /\ forall va, user_va va -> leaf (v_mem s) u va = None).
Proof.
  intros Hk. destruct (boot_tables_entries m0) as (HK & HS & H1).
  destruct (test_tables_entries _ _ HK HS) as (HK1 & HS1 & HT1). destruct (data_entries _ _ PATTERN HK1 HS1 HT1) as (HK2 & HS2 & _). fold (tested (boot_tables m0)) in HK2, HS2.
  eapply runs_mono; [apply create_runs|]. intros u s [-> ->]. split; [done|]. split; [done|].
  destruct (new_space_entries _ _ HK2 HS2) as (K1 & K2 & S1). set (m := new_space _ _ _) in *. clearbody m.
  assert (Hu : forall va, user_va va -> entry m 0x208000 (idx4 va) = 0).
  { intros va Hv. pose proof (idx_range va) as [Hi _]. pose proof (idx4_user va Hv). by rewrite (kh_user _ _ _ _ K2) by lia. }
  split; [|split; [done|]; intros va Hv; unfold leaf; cbn [v_mem node]; unfold child; by rewrite Hu].
  split; cbn [v_mem g_kernel_pml4 v_pmm].
  - split; [|apply frames_taken_refines; lia]. eapply empty_space_ok; [exact K2 | done | done | lia |].
    rewrite boot_refs_spec. by eexists.
  - intros r pa [->| ->] Hp; [by apply (physmap_translates _ _ _ _ _ K2 S1) | by apply (physmap_translates _ _ _ _ _ K1 S1)].
  - intros pa Hp. by apply (identity_translates _ _ _ _ K1 S1).
  - intros va Hv. unfold translate. by rewrite Hu.
  - split; [apply (kh_kernel _ _ _ _ K2) | apply (kh_kernel _ _ _ _ K1)].
  - intros a (pa & -> & Hp & Hr)%heap_window. exists pa. split; [by apply (physmap_translates _ _ _ _ _ K2 S1) | done].
Qed.

(** C7: the memory phase of the boot brings up what the rest of the kernel stands on.  From
    the zeroed statics, whatever memory holds, [pmm_init], [vmm_init], the test of a mapping
    and [vmm_create_address_space] have results, and the test passes; then through the kernel's tables
    and those of the new address space the processor maps the physmap window to the first
    GB of physical memory byte for byte, the kernel's tables map the low 128 MB to
    themselves, the user half of the new space maps nothing, both share the entry of the
    kernel image, every address of the kernel heap reaches a frame the frame
    allocator never hands out, and the invariants of the frame allocator and of the
    page tables hold, with nine frames in use. *)
Theorem memory_boots m0 : 0 <= entry m0 0x1000 511 < 2 ^ 64 ->
  runs memory_phase (before m0) (fun r s => r.1 = true /\ r.2 <> 0 /\ g_physmap_on s = true /\ memory_up (entry m0 0x1000 511) r.2 s).
Proof.
  intros Hk. apply runs_bind. eapply runs_mono; [apply tested_runs|]. intros st s Ht. cbv beta in Ht.
  apply runs_bind. eapply runs_mono; [exact Ht|]. intros ok s1 [-> ->].
  apply runs_bind. eapply runs_mono; [by apply first_space_runs|]. intros u s2 (Hu & Hp & Hm & _). by apply runs_ret.
Qed.

Lemma memory_boots_witness : exists u s, memory_phase (before ∅) = Some ((true, u), s) /\ memory_up 0 u s.
Proof.
  pose proof (memory_boots ∅ ltac:(unfold entry; rewrite rd_empty; lia)) as H.
  apply (proj1 (runs_result _ _ _)) in H. destruct H as ([ok u] & s & E & H1 & _ & _ & H). cbn [fst snd] in H1, H. subst ok. exists u, s. split; [exact E | exact H].
Defined.
End MemInit.
