(* ===== verification/Elf.v ===== *)
(** * The ELF loader places the segments (src/proc/elf.c)

    [elf64_load_into] of Vmm.v backs the pages of every segment with fresh
    frames and then copies the file and clears the rest byte by byte through
    the physical addresses.  The proof follows the pages the loader has mapped
    so far and the frames behind them. *)
From S2P Require Import Prelude Bytes Pmm Vmm Paging.

Module Elf.
Import Vmm Paging.

(** ** Bytes of an address space *)

(** What a program reads at [va]. *)
Definition byte_at (m : mem) (r va : Z) : option Z :=
  (fun e => rd8 m (frame_of e + va mod 4096)) <$> leaf m r va.

Lemma has1 e : (Z.land e 1 =? 0) = negb (has e PAGE_PRESENT).
Proof. unfold has, ctrue, PAGE_PRESENT. by rewrite negb_involutive. Qed.

Lemma va_to_phys_leaf m r va :
  va_to_phys m r va = match leaf m r va with Some e => Z.lor (frame_of e) (Z.land va 0xFFF) | None => 0 end.
Proof.
  unfold va_to_phys, leaf. cbn [node]. unfold child. rewrite !has1.
  destruct (has (entry m r (idx4 va)) PAGE_PRESENT); [|done]. cbn [negb].
  destruct (has (entry m _ (idx3 va)) PAGE_PRESENT); [|done]. cbn [negb].
  destruct (has (entry m _ (idx2 va)) PAGE_PRESENT); [|done]. cbn [negb].
  destruct (has (entry m _ (idx1 va)) PAGE_PRESENT); done.
Qed.

(** The indices depend on the page only, and determine it. *)
Lemma idx_page va : let pg := va / 4096 in
  idx4 va = (pg / 2 ^ 27) mod 512 /\ idx3 va = (pg / 2 ^ 18) mod 512 /\ idx2 va = (pg / 2 ^ 9) mod 512 /\ idx1 va = pg mod 512.
Proof.
  unfold idx4, idx3, idx2, idx1. rewrite !idx_eq by lia. change 4096 with (2 ^ 12). rewrite !Z.div_div by lia. done.
Qed.

Lemma leaf_page m r va va' : va / 4096 = va' / 4096 -> leaf m r va = leaf m r va'.
Proof.
  intros E. pose proof (idx_page va) as (H4 & H3 & H2 & H1). pose proof (idx_page va') as (K4 & K3 & K2 & K1).
  cbv zeta in *. rewrite E in *. unfold leaf. by rewrite H4, H3, H2, H1, K4, K3, K2, K1.
Qed.

Lemma same_page_eq va va' : user_va va -> user_va va' -> same_page va va' -> va / 4096 = va' / 4096.
Proof.
  unfold user_va. intros Hv Hv' (E4 & E3 & E2 & E1). pose proof (idx_page va) as (H4 & H3 & H2 & H1).
  pose proof (idx_page va') as (K4 & K3 & K2 & K1). cbv zeta in *. rewrite H4, K4 in E4. rewrite H3, K3 in E3. rewrite H2, K2 in E2. rewrite H1, K1 in E1.
  assert (P : 0 <= va / 4096 < 2 ^ 35) by (split; [apply Z.div_pos | apply Z.div_lt_upper_bound]; lia).
  assert (P' : 0 <= va' / 4096 < 2 ^ 35) by (split; [apply Z.div_pos | apply Z.div_lt_upper_bound]; lia).
  generalize dependent (va / 4096). generalize dependent (va' / 4096). intros q K4 K3 K2 K1 P' p H4 E4 H3 E3 H2 E2 H1 E1 P.
  assert (D : forall x, 0 <= x < 2 ^ 35 -> x = x mod 512 + 512 * ((x / 2 ^ 9) mod 512) + 2 ^ 18 * ((x / 2 ^ 18) mod 512) + 2 ^ 27 * ((x / 2 ^ 27) mod 512)).
  { intros x Hx. rewrite (Z.mod_small (x / 2 ^ 27)) by (split; [apply Z.div_pos; lia | apply Z.div_lt_upper_bound; lia]).
    assert (x / 2 ^ 18 = x / 2 ^ 9 / 512) by (by rewrite Z.div_div). assert (x / 2 ^ 27 = x / 2 ^ 18 / 512) by (by rewrite Z.div_div).
    pose proof (Z.div_mod x 512). pose proof (Z.div_mod (x / 2 ^ 9) 512). pose proof (Z.div_mod (x / 2 ^ 18) 512). change (2 ^ 9) with 512 in *. lia. }
  rewrite (D p P), (D q P'). lia.
Qed.

(** The byte at offset [o] of frame [g], through the entry the loader writes. *)
Lemma frame_byte g va : 0 < g < 2 ^ 20 -> Z.lor (frame_of (leaf_entry (g * 4096) (Z.lor PAGE_RW PAGE_USER))) (Z.land va 0xFFF) = g * 4096 + va mod 4096 /\
  frame_of (leaf_entry (g * 4096) (Z.lor PAGE_RW PAGE_USER)) = g * 4096.
Proof.
  intros Hg. destruct (frame_aligned g Hg) as (Ha & Hr & _).
  destruct (leaf_entry_ok (g * 4096) (Z.lor PAGE_RW PAGE_USER) ltac:(lia) ltac:(by vm_compute)) as (_ & _ & Ef).
  rewrite (frame_of_eq (g * 4096)), Ha, Z.sub_0_r in Ef by lia. rewrite Ef. split; [|done].
  change 0xFFF with (Z.ones 12). rewrite Z.land_ones by lia. apply lor_flags; [done|]. apply Z.mod_pos_bound. lia.
Qed.

(** A byte of a frame depends on the words of the frame. *)
Lemma rd8_frame m m' g o : (forall i, 0 <= i < 512 -> rd m' (g * 4096 + 8 * i) = rd m (g * 4096 + 8 * i)) -> 0 <= o < 4096 ->
  rd8 m' (g * 4096 + o) = rd8 m (g * 4096 + o).
Proof.
  intros H Ho. unfold rd8. pose proof (Z.div_mod o 8). pose proof (Z.mod_pos_bound o 8).
  replace (8 * ((g * 4096 + o) / 8)) with (g * 4096 + 8 * (o / 8)).
  - by rewrite H by lia.
  - replace (g * 4096 + o) with (o + (g * 512) * 8) by lia. rewrite Z.div_add by lia. lia.
Qed.

(** Storing a byte of frame [g] changes no word outside it. *)
Lemma wr8_frame m g o v a : 0 <= o < 4096 -> a < g * 4096 \/ g * 4096 + 4096 <= a -> rd (wr8 m (g * 4096 + o) v) a = rd m a.
Proof.
  intros Ho Ha. unfold wr8. apply rd_wr_ne. pose proof (Z.div_mod (g * 4096 + o) 8). pose proof (Z.mod_pos_bound (g * 4096 + o) 8). lia.
Qed.

(** ** The pages of the loader *)

Section Load.
Context (As : Z -> Prop) (n r0 : Z) (Hr0 : As r0).
Abbreviation UFLAGS := (Z.lor PAGE_RW PAGE_USER).

(** From the state [R0, m0]: [O] maps the pages loaded so far to their frames,
    which are fresh, distinct and hold no table.  Nothing else has changed. *)
Record own (R0 : gmap Z Z) (m0 : mem) (O R : gmap Z Z) (m : mem) : Prop := {
  o_page : forall pg g, O !! pg = Some g -> 0 < g < 2 ^ 20 /\ data As R m g /\ R0 !! g = None /\
             0 <= pg < 2 ^ 35 /\ leaf m r0 (pg * 4096) = Some (leaf_entry (g * 4096) UFLAGS);
  o_inj : forall pg pg' g, O !! pg = Some g -> O !! pg' = Some g -> pg = pg';
  o_grow : forall f, is_Some (R0 !! f) -> is_Some (R !! f);
  o_keeps : keeps_data As R0 m0 R m;
  o_others : forall r va, As r -> user_va va -> r <> r0 \/ O !! (va / 4096) = None -> leaf m r va = leaf m0 r va
}.

Definition grows (R R' : gmap Z Z) : Prop := forall f, is_Some (R !! f) -> is_Some (R' !! f).

(** The contents of the pages in [O]. *)
Definition cont (O : gmap Z Z) (m : mem) (va : Z) : option Z :=
  (fun g => rd8 m (g * 4096 + va mod 4096)) <$> O !! (va / 4096).
Definition same_cont (O : gmap Z Z) (m : mem) (O' : gmap Z Z) (m' : mem) : Prop :=
  forall va, is_Some (O !! (va / 4096)) -> cont O' m' va = cont O m va.

Lemma own_byte R0 m0 O R m va : own R0 m0 O R m -> is_Some (O !! (va / 4096)) -> byte_at m r0 va = cont O m va.
Proof using.
  intros Ho [g Hg]. destruct (o_page _ _ _ _ _ Ho _ _ Hg) as (Hgr & _ & _ & _ & Hl). unfold byte_at, cont. rewrite Hg.
  rewrite (leaf_page m r0 va (va / 4096 * 4096)), Hl by (by rewrite Z.div_mul). cbn. by destruct (frame_byte g va Hgr) as [_ ->].
Qed.

Lemma own_data R0 m0 O R m : own R0 m0 O R m -> forall pg g, O !! pg = Some g -> data As R m g.
Proof using. intros Ho pg g Hg. by destruct (o_page _ _ _ _ _ Ho pg g Hg) as (_ & ? & _). Qed.

Lemma cont_keeps O R m O' R' m' : (forall pg g, O !! pg = Some g -> data As R m g) -> O ⊆ O' -> keeps_data As R m R' m' ->
  same_cont O m O' m'.
Proof using.
  intros Hd Hsub Hk va [g Hg]. unfold cont. rewrite Hg, (lookup_weaken _ _ _ _ Hg Hsub). cbn. f_equal.
  apply rd8_frame; [|apply Z.mod_pos_bound; lia]. by apply Hk, (Hd _ _ Hg).
Qed.

Lemma same_cont_trans O1 m1 O2 m2 O3 m3 : O1 ⊆ O2 -> same_cont O1 m1 O2 m2 -> same_cont O2 m2 O3 m3 -> same_cont O1 m1 O3 m3.
Proof using.
  intros Hs H1 H2 va Hv. rewrite H2, H1; [done | done |]. destruct Hv as [g Hg]. exists g. by eapply lookup_weaken.
Qed.

Lemma alloc_keeps R m f : tables_ok As R m -> tables_ok As (<[f := 1]> R) m /\ keeps_data As R m (<[f := 1]> R) m.
Proof using.
  intros HT. assert (Hg : forall x, is_Some (R !! x) -> is_Some (<[f := 1]> R !! x)).
  { intros x Hx. apply lookup_insert_is_Some'. by right. }
  split; [by apply (data_frame_ok As R _ m m)|]. intros g [H1 H2]. split; [split; [by apply Hg | done] | done].
Qed.

Lemma fresh_data R m f : tables_ok As R m -> R !! f = None -> data As (<[f := 1]> R) m f.
Proof using.
  intros HT Hf. split; [rewrite lookup_insert_eq; by eexists|]. intros r p Hr Hp E.
  destruct (t_frame _ _ _ HT r p _ Hr Hp E) as (_ & _ & [x Hx]). rewrite Z.div_mul in Hx by lia. congruence.
Qed.

(** The invariant after a change that keeps the data frames, with one page more
    or none. *)
Lemma own_step R0 m0 O R m R' m' : own R0 m0 O R m -> (forall f, is_Some (R !! f) -> is_Some (R' !! f)) ->
  keeps_data As R m R' m' -> leaves_same As m m' -> own R0 m0 O R' m'.
Proof using Hr0.
  intros [P1 P2 P3 P4 P5] HR Hk Hl. split; [| done | by eauto | by eapply keeps_data_trans |].
  - intros pg g Hg. destruct (P1 pg g Hg) as (G1 & G2 & G3 & G4 & G5). split_and!; try done; try lia; [by apply (Hk g)..|].
    rewrite Hl; [done | done |]. unfold user_va. lia.
  - intros r va Hr Hv Hne. rewrite Hl by done. by apply P5.
Qed.

Lemma own_map R0 m0 O R m R' m' pg f : own R0 m0 O R m -> (forall x, is_Some (R !! x) -> is_Some (R' !! x)) ->
  keeps_data As R m R' m' -> 0 <= pg < 2 ^ 35 -> O !! pg = None -> 0 < f < 2 ^ 20 -> data As R m f -> R0 !! f = None ->
  (forall q, O !! q <> Some f) -> leaf m' r0 (pg * 4096) = Some (leaf_entry (f * 4096) UFLAGS) ->
  others_same As m m' r0 (pg * 4096) -> own R0 m0 (<[pg := f]> O) R' m'.
Proof using Hr0.
  intros [P1 P2 P3 P4 P5] HR Hk Hpg HO Hf Hd HR0 Hnew Hl Ho.
  assert (Hup : user_va (pg * 4096)) by (unfold user_va; lia). split.
  - intros q g. rewrite lookup_insert_Some. intros [[<- <-]|[Hne Hg]]; [split_and!; try done; try lia; by apply (Hk f)|].
    destruct (P1 q g Hg) as (G1 & G2 & G3 & G4 & G5). split_and!; try done; try lia; [by apply (Hk g)..|].
    assert (user_va (q * 4096)) by (unfold user_va; lia). rewrite Ho; [done | done | done |]. right. intros E.
    apply same_page_eq in E; [|done|done]. rewrite !Z.div_mul in E by lia. congruence.
  - intros q q' g. rewrite !lookup_insert_Some. intros [[<- <-]|[Hne Hg]] [[<- E]|[Hne' Hg']]; try done; [by destruct (Hnew q') | subst; by destruct (Hnew q) | by eapply P2].
  - by eauto.
  - by eapply keeps_data_trans.
  - intros r va Hr Hv Hne. rewrite Ho; [apply P5 | done | done |]; try done.
    + destruct Hne as [?|Hne]; [by left|]. right. by apply lookup_insert_None in Hne as [? _].
    + destruct Hne as [?|Hne]; [by left|]. right. intros E. apply same_page_eq in E; [|done|done]. rewrite Z.div_mul in E by lia.
      apply lookup_insert_None in Hne as [_ Hne]. congruence.
Qed.

(** One round of the mapping loop. *)
Lemma page_step R0 m0 O R s pg (k : MV bool) (Q : bool -> vmm -> Prop) : vm_ok As n R s -> own R0 m0 O R (v_mem s) ->
  0 <= pg < 2 ^ 35 -> O !! pg = None ->
  (forall s', exhausted n R -> vm_ok As n R s' -> v_mem s' = v_mem s -> Q false s') ->
  (forall R' O' s', vm_ok As n R' s' -> grows R R' -> own R0 m0 O' R' (v_mem s') -> same_cont O (v_mem s) O' (v_mem s') ->
     (exists f, O' = <[pg := f]> O) \/ (O' = O /\ exhausted n R') -> runs k s' Q) ->
  runs (let* fr := pmm_alloc in if fr =? 0 then ret false else let* _ := vmm_map_page_into r0 (pg * 4096) fr UFLAGS in k) s Q.
Proof using Hr0.
  intros [HT HR] Ho Hpg HO Hno Hyes. destruct s as [m p kp on]. cbn [v_mem v_pmm] in *. assert (Hup : user_va (pg * 4096)) by (unfold user_va; lia).
  apply runs_bind. apply (pmm_alloc_runs n m p kp on R); [done | |].
  { intros p' Hex HR'. apply runs_ret. by apply Hno. }
  intros f p' Hf HRf HR'. rewrite (proj2 (Z.eqb_neq (f * 4096) 0)) by lia.
  destruct (alloc_keeps R m f HT) as [HT' Hk]. pose proof (fresh_data R m f HT HRf) as Hfd.
  assert (Hgrow : forall x, is_Some (R !! x) -> is_Some (<[f := 1]> R !! x)) by (intros x Hx; apply lookup_insert_is_Some'; by right).
  assert (Ho' : own R0 m0 O (<[f := 1]> R) m) by (by apply (own_step _ _ _ R m)).
  assert (Hnew : forall q, O !! q <> Some f).
  { intros q Hq. destruct (o_page _ _ _ _ _ Ho _ _ Hq) as (_ & [[x Hx] _] & _). congruence. }
  assert (HR0 : R0 !! f = None).
  { destruct (R0 !! f) eqn:E; [|done]. destruct (o_grow _ _ _ _ _ Ho f) as [x Hx]; [by eexists | congruence]. }
  apply runs_bind. eapply runs_mono; [apply (map_page_runs As n (<[f := 1]> R) (mkVmm m p' kp on) r0 (pg * 4096)); [by split | done | done | lia | by vm_compute]|].
  intros res s' (R' & Hv & Hg & Hkd & Hres). cbn [v_mem] in *.
  assert (Hsub : O ⊆ <[pg := f]> O) by (by apply insert_subseteq).
  destruct Hres as [(_ & Hl & Hoth)|(_ & Hex & Hl)].
  - apply (Hyes R' (<[pg := f]> O)); [done | by intros x Hx; apply Hg, Hgrow | by apply (own_map _ _ _ (<[f := 1]> R) m) | | left; by exists f].
    eapply cont_keeps; [|done | exact Hkd]. by eapply own_data.
  - apply (Hyes R' O); [done | by intros x Hx; apply Hg, Hgrow | by apply (own_step _ _ _ (<[f := 1]> R) m) | | by right].
    eapply cont_keeps; [|done | exact Hkd]. by eapply own_data.
Qed.

Lemma exhausted_grow R R' : exhausted n R -> grows R R' -> exhausted n R'.
Proof using. intros H Hg f Hf. destruct (H f Hf); [by left | right; by apply Hg]. Qed.

(** The mapping loop maps every page or runs out of frames. *)
Lemma map_pages_runs R0 m0 fuel : forall O R s pg pe, vm_ok As n R s -> own R0 m0 O R (v_mem s) -> 0 <= pg -> pe < 2 ^ 35 ->
  (forall q, pg <= q < pe -> O !! q = None) -> (Z.to_nat (pe - pg) < fuel)%nat ->
  runs (map_pages fuel r0 (pg * 4096) (pe * 4096)) s (fun ok s' => exists R' O', vm_ok As n R' s' /\ grows R R' /\ own R0 m0 O' R' (v_mem s') /\
    O ⊆ O' /\ same_cont O (v_mem s) O' (v_mem s') /\ (forall q, is_Some (O' !! q) -> is_Some (O !! q) \/ pg <= q < pe) /\
    ((ok = true /\ forall q, pg <= q < pe -> is_Some (O' !! q)) \/ exhausted n R')).
Proof using Hr0.
  induction fuel as [|fuel IH]; intros O R s pg pe Hv Ho Hpg Hpe HO Hf; [lia|]. cbn [map_pages].
  destruct (Z.ltb_spec (pg * 4096) (pe * 4096)) as [Hlt|Hge]; cycle 1.
  { apply runs_ret. exists R, O. split_and!; try done; [by intros x | by left|]. left. split; [done|]. intros q Hq. lia. }
  apply (page_step R0 m0 O R s pg); [done | done | lia | apply HO; lia | |].
  { intros s' Hex Hv' Em. exists R, O. rewrite Em. split_and!; try done; [by intros x | by left | by right]. }
  intros R1 O1 s1 Hv1 Hg1 Ho1 Hc1 Hcase. replace (u64 (pg * 4096 + 0x1000)) with ((pg + 1) * 4096) by (rewrite u64_id; lia).
  assert (Hsub : O ⊆ O1) by (destruct Hcase as [[f ->]|[-> _]]; [apply insert_subseteq, HO; lia | done]).
  eapply runs_mono; [apply (IH O1 R1 s1 (pg + 1) pe); [done | done | lia | done | | lia]|].
  { intros q Hq. destruct Hcase as [[f ->]|[-> _]]; [rewrite lookup_insert_ne by lia|]; apply HO; lia. }
  intros ok s2 (R2 & O2 & Hv2 & Hg2 & Ho2 & Hs2 & Hc2 & Hd2 & Hr2). exists R2, O2.
  split_and!; [done | by intros x Hx; apply Hg2, Hg1 | done | by etrans | by eapply same_cont_trans | |].
  - intros q Hq. destruct (Hd2 q Hq) as [Hq1|]; [|right; lia]. destruct Hcase as [[f ->]|[-> _]]; [|by left].
    apply lookup_insert_is_Some' in Hq1 as [<-|?]; [right; lia | by left].
  - destruct Hr2 as [[-> Hall]|Hex]; [|by right]. destruct Hcase as [[f ->]|[-> Hex]].
    + left. split; [done|]. intros q Hq. destruct (Z.eq_dec q pg) as [->|]; [|apply Hall; lia].
      exists f. eapply lookup_weaken; [apply lookup_insert_eq | done].
    + right. by eapply exhausted_grow.
Qed.

End Load.

(** ** Filling a segment *)

Definition seg_byte (img : list Z) (ph : elf64_phdr) (b : Z) : Z :=
  if b <? p_filesz ph then byte img (p_offset ph + b) else 0.

Section Fill.
Context (As : Z -> Prop) (n r0 : Z) (Hr0 : As r0).
Abbreviation own := (own As r0).

(** A store inside a page of the loader. *)
Lemma store_in_page R0 m0 O R m m' pg g : tables_ok As R m -> own R0 m0 O R m -> O !! pg = Some g ->
  (forall a, a < g * 4096 \/ g * 4096 + 4096 <= a -> rd m' a = rd m a) -> tables_ok As R m' /\ own R0 m0 O R m'.
Proof using Hr0.
  intros HT Ho Hg Hw'. destruct (o_page _ _ _ _ _ _ _ Ho _ _ Hg) as (Hgr & [_ Hnt] & HR0 & _).
  assert (Hw : forall t, t mod 4096 = 0 -> t <> g * 4096 -> forall i, 0 <= i < 512 -> rd m' (t + 8 * i) = rd m (t + 8 * i)).
  { intros t Ht Hne i Hi. apply Hw'. pose proof (Z.div_mod t 4096). lia. }
  destruct (data_frame_ok As R R m m' HT) as (HT' & Hn & Hl); [done | |].
  { intros r p t i Hr Hp E Hi. destruct (t_frame _ _ _ HT r p t Hr Hp E) as (A & _). apply Hw; [done | | done].
    intros ->. by apply (Hnt r p). }
  assert (Hdat : forall x, data As R m x -> data As R m' x).
  { intros x [H1 H2]. split; [done|]. intros r p Hr Hp. rewrite Hn by done. by apply H2. }
  split; [done|]. destruct Ho as [P1 P2 P3 P4 P5]. split; [| done | done | |].
  - intros q x Hx. destruct (P1 q x Hx) as (G1 & G2 & G3 & G4 & G5). split_and!; try done; try lia; [by apply Hdat..|].
    rewrite Hl; [done | done |]. unfold user_va. lia.
  - intros x Hx. destruct (P4 x Hx) as [D E]. split; [by apply Hdat|]. intros i Hi. rewrite Hw; [by apply E | by apply Z.mod_mul | | done].
    intros Ex. assert (x = g) as -> by lia. destruct Hx as [[y Hy] _]. congruence.
  - intros r a Hr Ha Hne. rewrite Hl by done. by apply P5.
Qed.

(** Storing a byte, and clearing a word. *)
Lemma store_byte R0 m0 O R m va g v : tables_ok As R m -> own R0 m0 O R m -> O !! (va / 4096) = Some g -> 0 <= v < 256 ->
  let m' := wr8 m (g * 4096 + va mod 4096) v in
  tables_ok As R m' /\ own R0 m0 O R m' /\ forall a, is_Some (O !! (a / 4096)) -> cont O m' a = if a =? va then Some v else cont O m a.
Proof using Hr0.
  intros HT Ho Hg Hv m'. pose proof (Z.mod_pos_bound va 4096 ltac:(lia)) as Hm. pose proof (Z.div_mod va 4096 ltac:(lia)) as Hd.
  destruct (store_in_page R0 m0 O R m m' _ g HT Ho Hg) as [HT' Ho']; [by intros a Ha; apply wr8_frame|]. split_and!; [done | done |].
  intros a [x Hx]. unfold cont. rewrite Hx. cbn. unfold m'. rewrite rd8_wr8 by done.
  pose proof (Z.mod_pos_bound a 4096 ltac:(lia)). pose proof (Z.div_mod a 4096 ltac:(lia)).
  destruct (Z.eqb_spec a va) as [->|Hne].
  - assert (x = g) as -> by congruence. by rewrite Z.eqb_refl.
  - rewrite (proj2 (Z.eqb_neq _ _)); [done|]. intros E. assert (x = g) as -> by lia.
    pose proof (o_inj _ _ _ _ _ _ _ Ho _ _ _ Hx Hg). lia.
Qed.

Lemma clear_word R0 m0 O R m pg g i : tables_ok As R m -> own R0 m0 O R m -> O !! pg = Some g -> 0 <= i < 512 ->
  let m' := wr m (g * 4096 + 8 * i) 0 in
  tables_ok As R m' /\ own R0 m0 O R m' /\
  forall a, is_Some (O !! (a / 4096)) -> cont O m' a = if (a / 4096 =? pg) && (a mod 4096 / 8 =? i) then Some 0 else cont O m a.
Proof using Hr0.
  intros HT Ho Hg Hi m'. destruct (store_in_page R0 m0 O R m m' _ g HT Ho Hg) as [HT' Ho']; [intros a Ha; apply rd_wr_ne; lia|].
  split_and!; [done | done |]. intros a [x Hx]. unfold cont. rewrite Hx. cbn. unfold rd8, m'.
  pose proof (Z.mod_pos_bound a 4096 ltac:(lia)) as Hm. pose proof (Z.div_mod (a mod 4096) 8 ltac:(lia)) as Hd. pose proof (Z.mod_pos_bound (a mod 4096) 8 ltac:(lia)).
  replace ((x * 4096 + a mod 4096) / 8) with (x * 512 + a mod 4096 / 8) by (replace (x * 4096 + a mod 4096) with (a mod 4096 + (x * 512) * 8) by lia; rewrite Z.div_add by lia; lia).
  destruct (Z.eqb_spec (a / 4096) pg) as [E|E], (Z.eqb_spec (a mod 4096 / 8) i) as [E'|E']; cbn [andb].
  1: assert (x = g) as -> by congruence; replace (8 * (g * 512 + a mod 4096 / 8)) with (g * 4096 + 8 * i) by lia; by rewrite rd_wr_eq, Z.shiftr_0_l.
  all: rewrite rd_wr_ne; [done|]; intros C; assert (Hxg : x = g) by lia.
  - lia.
  - subst x. by pose proof (o_inj _ _ _ _ _ _ _ Ho _ _ _ Hx Hg).
  - lia.
Qed.

Lemma field_byte img o : 0 <= o < Z.of_nat (length img) -> field img o 1 = Some (byte img o).
Proof using.
  intros Ho. unfold field, byte, slice. rewrite (proj2 (Z.leb_le 0 o)), (proj2 (Z.leb_le (o + 1) _)) by lia. cbn [andb]. f_equal.
  destruct (lookup_lt_is_Some_2 img (Z.to_nat o) ltac:(lia)) as [x Hx]. rewrite (drop_S img x _ Hx), (nth_lookup_Some _ _ _ _ Hx).
  change (Z.to_nat 1) with 1%nat. rewrite firstn_cons, take_0. cbn [le_val]. lia.
Qed.

(** A segment of the user half whose file part is inside the image. *)
Definition good_seg (img : list Z) (ph : elf64_phdr) : Prop :=
  0 <= p_vaddr ph /\ 0 <= p_memsz ph /\ p_vaddr ph + p_memsz ph + 0x1000 <= 2 ^ 47 /\
  0 <= p_offset ph /\ p_filesz ph <= p_memsz ph /\ p_offset ph + p_filesz ph <= Z.of_nat (length img) /\
  (forall o, p_offset ph <= o < p_offset ph + p_filesz ph -> 0 <= byte img o < 256).

Lemma seg_value img ph b : good_seg img ph -> 0 <= b < p_memsz ph ->
  (if b <? p_filesz ph then field img (p_offset ph + b) 1 else Some 0) = Some (seg_byte img ph b) /\ 0 <= seg_byte img ph b < 256.
Proof using.
  intros (_ & _ & _ & Ho & _ & Hf & Hb) Hr. unfold seg_byte. destruct (Z.ltb_spec b (p_filesz ph)); [|split; [done | lia]].
  rewrite field_byte by lia. split; [done|]. apply Hb. lia.
Qed.

(** The copying loop from byte [b] on: either a page of the segment is missing,
    or all its bytes are in place. *)
Lemma fill_runs R0 m0 O R img ph : good_seg img ph ->
  (forall va, p_vaddr ph <= va < p_vaddr ph + p_memsz ph -> leaf m0 r0 va = None) ->
  forall k b s, vm_ok As n R s -> own R0 m0 O R (v_mem s) -> 0 <= b -> b + Z.of_nat k = p_memsz ph ->
  runs (fill_segment k b r0 img ph) s (fun ok s' => vm_ok As n R s' /\ own R0 m0 O R (v_mem s') /\
    if ok then (forall va, b <= va - p_vaddr ph < p_memsz ph -> is_Some (O !! (va / 4096))) /\ forall va, is_Some (O !! (va / 4096)) ->
      cont O (v_mem s') va = if (b <=? va - p_vaddr ph) && (va - p_vaddr ph <? p_memsz ph) then Some (seg_byte img ph (va - p_vaddr ph)) else cont O (v_mem s) va
    else exists va, p_vaddr ph <= va < p_vaddr ph + p_memsz ph /\ O !! (va / 4096) = None).
Proof using Hr0.
  intros Hg Hun. pose proof Hg as (Hva & _ & Hhi & _). induction k as [|k IH]; intros b s Hv Ho Hb0 Hbk; cbn [fill_segment].
  { apply runs_ret. split_and!; [done | done | intros va ?; lia |]. intros va _.
    destruct (Z.leb_spec b (va - p_vaddr ph)), (Z.ltb_spec (va - p_vaddr ph) (p_memsz ph)); cbn [andb]; lia || done. }
  apply runs_bind. unfold runs at 1. words. set (va := p_vaddr ph + b). rewrite va_to_phys_leaf.
  assert (Huv : user_va va) by (unfold user_va, va; lia).
  destruct (O !! (va / 4096)) as [g|] eqn:HO; cycle 1.
  { rewrite (o_others _ _ _ _ _ _ _ Ho r0 va Hr0 Huv (or_intror HO)), Hun by (unfold va; lia). rewrite Z.eqb_refl. apply runs_ret.
    split_and!; [done | done |]. exists va. split; [unfold va; lia | done]. }
  destruct (o_page _ _ _ _ _ _ _ Ho _ _ HO) as (Hgr & _ & _ & _ & Hl). rewrite (leaf_page _ _ va (va / 4096 * 4096)), Hl by (by rewrite Z.div_mul).
  destruct (frame_byte g va Hgr) as [-> _]. pose proof (Z.mod_pos_bound va 4096 ltac:(lia)). rewrite (proj2 (Z.eqb_neq _ 0)) by lia.
  destruct (seg_value img ph b Hg ltac:(lia)) as [-> Hvr].
  destruct (store_byte R0 m0 O R (v_mem s) va g (seg_byte img ph b) (vm_tables _ _ _ _ Hv) Ho HO Hvr) as (HT' & Ho' & Hc').
  apply runs_bind. unfold modify at 1, runs at 1. eapply runs_mono; [apply IH; [split; [exact HT' | exact (vm_frames _ _ _ _ Hv)] | exact Ho' | lia | lia]|].
  intros ok s' (Hv' & Ho2 & Hr). split_and!; [done | done |]. destruct ok; [|done]. destruct Hr as [Hpg Hr]. split.
  { intros a Ha. destruct (Z.eq_dec a va) as [->|]; [by exists g | apply Hpg; unfold va in *; lia]. }
  intros a Ha. rewrite (Hr a Ha). cbn [v_mem set_mem]. rewrite (Hc' a Ha).
  unfold va. destruct (Z.eqb_spec a (p_vaddr ph + b)) as [->|Hne].
  - replace (p_vaddr ph + b - p_vaddr ph) with b by lia. rewrite (proj2 (Z.leb_gt (b + 1) b)), Z.leb_refl, (proj2 (Z.ltb_lt b _)) by lia. done.
  - destruct (Z.leb_spec (b + 1) (a - p_vaddr ph)), (Z.leb_spec b (a - p_vaddr ph)); cbn [andb]; lia || done.
Qed.
End Fill.

(** ** Loading an image *)

(** The program headers of an image. *)
Fixpoint headers (k : nat) (img : list Z) (o : Z) : option (list elf64_phdr) :=
  match k with
  | O => Some []
  | S k => ph ← phdr_at img o; l ← headers k img (o + 56); Some (ph :: l)
  end.

Definition loads (l : list elf64_phdr) : list elf64_phdr := filter (fun ph => p_type ph = PT_LOAD) l.

(** The pages of a segment. *)
Definition first_page (ph : elf64_phdr) : Z := p_vaddr ph / 4096.
Definition end_page (ph : elf64_phdr) : Z := (p_vaddr ph + p_memsz ph + 0xFFF) / 4096.
Definition in_seg (ph : elf64_phdr) (pg : Z) : Prop := first_page ph <= pg < end_page ph.

Definition apart (ph ph' : elf64_phdr) : Prop := end_page ph <= first_page ph' \/ end_page ph' <= first_page ph.
Fixpoint all_apart (l : list elf64_phdr) : Prop :=
  match l with [] => True | ph :: l => Forall (apart ph) l /\ all_apart l end.

Lemma seg_bounds img ph : good_seg img ph ->
  frame_of (p_vaddr ph) = first_page ph * 4096 /\ frame_of (u64 (p_vaddr ph + p_memsz ph + 0xFFF)) = end_page ph * 4096 /\
  0 <= first_page ph <= end_page ph /\ end_page ph < 2 ^ 35.
Proof.
  intros (Hv & Hm & Hhi & _). unfold first_page, end_page. rewrite u64_id, !frame_of_eq by lia.
  pose proof (Z.div_mod (p_vaddr ph) 4096 ltac:(lia)). pose proof (Z.mod_pos_bound (p_vaddr ph) 4096 ltac:(lia)).
  pose proof (Z.div_mod (p_vaddr ph + p_memsz ph + 0xFFF) 4096 ltac:(lia)). pose proof (Z.mod_pos_bound (p_vaddr ph + p_memsz ph + 0xFFF) 4096 ltac:(lia)). lia.
Qed.

Lemma in_seg_va img ph va : good_seg img ph -> p_vaddr ph <= va < p_vaddr ph + p_memsz ph -> in_seg ph (va / 4096) /\ user_va va.
Proof.
  intros (Hv & Hm & Hhi & _) Hr. unfold in_seg, first_page, end_page, user_va. split; [|lia].
  pose proof (Z.div_mod (p_vaddr ph) 4096 ltac:(lia)). pose proof (Z.mod_pos_bound (p_vaddr ph) 4096 ltac:(lia)).
  pose proof (Z.div_mod va 4096 ltac:(lia)). pose proof (Z.mod_pos_bound va 4096 ltac:(lia)).
  pose proof (Z.div_mod (p_vaddr ph + p_memsz ph + 0xFFF) 4096 ltac:(lia)). pose proof (Z.mod_pos_bound (p_vaddr ph + p_memsz ph + 0xFFF) 4096 ltac:(lia)). lia.
Qed.

Section Segments.
Context (As : Z -> Prop) (n r0 : Z) (Hr0 : As r0) (img : list Z).
Abbreviation own := (own As r0).

(** The bytes of a segment are in the pages [O]. *)
Definition placed (O : gmap Z Z) (m : mem) (ph : elf64_phdr) : Prop := forall va, p_vaddr ph <= va < p_vaddr ph + p_memsz ph ->
  is_Some (O !! (va / 4096)) /\ cont O m va = Some (seg_byte img ph (va - p_vaddr ph)).

Lemma placed_keeps O m O' m' ph : placed O m ph -> O ⊆ O' -> same_cont O m O' m' -> placed O' m' ph.
Proof using.
  intros H Hs Hc va Hva. destruct (H va Hva) as [[g Hg] E]. split; [exists g; by eapply lookup_weaken|]. rewrite Hc; [done | by eexists].
Qed.

(** One segment: mapped and filled, or no frame left. *)
Lemma segment_runs R0 m0 O R s ph (k : MV (option Z)) (Q : option Z -> vmm -> Prop) : good_seg img ph ->
  (forall va, user_va va -> in_seg ph (va / 4096) -> leaf m0 r0 va = None) ->
  (forall q, in_seg ph q -> O !! q = None) -> vm_ok As n R s -> own R0 m0 O R (v_mem s) ->
  (forall R' O' s', vm_ok As n R' s' -> own R0 m0 O' R' (v_mem s') -> (forall q, is_Some (O' !! q) -> is_Some (O !! q) \/ in_seg ph q) ->
     exhausted n R' -> Q None s') ->
  (forall R' O' s', vm_ok As n R' s' -> own R0 m0 O' R' (v_mem s') -> (forall q, is_Some (O' !! q) -> is_Some (O !! q) \/ in_seg ph q) ->
     O ⊆ O' -> same_cont O (v_mem s) O' (v_mem s') -> placed O' (v_mem s') ph -> runs k s' Q) ->
  runs (let* ok := map_pages (Z.to_nat (Z.max 0 (frame_of (u64 (p_vaddr ph + p_memsz ph + 0xFFF)) - frame_of (p_vaddr ph)) / 0x1000 + 1)) r0
                     (frame_of (p_vaddr ph)) (frame_of (u64 (p_vaddr ph + p_memsz ph + 0xFFF))) in
        if negb ok then ret None
        else let* ok := fill_segment (Z.to_nat (p_memsz ph)) 0 r0 img ph in if negb ok then ret None else k) s Q.
Proof using Hr0.
  intros Hg Hun HO Hv Ho Hno Hyes. destruct (seg_bounds img ph Hg) as (-> & -> & Hp & Hpe). pose proof Hg as (_ & Hms & _).
  apply runs_bind. eapply runs_mono; [apply (map_pages_runs As n r0 Hr0 R0 m0 _ O R s (first_page ph) (end_page ph)); [done | done | lia | done | done |]|].
  { replace (end_page ph * 4096 - first_page ph * 4096) with ((end_page ph - first_page ph) * 4096) by lia.
    rewrite Z.max_r, Z.div_mul by lia. lia. }
  intros ok s1 (R1 & O1 & Hv1 & _ & Ho1 & Hs1 & Hc1 & Hd1 & Hr1). destruct ok; cbn [negb].
  2:{ apply runs_ret. destruct Hr1 as [[? _]|Hex]; [done|]. by apply (Hno R1 O1). }
  apply runs_bind. eapply runs_mono; [apply (fill_runs As n r0 Hr0 R0 m0 O1 R1 img ph); [done | | done | done | lia | lia]|].
  { intros va Hva. destruct (in_seg_va img ph va Hg Hva). by apply Hun. }
  intros ok s2 (Hv2 & Ho2 & Hr2). destruct ok; cbn [negb].
  - destruct Hr2 as [Hpg Hcont]. apply (Hyes R1 O1); try done.
    + intros va Hva. rewrite Hcont by (destruct Hva as [g Hg']; exists g; by eapply lookup_weaken). rewrite Hc1 by done.
      destruct (Z.leb_spec 0 (va - p_vaddr ph)), (Z.ltb_spec (va - p_vaddr ph) (p_memsz ph)); cbn [andb]; try done.
      destruct (in_seg_va img ph va Hg ltac:(lia)) as [Hin _]. specialize (HO _ Hin). destruct Hva. congruence.
    + intros va Hva. split; [apply Hpg; lia|]. rewrite Hcont by (apply Hpg; lia).
      by rewrite (proj2 (Z.leb_le 0 _)), (proj2 (Z.ltb_lt _ (p_memsz ph))) by lia.
  - apply runs_ret. destruct Hr2 as (va & Hva & Hnone). destruct Hr1 as [[_ Hall]|Hex]; [|by apply (Hno R1 O1)].
    destruct (in_seg_va img ph va Hg Hva) as [Hin _]. destruct (Hall _ Hin). congruence.
Qed.

(** The loop over the program headers. *)
Lemma load_segments_runs R0 m0 k : forall o O R s load_end phs, headers k img o = Some phs -> Forall (good_seg img) (loads phs) ->
  all_apart (loads phs) -> (forall ph va, ph ∈ loads phs -> user_va va -> in_seg ph (va / 4096) -> leaf m0 r0 va = None) ->
  (forall ph q, ph ∈ loads phs -> in_seg ph q -> O !! q = None) -> vm_ok As n R s -> own R0 m0 O R (v_mem s) ->
  runs (load_segments k o r0 img load_end) s (fun r s' => exists R' O', vm_ok As n R' s' /\ own R0 m0 O' R' (v_mem s') /\
    (forall q, is_Some (O' !! q) -> is_Some (O !! q) \/ exists ph, ph ∈ loads phs /\ in_seg ph q) /\
    match r with
    | Some e => e = foldl (fun e ph => Z.max e (end_page ph * 4096)) load_end (loads phs) /\ O ⊆ O' /\ same_cont O (v_mem s) O' (v_mem s') /\
        Forall (placed O' (v_mem s')) (loads phs)
    | None => exhausted n R'
    end).
Proof using Hr0.
  induction k as [|k IH]; intros o O R s load_end phs Hh Hg Hap Hun HO Hv Ho; cbn [headers load_segments] in *.
  { injection Hh as <-. apply runs_ret. exists R, O. split_and!; try done. by left. }
  destruct (phdr_at img o) as [ph|]; [|done]. destruct (headers k img (o + 56)) as [l|] eqn:El; [|done]. injection Hh as <-.
  unfold loads in *. rewrite filter_cons in *. fold loads in *. destruct (Z.eqb_spec (p_type ph) PT_LOAD) as [Ht|Ht]; cbn [negb].
  2:{ rewrite decide_False in * by done. by apply (IH _ O R s load_end l). }
  rewrite decide_True in * by done. apply Forall_cons in Hg as [Hg Hgl]. destruct Hap as [Hap Hapl].
  assert (Hin : ph ∈ ph :: loads l) by (by left). destruct (seg_bounds img ph Hg) as (_ & Hend & _).
  apply (segment_runs R0 m0 O R s ph); [done | by intros; eapply Hun | by intros; eapply HO | done | done | |].
  { intros R' O' s' Hv' Ho' Hd Hex. exists R', O'. split_and!; try done. intros q Hq. destruct (Hd q Hq); [by left | right; by exists ph]. }
  intros R1 O1 s1 Hv1 Ho1 Hd1 Hs1 Hc1 Hpl1. eapply runs_mono; [apply (IH _ O1 R1 s1 _ l); [done | done | done | | | done | done]|].
  { intros ph' va Hph. apply Hun. by right. }
  { intros ph' q Hph Hq. destruct (O1 !! q) eqn:E; [|done]. destruct (Hd1 q) as [[g Hg']|Hq']; [by eexists | |].
    - rewrite (HO ph' q) in Hg'; [done | by right | done].
    - rewrite Forall_forall in Hap. unfold in_seg in *. destruct (Hap ph' Hph); lia. }
  intros r s2 (R2 & O2 & Hv2 & Ho2 & Hd2 & Hr2). exists R2, O2. split_and!; [done | done | |].
  - intros q Hq. destruct (Hd2 q Hq) as [Hq1|(ph' & Hph & Hq')]; [|right; exists ph'; split; [by right | done]].
    destruct (Hd1 q Hq1); [by left | right; by exists ph].
  - destruct r as [e|]; [|done]. destruct Hr2 as (-> & Hs2 & Hc2 & Hpl2). split_and!; [| by etrans | by eapply same_cont_trans |].
    + cbn [foldl]. f_equal. rewrite Hend. destruct (Z.ltb_spec load_end (end_page ph * 4096)); lia.
    + constructor; [by eapply placed_keeps | done].
Qed.
End Segments.

Definition elf_header (img : list Z) (entry phoff phnum : Z) : Prop :=
  field img 0 4 = Some 0x464C457F /\ field img 4 1 = Some 2 /\ field img 24 8 = Some entry /\ field img 32 8 = Some phoff /\ field img 56 2 = Some phnum.

(** C8: the ELF loader places every segment.  For a 64-bit image whose loadable segments
    lie in the user half on pages of their own, inside the file, and not yet mapped: the
    loader returns the entry point and the end of the highest segment, and every byte of
    every segment then reads as the byte of the file, or as 0 beyond the file part; or it
    returns 0, and only when no frame is left.  No other page of any address space changes,
    and no frame in use before that holds data does. *)
Theorem elf_load_places_segments (As : Z -> Prop) n r0 R s img entry phoff phnum phs :
  vm_ok As n R s -> As r0 -> elf_header img entry phoff phnum ->
  headers (Z.to_nat phnum) img phoff = Some phs -> Forall (good_seg img) (loads phs) -> all_apart (loads phs) ->
  (forall ph va, ph ∈ loads phs -> user_va va -> in_seg ph (va / 4096) -> leaf (v_mem s) r0 va = None) ->
  runs (elf64_load_into r0 img) s (fun res s' => exists R', vm_ok As n R' s' /\ keeps_data As R (v_mem s) R' (v_mem s') /\
    (forall r va, As r -> user_va va -> r <> r0 \/ (forall ph, ph ∈ loads phs -> ~ in_seg ph (va / 4096)) ->
       leaf (v_mem s') r va = leaf (v_mem s) r va) /\
    ((res = (entry, Some (foldl (fun e ph => Z.max e (end_page ph * 4096)) 0 (loads phs))) /\
      forall ph b, ph ∈ loads phs -> 0 <= b < p_memsz ph -> byte_at (v_mem s') r0 (p_vaddr ph + b) = Some (seg_byte img ph b)) \/
     (res = (0, None) /\ exhausted n R'))).
Proof.
  intros Hv Hr0 (E1 & E2 & E3 & E4 & E5) Hh Hg Hap Hun. unfold elf64_load_into. rewrite E1, E2, E3, E4, E5. cbn [Z.eqb Pos.eqb negb].
  assert (Ho : own As r0 R (v_mem s) ∅ R (v_mem s)) by (split; [by intros ? ? [=] | by intros ? ? ? [=] | done | apply keeps_data_refl | done]).
  apply runs_bind. eapply runs_mono; [apply (load_segments_runs As n r0 Hr0 img R (v_mem s) _ phoff ∅ R s 0 phs); done|].
  intros r s' (R' & O' & Hv' & Ho' & Hd & Hr).
  assert (Hrest : vm_ok As n R' s' /\ keeps_data As R (v_mem s) R' (v_mem s') /\
    (forall r va, As r -> user_va va -> r <> r0 \/ (forall ph, ph ∈ loads phs -> ~ in_seg ph (va / 4096)) -> leaf (v_mem s') r va = leaf (v_mem s) r va)).
  { split_and!; [done | exact (o_keeps _ _ _ _ _ _ _ Ho') |]. intros r1 va Hr1 Hva Hne. apply (o_others _ _ _ _ _ _ _ Ho'); [done | done |].
    destruct Hne as [?|Hne]; [by left|]. right. destruct (O' !! (va / 4096)) eqn:E; [|done].
    destruct (Hd (va / 4096)) as [[? [=]]|(ph & Hph & Hin)]; [by eexists | by destruct (Hne ph)]. }
  destruct Hrest as (H1 & H2 & H3). destruct r as [e|]; apply runs_ret; exists R'; split_and!; try done; [left | by right].
  destruct Hr as (-> & _ & _ & Hpl). split; [done|]. intros ph b Hph Hb. rewrite Forall_forall in Hpl.
  destruct (Hpl ph Hph (p_vaddr ph + b) ltac:(lia)) as [Hs Hc]. rewrite (own_byte _ _ _ _ _ _ _ _ Ho' Hs), Hc. do 2 f_equal. lia.
Qed.

(** A program of one segment at 0x400000: four bytes of the file and four of zeros. *)
Definition tiny_elf : list Z :=
  [0x7F; 69; 76; 70; 2; 1; 1] ++ replicate 17 0 ++ le_bytes 8 0x400000 ++ le_bytes 8 64 ++ replicate 16 0 ++ le_bytes 2 1 ++ replicate 6 0 ++
  le_bytes 4 1 ++ le_bytes 4 5 ++ le_bytes 8 120 ++ le_bytes 8 0x400000 ++ le_bytes 8 0 ++ le_bytes 8 4 ++ le_bytes 8 8 ++ le_bytes 8 0x1000 ++
  [144; 144; 235; 252].
Definition tiny_seg : elf64_phdr := mkPhdr PT_LOAD 120 0x400000 4 8.

Lemma empty_leaf r va : leaf ∅ r va = None.
Proof. unfold leaf. cbn [node]. unfold child, entry. by rewrite rd_empty. Qed.

Lemma tiny_header : elf_header tiny_elf 0x400000 64 1 /\ headers 1 tiny_elf 64 = Some [tiny_seg].
Proof. split; [split_and!; reflexivity | reflexivity]. Qed.

Lemma tiny_good : Forall (good_seg tiny_elf) (loads [tiny_seg]).
Proof.
  apply Forall_singleton. do 6 (split; [by vm_compute|]). cbn [p_offset p_filesz tiny_seg]. intros o Ho.
  assert (o = 120 \/ o = 121 \/ o = 122 \/ o = 123) as [->|[->|[->| ->]]] by lia; by vm_compute.
Qed.

Lemma tiny_loads : fst <$> elf64_load_into root1 tiny_elf vm1 = Some (0x400000, Some 0x401000).
Proof. vm_compute. reflexivity. Qed.

Lemma elf_load_places_segments_witness : exists s', elf64_load_into root1 tiny_elf vm1 = Some ((0x400000, Some 0x401000), s') /\
  byte_at (v_mem s') root1 0x400002 = Some 235 /\ byte_at (v_mem s') root1 0x400007 = Some 0.
Proof.
  destruct vm1_ok as (R & Hv & _). pose proof tiny_loads as Ht.
  pose proof (elf_load_places_segments (eq root1) 576 root1 R vm1 tiny_elf 0x400000 64 1 [tiny_seg] Hv eq_refl
    (proj1 tiny_header) (proj2 tiny_header) tiny_good (conj (Forall_nil_2 _) I) (fun _ _ _ _ _ => empty_leaf _ _)) as H.
  apply (proj1 (runs_result _ _ _)) in H. destruct H as (r & s' & E & R' & _ & _ & _ & H4). rewrite E in Ht. injection Ht as ->.
  destruct H4 as [[_ H4]|[H4 _]]; [|discriminate H4]. exists s'. split; [exact E|].
  assert (Hin : tiny_seg ∈ loads [tiny_seg]) by (by left). split.
  - exact (H4 tiny_seg 2 Hin ltac:(cbn; lia)).
  - exact (H4 tiny_seg 7 Hin ltac:(cbn; lia)).
Defined.

End Elf.
