(* ===== verification/Loading.v ===== *)
(** * The first program in memory

    How many frames loading a program takes, and that with as many left the
    loader and the mapping of the stack page succeed: the frame budget of the
    calls, as bounds on the free count that compose along the code. *)
From S2P Require Import Prelude Bytes Pmm Vmm Paging Elf.
Import Vmm Paging Elf.

Module Loading.

(** ** Frame budgets *)

Definition left (s : vmm) : Z := Pmm.g_free (v_pmm s).

(** A run of [m] lowers the free count by at most [k]. *)
Definition takes {A} (k : Z) (m : MV A) : Prop := forall s r s', 0 <= left s < 2 ^ 64 -> m s = Some (r, s') ->
  0 <= left s' < 2 ^ 64 /\ left s <= left s' + k.

Create HintDb budget.

Lemma takes_ret {A} (a : A) : takes 0 (ret a).
Proof. intros s r s' Hl [= _ <-]. lia. Qed.

Lemma takes_none {A} : takes 0 (fun _ => None : option (A * vmm)).
Proof. done. Qed.

Lemma takes_mono {A} k k' (m : MV A) : takes k m -> k <= k' -> takes k' m.
Proof. intros H Hk s r s' Hl E. destruct (H s r s' Hl E). lia. Qed.

Lemma takes_bind {A B} k k' (m : MV A) (f : A -> MV B) : takes k m -> (forall a, takes k' (f a)) -> takes (k + k') (bind m f).
Proof.
  intros H H' s r s' Hl E. unfold bind in E. destruct (m s) as [[a s1]|] eqn:E1; [|done].
  destruct (H _ _ _ Hl E1) as [Hl1 ?]. destruct (H' a _ _ _ Hl1 E). lia.
Qed.

Lemma takes_same {A} (m : MV A) : (forall s r s', m s = Some (r, s') -> v_pmm s' = v_pmm s) -> takes 0 m.
Proof. intros H s r s' Hl E. unfold left in *. rewrite (H _ _ _ E). lia. Qed.

Lemma takes_modify f : (forall s, v_pmm (f s) = v_pmm s) -> takes 0 (modify f).
Proof. intros H. apply takes_same. by intros s r s' [= _ <-]. Qed.

Lemma takes_get t i : takes 0 (get_entry t i).
Proof. apply takes_same. by intros s r s' [= _ <-]. Qed.

Lemma takes_alloc : takes 1 pmm_alloc.
Proof.
  intros s r s' Hl E. unfold pmm_alloc, Pmm.pmm_alloc_frame in E. unfold left in *. destruct (Pmm.first_free _ _ _); injection E as _ <-; cbn in *; [|lia].
  unfold u64. destruct (Z.eq_dec (Pmm.g_free (v_pmm s)) 0) as [->|]; [done|]. rewrite Z.mod_small; lia.
Qed.

#[export] Hint Resolve takes_ret takes_none takes_get takes_alloc : budget.
#[export] Hint Extern 1 (takes 0 (modify _)) => apply takes_modify; intros; reflexivity : budget.
#[export] Hint Extern 1 (takes 0 (set_entry _ _ _)) => apply takes_modify; intros; reflexivity : budget.
#[export] Hint Extern 1 (takes 0 (zero_table _)) => apply takes_modify; intros; reflexivity : budget.

(** A budget for the first part of a sequence, the rest for the second. *)
Ltac spend k := match goal with |- takes ?n _ => apply (takes_mono (k + (n - k))); [apply takes_bind; [auto with budget|intros] | lia] end.

Lemma takes_next_table t i u : takes 1 (next_table t i u).
Proof.
  unfold next_table. spend 0. destruct (negb _).
  - spend 1. destruct (_ =? 0); [auto with budget|]. spend 0. spend 0. spend 0. auto with budget.
  - apply (takes_mono 0); [|lia]. spend 0. spend 0. auto with budget.
Qed.
#[export] Hint Resolve takes_next_table : budget.

Lemma takes_map_page r va pa flags : takes 3 (vmm_map_page_into r va pa flags).
Proof.
  unfold vmm_map_page_into. spend 1. destruct a as [t1|]; [|by apply (takes_mono 0); [auto with budget|lia]].
  spend 1. destruct a as [t2|]; [|by apply (takes_mono 0); [auto with budget|lia]].
  spend 1. destruct a as [t3|]; [|by apply (takes_mono 0); [auto with budget|lia]]. spend 0. auto with budget.
Qed.
#[export] Hint Resolve takes_map_page : budget.

Lemma takes_map_pages fuel r : forall p e, takes (4 * Z.of_nat fuel) (map_pages fuel r p e).
Proof.
  induction fuel as [|fuel IH]; intros p e; cbn [map_pages]; [auto with budget|].
  destruct (p <? e); [|apply (takes_mono 0); [auto with budget | lia]]. spend 1.
  destruct (_ =? 0); [apply (takes_mono 0); [auto with budget | lia]|]. spend 3. apply (takes_mono (4 * Z.of_nat fuel)); [apply IH | lia].
Qed.
#[export] Hint Resolve takes_map_pages : budget.

Lemma takes_fill n r img ph : forall b, takes 0 (fill_segment n b r img ph).
Proof.
  induction n as [|n IH]; intros b; cbn [fill_segment]; [auto with budget|].
  apply (takes_mono (0 + 0)); [apply takes_bind; [by apply takes_same; intros s x s' [= _ <-]|intros phys] | lia].
  destruct (_ =? 0); [auto with budget|]. case_match; [spend 0; apply IH | auto with budget].
Qed.

(** Four frames for each page of a segment: the page and at most three tables. *)
Definition seg_budget (ph : elf64_phdr) : Z := 4 * (Z.max 0 (seg_end ph - seg_start ph) / 0x1000 + 1).
Definition budget (phs : list elf64_phdr) : Z := foldr (fun ph k => seg_budget ph + k) 0 phs.

Lemma seg_budget_pos ph : 0 <= seg_budget ph.
Proof. unfold seg_budget. pose proof (Z.div_pos (Z.max 0 (seg_end ph - seg_start ph)) 0x1000). lia. Qed.

Lemma budget_pos phs : 0 <= budget phs.
Proof. induction phs as [|ph phs IH]; cbn; [done|]. pose proof (seg_budget_pos ph). fold (budget phs). lia. Qed.

Lemma takes_load_segments r img k : forall o e phs, headers k img o = Some phs -> takes (budget (loads phs)) (load_segments k o r img e).
Proof.
  induction k as [|k IH]; intros o e phs Hh; cbn [headers load_segments] in *.
  { injection Hh as <-. auto with budget. }
  destruct (phdr_at img o) as [ph|]; [|done]. destruct (headers k img (o + 56)) as [l|] eqn:El; [|done]. injection Hh as <-.
  unfold loads. rewrite filter_cons. fold (loads l). destruct (Z.eqb_spec (p_type ph) PT_LOAD) as [Ht|Ht]; cbn [negb].
  2:{ rewrite decide_False by done. by apply IH. }
  rewrite decide_True by done. cbn [budget foldr]. fold (budget (loads l)). pose proof (budget_pos (loads l)). pose proof (seg_budget_pos ph) as Hp.
  apply (takes_mono (seg_budget ph + budget (loads l))); [apply takes_bind | lia].
  - unfold seg_budget. eapply takes_mono; [apply takes_map_pages|]. pose proof (Z.div_pos (Z.max 0 (seg_end ph - seg_start ph)) 0x1000). lia.
  - intros ok. destruct (negb ok); [apply (takes_mono 0); [auto with budget | lia]|].
    apply (takes_mono (0 + budget (loads l))); [apply takes_bind; [apply takes_fill|] | lia]. intros ok'.
    destruct (negb ok'); [apply (takes_mono 0); [auto with budget | lia]|]. by apply IH.
Qed.

(** A run with its budget. *)
Lemma runs_takes {A} k (m : MV A) s (Q : A -> vmm -> Prop) : takes k m -> 0 <= left s < 2 ^ 64 ->
  runs m s (fun a s' => left s <= left s' + k -> Q a s') -> runs m s Q.
Proof. intros H Hl. unfold runs. destruct (m s) as [[a s']|] eqn:E; [|done]. intros HQ. apply HQ. by apply (H s a s'). Qed.

Lemma left_range n R s : Pmm.refines n (v_pmm s) R -> 0 <= left s < 2 ^ 64.
Proof. intros Hr. pose proof (Pmm.count_free_range _ (Pmm.ref_ok _ _ _ Hr)). unfold left, Pmm.MAX_FRAMES in *. lia. Qed.

Lemma exhausted_left n R s : Pmm.refines n (v_pmm s) R -> exhausted n R -> left s = 0.
Proof.
  intros Hr Hex. unfold left. rewrite (Pmm.ok_free _ (Pmm.ref_ok _ _ _ Hr)). unfold Pmm.count_free. rewrite (Pmm.ref_n _ _ _ Hr).
  rewrite (countb_ext _ (fun _ => false)).
  - generalize (Z.to_nat n). intros k. induction k as [|k IH]; cbn; lia.
  - intros f Hf. rewrite (Pmm.ref_used _ _ _ Hr) by lia. destruct (Hex f ltac:(lia)) as [-> | Hs]; [done|]. rewrite (bool_decide_eq_true_2 _ Hs). by rewrite orb_true_r.
Qed.

(** ** The program and its stack *)

Section Program.
Context (As : Z -> Prop) (n r0 : Z) (Hr0 : As r0).

Definition brk_of (phs : list elf64_phdr) : Z := foldl (fun e ph => Z.max e (end_page ph * 4096)) 0 phs.

(** A program the loader accepts, on pages that are not mapped. *)
Record program (img : list Z) (entry : Z) (phs : list elf64_phdr) : Prop := {
  pg_header : exists phoff phnum, elf_header img entry phoff phnum /\ headers (Z.to_nat phnum) img phoff = Some phs;
  pg_good : Forall (good_seg img) (loads phs);
  pg_apart : all_apart (loads phs);
  pg_stack : forall ph, ph ∈ loads phs -> ~ in_seg ph (USTACK_BASE / 4096)
}.

Lemma load_program_runs R s img entry phs : program img entry phs -> vm_ok As n R s ->
  (forall va, user_va va -> leaf (v_mem s) r0 va = None) -> budget (loads phs) + 4 < left s ->
  runs (elf64_load_into r0 img) s (fun res s' => res = (entry, Some (brk_of (loads phs))) /\ 4 < left s' /\ exists R' O, vm_ok As n R' s' /\
    own As r0 R (v_mem s) O R' (v_mem s') /\ O !! (USTACK_BASE / 4096) = None /\ Forall (placed img O (v_mem s')) (loads phs)).
Proof using Hr0.
  intros [(phoff & phnum & (E1 & E2 & E3 & E4 & E5) & Hh) Hg Hap Hst] Hv Hun Hleft.
  unfold elf64_load_into. rewrite E1, E2, E3, E4, E5. cbn [Z.eqb Pos.eqb negb].
  assert (Ho : own As r0 R (v_mem s) ∅ R (v_mem s)) by (split; [by intros ? ? [=] | by intros ? ? ? [=] | done | apply keeps_data_refl | done]).
  apply runs_bind. eapply (runs_takes (budget (loads phs))); [by apply takes_load_segments | by eapply left_range, Hv |].
  eapply runs_mono; [apply (load_segments_runs As n r0 Hr0 img R (v_mem s) _ phoff ∅ R s 0 phs); try done; by auto|].
  intros r s' (R' & O' & Hv' & Ho' & Hd & Hr) Ht. pose proof (left_range _ _ _ (vm_frames _ _ _ _ Hv')).
  destruct r as [e|]; [|pose proof (exhausted_left _ _ _ (vm_frames _ _ _ _ Hv') Hr); lia].
  destruct Hr as (-> & _ & _ & Hpl). apply runs_ret. split; [done|]. split; [lia|]. exists R', O'. split_and!; try done.
  destruct (O' !! _) eqn:E; [|done]. destruct (Hd _ ltac:(by eexists)) as [[? [=]]|(ph & Hph & Hin)]. by destruct (Hst ph Hph).
Qed.
(** A page of the stack: mapped, with its two highest words cleared. *)
Lemma stack_runs R0 m0 O R s (Q : vmm -> Prop) : vm_ok As n R s -> own As r0 R0 m0 O R (v_mem s) -> O !! (USTACK_BASE / 4096) = None -> 4 < left s ->
  (forall f R' s', vm_ok As n R' s' -> own As r0 R0 m0 (<[USTACK_BASE / 4096 := f]> O) R' (v_mem s') ->
     same_cont O (v_mem s) (<[USTACK_BASE / 4096 := f]> O) (v_mem s') ->
     (forall va, USTACK_BASE + 4096 - 16 <= va < USTACK_BASE + 4096 -> byte_at (v_mem s') r0 va = Some 0) -> Q s') ->
  runs pmm_alloc s (fun ustk s1 => runs (vmm_map_page_into r0 USTACK_BASE ustk (Z.lor PAGE_RW PAGE_USER)) s1 (fun _ s2 =>
    Q (set_mem (wr (wr (v_mem s2) (ustk + 0x1000 - 8) 0) (ustk + 0x1000 - 16) 0) s2))).
Proof using Hr0.
  set (pg := USTACK_BASE / 4096). intros Hv Ho HO Hleft HQ. pose proof (left_range _ _ _ (vm_frames _ _ _ _ Hv)) as Hl. eapply (runs_takes 1); [apply takes_alloc | done |].
  destruct Hv as [HT HR]. destruct s as [m p kp on]. cbn [v_mem v_pmm] in *. eapply runs_mono; [apply (pmm_alloc_runs n m p kp on R (fun a s' => a <> 0 /\
    exists f p', a = f * 4096 /\ s' = mkVmm m p' kp on /\ 0 < f < 2 ^ 20 /\ R !! f = None /\ Pmm.refines n p' (<[f := 1]> R))); [done | |]|].
  { intros p' Hex _. pose proof (exhausted_left n R (mkVmm m p kp on) HR Hex). lia. }
  { intros f p' Hf HRf HR'. split; [lia|]. by exists f, p'. }
  intros a s1 (_ & f & p' & -> & -> & Hf & HRf & HR') Ht1.
  destruct (alloc_keeps As R m f HT) as [HT' Hk]. pose proof (fresh_data As R m f HT HRf) as Hfd.
  assert (Hgrow : forall x, is_Some (R !! x) -> is_Some (<[f := 1]> R !! x)) by (intros x Hx; apply lookup_insert_is_Some'; by right).
  assert (Ho' : own As r0 R0 m0 O (<[f := 1]> R) m) by (by apply (own_step As r0 Hr0 _ _ _ R m)).
  assert (Hnew : forall q, O !! q <> Some f) by (intros q Hq; destruct (o_page _ _ _ _ _ _ _ Ho _ _ Hq) as (_ & [[x Hx] _] & _); congruence).
  assert (HR0 : R0 !! f = None) by (destruct (R0 !! f) eqn:E; [destruct (o_grow _ _ _ _ _ _ _ Ho f) as [x Hx]; [by eexists | congruence] | done]).
  eapply (runs_takes 3); [apply takes_map_page | by eapply (left_range n _ (mkVmm m p' kp on)) |].
  eapply runs_mono; [apply (map_page_runs As n (<[f := 1]> R) (mkVmm m p' kp on) r0 USTACK_BASE); [by split | done | done | lia | by vm_compute]|].
  intros res s2 (R2 & Hv2 & Hg & Hkd & Hres) Ht2. pose proof (left_range _ _ _ (vm_frames _ _ _ _ Hv2)). cbn [v_mem] in *.
  destruct Hres as [(_ & Hlf & Hoth)|(_ & Hex & _)]; [|pose proof (exhausted_left _ _ _ (vm_frames _ _ _ _ Hv2) Hex); exfalso; lia].
  assert (Ho2 : own As r0 R0 m0 (<[pg := f]> O) R2 (v_mem s2)) by (by apply (own_map As r0 Hr0 _ _ _ (<[f := 1]> R) m)).
  assert (Hc2 : same_cont O m (<[pg := f]> O) (v_mem s2)) by (eapply cont_keeps; [by eapply own_data | by apply insert_subseteq | exact Hkd]).
  pose proof (lookup_insert_eq O pg f) as Hpg. destruct s2 as [m2 p2 kp2 on2]. destruct Hv2 as [HT2 HR2]. unfold set_mem. cbn [v_mem v_pmm g_kernel_pml4 g_physmap_on] in *.
  replace (f * 4096 + 0x1000 - 8) with (f * 4096 + 8 * 511) by lia. replace (f * 4096 + 0x1000 - 16) with (f * 4096 + 8 * 510) by lia.
  destruct (clear_word As r0 Hr0 _ _ _ _ _ pg f 511 HT2 Ho2 Hpg ltac:(lia)) as (HT3 & Ho3 & Hc3).
  destruct (clear_word As r0 Hr0 _ _ _ _ _ pg f 510 HT3 Ho3 Hpg ltac:(lia)) as (HT4 & Ho4 & Hc4).
  apply (HQ f R2); [by split | done | |]; cbn [v_mem].
  - intros va [g Hva]. assert (Hva' : <[pg := f]> O !! (va / 4096) = Some g) by (rewrite lookup_insert_ne; [done|]; intros E; by rewrite <- E, HO in Hva).
    assert (Hne : (va / 4096 =? pg) = false) by (apply Z.eqb_neq; intros E; by rewrite E, HO in Hva).
    rewrite Hc4, Hc3, Hne by (by eexists). cbn [andb]. apply Hc2. by eexists.
  - intros va Hva. assert (Ep : va / 4096 = pg) by (symmetry; apply (Z.div_unique_pos _ _ _ (va - USTACK_BASE)); [lia | change (4096 * pg) with USTACK_BASE; lia]).
    rewrite (own_byte As r0 _ _ _ _ _ _ Ho4) by (rewrite Ep; by eexists). rewrite Hc4, Hc3 by (rewrite Ep; by eexists). rewrite Ep, Z.eqb_refl. cbn [andb].
    assert (Em : va mod 4096 = va - USTACK_BASE) by (rewrite Z.mod_eq, Ep by lia; change (4096 * pg) with USTACK_BASE; lia).
    rewrite Em. assert (Hw : 510 <= (va - USTACK_BASE) / 8 < 512) by (split; [apply Z.div_le_lower_bound | apply Z.div_lt_upper_bound]; lia).
    destruct (Z.eqb_spec ((va - USTACK_BASE) / 8) 510); [done|]. by rewrite (proj2 (Z.eqb_eq _ 511)) by lia.
Qed.
End Program.

(** ** A program in a larger buffer *)

Lemma field_app img tail o k v : 0 <= k -> field img o k = Some v -> field (img ++ tail) o k = Some v.
Proof.
  unfold field. intros Hk. destruct (Z.leb_spec 0 o), (Z.leb_spec (o + k) (Z.of_nat (length img))); try done. cbn [andb]. intros <-.
  rewrite length_app, (proj2 (Z.leb_le _ _)) by lia. do 2 f_equal. unfold slice. rewrite drop_app_le by lia. apply take_app_le. rewrite length_drop. lia.
Qed.

Lemma phdr_app img tail o ph : phdr_at img o = Some ph -> phdr_at (img ++ tail) o = Some ph.
Proof.
  unfold phdr_at. intros H. repeat (apply stdpp.option.bind_Some in H as (? & E & H); apply (field_app _ tail) in E; [rewrite E | lia]; cbn [mbind option_bind]; clear E). done.
Qed.

Lemma headers_app img tail k : forall o phs, headers k img o = Some phs -> headers k (img ++ tail) o = Some phs.
Proof.
  induction k as [|k IH]; intros o phs Hh; cbn [headers] in *; [done|]. apply stdpp.option.bind_Some in Hh as (ph & Ep & (l & El & Hl)%stdpp.option.bind_Some).
  rewrite (phdr_app _ _ _ _ Ep). cbn [mbind option_bind]. by rewrite (IH _ _ El).
Qed.

Lemma byte_app img tail o : 0 <= o < Z.of_nat (length img) -> byte (img ++ tail) o = byte img o.
Proof. intros Ho. unfold byte. apply app_nth1. lia. Qed.

Lemma good_seg_app img tail ph : good_seg img ph -> good_seg (img ++ tail) ph /\ forall b, 0 <= b -> seg_byte (img ++ tail) ph b = seg_byte img ph b.
Proof.
  intros (H1 & H2 & H3 & H4 & H5 & H6 & H7). split.
  - split_and!; try done; [rewrite length_app; lia|]. intros o Ho. rewrite byte_app by lia. by apply H7.
  - intros b Hb. unfold seg_byte. destruct (Z.ltb_spec b (p_filesz ph)); [|done]. apply byte_app. lia.
Qed.

(** The buffer of a file begins with its contents. *)
Lemma program_prefix img buf entry phs : program img entry phs -> slice 0 (Z.of_nat (length img)) buf = img ->
  program buf entry phs /\ forall ph b, ph ∈ loads phs -> 0 <= b -> seg_byte buf ph b = seg_byte img ph b.
Proof.
  intros [(phoff & phnum & (E1 & E2 & E3 & E4 & E5) & Hh) Hg Hap Hst] Hs.
  assert (exists tail, buf = img ++ tail) as [tail ->].
  { exists (drop (length img) buf). unfold slice in Hs. rewrite Nat2Z.id in Hs. change (Z.to_nat 0) with 0%nat in Hs. rewrite drop_0 in Hs. by rewrite <- Hs at 1; rewrite take_drop. }
  rewrite Forall_forall in Hg. split.
  - split; [| | done | done].
    + exists phoff, phnum. split; [|by apply headers_app]. split_and!; by apply field_app.
    + apply Forall_forall. intros ph Hph. by apply good_seg_app, Hg.
  - intros ph b Hph Hb. by apply good_seg_app; [apply Hg|].
Qed.

End Loading.
