(* ===== verification/Pipe.v ===== *)
(** * Anonymous pipes (src/proc/pipe.c)

    The ring buffer, its reference counts, and the blocking read and write
    loops.  System calls run with interrupts off, so other processes touch a
    pipe only while a loop waits in [scheduler_yield]: a loop is the sequence
    of its bursts between two yields.  The theorems show that a pipe is a FIFO
    queue and that a reader and a writer taking turns always finish. *)
From S2P Require Import Prelude.

Module Pipe.

Definition PIPE_CAP : Z := 4096.
Abbreviation NPIPES := 16.

Record pipe := mkPipe {
  p_buf : mem; p_head : Z; p_tail : Z; p_count : Z; p_readers : Z; p_writers : Z; p_used : bool
}.

(** The static pool is zero-initialised. *)
Definition pipe0 : pipe := mkPipe ∅ 0 0 0 0 0 false.

Definition set_ends (r w : Z) (u : bool) (p : pipe) : pipe :=
  mkPipe (p_buf p) (p_head p) (p_tail p) (p_count p) r w u.

(** [sys_pipe] on the slot it found: an empty ring with one owner per end; the
    buffer is not cleared. *)
Definition pipe_open (p : pipe) : pipe := mkPipe (p_buf p) 0 0 0 1 1 true.

Inductive pipe_end := RdEnd | WrEnd.

#[global] Instance pipe_end_eq_dec : EqDecision pipe_end.
Proof. solve_decision. Defined.

Definition pipe_addref (e : pipe_end) (p : pipe) : pipe :=
  match e with
  | RdEnd => set_ends (p_readers p + 1) (p_writers p) (p_used p) p
  | WrEnd => set_ends (p_readers p) (p_writers p + 1) (p_used p) p
  end.

Definition pipe_close (e : pipe_end) (p : pipe) : pipe :=
  let p := match e with
           | RdEnd => if 0 <? p_readers p then set_ends (p_readers p - 1) (p_writers p) (p_used p) p else p
           | WrEnd => if 0 <? p_writers p then set_ends (p_readers p) (p_writers p - 1) (p_used p) p else p
           end in
  if (p_readers p =? 0) && (p_writers p =? 0) then set_ends (p_readers p) (p_writers p) false p else p.

(** [pp->buf[pp->head]], and the two lines that drop it. *)
Definition head_byte (p : pipe) : Z := rd (p_buf p) (p_head p).
Definition pop (p : pipe) : pipe :=
  mkPipe (p_buf p) ((p_head p + 1) mod PIPE_CAP) (p_tail p) (p_count p - 1) (p_readers p) (p_writers p) (p_used p).
Definition push (b : Z) (p : pipe) : pipe :=
  mkPipe (wr (p_buf p) (p_tail p) b) (p_head p) ((p_tail p + 1) mod PIPE_CAP) (p_count p + 1)
    (p_readers p) (p_writers p) (p_used p).

(** A burst of a loop ends with the loop or in [scheduler_yield]. *)
Inductive burst := Finished | Waiting.

(** [n] is [len - got]; the bytes are those stored to [buf]. *)
Fixpoint read_burst (n : nat) (p : pipe) : burst * list Z * pipe :=
  match n with
  | O => (Finished, [], p)
  | S n' =>
      if p_count p =? 0 then (if p_writers p =? 0 then Finished else Waiting, [], p)
      else let '(b, l, p') := read_burst n' (pop p) in (b, head_byte p :: l, p')
  end.

(** [data] is what is left to write; the second component is what is left when
    the burst ends. *)
Fixpoint write_burst (data : list Z) (p : pipe) : burst * list Z * pipe :=
  match data with
  | [] => (Finished, [], p)
  | b :: data' =>
      if p_readers p =? 0 then (Finished, data, p)
      else if p_count p =? PIPE_CAP then (Waiting, data, p)
      else write_burst data' (push b p)
  end.

(** The whole calls.  [env] lists what the other processes do to the pipe
    during each yield; [None] is a call that is still waiting when the list
    ends. *)
Fixpoint pipe_read (env : list (pipe -> pipe)) (len : nat) (p : pipe) : option (list Z * pipe) :=
  let '(b, l, p') := read_burst len p in
  match b, env with
  | Finished, _ => Some (l, p')
  | Waiting, f :: env =>
      match pipe_read env (len - length l) (f p') with
      | Some (l', p'') => Some (l ++ l', p'')
      | None => None
      end
  | Waiting, [] => None
  end.

Fixpoint write_loop (env : list (pipe -> pipe)) (put : Z) (data : list Z) (p : pipe) : option (Z * pipe) :=
  let '(b, rest, p') := write_burst data p in
  let put := put + Z.of_nat (length data - length rest) in
  match b, env with
  | Finished, _ => Some (if bool_decide (rest = []) then put else if 0 <? put then put else -1, p')
  | Waiting, f :: env => write_loop env put rest (f p')
  | Waiting, [] => None
  end.

Definition pipe_write (env : list (pipe -> pipe)) (data : list Z) (p : pipe) : option (Z * pipe) :=
  write_loop env 0 data p.

(** ** The queue a ring represents *)

Record pipe_wf (p : pipe) : Prop := {
  wf_head : 0 <= p_head p < PIPE_CAP;
  wf_count : 0 <= p_count p <= PIPE_CAP;
  wf_tail : p_tail p = (p_head p + p_count p) mod PIPE_CAP
}.

Definition contents (p : pipe) : list Z :=
  (fun i => rd (p_buf p) ((p_head p + i) mod PIPE_CAP)) <$> seqZ 0 (p_count p).

Lemma length_contents p : pipe_wf p -> Z.of_nat (length (contents p)) = p_count p.
Proof. intros [_ Hc _]. unfold contents. rewrite length_fmap, length_seqZ. lia. Qed.

Lemma contents_pop p : pipe_wf p -> p_count p <> 0 ->
  contents p = head_byte p :: contents (pop p) /\ pipe_wf (pop p).
Proof.
  intros [Hh Hc Ht] Hne. unfold PIPE_CAP in *. split.
  - unfold contents, PIPE_CAP. cbn [pop p_buf p_head p_count]. rewrite (seqZ_cons 0) by lia. rewrite fmap_cons. f_equal.
    + unfold head_byte. rewrite Z.add_0_r, Z.mod_small by lia. done.
    + change (Z.succ 0) with (1 + 0). rewrite <- fmap_add_seqZ, <- list_fmap_compose, Z.sub_1_r.
      apply list_fmap_ext. intros i j _. cbn. f_equal. unfold PIPE_CAP. rewrite Zplus_mod_idemp_l. f_equal. lia.
  - unfold PIPE_CAP. split; cbn [pop p_head p_count p_tail]; unfold PIPE_CAP.
    + apply Z.mod_pos_bound. lia.
    + lia.
    + rewrite Ht, Zplus_mod_idemp_l. f_equal. lia.
Qed.

Lemma mod_inj a b : 0 <= a < PIPE_CAP -> 0 <= b <= PIPE_CAP -> (a + b) mod PIPE_CAP = a -> b = 0 \/ b = PIPE_CAP.
Proof.
  unfold PIPE_CAP. intros Ha Hb E. pose proof (Z.div_mod (a + b) 4096). assert (0 <= (a + b) / 4096 <= 1).
  { split; [apply Z.div_pos; lia|]. assert ((a + b) / 4096 < 2) by (apply Z.div_lt_upper_bound; lia). lia. }
  lia.
Qed.

Lemma contents_push p b : pipe_wf p -> p_count p <> PIPE_CAP ->
  contents (push b p) = contents p ++ [b] /\ pipe_wf (push b p).
Proof.
  intros [Hh Hc Ht] Hne. split.
  - unfold contents. cbn [push p_buf p_head p_count]. unfold PIPE_CAP in *.
    replace (seqZ 0 (p_count p + 1)) with (seqZ 0 (p_count p) ++ [p_count p]) by (rewrite (seqZ_app 0 (p_count p) 1) by lia; done).
    rewrite fmap_app. f_equal.
    + apply list_fmap_ext. intros k i Hi%lookup_seqZ. apply rd_wr_ne. rewrite Ht.
      remember (p_count p - i) as d eqn:Hd. intros E.
      replace (p_head p + p_count p) with (p_head p + i + d) in E by lia.
      rewrite <- (Zplus_mod_idemp_l (p_head p + i)) in E.
      assert (d = 0 \/ d = PIPE_CAP) as [?|?] by (apply (mod_inj ((p_head p + i) mod 4096)); unfold PIPE_CAP; [apply Z.mod_pos_bound; lia | lia | done]);
        unfold PIPE_CAP in *; lia.
    + cbn. by rewrite <- Ht, rd_wr_eq.
  - unfold PIPE_CAP in *. split; cbn [push p_head p_count p_tail]; unfold PIPE_CAP; [done | lia |].
    rewrite Ht, Zplus_mod_idemp_l. f_equal. lia.
Qed.

(** ** What a burst transfers *)

Definition same_ends (p p' : pipe) : Prop :=
  p_readers p' = p_readers p /\ p_writers p' = p_writers p /\ p_used p' = p_used p.

Lemma read_burst_spec n p : pipe_wf p ->
  let '(b, l, p') := read_burst n p in
  pipe_wf p' /\ contents p = l ++ contents p' /\ (length l <= n)%nat /\ same_ends p p' /\
  (length l = n /\ b = Finished \/
   (length l < n)%nat /\ contents p' = [] /\ b = if p_writers p =? 0 then Finished else Waiting).
Proof.
  revert p. induction n as [|n IH]; intros p Hwf; cbn [read_burst].
  { split_and!; try done. by left. }
  destruct (Z.eqb_spec (p_count p) 0) as [H0|H0].
  - assert (contents p = []) by (unfold contents; by rewrite H0).
    split_and!; try done; [simpl; lia|]. right. split_and!; [simpl; lia | done | done].
  - destruct (contents_pop p Hwf H0) as [Hp Hwf']. specialize (IH (pop p) Hwf').
    destruct (read_burst n (pop p)) as [[b l] p']. destruct IH as (W & C & L & R & B).
    rewrite Hp, C. split_and!; try done; [simpl; lia|]. cbn [length].
    destruct B as [[-> ->]|(? & ? & ->)]; [by left | right; split_and!; [lia | done | done]].
Qed.

Lemma write_burst_spec data p : pipe_wf p ->
  let '(b, rest, p') := write_burst data p in
  pipe_wf p' /\ (exists sent, data = sent ++ rest /\ contents p' = contents p ++ sent) /\ same_ends p p' /\
  (b = Finished /\ (rest = [] \/ p_readers p = 0) \/
   b = Waiting /\ rest <> [] /\ p_readers p <> 0 /\ p_count p' = PIPE_CAP).
Proof.
  revert p. induction data as [|x data IH]; intros p Hwf; cbn [write_burst].
  { split_and!; try done; [exists []; split; [done | by rewrite app_nil_r] | by left; split; [|left]]. }
  destruct (Z.eqb_spec (p_readers p) 0) as [Hr|Hr].
  { split_and!; try done; [exists []; split; [done | by rewrite app_nil_r] | by left; split; [|right]]. }
  destruct (Z.eqb_spec (p_count p) PIPE_CAP) as [Hc|Hc].
  { split_and!; try done; [exists []; split; [done | by rewrite app_nil_r] | by right]. }
  destruct (contents_push p x Hwf Hc) as [Hp Hwf']. specialize (IH (push x p) Hwf').
  destruct (write_burst data (push x p)) as [[b rest] p']. destruct IH as (W & (sent & -> & C) & R & B).
  split_and!; try done. exists (x :: sent). split; [done|]. by rewrite C, Hp, <- app_assoc.
Qed.

(** ** A reader and a writer taking turns *)

Inductive turn := RdTurn | WrTurn.

(** One process blocked in [pipe_read] for [r_left] more bytes, one in
    [pipe_write] with [w_left] to go. *)
Record link := mkLink { l_pipe : pipe; r_got : list Z; r_left : nat; w_left : list Z }.

Definition take_turn (t : turn) (s : link) : link :=
  match t with
  | RdTurn => let '(_, l, p) := read_burst (r_left s) (l_pipe s) in
              mkLink p (r_got s ++ l) (r_left s - length l) (w_left s)
  | WrTurn => let '(_, rest, p) := write_burst (w_left s) (l_pipe s) in
              mkLink p (r_got s) (r_left s) rest
  end.

Definition take_turns (ts : list turn) (s : link) : link := foldl (fun s t => take_turn t s) s ts.

(** The bytes in transit, in order. *)
Definition transit (s : link) : list Z := r_got s ++ contents (l_pipe s) ++ w_left s.

Lemma take_turn_spec t s : pipe_wf (l_pipe s) ->
  pipe_wf (l_pipe (take_turn t s)) /\ transit (take_turn t s) = transit s /\ same_ends (l_pipe s) (l_pipe (take_turn t s)) /\
  (length (r_got (take_turn t s)) + r_left (take_turn t s) = length (r_got s) + r_left s)%nat.
Proof.
  intros Hwf. destruct s as [p got n w]. unfold take_turn, transit. cbn [l_pipe r_got r_left w_left] in *. destruct t.
  - pose proof (read_burst_spec n p Hwf) as H. destruct (read_burst n p) as [[b l] p']. destruct H as (W & C & L & R & _).
    cbn [l_pipe r_got r_left w_left]. rewrite C, length_app, <- !app_assoc. split_and!; try done. lia.
  - pose proof (write_burst_spec w p Hwf) as H. destruct (write_burst w p) as [[b l] p']. destruct H as (W & (sent & -> & C) & R & _).
    cbn [l_pipe r_got r_left w_left]. by rewrite C, <- !app_assoc.
Qed.

(** C27: a pipe is a FIFO queue.  However the reader and the writer are
    interleaved, what has been read, what lies in the ring and what is still to
    be written are together, in this order, exactly the bytes that were in the
    ring followed by the bytes handed to [pipe_write]: none is lost, repeated
    or reordered when the ring wraps around. *)
Theorem pipe_fifo ts p len data : pipe_wf p ->
  let s := take_turns ts (mkLink p [] len data) in
  pipe_wf (l_pipe s) /\ r_got s ++ contents (l_pipe s) ++ w_left s = contents p ++ data /\
  (length (r_got s) + r_left s = len)%nat.
Proof.
  intros Hwf. set (s0 := mkLink p [] len data).
  assert (H : forall s, pipe_wf (l_pipe s) -> pipe_wf (l_pipe (take_turns ts s)) /\ transit (take_turns ts s) = transit s /\
    (length (r_got (take_turns ts s)) + r_left (take_turns ts s) = length (r_got s) + r_left s)%nat).
  { induction ts as [|t ts IH]; intros s Hs; [done|]. destruct (take_turn_spec t s Hs) as (W & T & _ & L).
    destruct (IH _ W) as (W' & T' & L'). cbn [take_turns foldl]. split_and!; [done | by rewrite <- T | by rewrite <- L]. }
  by destruct (H s0 Hwf) as (W & T & L).
Qed.

Definition wrapped : pipe := mkPipe ∅ 4090 4090 0 1 1 true.

Lemma pipe_fifo_witness :
  let s := take_turns [WrTurn; RdTurn; WrTurn; RdTurn] (mkLink wrapped [] 10 (seqZ 0 12)) in
  pipe_wf (l_pipe s) /\ r_got s ++ contents (l_pipe s) ++ w_left s = contents wrapped ++ seqZ 0 12 /\
  (length (r_got s) + r_left s = 10)%nat.
Proof. apply (pipe_fifo [WrTurn; RdTurn; WrTurn; RdTurn] wrapped 10 (seqZ 0 12)). split; by vm_compute. Defined.

Definition round (s : link) : link := take_turn RdTurn (take_turn WrTurn s).

(** A round moves as many bytes as the ring holds and leaves it empty. *)
Lemma round_moves p got w : pipe_wf p -> contents p = [] -> p_readers p <> 0 ->
  exists p', round (mkLink p got (length w) w) = mkLink p' (got ++ take 4096 w) (length (drop 4096 w)) (drop 4096 w) /\
    pipe_wf p' /\ contents p' = [] /\ p_readers p' <> 0.
Proof.
  intros Hwf He Hr. unfold round, take_turn. cbn [l_pipe r_got r_left w_left].
  pose proof (write_burst_spec w p Hwf) as H. destruct (write_burst w p) as [[b rest] p1].
  destruct H as (W1 & (sent & -> & C1) & (R1 & _) & B1). rewrite He in C1. cbn [l_pipe r_got r_left w_left app] in *.
  pose proof (length_contents _ W1) as L1. rewrite C1 in L1. pose proof (wf_count _ W1) as K1. unfold PIPE_CAP in K1.
  assert (Hs : take 4096 (sent ++ rest) = sent /\ drop 4096 (sent ++ rest) = rest).
  { destruct B1 as [[_ [->|?]]|(_ & _ & _ & Hc)]; [|congruence|].
    - rewrite app_nil_r, take_ge, drop_ge by lia. done.
    - unfold PIPE_CAP in Hc. rewrite take_app_length', drop_app_length' by lia. done. }
  destruct Hs as [-> ->]. pose proof (read_burst_spec (length (sent ++ rest)) p1 W1) as H.
  destruct (read_burst _ p1) as [[b2 l] p2]. destruct H as (W2 & C2 & L2 & (R2 & _) & B2). rewrite C1 in C2.
  assert (E : contents p2 = []).
  { destruct B2 as [[L _]|(_ & E & _)]; [|done]. apply nil_length_inv. apply (f_equal length) in C2. rewrite !length_app in *. lia. }
  rewrite E, app_nil_r in C2. subst l. exists p2. rewrite length_app. split_and!; [|done | done | congruence].
  f_equal. lia.
Qed.

(** C34: a transfer through a pipe always finishes.  When a reader asks for as
    many bytes as a writer sends and the two run alternately, every round
    moves a full ring of bytes, so [k] rounds are enough for [k * 4096] bytes:
    both calls return and the reader has received exactly the data. *)
Theorem pipe_transfer_completes k p data : pipe_wf p -> contents p = [] -> p_readers p <> 0 -> (length data <= 4096 * k)%nat ->
  exists p', Nat.iter k round (mkLink p [] (length data) data) = mkLink p' data 0 [] /\ pipe_wf p' /\ contents p' = [].
Proof.
  intros Hwf He Hr Hk.
  assert (H : forall k p got w, pipe_wf p -> contents p = [] -> p_readers p <> 0 ->
    exists p', Nat.iter k round (mkLink p got (length w) w) = mkLink p' (got ++ take (4096 * k) w) (length (drop (4096 * k) w)) (drop (4096 * k) w) /\
      pipe_wf p' /\ contents p' = []).
  { clear. induction k as [|k IH]; intros p got w Hwf He Hr.
    - rewrite Nat.mul_0_r, app_nil_r. by exists p.
    - rewrite Nat.iter_succ_r. destruct (round_moves p got w Hwf He Hr) as (p1 & -> & W1 & E1 & R1).
      destruct (IH p1 (got ++ take 4096 w) (drop 4096 w) W1 E1 R1) as (p' & -> & W' & E'). exists p'. split; [|done].
      rewrite drop_drop, <- app_assoc, take_take_drop. by replace (4096 + 4096 * k)%nat with (4096 * S k)%nat by lia. }
  destruct (H k p [] data Hwf He Hr) as (p' & -> & W' & E'). exists p'. by rewrite take_ge, drop_ge by done.
Qed.

Lemma pipe_transfer_completes_witness :
  exists p', Nat.iter 2 round (mkLink wrapped [] (length (replicate 5000 7)) (replicate 5000 7)) = mkLink p' (replicate 5000 7) 0 [] /\
    pipe_wf p' /\ contents p' = [].
Proof. apply (pipe_transfer_completes 2 wrapped (replicate 5000 7)); [split; by vm_compute | done | done | rewrite length_replicate; lia]. Defined.

(** C35: the end of a pipe.  With no writer left, [pipe_read] never waits: it
    returns what is in the ring, at most [len] bytes, and then end of file.
    With no reader left, [pipe_write] of a non-empty buffer returns -1 at once
    and stores nothing. *)
Theorem pipe_closed_ends env p len data : pipe_wf p ->
  (p_writers p = 0 -> exists p', pipe_read env len p = Some (take len (contents p), p') /\ contents p' = drop len (contents p)) /\
  (p_readers p = 0 -> data <> [] -> pipe_write env data p = Some (-1, p)).
Proof.
  intros Hwf. split.
  - intros Hw. pose proof (read_burst_spec len p Hwf) as H. destruct (read_burst len p) as [[b l] p'] eqn:E. destruct H as (W & C & L & R & B).
    exists p'. assert (Hb : b = Finished /\ l = take len (contents p) /\ contents p' = drop len (contents p)).
    { rewrite Hw in B. rewrite C. destruct B as [[<- ->]|(? & E' & ->)].
      - by rewrite take_app_length, drop_app_length.
      - rewrite E', app_nil_r, take_ge, drop_ge by lia. done. }
    destruct Hb as (-> & -> & ->). by destruct env; cbn [pipe_read]; rewrite E.
  - intros Hr Hd. unfold pipe_write. destruct data as [|x data]; [done|].
    destruct env; cbn [write_loop write_burst]; rewrite Hr; cbn [Z.eqb]; rewrite Nat.sub_diag; done.
Qed.

Lemma pipe_closed_ends_witness :
  let p := mkPipe (wr (wr ∅ 4095 65) 0 66) 4095 1 2 0 0 true in
  (p_writers p = 0 -> exists p', pipe_read [] 10 p = Some (take 10 (contents p), p') /\ contents p' = drop 10 (contents p)) /\
  (p_readers p = 0 -> [1; 2] <> [] -> pipe_write [] [1; 2] p = Some (-1, p)).
Proof. apply (pipe_closed_ends [] (mkPipe (wr (wr ∅ 4095 65) 0 66) 4095 1 2 0 0 true) 10 [1; 2]). split; by vm_compute. Defined.
End Pipe.
