(* ===== verification/Proc.v ===== *)
(** * Processes and the scheduler (src/proc/process.c, src/proc/scheduler.c)

    Process descriptors at kernel-heap addresses, the ready queue and the list
    of all processes threaded through them, creation, the round-robin switch,
    exit, reaping and the foreground process. *)
From S2P Require Import Prelude Pipe.

Module Proc.

Abbreviation PROC_NAME_MAX := 32.
Definition PROC_QUANTUM : Z := 10.
Abbreviation PROC_KSTACK_SIZE := 16384.
Definition PROC_MAX_FDS : Z := 16.
Definition ENV_MAX : Z := 32.
Definition ENV_SLOT : Z := 160.
Abbreviation SIGINT := 2.
Abbreviation SIGKILL := 9.
Abbreviation SIGTERM := 15.

Inductive fd_kind :=
| FD_CLOSED | FD_CON_IN | FD_CON_OUT | FD_FILE | FD_PIPE_R | FD_PIPE_W
| FD_DEV_NULL | FD_DEV_ZERO | FD_DEV_RANDOM | FD_DEV_TTY.

#[global] Instance fd_kind_eq_dec : EqDecision fd_kind.
Proof. solve_decision. Defined.

(** A [vfs_file_t*]: an entry of the table of one of the file systems. *)
Inductive vptr := VNox (i : Z) | VRam (i : Z) | VDev (i : Z) | VProc (i : Z).

#[global] Instance vptr_eq_dec : EqDecision vptr.
Proof. solve_decision. Defined.

(** The [void* file] of a descriptor. *)
Inductive fobj := FNull | FPipe (i : nat) | FVfs (v : vptr).

#[global] Instance fobj_eq_dec : EqDecision fobj.
Proof. solve_decision. Defined.

Record fd_t := mkFd { fd_kind_of : fd_kind; fd_file : fobj; fd_offset : Z }.
Definition closed_fd : fd_t := mkFd FD_CLOSED FNull 0.

Inductive proc_state := PROC_READY | PROC_RUNNING | PROC_BLOCKED | PROC_ZOMBIE.

#[global] Instance proc_state_eq_dec : EqDecision proc_state.
Proof. solve_decision. Defined.

Record process := mkProc {
  pid : Z; p_name : list Z; p_state : proc_state; kctx_rsp : Z; kstack_base : Z; kstack_top : Z;
  pml4 : Z; uentry : Z; ursp : Z; stack_low : Z; p_brk : Z; cwd_ino : Z; cwd_path : list Z;
  parent : Z; exit_code : Z; quantum_remaining : Z; priority : Z; p_next : Z; all_next : Z;
  fds : list fd_t; sig_pending : Z; sig_handler : list Z; p_env : list (list Z); envc : Z
}.

(** ** Field updates *)

Definition set_state (v : proc_state) (p : process) : process :=
  let '(mkProc a b _ d e f g h i j k l m n o q r s t u w x y z) := p in mkProc a b v d e f g h i j k l m n o q r s t u w x y z.
Definition set_kctx (v : Z) (p : process) : process :=
  let '(mkProc a b c _ e f g h i j k l m n o q r s t u w x y z) := p in mkProc a b c v e f g h i j k l m n o q r s t u w x y z.
Definition set_user (as_ en rs : Z) (p : process) : process :=
  let '(mkProc a b c d e f _ _ _ j k l m n o q r s t u w x y z) := p in mkProc a b c d e f as_ en rs j k l m n o q r s t u w x y z.
Definition set_pml4 (v : Z) (p : process) : process :=
  let '(mkProc a b c d e f _ h i j k l m n o q r s t u w x y z) := p in mkProc a b c d e f v h i j k l m n o q r s t u w x y z.
Definition set_layout (low brk : Z) (p : process) : process :=
  let '(mkProc a b c d e f g h i _ _ l m n o q r s t u w x y z) := p in mkProc a b c d e f g h i low brk l m n o q r s t u w x y z.
Definition set_cwd (ino : Z) (path : list Z) (p : process) : process :=
  let '(mkProc a b c d e f g h i j k _ _ n o q r s t u w x y z) := p in mkProc a b c d e f g h i j k ino path n o q r s t u w x y z.
Definition set_parent (v : Z) (p : process) : process :=
  let '(mkProc a b c d e f g h i j k l m _ o q r s t u w x y z) := p in mkProc a b c d e f g h i j k l m v o q r s t u w x y z.
Definition set_exit (v : Z) (p : process) : process :=
  let '(mkProc a b c d e f g h i j k l m n _ q r s t u w x y z) := p in mkProc a b c d e f g h i j k l m n v q r s t u w x y z.
Definition set_quantum (v : Z) (p : process) : process :=
  let '(mkProc a b c d e f g h i j k l m n o _ r s t u w x y z) := p in mkProc a b c d e f g h i j k l m n o v r s t u w x y z.
Definition set_priority (v : Z) (p : process) : process :=
  let '(mkProc a b c d e f g h i j k l m n o q _ s t u w x y z) := p in mkProc a b c d e f g h i j k l m n o q v s t u w x y z.
Definition set_next (v : Z) (p : process) : process :=
  let '(mkProc a b c d e f g h i j k l m n o q r _ t u w x y z) := p in mkProc a b c d e f g h i j k l m n o q r v t u w x y z.
Definition set_all_next (v : Z) (p : process) : process :=
  let '(mkProc a b c d e f g h i j k l m n o q r s _ u w x y z) := p in mkProc a b c d e f g h i j k l m n o q r s v u w x y z.
Definition set_fds (v : list fd_t) (p : process) : process :=
  let '(mkProc a b c d e f g h i j k l m n o q r s t _ w x y z) := p in mkProc a b c d e f g h i j k l m n o q r s t v w x y z.
Definition set_pending (v : Z) (p : process) : process :=
  let '(mkProc a b c d e f g h i j k l m n o q r s t u _ x y z) := p in mkProc a b c d e f g h i j k l m n o q r s t u v x y z.
Definition set_handlers (v : list Z) (p : process) : process :=
  let '(mkProc a b c d e f g h i j k l m n o q r s t u w _ y z) := p in mkProc a b c d e f g h i j k l m n o q r s t u w v y z.
Definition set_env (e' : list (list Z)) (n' : Z) (p : process) : process :=
  let '(mkProc a b c d e f g h i j k l m n o q r s t u w x _ _) := p in mkProc a b c d e f g h i j k l m n o q r s t u w x e' n'.

(** ** Kernel state *)

(** [k_rsp] is the stack pointer once [kthread_switch] has pushed the
    callee-saved registers, [k_stack] the words of the kernel stacks. *)
Record kern := mkKern {
  k_procs : gmap Z process;
  g_current : Z; g_ready_head : Z; g_ready_tail : Z; g_all_head : Z;
  g_fg_pid : Z; g_next_pid : Z;
  k_cr3 : Z; g_cur_kstack : Z; k_rsp : Z; k_stack : mem;
  g_pipes : list Pipe.pipe
}.

Definition set_procs (v : gmap Z process) (s : kern) : kern :=
  let '(mkKern a b c d e f g h i j k l) := s in mkKern v b c d e f g h i j k l.
Definition set_current (v : Z) (s : kern) : kern :=
  let '(mkKern a b c d e f g h i j k l) := s in mkKern a v c d e f g h i j k l.
Definition set_ready (hd tl : Z) (s : kern) : kern :=
  let '(mkKern a b _ _ e f g h i j k l) := s in mkKern a b hd tl e f g h i j k l.
Definition set_all (v : Z) (s : kern) : kern :=
  let '(mkKern a b c d _ f g h i j k l) := s in mkKern a b c d v f g h i j k l.
Definition set_fg (v : Z) (s : kern) : kern :=
  let '(mkKern a b c d e _ g h i j k l) := s in mkKern a b c d e v g h i j k l.
Definition set_next_pid (v : Z) (s : kern) : kern :=
  let '(mkKern a b c d e f _ h i j k l) := s in mkKern a b c d e f v h i j k l.
Definition set_cpu (cr3 kst rsp : Z) (s : kern) : kern :=
  let '(mkKern a b c d e f g _ _ _ k l) := s in mkKern a b c d e f g cr3 kst rsp k l.
Definition set_stack (v : mem) (s : kern) : kern :=
  let '(mkKern a b c d e f g h i j _ l) := s in mkKern a b c d e f g h i j v l.
Definition set_pipes (v : list Pipe.pipe) (s : kern) : kern :=
  let '(mkKern a b c d e f g h i j k _) := s in mkKern a b c d e f g h i j k v.

Abbreviation MK := (M kern).

Definition gets {A} (f : kern -> A) : MK A := fun s => Some (f s, s).
(** [*p] for reading and for an update; a NULL or dangling pointer has no
    result. *)
Definition pget (a : Z) : MK process := fun s =>
  match k_procs s !! a with Some p => Some (p, s) | None => None end.
Definition pset (a : Z) (f : process -> process) : MK unit := fun s =>
  match k_procs s !! a with Some p => Some (tt, set_procs (<[a := f p]> (k_procs s)) s) | None => None end.

Definition scheduler_current : MK Z := gets g_current.
Definition current : MK process := let* c := gets g_current in pget c.

(** ** Register frames (syscall.h) *)

(** The user registers a system call saves on the kernel stack. *)
Record syscall_frame := mkFrame {
  f_rax : Z; f_rdi : Z; f_rsi : Z; f_rdx : Z; f_r10 : Z; f_r8 : Z; f_r9 : Z;
  f_rbx : Z; f_rbp : Z; f_r12 : Z; f_r13 : Z; f_r14 : Z; f_r15 : Z;
  f_rip : Z; f_rflags : Z; f_ursp : Z
}.

Definition set_rax (v : Z) (f : syscall_frame) : syscall_frame :=
  let '(mkFrame _ b c d e g h i j k l m n o p q) := f in mkFrame v b c d e g h i j k l m n o p q.

(** The words of a frame, lowest address first. *)
Definition frame_words (f : syscall_frame) : list Z :=
  [f_rax f; f_rdi f; f_rsi f; f_rdx f; f_r10 f; f_r8 f; f_r9 f; f_rbx f; f_rbp f; f_r12 f; f_r13 f; f_r14 f; f_r15 f;
   f_rip f; f_rflags f; f_ursp f].

Definition FRAME_SIZE : Z := 128.

Definition frame_at (m : mem) (a : Z) : syscall_frame :=
  mkFrame (rd m a) (rd m (a + 8)) (rd m (a + 16)) (rd m (a + 24)) (rd m (a + 32)) (rd m (a + 40)) (rd m (a + 48))
    (rd m (a + 56)) (rd m (a + 64)) (rd m (a + 72)) (rd m (a + 80)) (rd m (a + 88)) (rd m (a + 96))
    (rd m (a + 104)) (rd m (a + 112)) (rd m (a + 120)).

Fixpoint store_words (vs : list Z) (a : Z) (m : mem) : mem :=
  match vs with
  | [] => m
  | v :: vs => store_words vs (a + 8) (wr m a v)
  end.

(** ** Creation (process.c) *)

(** The C string at the start of a byte array. *)
Fixpoint cstr (l : list Z) : list Z :=
  match l with
  | [] => []
  | c :: l => if c =? 0 then [] else c :: cstr l
  end.

(** [p->name] after the copy loop: bytes past the name keep what the heap block
    held, up to the terminator in the last byte. *)
Definition copy_name (name old : list Z) : list Z :=
  let n := take 31 (cstr name) in n ++ drop (length n) (take 31 old) ++ [0].

Definition std_fds : list fd_t :=
  mkFd FD_CON_IN FNull 0 :: mkFd FD_CON_OUT FNull 0 :: mkFd FD_CON_OUT FNull 0 ::
  replicate (Z.to_nat PROC_MAX_FDS - 3) closed_fd.

(** [env[i][0] = 0] for every slot. *)
Definition clear_env (e : list (list Z)) : list (list Z) := (fun slot => <[0%nat := 0]> slot) <$> e.

Section Machine.
(** [kmalloc(sizeof(process_t))]: an address and what the block holds, and
    [kmalloc(PROC_KSTACK_SIZE)]. *)
Context (new_proc : gmap Z process -> option (Z * process)) (new_stack : gmap Z process -> option Z).
(** Addresses of the static idle process and of code. *)
Context (g_idle thread_trampoline user_thread_main : Z).

Definition init_proc (pid_ stack : Z) (name : list Z) (p : process) : process :=
  mkProc pid_ (copy_name name (p_name p)) PROC_READY 0 stack (stack + PROC_KSTACK_SIZE)
    0 0 0 0 0 0 (47 :: replicate 127 0) 0 0 PROC_QUANTUM 1 0 0
    std_fds 0 (replicate 32 0) (clear_env (p_env p)) 0.

Definition proc_alloc (name : list Z) : MK Z := fun s =>
  match new_proc (k_procs s) with
  | None => Some (0, s)
  | Some (a, old) =>
      match new_stack (k_procs s) with
      | None => Some (0, s)
      | Some stack =>
          Some (a, set_next_pid (u64 (g_next_pid s + 1))
                     (set_procs (<[a := init_proc (g_next_pid s) stack name old]> (k_procs s)) s))
      end
  end.

(** [*--sp = v] for each value, from the address [sp] down. *)
Fixpoint push_words (vs : list Z) (sp : Z) (m : mem) : Z * mem :=
  match vs with
  | [] => (sp, m)
  | v :: vs => push_words vs (sp - 8) (wr m (sp - 8) v)
  end.

Definition proc_spawn (name : list Z) (entry prio : Z) : MK Z :=
  let* p := proc_alloc name in
  if p =? 0 then ret 0 else
  do* pset p (set_priority prio) in
  let* d := pget p in
  let* m := gets k_stack in
  let '(sp, m) := push_words [thread_trampoline; entry; 0; 0; 0; 0; 0] (kstack_base d + PROC_KSTACK_SIZE) m in
  do* modify (set_stack m) in
  do* pset p (set_kctx sp) in
  ret p.

Definition proc_spawn_user (name : list Z) (pml4_ uentry_ ursp_ prio : Z) : MK Z :=
  let* p := proc_spawn name user_thread_main prio in
  if p =? 0 then ret 0 else
  do* pset p (set_user pml4_ uentry_ ursp_) in
  ret p.

(** ** Scheduler (scheduler.c) *)

Definition scheduler_init : MK os_status :=
  do* modify (set_ready 0 0) in
  do* pset g_idle (fun p =>
        let '(mkProc _ _ _ d e f g h i j k l m n o _ r _ t u w x y z) := p in
        mkProc 0 (replicate 32 0) PROC_RUNNING d e f g h i j k l m n o PROC_QUANTUM r 0 t u w x y z) in
  do* modify (set_current g_idle) in
  ret OS_OK.

Definition scheduler_add (p : Z) : MK unit :=
  do* pset p (set_next 0) in
  let* tl := gets g_ready_tail in
  do* (if ctrue tl then pset tl (set_next p) else modify (fun s => set_ready p (g_ready_tail s) s)) in
  modify (fun s => set_ready (g_ready_head s) p s).

Definition scheduler_register (p : Z) : MK unit :=
  let* hd := gets g_all_head in
  do* pset p (set_all_next hd) in
  do* modify (set_all p) in
  scheduler_add p.

(** Walks of the list of all processes; a list of [n] processes needs [n + 1]
    rounds. *)
Fixpoint find_all (fuel : nat) (ok : process -> bool) (p : Z) : MK Z :=
  match fuel with
  | O => fun _ => None
  | S fuel =>
      if negb (ctrue p) then ret 0 else
      let* d := pget p in
      if ok d then ret p else find_all fuel ok (all_next d)
  end.

Definition walk_fuel (s : kern) : nat := S (size (k_procs s)).

Definition scheduler_find (pid_ : Z) : MK Z :=
  let* fuel := gets walk_fuel in
  let* hd := gets g_all_head in find_all fuel (fun d => pid d =? pid_) hd.

Fixpoint nth_all (fuel : nat) (idx p : Z) : MK Z :=
  match fuel with
  | O => fun _ => None
  | S fuel =>
      if negb (ctrue p) then ret 0
      else if idx =? 0 then ret p
      else let* d := pget p in nth_all fuel (u32 (idx - 1)) (all_next d)
  end.

Definition scheduler_at (idx : Z) : MK Z :=
  let* fuel := gets walk_fuel in
  let* hd := gets g_all_head in nth_all fuel idx hd.

(** [pp] is the address of a link: [g_all_head] (0) or the [all_next] of a
    process. *)
Fixpoint unlink_all (fuel : nat) (pp p : Z) : MK unit :=
  match fuel with
  | O => fun _ => None
  | S fuel =>
      let* cur := (if pp =? 0 then gets g_all_head else let* d := pget pp in ret (all_next d)) in
      if negb (ctrue cur) then ret tt
      else if cur =? p then
        let* d := pget p in
        if pp =? 0 then modify (set_all (all_next d)) else pset pp (set_all_next (all_next d))
      else unlink_all fuel cur p
  end.

Definition scheduler_remove (p : Z) : MK unit :=
  let* fuel := gets walk_fuel in unlink_all fuel 0 p.

Definition reapable (par want : Z) (d : process) : bool :=
  bool_decide (p_state d = PROC_ZOMBIE) && (parent d =? par) && negb ((0 <? want) && negb (pid d =? u64 want)).

Definition scheduler_reap (par want : Z) : MK Z :=
  let* fuel := gets walk_fuel in
  let* hd := gets g_all_head in find_all fuel (reapable par want) hd.

Definition scheduler_spawn (name : list Z) (entry prio : Z) : MK os_status :=
  let* p := proc_spawn name entry prio in
  if p =? 0 then ret OS_ERR_OOM else
  do* scheduler_add p in
  ret OS_OK.

Definition runnable (d : process) : bool :=
  bool_decide (p_state d = PROC_RUNNING) || bool_decide (p_state d = PROC_READY).

(** [kernel_pml4] is the result of [vmm_kernel_pml4]. *)
Definition scheduler_yield (kernel_pml4 : Z) : MK unit :=
  let* next := gets g_ready_head in
  if negb (ctrue next) then ret tt else
  let* prev := gets g_current in
  let* n := pget next in
  do* modify (fun s => set_ready (p_next n) (if ctrue (p_next n) then g_ready_tail s else 0) s) in
  let* d := pget prev in
  do* (if runnable d then
         do* pset prev (set_state PROC_READY) in scheduler_add prev
       else ret tt) in
  do* pset next (fun p => set_quantum PROC_QUANTUM (set_state PROC_RUNNING p)) in
  do* modify (set_current next) in
  let* n := pget next in
  let* d := pget prev in
  do* modify (fun s => set_cpu
        (if pml4 n =? pml4 d then k_cr3 s else if ctrue (pml4 n) then pml4 n else kernel_pml4)
        (if ctrue (kstack_top n) then kstack_top n else g_cur_kstack s) (k_rsp s) s) in
  (* kthread_switch(&prev->kctx_rsp, next->kctx_rsp) *)
  let* rsp := gets k_rsp in
  do* pset prev (set_kctx rsp) in
  let* n := pget next in
  modify (fun s => set_cpu (k_cr3 s) (g_cur_kstack s) (kctx_rsp n) s).

(** Once the current process is a zombie the switch does not come back to it;
    with nobody ready the CPU halts in its context. *)
Definition scheduler_exit (kernel_pml4 code : Z) : MK unit :=
  let* cur := gets g_current in
  do* pset cur (fun p => set_state PROC_ZOMBIE (set_exit code p)) in
  scheduler_yield kernel_pml4.

Definition scheduler_set_fg (p : Z) : MK unit := modify (set_fg p).

Definition raise_signal (sig : Z) (p : process) : process := set_pending (Z.lor (sig_pending p) (Z.shiftl 1 sig)) p.

Definition scheduler_sigint_fg : MK unit :=
  let* fg := gets g_fg_pid in
  if negb (ctrue fg) then ret tt else
  let* p := scheduler_find fg in
  if negb (ctrue p) then ret tt else
  let* d := pget p in
  if bool_decide (p_state d = PROC_ZOMBIE) then ret tt else pset p (raise_signal SIGINT).
End Machine.
End Proc.
