(* ===== verification/Signal.v ===== *)
(** * Signals and the timer tick (src/proc/signal.c, src/proc/scheduler.c)

    Pending bits, handlers, delivery on the return from a system call and from
    the timer interrupt, and the tick that preempts a process. *)
From S2P Require Import Prelude Pipe Proc Fd.

Module Signal.
Import Proc Fd.

(** The frame the interrupt stubs push (isr.h). *)
Record isr_frame := mkIsr {
  r15 : Z; r14 : Z; r13 : Z; r12 : Z; r11 : Z; r10 : Z; r9 : Z; r8 : Z; rbp : Z; rdi : Z; rsi : Z; rdx : Z; rcx : Z; rbx : Z; rax : Z;
  vector : Z; error_code : Z; rip : Z; cs : Z; rflags : Z; rsp : Z; ss : Z
}.

Definition has_sig (pending sig : Z) : bool := ctrue (Z.land pending (Z.shiftl 1 sig)).
Definition clear_sig (pending sig : Z) : Z := Z.land pending (u32 (Z.lnot (Z.shiftl 1 sig))).
Definition fatal (sig : Z) : bool := (sig =? SIGKILL) || (sig =? SIGTERM) || (sig =? SIGINT).

Inductive action := RunHandler (sig h : Z) | Terminate (sig : Z) | NoAction.

(** The loop over the signals from [sig] on, the same in both delivery
    functions: signals are consumed in order up to the first with a handler or
    a fatal default action. *)
Fixpoint scan_signals (n : nat) (sig pending : Z) (handlers : list Z) : Z * action :=
  match n with
  | O => (pending, NoAction)
  | S n =>
      if negb (has_sig pending sig) then scan_signals n (sig + 1) pending handlers
      else
        let pending := clear_sig pending sig in
        let h := nth (Z.to_nat sig) handlers 0 in
        if ctrue h then (pending, RunHandler sig h)
        else if fatal sig then (pending, Terminate sig)
        else scan_signals n (sig + 1) pending handlers
  end.

(** What delivery does to the interrupted program: it goes on in a changed
    frame, with a word stored at an address of its stack, or it is gone. *)
Inductive delivery (F : Type) := Resume (f : F) (store : option (Z * Z)) | Exited.
Arguments Resume {F} f store.
Arguments Exited {F}.

Section Deliver.
Context (kernel_pml4 : Z).

(** Common part: the pending mask is written back, and a fatal signal exits. *)
Definition deliver {F} (run : Z -> Z -> F * option (Z * Z)) (f : F) : MK (delivery F) :=
  let* cur := scheduler_current in
  let* p := pget cur in
  if negb (ctrue (sig_pending p)) then ret (Resume f None) else
  let '(pending, a) := scan_signals 31 1 (sig_pending p) (sig_handler p) in
  do* pset cur (set_pending pending) in
  match a with
  | NoAction => ret (Resume f None)
  | RunHandler sig h => let '(f, st) := run sig h in ret (Resume f st)
  | Terminate sig => do* sys_exit kernel_pml4 (128 + sig) in ret Exited
  end.

Definition deliver_signals_isr (f : isr_frame) : MK (delivery isr_frame) :=
  deliver (fun sig h =>
    let '(mkIsr a b c d e g i j k _ l m n o p q r ip cs_ fl sp ss_) := f in
    let sp := u64 (sp - 8) in
    (mkIsr a b c d e g i j k sig l m n o p q r h cs_ fl sp ss_, Some (sp, ip))) f.

Definition deliver_signals (f : syscall_frame) : MK (delivery syscall_frame) :=
  deliver (fun sig h =>
    let '(mkFrame a _ c d e g i j k l m n o ip fl sp) := f in
    let sp := u64 (sp - 8) in
    (mkFrame a sig c d e g i j k l m n o h fl sp, Some (sp, ip))) f.

Definition sys_signal (sig handler : Z) : MK Z :=
  if (sig <=? 0) || (32 <=? sig) then ret (-1) else
  let* cur := scheduler_current in
  do* pset cur (fun p => set_handlers (<[Z.to_nat sig := handler]> (sig_handler p)) p) in
  ret 0.

Definition sys_kill (pid_ sig : Z) : MK Z :=
  if (sig <=? 0) || (32 <=? sig) then ret (-1) else
  let* t := scheduler_find (u64 pid_) in
  if negb (ctrue t) then ret (-1) else
  do* pset t (raise_signal sig) in
  ret 0.

(** The rest of the tick after delivery: the quantum runs down and the process
    is switched out. *)
Definition tick_quantum : MK unit :=
  let* cur := scheduler_current in
  do* pset cur (fun p => set_quantum (if 0 <? quantum_remaining p then quantum_remaining p - 1 else quantum_remaining p) p) in
  let* p := pget cur in
  if quantum_remaining p =? 0 then scheduler_yield kernel_pml4 else ret tt.

(** A process that exits in the delivery never comes back to the tick. *)
Definition scheduler_tick (f : isr_frame) : MK (delivery isr_frame) :=
  let* cur := scheduler_current in
  if negb (ctrue cur) then ret (Resume f None) else
  let* p := pget cur in
  let* r := (if (Z.land (cs f) 3 =? 3) && ctrue (sig_pending p) then deliver_signals_isr f else ret (Resume f None)) in
  match r with
  | Exited => ret Exited
  | Resume f st => do* tick_quantum in ret (Resume f st)
  end.
End Deliver.

(** ** Delivery *)

Lemma has_sig_spec pending sig : 0 <= sig -> has_sig pending sig = Z.testbit pending sig.
Proof.
  intros Hs. unfold has_sig, ctrue. destruct (Z.testbit pending sig) eqn:E.
  - apply negb_true_iff, Z.eqb_neq. intros H. apply (f_equal (fun x => Z.testbit x sig)) in H.
    rewrite Z.land_spec, E, testbit_1_shiftl, Z.eqb_refl, Z.bits_0 in H by lia. done.
  - apply negb_false_iff, Z.eqb_eq. apply Z.bits_inj'. intros k Hk. rewrite Z.land_spec, testbit_1_shiftl, Z.bits_0 by lia.
    destruct (Z.eqb_spec k sig) as [->|]; [by rewrite E | apply andb_false_r].
Qed.

Lemma testbit_clear pending sig k : 0 <= sig < 32 -> 0 <= k -> 0 <= pending < 2 ^ 32 ->
  Z.testbit (clear_sig pending sig) k = Z.testbit pending k && negb (k =? sig).
Proof.
  intros Hs Hk Hp. unfold clear_sig, u32. rewrite Z.land_spec. destruct (Z.lt_ge_cases k 32).
  - by rewrite Z.mod_pow2_bits_low, Z.lnot_spec, testbit_1_shiftl by lia.
  - rewrite (Z.bits_above_log2 pending k); [done | lia |]. destruct (Z.eq_dec pending 0) as [->|]; [cbn; lia|].
    apply Z.log2_lt_pow2; [lia|]. apply Z.lt_le_trans with (2 ^ 32); [lia|]. apply Z.pow_le_mono_r; lia.
Qed.

Lemma clear_range pending sig : 0 <= pending < 2 ^ 32 -> 0 <= clear_sig pending sig < 2 ^ 32.
Proof.
  intros Hp. unfold clear_sig, u32. assert (0 <= Z.lnot (Z.shiftl 1 sig) mod 2 ^ 32) by (apply Z.mod_pos_bound; lia).
  split; [apply Z.land_nonneg; left; lia|]. destruct (Z.eq_dec (Z.land pending (Z.lnot (Z.shiftl 1 sig) mod 2 ^ 32)) 0) as [->|]; [lia|].
  apply Z.log2_lt_pow2; [pose proof (proj2 (Z.land_nonneg pending (Z.lnot (Z.shiftl 1 sig) mod 2 ^ 32)) (or_introl (proj1 Hp))); lia|].
  eapply Z.le_lt_trans; [apply Z.log2_land; lia|]. apply Z.min_lt_iff. left.
  destruct (Z.eq_dec pending 0) as [->|]; [cbn; lia|]. apply Z.log2_lt_pow2; lia.
Qed.

(** The signal that decides: pending, and with a handler or fatal. *)
Definition decides (pending : Z) (handlers : list Z) (sig : Z) : bool :=
  Z.testbit pending sig && (ctrue (nth (Z.to_nat sig) handlers 0) || fatal sig).

(** [pending] without the signals in a range. *)
Definition consumed (pending lo hi pending' : Z) : Prop :=
  forall k, 0 <= k -> Z.testbit pending' k = Z.testbit pending k && negb ((lo <=? k) && (k <=? hi)).

(** What the loop from [lo] to 31 finds. *)
Definition scan_outcome (lo pending : Z) (handlers : list Z) (pending' : Z) (a : action) : Prop :=
  match a with
  | NoAction => (forall k, lo <= k < 32 -> decides pending handlers k = false) /\ consumed pending lo 31 pending'
  | RunHandler sig h =>
      lo <= sig < 32 /\ decides pending handlers sig = true /\ h = nth (Z.to_nat sig) handlers 0 /\ h <> 0 /\
      (forall k, lo <= k < sig -> decides pending handlers k = false) /\ consumed pending lo sig pending'
  | Terminate sig =>
      lo <= sig < 32 /\ decides pending handlers sig = true /\ nth (Z.to_nat sig) handlers 0 = 0 /\ fatal sig = true /\
      (forall k, lo <= k < sig -> decides pending handlers k = false) /\ consumed pending lo sig pending'
  end.

Lemma consumed_clear pending lo hi pending' : 0 <= lo < 32 -> lo <= hi -> 0 <= pending < 2 ^ 32 ->
  consumed (clear_sig pending lo) (lo + 1) hi pending' -> consumed pending lo hi pending'.
Proof.
  intros Hlo Hhi Hp Hc k Hk. rewrite Hc, testbit_clear by (done || lia). rewrite <- andb_assoc. f_equal.
  destruct (Z.eqb_spec k lo), (Z.leb_spec (lo + 1) k), (Z.leb_spec k hi), (Z.leb_spec lo k); cbn; lia || done.
Qed.

Lemma consumed_skip pending lo hi pending' : 0 <= lo -> Z.testbit pending lo = false ->
  consumed pending (lo + 1) hi pending' -> consumed pending lo hi pending'.
Proof.
  intros Hlo Hb Hc k Hk. rewrite Hc by done. destruct (Z.eq_dec k lo) as [->|]; [by rewrite Hb|]. f_equal.
  destruct (Z.leb_spec (lo + 1) k), (Z.leb_spec k hi), (Z.leb_spec lo k); cbn; lia || done.
Qed.

Lemma outcome_step lo pending q handlers pending' a : 0 <= lo < 32 -> decides pending handlers lo = false ->
  (forall k, lo < k -> Z.testbit q k = Z.testbit pending k) ->
  (forall hi, lo <= hi -> consumed q (lo + 1) hi pending' -> consumed pending lo hi pending') ->
  scan_outcome (lo + 1) q handlers pending' a -> scan_outcome lo pending handlers pending' a.
Proof.
  intros Hlo Hd Hq Hc. assert (D : forall k, lo < k -> decides q handlers k = decides pending handlers k).
  { intros k Hk. unfold decides. by rewrite Hq. }
  assert (B : forall n, (forall k, lo + 1 <= k < n -> decides q handlers k = false) -> forall k, lo <= k < n -> decides pending handlers k = false).
  { intros n H k Hk. destruct (Z.eq_dec k lo) as [->|]; [done|]. rewrite <- D by lia. apply H. lia. }
  destruct a as [sig h|sig|]; cbn [scan_outcome].
  - intros (H1 & H2 & H3 & H4 & H5 & H6). rewrite D in H2 by lia. split_and!; [lia | lia | done | done | done | by apply B | apply Hc; [lia | done]].
  - intros (H1 & H2 & H3 & H4 & H5 & H6). rewrite D in H2 by lia. split_and!; [lia | lia | done | done | done | by apply B | apply Hc; [lia | done]].
  - intros [H1 H2]. split; [by apply B | apply Hc; [lia | done]].
Qed.

Lemma scan_signals_spec n : forall lo pending handlers, 0 <= lo -> lo + Z.of_nat n = 32 -> 0 <= pending < 2 ^ 32 ->
  let '(pending', a) := scan_signals n lo pending handlers in scan_outcome lo pending handlers pending' a.
Proof.
  induction n as [|n IH]; intros lo pending handlers Hlo Hn Hp; cbn [scan_signals].
  { split; [lia|]. intros k Hk. destruct (Z.leb_spec lo k), (Z.leb_spec k 31); cbn; lia || by rewrite andb_true_r. }
  rewrite has_sig_spec by done. destruct (Z.testbit pending lo) eqn:Eb; cbn [negb].
  - assert (Hdec : decides pending handlers lo = ctrue (nth (Z.to_nat lo) handlers 0) || fatal lo) by (unfold decides; by rewrite Eb).
    assert (Hone : consumed pending lo lo (clear_sig pending lo)).
    { apply consumed_clear; [lia | lia | done |]. intros k Hk. destruct (Z.leb_spec (lo + 1) k), (Z.leb_spec k lo); cbn; lia || by rewrite andb_true_r. }
    destruct (ctrue (nth (Z.to_nat lo) handlers 0)) eqn:Eh; [|destruct (fatal lo) eqn:Ef].
    + apply negb_true_iff, Z.eqb_neq in Eh. cbn [scan_outcome]. split_and!; done || lia || (intros; lia).
    + apply negb_false_iff, Z.eqb_eq in Eh. cbn [scan_outcome]. split_and!; done || lia || (intros; lia).
    + specialize (IH (lo + 1) (clear_sig pending lo) handlers ltac:(lia) ltac:(lia) (clear_range _ _ Hp)).
      destruct (scan_signals n (lo + 1) (clear_sig pending lo) handlers) as [p' a]. eapply outcome_step; [lia | done | | | exact IH].
      * intros k Hk. rewrite testbit_clear by lia. destruct (Z.eqb_spec k lo); [lia|]. apply andb_true_r.
      * intros hi Hhi. apply consumed_clear; [lia | done | done].
  - specialize (IH (lo + 1) pending handlers ltac:(lia) ltac:(lia) Hp).
    destruct (scan_signals n (lo + 1) pending handlers) as [p' a]. eapply outcome_step; [lia | | done | | exact IH].
    + unfold decides. by rewrite Eb.
    + intros hi Hhi. apply consumed_skip; done || lia.
Qed.

(** The frame a handler starts in: [rip] at the handler, the signal number in
    [rdi], and the interrupted [rip] pushed as its return address. *)
Definition handler_frame (sig h : Z) (f f' : syscall_frame) : Prop :=
  f_rip f' = h /\ f_rdi f' = sig /\ f_ursp f' = u64 (f_ursp f - 8) /\
  f_rax f' = f_rax f /\ f_rsi f' = f_rsi f /\ f_rdx f' = f_rdx f /\ f_r10 f' = f_r10 f /\ f_r8 f' = f_r8 f /\ f_r9 f' = f_r9 f /\
  f_rbx f' = f_rbx f /\ f_rbp f' = f_rbp f /\ f_r12 f' = f_r12 f /\ f_r13 f' = f_r13 f /\ f_r14 f' = f_r14 f /\ f_r15 f' = f_r15 f /\
  f_rflags f' = f_rflags f.

(** C29: on the return from a system call the lowest-numbered pending signal
    that has a handler or a fatal default action decides.  With a handler, the
    program continues in it, the interrupted address pushed on its stack and
    every other register kept; without, the process exits; if there is none,
    nothing happens to the program.  Exactly the signals up to the deciding one
    are consumed. *)
Theorem deliver_signals_first kp f s p : k_procs s !! g_current s = Some p -> 0 < sig_pending p < 2 ^ 32 ->
  exists pending' a, scan_outcome 1 (sig_pending p) (sig_handler p) pending' a /\
    let s' := set_procs (<[g_current s := set_pending pending' p]> (k_procs s)) s in
    match a with
    | NoAction => deliver_signals kp f s = Some (Resume f None, s')
    | RunHandler sig h => exists f', deliver_signals kp f s = Some (Resume f' (Some (u64 (f_ursp f - 8), f_rip f)), s') /\ handler_frame sig h f f'
    | Terminate sig => deliver_signals kp f s = (do* sys_exit kp (128 + sig) in ret Exited) s'
    end.
Proof.
  intros Hp Hs. pose proof (scan_signals_spec 31 1 (sig_pending p) (sig_handler p) ltac:(lia) ltac:(lia) ltac:(lia)) as H.
  destruct (scan_signals 31 1 (sig_pending p) (sig_handler p)) as [pending' a] eqn:E. exists pending', a. split; [done|].
  assert (Hc : ctrue (sig_pending p) = true) by (apply negb_true_iff, Z.eqb_neq; lia).
  assert (D : forall F run (f : F), deliver kp run f s = match a with
    | NoAction => ret (Resume f None)
    | RunHandler sig h => let '(f, st) := run sig h in ret (Resume f st)
    | Terminate sig => do* sys_exit kp (128 + sig) in ret Exited
    end (set_procs (<[g_current s := set_pending pending' p]> (k_procs s)) s)).
  { intros F run f0. unfold deliver, bind at 1, scheduler_current, gets, bind at 1, pget. rewrite Hp, Hc, E. cbn [negb].
    unfold bind at 1, pset. by rewrite Hp. }
  cbv zeta. unfold deliver_signals. rewrite D. destruct a as [sig h|sig|]; [|done | done]. destruct f. eexists. split; [reflexivity|]. done.
Qed.

Definition victim : process := mkProc 7 [] PROC_RUNNING 0 0 0 0 0 0 0 0 0 [] 0 0 10 1 0 0 [] 0x204 (<[9%nat := 0x401000]> (replicate 32 0)) [] 0.
Definition one_proc (p : process) : kern := mkKern {[ 16 := p ]} 16 0 0 16 0 8 0 0 0 ∅ [].
Definition frame0 : syscall_frame := mkFrame 0 1 2 3 4 5 6 7 8 9 10 11 12 0x400100 0x202 0x50000800.

Lemma deliver_signals_first_witness :
  exists pending' a, scan_outcome 1 (sig_pending victim) (sig_handler victim) pending' a /\
    let s' := set_procs (<[16 := set_pending pending' victim]> (k_procs (one_proc victim))) (one_proc victim) in
    match a with
    | NoAction => deliver_signals 0 frame0 (one_proc victim) = Some (Resume frame0 None, s')
    | RunHandler sig h => exists f', deliver_signals 0 frame0 (one_proc victim) =
        Some (Resume f' (Some (u64 (f_ursp frame0 - 8), f_rip frame0)), s') /\ handler_frame sig h frame0 f'
    | Terminate sig => deliver_signals 0 frame0 (one_proc victim) = (do* sys_exit 0 (128 + sig) in ret Exited) s'
    end.
Proof. apply (deliver_signals_first 0 frame0 (one_proc victim) victim); [reflexivity | by vm_compute]. Defined.

(** SIGKILL can be caught.  [sys_signal] accepts a handler for signal 9,
    and a process that has one is not terminated by it but enters the handler. *)
Theorem sigkill_is_catchable :
  match sys_signal SIGKILL 0x401000 (one_proc (set_handlers (replicate 32 0) (set_pending 0 victim))) with
  | Some (r, s) =>
      r = 0 /\ match sys_kill 7 SIGKILL s with
              | Some (r, s) => r = 0 /\ match deliver_signals 0 frame0 s with
                                       | Some (Resume f _, _) => f_rip f = 0x401000
                                       | _ => False
                                       end
              | None => False
              end
  | None => False
  end.
Proof. vm_compute. by split. Qed.
End Signal.
