(* ===== verification/Sched.v ===== *)
(** * Round-robin scheduling is fair

    The ready queue threaded through the process descriptors is an abstract
    queue; a switch takes its head and appends the previous process; nobody in
    the queue waits for more than ten timer ticks per process ahead of it. *)
From S2P Require Import Prelude Pipe Proc Fd Signal.

Module Sched.
Import Proc Fd Signal.

(** ** Linked lists of processes *)

Fixpoint chain (nxt : process -> Z) (m : gmap Z process) (h : Z) (q : list Z) : Prop :=
  match q with
  | [] => h = 0
  | a :: q => h = a /\ a <> 0 /\ exists p, m !! a = Some p /\ chain nxt m (nxt p) q
  end.

Lemma chain_ext nxt m m' h q : chain nxt m h q ->
  (forall a p, a ∈ q -> m !! a = Some p -> exists p', m' !! a = Some p' /\ nxt p' = nxt p) -> chain nxt m' h q.
Proof.
  revert h. induction q as [|a q IH]; intros h Hc He; [done|]. destruct Hc as (-> & Ha & p & Hp & Hc). cbn.
  destruct (He a p) as (p' & Hp' & E); [by left | done |]. split_and!; [done | done |]. exists p'. split; [done|].
  rewrite E. apply IH; [done|]. intros b pb Hb. apply He. by right.
Qed.

Lemma chain_live nxt m h q a : chain nxt m h q -> a ∈ q -> a <> 0 /\ is_Some (m !! a).
Proof.
  revert h. induction q as [|b q IH]; intros h Hc Ha; [by apply not_elem_of_nil in Ha|].
  destruct Hc as (-> & Hb & p & Hp & Hc). apply elem_of_cons in Ha as [->|Ha]; [by split; [|exists p] | by eapply IH].
Qed.

Lemma chain_snoc nxt m h q b p : chain nxt m h q -> b <> 0 -> b ∉ q -> NoDup q -> m !! b = Some p -> nxt p = 0 ->
  forall t, last q = Some t -> forall m',
  (forall a pa, a <> t -> m !! a = Some pa -> exists pa', m' !! a = Some pa' /\ nxt pa' = nxt pa) ->
  (exists pt, m' !! t = Some pt /\ nxt pt = b) -> chain nxt m' h (q ++ [b]).
Proof.
  intros Hc Hb Hbq Hnd Hp Hn t Ht m' Hoth Htl. revert h Hc. induction q as [|a q IH]; intros h Hc; [done|].
  destruct Hc as (-> & Ha & pa & Hpa & Hc). apply NoDup_cons in Hnd as [Haq Hnd]. apply not_elem_of_cons in Hbq as [Hba Hbq]. cbn. destruct q as [|c q].
  - injection Ht as ->. destruct Htl as (pt & E & En). split_and!; [done | done |]. exists pt. split; [done|]. cbn. rewrite En.
    split_and!; [done | done |]. destruct (Hoth b p ltac:(congruence) Hp) as (p' & Hp' & E'). exists p'. split; [done | congruence].
  - rewrite last_cons_cons in Ht. assert (a <> t).
    { intros ->. apply Haq. apply last_Some_elem_of in Ht. done. }
    destruct (Hoth a pa) as (pa' & Hpa' & E); [done | done |]. split_and!; [done | done |]. exists pa'. split; [done|].
    rewrite E. by apply IH.
Qed.

(** ** The ready queue *)

Record queue (s : kern) (q : list Z) : Prop := {
  q_chain : chain p_next (k_procs s) (g_ready_head s) q;
  q_tail : g_ready_tail s = default 0 (last q);
  q_nodup : NoDup q
}.

Lemma pset_runs a f p s (Q : unit -> kern -> Prop) : k_procs s !! a = Some p ->
  Q tt (set_procs (<[a := f p]> (k_procs s)) s) -> runs (pset a f) s Q.
Proof. intros Hp HQ. unfold runs, pset. by rewrite Hp. Qed.

Lemma pget_runs a p s (Q : process -> kern -> Prop) : k_procs s !! a = Some p -> Q p s -> runs (pget a) s Q.
Proof. intros Hp HQ. unfold runs, pget. by rewrite Hp. Qed.

(** The parts of the descriptors an operation leaves alone. *)
Definition agree {A} (f : process -> A) (m m' : gmap Z process) : Prop := forall a, f <$> m' !! a = f <$> m !! a.

Lemma agree_trans {A} (f : process -> A) m1 m2 m3 : agree f m1 m2 -> agree f m2 m3 -> agree f m1 m3.
Proof. intros H1 H2 a. by rewrite H2, H1. Qed.

Lemma agree_insert {A} (f : process -> A) m a p p' : m !! a = Some p -> f p' = f p -> agree f m (<[a := p']> m).
Proof. intros Hp E b. destruct (decide (a = b)) as [<-|Hne]; [rewrite lookup_insert_eq, Hp; cbn; by rewrite E | by rewrite lookup_insert_ne]. Qed.

Lemma agree_lookup {A} (f : process -> A) m m' a p : agree f m m' -> m !! a = Some p -> exists p', m' !! a = Some p' /\ f p' = f p.
Proof. intros H Hp. specialize (H a). rewrite Hp in H. apply fmap_Some in H as (p' & ? & ?). by exists p'. Qed.

Definition no_next : process -> process := set_next 0.

Lemma ctrue_spec x : ctrue x = true <-> x <> 0.
Proof. unfold ctrue. destruct (Z.eqb_spec x 0); cbn; split; done. Qed.

Lemma no_next_set v p : no_next (set_next v p) = no_next p.
Proof. by destruct p. Qed.

Lemma last_ne0 m h q t : chain p_next m h q -> last q = Some t -> t <> 0 /\ exists p, m !! t = Some p.
Proof. intros Hc Ht. destruct (chain_live _ _ _ _ t Hc) as [H1 [p H2]]; [by apply last_Some_elem_of | by split; [|exists p]]. Qed.

(** [scheduler_add] appends to the queue. *)
Lemma scheduler_add_runs b p s q (Q : unit -> kern -> Prop) : queue s q -> b <> 0 -> b ∉ q -> k_procs s !! b = Some p ->
  (forall m', let h' := match q with [] => b | _ => g_ready_head s end in
     let s' := set_ready h' b (set_procs m' s) in
     queue s' (q ++ [b]) -> agree no_next (k_procs s) m' -> Q tt s') ->
  runs (scheduler_add b) s Q.
Proof.
  intros [Hc Ht Hnd] Hb Hbq Hp HQ. unfold scheduler_add. apply runs_bind. eapply pset_runs; [done|].
  destruct s as [m cur hd tl ah fg np cr kst rsp stk pipes]. cbn [k_procs g_ready_tail g_ready_head set_procs] in *.
  apply runs_bind. unfold gets at 1, runs at 1. cbn [g_ready_tail]. apply runs_bind.
  set (m1 := <[b := set_next 0 p]> m). assert (Hb1 : m1 !! b = Some (set_next 0 p)) by apply lookup_insert_eq.
  assert (A1 : agree no_next m m1) by (apply (agree_insert _ _ _ p); [done | apply no_next_set]).
  destruct q as [|c q].
  - cbn in Ht. subst tl. cbn [ctrue]. unfold modify, runs, set_ready. cbn. apply HQ; [|done].
    split; cbn; [|done | apply NoDup_singleton]. split_and!; [done | done |]. exists (set_next 0 p). split; [done | by destruct p].
  - destruct (last (c :: q)) as [t|] eqn:El; [|by apply last_None in El]. cbn in Ht. subst tl.
    destruct (last_ne0 m hd (c :: q) t Hc El) as [Ht0 [pt Hpt]]. rewrite (proj2 (ctrue_spec t) Ht0).
    assert (t <> b) by (intros ->; apply Hbq; by apply last_Some_elem_of).
    assert (Ht1 : m1 !! t = Some pt) by (unfold m1; by rewrite lookup_insert_ne by done).
    eapply pset_runs; [exact Ht1|]. unfold modify, runs, set_ready. cbn [k_procs set_procs g_ready_head]. apply HQ.
    + split; cbn [k_procs set_procs set_ready g_ready_head g_ready_tail]; [| by rewrite last_snoc |].
      * apply (chain_snoc p_next m1 hd (c :: q) b (set_next 0 p)) with (t := t); try done.
        -- apply (chain_ext _ m); [done|]. intros a pa Ha Hpa. exists pa. split; [|done]. unfold m1. rewrite lookup_insert_ne; [done|]. by intros ->.
        -- by destruct p.
        -- intros a pa Hat Ha. exists pa. split; [|done]. by rewrite lookup_insert_ne.
        -- exists (set_next b pt). split; [apply lookup_insert_eq | by destruct pt].
      * apply NoDup_app. split_and!; [done | | apply NoDup_singleton]. intros x Hx ->%list_elem_of_singleton. done.
    + eapply agree_trans; [done|]. apply (agree_insert _ _ _ pt); [done | apply no_next_set].
Qed.

(** ** The switch *)

(** The current process is not in the queue, and those in the queue are ready. *)
Record sched_ok (s : kern) (q : list Z) : Prop := {
  so_queue : queue s q;
  so_cur : g_current s <> 0 /\ (g_current s ∉ q) /\ is_Some (k_procs s !! g_current s);
  so_ready : forall a p, a ∈ q -> k_procs s !! a = Some p -> p_state p = PROC_READY
}.

(** What scheduling never changes of a process. *)
Definition core (p : process) : process := set_kctx 0 (set_quantum 0 (set_state PROC_READY (set_next 0 p))).
Definition core_eq (p p' : process) : Prop := core p' = core p.

(** State and quantum. *)
Definition turn_of (p : process) : proc_state * Z := (p_state p, quantum_remaining p).

Lemma core_fields p p' : core p' = core p -> fds p' = fds p /\ pid p' = pid p /\ parent p' = parent p /\ pml4 p' = pml4 p /\
  all_next p' = all_next p /\ sig_pending p' = sig_pending p.
Proof. destruct p, p'. unfold core. cbn. intros E. by injection E. Qed.

Lemma no_next_core p p' : no_next p' = no_next p -> core p' = core p /\ turn_of p' = turn_of p.
Proof. unfold no_next, core, turn_of. destruct p, p'. cbn. intros E. injection E as -> -> -> -> -> -> -> -> -> -> -> -> -> -> -> -> -> -> -> -> -> -> ->. done. Qed.

(** The outcome of a switch from [s] to the process [n], the queue being [q]
    after it. *)
Record switched (s : kern) (n : Z) (q : list Z) (s' : kern) : Prop := {
  sw_ok : sched_ok s' q;
  sw_cur : g_current s' = n;
  sw_core : agree core (k_procs s) (k_procs s');
  sw_next : exists p, k_procs s' !! n = Some p /\ turn_of p = (PROC_RUNNING, PROC_QUANTUM);
  sw_prev : forall d, k_procs s !! g_current s = Some d -> exists d', k_procs s' !! g_current s = Some d' /\
              p_state d' = if runnable d then PROC_READY else p_state d;
  sw_others : forall a p, a <> n -> a <> g_current s -> k_procs s !! a = Some p ->
                exists p', k_procs s' !! a = Some p' /\ turn_of p' = turn_of p;
  sw_rest : g_all_head s' = g_all_head s /\ g_fg_pid s' = g_fg_pid s /\ g_next_pid s' = g_next_pid s /\ g_pipes s' = g_pipes s
}.

Definition yield_queue (d : process) (cur : Z) (q : list Z) : list Z := if runnable d then q ++ [cur] else q.

(** Taking the head off the queue. *)
Lemma queue_pop s n q p : queue s (n :: q) -> k_procs s !! n = Some p ->
  queue (set_ready (p_next p) (if ctrue (p_next p) then g_ready_tail s else 0) s) q /\ n <> 0 /\ (n ∉ q).
Proof.
  intros [Hc Ht Hnd] Hp. destruct s as [m cur hd tl ah fg np cr kst rsp stk pipes]. cbn [k_procs g_ready_tail g_ready_head set_ready] in *.
  destruct Hc as (-> & Hn & p' & Hp' & Hc). assert (p' = p) as -> by congruence. apply NoDup_cons in Hnd as [Hnq Hnd].
  split_and!; [split; cbn; [done | | done] | done | done]. destruct q as [|c q].
  - by rewrite Hc.
  - rewrite last_cons_cons in Ht. destruct Hc as (-> & Hc0 & _). by rewrite (proj2 (ctrue_spec _) Hc0).
Qed.

Lemma queue_agree s s' q : queue s q -> g_ready_head s' = g_ready_head s -> g_ready_tail s' = g_ready_tail s ->
  agree p_next (k_procs s) (k_procs s') -> queue s' q.
Proof.
  intros [Hc Ht Hnd] Eh Et Ha. split; [|congruence | done]. rewrite Eh. apply (chain_ext _ _ _ _ _ Hc). intros a p _ Hp.
  by apply (agree_lookup p_next _ _ _ _ Ha).
Qed.

(** The previous process goes to the end of the queue when it can still run. *)
Lemma requeue_runs d s q (Q : unit -> kern -> Prop) : queue s q -> g_current s <> 0 -> g_current s ∉ q ->
  k_procs s !! g_current s = Some d ->
  (forall h t m', let s' := set_ready h t (set_procs m' s) in
     queue s' (yield_queue d (g_current s) q) -> agree core (k_procs s) m' ->
     (exists d', m' !! g_current s = Some d' /\ p_state d' = if runnable d then PROC_READY else p_state d) ->
     (forall a p, a <> g_current s -> k_procs s !! a = Some p -> exists p', m' !! a = Some p' /\ turn_of p' = turn_of p) -> Q tt s') ->
  runs (if runnable d then do* pset (g_current s) (set_state PROC_READY) in scheduler_add (g_current s) else ret tt) s Q.
Proof.
  intros Hq Hc0 Hcq Hd HQ. unfold yield_queue in HQ. destruct s as [m cur hd tl ah fg np cr kst rsp stk pipes].
  cbn [k_procs g_current set_procs] in *. destruct (runnable d) eqn:Er.
  - apply runs_bind. eapply pset_runs; [done|]. cbn [set_procs k_procs].
    assert (Hq1 : queue (mkKern (<[cur := set_state PROC_READY d]> m) cur hd tl ah fg np cr kst rsp stk pipes) q).
    { eapply queue_agree; [exact Hq | done | done |]. apply (agree_insert _ _ _ d); [done | by destruct d]. }
    eapply (scheduler_add_runs cur _ _ q); [done | done | done | apply lookup_insert_eq |].
    intros m' h' s' Hq' Ha. apply (HQ h' cur m'); [done | | |].
    + eapply agree_trans; [apply (agree_insert core m cur d (set_state PROC_READY d)); [done | by destruct d] |].
      intros a. specialize (Ha a). cbn [k_procs] in Ha. destruct (m' !! a) as [p'|], (<[cur := _]> m !! a) as [p|]; try done.
      apply Some_inj in Ha. cbn. by rewrite (proj1 (no_next_core p p' Ha)).
    + destruct (agree_lookup no_next _ _ cur _ Ha (lookup_insert_eq _ _ _)) as (d' & Hd' & E). exists d'. split; [done|].
      apply no_next_core in E as [_ E]. injection E as -> _. by destruct d.
    + intros a p Hne Hp. destruct (agree_lookup no_next _ _ a p Ha) as (p' & Hp' & E); [cbn [k_procs]; by rewrite lookup_insert_ne by done|].
      exists p'. split; [done|]. by apply no_next_core.
  - apply runs_ret. apply (HQ hd tl m); [done | by intros a | by exists d | by intros a p _ Hp; exists p].
Qed.

(** [scheduler_yield] implements a round-robin queue. *)
Lemma yield_switches kp s n q d : sched_ok s (n :: q) -> k_procs s !! g_current s = Some d ->
  runs (scheduler_yield kp) s (fun _ s' => switched s n (yield_queue d (g_current s) q) s').
Proof.
  intros [Hq (Hc0 & Hcq & _) Hr] Hd. apply not_elem_of_cons in Hcq as [Hcn Hcq].
  destruct (q_chain _ _ Hq) as (Eh & Hn0 & pn & Hpn & _). destruct (queue_pop s n q pn Hq Hpn) as (Hq1 & _ & Hnq).
  unfold scheduler_yield. apply runs_bind. unfold gets at 1, runs at 1. rewrite Eh, (proj2 (ctrue_spec n) Hn0). cbn [negb].
  apply runs_bind. unfold gets at 1, runs at 1. apply runs_bind. eapply pget_runs; [done|]. apply runs_bind. unfold modify at 1, runs at 1.
  set (s1 := set_ready _ _ s) in *. assert (E1 : k_procs s1 = k_procs s /\ g_current s1 = g_current s) by (by destruct s).
  destruct E1 as [E1 E2]. apply runs_bind. eapply pget_runs; [by rewrite E1|]. apply runs_bind. rewrite <- E2.
  apply (requeue_runs d s1 q); [done | congruence | congruence | congruence |]. rewrite E1, E2.
  intros h t m2 s2 Hq2 A2 (d2 & Hd2 & Sd2) O2. assert (E3 : k_procs s2 = m2) by (unfold s2; by destruct s).
  destruct (O2 n pn) as (pn2 & Hpn2 & Tn2); [congruence | done |].
  apply runs_bind. eapply pset_runs; [by rewrite E3|]. set (f := fun p => set_quantum PROC_QUANTUM (set_state PROC_RUNNING p)).
  apply runs_bind. unfold modify at 1, runs at 1.
  assert (Hn3 : <[n := f pn2]> m2 !! n = Some (f pn2)) by apply lookup_insert_eq.
  assert (Hc3 : <[n := f pn2]> m2 !! g_current s = Some d2) by (by rewrite lookup_insert_ne).
  rewrite E3. apply runs_bind. eapply (pget_runs n (f pn2)); [by destruct s|]. apply runs_bind. eapply (pget_runs _ d2); [by destruct s|].
  apply runs_bind. unfold modify at 1, runs at 1. apply runs_bind. unfold gets at 1, runs at 1.
  apply runs_bind. eapply (pset_runs _ _ d2); [by destruct s|]. apply runs_bind.
  set (m4 := <[g_current s := _]> _).
  assert (Em : m4 = <[g_current s := set_kctx (k_rsp s) d2]> (<[n := f pn2]> m2)) by (unfold m4; by destruct s). clearbody m4. subst m4.
  eapply (pget_runs n (f pn2)); [destruct s; cbn; by rewrite lookup_insert_ne|]. unfold modify, runs.
  set (s4 := set_cpu _ _ _ _). set (m4 := <[g_current s := _]> _) in *. assert (E4 : k_procs s4 = m4) by (by destruct s). 
  assert (Hm4n : m4 !! n = Some (f pn2)) by (unfold m4; by rewrite lookup_insert_ne).
  assert (Hm4c : m4 !! g_current s = Some (set_kctx (k_rsp s) d2)) by apply lookup_insert_eq.
  assert (A4 : forall A (g : process -> A), g (f pn2) = g pn2 -> g (set_kctx (k_rsp s) d2) = g d2 -> agree g m2 m4).
  { intros A g G1 G2. unfold m4. eapply agree_trans; [apply (agree_insert g _ n pn2); done|]. by apply (agree_insert g _ _ d2). }
  assert (R4 : g_current s4 = n /\ g_ready_head s4 = g_ready_head s2 /\ g_ready_tail s4 = g_ready_tail s2) by (by destruct s).
  destruct R4 as (Rc & Rh & Rt).
  assert (Oth : forall a p, a <> n -> a <> g_current s -> k_procs s !! a = Some p -> exists p', m4 !! a = Some p' /\ turn_of p' = turn_of p).
  { intros a p Ha1 Ha2 Hp. destruct (O2 a p Ha2 Hp) as (p' & Hp' & T). exists p'. split; [|done]. unfold m4. by rewrite !lookup_insert_ne. }
  constructor; rewrite ?E4.
  - split; rewrite ?Rc, ?E4.
    + apply (queue_agree s2); [done | done | done |]. rewrite E3, E4. apply A4; [by destruct pn2 | by destruct d2].
    + split_and!; [done | | by exists (f pn2)]. unfold yield_queue. destruct (runnable d); [|done]. by rewrite not_elem_of_app, list_elem_of_singleton.
    + intros a p Ha. unfold yield_queue in Ha. assert (Hcase : a = g_current s /\ runnable d = true \/ a ∈ q).
      { destruct (runnable d); [|by right]. apply elem_of_app in Ha as [Ha|Ha%list_elem_of_singleton]; [by right | by left]. }
      destruct Hcase as [[-> Er]|Haq].
      * rewrite Hm4c. intros [= <-]. rewrite Er in Sd2. by destruct d2.
      * assert (a <> n) by (by intros ->). assert (a <> g_current s) by (by intros ->).
        assert (Hin : a ∈ n :: q) by (by right). destruct (chain_live _ _ _ _ a (q_chain _ _ Hq) Hin) as [_ [pa Hpa]].
        destruct (Oth a pa) as (p' & -> & T); [done | done | done |]. intros [= <-]. injection T as -> _. by apply (Hr a).
  - done.
  - eapply agree_trans; [exact A2|]. apply A4; [by destruct pn2 | by destruct d2].
  - exists (f pn2). split; [done|]. by destruct pn2.
  - intros d0 Hd0. assert (d0 = d) as -> by congruence. eexists. split; [done|]. by destruct d2.
  - done.
  - unfold s4. by destruct s.
Qed.

Lemma yield_idle kp s : sched_ok s [] -> scheduler_yield kp s = Some (tt, s).
Proof. intros [[Hc _ _] _ _]. unfold scheduler_yield, bind, gets. cbn in Hc. by rewrite Hc. Qed.

(** ** Fairness *)

(** A scheduler state whose running process has at most a full quantum left. *)
Record fair (s : kern) (q : list Z) : Prop := {
  fa_ok : sched_ok s q;
  fa_quantum : forall p, k_procs s !! g_current s = Some p -> 0 <= quantum_remaining p <= PROC_QUANTUM
}.

Lemma sched_ok_agree s s' q : sched_ok s q -> g_ready_head s' = g_ready_head s -> g_ready_tail s' = g_ready_tail s ->
  g_current s' = g_current s -> agree p_next (k_procs s) (k_procs s') -> (forall a, a ∈ q -> p_state <$> k_procs s' !! a = p_state <$> k_procs s !! a) ->
  sched_ok s' q.
Proof.
  intros [Hq (H1 & H2 & [p Hp]) Hr] Eh Et Ec An As_. split.
  - by apply (queue_agree s).
  - rewrite Ec. split_and!; [done | done |]. destruct (agree_lookup _ _ _ _ _ An Hp) as (p' & -> & _). done.
  - intros a p' Ha Hp'. specialize (As_ a Ha). rewrite Hp' in As_. symmetry in As_. apply fmap_Some in As_ as (pa & Hpa & ->). by apply (Hr a).
Qed.

(** Updating the running process. *)
Lemma sched_ok_cur s q p p' : sched_ok s q -> k_procs s !! g_current s = Some p -> p_next p' = p_next p ->
  sched_ok (set_procs (<[g_current s := p']> (k_procs s)) s) q.
Proof.
  intros Hok Hp En. pose proof (so_cur _ _ Hok) as (_ & Hcq & _). destruct s as [m cur hd tl ah fg np cr kst rsp stk pipes].
  cbn [k_procs g_current set_procs] in *.
  eapply sched_ok_agree; [exact Hok | done | done | done | by apply (agree_insert _ _ _ p) |].
  intros a Ha. cbn [k_procs]. rewrite lookup_insert_ne; [done|]. by intros <-.
Qed.

(** How long [a] can still wait: the ticks left to the running process and to
    those ahead of [a]. *)
Definition wait (s : kern) (i : nat) : Z :=
  match k_procs s !! g_current s with Some p => Z.max 1 (quantum_remaining p) | None => 0 end + PROC_QUANTUM * Z.of_nat i.

(** [a] runs, or its wait has gone down by [k]. *)
Definition closer (k : Z) (s : kern) (i : nat) (a : Z) (s' : kern) : Prop :=
  g_current s' = a \/ exists q' i', fair s' q' /\ q' !! i' = Some a /\ wait s' i' + k <= wait s i.

Lemma switch_closer s n q d s' a i : switched s n (yield_queue d (g_current s) q) s' -> (n :: q) !! i = Some a ->
  is_Some (k_procs s !! g_current s) -> closer 1 s i a s'.
Proof.
  intros Hsw Ha [c Hc]. destruct (sw_next _ _ _ _ Hsw) as (p & Hp & T). pose proof (sw_cur _ _ _ _ Hsw) as Ec. injection T as _ Tq.
  destruct i as [|i]; [left; injection Ha as <-; done|]. right. exists (yield_queue d (g_current s) q), i. split_and!.
  - split; [by apply (sw_ok _ _ _ _ Hsw)|]. rewrite Ec, Hp. intros p' [= <-]. rewrite Tq. unfold PROC_QUANTUM. lia.
  - unfold yield_queue. destruct (runnable d); [|done]. by apply lookup_app_l_Some.
  - unfold wait. rewrite Ec, Hp, Hc, Tq. unfold PROC_QUANTUM. lia.
Qed.

Lemma yield_closer kp s q i a : fair s q -> q !! i = Some a -> runs (scheduler_yield kp) s (fun _ s' => closer 1 s i a s').
Proof.
  intros [Hok _] Ha. destruct q as [|n q]; [done|]. pose proof (so_cur _ _ Hok) as (_ & _ & [d Hd]).
  eapply runs_mono; [by apply (yield_switches kp s n q d)|]. intros [] s' Hsw. eapply switch_closer; [done | done | by exists d].
Qed.

Lemma on_pipe_frame f e s (Q : unit -> kern -> Prop) : (forall v, Q tt (set_pipes v s)) -> runs (on_pipe f e) s Q.
Proof.
  intros HQ. unfold on_pipe. assert (Q tt s) by (specialize (HQ (g_pipes s)); by destruct s).
  destruct (end_of _); [|done]. destruct (fd_file e); [done | | done]. unfold modify, runs. by destruct s.
Qed.

Lemma release_fds_frame l s (Q : unit -> kern -> Prop) : (forall v, Q tt (set_pipes v s)) -> runs (release_fds l) s Q.
Proof.
  revert s. induction l as [|e l IH]; intros s HQ; cbn [release_fds].
  - apply runs_ret. specialize (HQ (g_pipes s)). by destruct s.
  - apply runs_bind. apply on_pipe_frame. intros v. apply IH. intros v'. specialize (HQ v'). by destruct s.
Qed.

Lemma exit_closer kp code s q i a : fair s q -> q !! i = Some a -> runs (sys_exit kp code) s (fun _ s' => closer 1 s i a s').
Proof.
  intros [Hok Hqu] Ha. destruct q as [|n q]; [done|]. pose proof (so_cur _ _ Hok) as (_ & _ & [d Hd]).
  unfold sys_exit, current. apply runs_bind. apply runs_bind. unfold gets at 1, runs at 1. eapply pget_runs; [done|].
  apply runs_bind. apply release_fds_frame. intros v. unfold scheduler_exit. apply runs_bind. unfold gets at 1, runs at 1.
  apply runs_bind. replace (g_current (set_pipes v s)) with (g_current s) by (by destruct s).
  eapply pset_runs; [by destruct s|]. set (z := set_state PROC_ZOMBIE (set_exit code d)). set (s1 := set_procs _ _).
  assert (Hok1 : sched_ok (set_procs (<[g_current s := z]> (k_procs s)) s) (n :: q)) by (apply (sched_ok_cur s _ d); [done | done | by destruct d]).
  assert (E1 : g_current s1 = g_current s /\ k_procs s1 !! g_current s1 = Some z /\ sched_ok s1 (n :: q)).
  { split_and!; [by destruct s | destruct s; apply lookup_insert_eq |]. eapply sched_ok_agree; [exact Hok1 | by destruct s | by destruct s | by destruct s | by destruct s | by destruct s]. }
  destruct E1 as (Ec & Hz & Hok'). eapply runs_mono; [by apply (yield_switches kp s1 n q z)|]. intros [] s' Hsw.
  assert (Hw : wait s1 i = wait s i) by (unfold wait; rewrite Hz, Hd; unfold z; by destruct d).
  unfold closer. rewrite <- Hw. eapply switch_closer; [done | done | by exists z].
Qed.

(** Updating the running process but for its links, state and quantum. *)
Lemma fair_cur s q p p' : fair s q -> k_procs s !! g_current s = Some p -> p_next p' = p_next p -> quantum_remaining p' = quantum_remaining p ->
  let s' := set_procs (<[g_current s := p']> (k_procs s)) s in fair s' q /\ forall i, wait s' i = wait s i.
Proof.
  intros [Hok Hqu] Hp En Eq s'. assert (Hp' : k_procs s' !! g_current s' = Some p') by (unfold s'; destruct s; apply lookup_insert_eq).
  split; [split|].
  - by apply (sched_ok_cur s q p).
  - rewrite Hp'. intros ? [= <-]. rewrite Eq. by apply Hqu.
  - intros i. unfold wait. by rewrite Hp', Hp, Eq.
Qed.

Lemma deliver_closer {F} kp (run : Z -> Z -> F * option (Z * Z)) f s q i a : fair s q -> q !! i = Some a ->
  runs (deliver kp run f) s (fun r s' => match r with
    | Exited => closer 1 s i a s'
    | Resume _ _ => fair s' q /\ wait s' i = wait s i
    end).
Proof.
  intros Hf Ha. pose proof (so_cur _ _ (fa_ok _ _ Hf)) as (_ & _ & [d Hd]).
  unfold deliver. apply runs_bind. unfold scheduler_current, gets at 1, runs at 1. apply runs_bind. eapply pget_runs; [done|].
  destruct (ctrue (sig_pending d)); cbn [negb]; [|by apply runs_ret].
  destruct (scan_signals 31 1 _ _) as [pend act]. apply runs_bind. eapply pset_runs; [done|].
  destruct (fair_cur s q d (set_pending pend d) Hf Hd) as [Hf' Hw]; [by destruct d | by destruct d |].
  destruct act as [sig h|sig|]; [destruct (run sig h); by apply runs_ret | | by apply runs_ret].
  apply runs_bind. eapply runs_mono; [by apply (exit_closer kp _ _ q i a)|]. intros [] s' Hc. apply runs_ret. unfold closer in *. by rewrite <- Hw.
Qed.

Lemma tick_quantum_closer kp s q i a : fair s q -> q !! i = Some a -> runs (tick_quantum kp) s (fun _ s' => closer 1 s i a s').
Proof.
  intros [Hok Hqu] Ha. pose proof (so_cur _ _ Hok) as (_ & _ & [d Hd]). specialize (Hqu d Hd).
  unfold tick_quantum. apply runs_bind. unfold scheduler_current, gets at 1, runs at 1. apply runs_bind. eapply pset_runs; [done|].
  set (d1 := set_quantum _ d). set (s1 := set_procs _ s). assert (Ec : g_current s1 = g_current s) by (by destruct s).
  assert (Hd1 : k_procs s1 !! g_current s = Some d1) by (unfold s1; destruct s; apply lookup_insert_eq).
  assert (Eq : quantum_remaining d1 = Z.max 0 (quantum_remaining d - 1)).
  { unfold d1. destruct d. cbn in *. destruct (Z.ltb_spec 0 quantum_remaining0); lia. }
  assert (Hf1 : fair s1 q).
  { split; [apply (sched_ok_cur s q d); [done | done | by destruct d]|]. rewrite Ec, Hd1. intros ? [= <-]. rewrite Eq. unfold PROC_QUANTUM in *. lia. }
  assert (Hw : wait s1 i = Z.max 1 (quantum_remaining d1) + PROC_QUANTUM * Z.of_nat i) by (unfold wait; by rewrite Ec, Hd1).
  assert (Hw0 : wait s i = Z.max 1 (quantum_remaining d) + PROC_QUANTUM * Z.of_nat i) by (unfold wait; by rewrite Hd).
  apply runs_bind. eapply pget_runs; [done|]. destruct (Z.eqb_spec (quantum_remaining d1) 0).
  - eapply runs_mono; [by apply (yield_closer kp s1 q i a)|]. intros [] s' [?|(q' & i' & H1 & H2 & H3)]; [by left|]. right. exists q', i'. split_and!; try done. lia.
  - apply runs_ret. right. exists q, i. split_and!; try done. lia.
Qed.

Lemma tick_closer kp f s q i a : fair s q -> q !! i = Some a -> runs (scheduler_tick kp f) s (fun _ s' => closer 1 s i a s').
Proof.
  intros Hf Ha. pose proof (so_cur _ _ (fa_ok _ _ Hf)) as (Hc0 & _ & [d Hd]).
  unfold scheduler_tick. apply runs_bind. unfold scheduler_current, gets at 1, runs at 1. rewrite (proj2 (ctrue_spec _) Hc0). cbn [negb].
  apply runs_bind. eapply pget_runs; [done|]. apply runs_bind.
  assert (H : runs (if (Z.land (cs f) 3 =? 3) && ctrue (sig_pending d) then deliver_signals_isr kp f else ret (Resume f None)) s
    (fun r s' => match r with Exited => closer 1 s i a s' | Resume _ _ => fair s' q /\ wait s' i = wait s i end)).
  { destruct (_ && _); [by apply deliver_closer | by apply runs_ret]. }
  eapply runs_mono; [exact H|]. intros [f' st|] s'; [|by intros; apply runs_ret]. intros [Hf' Hw].
  apply runs_bind. eapply runs_mono; [by apply (tick_quantum_closer kp s' q i a)|]. intros [] s'' Hc. apply runs_ret. unfold closer in *. by rewrite <- Hw.
Qed.

(** What can happen while [a] waits: timer ticks, yields and exits of running
    processes, and new processes. *)
Inductive event := ETick (f : isr_frame) | EYield | EExit (code : Z) | ESpawn (b : Z) (p : process).

Definition do_event (kp : Z) (e : event) : MK unit :=
  match e with
  | ETick f => do* scheduler_tick kp f in ret tt
  | EYield => scheduler_yield kp
  | EExit code => sys_exit kp code
  | ESpawn b p => do* modify (fun s => set_procs (<[b := p]> (k_procs s)) s) in scheduler_register b
  end.

Definition possible (e : event) (s : kern) : Prop :=
  match e with ESpawn b p => b <> 0 /\ k_procs s !! b = None /\ p_state p = PROC_READY | _ => True end.

Definition is_tick (e : event) : Z := match e with ETick _ => 1 | _ => 0 end.
Definition ticks (es : list event) : Z := foldr (fun e n => is_tick e + n) 0 es.

Inductive trace (kp : Z) : kern -> list event -> kern -> Prop :=
| trace_nil s : trace kp s [] s
| trace_cons s e s1 es s' : possible e s -> do_event kp e s = Some (tt, s1) -> trace kp s1 es s' -> trace kp s (e :: es) s'.

Lemma spawn_closer b p s q i a : fair s q -> q !! i = Some a -> b <> 0 -> k_procs s !! b = None -> p_state p = PROC_READY ->
  runs (do* modify (fun s => set_procs (<[b := p]> (k_procs s)) s) in scheduler_register b) s (fun _ s' => closer 0 s i a s').
Proof.
  intros [Hok Hqu] Ha Hb Hfr Hst. pose proof (so_cur _ _ Hok) as (Hc0 & Hcq & [d Hd]).
  assert (Hbq : b ∉ q) by (intros Hin; destruct (chain_live _ _ _ _ b (q_chain _ _ (so_queue _ _ Hok)) Hin) as [_ [x Hx]]; congruence).
  assert (Hbc : b <> g_current s) by congruence.
  apply runs_bind. unfold modify at 1, runs at 1. unfold scheduler_register. apply runs_bind. unfold gets at 1, runs at 1.
  apply runs_bind. eapply (pset_runs b _ p); [destruct s; apply lookup_insert_eq|]. apply runs_bind. unfold modify at 1, runs at 1.
  set (p1 := set_all_next _ p). set (s1 := set_all b _).
  assert (Em : k_procs s1 = <[b := p1]> (k_procs s)) by (unfold s1; destruct s; apply insert_insert_eq).
  assert (Er : g_ready_head s1 = g_ready_head s /\ g_ready_tail s1 = g_ready_tail s /\ g_current s1 = g_current s) by (by destruct s).
  destruct Er as (Eh & Et & Ec). assert (Hq1 : queue s1 q).
  { destruct (so_queue _ _ Hok) as [Q1 Q2 Q3]. split; [|congruence | done]. rewrite Eh, Em. apply (chain_ext _ _ _ _ _ Q1).
    intros x px Hx Hpx. exists px. split; [|done]. rewrite lookup_insert_ne; [done|]. by intros <-. }
  eapply (scheduler_add_runs b p1 s1 q); [done | done | done | rewrite Em; apply lookup_insert_eq |].
  intros m' h' s' Hq' A'. assert (E' : k_procs s' = m' /\ g_current s' = g_current s) by (unfold s', s1; by destruct s). destruct E' as [Em' Ec'].
  assert (T : forall x px, x <> b -> k_procs s !! x = Some px -> exists px', m' !! x = Some px' /\ turn_of px' = turn_of px).
  { intros x px Hx Hpx. destruct (agree_lookup no_next _ _ x px A') as (px' & H1 & H2); [rewrite Em; by rewrite lookup_insert_ne|].
    exists px'. split; [done|]. by apply no_next_core. }
  destruct (T (g_current s) d (not_eq_sym Hbc) Hd) as (d' & Hd' & Td). injection Td as Td1 Td2.
  right. exists (q ++ [b]), i. split_and!.
  - split; [split|].
    + done.
    + rewrite Ec', Em'. split_and!; [done | by rewrite not_elem_of_app, list_elem_of_singleton | by exists d'].
    + intros x px Hx. rewrite Em'. apply elem_of_app in Hx as [Hx|Hx%list_elem_of_singleton]; [|subst x].
      * destruct (chain_live _ _ _ _ x (q_chain _ _ (so_queue _ _ Hok)) Hx) as [_ [y Hy]].
        destruct (T x y) as (px' & -> & Tx); [by intros -> | done |]. intros [= <-]. injection Tx as -> _. by apply (so_ready _ _ Hok x).
      * destruct (agree_lookup no_next _ _ b p1 A') as (px' & -> & H2); [rewrite Em; apply lookup_insert_eq|]. intros [= <-].
        apply no_next_core in H2 as [_ H2]. injection H2 as -> _. by destruct p.
    + rewrite Ec', Em', Hd'. intros ? [= <-]. rewrite Td2. by apply Hqu.
  - by apply lookup_app_l_Some.
  - unfold wait. rewrite Ec', Em', Hd', Hd, Td2. lia.
Qed.

Lemma event_closer kp e s q i a : fair s q -> q !! i = Some a -> possible e s -> runs (do_event kp e) s (fun _ s' => closer (is_tick e) s i a s').
Proof.
  intros Hf Ha He. assert (W : forall s', closer 1 s i a s' -> closer 0 s i a s').
  { intros s' [?|(q' & i' & ? & ? & ?)]; [by left | right; exists q', i'; split_and!; try done; lia]. }
  destruct e as [f| |code|b p]; cbn [do_event is_tick].
  - apply runs_bind. eapply runs_mono; [by apply (tick_closer kp f s q i a)|]. intros r s' Hc. by apply runs_ret.
  - eapply runs_mono; [by apply (yield_closer kp s q i a)|]. intros [] s' Hc. by apply W.
  - eapply runs_mono; [by apply (exit_closer kp code s q i a)|]. intros [] s' Hc. by apply W.
  - destruct He as (? & ? & ?). by apply (spawn_closer b p s q i a).
Qed.

(** C16: no process starves.  From any state in which [a] is the [i]-th process
    of the ready queue, whatever the running processes do (yield, exit, take
    signals, create processes), [a] has been given the CPU by the time
    [10 * (i + 1)] timer ticks have passed; and every event has a result. *)
Theorem ready_process_runs kp s q i a : fair s q -> q !! i = Some a ->
  (forall e, possible e s -> exists s', do_event kp e s = Some (tt, s')) /\
  (forall es s', trace kp s es s' -> PROC_QUANTUM * (Z.of_nat i + 1) <= ticks es ->
     exists es1 es2 s1, es = es1 ++ es2 /\ trace kp s es1 s1 /\ g_current s1 = a).
Proof.
  intros Hf Ha. split.
  { intros e He. pose proof (event_closer kp e s q i a Hf Ha He) as H. apply runs_result in H as ([] & s' & E & _). by exists s'. }
  intros es s' Ht Hn. assert (Hw : wait s i <= ticks es).
  { unfold wait. pose proof (so_cur _ _ (fa_ok _ _ Hf)) as (_ & _ & [d Hd]). pose proof (fa_quantum _ _ Hf d Hd). rewrite Hd. unfold PROC_QUANTUM in *. lia. }
  clear Hn. revert q i Hf Ha Hw. induction Ht as [s|s e s1 es s' He E Ht IH]; intros q i Hf Ha Hw.
  - unfold wait in Hw. pose proof (so_cur _ _ (fa_ok _ _ Hf)) as (_ & _ & [d Hd]). rewrite Hd in Hw. cbn in Hw. unfold PROC_QUANTUM in Hw. lia.
  - pose proof (event_closer kp e s q i a Hf Ha He) as H. unfold runs in H. rewrite E in H. destruct H as [Hcur|(q' & i' & Hf' & Ha' & Hw')].
    + exists [e], es, s1. split_and!; [done | by eapply trace_cons; [..|constructor] | done].
    + destruct (IH q' i' Hf' Ha') as (es1 & es2 & s2 & -> & Ht' & Hcur); [change (ticks (e :: es)) with (is_tick e + ticks es) in Hw; lia|].
      exists (e :: es1), es2, s2. split_and!; [done | by eapply trace_cons | done].
Qed.

(** C28: [scheduler_yield] implements a round-robin queue.  The head of the
    ready queue becomes the running process with a full quantum, the previous
    process goes to the end of the queue when it can still run, and everything
    else about every process, and the rest of the kernel's state, is unchanged;
    with nobody ready the call returns with nothing changed. *)
Theorem scheduler_yield_round_robin kp s q : sched_ok s q ->
  match q with
  | [] => scheduler_yield kp s = Some (tt, s)
  | n :: q => exists d s', k_procs s !! g_current s = Some d /\ scheduler_yield kp s = Some (tt, s') /\
                switched s n (if runnable d then q ++ [g_current s] else q) s'
  end.
Proof.
  intros Hok. destruct q as [|n q]; [by apply yield_idle|]. pose proof (so_cur _ _ Hok) as (_ & _ & [d Hd]).
  pose proof (yield_switches kp s n q d Hok Hd) as H. apply runs_result in H as ([] & s' & E & Hs). by exists d, s'.
Qed.

(** A machine with three processes: 1 runs, 2 and 3 are ready. *)
Definition proc_at (n : Z) (st : proc_state) (nxt : Z) : process :=
  mkProc n [] st 0 0 0 0 0 0 0 0 0 [] 0 0 7 1 nxt 0 [] 0 [] [] 0.
Definition three : kern :=
  mkKern (<[100 := proc_at 1 PROC_RUNNING 0]> (<[200 := proc_at 2 PROC_READY 300]> (<[300 := proc_at 3 PROC_READY 0]> ∅)))
    100 200 300 0 0 4 0 0 0 ∅ [].

Lemma three_fair : fair three [200; 300].
Proof.
  split; [split; [split|..]|].
  - cbn. split_and!; [done | done |]. eexists. split; [reflexivity|]. cbn. split_and!; [done | done |]. eexists. by split; [reflexivity|].
  - done.
  - apply (bool_decide_unpack _). by vm_compute.
  - split_and!; [done | apply (bool_decide_unpack _); by vm_compute | by eexists].
  - intros a p Ha. apply elem_of_cons in Ha as [->|Ha%list_elem_of_singleton]; [|subst a]; intros [= <-]; done.
  - intros p Hp. vm_compute in Hp. injection Hp as <-. by vm_compute.
Qed.

Definition tick0 : event := ETick (mkIsr 0 0 0 0 0 0 0 0 0 0 0 0 0 0 0 0 0 0 0 0 0 0).

Lemma ready_process_runs_witness :
  (forall e, possible e three -> exists s', do_event 0 e three = Some (tt, s')) /\
  (forall es s', trace 0 three es s' -> PROC_QUANTUM * (Z.of_nat 1 + 1) <= ticks es ->
     exists es1 es2 s1, es = es1 ++ es2 /\ trace 0 three es1 s1 /\ g_current s1 = 300).
Proof. apply (ready_process_runs 0 three [200; 300] 1 300); [exact three_fair | reflexivity]. Defined.

Lemma scheduler_yield_round_robin_witness :
  exists d s', k_procs three !! g_current three = Some d /\ scheduler_yield 0 three = Some (tt, s') /\
    switched three 200 (if runnable d then [300] ++ [g_current three] else [300]) s'.
Proof. apply (scheduler_yield_round_robin 0 three [200; 300]). exact (fa_ok _ _ three_fair). Defined.
End Sched.
