(* ===== verification/PipeEnds.v ===== *)
(** * Pipe ends are counted exactly

    Whatever sequence of descriptor and process calls runs, the reader and
    writer counts of every pipe are the numbers of open descriptors of the live
    processes, and a pipe is in use exactly while there is one. *)
From S2P Require Import Prelude Pipe Proc Fd Signal Sched.

Module PipeEnds.
Import Proc Fd Sched.
Import Pipe (pipe, pipe_end, RdEnd, WrEnd, p_readers, p_writers, p_used, pipe_open, pipe_addref, pipe_close).

(** ** Counting *)

Definition same_end (x y : pipe_end) : bool :=
  match x, y with RdEnd, RdEnd | WrEnd, WrEnd => true | _, _ => false end.

Definition matches (x : pipe_end) (i : nat) (e : fd_t) : bool :=
  match end_of (fd_kind_of e), fd_file e with
  | Some x', FPipe i' => same_end x x' && bool_decide (i = i')
  | _, _ => false
  end.

Definition ends (x : pipe_end) (i : nat) (l : list fd_t) : Z := foldr (fun e n => Z.b2z (matches x i e) + n) 0 l.

Lemma b2z_pos b : 0 <= Z.b2z b <= 1.
Proof. destruct b; cbn; lia. Qed.

Lemma ends_cons x i e l : ends x i (e :: l) = Z.b2z (matches x i e) + ends x i l.
Proof. done. Qed.

Lemma ends_nonneg x i l : 0 <= ends x i l.
Proof. induction l as [|e l IH]; [done|]. rewrite ends_cons. pose proof (b2z_pos (matches x i e)). lia. Qed.

Lemma ends_insert x i l k e e' : l !! k = Some e ->
  ends x i (<[k := e']> l) = ends x i l - Z.b2z (matches x i e) + Z.b2z (matches x i e').
Proof.
  revert k. induction l as [|e0 l IH]; intros k Hk; [done|]. destruct k as [|k]; cbn in Hk.
  - injection Hk as ->. change (<[0%nat := e']> (e :: l)) with (e' :: l). rewrite !ends_cons. lia.
  - change (<[S k := e']> (e0 :: l)) with (e0 :: <[k := e']> l). rewrite !ends_cons, (IH k Hk). lia.
Qed.

Lemma ends_ge x i l k e : l !! k = Some e -> Z.b2z (matches x i e) <= ends x i l.
Proof.
  intros Hk. pose proof (ends_insert x i l k e closed_fd Hk) as H. pose proof (ends_nonneg x i (<[k := closed_fd]> l)).
  cbn in H. lia.
Qed.

Lemma ends_ge2 x i l k k' e e' : l !! k = Some e -> l !! k' = Some e' -> k <> k' -> Z.b2z (matches x i e) + Z.b2z (matches x i e') <= ends x i l.
Proof.
  intros Hk Hk' Hne. pose proof (ends_insert x i l k e closed_fd Hk) as H. cbn in H.
  pose proof (ends_ge x i (<[k := closed_fd]> l) k' e'). rewrite list_lookup_insert_ne in * by done. specialize (H0 Hk'). lia.
Qed.

(** The ends a process holds, and all the live ones together. *)
Definition weight (x : pipe_end) (i : nat) (p : process) : Z :=
  if bool_decide (p_state p = PROC_ZOMBIE) then 0 else ends x i (fds p).
Definition refs (x : pipe_end) (i : nat) (m : gmap Z process) : Z := msum (weight x i) m.

Lemma weight_nonneg x i p : 0 <= weight x i p.
Proof. unfold weight. case_bool_decide; [done | apply ends_nonneg]. Qed.

Lemma weight_live x i p : p_state p <> PROC_ZOMBIE -> weight x i p = ends x i (fds p).
Proof. intros H. unfold weight. by rewrite bool_decide_eq_false_2. Qed.

Lemma weight_zombie x i p : p_state p = PROC_ZOMBIE -> weight x i p = 0.
Proof. intros H. unfold weight. by rewrite bool_decide_eq_true_2. Qed.

Definition cnt (x : pipe_end) (p : pipe) : Z := match x with RdEnd => p_readers p | WrEnd => p_writers p end.

(** Every pipe has the counts [c], and is in use when one is not zero. *)
Definition pipes_ok (ps : list pipe) (c : pipe_end -> nat -> Z) : Prop :=
  forall i p, ps !! i = Some p -> (forall x, cnt x p = c x i) /\ p_used p = negb ((p_readers p =? 0) && (p_writers p =? 0)).

Definition pipe_ref (f : pipe_end -> pipe -> pipe) (e : fd_t) (ps : list pipe) : list pipe :=
  match end_of (fd_kind_of e), fd_file e with
  | Some x, FPipe i => alter (f x) i ps
  | _, _ => ps
  end.

Lemma pipes_ok_ext ps c c' : pipes_ok ps c -> (forall x i, c' x i = c x i) -> pipes_ok ps c'.
Proof. intros H E i p Hp. destruct (H i p Hp) as [H1 H2]. split; [|done]. intros x. by rewrite E. Qed.

Lemma pipe_ref_ok f d e ps c : pipes_ok ps c ->
  (forall x p, p_used p = negb ((p_readers p =? 0) && (p_writers p =? 0)) -> 0 <= p_readers p -> 0 <= p_writers p -> 0 < cnt x p ->
     (forall y, cnt y (f x p) = cnt y p + d * Z.b2z (same_end y x)) /\
     p_used (f x p) = negb ((p_readers (f x p) =? 0) && (p_writers (f x p) =? 0))) ->
  (forall x i, 0 <= c x i) -> (forall x i, matches x i e = true -> 0 < c x i) ->
  pipes_ok (pipe_ref f e ps) (fun x i => c x i + d * Z.b2z (matches x i e)).
Proof.
  intros H Hf Hc Hpos. unfold pipe_ref, matches in *. destruct (end_of (fd_kind_of e)) as [x|].
  2:{ eapply pipes_ok_ext; [done|]. intros. cbn. lia. }
  destruct (fd_file e) as [|k|v]; try (eapply pipes_ok_ext; [done|]; intros; cbn; lia).
  intros i p Hp. destruct (decide (i = k)) as [->|Hne].
  - rewrite list_lookup_alter_eq in Hp. apply fmap_Some in Hp as (p0 & Hp0 & ->). destruct (H k p0 Hp0) as [H1 H2].
    specialize (Hpos x k). rewrite bool_decide_eq_true_2, andb_true_r in Hpos by done. assert (Hs : same_end x x = true) by (by destruct x). rewrite Hs in Hpos. specialize (Hpos eq_refl). rewrite <- H1 in Hpos.
    pose proof (Hc RdEnd k) as C1. pose proof (Hc WrEnd k) as C2. rewrite <- H1 in C1, C2. cbn [cnt] in C1, C2.
    destruct (Hf x p0) as [F1 F2]; [done | done | done | done |]. split; [|done]. intros y. rewrite F1, H1.
    by rewrite (bool_decide_eq_true_2 (k = k)), andb_true_r by done.
  - rewrite list_lookup_alter_ne in Hp by done. destruct (H i p Hp) as [H1 H2]. split; [|done]. intros y.
    rewrite H1, (bool_decide_eq_false_2 (i = k)), andb_false_r by done. cbn. lia.
Qed.

Lemma in_use_pos r w : 0 <= r -> 0 <= w -> 0 < r \/ 0 < w -> negb ((r =? 0) && (w =? 0)) = true.
Proof. intros. destruct (Z.eqb_spec r 0), (Z.eqb_spec w 0); lia || done. Qed.

Lemma pipe_addref_ok e ps c : pipes_ok ps c -> (forall x i, 0 <= c x i) -> (forall x i, matches x i e = true -> 0 < c x i) ->
  pipes_ok (pipe_ref pipe_addref e ps) (fun x i => c x i + Z.b2z (matches x i e)).
Proof.
  intros H Hc Hpos. eapply pipes_ok_ext; [apply (pipe_ref_ok pipe_addref 1 e ps c); try done | intros; cbv beta; lia].
  intros x p Hu Hr Hw Hx. split.
  - intros y. destruct x, y; cbn; lia.
  - destruct x; cbn in *; rewrite Hu, !in_use_pos by lia; done.
Qed.

Lemma pipe_close_ok e ps c : pipes_ok ps c -> (forall x i, 0 <= c x i) -> (forall x i, matches x i e = true -> 0 < c x i) ->
  pipes_ok (pipe_ref pipe_close e ps) (fun x i => c x i - Z.b2z (matches x i e)).
Proof.
  intros H Hc Hpos. eapply pipes_ok_ext; [apply (pipe_ref_ok pipe_close (-1) e ps c); try done | intros; cbv beta; lia].
  intros x p Hu Hr Hw Hx. unfold pipe_close. destruct x; cbn [cnt] in Hx; rewrite (proj2 (Z.ltb_lt 0 _) Hx); cbn -[Z.eqb].
  - destruct ((p_readers p - 1 =? 0) && (p_writers p =? 0)) eqn:E; (split; [intros []; cbn; lia|]); cbn -[Z.eqb]; rewrite E; [done|].
    by rewrite Hu, in_use_pos by lia.
  - destruct ((p_readers p =? 0) && (p_writers p - 1 =? 0)) eqn:E; (split; [intros []; cbn; lia|]); cbn -[Z.eqb]; rewrite E; [done|].
    by rewrite Hu, in_use_pos by lia.
Qed.

(** ** The invariant *)

Record ends_ok (s : kern) : Prop := {
  eo_pipes : pipes_ok (g_pipes s) (fun x i => refs x i (k_procs s));
  eo_len : forall a p, k_procs s !! a = Some p -> length (fds p) = 16%nat
}.

(** A running kernel: [q] is the ready queue, [l] the list of all processes. *)
Record sys_ok (s : kern) (q l : list Z) : Prop := {
  sy_sched : sched_ok s q;
  sy_alive : exists d, k_procs s !! g_current s = Some d /\ p_state d <> PROC_ZOMBIE;
  sy_all : chain all_next (k_procs s) (g_all_head s) l /\ NoDup l;
  sy_ends : ends_ok s
}.

Lemma refs_nonneg x i m : 0 <= refs x i m.
Proof. apply msum_nonneg, weight_nonneg. Qed.

Lemma refs_ge x i m a p : m !! a = Some p -> p_state p <> PROC_ZOMBIE -> ends x i (fds p) <= refs x i m.
Proof. intros Hp Hz. rewrite <- weight_live by done. by apply (msum_ge _ m a); [apply weight_nonneg|]. Qed.

Lemma on_pipe_runs f e s (Q : unit -> kern -> Prop) : Q tt (set_pipes (pipe_ref f e (g_pipes s)) s) -> runs (on_pipe f e) s Q.
Proof.
  intros HQ. unfold on_pipe, pipe_ref in *. assert (E : set_pipes (g_pipes s) s = s) by (by destruct s).
  destruct (end_of _); [|by rewrite E in HQ]. destruct (fd_file e); [by rewrite E in HQ | done | by rewrite E in HQ].
Qed.

(** The current process gets the descriptors [l'], and the pipes account for
    the difference. *)
Lemma sys_ok_fds s q l d l' ps : sys_ok s q l -> k_procs s !! g_current s = Some d -> p_state d <> PROC_ZOMBIE -> length l' = 16%nat ->
  pipes_ok ps (fun x i => refs x i (k_procs s) - ends x i (fds d) + ends x i l') ->
  sys_ok (set_pipes ps (set_procs (<[g_current s := set_fds l' d]> (k_procs s)) s)) q l.
Proof.
  intros [Hs _ [Hl1 Hl2] [He1 He2]] Hd Hz Hlen Hps. assert (F : p_next (set_fds l' d) = p_next d /\ all_next (set_fds l' d) = all_next d /\
    p_state (set_fds l' d) = p_state d /\ fds (set_fds l' d) = l') by (by destruct d). destruct F as (F1 & F2 & F3 & F4).
  pose proof (sched_ok_cur s q d (set_fds l' d) Hs Hd F1) as Hs'. set (d' := set_fds l' d) in *. clearbody d'.
  destruct s as [m cur hd tl ah fg np cr kst rsp stk pipes]. cbn [k_procs g_current set_procs set_pipes g_all_head g_pipes] in *. split.
  - eapply sched_ok_agree; [exact Hs' | done | done | done | done | done].
  - exists d'. split; [apply lookup_insert_eq | by rewrite F3].
  - split; [|done]. apply (chain_ext _ m); [done|]. intros a p _ Hp. by apply (agree_lookup all_next m _ a p); [apply (agree_insert _ _ _ d)|].
  - split; cbn [k_procs g_pipes].
    + eapply pipes_ok_ext; [exact Hps|]. intros x i. cbv beta. unfold refs. rewrite (msum_replace _ m cur d d' Hd).
      rewrite !weight_live by congruence. by rewrite F4.
    + intros a p Hp. destruct (decide (cur = a)) as [<-|]; [rewrite lookup_insert_eq in Hp; injection Hp as <-; by rewrite F4 |].
      rewrite lookup_insert_ne in Hp by done. by eapply He2.
Qed.

Lemma fd_at_lookup d fd : length (fds d) = 16%nat -> 0 <= fd < PROC_MAX_FDS -> fds d !! Z.to_nat fd = Some (fd_at fd d).
Proof.
  intros Hl Hfd. unfold fd_at, PROC_MAX_FDS in *. destruct (lookup_lt_is_Some_2 (fds d) (Z.to_nat fd)) as [e He]; [lia|].
  by rewrite nth_lookup, He.
Qed.

Lemma fd_get_lookup d fd e : length (fds d) = 16%nat -> fd_get fd d = Some e -> 0 <= fd < PROC_MAX_FDS /\ fds d !! Z.to_nat fd = Some e.
Proof.
  intros Hl H. unfold fd_get in H. destruct (Z.ltb_spec fd 0), (Z.leb_spec PROC_MAX_FDS fd); cbn in H; try done.
  destruct (is_closed (fd_at fd d)); [done|]. injection H as <-. split; [lia|]. apply fd_at_lookup; [done | lia].
Qed.

Lemma first_closed_spec l i k : first_closed l i = Some k -> exists e, i <= k /\ l !! Z.to_nat (k - i) = Some e /\ fd_kind_of e = FD_CLOSED.
Proof.
  revert i. induction l as [|e l IH]; intros i H; [done|]. cbn in H. unfold is_closed in H. case_bool_decide as Hk.
  - injection H as <-. exists e. rewrite Z.sub_diag. by split_and!.
  - apply IH in H as (e' & H1 & H2 & H3). exists e'. split_and!; [lia | | done].
    replace (Z.to_nat (k - i)) with (S (Z.to_nat (k - (i + 1)))) by lia. done.
Qed.

Lemma closed_from_spec lo d k : 0 <= lo -> closed_from lo d = Some k ->
  exists e, lo <= k /\ fds d !! Z.to_nat k = Some e /\ forall x i, matches x i e = false.
Proof.
  intros Hlo H. apply first_closed_spec in H as (e & H1 & H2 & H3). exists e. split_and!; [done | |].
  - rewrite lookup_drop in H2. by replace (Z.to_nat lo + Z.to_nat (k - lo))%nat with (Z.to_nat k) in H2 by lia.
  - intros x i. unfold matches. by rewrite H3.
Qed.

(** ** The calls keep it *)

Lemma sys_current s q l : sys_ok s q l -> exists d, k_procs s !! g_current s = Some d /\ p_state d <> PROC_ZOMBIE /\ length (fds d) = 16%nat /\
  forall x i, ends x i (fds d) <= refs x i (k_procs s).
Proof.
  intros H. destruct (sy_alive _ _ _ H) as (d & Hd & Hz). exists d. split_and!; [done | done | by eapply (eo_len _ (sy_ends _ _ _ H)) |].
  intros x i. by eapply refs_ge.
Qed.

Lemma with_current {A} s d (k : Z -> process -> MK A) Q : k_procs s !! g_current s = Some d -> runs (k (g_current s) d) s Q ->
  runs (let* cur := scheduler_current in let* p := pget cur in k cur p) s Q.
Proof. intros Hd H. apply runs_bind. unfold scheduler_current, gets, runs at 1. apply runs_bind. by eapply pget_runs. Qed.

Lemma sys_close_ok s q l fd : sys_ok s q l -> runs (sys_close fd) s (fun _ s' => sys_ok s' q l).
Proof.
  intros H. destruct (sys_current s q l H) as (d & Hd & Hz & Hl & Hg). unfold sys_close. apply (with_current s d); [done|].
  destruct (fd_get fd d) as [e|] eqn:E; [|by apply runs_ret].
  destruct (fd_get_lookup d fd e Hl E) as [Hfd He]. apply runs_bind. apply on_pipe_runs. apply runs_bind.
  eapply pset_runs; [by destruct s|]. apply runs_ret.
  pose proof (sys_ok_fds s q l d (<[Z.to_nat fd := closed_fd]> (fds d)) (pipe_ref pipe_close e (g_pipes s)) H Hd Hz) as K.
  destruct s. apply K; [by rewrite length_insert|]. eapply pipes_ok_ext; [apply pipe_close_ok|].
  - exact (eo_pipes _ (sy_ends _ _ _ H)).
  - intros x i. apply refs_nonneg.
  - intros x i Hm. specialize (Hg x i). pose proof (ends_ge x i _ _ _ He). rewrite Hm in *. cbn in *. lia.
  - intros x i. cbn [k_procs g_current fds]. rewrite (ends_insert x i _ _ e) by done. cbn. lia.
Qed.

Lemma sys_dup_ok s q l fd : sys_ok s q l -> runs (sys_dup fd) s (fun _ s' => sys_ok s' q l).
Proof.
  intros H. destruct (sys_current s q l H) as (d & Hd & Hz & Hl & Hg). unfold sys_dup. apply (with_current s d); [done|].
  destruct (fd_get fd d) as [e|] eqn:E; [|by apply runs_ret]. destruct (fd_get_lookup d fd e Hl E) as [Hfd He].
  destruct (closed_from 0 d) as [k|] eqn:Ek; [|by apply runs_ret]. destruct (closed_from_spec 0 d k ltac:(lia) Ek) as (e0 & Hk & He0 & Hm0).
  apply runs_bind. eapply pset_runs; [done|]. apply runs_bind. apply on_pipe_runs. apply runs_ret.
  pose proof (sys_ok_fds s q l d (<[Z.to_nat k := e]> (fds d)) (pipe_ref pipe_addref e (g_pipes s)) H Hd Hz) as K.
  destruct s. apply K; [by rewrite length_insert|]. eapply pipes_ok_ext; [apply pipe_addref_ok|].
  - exact (eo_pipes _ (sy_ends _ _ _ H)).
  - intros x i. apply refs_nonneg.
  - intros x i Hm. specialize (Hg x i). pose proof (ends_ge x i _ _ _ He). rewrite Hm in *. cbn in *. lia.
  - intros x i. cbn [k_procs g_current fds]. rewrite (ends_insert x i _ _ e0), Hm0 by done. cbn. lia.
Qed.

Lemma sys_dup2_ok s q l fd nfd : sys_ok s q l -> runs (sys_dup2 fd nfd) s (fun _ s' => sys_ok s' q l).
Proof.
  intros H. destruct (sys_current s q l H) as (d & Hd & Hz & Hl & Hg). unfold sys_dup2. apply (with_current s d); [done|].
  destruct (fd_get fd d) as [e|] eqn:E; [|by apply runs_ret]. destruct (fd_get_lookup d fd e Hl E) as [Hfd He].
  destruct (Z.ltb_spec nfd 0), (Z.leb_spec PROC_MAX_FDS nfd); cbn [orb]; try by apply runs_ret.
  destruct (Z.eqb_spec fd nfd) as [|Hne]; [by apply runs_ret|].
  pose proof (fd_at_lookup d nfd Hl ltac:(lia)) as He0. set (e0 := fd_at nfd d) in *. clearbody e0.
  apply runs_bind. apply on_pipe_runs. apply runs_bind. eapply pset_runs; [by destruct s|]. apply runs_bind. apply on_pipe_runs. apply runs_ret.
  pose proof (sys_ok_fds s q l d (<[Z.to_nat nfd := e]> (fds d)) (pipe_ref pipe_addref e (pipe_ref pipe_close e0 (g_pipes s))) H Hd Hz) as K.
  assert (G2 : forall x i, Z.b2z (matches x i e) + Z.b2z (matches x i e0) <= refs x i (k_procs s)).
  { intros x i. specialize (Hg x i). pose proof (ends_ge2 x i _ _ _ _ _ He He0 ltac:(lia)). lia. }
  destruct s. apply K; [by rewrite length_insert|]. eapply pipes_ok_ext; [apply pipe_addref_ok; [apply pipe_close_ok|..]|].
  - exact (eo_pipes _ (sy_ends _ _ _ H)).
  - intros x i. apply refs_nonneg.
  - intros x i Hm. specialize (G2 x i). rewrite Hm in *. pose proof (b2z_pos (matches x i e)). cbn in *. lia.
  - intros x i. cbv beta. specialize (G2 x i). pose proof (b2z_pos (matches x i e)). cbn in *. lia.
  - intros x i Hm. cbv beta. specialize (G2 x i). rewrite Hm in *. cbn in *. lia.
  - intros x i. cbn [k_procs g_current fds]. rewrite (ends_insert x i _ _ e0) by done. cbn. lia.
Qed.

Lemma first_unused_spec ps k i : first_unused ps k = Some i -> exists p, (k <= i)%nat /\ ps !! (i - k)%nat = Some p /\ p_used p = false.
Proof.
  revert k. induction ps as [|p ps IH]; intros k H; [done|]. cbn in H. destruct (p_used p) eqn:E.
  - apply IH in H as (p' & H1 & H2 & H3). exists p'. split_and!; [lia | | done]. by replace (i - k)%nat with (S (i - S k)) by lia.
  - injection H as <-. exists p. by rewrite Nat.sub_diag.
Qed.

(** A pipe that is not in use gets one reader and one writer. *)
Lemma open_ok ps c i p : pipes_ok ps c -> (forall x i, 0 <= c x i) -> ps !! i = Some p -> p_used p = false ->
  pipes_ok (alter pipe_open i ps) (fun x j => c x j + Z.b2z (bool_decide (j = i))).
Proof.
  intros H Hc Hp Hu j p' Hp'. destruct (H i p Hp) as [Hcnt Huse]. rewrite Hu in Huse.
  symmetry in Huse. apply negb_false_iff, andb_true_iff in Huse as [U1%Z.eqb_eq U2%Z.eqb_eq].
  destruct (decide (j = i)) as [->|Hne].
  - rewrite list_lookup_alter_eq, Hp in Hp'. injection Hp' as <-. split; [|done]. intros x. rewrite bool_decide_eq_true_2 by done.
    rewrite <- Hcnt. destruct x; cbn [cnt] in *; cbn; lia.
  - rewrite list_lookup_alter_ne in Hp' by done. destruct (H j p' Hp') as [H1 H2]. split; [|done]. intros x.
    rewrite bool_decide_eq_false_2 by done. cbn. rewrite H1. lia.
Qed.

Lemma sys_pipe_ok s q l : sys_ok s q l -> runs sys_pipe s (fun _ s' => sys_ok s' q l).
Proof.
  intros H. destruct (sys_current s q l H) as (d & Hd & Hz & Hl & Hg). unfold sys_pipe. apply (with_current s d); [done|].
  destruct (closed_from 0 d) as [r|] eqn:Er; [|by apply runs_ret]. destruct (closed_from_spec 0 d r ltac:(lia) Er) as (e1 & Hr & He1 & Hm1).
  destruct (closed_from (r + 1) d) as [w|] eqn:Ew; [|by apply runs_ret]. destruct (closed_from_spec (r + 1) d w ltac:(lia) Ew) as (e2 & Hw & He2 & Hm2).
  apply runs_bind. unfold gets at 1, runs at 1. destruct (first_unused (g_pipes s) 0) as [i|] eqn:Ei; [|by apply runs_ret].
  destruct (first_unused_spec _ _ _ Ei) as (p & _ & Hp & Hu). rewrite Nat.sub_0_r in Hp.
  apply runs_bind. unfold modify at 1, runs at 1. apply runs_bind. eapply pset_runs; [by destruct s|].
  apply runs_bind. eapply pset_runs; [destruct s; apply lookup_insert_eq|]. apply runs_ret.
  set (fr := mkFd FD_PIPE_R (FPipe i) 0). set (fw := mkFd FD_PIPE_W (FPipe i) 0).
  pose proof (sys_ok_fds s q l d (<[Z.to_nat w := fw]> (<[Z.to_nat r := fr]> (fds d))) (alter pipe_open i (g_pipes s)) H Hd Hz) as K.
  destruct s. cbn [g_current set_pipes set_procs k_procs] in *. rewrite insert_insert_eq. destruct d. apply K; [by rewrite !length_insert|].
  eapply pipes_ok_ext; [eapply open_ok; [exact (eo_pipes _ (sy_ends _ _ _ H)) | intros; apply refs_nonneg | exact Hp | done]|].
  intros x j. cbn [k_procs g_current fds] in *. rewrite (ends_insert x j _ _ e2) by (rewrite list_lookup_insert_ne by lia; done).
  rewrite (ends_insert x j _ _ e1), Hm1, Hm2 by done. unfold matches. cbn -[bool_decide Z.add Z.sub]. case_bool_decide; destruct x; cbn; lia.
Qed.

(** ** Switches and exits *)

(** What the counts depend on. *)
Definition held (p : process) : list fd_t * bool := (fds p, bool_decide (p_state p = PROC_ZOMBIE)).

Lemma ends_ok_agree s s' : ends_ok s -> g_pipes s' = g_pipes s -> agree held (k_procs s) (k_procs s') -> ends_ok s'.
Proof.
  intros [H1 H2] Ep Ha. split.
  - rewrite Ep. eapply pipes_ok_ext; [exact H1|]. intros x i. apply msum_fmap. intros a. specialize (Ha a).
    destruct (k_procs s' !! a) as [p'|], (k_procs s !! a) as [p|]; try done. cbn in *. apply Some_inj in Ha. injection Ha as E1 E2.
    f_equal. unfold weight. by rewrite E1, E2.
  - intros a p' Hp'. specialize (Ha a). rewrite Hp' in Ha. symmetry in Ha. apply fmap_Some in Ha as (p & Hp & E). injection E as -> _. by eapply H2.
Qed.

Lemma switched_held s n q q' s' : sched_ok s (n :: q) -> switched s n q' s' -> agree held (k_procs s) (k_procs s').
Proof.
  intros Hok Hsw a. pose proof (sw_core _ _ _ _ Hsw a) as Hc. destruct (k_procs s !! a) as [p|] eqn:Hp.
  2:{ destruct (k_procs s' !! a); done. }
  symmetry in Hc. cbn in Hc. symmetry in Hc. apply fmap_Some in Hc as (p' & Hp' & E). rewrite Hp'. cbn. f_equal. unfold held.
  destruct (core_fields p p' (eq_sym E)) as (-> & _). f_equal. assert (S : p_state p' = PROC_ZOMBIE <-> p_state p = PROC_ZOMBIE); [|by apply bool_decide_ext].
  destruct (decide (a = n)) as [->|Hn]; [|destruct (decide (a = g_current s)) as [->|Hcur]].
  - destruct (sw_next _ _ _ _ Hsw) as (pn & Hpn & T). injection T as T _. assert (p' = pn) as -> by congruence.
    rewrite T, (so_ready _ _ Hok n p) by (done || by left). done.
  - destruct (sw_prev _ _ _ _ Hsw p Hp) as (d' & Hd' & St). assert (p' = d') as -> by congruence. rewrite St. unfold runnable.
    destruct (p_state p); by cbn.
  - destruct (sw_others _ _ _ _ Hsw a p Hn Hcur Hp) as (p1 & Hp1 & T). injection T as T _. assert (p' = p1) as -> by congruence. by rewrite T.
Qed.

Lemma switched_sys s n q q' s' l : sched_ok s (n :: q) -> switched s n q' s' -> chain all_next (k_procs s) (g_all_head s) l -> NoDup l -> ends_ok s ->
  sys_ok s' q' l.
Proof.
  intros Hok Hsw Hl1 Hl2 He. destruct (sw_rest _ _ _ _ Hsw) as (R1 & _ & _ & R4). split.
  - exact (sw_ok _ _ _ _ Hsw).
  - destruct (sw_next _ _ _ _ Hsw) as (p & Hp & T). injection T as T _. exists p. rewrite (sw_cur _ _ _ _ Hsw), T. done.
  - split; [|done]. rewrite R1. apply (chain_ext _ (k_procs s)); [done|]. intros a p _ Hp.
    destruct (agree_lookup core _ _ a p (sw_core _ _ _ _ Hsw) Hp) as (p' & Hp' & E). exists p'. split; [done|]. by apply core_fields in E as (_ & _ & _ & _ & ? & _).
  - eapply ends_ok_agree; [done | done |]. by eapply switched_held.
Qed.

Lemma yield_ok kp s q l : sys_ok s q l -> runs (scheduler_yield kp) s (fun _ s' => exists q', sys_ok s' q' l).
Proof.
  intros H. destruct (sy_alive _ _ _ H) as (d & Hd & _). destruct (sy_all _ _ _ H) as [L1 L2]. destruct q as [|n q].
  - unfold runs. rewrite (yield_idle kp s (sy_sched _ _ _ H)). by exists [].
  - eapply runs_mono; [by apply (yield_switches kp s n q d (sy_sched _ _ _ H))|]. intros [] s' Hsw. eexists.
    eapply switched_sys; [exact (sy_sched _ _ _ H) | exact Hsw | done | done | exact (sy_ends _ _ _ H)].
Qed.

Lemma release_fds_runs l s c (Q : unit -> kern -> Prop) : pipes_ok (g_pipes s) c -> (forall x i, ends x i l <= c x i) ->
  (forall ps, pipes_ok ps (fun x i => c x i - ends x i l) -> Q tt (set_pipes ps s)) -> runs (release_fds l) s Q.
Proof.
  revert s c. induction l as [|e l IH]; intros s c Hp Hc HQ; cbn [release_fds].
  - apply runs_ret. replace s with (set_pipes (g_pipes s) s) by (by destruct s). apply HQ. eapply pipes_ok_ext; [done|]. intros. cbn. lia.
  - apply runs_bind. apply on_pipe_runs. apply (IH _ (fun x i => c x i - Z.b2z (matches x i e))).
    + destruct s. cbn [g_pipes set_pipes] in *. apply pipe_close_ok; [done | |].
      * intros x i. specialize (Hc x i). pose proof (ends_nonneg x i (e :: l)). lia.
      * intros x i Hm. specialize (Hc x i). rewrite ends_cons, Hm in Hc. pose proof (ends_nonneg x i l). cbn in Hc. lia.
    + intros x i. specialize (Hc x i). rewrite ends_cons in Hc. lia.
    + intros ps Hps. destruct s. cbn [g_pipes set_pipes] in *. apply HQ. eapply pipes_ok_ext; [exact Hps|]. intros x i. cbv beta. rewrite ends_cons. lia.
Qed.

(** The kernel after an exit: another process runs, or nobody is left. *)
Definition halted (s : kern) : Prop :=
  ends_ok s /\ exists d, k_procs s !! g_current s = Some d /\ p_state d = PROC_ZOMBIE.

Lemma sys_exit_ok kp code s q l : sys_ok s q l -> runs (sys_exit kp code) s (fun _ s' => (exists q', sys_ok s' q' l) \/ halted s').
Proof.
  intros H. destruct (sys_current s q l H) as (d & Hd & Hz & Hl & Hg). destruct (sy_all _ _ _ H) as [L1 L2]. destruct (sy_ends _ _ _ H) as [E1 E2].
  unfold sys_exit, current. apply runs_bind. apply runs_bind. unfold gets at 1, runs at 1. eapply pget_runs; [done|].
  apply runs_bind. eapply release_fds_runs; [exact E1 | exact Hg |]. intros ps Hps. unfold scheduler_exit.
  apply runs_bind. unfold gets at 1, runs at 1. apply runs_bind. eapply pset_runs; [by destruct s|].
  set (z := set_state PROC_ZOMBIE (set_exit code d)). assert (Z : p_next z = p_next d /\ all_next z = all_next d /\ p_state z = PROC_ZOMBIE /\ fds z = fds d) by (by destruct d).
  destruct Z as (Z1 & Z2 & Z3 & Z4). clearbody z. set (s1 := set_procs _ _).
  pose proof (sched_ok_cur s q d z (sy_sched _ _ _ H) Hd Z1) as Hs1.
  assert (F : k_procs s1 = <[g_current s := z]> (k_procs s) /\ g_current s1 = g_current s /\ g_pipes s1 = ps /\ g_all_head s1 = g_all_head s /\ sched_ok s1 q).
  { unfold s1. destruct s. split_and!; try done. eapply sched_ok_agree; [exact Hs1 | done | done | done | done | done]. }
  destruct F as (F1 & F2 & F3 & F4 & F5). clearbody s1. assert (He : ends_ok s1).
  { split; rewrite ?F1, ?F3.
    - eapply pipes_ok_ext; [exact Hps|]. intros x i. cbv beta. unfold refs. rewrite (msum_replace _ _ _ d z Hd), (weight_live x i d), (weight_zombie x i z) by done. lia.
    - intros a p Hp. destruct (decide (g_current s = a)) as [<-|]; [rewrite lookup_insert_eq in Hp; injection Hp as <-; by rewrite Z4|].
      rewrite lookup_insert_ne in Hp by done. by eapply E2. }
  assert (Hz1 : k_procs s1 !! g_current s1 = Some z) by (rewrite F1, F2; apply lookup_insert_eq).
  destruct q as [|n q].
  - unfold runs. rewrite (yield_idle kp s1 F5). right. split; [done|]. by exists z.
  - eapply runs_mono; [by apply (yield_switches kp s1 n q z F5)|]. intros [] s' Hsw. left. eexists.
    eapply switched_sys; [exact F5 | exact Hsw | | done | done]. rewrite F1, F4. apply (chain_ext _ (k_procs s)); [done|].
    intros a p _ Hp. by apply (agree_lookup all_next (k_procs s) _ a p); [apply (agree_insert _ _ _ d)|].
Qed.

(** ** Fork *)

(** Changing a process that is neither running nor linked, in a map that may
    have gained it. *)
Lemma sys_ok_child s q l a c' m ps : sys_ok s q l -> a <> g_current s -> a ∉ q -> a ∉ l ->
  (forall b, b <> a -> m !! b = k_procs s !! b) -> m !! a = Some c' -> length (fds c') = 16%nat ->
  pipes_ok ps (fun x i => refs x i m) -> sys_ok (set_pipes ps (set_procs m s)) q l.
Proof.
  intros [Hs (d & Hd & Hz) [L1 L2] [E1 E2]] Hac Haq Hal Hm Ha Hlen Hps.
  assert (X : forall nxt ql h, a ∉ ql -> chain nxt (k_procs s) h ql -> chain nxt m h ql).
  { intros nxt ql h Hin Hc. apply (chain_ext _ _ _ _ _ Hc). intros b p Hb Hp. exists p. split; [|done]. rewrite Hm; [done|]. by intros ->. }
  destruct Hs as [[Q1 Q2 Q3] (C1 & C2 & C3) R]. destruct s. cbn [k_procs g_current set_pipes set_procs g_pipes g_all_head g_ready_head g_ready_tail] in *.
  split; [split; [split|..]|..]; cbn [k_procs g_current set_pipes set_procs g_pipes g_all_head g_ready_head g_ready_tail].
  - by apply X.
  - done.
  - done.
  - split_and!; [done | done |]. by rewrite Hm.
  - intros b p Hb. rewrite Hm by (by intros ->). by apply R.
  - exists d. by rewrite Hm.
  - split; [by apply X | done].
  - split; cbn [k_procs g_pipes]; [done|]. intros b p Hp. destruct (decide (b = a)) as [->|Hne]; [congruence|]. rewrite Hm in Hp by done. by eapply E2.
Qed.

(** Giving the child its [i]-th descriptor and counting it. *)
Lemma inherit_fds_ok s q l a c es i : sys_ok s q l -> a <> g_current s -> a ∉ q -> a ∉ l -> k_procs s !! a = Some c -> p_state c <> PROC_ZOMBIE ->
  0 <= i -> i + Z.of_nat (length es) = 16 -> (forall k e, (Z.to_nat i <= k)%nat -> fds c !! k = Some e -> forall x j, matches x j e = false) ->
  (forall e, e ∈ es -> forall x j, matches x j e = true -> 0 < refs x j (k_procs s)) ->
  runs (inherit_fds es i a) s (fun _ s' => sys_ok s' q l /\ g_current s' = g_current s /\ exists fs, length fs = 16%nat /\
    k_procs s' = <[a := set_fds fs c]> (k_procs s)).
Proof.
  revert s c i. induction es as [|e es IH]; intros s c i H Hac Haq Hal Hc Hz Hi Hlen Hcl Hpos; cbn [inherit_fds].
  - apply runs_ret. split_and!; [done | done |]. exists (fds c). split; [by eapply (eo_len _ (sy_ends _ _ _ H))|].
    replace (set_fds (fds c) c) with c by (by destruct c). by rewrite insert_id.
  - pose proof (eo_len _ (sy_ends _ _ _ H) a c Hc) as Hlc. cbn [length] in Hlen.
    destruct (lookup_lt_is_Some_2 (fds c) (Z.to_nat i)) as [e0 He0]; [lia|].
    apply runs_bind. eapply pset_runs; [done|]. apply runs_bind. apply on_pipe_runs.
    set (c1 := fd_put i e c). assert (C1 : fds c1 = <[Z.to_nat i := e]> (fds c) /\ p_state c1 = p_state c) by (by destruct c). destruct C1 as [C1 C2].
    assert (R : forall x j, refs x j (<[a := c1]> (k_procs s)) = refs x j (k_procs s) + Z.b2z (matches x j e)).
    { intros x j. unfold refs. rewrite (msum_replace _ _ _ c c1 Hc), !weight_live by congruence.
      rewrite C1, (ends_insert x j _ _ e0 e He0), (Hcl (Z.to_nat i) e0) by done. cbn. lia. }
    pose proof (sys_ok_child s q l a c1 (<[a := c1]> (k_procs s)) (pipe_ref pipe_addref e (g_pipes s)) H Hac Haq Hal) as K.
    assert (H1 : sys_ok (set_pipes (pipe_ref pipe_addref e (g_pipes s)) (set_procs (<[a := c1]> (k_procs s)) s)) q l).
    { apply K; [intros; by rewrite lookup_insert_ne | apply lookup_insert_eq | by rewrite C1, length_insert |].
      eapply pipes_ok_ext; [apply pipe_addref_ok; [exact (eo_pipes _ (sy_ends _ _ _ H)) | intros; apply refs_nonneg |] |].
      - intros x j Hm. apply (Hpos e); [by left | done].
      - intros x j. by rewrite R. }
    clear K. assert (Hc1 : <[a := c1]> (k_procs s) !! a = Some c1) by apply lookup_insert_eq.
    replace (g_pipes (set_procs (<[a := c1]> (k_procs s)) s)) with (g_pipes s) by (by destruct s).
    set (s1 := set_pipes _ _) in *. assert (S1 : k_procs s1 = <[a := c1]> (k_procs s) /\ g_current s1 = g_current s) by (unfold s1; by destruct s).
    destruct S1 as [S1 S2]. clearbody s1. eapply runs_mono; [apply (IH s1 c1 (i + 1)); try done; try lia; try congruence|].
    + intros k e' Hk. rewrite C1. destruct (decide (Z.to_nat i = k)); [lia|]. rewrite list_lookup_insert_ne by done. apply Hcl. lia.
    + intros e' He' x j Hm. rewrite S1, R. pose proof (Hpos e' ltac:(by right) x j Hm). pose proof (b2z_pos (matches x j e)). lia.
    + intros [] s' (H' & Hc' & fs & Hf & Hp'). split_and!; [done | congruence |]. exists fs. split; [done|].
      rewrite Hp', S1, insert_insert_eq. f_equal. unfold c1. by destruct c.
Qed.

Lemma no_next_fields p p' : no_next p' = no_next p -> held p' = held p /\ all_next p' = all_next p /\ p_state p' = p_state p.
Proof.
  intros E. destruct (no_next_core p p' E) as [E1 E2]. destruct (core_fields p p' E1) as (F1 & _ & _ & _ & F5 & _). injection E2 as E2 _.
  unfold held. by rewrite F1, F5, E2.
Qed.

Lemma agree_weaken {A B} (f : process -> A) (g : process -> B) m m' : (forall p p', f p' = f p -> g p' = g p) -> agree f m m' -> agree g m m'.
Proof.
  intros H Ha a. specialize (Ha a). destruct (m !! a) as [p|], (m' !! a) as [p'|]; try done. cbn in *. apply Some_inj in Ha. by rewrite (H p p').
Qed.

Lemma register_ok s q l a c : sys_ok s q l -> a <> 0 -> a <> g_current s -> a ∉ q -> a ∉ l -> k_procs s !! a = Some c -> p_state c = PROC_READY ->
  runs (scheduler_register a) s (fun _ s' => sys_ok s' (q ++ [a]) (a :: l) /\ k_stack s' = k_stack s /\ exists c', k_procs s' !! a = Some c' /\ no_next c' = no_next (set_all_next (g_all_head s) c)).
Proof.
  intros [Hs (d & Hd & Hz) [L1 L2] He] Ha0 Hac Haq Hal Hc Hst. unfold scheduler_register. apply runs_bind. unfold gets at 1, runs at 1.
  apply runs_bind. eapply pset_runs; [done|]. apply runs_bind. unfold modify at 1, runs at 1.
  set (c1 := set_all_next (g_all_head s) c). assert (C1 : held c1 = held c /\ p_state c1 = p_state c /\ p_next c1 = p_next c /\ all_next c1 = g_all_head s) by (by destruct c).
  destruct C1 as (C1 & C2 & C3 & C4). set (s1 := set_all a _).
  assert (S1 : k_procs s1 = <[a := c1]> (k_procs s) /\ g_current s1 = g_current s /\ g_pipes s1 = g_pipes s /\ g_ready_head s1 = g_ready_head s /\
    g_ready_tail s1 = g_ready_tail s /\ g_all_head s1 = a /\ k_stack s1 = k_stack s) by (unfold s1; by destruct s). destruct S1 as (S1 & S2 & S3 & S4 & S5 & S6 & S7). clearbody c1 s1.
  assert (Hq1 : queue s1 q) by (apply (queue_agree s); [exact (so_queue _ _ Hs) | done | done | rewrite S1; by apply (agree_insert _ _ _ c)]).
  eapply (scheduler_add_runs a c1 s1 q); [done | done | done | rewrite S1; apply lookup_insert_eq |]. intros m' h' s' Hq' A'.
  assert (S' : k_procs s' = m' /\ g_current s' = g_current s /\ g_pipes s' = g_pipes s /\ g_all_head s' = a /\ k_stack s' = k_stack s) by (unfold s'; destruct s1; cbn in *; done).
  destruct S' as (T1 & T2 & T3 & T4 & T5). clearbody s' h'. subst m'. rewrite S1 in A'.
  assert (Lk : forall b p, b <> a -> k_procs s !! b = Some p -> exists p', k_procs s' !! b = Some p' /\ held p' = held p /\ all_next p' = all_next p /\ p_state p' = p_state p).
  { intros b p Hb Hp. destruct (agree_lookup no_next _ _ b p A') as (p' & Hp' & E); [by rewrite lookup_insert_ne|]. exists p'. split; [done|]. by apply no_next_fields. }
  destruct (agree_lookup no_next _ _ a c1 A' (lookup_insert_eq _ _ _)) as (c' & Hc' & Ec'). pose proof (no_next_fields _ _ Ec') as (N1 & N2 & N3).
  split; [|split; [done | by exists c']]. split.
  - split; [done | |].
    + rewrite T2. split_and!; [apply (so_cur _ _ Hs) | rewrite not_elem_of_app, list_elem_of_singleton; split; [apply (so_cur _ _ Hs) | done] |].
      destruct (Lk _ d (not_eq_sym Hac) Hd) as (d' & -> & _). by exists d'.
    + intros b p Hb Hp. apply elem_of_app in Hb as [Hb|Hb%list_elem_of_singleton]; [|subst b; congruence].
      destruct (chain_live _ _ _ _ b (q_chain _ _ (so_queue _ _ Hs)) Hb) as [_ [y Hy]].
      destruct (Lk b y) as (y' & Hy' & _ & _ & E); [by intros -> | done |]. assert (p = y') as -> by congruence. rewrite E. by apply (so_ready _ _ Hs b).
  - destruct (Lk _ d (not_eq_sym Hac) Hd) as (d' & Hd' & _ & _ & E). exists d'. rewrite T2, E. done.
  - split; [|by apply NoDup_cons]. rewrite T4. cbn. split_and!; [done | done |]. exists c'. split; [done|]. rewrite N2, C4.
    apply (chain_ext _ (k_procs s)); [done|]. intros b p Hb Hp. destruct (Lk b p) as (p' & ? & _ & ? & _); [by intros -> | done | by exists p'].
  - eapply ends_ok_agree; [exact He | done |]. apply (agree_trans held _ (<[a := c1]> (k_procs s))); [by apply (agree_insert _ _ _ c)|].
    eapply agree_weaken; [|exact A']. intros p p' E. by apply no_next_fields.
Qed.

(** What the allocator promises for process descriptors. *)
Class ProcHeap (new_proc : gmap Z process -> option (Z * process)) :=
  new_proc_fresh m a p : new_proc m = Some (a, p) -> a <> 0 /\ m !! a = None.

Section Fork.
Context (new_proc : gmap Z process -> option (Z * process)) (new_stack : gmap Z process -> option Z) `{!ProcHeap new_proc}.

Lemma sys_ok_keep s q l a c c' : sys_ok s q l -> a <> g_current s -> a ∉ q -> a ∉ l -> k_procs s !! a = Some c -> held c' = held c ->
  sys_ok (set_procs (<[a := c']> (k_procs s)) s) q l.
Proof.
  intros H Hac Haq Hal Hc E. pose proof (sys_ok_child s q l a c' (<[a := c']> (k_procs s)) (g_pipes s) H Hac Haq Hal) as K.
  replace (set_pipes (g_pipes s) (set_procs (<[a := c']> (k_procs s)) s)) with (set_procs (<[a := c']> (k_procs s)) s) in K by (by destruct s).
  injection E as E1 E2. apply K; [intros; by rewrite lookup_insert_ne | apply lookup_insert_eq | rewrite E1; by eapply (eo_len _ (sy_ends _ _ _ H)) |].
  eapply pipes_ok_ext; [exact (eo_pipes _ (sy_ends _ _ _ H))|]. intros x i. cbv beta. unfold refs. rewrite (msum_replace _ _ _ c c' Hc).
  unfold weight at 2 3. rewrite E1, E2. lia.
Qed.

Lemma proc_alloc_ok s q l name : sys_ok s q l -> runs (proc_alloc new_proc new_stack name) s (fun r s' => sys_ok s' q l /\ g_current s' = g_current s /\
  (r = 0 \/ (exists c, k_procs s' !! r = Some c /\ r <> 0 /\ k_procs s' = <[r := c]> (k_procs s) /\ r <> g_current s /\ (r ∉ q) /\ (r ∉ l) /\
    p_state c = PROC_READY /\ fds c = std_fds))).
Proof.
  intros H. unfold runs, proc_alloc. destruct (new_proc (k_procs s)) as [[a old]|] eqn:En; [|by split_and!; [..|left]].
  destruct (new_stack (k_procs s)) as [stack|]; [|by split_and!; [..|left]]. destruct (new_proc_fresh _ _ _ En) as [Ha0 Ha].
  set (c := init_proc _ _ _ _). assert (C : p_state c = PROC_READY /\ fds c = std_fds) by done. destruct C as [C1 C2]. clearbody c.
  assert (Hac : a <> g_current s) by (intros ->; destruct (sy_alive _ _ _ H) as (d & Hd & _); congruence).
  assert (Haq : a ∉ q) by (intros Hin; destruct (chain_live _ _ _ _ a (q_chain _ _ (so_queue _ _ (sy_sched _ _ _ H))) Hin) as [_ [x Hx]]; congruence).
  assert (Hal : a ∉ l) by (intros Hin; destruct (chain_live _ _ _ _ a (proj1 (sy_all _ _ _ H)) Hin) as [_ [x Hx]]; congruence).
  pose proof (sys_ok_child s q l a c (<[a := c]> (k_procs s)) (g_pipes s) H Hac Haq Hal) as K.
  assert (H1 : sys_ok (set_pipes (g_pipes s) (set_procs (<[a := c]> (k_procs s)) s)) q l).
  { apply K; [intros; by rewrite lookup_insert_ne | apply lookup_insert_eq | by rewrite C2 |].
    eapply pipes_ok_ext; [exact (eo_pipes _ (sy_ends _ _ _ H))|]. intros x i. cbv beta. unfold refs. rewrite msum_insert by done.
    rewrite (weight_live x i c) by congruence. by rewrite C2. }
  destruct s. split_and!; [|done |].
  - cbn [set_next_pid set_procs set_pipes g_pipes k_procs] in *. destruct H1 as [[Q1 Q2 Q3] Y2 Y3 [Y4 Y5]]. split; [split; [destruct Q1; by split | done | done] | done | done | by split].
  - right. exists c. split_and!; try done. apply lookup_insert_eq.
Qed.

Lemma sys_ok_regs s s' q l : sys_ok s q l -> k_procs s' = k_procs s -> g_current s' = g_current s -> g_ready_head s' = g_ready_head s ->
  g_ready_tail s' = g_ready_tail s -> g_all_head s' = g_all_head s -> g_pipes s' = g_pipes s -> sys_ok s' q l.
Proof.
  intros [[[Q1 Q2 Q3] C R] A L [E1 E2]] F1 F2 F3 F4 F5 F6.
  split; [split; [split|..]|..]; rewrite ?F1, ?F2, ?F3, ?F4, ?F5; try done. split; rewrite ?F1, ?F6; done.
Qed.

(** A child in the queue [q], resumed at [tr] with the frame [f] above and 0 as its result. *)
Definition child_ready (tr : Z) (f : syscall_frame) (q : list Z) (s : kern) : Prop := exists a p m, a ∈ q /\ k_procs s !! a = Some p /\
  (kctx_rsp p, k_stack s) = push_words [tr; 0; 0; 0; 0; 0; 0] (kstack_top p - FRAME_SIZE)
    (store_words (frame_words (set_rax 0 f)) (kstack_top p - FRAME_SIZE) m).

Lemma fork_child_ok tr f as_ s q l : sys_ok s q l ->
  runs (fork_child new_proc new_stack tr f as_) s (fun r s' => exists q' l', sys_ok s' q' l' /\ (r = -1 \/ child_ready tr f q' s')).
Proof.
  intros H. destruct (sys_current s q l H) as (d & Hd & Hz & Hl & Hg). unfold fork_child. apply (with_current s d); [done|].
  apply runs_bind. eapply runs_mono; [by apply (proc_alloc_ok s q l)|]. intros a s1 (H1 & Ec & [->|(c & Hc & Ha0 & Ep & Hac & Haq & Hal & Hst & Hfd)]).
  { apply runs_ret. exists q, l. split; [done | by left]. }
  rewrite (proj2 (Z.eqb_neq a 0) Ha0). rewrite <- Ec in Hac. apply runs_bind. eapply pset_runs; [done|]. set (c2 := set_layout _ _ _).
  assert (C2 : held c2 = held c /\ fds c2 = std_fds /\ p_state c2 = PROC_READY) by (unfold c2; by destruct c). destruct C2 as (C21 & C22 & C23). clearbody c2.
  pose proof (sys_ok_keep s1 q l a c c2 H1 Hac Haq Hal Hc C21) as H2. set (s2 := set_procs _ s1) in *.
  assert (S2 : k_procs s2 !! a = Some c2 /\ g_current s2 = g_current s1 /\ k_procs s2 = <[a := c2]> (k_procs s)).
  { unfold s2. destruct s1. cbn in *. split_and!; [apply lookup_insert_eq | done | by rewrite Ep, insert_insert_eq]. }
  destruct S2 as (S21 & S22 & S23). clearbody s2. rewrite <- S22 in Hac.
  apply runs_bind. eapply runs_mono; [apply (inherit_fds_ok s2 q l a c2 (fds d) 0); try done|].
  { congruence. }
  { rewrite Hl. done. }
  { intros k e _ Hk x j. rewrite C22 in Hk. apply list_elem_of_lookup_2 in Hk. unfold std_fds in Hk. cbn in Hk.
    repeat (apply elem_of_cons in Hk as [->|Hk]; [done|]). by apply not_elem_of_nil in Hk. }
  { intros e He x j Hm. apply list_elem_of_lookup_1 in He as [k Hk]. pose proof (ends_ge x j _ _ _ Hk) as G. rewrite Hm in G.
    assert (Hd2 : k_procs s2 !! g_current s = Some d) by (rewrite S23, lookup_insert_ne; [done | congruence]).
    pose proof (refs_ge x j _ _ _ Hd2 Hz). cbn in G. lia. }
  intros [] s3 (H3 & Ec3 & fs & Hfs & Ep3). rewrite <- Ec3 in Hac.
  assert (Hc3 : k_procs s3 !! a = Some (set_fds fs c2)) by (rewrite Ep3; apply lookup_insert_eq).
  apply runs_bind. eapply pset_runs; [done|]. set (c4 := set_handlers _ _). assert (C4 : held c4 = held (set_fds fs c2) /\ p_state c4 = PROC_READY) by (unfold c4; by destruct c2).
  destruct C4 as [C41 C42]. clearbody c4. pose proof (sys_ok_keep s3 q l a _ c4 H3 Hac Haq Hal Hc3 C41) as H4. set (s4 := set_procs _ s3) in *.
  assert (S4 : k_procs s4 !! a = Some c4 /\ g_current s4 = g_current s3) by (unfold s4; destruct s3; split; [apply lookup_insert_eq | done]).
  destruct S4 as [S41 S42]. clearbody s4. rewrite <- S42 in Hac. apply runs_bind. eapply pget_runs; [done|]. cbv zeta. apply runs_bind. unfold gets at 1, runs at 1.
  destruct (push_words _ _ _) as [sp mem'] eqn:Epw. apply runs_bind. unfold modify at 1, runs at 1. apply runs_bind. eapply (pset_runs a _ c4); [by destruct s4|].
  set (s5 := set_procs _ _). assert (H5 : sys_ok s5 q l /\ k_procs s5 !! a = Some (set_kctx sp c4) /\ g_current s5 = g_current s4 /\ k_stack s5 = mem').
  { pose proof (sys_ok_keep s4 q l a c4 (set_kctx sp c4) H4 Hac Haq Hal S41 ltac:(by destruct c4)) as K. unfold s5. destruct s4. cbn in *.
    split_and!; [eapply sys_ok_regs; [exact K | done..] | apply lookup_insert_eq | done | done]. }
  destruct H5 as (H5 & S51 & S52 & S53). clearbody s5. rewrite <- S52 in Hac.
  apply runs_bind. eapply runs_mono; [apply (register_ok s5 q l a (set_kctx sp c4)); try done; by destruct c4|].
  intros [] s6 (H6 & E6 & c6 & Hc6 & N6). apply runs_bind. eapply pget_runs; [done|]. apply runs_ret. eexists _, _. split; [done|]. right.
  assert (F6 : kctx_rsp c6 = sp /\ kstack_top c6 = kstack_top c4) by (destruct c6, c4; cbn in N6 |- *; by injection N6).
  destruct F6 as [F61 F62]. eexists a, c6, (k_stack s4). split; [rewrite elem_of_app; right; by left|]. split; [done|]. rewrite F61, F62, E6, S53. by rewrite Epw.
Qed.
End Fork.

(** ** Reaping *)

Lemma chain_size nxt m h l : chain nxt m h l -> NoDup l -> (length l <= size m)%nat.
Proof.
  intros Hc Hnd. rewrite <- size_dom, <- (size_list_to_set (C := gset Z) l Hnd). apply subseteq_size. intros a Ha%elem_of_list_to_set.
  apply elem_of_dom. by eapply chain_live.
Qed.

Lemma find_all_runs fuel ok h l s (Q : Z -> kern -> Prop) : chain all_next (k_procs s) h l -> (length l < fuel)%nat ->
  Q 0 s -> (forall a p, a ∈ l -> k_procs s !! a = Some p -> ok p = true -> Q a s) -> runs (find_all fuel ok h) s Q.
Proof.
  revert h l. induction fuel as [|fuel IH]; intros h l Hc Hf H0 H1; [lia|]. cbn [find_all]. destruct l as [|a l].
  - cbn in Hc. subst h. by apply runs_ret.
  - destruct Hc as (-> & Ha & p & Hp & Hc). rewrite (proj2 (ctrue_spec a) Ha). cbn [negb]. apply runs_bind. eapply pget_runs; [done|].
    destruct (ok p) eqn:E; [apply runs_ret; by eapply H1; [left|..]|]. apply (IH _ l); [done | cbn in Hf; lia | done |].
    intros b pb Hb. apply H1. by right.
Qed.

(** The link that holds [z] in a list: the head, or the predecessor. *)
Definition relink (b nz : Z) (s : kern) : option kern :=
  if b =? 0 then Some (set_all nz s)
  else match k_procs s !! b with Some p => Some (set_procs (<[b := set_all_next nz p]> (k_procs s)) s) | None => None end.

Lemma unlink_all_runs fuel pp z l1 l2 s dz (Q : unit -> kern -> Prop) :
  (exists h, (if pp =? 0 then h = g_all_head s else exists p, k_procs s !! pp = Some p /\ h = all_next p) /\
     chain all_next (k_procs s) h (l1 ++ z :: l2)) -> z ∉ l1 -> (length l1 < fuel)%nat -> k_procs s !! z = Some dz ->
  (forall s', relink (default pp (last l1)) (all_next dz) s = Some s' -> Q tt s') -> runs (unlink_all fuel pp z) s Q.
Proof.
  revert pp l1. induction fuel as [|fuel IH]; intros pp l1 (h & Hpp & Hc) Hz Hf Hdz HQ; [lia|]. cbn [unlink_all]. apply runs_bind.
  assert (Hh : runs (if pp =? 0 then gets g_all_head else let* d := pget pp in ret (all_next d)) s (fun r s' => r = h /\ s' = s)).
  { destruct (pp =? 0); [by subst h|]. destruct Hpp as (p & Hp & ->). apply runs_bind. by eapply pget_runs. }
  eapply runs_mono; [exact Hh|]. intros r s' [-> ->]. destruct l1 as [|a l1].
  - destruct Hc as (-> & Hz0 & _). rewrite (proj2 (ctrue_spec z) Hz0), Z.eqb_refl. cbn [negb]. apply runs_bind. eapply pget_runs; [done|].
    cbn in HQ. unfold relink in HQ. destruct (Z.eqb_spec pp 0); [by apply HQ|]. destruct Hpp as (p & Hp & _). rewrite Hp in HQ. eapply pset_runs; [done|]. by apply HQ.
  - destruct Hc as (-> & Ha0 & pa & Hpa & Hc). apply not_elem_of_cons in Hz as [Hza Hz]. rewrite (proj2 (ctrue_spec a) Ha0), (proj2 (Z.eqb_neq a z)) by done. cbn [negb].
    apply (IH a l1); [| done | cbn in Hf; lia | done |].
    + exists (all_next pa). rewrite (proj2 (Z.eqb_neq a 0) Ha0). split; [by exists pa | done].
    + intros s' Hs'. apply HQ. rewrite last_cons. destruct (last l1); done.
Qed.

Lemma chain_unlink m h l1 z l2 dz : chain all_next m h (l1 ++ z :: l2) -> NoDup (l1 ++ z :: l2) -> m !! z = Some dz -> forall m',
  (forall b p, last l1 <> Some b -> m !! b = Some p -> exists p', m' !! b = Some p' /\ all_next p' = all_next p) ->
  (forall t, last l1 = Some t -> exists p, m' !! t = Some p /\ all_next p = all_next dz) ->
  chain all_next m' (match l1 with [] => all_next dz | _ => h end) (l1 ++ l2).
Proof.
  intros Hc Hnd Hz m' Ho Ht. revert h Hc Hnd Ht Ho. induction l1 as [|a l1 IH]; intros h Hc Hnd Ht Ho.
  - destruct Hc as (_ & _ & p & Hp & Hc). assert (p = dz) as -> by congruence. cbn. apply (chain_ext _ m); [done|]. intros b pb _ Hb. by apply Ho.
  - destruct Hc as (-> & Ha0 & pa & Hpa & Hc). cbn in Hnd. apply NoDup_cons in Hnd as [Hal Hnd]. cbn. split_and!; [done | done |].
    destruct l1 as [|b l1].
    + destruct (Ht a eq_refl) as (p & Hp & E). exists p. split; [done|]. rewrite E. cbn in *.
      destruct Hc as (_ & _ & p' & Hp' & Hc). assert (p' = dz) as -> by congruence. apply (chain_ext _ m); [done|].
      intros b pb Hb Hpb. apply Ho; [|done]. intros [= ->]. apply Hal. by right.
    + rewrite last_cons_cons in Ht, Ho. destruct (Ho a pa) as (pa' & Hpa' & E); [| done |].
      { intros E. apply last_Some_elem_of in E. apply Hal. apply elem_of_app. by left. }
      exists pa'. split; [done|]. rewrite E. by apply (IH (all_next pa)).
Qed.

(** Everything of a process but its link in the list of all processes. *)
Definition no_all : process -> process := set_all_next 0.

Lemma no_all_fields p p' : no_all p' = no_all p -> held p' = held p /\ p_next p' = p_next p /\ p_state p' = p_state p.
Proof. unfold no_all, held. destruct p, p'. cbn. intros E. injection E. by intros; subst. Qed.

Lemma relink_spec b nz s s' : relink b nz s = Some s' ->
  agree no_all (k_procs s) (k_procs s') /\ g_current s' = g_current s /\ g_ready_head s' = g_ready_head s /\ g_ready_tail s' = g_ready_tail s /\
  g_pipes s' = g_pipes s /\ g_all_head s' = (if b =? 0 then nz else g_all_head s) /\
  (forall c, (c <> b \/ b = 0) -> k_procs s' !! c = k_procs s !! c) /\
  (b <> 0 -> exists p, k_procs s' !! b = Some p /\ all_next p = nz).
Proof.
  unfold relink. destruct s as [m cur hd tl ah fg np cr kst rsp stk ps]. cbn [k_procs]. destruct (Z.eqb_spec b 0) as [->|Hb].
  - intros [= <-]. by split_and!.
  - destruct (m !! b) as [p|] eqn:E; [|done]. intros [= <-]. cbn [k_procs set_procs g_current g_ready_head g_ready_tail g_pipes g_all_head]. split_and!; try done.
    + apply (agree_insert _ _ _ p); [done | by destruct p].
    + intros c [Hc|]; [by rewrite lookup_insert_ne | done].
    + intros _. eexists. split; [apply lookup_insert_eq | by destruct p].
Qed.

(** Dropping a zombie from the list and from memory. *)
Lemma forget_ok s q l1 z l2 dz s1 : sys_ok s q (l1 ++ z :: l2) -> k_procs s !! z = Some dz -> p_state dz = PROC_ZOMBIE ->
  relink (default 0 (last l1)) (all_next dz) s = Some s1 -> sys_ok (set_procs (delete z (k_procs s1)) s1) q (l1 ++ l2).
Proof.
  intros [Hs (d & Hd & Hz) [L1 L2] [E1 E2]] Hdz Hzz Hr. set (b := default 0 (last l1)) in *.
  destruct (relink_spec _ _ _ _ Hr) as (A & R2 & R3 & R4 & R5 & R6 & R7 & R8).
  assert (Hb : b = 0 <-> l1 = []).
  { unfold b. destruct (last l1) as [t|] eqn:El; [|by apply last_None in El]. cbn. split; [|by intros ->]. intros ->.
    destruct (chain_live _ _ _ _ 0 L1) as [? _]; [|done]. apply elem_of_app. left. by apply last_Some_elem_of. }
  assert (Hzc : z <> g_current s) by (intros ->; congruence).
  assert (Hzq : z ∉ q) by (intros Hin; pose proof (so_ready _ _ Hs z dz Hin Hdz); congruence).
  assert (Lk : forall a p, a <> z -> k_procs s !! a = Some p -> exists p', delete z (k_procs s1) !! a = Some p' /\ held p' = held p /\ p_next p' = p_next p /\ p_state p' = p_state p).
  { intros a p Ha Hp. destruct (agree_lookup _ _ _ a p A Hp) as (p' & Hp' & E). exists p'. rewrite lookup_delete_ne by done. split; [done|]. by apply no_all_fields. }
  assert (A' : agree held (k_procs s) (k_procs s1)) by (eapply agree_weaken; [|exact A]; intros p p' E; by apply no_all_fields).
  pose proof (ends_ok_agree s s1 (Build_ends_ok _ E1 E2) R5 A') as [E1' E2'].
  apply NoDup_app in L2 as K. destruct K as (N1 & N2 & N3). apply NoDup_cons in N3 as [N3 N4].
  assert (Hchain : chain all_next (delete z (k_procs s1)) (g_all_head s1) (l1 ++ l2)).
  { pose proof (chain_unlink _ _ l1 z l2 dz L1 L2 Hdz (k_procs s1)) as K. apply (chain_ext _ (k_procs s1)).
    - replace (g_all_head s1) with (match l1 with [] => all_next dz | _ => g_all_head s end).
      2:{ rewrite R6. destruct (Z.eqb_spec b 0) as [Hb0|Hb0], l1; try done. by apply Hb in Hb0. }
      apply K.
      + intros c p Hc Hp. exists p. split; [|done]. rewrite R7; [done|]. unfold b. destruct (last l1); [left; cbn; congruence | by right].
      + intros t Ht. unfold b in *. rewrite Ht in R8. cbn in R8. apply R8. intros ->. assert (l1 = []) by (apply Hb; by rewrite Ht). by subst l1.
    - intros a p Ha Hp. exists p. split; [|done]. rewrite lookup_delete_ne; [done|]. intros <-. apply elem_of_app in Ha as [Ha|Ha]; [|done].
      apply (N2 z Ha). by left. }
  destruct s1. cbn [k_procs g_current g_ready_head g_ready_tail g_pipes g_all_head set_procs] in *.
  destruct Hs as [[Q1 Q2 Q3] (C1 & C2 & C3) Rd]. subst. split; [split; [split|..]|..]; cbn [k_procs g_current g_ready_head g_ready_tail g_pipes g_all_head].
  - apply (chain_ext _ _ _ _ _ Q1). intros a p Ha Hp. destruct (Lk a p) as (p' & ? & _ & ? & _); [by intros -> | done | by exists p'].
  - done.
  - done.
  - split_and!; [done | done |]. destruct (Lk _ d (not_eq_sym Hzc) Hd) as (d' & -> & _). by exists d'.
  - intros a p Ha Hp. destruct (chain_live _ _ _ _ a Q1 Ha) as [_ [y Hy]]. destruct (Lk a y) as (y' & Hy' & _ & _ & E); [by intros -> | done |].
    assert (p = y') as -> by congruence. rewrite E. by apply (Rd a).
  - destruct (Lk _ d (not_eq_sym Hzc) Hd) as (d' & Hd' & _ & _ & E). exists d'. by rewrite E.
  - split; [done|]. apply NoDup_app. split_and!; [done | | done]. intros a Ha Ha2. apply (N2 a Ha). by right.
  - split; cbn [k_procs g_pipes].
    + eapply pipes_ok_ext; [exact E1'|]. intros x i. cbv beta. unfold refs. destruct (agree_lookup _ _ _ z dz A' Hdz) as (dz' & Hdz' & E).
      rewrite (msum_delete _ _ z dz' Hdz'). injection E as _ E. rewrite (bool_decide_eq_true_2 (p_state dz = _)) in E by done. apply bool_decide_eq_true in E.
      rewrite weight_zombie by done. lia.
    + intros a p [_ Hp]%lookup_delete_Some. by eapply E2'.
Qed.

Lemma reap_child_ok want s q l : sys_ok s q l -> runs (reap_child want) s (fun _ s' => exists l', sys_ok s' q l').
Proof.
  intros H. destruct (sy_all _ _ _ H) as [L1 L2]. pose proof (chain_size _ _ _ _ L1 L2) as Hsz. unfold reap_child, scheduler_current.
  apply runs_bind. unfold gets at 1, runs at 1. apply runs_bind. unfold scheduler_reap. apply runs_bind. unfold gets at 1, runs at 1. apply runs_bind. unfold gets at 1, runs at 1.
  eapply find_all_runs; [exact L1 | unfold walk_fuel; lia | by apply runs_ret; exists l |].
  intros z dz Hz Hdz Hok. destruct (chain_live _ _ _ _ z L1 Hz) as [Hz0 _]. rewrite (proj2 (ctrue_spec z) Hz0). cbn [negb].
  unfold reapable in Hok. apply andb_true_iff in Hok as [Hok _]. apply andb_true_iff in Hok as [Hzz%bool_decide_eq_true _].
  apply runs_bind. eapply pget_runs; [done|]. apply runs_bind. unfold scheduler_remove. apply runs_bind. unfold gets at 1, runs at 1.
  apply list_elem_of_split_l in Hz as (l1 & l2 & -> & Hz1).
  apply (unlink_all_runs _ 0 z l1 l2 s dz).
  - exists (g_all_head s). by split.
  - done.
  - unfold walk_fuel. rewrite length_app in Hsz. cbn in Hsz. lia.
  - done.
  - intros s' Hr. apply runs_bind. unfold modify at 1, runs at 1. apply runs_ret. exists (l1 ++ l2). by eapply forget_ok.
Qed.

(** ** Any sequence of calls *)

Inductive call :=
| CPipe | CClose (fd : Z) | CDup (fd : Z) | CDup2 (oldfd newfd : Z) | CFork (f : syscall_frame) (child_pml4 : Z)
| CExit (code : Z) | CYield | CWait (want : Z).

Section Calls.
Context (new_proc : gmap Z process -> option (Z * process)) (new_stack : gmap Z process -> option Z) `{!ProcHeap new_proc}.
Context (kernel_pml4 fork_ret_trampoline : Z).

Definition do_call (c : call) : MK unit :=
  match c with
  | CPipe => do* sys_pipe in ret tt
  | CClose fd => do* sys_close fd in ret tt
  | CDup fd => do* sys_dup fd in ret tt
  | CDup2 a b => do* sys_dup2 a b in ret tt
  | CFork f as_ => do* fork_child new_proc new_stack fork_ret_trampoline f as_ in ret tt
  | CExit code => sys_exit kernel_pml4 code
  | CYield => scheduler_yield kernel_pml4
  | CWait want => do* reap_child want in ret tt
  end.

(** The calls made by whichever process runs, until nobody is left to run. *)
Fixpoint run_calls (cs : list call) : MK unit :=
  match cs with
  | [] => ret tt
  | c :: cs =>
      do* do_call c in
      let* d := current in
      if bool_decide (p_state d = PROC_ZOMBIE) then ret tt else run_calls cs
  end.

Lemma do_call_ok c s q l : sys_ok s q l -> runs (do_call c) s (fun _ s' => (exists q' l', sys_ok s' q' l') \/ halted s').
Proof.
  assert (K : forall A (m : MK A) s, runs m s (fun _ s' => sys_ok s' q l) -> runs (do* m in ret tt) s (fun _ s' => (exists q' l', sys_ok s' q' l') \/ halted s')).
  { intros A m s0 Hm. apply runs_bind. eapply runs_mono; [exact Hm|]. intros r s' H'. apply runs_ret. left. exists q, l. exact H'. }
  intros H. destruct c; cbn [do_call].
  - by apply K, sys_pipe_ok.
  - by apply K, sys_close_ok.
  - by apply K, sys_dup_ok.
  - by apply K, sys_dup2_ok.
  - apply runs_bind. eapply runs_mono; [by apply (fork_child_ok _ _ _ _ _ _ q l)|]. intros r s' (q' & l' & H' & _). apply runs_ret. left. by exists q', l'.
  - eapply runs_mono; [by apply (sys_exit_ok _ _ _ q l)|]. intros r s' [[q' H']|H']; [left; by eexists _, _ | by right].
  - eapply runs_mono; [by apply (yield_ok _ _ q l)|]. intros r s' [q' H']. left. by eexists _, _.
  - apply runs_bind. eapply runs_mono; [by apply (reap_child_ok _ _ q l)|]. intros r s' [l' H']. apply runs_ret. left. by eexists _, _.
Qed.

(** C4: pipe ends are counted exactly.  After any sequence of [pipe], [close],
    [dup], [dup2], [fork], [exit], [wait] and yields, by whichever processes
    run, every call has a result, and the reader and writer counts of every
    pipe are the numbers of its descriptors open in live processes; a pipe is
    in use exactly while there is such a descriptor.  So a reader sees end of
    file exactly when the last writer is gone, and no pipe leaks. *)
Theorem pipe_ends_counted cs s q l : sys_ok s q l ->
  runs (run_calls cs) s (fun _ s' => forall i p, g_pipes s' !! i = Some p ->
    p_readers p = refs RdEnd i (k_procs s') /\ p_writers p = refs WrEnd i (k_procs s') /\
    (p_used p = true <-> 0 < refs RdEnd i (k_procs s') + refs WrEnd i (k_procs s'))).
Proof.
  assert (Hend : forall s, ends_ok s -> forall i p, g_pipes s !! i = Some p ->
    p_readers p = refs RdEnd i (k_procs s) /\ p_writers p = refs WrEnd i (k_procs s) /\
    (p_used p = true <-> 0 < refs RdEnd i (k_procs s) + refs WrEnd i (k_procs s))).
  { intros s0 [E1 _] i p Hp. destruct (E1 i p Hp) as [Hc Hu]. pose proof (Hc RdEnd) as C1. pose proof (Hc WrEnd) as C2. cbn in C1, C2.
    split_and!; [done | done |]. rewrite Hu, C1, C2. pose proof (refs_nonneg RdEnd i (k_procs s0)). pose proof (refs_nonneg WrEnd i (k_procs s0)).
    rewrite negb_true_iff, andb_false_iff, !Z.eqb_neq. lia. }
  revert s q l. induction cs as [|c cs IH]; intros s q l H; cbn [run_calls].
  - apply runs_ret. apply Hend. exact (sy_ends _ _ _ H).
  - apply runs_bind. eapply runs_mono; [by apply (do_call_ok c s q l)|]. intros [] s' [(q' & l' & H')|[He (d & Hd & Hz)]].
    + destruct (sy_alive _ _ _ H') as (d & Hd & Hz). apply runs_bind. unfold current. apply runs_bind. unfold gets at 1, runs at 1. eapply pget_runs; [done|].
      rewrite bool_decide_eq_false_2 by done. by apply (IH s' q' l').
    + apply runs_bind. unfold current. apply runs_bind. unfold gets at 1, runs at 1. eapply pget_runs; [done|].
      rewrite bool_decide_eq_true_2 by done. apply runs_ret. by apply Hend.
Qed.
End Calls.

(** ** A booted kernel with one process *)

Definition proc1 : process := mkProc 1 [] PROC_RUNNING 0 0 0x10000 0 0 0 0 0 0 [] 0 0 10 1 0 0 std_fds 0 [] [] 0.
Definition boot1 : kern := mkKern {[ 64 := proc1 ]} 64 0 0 64 0 2 0 0 0 ∅ (replicate 16 Pipe.pipe0).
Definition one_slot (m : gmap Z process) : option (Z * process) := match m !! 512 with None => Some (512, proc1) | Some _ => None end.

#[global] Instance one_slot_heap : ProcHeap one_slot.
Proof. intros m a p H. unfold one_slot in H. destruct (m !! 512) eqn:E; [done|]. by injection H as <- <-. Qed.

Lemma boot1_refs x i : refs x i (k_procs boot1) = 0.
Proof. destruct x; reflexivity. Qed.

Lemma boot1_ok : sys_ok boot1 [] [64].
Proof.
  split.
  - split; [split; [done | done | constructor] | |].
    + split_and!; [done | apply not_elem_of_nil | by eexists].
    + intros a p Ha. by apply not_elem_of_nil in Ha.
  - by eexists.
  - split; [|apply NoDup_singleton]. cbn. split_and!; [done | done |]. by eexists.
  - split.
    + intros i p Hp. apply lookup_replicate in Hp as [-> _]. split; [intros []; by rewrite boot1_refs | done].
    + intros a p Hp. unfold boot1 in Hp. cbn [k_procs] in Hp. apply lookup_singleton_Some in Hp as [_ <-]. done.
Qed.

(** A shell pipeline: the parent makes a pipe, forks, and closes its write end;
    the child closes its read end, and exits; the parent reaps it. *)
Definition pipeline : list call :=
  [CPipe; CFork (mkFrame 0 0 0 0 0 0 0 0 0 0 0 0 0 0 0 0) 0; CClose 4; CYield; CClose 3; CExit 0; CWait 2; CDup2 3 0; CClose 3].

Lemma pipe_ends_counted_witness :
  runs (run_calls one_slot (fun _ => Some 0x20000) 0 0 pipeline) boot1 (fun _ s' => forall i p, g_pipes s' !! i = Some p ->
    p_readers p = refs RdEnd i (k_procs s') /\ p_writers p = refs WrEnd i (k_procs s') /\
    (p_used p = true <-> 0 < refs RdEnd i (k_procs s') + refs WrEnd i (k_procs s'))).
Proof. apply (pipe_ends_counted one_slot (fun _ => Some 0x20000) 0 0 pipeline boot1 [] [64]). exact boot1_ok. Defined.
End PipeEnds.
