(* ===== verification/Env.v ===== *)
(** * Environment variables (src/proc/syscalls.c)

    [sys_getenv], [sys_setenv], [sys_unsetenv] and [sys_getenv_at] on the table
    of "KEY=VALUE" slots of a process, proved to implement a dictionary. *)
From S2P Require Import Prelude Bytes Proc.

Module Env.
Import Proc.

(** [s[j]] of an array; the theorems show that only bytes of the slot are read. *)
Definition at_ (s : list Z) (j : nat) : Z := nth j s 0.

(** The comparison loop, then [env[i][klen] == '=']. *)
Fixpoint key_matches (key slot : list Z) (j : nat) : bool :=
  match key with
  | [] => at_ slot j =? 61
  | c :: key => if at_ slot j =? c then key_matches key slot (S j) else false
  end.

(** The index of the entry of [key] among the first [n] from [i] on. *)
Fixpoint find_env (n i : nat) (key : list Z) (env : list (list Z)) : option nat :=
  match n with
  | O => None
  | S n => if key_matches key (nth i env []) 0 then Some i else find_env n (S i) key env
  end.

(** What a call stores through [buf]: some bytes and a terminator after them. *)
Definition copy_out (buf bufsz : Z) (val : list Z) : option (list Z * Z) :=
  if ctrue buf && (0 <? bufsz) then
    let vlen := Z.of_nat (length val) in
    let cp := if vlen <? s32 bufsz - 1 then vlen else s32 bufsz - 1 in
    Some (take (Z.to_nat cp) val, cp)
  else None.

Definition getenv (key : list Z) (buf bufsz : Z) (env : list (list Z)) (n : Z) : Z * option (list Z * Z) :=
  match find_env (Z.to_nat n) 0 key env with
  | Some i =>
      let val := cstr (drop (length key + 1) (nth i env [])) in
      (Z.of_nat (length val), copy_out buf bufsz val)
  | None => (-1, None)
  end.

(** The stores of [KEY], ['='], and [VAL] with its terminator. *)
Definition put_entry (key val slot : list Z) : list Z := splice 0 (key ++ [61] ++ val ++ [0]) slot.

Definition setenv (key val : list Z) (env : list (list Z)) (n : Z) : Z * list (list Z) * Z :=
  if ENV_SLOT <? Z.of_nat (length key) + 1 + Z.of_nat (length val) + 1 then (-1, env, n)
  else
    match find_env (Z.to_nat n) 0 key env with
    | Some i => (0, <[i := put_entry key val (nth i env [])]> env, n)
    | None =>
        if ENV_MAX <=? n then (-1, env, n)
        else (0, <[Z.to_nat n := put_entry key val (nth (Z.to_nat n) env [])]> env, n + 1)
    end.

(** The entries above [i] move down by one; the last slot keeps its bytes. *)
Definition unsetenv (key : list Z) (env : list (list Z)) (n : Z) : Z * list (list Z) * Z :=
  match find_env (Z.to_nat n) 0 key env with
  | Some i => (0, for_up (Z.of_nat i) (n - 1) (fun j e => <[Z.to_nat j := nth (Z.to_nat (j + 1)) e []]> e) env, n - 1)
  | None => (-1, env, n)
  end.

Definition sys_getenv (key : list Z) (buf bufsz : Z) : MK (Z * option (list Z * Z)) :=
  let* p := current in ret (getenv key buf bufsz (p_env p) (envc p)).

Definition sys_setenv (key val : list Z) : MK Z :=
  let* cur := scheduler_current in
  let* p := pget cur in
  let '(r, env, n) := setenv key val (p_env p) (envc p) in
  do* pset cur (set_env env n) in
  ret r.

Definition sys_unsetenv (key : list Z) : MK Z :=
  let* cur := scheduler_current in
  let* p := pget cur in
  let '(r, env, n) := unsetenv key (p_env p) (envc p) in
  do* pset cur (set_env env n) in
  ret r.

Definition sys_getenv_at (idx buf bufsz : Z) : MK (Z * option (list Z * Z)) :=
  let* p := current in
  if envc p <=? s32 idx then ret (-1, None)
  else
    match p_env p !! Z.to_nat idx with
    | Some slot => let s := cstr slot in ret (Z.of_nat (length s), copy_out buf bufsz s)
    | None => fun _ => None    (* outside the table *)
    end.

(** ** The dictionary *)

Abbreviation dict := (list (list Z * list Z)).

Fixpoint index (k : list Z) (D : dict) : option nat :=
  match D with
  | [] => None
  | (k', _) :: D => if bool_decide (k = k') then Some 0%nat else S <$> index k D
  end.

Definition value (k : list Z) (D : dict) : option (list Z) := snd <$> (index k D ≫= fun i => D !! i).

(** Assignment: in place for a key that is there, at the end for a new one. *)
Definition assign (k v : list Z) (D : dict) : dict :=
  match index k D with Some i => <[i := (k, v)]> D | None => D ++ [(k, v)] end.

Definition remove (k : list Z) (D : dict) : dict :=
  match index k D with Some i => take i D ++ drop (S i) D | None => D end.

(** C strings, and strings that can be keys. *)
Definition is_str (s : list Z) : Prop := Forall (fun c => c <> 0) s.
Definition is_key (k : list Z) : Prop := Forall (fun c => c <> 0 /\ c <> 61) k.

Definition slot_holds (slot k v : list Z) : Prop :=
  length slot = 160%nat /\ exists rest, slot = k ++ 61 :: v ++ 0 :: rest.

(** The table holds the dictionary [D]. *)
Record env_rep (env : list (list Z)) (n : Z) (D : dict) : Prop := {
  er_slots : length env = 32%nat /\ Forall (fun s => length s = 160%nat) env;
  er_count : n = Z.of_nat (length D) /\ (length D <= 32)%nat;
  er_entry : forall i k v, D !! i = Some (k, v) -> is_key k /\ is_str v /\ slot_holds (nth i env []) k v;
  er_keys : NoDup D.*1
}.

Lemma at_app pre c s : at_ (pre ++ c :: s) (length pre) = c.
Proof. unfold at_. rewrite app_nth2, Nat.sub_diag by lia. done. Qed.

Lemma key_matches_spec k' : forall k pre tl, is_key k' -> is_key k ->
  key_matches k' (pre ++ k ++ 61 :: tl) (length pre) = bool_decide (k' = k).
Proof.
  induction k' as [|c k' IH]; intros k pre tl Hk' Hk; cbn [key_matches].
  - destruct k as [|d k]; cbn [app]; rewrite at_app; [done|]. apply Forall_cons_iff in Hk as [[_ Hd] _].
    by rewrite (proj2 (Z.eqb_neq d 61) Hd).
  - apply Forall_cons_iff in Hk' as [[_ Hc] Hk']. destruct k as [|d k]; cbn [app]; rewrite at_app.
    + rewrite (proj2 (Z.eqb_neq 61 c)) by done. by rewrite bool_decide_eq_false_2.
    + apply Forall_cons_iff in Hk as [_ Hk]. destruct (Z.eqb_spec d c) as [->|Hne].
      * replace (pre ++ c :: k ++ 61 :: tl) with ((pre ++ [c]) ++ k ++ 61 :: tl) by (by rewrite <- app_assoc).
        replace (S (length pre)) with (length (pre ++ [c])) by (rewrite length_app; cbn; lia). rewrite IH by done.
        apply bool_decide_ext. naive_solver.
      * by rewrite bool_decide_eq_false_2 by congruence.
Qed.

Lemma slot_matches slot k k' v : is_key k' -> is_key k -> slot_holds slot k v -> key_matches k' slot 0 = bool_decide (k' = k).
Proof. intros H1 H2 (_ & rest & ->). apply (key_matches_spec k' k [] (v ++ 0 :: rest)); done. Qed.

Lemma find_env_index env n D k : env_rep env n D -> is_key k -> find_env (Z.to_nat n) 0 k env = index k D.
Proof.
  intros H Hk. destruct (er_count _ _ _ H) as [-> _]. rewrite Nat2Z.id.
  assert (G : forall m i, (i + m = length D)%nat -> find_env m i k env = Nat.add i <$> index k (drop i D)).
  { induction m as [|m IH]; intros i Hi; [by rewrite drop_ge by lia|]. destruct (lookup_lt_is_Some_2 D i) as [[k0 v0] Hl]; [lia|].
    destruct (er_entry _ _ _ H i k0 v0 Hl) as (Hk0 & _ & Hs). rewrite (drop_S _ _ _ Hl). cbn [find_env index].
    rewrite (slot_matches _ k0 k v0) by done. case_bool_decide; [cbn; f_equal; lia|]. rewrite (IH (S i)) by lia.
    rewrite <- option_fmap_compose. apply option_fmap_ext. intros j. cbn. lia. }
  rewrite (G _ 0%nat) by lia. rewrite drop_0. by destruct (index k D).
Qed.

Lemma index_Some k D i : index k D = Some i -> exists v, D !! i = Some (k, v).
Proof.
  revert i. induction D as [|[k0 v0] D IH]; intros i H; [done|]. cbn in H. case_bool_decide as E.
  - injection H as <-. subst k0. by exists v0.
  - apply fmap_Some in H as (j & Hj & ->). by apply IH.
Qed.

Lemma index_None k D : index k D = None -> k ∉ D.*1.
Proof.
  induction D as [|[k0 v0] D IH]; intros H; cbn in *; [apply not_elem_of_nil|]. case_bool_decide as E; [done|].
  apply fmap_None in H. apply not_elem_of_cons. by auto.
Qed.

Lemma index_NoDup k v D i : NoDup D.*1 -> D !! i = Some (k, v) -> index k D = Some i.
Proof.
  revert i. induction D as [|[k0 v0] D IH]; intros i Hnd Hi; [done|]. cbn in Hnd. apply NoDup_cons in Hnd as [Hn Hnd]. cbn [index].
  destruct i as [|i]; cbn in Hi.
  - injection Hi as -> ->. by rewrite bool_decide_eq_true_2.
  - rewrite bool_decide_eq_false_2; [by rewrite (IH i)|]. intros ->. apply Hn. apply list_elem_of_fmap. exists (k0, v).
    split; [done|]. by eapply list_elem_of_lookup_2.
Qed.

Lemma cstr_app s rest : is_str s -> cstr (s ++ 0 :: rest) = s.
Proof.
  induction s as [|c s IH]; intros H; [done|]. apply Forall_cons_iff in H as [Hc H]. cbn. rewrite (proj2 (Z.eqb_neq c 0) Hc). by rewrite IH.
Qed.

Lemma slot_value slot k v : slot_holds slot k v -> is_str v -> cstr (drop (length k + 1) slot) = v.
Proof.
  intros (_ & rest & ->) Hv. replace (k ++ 61 :: v ++ 0 :: rest) with ((k ++ [61]) ++ v ++ 0 :: rest) by (by rewrite <- app_assoc).
  rewrite drop_app_length' by (rewrite length_app; cbn; lia). by apply cstr_app.
Qed.

(** Reading a variable. *)
Lemma getenv_value env n D k buf bufsz : env_rep env n D -> is_key k ->
  getenv k buf bufsz env n = match value k D with Some v => (Z.of_nat (length v), copy_out buf bufsz v) | None => (-1, None) end.
Proof.
  intros H Hk. unfold getenv, value. rewrite (find_env_index env n D k H Hk). destruct (index k D) as [i|] eqn:E; [|done]. cbn.
  destruct (index_Some k D i E) as [v Hv]. rewrite Hv. cbn. destruct (er_entry _ _ _ H i k v Hv) as (_ & Hs & Hh). by rewrite (slot_value _ k v Hh Hs).
Qed.

Lemma put_holds slot k v : length slot = 160%nat -> (length k + 1 + length v + 1 <= 160)%nat -> slot_holds (put_entry k v slot) k v.
Proof.
  intros Hl Hle. unfold put_entry, splice. split.
  - repeat (rewrite ?length_app, ?length_take, ?length_drop; cbn [length]). lia.
  - cbn [Z.to_nat take app]. eexists. rewrite <- !app_assoc. cbn. by rewrite <- !app_assoc.
Qed.

Lemma slot_length env n D i : env_rep env n D -> (i < 32)%nat -> length (nth i env []) = 160%nat.
Proof.
  intros H Hi. destruct (er_slots _ _ _ H) as [Hl Hf]. destruct (lookup_lt_is_Some_2 env i) as [s Hs]; [lia|].
  rewrite nth_lookup, Hs. cbn. rewrite Forall_forall in Hf. apply Hf. by eapply list_elem_of_lookup_2.
Qed.

Lemma nth_insert {A} (l : list A) i j x d : (i < length l)%nat -> nth j (<[i := x]> l) d = if decide (i = j) then x else nth j l d.
Proof.
  intros Hi. rewrite !nth_lookup. destruct (decide (i = j)) as [->|Hne]; [by rewrite list_lookup_insert_eq | by rewrite list_lookup_insert_ne].
Qed.

Lemma fst_insert (D : dict) i k v v0 : D !! i = Some (k, v0) -> (<[i := (k, v)]> D).*1 = D.*1.
Proof. intros Hi. rewrite list_fmap_insert. cbn. apply list_insert_id. by rewrite list_lookup_fmap, Hi. Qed.

(** Setting a variable. *)
Lemma setenv_assign env n D k v : env_rep env n D -> is_key k -> is_str v -> (length k + 1 + length v + 1 <= 160)%nat ->
  (index k D <> None \/ (length D < 32)%nat) ->
  exists env' n', setenv k v env n = (0, env', n') /\ env_rep env' n' (assign k v D).
Proof.
  intros H Hk Hv Hle Hroom. destruct (er_slots _ _ _ H) as [S1 S2]. destruct (er_count _ _ _ H) as [Hn HnD].
  unfold setenv, assign, ENV_SLOT. rewrite (proj2 (Z.ltb_ge 160 _)) by lia. rewrite (find_env_index env n D k H Hk).
  assert (P : forall i, (i < 32)%nat -> let env' := <[i := put_entry k v (nth i env [])]> env in length env' = 32%nat /\ Forall (fun s => length s = 160%nat) env' /\
    slot_holds (nth i env' []) k v /\ forall j, i <> j -> nth j env' [] = nth j env []).
  { intros i Hi env'. pose proof (put_holds (nth i env []) k v (slot_length env n D i H Hi) Hle) as Hp. split_and!.
    - unfold env'. by rewrite length_insert.
    - apply Forall_insert; [done | exact (proj1 Hp)].
    - unfold env'. rewrite nth_insert, decide_True by (done || lia). done.
    - intros j Hj. unfold env'. by rewrite nth_insert, decide_False by (done || lia). }
  destruct (index k D) as [i|] eqn:E.
  - destruct (index_Some k D i E) as [v0 Hv0]. pose proof (lookup_lt_Some _ _ _ Hv0). destruct (P i ltac:(lia)) as (P1 & P2 & P3 & P4).
    eexists _, n. split; [done|]. split; [done | by rewrite length_insert | | rewrite (fst_insert D i k v v0) by done; exact (er_keys _ _ _ H)].
    intros j k' v' Hj. destruct (decide (i = j)) as [<-|Hne].
    + rewrite list_lookup_insert_eq in Hj by done. injection Hj as <- <-. by split_and!.
    + rewrite list_lookup_insert_ne in Hj by done. rewrite P4 by done. by apply (er_entry _ _ _ H).
  - destruct Hroom as [?|Hroom]; [done|]. unfold ENV_MAX. rewrite (proj2 (Z.leb_gt 32 n)) by lia.
    replace (Z.to_nat n) with (length D) by lia. destruct (P (length D) ltac:(lia)) as (P1 & P2 & P3 & P4).
    eexists _, (n + 1). split; [done|]. split; [done | rewrite length_app; cbn; lia | |].
    + intros j k' v' Hj. destruct (decide (j = length D)) as [->|Hne].
      * rewrite lookup_app_r, Nat.sub_diag in Hj by lia. injection Hj as <- <-. by split_and!.
      * assert (Hj' : D !! j = Some (k', v')) by (apply lookup_app_Some in Hj as [?|[? Hj]]; [done | by apply list_lookup_singleton_Some in Hj as [? ?]; lia]).
        rewrite P4 by done. by apply (er_entry _ _ _ H).
    + rewrite fmap_app. apply NoDup_app. split_and!; [exact (er_keys _ _ _ H) | | apply NoDup_singleton].
      intros x Hx ->%list_elem_of_singleton. by apply (index_None k D E).
Qed.

Lemma setenv_fails env n D k v : env_rep env n D -> is_key k ->
  ~ ((length k + 1 + length v + 1 <= 160)%nat /\ (index k D <> None \/ (length D < 32)%nat)) -> setenv k v env n = (-1, env, n).
Proof.
  intros H Hk Hno. destruct (er_count _ _ _ H) as [Hn HnD]. unfold setenv, ENV_SLOT, ENV_MAX. destruct (Z.ltb_spec 160 (Z.of_nat (length k) + 1 + Z.of_nat (length v) + 1)); [done|].
  rewrite (find_env_index env n D k H Hk). destruct (index k D) as [i|] eqn:E.
  - destruct Hno. split; [lia | by left].
  - rewrite (proj2 (Z.leb_le 32 n)); [done|]. destruct (decide (length D < 32)%nat); [|lia]. destruct Hno. split; [lia | by right].
Qed.

(** The shift of [unsetenv]. *)
Lemma shift_down (env : list (list Z)) i n : 0 <= i -> n <= Z.of_nat (length env) ->
  let env' := for_up i (n - 1) (fun j e => <[Z.to_nat j := nth (Z.to_nat (j + 1)) e []]> e) env in
  length env' = length env /\ forall j, nth j env' [] = if decide (Z.to_nat i <= j < Z.to_nat (n - 1))%nat then nth (S j) env [] else nth j env [].
Proof.
  intros Hi Hn. pose proof (for_up_ind (fun k e => length e = length env /\ i <= k /\ forall j, nth j e [] = if decide (Z.to_nat i <= j < Z.to_nat k)%nat then nth (S j) env [] else nth j env [])
    i (n - 1) (fun j e => <[Z.to_nat j := nth (Z.to_nat (j + 1)) e []]> e) env) as H. cbv beta zeta in *.
  destruct H as (H1 & _ & H2).
  - split_and!; [done | lia |]. intros j. by rewrite decide_False by lia.
  - intros k e Hk (IH1 & _ & IH2). split_and!; [by rewrite length_insert | lia |]. intros j. rewrite nth_insert by lia.
    destruct (decide (Z.to_nat k = j)) as [<-|Hne].
    + rewrite decide_True by lia. rewrite IH2, decide_False by lia. f_equal. lia.
    + rewrite IH2. destruct (decide (Z.to_nat i <= j < Z.to_nat k)%nat), (decide (Z.to_nat i <= j < Z.to_nat (k + 1))%nat); done || lia.
  - split; [done|]. intros j. rewrite H2. destruct (decide (Z.to_nat i <= j < Z.to_nat (Z.max i (n - 1)))%nat), (decide (Z.to_nat i <= j < Z.to_nat (n - 1))%nat); done || lia.
Qed.

(** Removing a variable. *)
Lemma unsetenv_remove env n D k : env_rep env n D -> is_key k ->
  exists env' n', unsetenv k env n = (match index k D with Some _ => 0 | None => -1 end, env', n') /\ env_rep env' n' (remove k D).
Proof.
  intros H Hk. destruct (er_slots _ _ _ H) as [S1 S2]. destruct (er_count _ _ _ H) as [Hn HnD].
  unfold unsetenv, remove. rewrite (find_env_index env n D k H Hk). destruct (index k D) as [i|] eqn:E; [|by eexists _, _].
  destruct (index_Some k D i E) as [v0 Hv0]. pose proof (lookup_lt_Some _ _ _ Hv0).
  destruct (shift_down env (Z.of_nat i) n ltac:(lia) ltac:(lia)) as [L1 L2]. eexists _, _. split; [done|].
  assert (LD : length (take i D ++ drop (S i) D) = (length D - 1)%nat) by (rewrite length_app, length_take, length_drop; lia).
  split.
  - split; [congruence|]. apply Forall_lookup_2. intros j s Hs. assert (Hj : (j < 32)%nat) by (apply lookup_lt_Some in Hs; lia).
    pose proof (L2 j) as E2. rewrite nth_lookup, Hs in E2. cbn in E2. rewrite E2. destruct (decide _); apply (slot_length env n D); done || lia.
  - rewrite LD. split; lia.
  - intros j k' v' Hj. rewrite L2. destruct (decide (j < i)%nat).
    + rewrite decide_False by lia. apply (er_entry _ _ _ H). rewrite lookup_app_l, lookup_take_lt in Hj by (rewrite ?length_take; lia). done.
    + assert (j < length D - 1)%nat by (apply lookup_lt_Some in Hj; lia). rewrite decide_True by lia. apply (er_entry _ _ _ H).
      rewrite lookup_app_r, length_take, lookup_drop in Hj by (rewrite length_take; lia). rewrite <- Hj. f_equal. lia.
  - pose proof (er_keys _ _ _ H) as Hnd. rewrite <- (take_drop_middle D i _ Hv0) in Hnd. rewrite fmap_app in *. cbn in Hnd.
    apply NoDup_app in Hnd as (N1 & N2 & N3). apply NoDup_cons in N3 as [_ N3]. apply NoDup_app. split_and!; [done | | done].
    intros x Hx Hx2. apply (N2 x Hx). by right.
Qed.

(** ** Laws of the dictionary *)

Lemma value_elem k v D : NoDup D.*1 -> value k D = Some v <-> (k, v) ∈ D.
Proof.
  intros Hnd. unfold value. split.
  - intros H. destruct (index k D) as [i|] eqn:E; [|done]. destruct (index_Some k D i E) as [v' Hv']. cbn in H. rewrite Hv' in H. injection H as <-.
    by eapply list_elem_of_lookup_2.
  - intros [i Hi]%list_elem_of_lookup_1. rewrite (index_NoDup k v D i Hnd Hi). cbn. by rewrite Hi.
Qed.

Lemma assign_elem k v D k' v' : NoDup D.*1 -> (k', v') ∈ assign k v D <-> (k' = k /\ v' = v) \/ (k' <> k /\ (k', v') ∈ D).
Proof.
  intros Hnd. unfold assign. destruct (index k D) as [i|] eqn:E.
  - destruct (index_Some k D i E) as [v0 Hv0]. split.
    + intros [j Hj]%list_elem_of_lookup_1. destruct (decide (i = j)) as [<-|Hne].
      * rewrite list_lookup_insert_eq in Hj by (by eapply lookup_lt_Some). injection Hj as -> ->. by left.
      * rewrite list_lookup_insert_ne in Hj by done. right. split; [|by eapply list_elem_of_lookup_2]. intros ->.
        pose proof (index_NoDup k v' D j Hnd Hj). congruence.
    + intros [[-> ->]|[Hne [j Hj]%list_elem_of_lookup_1]].
      * apply (list_elem_of_lookup_2 _ i). by rewrite list_lookup_insert_eq by (by eapply lookup_lt_Some).
      * apply (list_elem_of_lookup_2 _ j). rewrite list_lookup_insert_ne; [done|]. intros ->. congruence.
  - rewrite elem_of_app, list_elem_of_singleton. pose proof (index_None k D E) as Hk. split.
    + intros [H|[= -> ->]]; [right | by left]. split; [|done]. intros ->. apply Hk. apply list_elem_of_fmap. by exists (k, v').
    + intros [[-> ->]|[_ H]]; [by right | by left].
Qed.

Lemma remove_elem k D k' v' : NoDup D.*1 -> (k', v') ∈ remove k D <-> k' <> k /\ (k', v') ∈ D.
Proof.
  intros Hnd. unfold remove. destruct (index k D) as [i|] eqn:E.
  - destruct (index_Some k D i E) as [v0 Hv0]. rewrite <- (take_drop_middle D i _ Hv0) in Hnd |- * at 3. rewrite fmap_app in Hnd. cbn in Hnd.
    rewrite !elem_of_app, elem_of_cons. apply NoDup_app in Hnd as (_ & N2 & N3). apply NoDup_cons in N3 as [N3 _].
    assert (F : forall (l : dict) x, (k, x) ∈ l -> k ∈ l.*1) by (intros l x Hx; apply list_elem_of_fmap; by exists (k, x)).
    split.
    + intros [H|H]; (split; [intros -> | by auto]); [by apply (N2 k (F _ _ H)); left | by apply N3, (F _ v')].
    + intros [Hne [H|[[= ? ?]|H]]]; [by left | done | by right].
  - pose proof (index_None k D E) as Hk. split; [|by intros [_ ?]]. intros H. split; [|done]. intros ->. apply Hk. apply list_elem_of_fmap. by exists (k, v').
Qed.

Lemma value_ext k D D' : NoDup D.*1 -> NoDup D'.*1 -> (forall v, (k, v) ∈ D <-> (k, v) ∈ D') -> value k D = value k D'.
Proof. intros H1 H2 H. apply option_eq. intros v. by rewrite !value_elem by done. Qed.

(** C30: the environment calls implement a dictionary.  On a table that holds
    [D], [sys_getenv] returns the length of the value of the key in [D] and
    copies it, or fails when there is none; [sys_setenv] assigns, failing with
    the dictionary unchanged exactly when the entry does not fit in a slot or a
    new key finds the table full; [sys_unsetenv] removes.  After an assignment
    or removal the key has the new value or none, and every other key the value
    it had. *)
Theorem environment_is_a_dictionary s p D k v : k_procs s !! g_current s = Some p -> env_rep (p_env p) (envc p) D -> is_key k -> is_str v ->
  let holds s' D' := exists p', k_procs s' !! g_current s = Some p' /\ env_rep (p_env p') (envc p') D' in
  let fits := (length k + 1 + length v + 1 <= 160)%nat /\ (value k D <> None \/ (length D < 32)%nat) in
  runs (sys_setenv k v) s (fun r s' => (r = 0 /\ fits /\ holds s' (assign k v D)) \/ (r = -1 /\ ~ fits /\ holds s' D)) /\
  runs (sys_unsetenv k) s (fun r s' => r = match value k D with Some _ => 0 | None => -1 end /\ holds s' (remove k D)) /\
  (forall buf bufsz, sys_getenv k buf bufsz s =
     Some (match value k D with Some w => (Z.of_nat (length w), copy_out buf bufsz w) | None => (-1, None) end, s)) /\
  value k (assign k v D) = Some v /\ value k (remove k D) = None /\
  forall k', k' <> k -> value k' (assign k v D) = value k' D /\ value k' (remove k D) = value k' D.
Proof.
  intros Hp HD Hk Hv holds fits. pose proof (er_keys _ _ _ HD) as Hnd.
  assert (Hidx : index k D <> None <-> value k D <> None).
  { unfold value. destruct (index k D) as [i|] eqn:E; [|done]. destruct (index_Some k D i E) as [w Hw]. cbn. by rewrite Hw. }
  assert (St : forall env n, k_procs (set_procs (<[g_current s := set_env env n p]> (k_procs s)) s) !! g_current s = Some (set_env env n p)) by (intros; destruct s; apply lookup_insert_eq).
  assert (Hh : forall env n D', env_rep env n D' -> holds (set_procs (<[g_current s := set_env env n p]> (k_procs s)) s) D').
  { intros env n D' H. eexists. split; [apply St|]. by destruct p. }
  assert (Nd1 : NoDup (assign k v D).*1).
  { unfold assign. destruct (index k D) as [i|] eqn:E; [destruct (index_Some k D i E) as [w Hw]; by rewrite (fst_insert D i k v w)|].
    rewrite fmap_app. apply NoDup_app. split_and!; [done | | apply NoDup_singleton]. intros x Hx ->%list_elem_of_singleton. by apply (index_None k D E). }
  destruct (unsetenv_remove _ _ _ k HD Hk) as (eu & nu & Eu & Ru). pose proof (er_keys _ _ _ Ru) as Nd2. split_and!.
  - unfold sys_setenv, scheduler_current. apply runs_bind. unfold gets, runs at 1. apply runs_bind. unfold runs at 1, pget. rewrite Hp.
    destruct (decide ((length k + 1 + length v + 1 <= 160)%nat)) as [Hle|Hle]; [destruct (decide (length D < 32)%nat) as [Hr|Hr]; [|destruct (value k D) eqn:Ev]|].
    1,2: destruct (setenv_assign _ _ _ k v HD Hk Hv Hle) as (e' & n' & -> & R'); [rewrite ?Hidx; naive_solver|];
      apply runs_bind; unfold runs at 1, pset; rewrite Hp; apply runs_ret; left; split_and!; [done | split; [done|]; naive_solver | by apply Hh].
    all: rewrite (setenv_fails _ _ _ k v HD Hk) by (rewrite Hidx; naive_solver); apply runs_bind; unfold runs at 1, pset; rewrite Hp; apply runs_ret; right;
      split_and!; [done | unfold fits; naive_solver | by apply Hh].
  - unfold sys_unsetenv, scheduler_current. apply runs_bind. unfold gets, runs at 1. apply runs_bind. unfold runs at 1, pget. rewrite Hp, Eu.
    apply runs_bind. unfold runs at 1, pset. rewrite Hp. apply runs_ret. split; [|by apply Hh]. unfold value.
    destruct (index k D) as [i|] eqn:E; [|done]. destruct (index_Some k D i E) as [w Hw]. cbn. by rewrite Hw.
  - intros buf bufsz. unfold sys_getenv, current, bind, gets, pget. rewrite Hp. cbn. by rewrite (getenv_value _ _ D).
  - apply value_elem; [done|]. apply assign_elem; [done | by left].
  - apply eq_None_not_Some. intros [w Hw%value_elem]; [|done]. by apply remove_elem in Hw as [? _].
  - intros k' Hne. split; apply value_ext; try done; intros w; [rewrite assign_elem by done | rewrite remove_elem by done]; naive_solver.
Qed.

Definition env0 : list (list Z) := replicate 32 (replicate 160 0).

Lemma env0_rep : env_rep env0 0 [].
Proof. split; [split; [done | by apply Forall_replicate] | split; cbn; lia | by intros i k v | constructor]. Qed.

Definition shell : process := mkProc 1 [] PROC_RUNNING 0 0 0 0 0 0 0 0 0 [] 0 0 10 1 0 0 [] 0 [] env0 0.
Definition shell_kern : kern := mkKern {[ 64 := shell ]} 64 0 0 64 0 2 0 0 0 ∅ [].

(** PATH=/bin *)
Lemma environment_is_a_dictionary_witness :
  let s := shell_kern in let D := [] in let k := [80; 65; 84; 72] in let v := [47; 98; 105; 110] in
  let holds s' D' := exists p', k_procs s' !! g_current s = Some p' /\ env_rep (p_env p') (envc p') D' in
  let fits := (length k + 1 + length v + 1 <= 160)%nat /\ (value k D <> None \/ (length D < 32)%nat) in
  runs (sys_setenv k v) s (fun r s' => (r = 0 /\ fits /\ holds s' (assign k v D)) \/ (r = -1 /\ ~ fits /\ holds s' D)) /\
  runs (sys_unsetenv k) s (fun r s' => r = match value k D with Some _ => 0 | None => -1 end /\ holds s' (remove k D)) /\
  (forall buf bufsz, sys_getenv k buf bufsz s =
     Some (match value k D with Some w => (Z.of_nat (length w), copy_out buf bufsz w) | None => (-1, None) end, s)) /\
  value k (assign k v D) = Some v /\ value k (remove k D) = None /\
  forall k', k' <> k -> value k' (assign k v D) = value k' D /\ value k' (remove k D) = value k' D.
Proof.
  apply (environment_is_a_dictionary shell_kern shell [] [80; 65; 84; 72] [47; 98; 105; 110]);
    [reflexivity | exact env0_rep | by repeat constructor | by repeat constructor].
Defined.

(** [sys_getenv_at] checks the index as a signed 32-bit number and uses it as
    an unsigned 64-bit one: with index 2^32 - 1 it passes the check, and the
    call reads outside the table. *)
Theorem getenv_at_negative_index_reads_outside buf bufsz : sys_getenv_at 0xFFFFFFFF buf bufsz shell_kern = None.
Proof.
  assert (E : env0 !! Z.to_nat 0xFFFFFFFF = None) by (apply lookup_ge_None; change (length env0) with 32%nat; lia).
  unfold sys_getenv_at, current, bind, gets, pget. cbn [k_procs shell_kern g_current]. rewrite lookup_singleton_eq.
  cbn [envc shell p_env]. rewrite E. done.
Qed.
End Env.
