(* ===== verification/Path.v ===== *)
(** * Path strings (src/proc/syscalls.c)

    [path_split] and [path_resolve_str] on C strings (lists of the bytes before
    the terminator), proved against a reference normalisation. *)
From S2P Require Import Prelude.

Module Path.

(** ['/'] and ['.'] *)
Definition SLASH : Z := 47.
Definition DOT : Z := 46.

(** The index of the last slash: the downward scan of [path_split]. *)
Fixpoint last_slash (path : list Z) (i : nat) (found : option nat) : option nat :=
  match path with
  | [] => found
  | c :: path => last_slash path (S i) (if c =? SLASH then Some i else found)
  end.

(** [uint8_t parent[128], name[32]] *)
Definition path_split (path : list Z) : list Z * list Z :=
  match last_slash path 0 None with
  | None => ([DOT], take 31 path)
  | Some O => ([SLASH], take 31 (drop 1 path))
  | Some i => (take (min 127 i) path, take 31 (drop (i + 1) path))
  end.

(** [tmp]: the text to normalise, at most 255 bytes; [None] when the slash and
    the terminator would be stored past its end. *)
Definition join_paths (base rel : list Z) : option (list Z) :=
  if default 0 (head rel) =? SLASH then Some (take 255 rel)
  else
    let b := take 255 base in
    let t := if negb (bool_decide (b = [])) && negb (default 0 (last b) =? SLASH) then b ++ [SLASH] else b in
    if (255 <? length t)%nat then None else Some (t ++ take (255 - length t) rel).

Fixpoint drop_slashes (p : list Z) : list Z :=
  match p with
  | c :: p' => if c =? SLASH then drop_slashes p' else p
  | [] => []
  end.

(** The bytes up to the next slash, and the rest. *)
Fixpoint token (p : list Z) : list Z * list Z :=
  match p with
  | c :: p' => if c =? SLASH then ([], p) else let '(t, r) := token p' in (c :: t, r)
  | [] => ([], [])
  end.

(** What the loop does with a component, given those on the stack; a component
    that is too long, or one too many, is dropped. *)
Definition push_comp (comps : list (list Z)) (t : list Z) : list (list Z) :=
  if bool_decide (t = [DOT]) then comps
  else if bool_decide (t = [DOT; DOT]) then take (length comps - 1) comps
  else if (length comps <? 16)%nat && (length t <? 32)%nat then comps ++ [t]
  else comps.

Fixpoint tokenise (fuel : nat) (p : list Z) (comps : list (list Z)) : list (list Z) :=
  match fuel with
  | O => comps
  | S fuel =>
      let p := drop_slashes p in
      match p with
      | [] => comps
      | _ => let '(t, r) := token p in tokenise fuel r (push_comp comps t)
      end
  end.

(** The loop that writes the result: [size] is [dst_size], [out] what is
    written so far. *)
Fixpoint rebuild (first : bool) (comps : list (list Z)) (size : nat) (out : list Z) : list Z :=
  match comps with
  | [] => out
  | c :: comps =>
      if (length out <? size - 2)%nat then
        let out := if first then out else out ++ [SLASH] in
        rebuild false comps size (out ++ take (size - 1 - length out) c)
      else out
  end.

Definition path_resolve_str (dst_size : nat) (base rel : list Z) : option (list Z) :=
  match join_paths base rel with
  | None => None
  | Some tmp => Some (rebuild true (tokenise (S (length tmp)) tmp []) dst_size [SLASH])
  end.

(** [sys_getcwd] on the string [cwd_path]: what is stored in [buf]. *)
Definition getcwd (cwd : list Z) (buf size : Z) : Z * option (list Z) :=
  if negb (ctrue buf) || (size =? 0) then (-1, None)
  else let s := take (Z.to_nat (size - 1)) cwd in (Z.of_nat (length s), Some s).

(** ** Reference: normalisation of a list of components *)

(** The components between slashes, empty ones included. *)
Fixpoint split (p : list Z) : list (list Z) :=
  match p with
  | [] => [[]]
  | c :: p =>
      if c =? SLASH then [] :: split p
      else match split p with t :: ts => (c :: t) :: ts | [] => [[c]] end
  end.

Definition norm_step (st : list (list Z)) (t : list Z) : list (list Z) :=
  if bool_decide (t = []) || bool_decide (t = [DOT]) then st
  else if bool_decide (t = [DOT; DOT]) then take (length st - 1) st
  else st ++ [t].

Definition normalise (ts : list (list Z)) : list (list Z) := foldl norm_step [] ts.

(** ["/a/b/c"] *)
Fixpoint slashed (ts : list (list Z)) : list Z :=
  match ts with [] => [] | t :: ts => SLASH :: t ++ slashed ts end.
Definition render (ts : list (list Z)) : list Z := match ts with [] => [SLASH] | _ => slashed ts end.

(** The limits of the buffers: no intermediate stack of components is deeper
    than 16, no component longer than 31 bytes. *)
Fixpoint within (st : list (list Z)) (ts : list (list Z)) : Prop :=
  match ts with
  | [] => True
  | t :: ts => (length t < 32)%nat /\ (length (norm_step st t) <= 16)%nat /\ within (norm_step st t) ts
  end.

Lemma split_token p : split p = match token p with (t, []) => [t] | (t, _ :: r) => t :: split r end.
Proof.
  induction p as [|c p IH]; [done|]. cbn [split token]. destruct (c =? SLASH); [done|].
  rewrite IH. destruct (token p) as [t [|c' r]]; done.
Qed.

Lemma token_rest p t r : token p = (t, r) -> (length t + length r = length p)%nat /\ (r = [] \/ exists r', r = SLASH :: r').
Proof.
  revert t r. induction p as [|c p IH]; intros t r E; cbn in E; [injection E as <- <-; by split; [|left]|].
  destruct (Z.eqb_spec c SLASH) as [->|].
  - injection E as <- <-. split; [done | by right; exists p].
  - destruct (token p) as [t' r'] eqn:Et. injection E as <- <-. destruct (IH t' r' eq_refl) as [H1 H2]. cbn. split; [lia | done].
Qed.

Lemma token_nonempty c p : c <> SLASH -> exists t r, token (c :: p) = (c :: t, r).
Proof. intros Hc. cbn. rewrite (proj2 (Z.eqb_neq c SLASH) Hc). destruct (token p) as [t r]. by exists t, r. Qed.

Lemma push_norm st t : t <> [] -> (length t < 32)%nat -> (length (norm_step st t) <= 16)%nat -> push_comp st t = norm_step st t.
Proof.
  intros Ht Hl Hn. unfold push_comp, norm_step in *. rewrite (bool_decide_eq_false_2 (t = [])) in * by done. cbn [orb] in *.
  case_bool_decide; [done|]. case_bool_decide; [done|]. rewrite length_app in Hn. cbn in Hn.
  by rewrite (proj2 (Nat.ltb_lt (length st) 16)), (proj2 (Nat.ltb_lt (length t) 32)) by lia.
Qed.

Lemma norm_nil st : norm_step st [] = st.
Proof. done. Qed.

(** The loop over the text computes the reference normalisation. *)
Lemma tokenise_norm n : forall p fuel st, (length p <= n)%nat -> (length p < fuel)%nat -> within st (split p) ->
  tokenise fuel p st = foldl norm_step st (split p).
Proof.
  induction n as [|n IH]; intros p fuel st Hn Hf Hw.
  { destruct p; [|cbn in Hn; lia]. by destruct fuel. }
  destruct p as [|c p]; [by destruct fuel|]. destruct fuel as [|fuel]; [lia|]. cbn [length] in *. destruct (decide (c = SLASH)) as [->|Hc].
  - cbn [split] in *. rewrite Z.eqb_refl in *. destruct Hw as (_ & _ & Hw). rewrite norm_nil in Hw. cbn [foldl]. rewrite norm_nil.
    rewrite <- (IH p (S fuel) st) by (done || lia). done.
  - destruct (token_nonempty c p Hc) as (t & r & Et). destruct (token_rest _ _ _ Et) as [Hlen Hr]. cbn [length] in Hlen.
    cbn [tokenise]. assert (Ed : drop_slashes (c :: p) = c :: p) by (cbn; by rewrite (proj2 (Z.eqb_neq c SLASH) Hc)). rewrite Ed. cbv zeta. rewrite Et.
    rewrite split_token, Et in Hw |- *. destruct Hr as [->|[r' ->]].
    + destruct Hw as (H1 & H2 & _). rewrite push_norm by done. cbn [foldl]. by destruct fuel.
    + destruct Hw as (H1 & H2 & H3). rewrite push_norm by done. cbn [foldl length] in *.
      rewrite (IH (SLASH :: r') fuel) by (cbn [length split within]; rewrite ?Z.eqb_refl, ?norm_nil; cbn [within length]; rewrite ?norm_nil; repeat split; done || lia).
      cbn [split]. by rewrite Z.eqb_refl.
Qed.

(** A canonical component. *)
Definition good (t : list Z) : Prop := t <> [] /\ t <> [DOT] /\ t <> [DOT; DOT] /\ (SLASH ∉ t) /\ (length t < 32)%nat.

Lemma split_no_slash p t : t ∈ split p -> SLASH ∉ t.
Proof.
  revert t. induction p as [|c p IH]; intros t Ht; cbn in Ht; [apply list_elem_of_singleton in Ht as ->; apply not_elem_of_nil|].
  destruct (Z.eqb_spec c SLASH) as [->|Hc].
  - apply elem_of_cons in Ht as [->|Ht]; [apply not_elem_of_nil | by apply IH].
  - destruct (split p) as [|t0 ts]; [apply list_elem_of_singleton in Ht as ->; by apply not_elem_of_cons; split; [|apply not_elem_of_nil]|].
    apply elem_of_cons in Ht as [->|Ht]; [apply not_elem_of_cons; split; [done | apply IH; by left] | apply IH; by right].
Qed.

Lemma norm_good ts : forall st, Forall good st -> within st ts -> (forall t, t ∈ ts -> SLASH ∉ t) ->
  Forall good (foldl norm_step st ts) /\ ((length st <= 16)%nat -> (length (foldl norm_step st ts) <= 16)%nat).
Proof.
  induction ts as [|t ts IH]; intros st Hst Hw Hs; [done|]. destruct Hw as (H1 & H2 & H3). cbn [foldl].
  destruct (IH (norm_step st t)) as [K1 K2]; [| done | intros; apply Hs; by right | split; [done | intros; by apply K2]].
  unfold norm_step. destruct (bool_decide (t = [])) eqn:E1; [done|]. destruct (bool_decide (t = [DOT])) eqn:E2; [done|]. cbn [orb].
  destruct (bool_decide (t = [DOT; DOT])) eqn:E3; [by apply Forall_take|]. apply Forall_app. split; [done|]. apply Forall_singleton.
  apply bool_decide_eq_false in E1, E2, E3. split_and!; try done. apply Hs. by left.
Qed.

Lemma rebuild_slashed ts : forall out size, Forall good ts -> (length out + length (slashed ts) <= size - 1)%nat -> rebuild false ts size out = out ++ slashed ts.
Proof.
  induction ts as [|t ts IH]; intros out size Hg Hl; cbn [rebuild slashed]; [by rewrite app_nil_r|].
  apply Forall_cons_iff in Hg as [(Ht & _) Hg]. cbn [slashed length] in Hl. rewrite length_app in Hl. assert (length t <> 0)%nat by (by destruct t).
  rewrite (proj2 (Nat.ltb_lt _ _)) by lia. rewrite take_ge by (rewrite length_app; cbn; lia).
  rewrite IH by (done || (rewrite !length_app; cbn; lia)). by rewrite <- !app_assoc.
Qed.

Lemma rebuild_render ts size : (4 <= size)%nat -> Forall good ts -> (length (render ts) <= size - 1)%nat -> rebuild true ts size [SLASH] = render ts.
Proof.
  intros Hs Hg Hl. destruct ts as [|t ts]; [done|]. cbn [rebuild render slashed] in *. cbn [length] in *. rewrite length_app in Hl.
  apply Forall_cons_iff in Hg as [(Ht & _) Hg]. assert (length t <> 0)%nat by (by destruct t).
  rewrite (proj2 (Nat.ltb_lt _ _)) by lia. rewrite take_ge by lia. rewrite rebuild_slashed by (done || (rewrite length_app; cbn; lia)). done.
Qed.

Lemma split_app_slash t p : SLASH ∉ t -> split (t ++ SLASH :: p) = t :: split p.
Proof.
  induction t as [|c t IH]; intros Hs; cbn; [done|]. apply not_elem_of_cons in Hs as [Hc Hs].
  rewrite (proj2 (Z.eqb_neq c SLASH)) by congruence. by rewrite IH.
Qed.

Lemma split_plain t : SLASH ∉ t -> split t = [t].
Proof.
  induction t as [|c t IH]; intros Hs; [done|]. apply not_elem_of_cons in Hs as [Hc Hs]. cbn. rewrite (proj2 (Z.eqb_neq c SLASH)) by congruence. by rewrite IH.
Qed.

Lemma split_slashed ts : Forall good ts -> ts <> [] -> split (slashed ts) = [] :: ts.
Proof.
  induction ts as [|t ts IH]; intros Hg Hne; [done|]. apply Forall_cons_iff in Hg as [(_ & _ & _ & Hs & _) Hg]. cbn [slashed split]. rewrite Z.eqb_refl. f_equal.
  destruct ts as [|t' ts]; [cbn; rewrite app_nil_r; by apply split_plain|].
  assert (E : split (slashed (t' :: ts)) = [] :: t' :: ts) by (by apply IH). cbn [slashed] in *. rewrite split_app_slash by done. f_equal.
  cbn [split] in E. rewrite Z.eqb_refl in E. by injection E.
Qed.

Lemma norm_id ts : forall st, Forall good ts -> (length st + length ts <= 16)%nat -> foldl norm_step st ts = st ++ ts /\ within st ts.
Proof.
  induction ts as [|t ts IH]; intros st Hg Hl; [by rewrite app_nil_r|]. apply Forall_cons_iff in Hg as [(H1 & H2 & H3 & _ & H5) Hg]. cbn [length] in Hl.
  assert (E : norm_step st t = st ++ [t]) by (unfold norm_step; by rewrite !bool_decide_eq_false_2 by done). cbn [foldl within]. rewrite E.
  destruct (IH (st ++ [t]) Hg) as [K1 K2]; [rewrite length_app; cbn; lia|]. split_and!; [by rewrite K1, <- app_assoc | done | rewrite length_app; cbn; lia | done].
Qed.

Lemma resolve_render base ts : Forall good ts -> (length ts <= 16)%nat -> (length (render ts) <= 127)%nat -> path_resolve_str 128 base (render ts) = Some (render ts).
Proof.
  intros Hg Hl Hr. unfold path_resolve_str, join_paths. assert (Hh : default 0 (head (render ts)) = SLASH) by (by destruct ts). rewrite Hh, Z.eqb_refl, take_ge by lia.
  f_equal. destruct ts as [|t ts]; [done|]. destruct (norm_id (t :: ts) [] Hg) as [K1 K2]; [done|].
  assert (Es : split (render (t :: ts)) = [] :: t :: ts) by (by apply (split_slashed (t :: ts))).
  rewrite (tokenise_norm (length (render (t :: ts)))); [| done | lia |].
  - rewrite Es. change (foldl norm_step [] ([] :: t :: ts)) with (foldl norm_step [] (t :: ts)). rewrite K1. apply rebuild_render; [lia | done | done].
  - rewrite Es. cbn [within]. rewrite norm_nil. split; [cbn; lia | split; [cbn; lia | exact K2]].
Qed.



Lemma last_slash_spec p : forall i f,
  ((SLASH ∉ p) /\ last_slash p i f = f) \/
  (exists a b, p = a ++ SLASH :: b /\ (SLASH ∉ b) /\ last_slash p i f = Some (i + length a)%nat).
Proof.
  induction p as [|c p IH]; intros i f; cbn [last_slash]; [by left; split; [apply not_elem_of_nil|]|].
  destruct (IH (S i) (if c =? SLASH then Some i else f)) as [[Hn ->]|(a & b & -> & Hb & ->)].
  - destruct (Z.eqb_spec c SLASH) as [->|Hc].
    + right. exists [], p. rewrite Nat.add_0_r. done.
    + left. split; [|done]. by apply not_elem_of_cons.
  - right. exists (c :: a), b. split_and!; [done | done |]. cbn. f_equal. lia.
Qed.

(** [path_split] cuts a path at its last slash.  When the directory part
    has fewer than 127 bytes and the last component fewer than 31, the results
    put together give the path back, and the name contains no slash; a path
    without a slash is relative to the current directory. *)
Theorem path_split_rejoins path : let '(par, name) := path_split path in
  (length par < 127)%nat -> (length name < 31)%nat ->
  (SLASH ∉ name) /\
  (par = [DOT] /\ path = name \/ par = [SLASH] /\ path = SLASH :: name \/ path = par ++ SLASH :: name).
Proof.
  unfold path_split. destruct (last_slash_spec path 0 None) as [[Hn ->]|(a & b & -> & Hb & ->)].
  - intros _ Hl. rewrite length_take in Hl. rewrite take_ge by lia. split; [done | by left].
  - replace (0 + length a)%nat with (length a) by lia. assert (D : forall n, drop (length a + 1 + n) (a ++ SLASH :: b) = drop n b).
    { intros n. rewrite drop_app_ge by lia. by replace (length a + 1 + n - length a)%nat with (S n) by lia. }
    destruct (length a) as [|k] eqn:E.
    + apply nil_length_inv in E. subst a. cbn [app drop]. intros _ Hl. rewrite length_take in Hl. rewrite take_ge by lia. split; [done | right; by left].
    + specialize (D 0%nat). rewrite Nat.add_0_r, drop_0 in D. rewrite D. intros Hp Hl. rewrite length_take in Hl. rewrite (take_ge b) by lia. split; [done|].
      rewrite length_take, length_app in Hp. right; right. rewrite Nat.min_r by lia. by rewrite take_app_length' by lia.
Qed.

(** "/a/b": the parent is "/a". *)
Lemma path_split_rejoins_witness : path_split [47; 97; 47; 98] = ([47; 97], [98]) /\ (SLASH ∉ [98]) /\
  ([47; 97] = [DOT] /\ [47; 97; 47; 98] = [98] \/ [47; 97] = [SLASH] /\ [47; 97; 47; 98] = SLASH :: [98] \/ [47; 97; 47; 98] = [47; 97] ++ SLASH :: [98]).
Proof. split; [reflexivity|]. apply (path_split_rejoins [47; 97; 47; 98]); cbn; lia. Defined.
End Path.
