(* ===== verification/Vga.v ===== *)
(** * Text console (src/drivers/vga.c)

    The 80 x 25 text buffer, the cursor and the attribute.  A store outside the
    buffer has no result; the theorems show that there is none. *)
From S2P Require Import Prelude.

Module Vga.

Definition VGA_WIDTH : Z := 80.
Definition VGA_HEIGHT : Z := 25.
Abbreviation VGA_BLACK := 0x0.
Abbreviation VGA_LIGHT_GREY := 0x7.

(** [v_cursor] is the position last sent to the hardware. *)
Record vga := mkVga { v_cells : mem; g_row : Z; g_col : Z; g_color : Z; v_cursor : Z }.

Abbreviation MG := (M vga).

Definition set_pos (r c : Z) (s : vga) : vga := mkVga (v_cells s) r c (g_color s) (v_cursor s).

(** [VGA_BUFFER[i] = x] *)
Definition poke (i x : Z) : MG unit := fun s =>
  if (0 <=? i) && (i <? VGA_WIDTH * VGA_HEIGHT) then Some (tt, mkVga (wr (v_cells s) i x) (g_row s) (g_col s) (g_color s) (v_cursor s)) else None.

Abbreviation VGA_COLOR fg bg := (u8 (Z.lor (Z.shiftl bg 4) (Z.land fg 0x0F))).

(** A character cell: the glyph and the attribute in the high byte. *)
Definition cell (c color : Z) : Z := Z.lor c (Z.shiftl color 8).

Definition scroll_cells (color : Z) (m : mem) : mem :=
  for_up 0 VGA_WIDTH (fun i m => wr m (VGA_WIDTH * (VGA_HEIGHT - 1) + i) (cell 32 color))
    (for_up 0 (VGA_WIDTH * (VGA_HEIGHT - 1)) (fun i m => wr m i (rd m (i + VGA_WIDTH))) m).

Definition scroll : MG unit := modify (fun s => mkVga (scroll_cells (g_color s) (v_cells s)) (g_row s) (g_col s) (g_color s) (v_cursor s)).

Definition vga_init : MG unit := modify (fun s => mkVga (v_cells s) 0 0 (VGA_COLOR VGA_LIGHT_GREY VGA_BLACK) (v_cursor s)).

Definition vga_update_cursor : MG unit :=
  modify (fun s => mkVga (v_cells s) (g_row s) (g_col s) (g_color s) (u16 (g_row s * VGA_WIDTH + g_col s))).

Definition vga_clear : MG unit :=
  do* modify (fun s => mkVga (for_up 0 (VGA_WIDTH * VGA_HEIGHT) (fun i m => wr m i (cell 32 (g_color s))) (v_cells s)) 0 0 (g_color s) (v_cursor s)) in
  vga_update_cursor.

Definition vga_set_color (fg bg : Z) : MG unit := modify (fun s => mkVga (v_cells s) (g_row s) (g_col s) (VGA_COLOR fg bg) (v_cursor s)).

Definition raw_putc (c : Z) : MG unit :=
  let* s := get in
  do* (if c =? 10 then modify (set_pos (g_row s + 1) 0)
       else if c =? 13 then modify (set_pos (g_row s) 0)
       else if c =? 8 then (if 0 <? g_col s then modify (set_pos (g_row s) (g_col s - 1)) else ret tt)
       else
         do* poke (g_row s * VGA_WIDTH + g_col s) (cell c (g_color s)) in
         if VGA_WIDTH <=? g_col s + 1 then modify (set_pos (g_row s + 1) 0) else modify (set_pos (g_row s) (g_col s + 1))) in
  let* s := get in
  if VGA_HEIGHT <=? g_row s then
    do* scroll in modify (fun s => set_pos (VGA_HEIGHT - 1) (g_col s) s)
  else ret tt.

Definition vga_put_char (c : Z) : MG unit := do* raw_putc c in vga_update_cursor.

Fixpoint vga_write_buf (buf : list Z) : MG unit :=
  match buf with
  | [] => ret tt
  | c :: buf => do* vga_put_char c in vga_write_buf buf
  end.

(** [while (g_col < col && g_col < VGA_WIDTH) vga_put_char(fill)], with the number of
    rounds bounded. *)
Fixpoint vga_pad_to (fuel : nat) (col fill : Z) : MG unit :=
  match fuel with
  | O => fun _ => None
  | S fuel =>
      let* s := get in
      if (g_col s <? col) && (g_col s <? VGA_WIDTH) then do* vga_put_char fill in vga_pad_to fuel col fill
      else ret tt
  end.

Definition vga_backspace : MG unit :=
  let* s := get in
  if 0 <? g_col s then
    do* modify (set_pos (g_row s) (g_col s - 1)) in
    do* poke (g_row s * VGA_WIDTH + (g_col s - 1)) (cell 32 (g_color s)) in
    vga_update_cursor
  else ret tt.

Definition vga_prime_cursor : MG unit :=
  let* s := get in poke (g_row s * VGA_WIDTH + g_col s) (cell 32 (g_color s)).

(** ** The cursor never leaves the screen *)

Record vga_wf (s : vga) : Prop := {
  wf_row : 0 <= g_row s < VGA_HEIGHT;
  wf_col : 0 <= g_col s < VGA_WIDTH
}.

Inductive op := OInit | OClear | OColor (fg bg : Z) | OPut (c : Z) | OWrite (buf : list Z) | OBackspace | OPrime.

Definition run_op (o : op) : MG unit :=
  match o with
  | OInit => vga_init | OClear => vga_clear | OColor fg bg => vga_set_color fg bg | OPut c => vga_put_char c
  | OWrite buf => vga_write_buf buf | OBackspace => vga_backspace | OPrime => vga_prime_cursor
  end.

Fixpoint run_vga (os : list op) : MG unit :=
  match os with [] => ret tt | o :: os => do* run_op o in run_vga os end.

Lemma rd_scroll color m i : 0 <= i < VGA_WIDTH * VGA_HEIGHT ->
  rd (scroll_cells color m) i = if i <? VGA_WIDTH * (VGA_HEIGHT - 1) then rd m (i + VGA_WIDTH) else cell 32 color.
Proof.
  unfold scroll_cells, VGA_WIDTH, VGA_HEIGHT. intros Hi. change (80 * (25 - 1)) with 1920. set (m1 := for_up 0 1920 _ m).
  assert (H1 : rd m1 i = if i <? 1920 then rd m (i + 80) else rd m i).
  { pose proof (for_up_ind (fun k m' => forall j, rd m' j = if (0 <=? j) && (j <? k) then rd m (j + 80) else rd m j) 0 1920 (fun i m => wr m i (rd m (i + 80))) m) as H.
    cbv beta in H. unfold m1. rewrite H; clear H.
    - destruct (Z.leb_spec 0 i), (Z.ltb_spec i (Z.max 0 1920)), (Z.ltb_spec i 1920); cbn; lia || done.
    - intros j. destruct (Z.leb_spec 0 j), (Z.ltb_spec j 0); cbn; lia || done.
    - intros k m' Hk IH j. destruct (Z.eq_dec k j) as [<-|Hne].
      + rewrite rd_wr_eq, IH. destruct (Z.leb_spec 0 (k + 80)), (Z.ltb_spec (k + 80) k), (Z.leb_spec 0 k), (Z.ltb_spec k (k + 1)); cbn; lia || done.
      + rewrite rd_wr_ne, IH by done. destruct (Z.leb_spec 0 j), (Z.ltb_spec j k), (Z.ltb_spec j (k + 1)); cbn; lia || done. }
  clearbody m1. pose proof (for_up_ind (fun k m' => rd m' i = if (1920 <=? i) && (i <? 1920 + k) then cell 32 color else rd m1 i) 0 80 (fun i m => wr m (1920 + i) (cell 32 color)) m1) as H.
  cbv beta in H. rewrite H; clear H.
  - rewrite H1. destruct (Z.leb_spec 1920 i), (Z.ltb_spec i (1920 + Z.max 0 80)), (Z.ltb_spec i 1920); cbn; lia || done.
  - destruct (Z.leb_spec 1920 i), (Z.ltb_spec i (1920 + 0)); cbn; lia || done.
  - intros k m' Hk IH. destruct (Z.eq_dec (1920 + k) i) as [<-|Hne].
    + rewrite rd_wr_eq. destruct (Z.leb_spec 1920 (1920 + k)), (Z.ltb_spec (1920 + k) (1920 + (k + 1))); cbn; lia || done.
    + rewrite rd_wr_ne, IH by done. destruct (Z.leb_spec 1920 i), (Z.ltb_spec i (1920 + k)), (Z.ltb_spec i (1920 + (k + 1))); cbn; lia || done.
Qed.

(** What one character does: where the cursor goes and which cells change. *)
Definition printable (c : Z) : bool := negb ((c =? 10) || (c =? 13) || (c =? 8)).

Definition next_pos (c r k : Z) : Z * Z :=
  if c =? 10 then (r + 1, 0)
  else if c =? 13 then (r, 0)
  else if c =? 8 then (r, Z.max 0 (k - 1))
  else if k + 1 <? VGA_WIDTH then (r, k + 1) else (r + 1, 0).

Definition shown (c : Z) (s : vga) : mem :=
  if printable c then wr (v_cells s) (g_row s * VGA_WIDTH + g_col s) (cell c (g_color s)) else v_cells s.

Lemma poke_runs i x s (Q : unit -> vga -> Prop) : 0 <= i < VGA_WIDTH * VGA_HEIGHT ->
  Q tt (mkVga (wr (v_cells s) i x) (g_row s) (g_col s) (g_color s) (v_cursor s)) -> runs (poke i x) s Q.
Proof. intros Hi HQ. unfold runs, poke. rewrite (proj2 (Z.leb_le 0 i)), (proj2 (Z.ltb_lt i _)) by lia. done. Qed.

Lemma raw_putc_runs c s : vga_wf s -> let '(r, k) := next_pos c (g_row s) (g_col s) in
  raw_putc c s = Some (tt, if r <? VGA_HEIGHT then mkVga (shown c s) r k (g_color s) (v_cursor s)
                           else mkVga (scroll_cells (g_color s) (shown c s)) (VGA_HEIGHT - 1) k (g_color s) (v_cursor s)).
Proof.
  intros [Hr Hc]. destruct s as [m row col color cur]. cbn [Vga.g_row Vga.g_col] in *.
  unfold raw_putc, next_pos, shown, printable, bind, get, modify, ret, set_pos. cbn [Vga.g_row Vga.g_col Vga.g_color v_cells v_cursor].
  assert (Hp : poke (row * VGA_WIDTH + col) (cell c color) (mkVga m row col color cur) =
    Some (tt, mkVga (wr m (row * VGA_WIDTH + col) (cell c color)) row col color cur)).
  { unfold poke, VGA_WIDTH, VGA_HEIGHT in *. rewrite (proj2 (Z.leb_le 0 _)), (proj2 (Z.ltb_lt _ _)) by lia. done. }
  assert (Hlt : (VGA_HEIGHT <=? row) = false /\ (row <? VGA_HEIGHT) = true) by (split; [apply Z.leb_gt | apply Z.ltb_lt]; lia). destruct Hlt as [L1 L2].
  destruct (Z.eqb_spec c 10); [|destruct (Z.eqb_spec c 13); [|destruct (Z.eqb_spec c 8)]]; cbn [orb negb].
  - cbn [Vga.g_row]. destruct (Z.leb_spec VGA_HEIGHT (row + 1)), (Z.ltb_spec (row + 1) VGA_HEIGHT); lia || done.
  - cbn [Vga.g_row]. by rewrite L1, L2.
  - destruct (Z.ltb_spec 0 col); cbn [Vga.g_row Vga.g_col]; rewrite L1, L2; [rewrite Z.max_r by lia | replace col with 0 by lia]; done.
  - rewrite Hp. destruct (Z.leb_spec VGA_WIDTH (col + 1)), (Z.ltb_spec (col + 1) VGA_WIDTH); try lia; cbn [Vga.g_row Vga.g_col].
    + destruct (Z.leb_spec VGA_HEIGHT (row + 1)), (Z.ltb_spec (row + 1) VGA_HEIGHT); lia || done.
    + by rewrite L1, L2.
Qed.

Lemma put_char_runs c s (Q : unit -> vga -> Prop) : vga_wf s ->
  (forall s', vga_wf s' -> g_col s' = (next_pos c (g_row s) (g_col s)).2 -> g_color s' = g_color s -> Q tt s') -> runs (vga_put_char c) s Q.
Proof.
  intros Hwf HQ. pose proof (raw_putc_runs c s Hwf) as H. destruct (next_pos c (g_row s) (g_col s)) as [r k] eqn:En.
  unfold vga_put_char. apply runs_bind. unfold runs at 1. rewrite H. unfold vga_update_cursor, modify, runs.
  assert (B : 0 <= r <= VGA_HEIGHT /\ 0 <= k < VGA_WIDTH).
  { destruct Hwf as [W1 W2]. unfold next_pos, VGA_WIDTH, VGA_HEIGHT in *. repeat (destruct (_ =? _)); try destruct (Z.ltb_spec (g_col s + 1) 80); injection En as <- <-; lia. }
  destruct (Z.ltb_spec r VGA_HEIGHT); apply HQ; cbn; try done; split; cbn; unfold VGA_HEIGHT in *; lia.
Qed.

Lemma write_buf_runs buf : forall s, vga_wf s -> runs (vga_write_buf buf) s (fun _ => vga_wf).
Proof.
  induction buf as [|c buf IH]; intros s Hwf; cbn [vga_write_buf]; [by apply runs_ret|].
  apply runs_bind, put_char_runs; [done|]. intros s' H _ _. by apply IH.
Qed.

Lemma on_screen s : vga_wf s -> 0 <= g_row s * VGA_WIDTH + g_col s < VGA_WIDTH * VGA_HEIGHT.
Proof. intros [H1 H2]. unfold VGA_WIDTH, VGA_HEIGHT in *. lia. Qed.

Lemma run_op_runs o s : vga_wf s -> runs (run_op o) s (fun _ => vga_wf).
Proof.
  intros Hwf. pose proof Hwf as [W1 W2]. pose proof (on_screen s Hwf) as Hon.
  destruct o; cbn [run_op]; [done | done | done | by apply put_char_runs | by apply write_buf_runs | |].
  - unfold vga_backspace. apply runs_bind. unfold get at 1, runs at 1.
    destruct (Z.ltb_spec 0 (g_col s)); [|by apply runs_ret].
    apply runs_bind. unfold modify at 1, runs at 1. apply runs_bind, poke_runs; [unfold VGA_WIDTH, VGA_HEIGHT in *; lia|].
    unfold vga_update_cursor, modify, runs. split; cbn; lia.
  - unfold vga_prime_cursor. apply runs_bind. unfold get at 1, runs at 1. by apply poke_runs.
Qed.


(** ** Padding *)

Lemma next_col_printable c r k : printable c = true ->
  (next_pos c r k).2 = if k + 1 <? VGA_WIDTH then k + 1 else 0.
Proof.
  unfold printable, next_pos. destruct (c =? 10), (c =? 13), (c =? 8); intros [=]. by destruct (k + 1 <? VGA_WIDTH).
Qed.

Lemma pad_to_ends fuel col fill : col < VGA_WIDTH -> printable fill = true -> forall s, vga_wf s -> col - g_col s < Z.of_nat fuel -> (0 < fuel)%nat ->
  runs (vga_pad_to fuel col fill) s (fun _ s' => vga_wf s' /\ g_col s' = Z.max (g_col s) col).
Proof.
  intros Hcol Hp. induction fuel as [|fuel IH]; intros s Hwf Hf Hpos; [lia|]. pose proof Hwf as [_ W2].
  cbn [vga_pad_to]. apply runs_bind. unfold get at 1, runs at 1.
  destruct (Z.ltb_spec (g_col s) col); cbn [andb]; [|apply runs_ret; split; [done | lia]].
  rewrite (proj2 (Z.ltb_lt _ _)) by lia. apply runs_bind, put_char_runs; [done|].
  intros s' Hwf' Hc' _. rewrite next_col_printable, (proj2 (Z.ltb_lt _ _)) in Hc' by (done || lia).
  eapply runs_mono; [apply IH; [done | lia | lia]|]. intros [] s2 [H2 E2]. split; [done | lia].
Qed.

Lemma pad_to_spins fuel col fill : VGA_WIDTH <= col -> printable fill = true -> forall s, vga_wf s -> vga_pad_to fuel col fill s = None.
Proof.
  intros Hcol Hp. induction fuel as [|fuel IH]; intros s Hwf; [done|]. pose proof Hwf as [_ W2].
  cbn [vga_pad_to]. unfold bind, get. rewrite (proj2 (Z.ltb_lt _ _)), (proj2 (Z.ltb_lt _ VGA_WIDTH)) by lia. cbn [andb].
  pose proof (put_char_runs fill s (fun _ => vga_wf) Hwf (fun s' H _ _ => H)) as H.
  apply runs_result in H as ([] & s' & -> & H). by apply IH.
Qed.

(** padding a line ends exactly for columns of the screen.  With a printable fill
    character, [vga_pad_to] to a column below 80 returns within [col + 1] rounds and the
    cursor is then at that column, or where it already was if further right.  For a column
    of 80 or more it never returns: the last cell of a row wraps the cursor to column 0
    before the loop sees it reach the width. *)
Theorem vga_pad_to_terminates col fill s : vga_wf s -> printable fill = true ->
  (0 <= col < VGA_WIDTH -> exists s', vga_pad_to (S (Z.to_nat col)) col fill s = Some (tt, s') /\ vga_wf s' /\ g_col s' = Z.max (g_col s) col) /\
  (VGA_WIDTH <= col -> forall fuel, vga_pad_to fuel col fill s = None).
Proof.
  intros Hwf Hp. split.
  - intros Hcol. pose proof Hwf as [_ W2]. pose proof (pad_to_ends (S (Z.to_nat col)) col fill ltac:(lia) Hp s Hwf ltac:(lia) ltac:(lia)) as H.
    apply runs_result in H as ([] & s' & E & H). eauto.
  - intros Hcol fuel. by apply pad_to_spins.
Qed.

(** The state after [vga_init] on an empty buffer. *)
Definition vga0 : vga := mkVga ∅ 0 0 7 0.

Lemma vga0_wf : vga_wf vga0.
Proof. split; cbn; unfold VGA_WIDTH, VGA_HEIGHT; lia. Qed.


Lemma vga_pad_to_terminates_witness :
  (exists s', vga_pad_to 13 12 32 vga0 = Some (tt, s') /\ vga_wf s' /\ g_col s' = 12) /\ vga_pad_to 200 80 32 vga0 = None.
Proof.
  split.
  - apply (vga_pad_to_terminates 12 32 vga0); [exact vga0_wf | reflexivity | unfold VGA_WIDTH; lia].
  - apply (vga_pad_to_terminates 80 32 vga0); [exact vga0_wf | reflexivity | unfold VGA_WIDTH; lia].
Defined.
End Vga.
