(* ===== verification/Input.v ===== *)
(** * Keyboard, layouts and terminal settings (src/drivers/kbd.c, keymap.c, tty.c)

    The interrupt handler that turns scan codes into characters, the ring
    buffer between it and the readers, the keyboard layouts, and the terminal
    flags. *)
From S2P Require Import Prelude Pipe Proc Vga Sched PipeEnds.

Module Input.
Import Proc Sched.

(** ** Layouts (keymap.c) *)

Abbreviation KEYMAP_NAME_MAX := 16.
Abbreviation MAX_LAYOUTS := 8.

Record keymap_t := mkKeymap { km_name : list Z; km_low : list Z; km_high : list Z }.

Definition us_low : list Z :=
  [0; 27; 49; 50; 51; 52; 53; 54; 55; 56; 57; 48; 45; 61; 8; 9;
   113; 119; 101; 114; 116; 121; 117; 105; 111; 112; 91; 93; 10; 0; 97; 115;
   100; 102; 103; 104; 106; 107; 108; 59; 39; 96; 0; 92; 122; 120; 99; 118;
   98; 110; 109; 44; 46; 47; 0; 42; 0; 32; 0; 0; 0; 0; 0; 0] ++ replicate 64 0.
Definition us_high : list Z :=
  [0; 27; 33; 64; 35; 36; 37; 94; 38; 42; 40; 41; 95; 43; 8; 9;
   81; 87; 69; 82; 84; 89; 85; 73; 79; 80; 123; 125; 10; 0; 65; 83;
   68; 70; 71; 72; 74; 75; 76; 58; 34; 126; 0; 124; 90; 88; 67; 86;
   66; 78; 77; 60; 62; 63; 0; 42; 0; 32; 0; 0; 0; 0; 0; 0] ++ replicate 64 0.

(** Overrides: scan code, unshifted and shifted character. *)
Definition fr_over : list (Z * Z * Z) :=
  [(0x10, 97, 65); (0x1E, 113, 81); (0x11, 122, 90); (0x2C, 119, 87); (0x27, 109, 77); (0x32, 44, 63); (0x33, 59, 46)].

(** [g_active] is the index of the layout in the array; [None] is NULL. *)
Record registry := mkReg { g_layouts : list keymap_t; g_n_layouts : Z; g_active : option Z }.

Definition copy_layout_name (src : list Z) : list Z := take (Z.to_nat (KEYMAP_NAME_MAX - 1)) (cstr src).

Definition add_layout (name : list Z) (r : registry) : option Z * registry :=
  if MAX_LAYOUTS <=? g_n_layouts r then (None, r)
  else (Some (g_n_layouts r),
        mkReg (<[Z.to_nat (g_n_layouts r) := mkKeymap (copy_layout_name name) us_low us_high]> (g_layouts r)) (g_n_layouts r + 1) (g_active r)).

Definition override (m : keymap_t) (o : Z * Z * Z) : keymap_t :=
  let '(sc, lo, hi) := o in mkKeymap (km_name m) (<[Z.to_nat sc := lo]> (km_low m)) (<[Z.to_nat sc := hi]> (km_high m)).

Definition keymap_init (r : registry) : registry :=
  let r := mkReg (g_layouts r) 0 (g_active r) in
  let r := (add_layout [117; 115] r).2 in
  let '(fr, r) := add_layout [102; 114] r in
  let r := match fr with
           | Some i => mkReg (alter (fun m => foldl override m fr_over) (Z.to_nat i) (g_layouts r)) (g_n_layouts r) (g_active r)
           | None => r
           end in
  mkReg (g_layouts r) (g_n_layouts r) (Some 0).

Definition keymap_active (r : registry) : option keymap_t := g_active r ≫= fun i => g_layouts r !! Z.to_nat i.
Definition keymap_at (i : Z) (r : registry) : option keymap_t := if i <? g_n_layouts r then g_layouts r !! Z.to_nat i else None.

Fixpoint find_layout (n : nat) (i : Z) (name : list Z) (r : registry) : option Z :=
  match n with
  | O => None
  | S n =>
      match g_layouts r !! Z.to_nat i with
      | Some m => if bool_decide (km_name m = cstr name) then Some i else find_layout n (i + 1) name r
      | None => None
      end
  end.

Definition keymap_set (name : list Z) (r : registry) : Z * registry :=
  match find_layout (Z.to_nat (g_n_layouts r)) 0 name r with
  | Some i => (1, mkReg (g_layouts r) (g_n_layouts r) (Some i))
  | None => (0, r)
  end.

(** ** Terminal flags (tty.h, tty.c) *)

Abbreviation TTY_ISIG := 0x0001.
Abbreviation TTY_ICANON := 0x0002.
Abbreviation TTY_ECHO := 0x0008.
Abbreviation TTY_ECHOE := 0x0010.
Abbreviation TTY_VMIN := 0.
Abbreviation TTY_NCC := 8.

Record ktermios := mkTermios { c_lflag : Z; c_cc : list Z }.

Definition tty_init : ktermios :=
  mkTermios (Z.lor (Z.lor TTY_ISIG TTY_ICANON) (Z.lor TTY_ECHO TTY_ECHOE)) (<[Z.to_nat TTY_VMIN := 1]> (replicate (Z.to_nat TTY_NCC) 0)).

Abbreviation tty_isig t := (ctrue (Z.land (c_lflag t) TTY_ISIG)).
Abbreviation tty_canonical t := (ctrue (Z.land (c_lflag t) TTY_ICANON)).
Abbreviation tty_echo t := (ctrue (Z.land (c_lflag t) TTY_ECHO)).

(** ** The ring buffer (kbd.c) *)

Definition KBD_BUF : Z := 256.

Record kbd := mkKbd { g_buf : mem; g_head : Z; g_tail : Z; g_shift : Z; g_caps : Z; g_ctrl : Z }.

Definition set_ring (b : mem) (h t : Z) (k : kbd) : kbd := mkKbd b h t (g_shift k) (g_caps k) (g_ctrl k).
Definition set_mods (s c t : Z) (k : kbd) : kbd := mkKbd (g_buf k) (g_head k) (g_tail k) s c t.

Definition buf_push (c : Z) (k : kbd) : kbd :=
  let n := u32 (g_head k + 1) mod KBD_BUF in
  if n =? g_tail k then k else set_ring (wr (g_buf k) (g_head k) c) n (g_tail k) k.

Definition kbd_poll (k : kbd) : Z * kbd :=
  if g_tail k =? g_head k then (-1, k)
  else (rd (g_buf k) (g_tail k), set_ring (g_buf k) (g_head k) (u32 (g_tail k + 1) mod KBD_BUF) k).

(** ** The interrupt handler *)

Abbreviation SC_LSHIFT := 0x2A.
Abbreviation SC_RSHIFT := 0x36.
Abbreviation SC_CAPS := 0x3A.
Abbreviation SC_LCTRL := 0x1D.
Abbreviation SC_RELEASE := 0x80.

Definition is_lower (c : Z) : bool := (97 <=? c) && (c <=? 122).
Definition is_upper (c : Z) : bool := (65 <=? c) && (c <=? 90).

(** [if (release) { if (g) g--; } else g++] on a byte counter. *)
Definition count_key (release : bool) (g : Z) : Z := if release then (if ctrue g then g - 1 else g) else u8 (g + 1).

Definition apply_caps (caps c : Z) : Z :=
  if ctrue caps then (if is_lower c then c - 32 else if is_upper c then c + 32 else c) else c.
Definition apply_ctrl (ctrl c : Z) : Z :=
  if ctrue ctrl then (if is_lower c || is_upper c then Z.land c 0x1F else c) else c.

(** What the handler does with one scan code: the keyboard state and whether the
    foreground process is interrupted.  Translating a key without an active layout
    would follow a NULL pointer. *)
Definition kbd_scan (km : option keymap_t) (isig : bool) (sc : Z) (k : kbd) : option (kbd * bool) :=
  let release := ctrue (Z.land sc SC_RELEASE) in
  let code := Z.land sc 0x7F in
  if (code =? SC_LSHIFT) || (code =? SC_RSHIFT) then Some (set_mods (count_key release (g_shift k)) (g_caps k) (g_ctrl k) k, false)
  else if code =? SC_LCTRL then Some (set_mods (g_shift k) (g_caps k) (count_key release (g_ctrl k)) k, false)
  else if code =? SC_CAPS then
    Some (if release then k else set_mods (g_shift k) (if ctrue (g_caps k) then 0 else 1) (g_ctrl k) k, false)
  else if release then Some (k, false)
  else
    match km with
    | None => None
    | Some km =>
        let c := nth (Z.to_nat code) (if ctrue (g_shift k) then km_high km else km_low km) 0 in
        if c =? 0 then Some (k, false)
        else
          let c := apply_ctrl (g_ctrl k) (apply_caps (g_caps k) c) in
          if ctrue (g_ctrl k) && (c =? 3) && isig then Some (k, true) else Some (buf_push c k, false)
    end.

(** The devices of the terminal, beside the processes. *)
Record term := mkTerm { t_kbd : kbd; t_keymap : registry; g_termios : ktermios; t_vga : Vga.vga }.
Abbreviation MT := (M (term * kern)).

Definition set_kbd (k : kbd) (t : term) : term := mkTerm k (t_keymap t) (g_termios t) (t_vga t).
Definition set_vga (v : Vga.vga) (t : term) : term := mkTerm (t_kbd t) (t_keymap t) (g_termios t) v.

Definition kbd_isr (sc : Z) : MT unit := fun '(t, s) =>
  match kbd_scan (keymap_active (t_keymap t)) (tty_isig (g_termios t)) sc (t_kbd t) with
  | None => None
  | Some (k, false) => Some (tt, (set_kbd k t, s))
  | Some (k, true) => match scheduler_sigint_fg s with Some (_, s') => Some (tt, (set_kbd k t, s')) | None => None end
  end.

(** [kbd_init] up to the registration of the handler: the modifiers are reset. *)
Definition kbd_reset (k : kbd) : kbd := set_mods 0 0 0 k.

(** ** The ring is a bounded queue *)

Record ring_wf (k : kbd) : Prop := { rw_head : 0 <= g_head k < KBD_BUF; rw_tail : 0 <= g_tail k < KBD_BUF }.

Definition held (k : kbd) : Z := (g_head k - g_tail k) mod KBD_BUF.

Definition typed (k : kbd) : list Z := (fun i => rd (g_buf k) ((g_tail k + i) mod KBD_BUF)) <$> seqZ 0 (held k).

Lemma held_range k : 0 <= held k < KBD_BUF.
Proof. unfold held, KBD_BUF. apply Z.mod_pos_bound. lia. Qed.

Lemma length_typed k : Z.of_nat (length (typed k)) = held k.
Proof. unfold typed. rewrite length_fmap, length_seqZ. pose proof (held_range k). lia. Qed.

Lemma ring_next x : 0 <= x < KBD_BUF -> u32 (x + 1) mod KBD_BUF = if x =? 255 then 0 else x + 1.
Proof.
  unfold KBD_BUF. intros Hx. words. destruct (Z.eqb_spec x 255) as [->|]; [done|]. apply Z.mod_small. lia.
Qed.

Lemma ring_diff h t : 0 <= h < KBD_BUF -> 0 <= t < KBD_BUF -> (h - t) mod KBD_BUF = if t <=? h then h - t else h - t + KBD_BUF.
Proof.
  unfold KBD_BUF. intros Hh Ht. destruct (Z.leb_spec t h); [apply Z.mod_small; lia|].
  rewrite <- (Z_mod_plus_full (h - t) 1 256). rewrite Z.mod_small by lia. lia.
Qed.

Lemma ring_push c k : ring_wf k -> ring_wf (buf_push c k) /\
  typed (buf_push c k) = if held k <? KBD_BUF - 1 then typed k ++ [c] else typed k.
Proof.
  intros [Hh Ht]. unfold buf_push. rewrite ring_next by done. pose proof (ring_diff _ _ Hh Ht) as Hd. fold (held k) in Hd.
  destruct (Z.eqb_spec (if g_head k =? 255 then 0 else g_head k + 1) (g_tail k)) as [E|E].
  { split; [by split|]. destruct (Z.ltb_spec (held k) (KBD_BUF - 1)); [|done].
    unfold KBD_BUF in *. destruct (Z.eqb_spec (g_head k) 255), (Z.leb_spec (g_tail k) (g_head k)); lia. }
  assert (Hn : held (set_ring (wr (g_buf k) (g_head k) c) (if g_head k =? 255 then 0 else g_head k + 1) (g_tail k) k) = held k + 1 /\ held k < 255).
  { unfold held at 1. cbn [g_head g_tail set_ring]. rewrite ring_diff; [|unfold KBD_BUF in *; destruct (Z.eqb_spec (g_head k) 255); lia | done].
    unfold KBD_BUF in *. destruct (Z.eqb_spec (g_head k) 255), (Z.leb_spec (g_tail k) (g_head k));
      [destruct (Z.leb_spec (g_tail k) 0) | destruct (Z.leb_spec (g_tail k) 0) | destruct (Z.leb_spec (g_tail k) (g_head k + 1)) ..]; try lia;
      destruct (Z.leb_spec (g_tail k) (g_head k + 1)); lia. }
  split; [split; cbn; unfold KBD_BUF in *; destruct (Z.eqb_spec (g_head k) 255); lia|].
  unfold KBD_BUF at 1. rewrite (proj2 (Z.ltb_lt _ _)) by lia. destruct Hn as [Hn Hlt]. unfold typed at 1. rewrite Hn.
  pose proof (held_range k). rewrite seqZ_app by lia. rewrite fmap_app. f_equal.
  - apply list_fmap_ext. intros i x Hx. apply lookup_seqZ in Hx as [-> Hi]. cbn [g_buf g_tail set_ring]. apply rd_wr_ne.
    intros E'. unfold held, KBD_BUF in *. assert ((g_tail k + (0 + Z.of_nat i)) mod 256 - g_tail k = Z.of_nat i \/ (g_tail k + (0 + Z.of_nat i)) mod 256 - g_tail k = Z.of_nat i - 256) by
      (pose proof (Z.div_mod (g_tail k + (0 + Z.of_nat i)) 256); pose proof (Z.mod_pos_bound (g_tail k + (0 + Z.of_nat i)) 256); lia).
    destruct (Z.leb_spec (g_tail k) (g_head k)); lia.
  - rewrite seqZ_cons by lia. cbn [fmap list_fmap]. f_equal. cbn [g_buf g_tail set_ring]. replace ((g_tail k + (0 + held k)) mod KBD_BUF) with (g_head k); [by rewrite rd_wr_eq|].
    unfold KBD_BUF in *. destruct (Z.leb_spec (g_tail k) (g_head k)).
    + rewrite Z.mod_small by lia. lia.
    + rewrite <- (Z_mod_plus_full _ (-1) 256), Z.mod_small by lia. lia.
Qed.

Lemma ring_poll_empty k : ring_wf k -> typed k = [] -> kbd_poll k = (-1, k).
Proof.
  intros [Hh Ht] E. pose proof (length_typed k) as Hl. rewrite E in Hl. unfold held in Hl. rewrite ring_diff in Hl by done.
  unfold kbd_poll, KBD_BUF in *. cbn in Hl. destruct (Z.leb_spec (g_tail k) (g_head k)); [|lia]. by rewrite (proj2 (Z.eqb_eq _ _)) by lia.
Qed.

Lemma ring_poll_cons k c q : ring_wf k -> typed k = c :: q ->
  exists k', kbd_poll k = (c, k') /\ ring_wf k' /\ typed k' = q.
Proof.
  intros [Hh Ht] E. pose proof (length_typed k) as Hl. pose proof (ring_diff _ _ Hh Ht) as Hd. fold (held k) in Hd.
  rewrite E in Hl. cbn [length] in Hl. assert (0 < held k) by lia.
  unfold typed in E. rewrite seqZ_cons in E by lia. cbn [fmap list_fmap] in E. injection E as Ec Eq.
  unfold kbd_poll. rewrite (proj2 (Z.eqb_neq _ _)) by (unfold KBD_BUF in *; destruct (Z.leb_spec (g_tail k) (g_head k)); lia).
  eexists. split; [|split].
  - rewrite <- Ec. rewrite Z.add_0_r, (Z.mod_small (g_tail k)) by exact Ht. reflexivity.
  - rewrite ring_next by done. split; cbn; unfold KBD_BUF in *; [|destruct (Z.eqb_spec (g_tail k) 255)]; lia.
  - rewrite ring_next by done. rewrite <- Eq. unfold typed. cbn [g_buf g_tail set_ring].
    assert (Hn : held (set_ring (g_buf k) (g_head k) (if g_tail k =? 255 then 0 else g_tail k + 1) k) = Z.pred (held k)).
    { unfold held at 1. cbn [g_head g_tail set_ring]. rewrite ring_diff by (unfold KBD_BUF in *; destruct (Z.eqb_spec (g_tail k) 255); lia).
      unfold KBD_BUF in *. destruct (Z.eqb_spec (g_tail k) 255), (Z.leb_spec (g_tail k) (g_head k)); try destruct (Z.leb_spec 0 (g_head k)); try destruct (Z.leb_spec (g_tail k + 1) (g_head k)); lia. }
    rewrite Hn. change (Z.succ 0) with (1 + 0). rewrite <- (fmap_add_seqZ 1 0). rewrite <- list_fmap_compose. apply list_fmap_ext. intros i x Hx. apply lookup_seqZ in Hx as [-> Hi]. cbn [compose].
    f_equal. destruct (Z.eqb_spec (g_tail k) 255) as [->|]; [|f_equal; lia].
    unfold KBD_BUF. replace (255 + (1 + (0 + Z.of_nat i))) with (0 + (0 + Z.of_nat i) + 1 * 256) by lia. by rewrite Z_mod_plus_full.
Qed.

(** ** Auto-repeat of the modifier keys *)

(** The scan codes a keyboard sends, one interrupt each. *)
Fixpoint scans (km : option keymap_t) (isig : bool) (scs : list Z) (k : kbd) : option kbd :=
  match scs with
  | [] => Some k
  | sc :: scs => match kbd_scan km isig sc k with Some (k, _) => scans km isig scs k | None => None end
  end.

Definition us_layout : keymap_t := mkKeymap [117; 115] us_low us_high.

Lemma repeat_shift km isig n scs : forall k, 0 <= g_shift k -> g_shift k + Z.of_nat n < 256 ->
  scans km isig (replicate n SC_LSHIFT ++ scs) k = scans km isig scs (set_mods (g_shift k + Z.of_nat n) (g_caps k) (g_ctrl k) k).
Proof.
  induction n as [|n IH]; intros k H0 Hn.
  - cbn [replicate app]. f_equal. destruct k; unfold set_mods; cbn. by rewrite Z.add_0_r.
  - cbn [replicate app scans]. change (kbd_scan km isig SC_LSHIFT k) with (Some (set_mods (u8 (g_shift k + 1)) (g_caps k) (g_ctrl k) k, false)).
    words. rewrite IH by (cbn; lia). cbn [g_shift g_caps g_ctrl set_mods]. f_equal. unfold set_mods; cbn. f_equal. lia.
Qed.

(** a shift key that auto-repeats stays down.  A keyboard repeats the make code of a
    held key and sends one break code when it is let go; the handler counts makes and
    breaks.  After [n] makes and the break, with no other key involved, the count is
    [n - 1]: a tap leaves shift up and the next [a] is lower case, a repeated shift stays
    down and the next [a] is upper case. *)
Theorem held_shift_sticks n isig k : (1 <= n < 256)%nat -> g_shift k = 0 -> g_caps k = 0 -> g_ctrl k = 0 -> ring_wf k -> held k < KBD_BUF - 1 ->
  exists k', scans (Some us_layout) isig (replicate n SC_LSHIFT ++ [Z.lor SC_LSHIFT SC_RELEASE; 0x1E; Z.lor 0x1E SC_RELEASE]) k = Some k' /\
    g_shift k' = Z.of_nat n - 1 /\ typed k' = typed k ++ [if (n =? 1)%nat then 97 else 65].
Proof.
  intros Hn Hs Hc Ht Hwf Hh. rewrite repeat_shift, Hs, Hc, Ht by lia. set (k1 := set_mods _ 0 0 k). cbn [scans].
  replace (kbd_scan (Some us_layout) isig (Z.lor SC_LSHIFT SC_RELEASE) k1) with (Some (set_mods (Z.of_nat n - 1) 0 0 k, false)).
  2: { unfold k1. change (kbd_scan (Some us_layout) isig (Z.lor SC_LSHIFT SC_RELEASE) (set_mods (0 + Z.of_nat n) 0 0 k)) with
         (Some (set_mods (if ctrue (0 + Z.of_nat n) then 0 + Z.of_nat n - 1 else 0 + Z.of_nat n) 0 0 k, false)).
       unfold ctrue. rewrite (proj2 (Z.eqb_neq _ _)) by lia. done. }
  set (k2 := set_mods (Z.of_nat n - 1) 0 0 k).
  assert (W2 : ring_wf k2 /\ held k2 = held k /\ typed k2 = typed k) by (destruct Hwf; by split_and!).
  destruct W2 as (W2 & H2 & T2). destruct (ring_push (if (n =? 1)%nat then 97 else 65) k2 W2) as [W3 T3].
  replace (kbd_scan (Some us_layout) isig 30 k2) with (Some (buf_push (if (n =? 1)%nat then 97 else 65) k2, false)).
  2: { unfold kbd_scan, k2. cbn [g_shift g_caps g_ctrl set_mods]. change (Z.land 30 SC_RELEASE) with 0. change (Z.land 30 127) with 30. 
       assert (E : ctrue (Z.of_nat n - 1) = negb (n =? 1)%nat) by (unfold ctrue; destruct (Z.eqb_spec (Z.of_nat n - 1) 0), (Nat.eqb_spec n 1); lia || done).
       rewrite E. by destruct (n =? 1)%nat. }
  exists (buf_push (if (n =? 1)%nat then 97 else 65) k2). split; [done|]. split.
  - unfold buf_push. by destruct (_ =? g_tail k2).
  - rewrite T3, H2, T2. by rewrite (proj2 (Z.ltb_lt _ _)).
Qed.

Definition kbd0 : kbd := mkKbd ∅ 0 0 0 0 0.

Lemma held_shift_sticks_witness :
  exists k', scans (Some us_layout) true (replicate 5 SC_LSHIFT ++ [Z.lor SC_LSHIFT SC_RELEASE; 0x1E; Z.lor 0x1E SC_RELEASE]) kbd0 = Some k' /\ g_shift k' = 4 /\ typed k' = [65].
Proof.
  apply (held_shift_sticks 5 true kbd0); [lia | reflexivity | reflexivity | reflexivity | | vm_compute; reflexivity].
  split; cbn; unfold KBD_BUF; lia.
Defined.
End Input.
