(* ===== verification/Console.v ===== *)
(** * Reading from the console (src/proc/fd.c, console branch of [sys_read])

    Characters go from the keyboard interrupt through the ring buffer to a
    reader, which edits a line in canonical mode or takes characters as they
    come in raw mode.  Interrupts are an argument: before each poll of the
    buffer the next batch of scan codes arrives.  A read that waits for more
    batches than are given has no result. *)
From S2P Require Import Prelude Pipe Proc Vga Sched PipeEnds Input.

Module Console.
Import Proc Sched Input.

Fixpoint interrupts (scs : list Z) : MT unit :=
  match scs with
  | [] => ret tt
  | sc :: scs => do* kbd_isr sc in interrupts scs
  end.

Definition poll : MT Z := fun '(t, s) => let '(c, k) := kbd_poll (t_kbd t) in Some (c, (set_kbd k t, s)).
Definition put (c : Z) : MT unit := fun '(t, s) =>
  match Vga.vga_put_char c (t_vga t) with Some (_, v) => Some (tt, (set_vga v t, s)) | None => None end.
Fixpoint puts (cs : list Z) : MT unit :=
  match cs with
  | [] => ret tt
  | c :: cs => do* put c in puts cs
  end.
Definition echo (cs : list Z) : MT unit := fun x => if tty_echo (g_termios x.1) then puts cs x else Some (tt, x).

(** [buf] is the user's buffer, [got] the characters in it. *)
Fixpoint read_canonical (env : list (list Z)) (len got : Z) (buf : mem) : MT (Z * mem * list (list Z)) :=
  if len <=? got then ret (got, buf, env) else
  match env with
  | [] => fun _ => None
  | b :: env =>
      do* interrupts b in
      let* c := poll in
      if c <? 0 then read_canonical env len got buf
      else if (c =? 8) || (c =? 0x7F) then
        if 0 <? got then do* echo [8; 32; 8] in read_canonical env len (got - 1) buf
        else read_canonical env len got buf
      else
        let c := if c =? 13 then 10 else c in
        do* echo [c] in
        let buf := wr buf got c in
        if c =? 10 then ret (got + 1, buf, env) else read_canonical env len (got + 1) buf
  end.

Fixpoint read_raw (env : list (list Z)) (vmin len got : Z) (buf : mem) : MT (Z * mem * list (list Z)) :=
  if len <=? got then ret (got, buf, env) else
  match env with
  | [] => fun _ => None
  | b :: env =>
      do* interrupts b in
      let* c := poll in
      if c <? 0 then
        if vmin <=? got then ret (got, buf, env) else read_raw env vmin len got buf
      else
        do* echo [c] in
        let buf := wr buf got c in
        if vmin <=? got + 1 then ret (got + 1, buf, env) else read_raw env vmin len (got + 1) buf
  end.

Definition con_read (env : list (list Z)) (len : Z) (buf : mem) : MT (Z * mem * list (list Z)) := fun '(t, s) =>
  if tty_canonical (g_termios t) then read_canonical env len 0 buf (t, s)
  else
    let vmin := nth (Z.to_nat TTY_VMIN) (c_cc (g_termios t)) 0 in
    read_raw env (if ctrue vmin then vmin else 1) len 0 buf (t, s).

(** ** What an interrupt can change *)

Record con_ok (x : term * kern) : Prop := {
  co_map : is_Some (keymap_active (t_keymap x.1));
  co_vga : Vga.vga_wf (t_vga x.1);
  co_ring : ring_wf (t_kbd x.1);
  co_all : exists l, chain all_next (k_procs x.2) (g_all_head x.2) l /\ NoDup l
}.

Definition queue_of (x : term * kern) : list Z := typed (t_kbd x.1).

(** A well-formed console with the same settings and [q] waiting to be read. *)
Definition evolves (x : term * kern) (q : list Z) (y : term * kern) : Prop :=
  con_ok y /\ g_termios y.1 = g_termios x.1 /\ queue_of y = q.

Lemma sigint_runs s l : chain all_next (k_procs s) (g_all_head s) l -> NoDup l ->
  runs scheduler_sigint_fg s (fun _ s' => chain all_next (k_procs s') (g_all_head s') l).
Proof.
  intros Hc Hnd. pose proof (PipeEnds.chain_size _ _ _ _ Hc Hnd). unfold scheduler_sigint_fg. apply runs_bind. unfold gets at 1, runs at 1.
  destruct (negb (ctrue (g_fg_pid s))); [by apply runs_ret|]. apply runs_bind. unfold scheduler_find. apply runs_bind. unfold gets at 1, runs at 1.
  apply runs_bind. unfold gets at 1, runs at 1. eapply PipeEnds.find_all_runs; [exact Hc | unfold walk_fuel; lia | by apply runs_ret |].
  intros a p Ha Hp _. destruct (chain_live _ _ _ _ _ Hc Ha) as [Hne _]. rewrite (proj2 (ctrue_spec a) Hne). cbn [negb].
  apply runs_bind. eapply pget_runs; [done|]. destruct (bool_decide _); [by apply runs_ret|]. eapply pset_runs; [done|].
  destruct s as [m cur hd tl ah fg np cr kst rsp stk pipes]. cbn [k_procs set_procs g_all_head] in *. eapply chain_ext; [exact Hc|]. intros b pb _ Hb.
  apply (agree_lookup all_next m); [apply (agree_insert _ _ _ p); [done | by destruct p] | done].
Qed.

Lemma scan_ring km isig sc k : ring_wf k -> is_Some km ->
  exists k' int extra, kbd_scan km isig sc k = Some (k', int) /\ ring_wf k' /\ typed k' = typed k ++ extra.
Proof.
  intros Hwf [m ->]. unfold kbd_scan.
  assert (Hm : forall a b c, exists k' (int : bool) extra, Some (set_mods a b c k, false) = Some (k', int) /\ ring_wf k' /\ typed k' = typed k ++ extra).
  { intros a b c. exists (set_mods a b c k), false, []. rewrite app_nil_r. split_and!; [done | destruct Hwf; by split | done]. }
  assert (Hk : forall int : bool, exists k' (int' : bool) extra, Some (k, int) = Some (k', int') /\ ring_wf k' /\ typed k' = typed k ++ extra).
  { intros int. exists k, int, []. by rewrite app_nil_r. }
  destruct ((_ =? _) || _); [apply Hm|]. destruct (_ =? SC_LCTRL); [apply Hm|]. destruct (_ =? SC_CAPS); [destruct (ctrue (Z.land sc SC_RELEASE)); [apply Hk | apply Hm]|].
  destruct (ctrue (Z.land sc SC_RELEASE)); [apply Hk|]. destruct (_ =? 0); [apply Hk|]. destruct (_ && _); [apply Hk|].
  match goal with |- context [buf_push ?c k] => destruct (ring_push c k Hwf) as [H1 H2]; exists (buf_push c k), false, (if held k <? KBD_BUF - 1 then [c] else []) end.
  split_and!; [done | done |]. rewrite H2. destruct (_ <? _); [done | by rewrite app_nil_r].
Qed.

Lemma isr_runs sc x : con_ok x -> runs (kbd_isr sc) x (fun _ y => exists extra, evolves x (queue_of x ++ extra) y).
Proof.
  destruct x as [t s]. intros [Hm Hv Hr (l & Hl & Hnd)]. unfold runs, kbd_isr. cbn [fst snd] in *.
  destruct (scan_ring (keymap_active (t_keymap t)) (tty_isig (g_termios t)) sc (t_kbd t) Hr Hm) as (k' & int & extra & -> & Hr' & E). destruct int.
  - pose proof (sigint_runs s l Hl Hnd) as H. apply runs_result in H as ([] & s' & -> & H). exists extra. split_and!; [split; cbn; eauto | done | done].
  - exists extra. split_and!; [split; cbn; eauto | done | done].
Qed.

Lemma interrupts_runs scs : forall x, con_ok x -> runs (interrupts scs) x (fun _ y => exists extra, evolves x (queue_of x ++ extra) y).
Proof.
  induction scs as [|sc scs IH]; intros x Hx; cbn [interrupts]; [apply runs_ret; exists []; by rewrite app_nil_r|].
  apply runs_bind. eapply runs_mono; [by apply isr_runs|]. intros [] y (e1 & Hy & Ty & Qy). eapply runs_mono; [by apply IH|].
  intros [] z (e2 & Hz & Tz & Qz). exists (e1 ++ e2). split_and!; [done | congruence | by rewrite Qz, Qy, app_assoc].
Qed.

Lemma poll_runs x c q : con_ok x -> queue_of x = c :: q -> runs poll x (fun r y => r = c /\ evolves x q y).
Proof.
  destruct x as [t s]. intros [Hm Hv Hr Hl] E. unfold runs, poll. destruct (ring_poll_cons (t_kbd t) c q Hr E) as (k' & -> & Hk & Ek).
  split; [done|]. by split_and!.
Qed.

Lemma puts_runs cs : forall x, con_ok x -> runs (puts cs) x (fun _ y => evolves x (queue_of x) y).
Proof.
  induction cs as [|c cs IH]; intros x Hx; cbn [puts]; [by apply runs_ret|]. apply runs_bind. destruct x as [t s]. pose proof Hx as [Hm Hv Hr Hl]. unfold runs at 1, put.
  pose proof (Vga.put_char_runs c (t_vga t) (fun _ v => Vga.vga_wf v) Hv (fun s' H _ _ => H)) as H. apply runs_result in H as ([] & v & -> & H).
  eapply runs_mono; [apply IH; by split|]. intros [] y (H1 & H2 & H3). by split_and!.
Qed.

Lemma echo_runs cs x : con_ok x -> runs (echo cs) x (fun _ y => evolves x (queue_of x) y).
Proof. intros Hx. unfold echo, runs. destruct (tty_echo _); [by apply puts_runs | done]. Qed.

(** ** The line editor *)

Definition is_erase (c : Z) : bool := (c =? 8) || (c =? 0x7F).

(** What one key does to the line. *)
Definition edit (l : list Z) (c : Z) : list Z :=
  if is_erase c then take (length l - 1) l else l ++ [if c =? 13 then 10 else c].

(** A line is complete with its newline, or when it fills the buffer. *)
Definition complete (len : Z) (l : list Z) : bool := (len <=? Z.of_nat (length l)) || bool_decide (10 ∈ l).

(** The line and the keys left when the first complete line is reached. *)
Fixpoint first_line (len : Z) (l q : list Z) : option (list Z * list Z) :=
  if complete len l then Some (l, q)
  else match q with [] => None | c :: q => first_line len (edit l c) q end.

Definition line_in (buf : mem) (l : list Z) : Prop := forall (i : nat) c, l !! i = Some c -> rd buf (Z.of_nat i) = c.

Lemma line_in_snoc buf l c : line_in buf l -> line_in (wr buf (Z.of_nat (length l)) c) (l ++ [c]).
Proof.
  intros H i x Hx. apply lookup_app_Some in Hx as [Hx|[Hi Hx]].
  - apply lookup_lt_Some in Hx as Hlt. rewrite rd_wr_ne by lia. by apply H.
  - apply list_lookup_singleton_Some in Hx as [Hi' <-]. replace i with (length l) by lia. apply rd_wr_eq.
Qed.

Lemma line_in_take buf l n : line_in buf l -> line_in buf (take n l).
Proof. intros H i x Hx. apply lookup_take_Some in Hx as [Hx _]. by apply H. Qed.

Lemma no_newline len l : complete len l = false -> Z.of_nat (length l) < len /\ (10 ∉ l).
Proof. unfold complete. intros [H1 H2]%orb_false_iff. apply Z.leb_gt in H1. by apply bool_decide_eq_false in H2. Qed.

(** What a finished read leaves. *)
Definition read_done (x : term * kern) (buf : mem) (len : Z) (l r : list Z) (res : Z * mem * list (list Z)) (y : term * kern) : Prop :=
  let '(got, buf', _) := res in
  got = Z.of_nat (length l) /\ line_in buf' l /\ (forall i, len <= i -> rd buf' i = rd buf i) /\ exists extra, evolves x (r ++ extra) y.

Lemma read_canonical_step env len l buf q extra l' r x : con_ok x -> queue_of x = q ++ extra -> Forall (fun c => 0 <= c) q -> 0 <= len ->
  first_line len l q = Some (l', r) -> (length q <= length env)%nat -> line_in buf l -> (10 ∉ l) ->
  runs (read_canonical env len (Z.of_nat (length l)) buf) x (read_done x buf len l' (r ++ extra)).
Proof.
  intros Hx Hq Hpos Hlen. revert l buf q extra x Hx Hq Hpos. induction env as [|b env IH]; intros l buf q extra x Hx Hq Hpos Hf He Hl Hnl; cbn [read_canonical].
  { destruct q; [|cbn in He; lia]. cbn [first_line] in Hf. destruct (complete len l) eqn:Ec; [|done]. injection Hf as <- <-.
    unfold complete in Ec. rewrite (bool_decide_eq_false_2 _ Hnl), orb_false_r in Ec. rewrite Ec. apply runs_ret. split_and!; [done | done | done |]. exists []. by rewrite app_nil_r. }
  destruct (Z.leb_spec len (Z.of_nat (length l))) as [Hle|Hlt].
  { assert (Ec : complete len l = true) by (unfold complete; by rewrite (proj2 (Z.leb_le _ _) Hle)).
    destruct q; cbn [first_line] in Hf; rewrite Ec in Hf; injection Hf as <- <-; apply runs_ret; (split_and!; [done | done | done |]; exists []; by rewrite app_nil_r). }
  assert (Ec : complete len l = false) by (unfold complete; rewrite (bool_decide_eq_false_2 _ Hnl), (proj2 (Z.leb_gt _ _) Hlt); done).
  destruct q as [|c q]; cbn [first_line] in Hf; rewrite Ec in Hf; [done|]. apply Forall_cons in Hpos as [Hc Hpos]. cbn in He.
  apply runs_bind. eapply runs_mono; [by apply interrupts_runs|]. intros [] x1 (e1 & H1 & T1 & Q1). rewrite Hq, <- app_assoc in Q1. cbn [app] in Q1.
  apply runs_bind. eapply runs_mono; [by apply (poll_runs x1 c)|]. intros ? x2 (-> & H2 & T2 & Q2). rewrite (proj2 (Z.ltb_ge c 0)) by done.
  assert (Fin : forall l1 buf1 x3, evolves x2 (queue_of x2) x3 -> first_line len l1 q = Some (l', r) -> line_in buf1 l1 -> (10 ∉ l1) ->
    (forall i, len <= i -> rd buf1 i = rd buf i) -> runs (read_canonical env len (Z.of_nat (length l1)) buf1) x3 (read_done x buf len l' (r ++ extra))).
  { intros l1 buf1 x3 (H3 & T3 & Q3) F1 L1 N1 B1. eapply runs_mono; [apply (IH l1 buf1 q (extra ++ e1)); [done | by rewrite Q3, Q2 | done | done | lia | done | done]|].
    intros [[got buf'] env'] y (G & L & B & ex & Hy & Ty & Qy). split_and!; [done | done | intros i Hi; by rewrite B, B1 |].
    exists (e1 ++ ex). split_and!; [done | congruence | by rewrite Qy, !app_assoc]. }
  fold (is_erase c). unfold edit in Hf. destruct (is_erase c).
  - destruct (Z.ltb_spec 0 (Z.of_nat (length l))) as [Hg|Hg].
    + apply runs_bind. eapply runs_mono; [by apply echo_runs|]. intros [] x3 H3.
      replace (Z.of_nat (length l) - 1) with (Z.of_nat (length (take (length l - 1) l))) by (rewrite length_take; lia).
      apply Fin; [done | done | by apply line_in_take | | done]. intros [i Hi]%list_elem_of_lookup_1. apply lookup_take_Some in Hi as [Hi _]. apply Hnl. by eapply list_elem_of_lookup_2.
    + destruct l; [|cbn in Hg; lia]. by apply (Fin []).
  - apply runs_bind. eapply runs_mono; [by apply echo_runs|]. intros [] x3 H3. set (c' := if c =? 13 then 10 else c) in *.
    replace (Z.of_nat (length l) + 1) with (Z.of_nat (length (l ++ [c']))) by (rewrite length_app; cbn; lia).
    assert (B1 : forall i, len <= i -> rd (wr buf (Z.of_nat (length l)) c') i = rd buf i) by (intros i Hi; rewrite rd_wr_ne by lia; done).
    destruct (Z.eqb_spec c' 10) as [E|E].
    + assert (Ec' : complete len (l ++ [c']) = true) by (unfold complete; rewrite (bool_decide_eq_true_2 (10 ∈ l ++ [c'])) by set_solver; by rewrite orb_true_r).
      assert (Hf' : l ++ [c'] = l' /\ q = r) by (destruct q; cbn [first_line] in Hf; rewrite Ec' in Hf; by injection Hf as <- <-). destruct Hf' as [<- <-].
      apply runs_ret. destruct H3 as (H3 & T3 & Q3). split_and!; [done | by apply line_in_snoc | done |].
      exists e1. split_and!; [done | congruence | by rewrite Q3, Q2, app_assoc].
    + apply Fin; [done | done | by apply line_in_snoc | set_solver | done].
Qed.

(** [ks] are exactly the keys of the first line: the edited line is complete, and no
    earlier one is. *)
Definition makes_line (len : Z) (ks : list Z) : Prop :=
  complete len (foldl edit [] ks) = true /\
  forall ks1 ks2, ks = ks1 ++ ks2 -> ks2 <> [] -> complete len (foldl edit [] ks1) = false.

Lemma first_line_keys len ks r : forall l, complete len (foldl edit l ks) = true ->
  (forall ks1 ks2, ks = ks1 ++ ks2 -> ks2 <> [] -> complete len (foldl edit l ks1) = false) -> first_line len l (ks ++ r) = Some (foldl edit l ks, r).
Proof.
  induction ks as [|c ks IH]; intros l Hc Hmin.
  - cbn in Hc |- *. destruct r; cbn [first_line]; by rewrite Hc.
  - cbn [app first_line]. assert (E : complete len l = false) by (by apply (Hmin [] (c :: ks))). rewrite E. cbn [foldl] in *. apply IH; [done|].
    intros ks1 ks2 -> H2. by apply (Hmin (c :: ks1) ks2).
Qed.

Lemma length_line len ks : 0 <= len -> makes_line len ks -> Z.of_nat (length (foldl edit [] ks)) <= len.
Proof.
  intros Hlen [_ Hmin]. destruct ks as [|c ks _] using rev_ind; [done|]. rewrite foldl_app. cbn [foldl].
  pose proof (no_newline _ _ (Hmin ks [c] eq_refl ltac:(done))) as [Hl _]. set (l := foldl edit [] ks) in *. clearbody l. unfold edit. destruct (is_erase c); [rewrite length_take | rewrite length_app; cbn [length]]; lia.
Qed.

(** No control keys of the editor in a line. *)
Lemma line_clean ks : Forall (fun c => is_erase c = false /\ c <> 13) (foldl edit [] ks).
Proof.
  induction ks as [|c ks IH] using rev_ind; [done|]. rewrite foldl_app. cbn [foldl]. unfold edit at 1. destruct (is_erase c) eqn:E; [by apply Forall_take|].
  apply Forall_app. split; [done|]. apply Forall_singleton. by destruct (Z.eqb_spec c 13).
Qed.

(** C25: a canonical read returns the first line.  If the keys waiting in the ring buffer
    begin with [ks], which make up a line (up to the return key, or as many characters as
    the buffer holds), then the read returns after as many polls, whatever keys are struck
    meanwhile.  The buffer holds the edited line and nothing is stored past its end; the
    line has no erase or carriage-return character; the keys after the line stay in the
    ring in order. *)
Theorem canonical_read_first_line env len buf x ks r : con_ok x -> tty_canonical (g_termios x.1) = true -> 0 <= len ->
  queue_of x = ks ++ r -> Forall (fun c => 0 <= c) ks -> makes_line len ks -> (length ks <= length env)%nat ->
  let line := foldl edit [] ks in
  exists buf' env' y, con_read env len buf x = Some (Z.of_nat (length line), buf', env', y) /\
    line_in buf' line /\ Z.of_nat (length line) <= len /\ (forall i, len <= i -> rd buf' i = rd buf i) /\
    Forall (fun c => is_erase c = false /\ c <> 13) line /\
    con_ok y /\ exists extra, queue_of y = r ++ extra.
Proof.
  intros Hx Hcan Hlen Hq Hpos Hmk He line. pose proof (length_line len ks Hlen Hmk) as Hb. destruct Hmk as [Hc Hmin].
  pose proof (first_line_keys len ks [] [] Hc Hmin) as Hf. rewrite app_nil_r in Hf.
  pose proof (read_canonical_step env len [] buf ks r line [] x Hx Hq Hpos Hlen Hf He ltac:(by intros ? ?) ltac:(by apply not_elem_of_nil)) as H.
  apply runs_result in H as ([[got buf'] env'] & y & E & -> & Hl & Hs & extra & Hy & _ & Qy).
  exists buf', env', y. destruct x as [t s]. unfold con_read. cbn [fst] in Hcan. rewrite Hcan. split_and!; [exact E | done | done | done | apply line_clean | done |].
  by exists extra.
Qed.

(** "hx", erase, "i", return, and "l" of the next command, typed ahead. *)
Definition keys1 : list Z := [104; 120; 8; 105; 13].
Definition kbd1 : kbd := foldl (fun k c => buf_push c k) kbd0 (keys1 ++ [108]).
Definition reg1 : registry := keymap_init (mkReg (replicate 8 us_layout) 0 None).
Definition con1 : term * kern := (mkTerm kbd1 reg1 tty_init Vga.vga0, mkKern ∅ 0 0 0 0 0 1 0 0 0 ∅ []).

Lemma con1_ok : con_ok con1.
Proof.
  split; [eexists; reflexivity | exact Vga.vga0_wf | split; split; vm_compute; done |]. exists []. split; [done | apply NoDup_nil_2].
Qed.

Lemma keys1_line : makes_line 80 keys1.
Proof.
  split; [reflexivity|]. intros ks1 ks2 E H. unfold keys1 in E.
  do 5 (destruct ks1 as [|? ks1]; [reflexivity | injection E as <- E]). destruct ks1; [|done]. by destruct H.
Qed.

Lemma canonical_read_first_line_witness :
  exists buf' env' y, con_read (replicate 5 [0x26; 0xA6]) 80 ∅ con1 = Some (3, buf', env', y) /\ line_in buf' [104; 105; 10] /\ exists extra, queue_of y = [108] ++ extra.
Proof.
  destruct (canonical_read_first_line (replicate 5 [0x26; 0xA6]) 80 ∅ con1 keys1 [108] con1_ok) as (buf' & env' & y & E & Hl & _ & _ & _ & _ & Hq);
    [reflexivity | lia | vm_compute; reflexivity | repeat constructor; lia | exact keys1_line | cbn; lia |].
  exists buf', env', y. split; [exact E | split; [exact Hl | exact Hq]].
Defined.
End Console.
