(* ===== verification/Block.v ===== *)
(** * Block device layer (src/drivers/block/block.c)

    The registry of devices, the pool of request slots, the elevator queue and
    the synchronous [blk_rw].  The world a driver acts on is a type [W]; a
    driver is a function on it.  Queues are linked through the slots of the
    pool as in the code.  [ReliableDisk] is what the layers above rely on of a
    driver; the ATA driver implements it in Ata.v. *)
From stdpp Require Import sorting.
From S2P Require Import Prelude.

Module Block.

Definition BLK_MAX_DEVICES : Z := 4.
Definition BLK_NR_REQUEST : Z := 16.

Section Layer.
Context {W : Type}.

(** [blk_transfer_fn]: lba, count, buffer contents and direction; the status,
    the new buffer contents and the world after the transfer. *)
Definition blk_transfer_fn : Type := Z -> Z -> list Z -> bool -> W -> os_status * list Z * W.

Record block_device := mkDev {
  bd_name : Z;
  bd_sectors : Z;
  bd_transfer : option blk_transfer_fn;
  bd_registered : bool
}.

Record blk_request := mkReq {
  rq_dev : Z;
  rq_write : bool;
  rq_lba : Z;
  rq_count : Z;
  rq_buf : list Z;
  rq_status : os_status;
  rq_next : option nat;
  rq_in_use : bool
}.

Record blk := mkBlk {
  g_devices : list block_device;
  g_pool : list blk_request;
  g_queue : list (option nat);
  g_served : Z
}.

Definition empty_req : blk_request := mkReq 0 false 0 0 [] OS_OK None false.

(** [blk_init]; the registered devices are the list [g_devices], whose length
    is [g_dev_count]. *)
Definition blk_init : blk :=
  mkBlk [] (replicate (Z.to_nat BLK_NR_REQUEST) empty_req) (replicate (Z.to_nat BLK_MAX_DEVICES) None) 0.

Definition blk_device_count (b : blk) : Z := Z.of_nat (length (g_devices b)).

Definition blk_register (odev : option block_device) (b : blk) : Z * blk :=
  match odev with
  | None => (-1, b)
  | Some dev =>
      match bd_transfer dev with
      | None => (-1, b)
      | Some _ =>
          if BLK_MAX_DEVICES <=? blk_device_count b then (-1, b)
          else
            let id := blk_device_count b in
            let dev := mkDev (bd_name dev) (bd_sectors dev) (bd_transfer dev) true in
            (id, mkBlk (g_devices b ++ [dev]) (g_pool b) (g_queue b) (g_served b))
      end
  end.

Definition blk_get (devid : Z) (b : blk) : option block_device :=
  if (devid <? 0) || (blk_device_count b <=? devid) then None
  else g_devices b !! Z.to_nat devid.

Definition blk_requests_served (b : blk) : Z := g_served b.

Definition set_next (r : blk_request) (n : option nat) : blk_request :=
  mkReq (rq_dev r) (rq_write r) (rq_lba r) (rq_count r) (rq_buf r) (rq_status r) n (rq_in_use r).
Definition set_use (r : blk_request) (u : bool) : blk_request :=
  mkReq (rq_dev r) (rq_write r) (rq_lba r) (rq_count r) (rq_buf r) (rq_status r) None u.
Definition with_pool (b : blk) (p : list blk_request) : blk :=
  mkBlk (g_devices b) p (g_queue b) (g_served b).
Definition with_queue (b : blk) (q : list (option nat)) : blk :=
  mkBlk (g_devices b) (g_pool b) q (g_served b).

(** [_request_alloc]: the first slot not in use. *)
Fixpoint find_slot (pool : list blk_request) : option nat :=
  match pool with
  | [] => None
  | r :: pool => if rq_in_use r then S <$> find_slot pool else Some O
  end.

Definition request_alloc (b : blk) : option nat * blk :=
  match find_slot (g_pool b) with
  | Some i => (Some i, with_pool b (alter (fun r => set_use r true) i (g_pool b)))
  | None => (None, b)
  end.

(** [_request_free]. *)
Definition request_free (i : nat) (b : blk) : blk :=
  with_pool b (alter (fun r => set_use r false) i (g_pool b)).

(** [_elevator_insert].  [pp] is the link being looked at: [None] is
    [&g_queue[devid]] and [Some i] is the [next] of slot [i]. *)
Definition read_link (devid : nat) (pp : option nat) (b : blk) : option nat :=
  match pp with
  | None => default None (g_queue b !! devid)
  | Some i => match g_pool b !! i with Some r => rq_next r | None => None end
  end.

Definition write_link (devid : nat) (pp : option nat) (v : option nat) (b : blk) : blk :=
  match pp with
  | None => with_queue b (<[devid := v]> (g_queue b))
  | Some i => with_pool b (alter (fun r => set_next r v) i (g_pool b))
  end.

Definition lba_of (b : blk) (i : nat) : Z := match g_pool b !! i with Some r => rq_lba r | None => 0 end.

Fixpoint elevator_insert (fuel : nat) (devid : nat) (pp : option nat) (req : nat) (b : blk) : option blk :=
  match fuel with
  | O => None
  | S fuel =>
      match read_link devid pp b with
      | Some c =>
          if lba_of b c <=? lba_of b req then elevator_insert fuel devid (Some c) req b
          else Some (write_link devid pp (Some req) (write_link devid (Some req) (Some c) b))
      | None => Some (write_link devid pp (Some req) (write_link devid (Some req) None b))
      end
  end.

(** [_run_queue]. *)
Definition complete (st : os_status) (buf : list Z) (r : blk_request) : blk_request :=
  mkReq (rq_dev r) (rq_write r) (rq_lba r) (rq_count r) buf st (rq_next r) (rq_in_use r).

Fixpoint run_queue (fuel : nat) (devid : nat) (transfer : blk_transfer_fn) (b : blk) (w : W) : option (blk * W) :=
  match fuel with
  | O => None
  | S fuel =>
      match read_link devid None b with
      | None => Some (b, w)
      | Some i =>
          match g_pool b !! i with
          | None => None
          | Some r =>
              let b := with_queue b (<[devid := rq_next r]> (g_queue b)) in
              let '(st, buf, w) := transfer (rq_lba r) (rq_count r) (rq_buf r) (rq_write r) w in
              let b := with_pool b (alter (complete st buf) i (g_pool b)) in
              let b := mkBlk (g_devices b) (g_pool b) (g_queue b) (u32 (g_served b + 1)) in
              run_queue fuel devid transfer b w
          end
      end
  end.

(** Every queue fits the pool, so a walk takes at most one step per slot. *)
Definition QUEUE_FUEL : nat := S (Z.to_nat BLK_NR_REQUEST).

Definition fill_request (devid : Z) (write : bool) (lba count : Z) (buf : list Z) (r : blk_request) : blk_request :=
  mkReq devid write lba count buf OS_ERR_IO (rq_next r) (rq_in_use r).

(** [blk_rw].  A NULL buffer is [None]; the buffer contents after the call are
    part of the result. *)
Definition blk_rw (devid lba count : Z) (obuf : option (list Z)) (write : bool) (b : blk) (w : W) :
    option (os_status * option (list Z) * blk * W) :=
  if (devid <? 0) || (blk_device_count b <=? devid) then Some (OS_ERR_INVALID, obuf, b, w)
  else match obuf with
  | None => Some (OS_ERR_INVALID, obuf, b, w)
  | Some buf =>
    if count =? 0 then Some (OS_ERR_INVALID, obuf, b, w)
    else match g_devices b !! Z.to_nat devid with
    | None => Some (OS_ERR_NOT_FOUND, obuf, b, w)
    | Some dev =>
      match bd_transfer dev with
      | None => Some (OS_ERR_NOT_FOUND, obuf, b, w)
      | Some transfer =>
        if ctrue (bd_sectors dev) && (bd_sectors dev <? u32 (lba + count)) then Some (OS_ERR_RANGE, obuf, b, w)
        else
          match request_alloc b with
          | (None, b) => Some (OS_ERR_BUSY, obuf, b, w)
          | (Some i, b) =>
              let b := with_pool b (alter (fill_request devid write lba count buf) i (g_pool b)) in
              match elevator_insert QUEUE_FUEL (Z.to_nat devid) None i b with
              | None => None
              | Some b =>
                  match run_queue QUEUE_FUEL (Z.to_nat devid) transfer b w with
                  | None => None
                  | Some (b, w) =>
                      match g_pool b !! i with
                      | None => None
                      | Some r => Some (rq_status r, Some (rq_buf r), request_free i b, w)
                      end
                  end
              end
          end
      end
    end
  end.

(** ** Queues as lists of slots *)

Fixpoint qchain (pool : list blk_request) (h : option nat) (l : list nat) : Prop :=
  match l with
  | [] => h = None
  | i :: l => h = Some i /\ exists r, pool !! i = Some r /\ qchain pool (rq_next r) l
  end.

(** Elevator order on slots: after every queued request of no larger LBA. *)
Fixpoint elev (key : nat -> Z) (req : nat) (l : list nat) : list nat :=
  match l with
  | [] => [req]
  | c :: l => if key c <=? key req then c :: elev key req l else req :: c :: l
  end.

Lemma elev_perm key req l : elev key req l ≡ₚ req :: l.
Proof.
  induction l as [|c l IH]; simpl; [done|]. destruct (_ <=? _); [|done]. rewrite IH. apply Permutation_swap.
Qed.

Lemma elev_sorted key req l :
  StronglySorted (fun i j => key i <= key j) l -> StronglySorted (fun i j => key i <= key j) (elev key req l).
Proof.
  induction l as [|c l IH]; intros Hs; simpl; [by repeat constructor|].
  apply StronglySorted_inv in Hs as [Hs Hc]. destruct (Z.leb_spec (key c) (key req)).
  - constructor; [by apply IH|]. rewrite elev_perm. by constructor.
  - constructor; [by constructor|]. constructor; [lia|].
    eapply Forall_impl; [done|]. intros i Hi. simpl in Hi. lia.
Qed.

Lemma sorted_mono {A} (R R' : A -> A -> Prop) l : (forall x y, R x y -> R' x y) ->
  StronglySorted R l -> StronglySorted R' l.
Proof.
  intros HR. induction 1 as [|x l Hs IH Hx]; constructor; [done|]. eapply Forall_impl; [done|]. intros y. apply HR.
Qed.

Lemma qchain_frame pool pool' h l : (forall i, i ∈ l -> pool' !! i = pool !! i) ->
  qchain pool h l -> qchain pool' h l.
Proof.
  revert h. induction l as [|i l IH]; intros h Hf; simpl; [done|]. intros (-> & r & Hr & Hc).
  split; [done|]. exists r. rewrite Hf by set_solver. split; [done|]. apply IH; [|done].
  intros j Hj. apply Hf. set_solver.
Qed.

Lemma lba_set_next b i n j : lba_of (with_pool b (alter (fun r => set_next r n) i (g_pool b))) j = lba_of b j.
Proof.
  unfold lba_of. simpl. rewrite list_lookup_alter. destruct (decide (i = j)) as [->|]; [|done].
  by destruct (g_pool b !! j).
Qed.

(** What linking slots leaves alone: everything but [next] links of the slots
    [touched], and the head of the queue of [devid] when [pp] is that head. *)
Record relinked (devid : nat) (pp : option nat) (touched : list nat) (b b' : blk) : Prop := {
  rl_devices : g_devices b' = g_devices b;
  rl_served : g_served b' = g_served b;
  rl_queue_len : length (g_queue b') = length (g_queue b);
  rl_queue : forall d, d <> devid \/ pp <> None -> g_queue b' !! d = g_queue b !! d;
  rl_pool : forall i, (fun r => set_next r None) <$> g_pool b' !! i = (fun r => set_next r None) <$> g_pool b !! i;
  rl_others : forall i, i ∉ touched -> pp <> Some i -> g_pool b' !! i = g_pool b !! i
}.

Lemma relinked_lba devid pp l b b' i : relinked devid pp l b b' -> lba_of b' i = lba_of b i.
Proof.
  intros [_ _ _ _ Hp _]. specialize (Hp i). unfold lba_of.
  destruct (g_pool b' !! i) as [r'|], (g_pool b !! i) as [r|]; simpl in Hp; try done.
  apply (f_equal (fmap rq_lba)) in Hp. simpl in Hp. congruence.
Qed.

Lemma splice_spec devid pp req b l : NoDup (req :: l) -> (devid < length (g_queue b))%nat ->
  is_Some (g_pool b !! req) -> (forall p, pp = Some p -> (p ∉ req :: l) /\ is_Some (g_pool b !! p)) ->
  qchain (g_pool b) (read_link devid pp b) l ->
  let b' := write_link devid pp (Some req) (write_link devid (Some req) (read_link devid pp b) b) in
  qchain (g_pool b') (read_link devid pp b') (req :: l) /\ relinked devid pp [req] b b'.
Proof.
  intros [Hreq Hnd]%NoDup_cons Hd [rq Hrq] Hpp Hch b'. set (h := read_link devid pp b) in *.
  assert (Hpool : forall i, i <> req -> pp <> Some i -> g_pool b' !! i = g_pool b !! i).
  { intros i Hi Hpi. unfold b'. destruct pp as [p|]; simpl; rewrite ?list_lookup_alter_ne by congruence; done. }
  assert (Hr' : g_pool b' !! req = Some (set_next rq h)).
  { unfold b'. destruct pp as [p|]; simpl.
    - destruct (Hpp p eq_refl) as [Hp _]. rewrite list_lookup_alter_ne by set_solver.
      by rewrite list_lookup_alter_eq, Hrq.
    - by rewrite list_lookup_alter_eq, Hrq. }
  assert (Hhead : read_link devid pp b' = Some req).
  { unfold b'. destruct pp as [p|]; simpl.
    - destruct (Hpp p eq_refl) as [Hp [rp Hrp]]. rewrite list_lookup_alter_eq, list_lookup_alter_ne by set_solver.
      by rewrite Hrp.
    - by rewrite list_lookup_insert_eq by done. }
  split.
  - split; [done|]. exists (set_next rq h). split; [done|]. simpl.
    eapply qchain_frame; [|exact Hch]. intros i Hi. apply Hpool; [set_solver|].
    intros ->. destruct (Hpp i eq_refl). set_solver.
  - split; try (unfold b'; by destruct pp).
    + unfold b'. destruct pp; simpl; [done|]. by rewrite length_insert.
    + intros d Hdd. unfold b'. destruct pp; simpl; [done|]. rewrite list_lookup_insert_ne; [done|].
      destruct Hdd; congruence.
    + intros i. unfold b'. destruct pp as [p|]; simpl; rewrite !list_lookup_alter;
        repeat case_decide; subst; repeat (destruct (g_pool b !! _)); done.
    + intros i Hi Hpi. apply Hpool; [set_solver | done].
Qed.

Lemma elevator_insert_spec fuel devid pp req b l : (length l < fuel)%nat -> NoDup (req :: l) ->
  (devid < length (g_queue b))%nat -> is_Some (g_pool b !! req) ->
  (forall p, pp = Some p -> (p ∉ req :: l) /\ is_Some (g_pool b !! p)) ->
  qchain (g_pool b) (read_link devid pp b) l ->
  exists b', elevator_insert fuel devid pp req b = Some b' /\
    qchain (g_pool b') (read_link devid pp b') (elev (lba_of b) req l) /\
    relinked devid pp (req :: l) b b'.
Proof.
  revert fuel pp. induction l as [|c l IH]; intros [|fuel] pp Hf Hnd Hd Hrq Hpp Hch; simpl in Hf; try lia.
  - destruct (splice_spec devid pp req b [] Hnd Hd Hrq Hpp Hch) as [H1 H2]. simpl in Hch.
    rewrite Hch in H1, H2. cbn [elevator_insert]. rewrite Hch. eexists. done.
  - pose proof (splice_spec devid pp req b (c :: l) Hnd Hd Hrq Hpp Hch) as [H1 H2].
    destruct Hch as (Hc & rc & Hrc & Hch). rewrite Hc in H1, H2. cbn [elevator_insert elev]. rewrite Hc.
    destruct (Z.leb_spec (lba_of b c) (lba_of b req)) as [Hle|Hgt].
    + apply NoDup_cons in Hnd as [Hreq Hnd]. pose proof Hnd as [Hcl Hndl]%NoDup_cons.
      destruct (IH fuel (Some c)) as (b' & E & Hch' & Hrel).
      { lia. } { constructor; [set_solver|done]. } { done. } { done. }
      { intros p [= <-]. split; [set_solver|by eexists]. } { simpl. by rewrite Hrc. }
      exists b'. split; [done|]. destruct Hrel as [R1 R2 R3 R4 R5 R6]. split.
      * assert (read_link devid pp b' = Some c) as ->.
        { rewrite <- Hc. destruct pp as [p|]; simpl.
          - destruct (Hpp p eq_refl) as [Hp _]. rewrite R6; [done | set_solver | set_solver].
          - by rewrite R4 by (right; done). }
        split; [done|]. simpl in Hch'. destruct (g_pool b' !! c) as [rc'|] eqn:Erc; [by exists rc'|].
        exfalso. specialize (R5 c). by rewrite Erc, Hrc in R5.
      * split; try done.
        -- intros d Hdd. by rewrite R4 by (right; done).
        -- intros i Hi Hpi. apply R6; [set_solver | set_solver].
    + eexists. split; [reflexivity|]. split; [done|]. destruct H2 as [R1 R2 R3 R4 R5 R6]. split; try done.
      intros i Hi. apply R6. set_solver.
Qed.

(** The requests of the queue, executed front to back. *)
Definition serve (transfer : blk_transfer_fn) (pool : list blk_request) (w : W) (i : nat) : W :=
  match pool !! i with
  | Some r => (transfer (rq_lba r) (rq_count r) (rq_buf r) (rq_write r) w).2
  | None => w
  end.

Lemma serve_ext transfer pool pool' w l : (forall j, j ∈ l -> pool !! j = pool' !! j) ->
  foldl (serve transfer pool) w l = foldl (serve transfer pool') w l.
Proof.
  revert w. induction l as [|j l IH]; intros w Hp; cbn [foldl]; [done|].
  assert (serve transfer pool w j = serve transfer pool' w j) as ->.
  { unfold serve. by rewrite Hp by set_solver. }
  apply IH. intros k Hk. apply Hp. set_solver.
Qed.

Lemma run_queue_spec fuel devid transfer b w l : (length l < fuel)%nat -> NoDup l ->
  (devid < length (g_queue b))%nat -> qchain (g_pool b) (read_link devid None b) l ->
  exists b', run_queue fuel devid transfer b w = Some (b', foldl (serve transfer (g_pool b)) w l) /\
    read_link devid None b' = None /\ u32 (g_served b') = u32 (g_served b + Z.of_nat (length l)) /\
    g_devices b' = g_devices b /\ (forall d, d <> devid -> g_queue b' !! d = g_queue b !! d) /\
    (forall i, i ∉ l -> g_pool b' !! i = g_pool b !! i).
Proof.
  revert fuel b w. induction l as [|i l IH]; intros [|fuel] b w Hf Hnd Hd Hch; simpl in Hf; try lia.
  - cbn [run_queue]. rewrite Hch. exists b. simpl. by rewrite Z.add_0_r.
  - destruct Hch as (Hi & r & Hr & Hch). cbn [run_queue]. rewrite Hi, Hr. cbn [foldl].
    unfold serve at 2. rewrite Hr.
    destruct (transfer (rq_lba r) (rq_count r) (rq_buf r) (rq_write r) w) as [[st buf] w1]. simpl.
    apply NoDup_cons in Hnd as [Hil Hnd].
    set (b1 := mkBlk _ (alter _ _ _) _ _).
    assert (Hpool : forall j, j <> i -> g_pool b1 !! j = g_pool b !! j)
      by (intros j Hj; unfold b1; simpl; by rewrite list_lookup_alter_ne).
    destruct (IH fuel b1 w1) as (b' & E & Hq & Hs & Hdev & Hqo & Ho).
    { lia. } { done. } { simpl. by rewrite length_insert. }
    { simpl. rewrite list_lookup_insert_eq by done. simpl. eapply qchain_frame; [|exact Hch].
      intros j Hj. apply Hpool. intros ->. done. }
    exists b'. rewrite E. split_and!; [|done| |done| |].
    + rewrite (serve_ext transfer (g_pool b1) (g_pool b)); [done|].
      intros j Hj. apply Hpool. by intros ->.
    + rewrite Hs. simpl. rewrite Zplus_mod_idemp_l || (unfold u32; rewrite Zplus_mod_idemp_l). f_equal. lia.
    + intros d Hd'. rewrite Hqo by done. simpl. by rewrite list_lookup_insert_ne.
    + intros j Hj. rewrite Ho by set_solver. apply Hpool. set_solver.
Qed.

(** ** [blk_rw] between requests *)

Record idle (b : blk) : Prop := {
  id_pool : length (g_pool b) = Z.to_nat BLK_NR_REQUEST;
  id_free : Forall (fun r => rq_in_use r = false) (g_pool b);
  id_queue : g_queue b = replicate (Z.to_nat BLK_MAX_DEVICES) None;
  id_devices : (length (g_devices b) <= Z.to_nat BLK_MAX_DEVICES)%nat
}.

Lemma init_idle : idle blk_init.
Proof. split; simpl; try done; [repeat constructor | lia]. Qed.

Lemma run_one fuel devid transfer b w r rest : g_pool b = r :: rest -> (2 <= fuel)%nat ->
  (devid < length (g_queue b))%nat -> read_link devid None b = Some O -> rq_next r = None ->
  let '(st, buf, w') := transfer (rq_lba r) (rq_count r) (rq_buf r) (rq_write r) w in
  run_queue fuel devid transfer b w =
    Some (mkBlk (g_devices b) (complete st buf r :: rest) (<[devid := None]> (g_queue b)) (u32 (g_served b + 1)), w').
Proof.
  intros Hp Hf Hd Hl Hn. destruct fuel as [|[|fuel]]; try lia.
  destruct (transfer _ _ _ _ w) as [[st buf] w'] eqn:E.
  cbn [run_queue]. rewrite Hl, Hp. cbn [lookup list_lookup]. rewrite E. simpl. rewrite Hn, Hp. simpl.
  rewrite list_lookup_insert_eq by done. done.
Qed.

Lemma blk_rw_idle b devid lba count buf write w dev transfer st buf' w' : idle b ->
  0 <= devid -> g_devices b !! Z.to_nat devid = Some dev -> bd_transfer dev = Some transfer -> count <> 0 ->
  (bd_sectors dev = 0 \/ u32 (lba + count) <= bd_sectors dev) ->
  transfer lba count buf write w = (st, buf', w') ->
  exists b', blk_rw devid lba count (Some buf) write b w = Some (st, Some buf', b', w') /\
    idle b' /\ g_devices b' = g_devices b /\ g_served b' = u32 (g_served b + 1).
Proof.
  intros [Hpl Hfree Hq Hdev] Hd0 Hdev' Htr Hc Hrange Ht.
  pose proof (lookup_lt_Some _ _ _ Hdev') as Hlt.
  unfold blk_rw, blk_device_count.
  rewrite (proj2 (Z.ltb_ge devid 0)), (proj2 (Z.leb_gt (Z.of_nat (length (g_devices b))) devid)) by lia.
  cbn [orb]. rewrite (proj2 (Z.eqb_neq count 0)) by done. rewrite Hdev', Htr.
  replace (ctrue (bd_sectors dev) && (bd_sectors dev <? u32 (lba + count))) with false.
  2:{ symmetry. apply andb_false_iff. destruct Hrange as [->|Hr]; [by left | right; by apply Z.ltb_ge]. }
  destruct (g_pool b) as [|r0 rest] eqn:Ep; [done|].
  apply Forall_cons_iff in Hfree as [Hf0 Hfree].
  unfold request_alloc. rewrite Ep. cbn [find_slot]. rewrite Hf0. simpl g_pool.
  assert (Hqd : g_queue b !! Z.to_nat devid = Some None).
  { rewrite Hq. apply lookup_replicate. split; [done|]. unfold BLK_MAX_DEVICES in *. lia. }
  assert (Hql : (Z.to_nat devid < length (g_queue b))%nat).
  { rewrite Hq, length_replicate. unfold BLK_MAX_DEVICES in *. lia. }
  unfold with_pool at 1. cbn [alter list_alter].
  unfold QUEUE_FUEL at 1. cbn [elevator_insert read_link g_queue with_pool].
  rewrite Hqd. cbn [default id write_link with_queue with_pool g_queue g_pool g_devices g_served alter list_alter].
  match goal with |- context [run_queue _ _ _ ?bb w] => set (b1 := bb) end.
  pose proof (run_one QUEUE_FUEL (Z.to_nat devid) transfer b1 w
    (set_next (fill_request devid write lba count buf (set_use r0 true)) None) rest eq_refl) as Hrun.
  cbn [rq_lba rq_count rq_buf rq_write set_next fill_request] in Hrun. rewrite Ht in Hrun.
  rewrite Hrun; clear Hrun; [| unfold QUEUE_FUEL, BLK_NR_REQUEST; lia | unfold b1; simpl; by rewrite length_insert
    | unfold b1; simpl; by rewrite list_lookup_insert_eq | done].
  cbn [g_pool lookup list_lookup]. eexists. split; [reflexivity|]. split_and!; try done.
  split; simpl.
  - rewrite <- Hpl. done.
  - by constructor.
  - rewrite list_insert_insert_eq, list_insert_id by done. done.
  - done.
Qed.

(** C33: the elevator.  Inserting a request into a queue in ascending LBA order
    keeps that order, after the requests already there for the same LBA, and
    [_run_queue] then terminates having executed exactly the queued requests
    and the new one, in that order, with the queue empty and every request
    counted. *)
Theorem elevator_serves_in_lba_order devid req b l transfer w :
  StronglySorted (fun i j => lba_of b i <= lba_of b j) l -> NoDup (req :: l) ->
  (length l < Z.to_nat BLK_NR_REQUEST)%nat -> (devid < length (g_queue b))%nat -> is_Some (g_pool b !! req) ->
  qchain (g_pool b) (read_link devid None b) l ->
  exists b1 b2 order, elevator_insert QUEUE_FUEL devid None req b = Some b1 /\
    qchain (g_pool b1) (read_link devid None b1) order /\ order ≡ₚ req :: l /\
    StronglySorted (fun i j => lba_of b1 i <= lba_of b1 j) order /\
    run_queue QUEUE_FUEL devid transfer b1 w = Some (b2, foldl (serve transfer (g_pool b1)) w order) /\
    read_link devid None b2 = None /\ u32 (g_served b2) = u32 (g_served b + Z.of_nat (S (length l))).
Proof.
  intros Hs Hnd Hlen Hd Hreq Hch.
  destruct (elevator_insert_spec QUEUE_FUEL devid None req b l) as (b1 & E & Hch1 & Hrel); try done.
  { unfold QUEUE_FUEL. lia. }
  assert (Hlo : length (elev (lba_of b) req l) = S (length l)) by by rewrite elev_perm.
  destruct (run_queue_spec QUEUE_FUEL devid transfer b1 w (elev (lba_of b) req l)) as (b2 & E2 & Hq & Hsv & _).
  { unfold QUEUE_FUEL. lia. } { by rewrite elev_perm. } { by rewrite (rl_queue_len _ _ _ _ _ Hrel). } { done. }
  exists b1, b2, (elev (lba_of b) req l). split_and!; try done.
  - apply elev_perm.
  - eapply sorted_mono; [|by apply elev_sorted].
    intros i j. by rewrite !(relinked_lba _ _ _ _ _ _ Hrel).
  - rewrite Hsv, (rl_served _ _ _ _ _ Hrel), Hlo. done.
Qed.

(** [blk_rw] between requests.  On an idle layer every valid call performs
    exactly one driver transfer with the arguments given, returns the driver's
    status and data, and leaves the layer idle; the loops terminate. *)
Theorem blk_rw_one_transfer b devid lba count buf write w dev transfer : idle b ->
  0 <= devid -> g_devices b !! Z.to_nat devid = Some dev -> bd_transfer dev = Some transfer -> count <> 0 ->
  (bd_sectors dev = 0 \/ u32 (lba + count) <= bd_sectors dev) ->
  let '(st, buf', w') := transfer lba count buf write w in
  exists b', blk_rw devid lba count (Some buf) write b w = Some (st, Some buf', b', w') /\
    idle b' /\ g_devices b' = g_devices b /\ g_served b' = u32 (g_served b + 1).
Proof.
  intros. destruct (transfer lba count buf write w) as [[st buf'] w'] eqn:E. by eapply blk_rw_idle.
Qed.

(** the range check of [blk_rw] adds in 32 bits.  A request whose end
    wraps past [2^32] passes it and reaches the driver with an LBA far beyond
    the device. *)
Theorem blk_rw_range_check_wraps b devid lba count buf write w dev transfer : idle b ->
  0 <= devid -> g_devices b !! Z.to_nat devid = Some dev -> bd_transfer dev = Some transfer ->
  0 < count < 2 ^ 32 -> lba = 2 ^ 32 - count -> 0 < bd_sectors dev ->
  let '(st, buf', w') := transfer lba count buf write w in
  exists b', blk_rw devid lba count (Some buf) write b w = Some (st, Some buf', b', w').
Proof.
  intros Hi Hd Hdev Htr Hc -> Hs. destruct (transfer (2 ^ 32 - count) count buf write w) as [[st buf'] w'] eqn:E.
  destruct (blk_rw_idle b devid (2 ^ 32 - count) count buf write w dev transfer st buf' w') as (b' & E' & _);
    try done; [lia| |by exists b'].
  right. replace (2 ^ 32 - count + count) with (2 ^ 32) by lia. change (u32 (2 ^ 32)) with 0. lia.
Qed.

End Layer.
Arguments blk_transfer_fn : clear implicits.
Arguments block_device : clear implicits.
Arguments blk_request : clear implicits.
Arguments blk : clear implicits.

(** ** Reliable disks *)

(** What a working disk of [limit] sectors promises of its transfer function:
    between transfers it is [disk_ready]. *)
Class ReliableDisk {W : Type} (transfer : blk_transfer_fn W) (limit : Z) := {
  disk_ready : W -> Prop;
  sector : W -> Z -> list Z;
  sector_length w i : length (sector w i) = 512%nat;
  disk_read lba count buf w : disk_ready w -> 0 <= lba -> 0 < count -> lba + count <= limit ->
    Z.of_nat (length buf) = 512 * count ->
    exists w', transfer lba count buf false w = (OS_OK, seqZ lba count ≫= sector w, w') /\ disk_ready w' /\
               forall i, sector w' i = sector w i;
  disk_write lba count buf w : disk_ready w -> 0 <= lba -> 0 < count -> lba + count <= limit ->
    Z.of_nat (length buf) = 512 * count ->
    exists w', transfer lba count buf true w = (OS_OK, buf, w') /\ disk_ready w' /\
      forall i, sector w' i = if decide (lba <= i < lba + count)
                             then take 512 (drop (Z.to_nat (512 * (i - lba))) buf) else sector w i
}.

(** ** A RAM disk, as a concrete reliable disk *)

Module Ram.
Abbreviation store := (gmap Z (list Z)).

Definition blank : list Z := replicate 512 0.

Definition read_sector (w : store) (i : Z) : list Z :=
  match w !! i with
  | Some s => if bool_decide (length s = 512%nat) then s else blank
  | None => blank
  end.

Definition write_sectors (lba count : Z) (buf : list Z) (w : store) : store :=
  for_up 0 count (fun k w => <[lba + k := take 512 (drop (Z.to_nat (512 * k)) buf)]> w) w.

Definition transfer : blk_transfer_fn store := fun lba count buf write w =>
  if write then (OS_OK, buf, write_sectors lba count buf w)
  else (OS_OK, seqZ lba count ≫= read_sector w, w).

Lemma read_sector_length w i : length (read_sector w i) = 512%nat.
Proof.
  unfold read_sector. destruct (w !! i) as [s|]; [|done].
  destruct (bool_decide _) eqn:E; [by apply bool_decide_eq_true in E | done].
Qed.

Lemma read_write_sectors lba count buf w i : 0 <= lba -> 0 < count -> Z.of_nat (length buf) = 512 * count ->
  read_sector (write_sectors lba count buf w) i =
  if decide (lba <= i < lba + count) then take 512 (drop (Z.to_nat (512 * (i - lba))) buf) else read_sector w i.
Proof.
  intros Hl Hc Hlen. unfold write_sectors.
  pose proof (for_up_ind (fun k w' => read_sector w' i =
     if decide (lba <= i < lba + k) then take 512 (drop (Z.to_nat (512 * (i - lba))) buf) else read_sector w i)
     0 count (fun k w => <[lba + k := take 512 (drop (Z.to_nat (512 * k)) buf)]> w) w) as H.
  cbv beta in H. rewrite Z.max_r in H by lia. apply H; [by rewrite decide_False by lia|].
  intros k w' Hk IH. unfold read_sector at 1. destruct (decide (lba + k = i)) as [<-|Hne].
  - rewrite lookup_insert_eq, bool_decide_eq_true_2 by (rewrite length_take, length_drop; lia).
    rewrite decide_True by lia. by replace (lba + k - lba) with k by lia.
  - rewrite lookup_insert_ne by done. fold (read_sector w' i). rewrite IH.
    destruct (decide (lba <= i < lba + k)), (decide (lba <= i < lba + (k + 1))); lia || done.
Qed.

#[export] Instance ram_reliable limit : ReliableDisk transfer limit.
Proof.
  refine {| disk_ready := fun _ => True; sector := read_sector; sector_length := read_sector_length |}.
  - intros lba count buf w _ _ _ _ _. by exists w.
  - intros lba count buf w _ Hl Hc _ Hlen. exists (write_sectors lba count buf w). split_and!; [done | done |].
    intros i. by apply read_write_sectors.
Defined.

(** A block layer with one RAM disk of 64 sectors. *)
Definition dev : block_device store := mkDev 0 64 (Some transfer) false.
Definition layer : blk store := (blk_register (Some dev) blk_init).2.
End Ram.

Lemma ram_idle : idle Ram.layer.
Proof. split; [done | by apply Forall_replicate | done | vm_compute; lia]. Qed.

Lemma blk_rw_one_transfer_witness :
  exists b', blk_rw 0 3 1 (Some Ram.blank) true Ram.layer ∅ =
    Some (OS_OK, Some Ram.blank, b', Ram.write_sectors 3 1 Ram.blank ∅).
Proof.
  destruct (blk_rw_one_transfer Ram.layer 0 3 1 Ram.blank true ∅ (mkDev 0 64 (Some Ram.transfer) true) Ram.transfer
    ram_idle ltac:(lia) eq_refl eq_refl ltac:(lia) ltac:(right; vm_compute; discriminate)) as (b' & E & _).
  exists b'. exact E.
Defined.

Lemma blk_rw_range_check_wraps_witness :
  exists b', blk_rw 0 (2 ^ 32 - 1) 1 (Some Ram.blank) true Ram.layer ∅ =
    Some (OS_OK, Some Ram.blank, b', Ram.write_sectors (2 ^ 32 - 1) 1 Ram.blank ∅).
Proof.
  exact (blk_rw_range_check_wraps Ram.layer 0 (2 ^ 32 - 1) 1 Ram.blank true ∅
    (mkDev 0 64 (Some Ram.transfer) true) Ram.transfer
    ram_idle ltac:(lia) eq_refl eq_refl ltac:(lia) eq_refl ltac:(simpl; lia)).
Defined.

(** Three requests queued at LBAs 5, 9 and 7. *)
Definition demo_req (lba : Z) (next : option nat) : blk_request :=
  mkReq 0 true lba 1 Ram.blank OS_ERR_IO next true.
Definition demo_queue : blk Ram.store :=
  mkBlk (g_devices Ram.layer) [demo_req 5 (Some 1%nat); demo_req 9 None; demo_req 7 None] [Some O; None; None; None] 0.

Lemma elevator_serves_in_lba_order_witness :
  exists b1 order, elevator_insert QUEUE_FUEL 0 None 2 demo_queue = Some b1 /\
    qchain (g_pool b1) (read_link 0 None b1) order /\ order ≡ₚ [2; 0; 1]%nat.
Proof.
  destruct (elevator_serves_in_lba_order 0 2 demo_queue [0; 1]%nat Ram.transfer ∅)
    as (b1 & b2 & order & E & Hc & Hp & _).
  - repeat constructor; vm_compute; discriminate.
  - apply (bool_decide_unpack _). vm_compute. exact I.
  - vm_compute. lia.
  - simpl. lia.
  - exists (demo_req 7 None). reflexivity.
  - simpl. split; [reflexivity|]. eexists. split; [reflexivity|]. split; [reflexivity|]. eexists. split; reflexivity.
  - exists b1, order. split; [exact E|]. split; [exact Hc | exact Hp].
Defined.

End Block.
