(* ===== verification/Ata.v ===== *)
(** * ATA PIO driver (src/drivers/ata.c)

    The driver talks to a disk through I/O ports, so its state is the device:
    a type [D] with the port operations of the class [Ports].  The routines
    are written against [Ports] alone.  [AtaDisk] states the documented
    behaviour of an ATA drive in PIO mode, as a view of the device (task-file
    registers, phase of the current command, sectors) and the effect of every
    port operation on it.  Against that interface the driver is shown to
    implement [Block.ReliableDisk], which the block layer and the buffer cache
    are built on.  [Sim] is a simulated drive that implements the interface. *)
From S2P Require Import Prelude Block.
Import Block.

Module Ata.

(** The port instructions (src/kernel/hal/ports.h).  The 16-bit accesses move
    two bytes, low byte first, as they are stored in memory. *)
Class Ports (D : Type) := {
  inb : Z -> D -> Z * D;
  outb : Z -> Z -> D -> D;
  inw : Z -> D -> (Z * Z) * D;
  outw : Z -> Z * Z -> D -> D
}.

Abbreviation ATA_PRIMARY := 0.
Abbreviation ATA_SECONDARY := 1.
Abbreviation ATA_MASTER := 0.
Abbreviation ATA_SLAVE := 1.
Abbreviation ATA_PRIMARY_BASE := 0x1F0.
Abbreviation ATA_SECONDARY_BASE := 0x170.
Abbreviation ATA_DATA base := (base + 0).
Abbreviation ATA_ERROR base := (base + 1).
Abbreviation ATA_COUNT base := (base + 2).
Abbreviation ATA_LBA_LO base := (base + 3).
Abbreviation ATA_LBA_MID base := (base + 4).
Abbreviation ATA_LBA_HI base := (base + 5).
Abbreviation ATA_DRIVE base := (base + 6).
Abbreviation ATA_STATUS base := (base + 7).
Abbreviation ATA_BSY := 0x80.
Abbreviation ATA_DRDY := 0x40.
Abbreviation ATA_DRQ := 0x08.
Abbreviation ATA_ERR := 0x01.
Abbreviation ATA_CMD_READ := 0x20.
Abbreviation ATA_CMD_WRITE := 0x30.
Abbreviation ATA_CMD_IDENTIFY := 0xEC.

(** Word [k] of a buffer of bytes, as the bytes and as a [uint16_t]. *)
Definition get_word (k : Z) (buf : list Z) : Z * Z :=
  (nth (Z.to_nat (2 * k)) buf 0, nth (Z.to_nat (2 * k + 1)) buf 0).
Definition set_word (k : Z) (w : Z * Z) (buf : list Z) : list Z :=
  <[Z.to_nat (2 * k) := w.1]> (<[Z.to_nat (2 * k + 1) := w.2]> buf).
Definition word_val (k : Z) (buf : list Z) : Z :=
  let '(lo, hi) := get_word k buf in lo + 256 * hi.

(** The drive behind the block device: [g_blk_bus] and [g_blk_drive]. *)
Record blk_drive := mkBD { g_blk_bus : Z; g_blk_drive : Z }.
Definition blk_drive0 : blk_drive := mkBD ATA_PRIMARY ATA_SLAVE.
Definition ata_set_block_drive (bus drive : Z) (g : blk_drive) : blk_drive := mkBD bus drive.

(** The rounds of the polling loops. *)
Definition POLLS : nat := Z.to_nat 1000000.

Section Driver.
Context {D : Type} `{!Ports D}.

Definition io_delay (d : D) : D := outb 0x80 0 d.
Definition io_delays (d : D) : D := for_up 0 4 (fun _ => io_delay) d.

Fixpoint timeout_loop (n : nat) (base : Z) (d : D) : bool * D :=
  match n with
  | O => (false, d)
  | S n =>
      let '(st, d) := inb (ATA_STATUS base) d in
      if ctrue (Z.land st ATA_BSY) then timeout_loop n base (io_delay d)
      else if ctrue (Z.land st ATA_DRDY) then (true, d)
      else if ctrue (Z.land st ATA_ERR) then (false, d)
      else timeout_loop n base (io_delay d)
  end.
Definition timeout (base : Z) (d : D) : bool * D := timeout_loop POLLS base d.

Fixpoint wait_drq_loop (n : nat) (base : Z) (d : D) : bool * D :=
  match n with
  | O => (false, d)
  | S n =>
      let '(st, d) := inb (ATA_STATUS base) d in
      if ctrue (Z.land st ATA_ERR) then (false, d)
      else if ctrue (Z.land st ATA_DRQ) then (true, d)
      else wait_drq_loop n base (io_delay d)
  end.
Definition wait_drq (base : Z) (d : D) : bool * D := wait_drq_loop POLLS base d.

Definition ata_base (bus : Z) : Z := if bus =? ATA_PRIMARY then ATA_PRIMARY_BASE else ATA_SECONDARY_BASE.

Definition ata_init (bus drive : Z) (d : D) : os_status * D :=
  let base := ata_base bus in
  let drv := u8 (Z.lor 0xA0 (u8 (Z.shiftl drive 4))) in
  let d := io_delays (outb (ATA_DRIVE base) drv d) in
  let '(ok, d) := timeout base d in
  (if ok then OS_OK else OS_ERR_NOT_FOUND, d).

(** The part [ata_read] and [ata_write] share: select the drive, wait for it
    and load the task file. *)
Definition drv_lba (drive lba : Z) : Z :=
  u8 (Z.lor (Z.lor 0xE0 (u8 (Z.shiftl drive 4))) (u8 (Z.land (Z.shiftr lba 24) 0x0F))).
Definition load_regs (base lba count : Z) (d : D) : D :=
  let d := outb (ATA_ERROR base) 0 d in
  let d := outb (ATA_COUNT base) count d in
  let d := outb (ATA_LBA_LO base) (u8 (Z.land lba 0xFF)) d in
  let d := outb (ATA_LBA_MID base) (u8 (Z.land (Z.shiftr lba 8) 0xFF)) d in
  outb (ATA_LBA_HI base) (u8 (Z.land (Z.shiftr lba 16) 0xFF)) d.
Definition load_task (base drive lba count : Z) (d : D) : bool * D :=
  let d := io_delays (outb (ATA_DRIVE base) (drv_lba drive lba) d) in
  let '(ok, d) := timeout base d in
  if negb ok then (false, d) else (true, load_regs base lba count d).

(** One sector into, or from, the words of the buffer. *)
Definition read_words (base s : Z) (buf : list Z) (d : D) : list Z * D :=
  for_up 0 256 (fun i '(buf, d) =>
    let '(w, d) := inw (ATA_DATA base) d in (set_word (s * 256 + i) w buf, d)) (buf, d).
Definition write_words (base s : Z) (buf : list Z) (d : D) : D :=
  for_up 0 256 (fun i d => outw (ATA_DATA base) (get_word (s * 256 + i) buf) d) d.

Fixpoint read_sectors (n : nat) (base s : Z) (buf : list Z) (d : D) : os_status * list Z * D :=
  match n with
  | O => (OS_OK, buf, d)
  | S n =>
      let '(ok, d) := wait_drq base d in
      if negb ok then (OS_ERR_IO, buf, d)
      else let '(buf, d) := read_words base s buf d in read_sectors n base (u8 (s + 1)) buf d
  end.
Fixpoint write_sectors (n : nat) (base s : Z) (buf : list Z) (d : D) : os_status * D :=
  match n with
  | O => (OS_OK, d)
  | S n =>
      let '(ok, d) := wait_drq base d in
      if negb ok then (OS_ERR_IO, d)
      else write_sectors n base (u8 (s + 1)) buf (write_words base s buf d)
  end.

(** [ata_read]; a [NULL] buffer is [None]. *)
Definition ata_read (bus drive lba count : Z) (obuf : option (list Z)) (d : D) : os_status * list Z * D :=
  match obuf with
  | None => (OS_ERR_INVALID, [], d)
  | Some buf =>
      if count =? 0 then (OS_ERR_INVALID, buf, d)
      else
        let base := ata_base bus in
        let '(ok, d) := load_task base drive lba count d in
        if negb ok then (OS_ERR_IO, buf, d)
        else read_sectors (Z.to_nat count) base 0 buf (outb (ATA_STATUS base) ATA_CMD_READ d)
  end.

Definition ata_write (bus drive lba count : Z) (obuf : option (list Z)) (d : D) : os_status * D :=
  match obuf with
  | None => (OS_ERR_INVALID, d)
  | Some buf =>
      if count =? 0 then (OS_ERR_INVALID, d)
      else
        let base := ata_base bus in
        let '(ok, d) := load_task base drive lba count d in
        if negb ok then (OS_ERR_IO, d)
        else write_sectors (Z.to_nat count) base 0 buf (outb (ATA_STATUS base) ATA_CMD_WRITE d)
  end.

(** [_ata_identify_sectors]; [id] is filled before it is read. *)
Definition ata_identify_sectors (g : blk_drive) (d : D) : Z * D :=
  let base := if g_blk_bus g =? ATA_SECONDARY then ATA_SECONDARY_BASE else ATA_PRIMARY_BASE in
  let d := outb (ATA_DRIVE base) (if g_blk_drive g =? ATA_SLAVE then 0xB0 else 0xA0) d in
  let d := io_delays d in
  let d := outb (ATA_COUNT base) 0 d in
  let d := outb (ATA_LBA_LO base) 0 d in
  let d := outb (ATA_LBA_MID base) 0 d in
  let d := outb (ATA_LBA_HI base) 0 d in
  let d := outb (ATA_STATUS base) ATA_CMD_IDENTIFY d in
  let '(st, d) := inb (ATA_STATUS base) d in
  if st =? 0 then (0, d)
  else
    let '(ok, d) := wait_drq base d in
    if negb ok then (0, d)
    else
      let '(id, d) := read_words base 0 (replicate 512 0) d in
      (Z.lor (u32 (Z.shiftl (word_val 61 id) 16)) (word_val 60 id), d).

(** The PIO routine a round of [_ata_transfer] calls. *)
Definition ata_pio (g : blk_drive) (lba chunk : Z) (p : list Z) (write : bool) (d : D) : os_status * list Z * D :=
  if write then
    let '(s, d) := ata_write (g_blk_bus g) (g_blk_drive g) lba (u8 chunk) (Some p) d in (s, p, d)
  else ata_read (g_blk_bus g) (g_blk_drive g) lba (u8 chunk) (Some p) d.

(** The loop of [_ata_transfer]; [p] is the part of the buffer not yet
    transferred. *)
Fixpoint ata_transfer_loop (g : blk_drive) (fuel : nat) (lba count : Z) (p : list Z) (write : bool) (d : D) :
    os_status * list Z * D :=
  match fuel with
  | O => (OS_OK, p, d)
  | S fuel =>
      if 0 <? count then
        let chunk := if 255 <? count then 255 else count in
        let n := Z.to_nat (512 * chunk) in
        let '(s, b, d) := ata_pio g lba chunk (take n p) write d in
        if bool_decide (s <> OS_OK) then (s, b ++ drop n p, d)
        else
          let '(s, rest, d) := ata_transfer_loop g fuel (u32 (lba + chunk)) (count - chunk) (drop n p) write d in
          (s, b ++ rest, d)
      else (OS_OK, p, d)
  end.

(** [_ata_transfer]; every round transfers at least one sector. *)
Definition ata_transfer (g : blk_drive) : blk_transfer_fn D := fun lba count buf write d =>
  ata_transfer_loop g (Z.to_nat count) lba count buf write d.

(** [ata_register_block] with [g_ata_blkdev]. *)
Definition ata_register_block (g : blk_drive) (b : blk D) (d : D) : Z * blk D * D :=
  let '(sectors, d) := ata_identify_sectors g d in
  let '(id, b) := blk_register (Some (mkDev 0 sectors (Some (ata_transfer g)) false)) b in
  (id, b, d).
End Driver.

(** ** What an ATA drive promises *)

(** The command in progress: the bytes the host has still to read, or the
    next sector to store, how many are still to come and the bytes received
    of it. *)
Inductive phase := Idle | DataIn (q : list Z) | DataOut (lba : Z) (n : nat) (got : list Z).

Record view := mkView { v_sel : Z; v_cnt : Z; v_lo : Z; v_mid : Z; v_hi : Z; v_phase : phase }.

Definition set_reg (r v : Z) (w : view) : view :=
  let '(mkView sel cnt lo mid hi ph) := w in
  if r =? 6 then mkView v cnt lo mid hi ph
  else if r =? 5 then mkView sel cnt lo mid v ph
  else if r =? 4 then mkView sel cnt lo v hi ph
  else if r =? 3 then mkView sel cnt v mid hi ph
  else if r =? 2 then mkView sel v lo mid hi ph
  else w.
Definition set_phase (ph : phase) (w : view) : view := mkView (v_sel w) (v_cnt w) (v_lo w) (v_mid w) (v_hi w) ph.

Definition selects (slave : bool) (w : view) : Prop := Z.testbit (v_sel w) 4 = slave.
Definition lba_mode (w : view) : Prop := Z.testbit (v_sel w) 6 = true.
Definition v_lba (w : view) : Z := v_lo w + 2 ^ 8 * v_mid w + 2 ^ 16 * v_hi w + 2 ^ 24 * (v_sel w `mod` 16).
Definition v_count (w : view) : Z := if v_cnt w =? 0 then 256 else v_cnt w.

Definition sending (q : list Z) : phase := match q with [] => Idle | _ => DataIn q end.

(** After two more bytes of sector [lba]; a full sector ends the sector, and
    the last one the command. *)
Definition receiving (lba : Z) (n : nat) (got : list Z) : phase :=
  if bool_decide (length got = 512%nat) then
    match n with S (S n) => DataOut (lba + 1) (S n) [] | _ => Idle end
  else DataOut lba n got.

(** The drive at port [base], as master or slave, with [limit] sectors.  For
    [busy] more status reads it reports BSY, and then neither ERR nor DRQ;
    the polls it needs are fewer than the driver allows.  The drive-select
    register can be written whenever no command is in progress; the other
    registers and the data port when the drive is not busy. *)
Class AtaDisk (D : Type) `{!Ports D} (base : Z) (slave : bool) (limit : Z) := {
  vw : D -> view;
  busy : D -> nat;
  sect : D -> Z -> list Z;
  ident : list Z;
  sect_length d i : length (sect d i) = 512%nat;
  busy_bound d : (busy d < POLLS)%nat;
  ident_length : length ident = 512%nat;
  ident_limit : Z.lor (u32 (Z.shiftl (word_val 61 ident) 16)) (word_val 60 ident) = limit;
  on_delay d : let d' := outb 0x80 0 d in vw d' = vw d /\ busy d' = busy d /\ forall i, sect d' i = sect d i;
  on_reg r v d : 1 <= r <= 6 -> r = 6 \/ busy d = 0%nat -> v_phase (vw d) = Idle ->
    let d' := outb (base + r) v d in
    vw d' = set_reg r v (vw d) /\ (busy d' <= busy d)%nat /\ forall i, sect d' i = sect d i;
  on_status d : selects slave (vw d) ->
    let '(st, d') := inb (base + 7) d in
    vw d' = vw d /\ (forall i, sect d' i = sect d i) /\ busy d' = pred (busy d) /\
    ctrue (Z.land st ATA_BSY) = (0 <? Z.of_nat (busy d)) /\ ctrue (Z.land st ATA_ERR) = false /\
    (busy d <> 0%nat -> ctrue (Z.land st ATA_DRQ) = false) /\
    (busy d = 0%nat -> ctrue (Z.land st ATA_DRDY) = true /\
       (v_phase (vw d) <> Idle -> ctrue (Z.land st ATA_DRQ) = true));
  on_read d : selects slave (vw d) -> lba_mode (vw d) -> busy d = 0%nat -> v_phase (vw d) = Idle ->
    v_lba (vw d) + v_count (vw d) <= limit ->
    let d' := outb (base + 7) ATA_CMD_READ d in
    vw d' = set_phase (DataIn (seqZ (v_lba (vw d)) (v_count (vw d)) ≫= sect d)) (vw d) /\
    forall i, sect d' i = sect d i;
  on_write d : selects slave (vw d) -> lba_mode (vw d) -> busy d = 0%nat -> v_phase (vw d) = Idle ->
    v_lba (vw d) + v_count (vw d) <= limit ->
    let d' := outb (base + 7) ATA_CMD_WRITE d in
    vw d' = set_phase (DataOut (v_lba (vw d)) (Z.to_nat (v_count (vw d))) []) (vw d) /\
    forall i, sect d' i = sect d i;
  on_identify d : selects slave (vw d) -> busy d = 0%nat -> v_phase (vw d) = Idle ->
    let d' := outb (base + 7) ATA_CMD_IDENTIFY d in
    vw d' = set_phase (DataIn ident) (vw d) /\ forall i, sect d' i = sect d i;
  on_data_in d lo hi q : selects slave (vw d) -> busy d = 0%nat -> v_phase (vw d) = DataIn (lo :: hi :: q) ->
    exists d', inw (base + 0) d = ((lo, hi), d') /\ vw d' = set_phase (sending q) (vw d) /\
      (forall i, sect d' i = sect d i) /\ (Z.of_nat (length q) mod 512 <> 0 -> busy d' = 0%nat);
  on_data_out d lba n got lo hi : selects slave (vw d) -> busy d = 0%nat -> v_phase (vw d) = DataOut lba n got ->
    let got' := got ++ [lo; hi] in
    let d' := outw (base + 0) (lo, hi) d in
    vw d' = set_phase (receiving lba n got') (vw d) /\
    (forall i, sect d' i = if decide (i = lba /\ length got' = 512%nat) then got' else sect d i) /\
    (length got' <> 512%nat -> busy d' = 0%nat)
}.

(** ** The driver on such a drive *)

(** The drive byte: LBA mode, the drive bit and the top four bits of the
    address. *)
Lemma drv_lba_bits drive lba : drive = ATA_MASTER \/ drive = ATA_SLAVE -> 0 <= lba < 2 ^ 28 ->
  Z.testbit (drv_lba drive lba) 4 = (drive =? ATA_SLAVE) /\ Z.testbit (drv_lba drive lba) 6 = true /\
  drv_lba drive lba mod 16 = lba / 2 ^ 24.
Proof.
  intros Hdrive Hl. unfold drv_lba. assert (0 <= lba / 2 ^ 24 < 16) as Hq.
  { split; [apply Z.div_pos; lia | apply Z.div_lt_upper_bound; lia]. }
  rewrite Z.shiftr_div_pow2 by lia. generalize dependent (lba / 2 ^ 24). intros q Hq.
  set (f := fun dr q => let x := u8 (Z.lor (Z.lor 0xE0 (u8 (Z.shiftl dr 4))) (u8 (Z.land q 0x0F))) in
    Bool.eqb (Z.testbit x 4) (dr =? 1) && Z.testbit x 6 && (x mod 16 =? q)).
  assert (Hall : forallb (f 0) (seqZ 0 16) && forallb (f 1) (seqZ 0 16) = true) by (vm_compute; reflexivity).
  apply andb_prop in Hall as [H0 H1]. rewrite forallb_forall in H0, H1.
  assert (Hf : f drive q = true).
  { destruct Hdrive as [-> | ->]; [apply H0 | apply H1]; apply list_elem_of_In, elem_of_seqZ; lia. }
  unfold f in Hf. apply andb_prop in Hf as [[H4 H6]%andb_prop Hm].
  apply Bool.eqb_prop in H4. apply Z.eqb_eq in Hm. done.
Qed.

Lemma lba_bytes lba : 0 <= lba ->
  u8 (Z.land lba 255) + 2 ^ 8 * u8 (Z.land (Z.shiftr lba 8) 255) + 2 ^ 16 * u8 (Z.land (Z.shiftr lba 16) 255) +
  2 ^ 24 * (lba / 2 ^ 24) = lba.
Proof.
  intros Hl. assert (Hb : forall x, u8 (Z.land x 255) = x mod 2 ^ 8).
  { intros x. change 255 with (Z.ones 8). rewrite Z.land_ones by lia. apply u8_id, Z.mod_pos_bound. lia. }
  rewrite !Hb, !Z.shiftr_div_pow2 by lia.
  pose proof (Z.div_mod lba (2 ^ 8) ltac:(lia)). pose proof (Z.div_mod (lba / 2 ^ 8) (2 ^ 8) ltac:(lia)).
  pose proof (Z.div_mod (lba / 2 ^ 16) (2 ^ 8) ltac:(lia)).
  assert (lba / 2 ^ 16 = lba / 2 ^ 8 / 2 ^ 8) by (by rewrite Z.div_div).
  assert (lba / 2 ^ 24 = lba / 2 ^ 16 / 2 ^ 8) by (by rewrite Z.div_div). lia.
Qed.

Lemma insert_middle {A} (pre : list A) (x y : A) r : <[length pre := y]> (pre ++ x :: r) = pre ++ y :: r.
Proof. rewrite insert_app_r_alt by lia. by rewrite Nat.sub_diag. Qed.

(** Storing word [k] of a sector after its first [k] words. *)
Lemma set_word_step (buf q q' : list Z) s k lo hi : 0 <= s -> 0 <= k -> 512 * s + 2 * k + 2 <= Z.of_nat (length buf) ->
  drop (Z.to_nat (2 * k)) q = lo :: hi :: q' ->
  set_word (s * 256 + k) (lo, hi)
    (take (Z.to_nat (512 * s)) buf ++ take (Z.to_nat (2 * k)) q ++ drop (Z.to_nat (512 * s + 2 * k)) buf) =
  take (Z.to_nat (512 * s)) buf ++ take (Z.to_nat (2 * (k + 1))) q ++ drop (Z.to_nat (512 * s + 2 * (k + 1))) buf.
Proof.
  intros Hs Hk Hlen Hq.
  pose proof (f_equal length Hq) as Hl. rewrite length_drop in Hl. simpl in Hl.
  destruct (drop (Z.to_nat (512 * s + 2 * k)) buf) as [|x [|y r]] eqn:Ed;
    [apply (f_equal length) in Ed; rewrite length_drop in Ed; simpl in Ed; lia
    |apply (f_equal length) in Ed; rewrite length_drop in Ed; simpl in Ed; lia|].
  replace (drop (Z.to_nat (512 * s + 2 * (k + 1))) buf) with r.
  2:{ replace (Z.to_nat (512 * s + 2 * (k + 1))) with (Z.to_nat (512 * s + 2 * k) + 2)%nat by lia.
      by rewrite <- drop_drop, Ed. }
  replace (take (Z.to_nat (2 * (k + 1))) q) with (take (Z.to_nat (2 * k)) q ++ [lo; hi]).
  2:{ replace (Z.to_nat (2 * (k + 1))) with (Z.to_nat (2 * k) + 2)%nat by lia.
      by rewrite <- take_take_drop, Hq. }
  rewrite <- !app_assoc, !(app_assoc (take _ buf)). set (pre := take _ buf ++ take _ q).
  assert (length pre = Z.to_nat (2 * (s * 256 + k))) as Hp
    by (unfold pre; rewrite length_app, !length_take; lia).
  unfold set_word. simpl. rewrite <- Hp.
  replace (Z.to_nat (2 * (s * 256 + k) + 1)) with (length (pre ++ [x])) by (rewrite length_app; cbn [length]; lia).
  change (pre ++ x :: y :: r) with (pre ++ [x] ++ y :: r). rewrite app_assoc, insert_middle, <- app_assoc.
  apply insert_middle.
Qed.

Lemma mod_multiple_apart n a m : 0 < m -> n mod m = 0 -> 0 < a < m -> (n - a) mod m <> 0.
Proof.
  intros Hm Hn Ha H. rewrite Zminus_mod, Hn, (Z.mod_small a) in H by lia.
  rewrite <- (Z_mod_plus_full _ 1), Z.mod_small in H by lia. lia.
Qed.

Lemma get_word_drop s k buf : 0 <= s -> 0 <= k ->
  get_word (s * 256 + k) buf = get_word k (drop (Z.to_nat (512 * s)) buf).
Proof.
  intros Hs Hk. unfold get_word. rewrite !nth_skipn. do 2 f_equal; lia.
Qed.

Lemma take_word k (l : list Z) : 0 <= k -> 2 * k + 2 <= Z.of_nat (length l) ->
  take (Z.to_nat (2 * (k + 1))) l = take (Z.to_nat (2 * k)) l ++ [(get_word k l).1; (get_word k l).2].
Proof.
  intros Hk Hl. replace (Z.to_nat (2 * (k + 1))) with (Z.to_nat (2 * k) + 2)%nat by lia.
  rewrite <- take_take_drop. f_equal. unfold get_word. cbn [fst snd].
  replace (Z.to_nat (2 * k + 1)) with (Z.to_nat (2 * k) + 1)%nat by lia.
  rewrite <- (Nat.add_0_r (Z.to_nat (2 * k))) at 2. rewrite <- !nth_skipn.
  pose proof (length_drop l (Z.to_nat (2 * k))) as Hd.
  destruct (drop (Z.to_nat (2 * k)) l) as [|x [|y r]]; simpl in Hd; [lia | lia | done].
Qed.

Lemma seqZ_split lba a c : 0 <= a <= c -> seqZ lba c = seqZ lba a ++ seqZ (lba + a) (c - a).
Proof. intros H. rewrite <- seqZ_app by lia. f_equal. lia. Qed.

Lemma length_bind_const {A B} (f : A -> list B) n l : (forall x, length (f x) = n) ->
  length (l ≫= f) = (n * length l)%nat.
Proof. intros Hf. induction l as [|x l IH]; [simpl; lia|]. rewrite bind_cons, length_app, Hf, IH. simpl. lia. Qed.

Section Correct.
Context {D : Type} `{!Ports D} (bus drive limit : Z).
Abbreviation base := (ata_base bus).
Abbreviation slave := (drive =? ATA_SLAVE).
Context `{!AtaDisk D base slave limit} (Hdrive : drive = ATA_MASTER \/ drive = ATA_SLAVE).

(** Neither the view nor the sectors change. *)
Definition frame (d d' : D) : Prop := vw d' = vw d /\ forall i, sect d' i = sect d i.

Lemma frame_trans d1 d2 d3 : frame d1 d2 -> frame d2 d3 -> frame d1 d3.
Proof using. intros [H1 H2] [H3 H4]. split; [congruence|]. intros i. by rewrite H4. Qed.

Lemma delay_frame d : frame d (io_delay d) /\ busy (io_delay d) = busy d.
Proof using. destruct (on_delay d) as (H1 & H2 & H3). by split. Qed.

Lemma delays_frame d : frame d (io_delays d) /\ busy (io_delays d) = busy d.
Proof using.
  unfold io_delays. apply (for_up_ind (fun _ d' => frame d d' /\ busy d' = busy d) 0 4); [done|].
  intros _ d' _ [Hf Hb]. destruct (delay_frame d') as [Hf' Hb'].
  split; [by eapply frame_trans | congruence].
Qed.

(** Both polling loops: a status read while the drive is busy is followed by
    another round. *)
Lemma timeout_ready n d : (busy d < n)%nat -> selects slave (vw d) ->
  exists d', timeout_loop n base d = (true, d') /\ frame d d' /\ busy d' = 0%nat.
Proof using.
  revert d. induction n as [|n IH]; intros d Hn Hs; [lia|]. cbn [timeout_loop].
  pose proof (on_status d Hs) as Hst. destruct (inb (base + 7) d) as [st d1].
  destruct Hst as (Hv & Hsec & Hb & Hbsy & _ & _ & Hrdy). rewrite Hbsy.
  destruct (busy d) as [|k] eqn:Ek; simpl.
  - destruct (Hrdy eq_refl) as [-> _]. by exists d1.
  - destruct (delay_frame d1) as [Hf Hbd].
    destruct (IH (io_delay d1)) as (d' & E & Hf' & Hb'); [simpl in Hb; lia | rewrite (proj1 Hf), Hv; done |].
    exists d'. split; [done|]. split; [|done]. eapply frame_trans; [split; done|]. by eapply frame_trans.
Qed.

Lemma wait_drq_ready n d : (busy d < n)%nat -> selects slave (vw d) -> v_phase (vw d) <> Idle ->
  exists d', wait_drq_loop n base d = (true, d') /\ frame d d' /\ busy d' = 0%nat.
Proof using.
  revert d. induction n as [|n IH]; intros d Hn Hs Hph; [lia|]. cbn [wait_drq_loop].
  pose proof (on_status d Hs) as Hst. destruct (inb (base + 7) d) as [st d1].
  destruct Hst as (Hv & Hsec & Hb & _ & -> & Hnd & Hrdy). simpl.
  destruct (busy d) as [|k] eqn:Ek; simpl.
  - destruct (Hrdy eq_refl) as [_ Hdrq]. rewrite Hdrq by done. by exists d1.
  - rewrite Hnd by done. destruct (delay_frame d1) as [Hf Hbd].
    destruct (IH (io_delay d1)) as (d' & E & Hf' & Hb');
      [simpl in Hb; lia | rewrite (proj1 Hf), Hv; done | rewrite (proj1 Hf), Hv; done |].
    exists d'. split; [done|]. split; [|done]. eapply frame_trans; [split; done|]. by eapply frame_trans.
Qed.

(** A run of register writes on an idle drive that is not busy. *)
Lemma reg_step r v d d0 w : vw d = w -> (forall i, sect d i = sect d0 i) -> v_phase w = Idle -> 1 <= r <= 6 ->
  r = 6 \/ busy d = 0%nat ->
  vw (outb (base + r) v d) = set_reg r v w /\ (busy (outb (base + r) v d) <= busy d)%nat /\
  (forall i, sect (outb (base + r) v d) i = sect d0 i).
Proof using.
  intros <- Hs Hi Hr Hb. destruct (on_reg r v d Hr Hb Hi) as (H1 & H2 & H3).
  split_and!; [done | done |]. intros i. by rewrite H3.
Qed.

Lemma load_regs_ok lba count d : v_phase (vw d) = Idle -> busy d = 0%nat ->
  vw (load_regs base lba count d) =
    mkView (v_sel (vw d)) count (u8 (Z.land lba 255)) (u8 (Z.land (Z.shiftr lba 8) 255))
      (u8 (Z.land (Z.shiftr lba 16) 255)) Idle /\
  busy (load_regs base lba count d) = 0%nat /\ (forall i, sect (load_regs base lba count d) i = sect d i).
Proof using.
  intros Hi Hb. unfold load_regs. destruct (vw d) as [sel cnt lo mid hi ph] eqn:Ev. simpl in Hi. subst ph.
  edestruct (reg_step 1 0 d d) as (E1 & B1 & S1); [exact Ev | done | done | lia | by right |].
  edestruct (reg_step 2 count) as (E2 & B2 & S2); [exact E1 | exact S1 | done | lia | right; lia |].
  edestruct (reg_step 3 (u8 (Z.land lba 255))) as (E3 & B3 & S3); [exact E2 | exact S2 | done | lia | right; lia |].
  edestruct (reg_step 4 (u8 (Z.land (Z.shiftr lba 8) 255))) as (E4 & B4 & S4); [exact E3 | exact S3 | done | lia | right; lia |].
  edestruct (reg_step 5 (u8 (Z.land (Z.shiftr lba 16) 255))) as (E5 & B5 & S5); [exact E4 | exact S4 | done | lia | right; lia |].
  split_and!; [exact E5 | lia | exact S5].
Qed.

(** After [load_task] the task file addresses [count] sectors from [lba]. *)
Lemma load_task_ok lba count d : v_phase (vw d) = Idle -> 0 <= lba < 2 ^ 28 -> 0 < count ->
  exists d', load_task base drive lba count d = (true, d') /\ selects slave (vw d') /\ lba_mode (vw d') /\
    v_phase (vw d') = Idle /\ v_lba (vw d') = lba /\ v_count (vw d') = count /\ busy d' = 0%nat /\
    forall i, sect d' i = sect d i.
Proof using Hdrive.
  intros Hi Hl Hc. unfold load_task, timeout. destruct (drv_lba_bits drive lba Hdrive Hl) as (H4 & H6 & Hlo).
  edestruct (reg_step 6 (drv_lba drive lba) d d) as (E1 & B1 & S1); [reflexivity | done | done | lia | by left |].
  set (d1 := outb (base + 6) _ d) in *. destruct (delays_frame d1) as [[Ev2 S2] B2].
  set (d2 := io_delays d1) in *. destruct (vw d) as [sel cnt lo mid hi ph] eqn:Ev. simpl in Hi, E1. subst ph.
  destruct (timeout_ready POLLS d2) as (d3 & -> & [Ev3 S3] & B3); [apply busy_bound | by rewrite Ev2, E1 |].
  cbn [negb]. destruct (load_regs_ok lba count d3) as (Ev4 & B4 & S4); [by rewrite Ev3, Ev2, E1 | done |].
  exists (load_regs base lba count d3). rewrite Ev4, Ev3, Ev2, E1. unfold selects, lba_mode, v_lba, v_count. simpl.
  rewrite (proj2 (Z.eqb_neq count 0)) by lia. split_and!; try done.
  - rewrite Hlo. apply lba_bytes. lia.
  - intros i. by rewrite S4, S3, S2.
Qed.

(** One sector of a read: the next 512 bytes of the drive replace sector [s]
    of the buffer. *)
Lemma read_words_ok s buf d w q : vw d = set_phase (DataIn q) w -> selects slave w -> busy d = 0%nat ->
  (512 <= length q)%nat -> Z.of_nat (length q) mod 512 = 0 -> 0 <= s -> 512 * (s + 1) <= Z.of_nat (length buf) ->
  exists d', read_words base s buf d =
      (take (Z.to_nat (512 * s)) buf ++ take 512 q ++ drop (Z.to_nat (512 * (s + 1))) buf, d') /\
    vw d' = set_phase (sending (drop 512 q)) w /\ forall i, sect d' i = sect d i.
Proof using.
  intros Hv Hs Hb Hq Hm Hs0 Hlen. unfold read_words.
  pose proof (for_up_ind (fun k '(b, d') =>
      b = take (Z.to_nat (512 * s)) buf ++ take (Z.to_nat (2 * k)) q ++ drop (Z.to_nat (512 * s + 2 * k)) buf /\
      vw d' = set_phase (sending (drop (Z.to_nat (2 * k)) q)) w /\ (forall i, sect d' i = sect d i) /\
      (k < 256 -> busy d' = 0%nat)) 0 256
    (fun i '(buf, d) => let '(w, d) := inw (base + 0) d in (set_word (s * 256 + i) w buf, d)) (buf, d)) as H.
  cbv beta in H. destruct (for_up 0 256 _ (buf, d)) as [b d'] eqn:E in *. destruct H as (Hb' & Hv' & Hs' & _).
  - split_and!; [| | done | done].
    + rewrite Z.add_0_r. symmetry. apply take_drop.
    + rewrite drop_0. destruct q; [simpl in Hq; lia | done].
  - intros k [b1 d1] Hk (Eb & Ev & Es & Eb0). specialize (Eb0 ltac:(lia)).
    destruct (drop (Z.to_nat (2 * k)) q) as [|lo [|hi q']] eqn:Eq;
      [apply (f_equal length) in Eq; rewrite length_drop in Eq; simpl in Eq; lia
      |apply (f_equal length) in Eq; rewrite length_drop in Eq; simpl in Eq; lia|].
    destruct (on_data_in d1 lo hi q') as (d2 & -> & Ev2 & Es2 & Eb2); [by rewrite Ev | done | by rewrite Ev |].
    assert (drop (Z.to_nat (2 * (k + 1))) q = q') as Eq'.
    { replace (Z.to_nat (2 * (k + 1))) with (Z.to_nat (2 * k) + 2)%nat by lia. by rewrite <- drop_drop, Eq. }
    split_and!.
    + rewrite Eb. apply set_word_step with q'; [lia | lia | | done]. lia.
    + by rewrite Eq', Ev2, Ev.
    + intros i. by rewrite Es2.
    + intros Hk'. apply Eb2. rewrite <- Eq', length_drop. intros Hz.
      apply (mod_multiple_apart (Z.of_nat (length q)) (2 * (k + 1)) 512); [lia | done | lia |].
      rewrite <- Hz. f_equal. lia.
  - exists d'. rewrite Hb'. split_and!; [| done | done].
    do 2 f_equal. f_equal. f_equal. lia.
Qed.

(** One sector of a write. *)
Lemma write_words_ok s buf d w lba n : vw d = set_phase (DataOut lba n []) w -> selects slave w -> busy d = 0%nat ->
  0 <= s -> 512 * (s + 1) <= Z.of_nat (length buf) ->
  let d' := write_words base s buf d in
  let data := take 512 (drop (Z.to_nat (512 * s)) buf) in
  vw d' = set_phase (receiving lba n data) w /\ forall i, sect d' i = if decide (i = lba) then data else sect d i.
Proof using.
  intros Hv Hs Hb Hs0 Hlen d' data.
  set (src := drop (Z.to_nat (512 * s)) buf) in *.
  assert (Hsl : (512 <= length src)%nat) by (unfold src; rewrite length_drop; lia).
  pose proof (for_up_ind (fun k d' => let got := take (Z.to_nat (2 * k)) src in
      vw d' = set_phase (receiving lba n got) w /\
      (forall i, sect d' i = if decide (i = lba /\ length got = 512%nat) then got else sect d i) /\
      (length got <> 512%nat -> busy d' = 0%nat)) 0 256
    (fun i d => outw (base + 0) (get_word (s * 256 + i) buf) d) d) as H.
  destruct H as (Hv' & Hs' & _).
  - split_and!; [done | | done]. intros i. rewrite decide_False; [done|]. by intros [_ ?].
  - intros k d1 Hk (Ev & Es & Eb).
    assert (Hl : length (take (Z.to_nat (2 * k)) src) = Z.to_nat (2 * k)) by (rewrite length_take; lia).
    rewrite get_word_drop by lia. fold src.
    replace (take (Z.to_nat (2 * (k + 1))) src) with (take (Z.to_nat (2 * k)) src ++ [(get_word k src).1; (get_word k src).2])
      by (symmetry; apply take_word; lia).
    destruct (get_word k src) as [lo hi]. cbn [fst snd].
    unfold receiving in Ev. rewrite bool_decide_eq_false_2 in Ev by lia.
    destruct (on_data_out d1 lba n (take (Z.to_nat (2 * k)) src) lo hi) as (Ev2 & Es2 & Eb2);
      [by rewrite Ev | apply Eb; lia | by rewrite Ev |].
    split_and!; [by rewrite Ev2, Ev | | done]. intros i. rewrite Es2. destruct (decide _); [done|].
    rewrite Es, decide_False; [done | lia].
  - change (Z.to_nat (2 * Z.max 0 256)) with 512%nat in *. fold data in Hv', Hs'. split; [done|].
    intros i. unfold d', write_words. rewrite Hs'.
    assert (length data = 512%nat) by (unfold data; rewrite length_take; lia).
    destruct (decide (i = lba)); [rewrite decide_True by done | rewrite decide_False by naive_solver]; done.
Qed.

Lemma read_sectors_ok n s buf d w q : vw d = set_phase (sending q) w -> selects slave w ->
  Z.of_nat (length q) = 512 * Z.of_nat n -> 0 <= s -> s + Z.of_nat n <= 255 -> Z.of_nat (length buf) = 512 * (s + Z.of_nat n) ->
  exists d', read_sectors n base s buf d = (OS_OK, take (Z.to_nat (512 * s)) buf ++ q, d') /\
    v_phase (vw d') = Idle /\ forall i, sect d' i = sect d i.
Proof using.
  revert s buf d q. induction n as [|n IH]; intros s buf d q Hv Hs Hq Hs0 Hsn Hlen.
  { assert (q = []) as -> by (apply nil_length_inv; lia). exists d. rewrite app_nil_r, take_ge by lia. by rewrite Hv. }
  cbn [read_sectors]. replace (sending q) with (DataIn q) in Hv by (destruct q; [simpl in Hq; lia | done]).
  destruct (wait_drq_ready POLLS d) as (d1 & E1 & [Ev1 Es1] & B1);
    [apply busy_bound | by rewrite Hv | by rewrite Hv |].
  unfold wait_drq. rewrite E1. cbn [negb].
  destruct (read_words_ok s buf d1 w q) as (d2 & E2 & Ev2 & Es2); [by rewrite Ev1 | done | done | lia | | lia | lia |].
  { rewrite Hq, Z.mul_comm. by apply Z.mod_mul. }
  rewrite E2, u8_id by lia.
  edestruct (IH (s + 1) (take (Z.to_nat (512 * s)) buf ++ take 512 q ++ drop (Z.to_nat (512 * (s + 1))) buf))
    as (d3 & E3 & Hi & Es3); [exact Ev2 | done | | lia | lia | |].
  { rewrite length_drop. lia. }
  { rewrite !length_app, !length_take, !length_drop. lia. }
  exists d3. rewrite E3. split_and!; [| done | intros i; by rewrite Es3, Es2].
  do 2 f_equal. rewrite app_assoc, take_app_length' by (rewrite length_app, !length_take; lia).
  by rewrite <- app_assoc, take_drop.
Qed.

Lemma write_sectors_ok n s buf d w lba :
  vw d = set_phase (match n with O => Idle | S _ => DataOut lba n [] end) w -> selects slave w ->
  0 <= s -> s + Z.of_nat n <= 255 -> Z.of_nat (length buf) = 512 * (s + Z.of_nat n) ->
  exists d', write_sectors n base s buf d = (OS_OK, d') /\ v_phase (vw d') = Idle /\
    forall i, sect d' i = if decide (lba <= i < lba + Z.of_nat n)
      then take 512 (drop (Z.to_nat (512 * (s + (i - lba)))) buf) else sect d i.
Proof using.
  revert s lba d. induction n as [|n IH]; intros s lba d Hv Hs Hs0 Hsn Hlen.
  { exists d. rewrite Hv. split_and!; [done | done |]. intros i. by rewrite decide_False by lia. }
  cbn [write_sectors].
  destruct (wait_drq_ready POLLS d) as (d1 & E1 & [Ev1 Es1] & B1);
    [apply busy_bound | by rewrite Hv | by rewrite Hv |].
  unfold wait_drq. rewrite E1. cbn [negb].
  destruct (write_words_ok s buf d1 w lba (S n)) as (Ev2 & Es2); [by rewrite Ev1 | done | done | lia | lia |].
  unfold receiving in Ev2. rewrite bool_decide_eq_true_2 in Ev2 by (rewrite length_take, length_drop; lia).
  words.
  destruct (IH (s + 1) (lba + 1) (write_words base s buf d1)) as (d3 & E3 & Hi & Es3);
    [rewrite Ev2; by destruct n | done | lia | lia | lia |].
  exists d3. split_and!; [done | done |]. intros i. rewrite Es3, Es2, Es1.
  destruct (decide (lba + 1 <= i < lba + 1 + Z.of_nat n)), (decide (i = lba)),
    (decide (lba <= i < lba + Z.of_nat (S n))); try lia; try done; do 2 f_equal; lia.
Qed.

Context (Hlimit : 0 < limit <= 2 ^ 28).

(** [ata_read] returns the sectors, [ata_write] stores them, and both leave
    the drive without a command in progress. *)
Lemma ata_read_ok lba count buf d : v_phase (vw d) = Idle -> 0 <= lba -> 0 < count <= 255 -> lba + count <= limit ->
  Z.of_nat (length buf) = 512 * count ->
  exists d', ata_read bus drive lba count (Some buf) d = (OS_OK, seqZ lba count ≫= sect d, d') /\
    v_phase (vw d') = Idle /\ forall i, sect d' i = sect d i.
Proof using Hdrive Hlimit.
  intros Hi Hl Hc Hlim Hlen. unfold ata_read. rewrite (proj2 (Z.eqb_neq count 0)) by lia.
  destruct (load_task_ok lba count d) as (d1 & -> & H4 & H6 & Hi1 & Hl1 & Hc1 & B1 & S1); [done | lia | lia |].
  cbn [negb]. destruct (on_read d1) as [Ev2 S2]; [done | done | done | done | by rewrite Hl1, Hc1 |].
  rewrite Hl1, Hc1 in Ev2. rewrite (list_bind_ext (sect d1) (sect d) _ _ S1 eq_refl) in Ev2.
  assert (Z.of_nat (length (seqZ lba count ≫= sect d)) = 512 * Z.of_nat (Z.to_nat count)) as Hq.
  { rewrite (length_bind_const _ 512), length_seqZ by apply sect_length. lia. }
  edestruct (read_sectors_ok (Z.to_nat count) 0 buf) as (d3 & E3 & Hi3 & S3);
    [| exact H4 | exact Hq | lia | lia | lia |].
  { rewrite Ev2. f_equal. destruct (_ ≫= _); [simpl in Hq; lia | done]. }
  exists d3. rewrite E3. split_and!; [done | done |]. intros i. by rewrite S3, S2, S1.
Qed.

Lemma ata_write_ok lba count buf d : v_phase (vw d) = Idle -> 0 <= lba -> 0 < count <= 255 -> lba + count <= limit ->
  Z.of_nat (length buf) = 512 * count ->
  exists d', ata_write bus drive lba count (Some buf) d = (OS_OK, d') /\ v_phase (vw d') = Idle /\
    forall i, sect d' i = if decide (lba <= i < lba + count)
      then take 512 (drop (Z.to_nat (512 * (i - lba))) buf) else sect d i.
Proof using Hdrive Hlimit.
  intros Hi Hl Hc Hlim Hlen. unfold ata_write. rewrite (proj2 (Z.eqb_neq count 0)) by lia.
  destruct (load_task_ok lba count d) as (d1 & -> & H4 & H6 & Hi1 & Hl1 & Hc1 & B1 & S1); [done | lia | lia |].
  cbn [negb]. destruct (on_write d1) as [Ev2 S2]; [done | done | done | done | by rewrite Hl1, Hc1 |].
  rewrite Hl1, Hc1 in Ev2.
  destruct (write_sectors_ok (Z.to_nat count) 0 buf (outb (base + 7) ATA_CMD_WRITE d1) (vw d1) lba) as (d3 & E3 & Hi3 & S3);
    [| exact H4 | lia | lia | lia |].
  { rewrite Ev2. f_equal. destruct (Z.to_nat count) eqn:E; [lia | done]. }
  exists d3. rewrite E3. split_and!; [done | done |]. intros i. rewrite S3, S2, S1, Z2Nat.id by lia. done.
Qed.

Abbreviation g := (mkBD bus drive).

Lemma ata_read_loop fuel lba count p d : v_phase (vw d) = Idle -> 0 <= lba -> 0 <= count -> lba + count <= limit ->
  Z.of_nat (length p) = 512 * count -> (Z.to_nat count <= fuel)%nat ->
  exists d', ata_transfer_loop g fuel lba count p false d = (OS_OK, seqZ lba count ≫= sect d, d') /\
    v_phase (vw d') = Idle /\ forall i, sect d' i = sect d i.
Proof using Hdrive Hlimit.
  revert lba count p d. induction fuel as [|fuel IH]; intros lba count p d Hi Hl Hc Hlim Hlen Hf.
  { assert (count = 0) as -> by lia. exists d. rewrite (nil_length_inv p) by lia. done. }
  cbn [ata_transfer_loop]. destruct (Z.ltb_spec 0 count) as [Hpos|H0].
  - set (chunk := if 255 <? count then 255 else count).
    assert (0 < chunk <= 255 /\ chunk <= count) as [Hck Hcc] by (unfold chunk; destruct (Z.ltb_spec 255 count); lia).
    destruct (ata_read_ok lba chunk (take (Z.to_nat (512 * chunk)) p) d) as (d1 & E1 & Hi1 & Hd1);
      [done | lia | done | lia | rewrite length_take; lia |].
    unfold ata_pio. cbn [g_blk_bus g_blk_drive]. words. rewrite E1.
    rewrite bool_decide_eq_false_2 by (intros H; by apply H). words.
    destruct (IH (lba + chunk) (count - chunk) (drop (Z.to_nat (512 * chunk)) p) d1) as (d2 & E2 & Hi2 & Hd2);
      [done | lia | lia | lia | rewrite length_drop; lia | lia |].
    rewrite E2. exists d2. split_and!; [|done|intros i; by rewrite Hd2].
    rewrite (seqZ_split lba chunk count), bind_app by lia. do 3 f_equal.
    apply list_bind_ext; [|done]. intros i. apply Hd1.
  - assert (count = 0) as -> by lia. exists d. rewrite (nil_length_inv p) by lia. done.
Qed.

Lemma ata_write_loop fuel lba count p d : v_phase (vw d) = Idle -> 0 <= lba -> 0 <= count -> lba + count <= limit ->
  Z.of_nat (length p) = 512 * count -> (Z.to_nat count <= fuel)%nat ->
  exists d', ata_transfer_loop g fuel lba count p true d = (OS_OK, p, d') /\ v_phase (vw d') = Idle /\
    forall i, sect d' i = if decide (lba <= i < lba + count)
                         then take 512 (drop (Z.to_nat (512 * (i - lba))) p) else sect d i.
Proof using Hdrive Hlimit.
  revert lba count p d. induction fuel as [|fuel IH]; intros lba count p d Hi Hl Hc Hlim Hlen Hf.
  { assert (count = 0) as -> by lia. exists d. split_and!; [done | done |]. intros i. by rewrite decide_False by lia. }
  cbn [ata_transfer_loop]. destruct (Z.ltb_spec 0 count) as [Hpos|H0].
  - set (chunk := if 255 <? count then 255 else count).
    assert (0 < chunk <= 255 /\ chunk <= count) as [Hck Hcc] by (unfold chunk; destruct (Z.ltb_spec 255 count); lia).
    destruct (ata_write_ok lba chunk (take (Z.to_nat (512 * chunk)) p) d) as (d1 & E1 & Hi1 & Hd1);
      [done | lia | done | lia | rewrite length_take; lia |].
    unfold ata_pio. cbn [g_blk_bus g_blk_drive]. words. rewrite E1.
    rewrite bool_decide_eq_false_2 by (intros H; by apply H). words.
    destruct (IH (lba + chunk) (count - chunk) (drop (Z.to_nat (512 * chunk)) p) d1) as (d2 & E2 & Hi2 & Hd2);
      [done | lia | lia | lia | rewrite length_drop; lia | lia |].
    rewrite E2. exists d2. split_and!; [by rewrite take_drop | done |]. intros i. rewrite Hd2, Hd1.
    destruct (decide (lba + chunk <= i < lba + chunk + (count - chunk))),
      (decide (lba <= i < lba + chunk)), (decide (lba <= i < lba + count)); try lia; try done.
    + rewrite drop_drop. do 2 f_equal. lia.
    + rewrite <- (take_drop (Z.to_nat (512 * chunk)) p) at 2.
      rewrite drop_app_le by (rewrite length_take; lia).
      rewrite take_app_le by (rewrite length_drop, length_take; lia). done.
  - assert (count = 0) as -> by lia. exists d. split_and!; [done | done |]. intros i. by rewrite decide_False by lia.
Qed.

(** The block layer's view of the driver. *)
#[export] Instance ata_reliable : ReliableDisk (ata_transfer g) limit.
Proof using All.
  refine {| disk_ready := fun d => v_phase (vw d) = Idle; sector := sect; sector_length := sect_length |}.
  - intros lba count buf d Hi H1 H2 H3 H4. apply ata_read_loop; [done | lia..].
  - intros lba count buf d Hi H1 H2 H3 H4. apply ata_write_loop; [done | lia..].
Defined.

(** IDENTIFY on a drive that is not busy gives its size.  The routine does not
    wait for the drive before it loads the registers. *)
Lemma identify_ok d : bus = ATA_PRIMARY \/ bus = ATA_SECONDARY -> v_phase (vw d) = Idle -> busy d = 0%nat ->
  exists d', ata_identify_sectors g d = (limit, d') /\ v_phase (vw d') = Idle /\ forall i, sect d' i = sect d i.
Proof using Hdrive.
  intros Hbus Hi Hb. unfold ata_identify_sectors, wait_drq. cbn [g_blk_bus g_blk_drive].
  replace (if bus =? 1 then 368 else 496) with base by (destruct Hbus as [-> | ->]; done).
  set (sel := if drive =? 1 then 0xB0 else 0xA0).
  assert (Hsel : Z.testbit sel 4 = slave) by (unfold sel; destruct Hdrive as [-> | ->]; done).
  destruct (vw d) as [s0 cnt lo mid hi ph] eqn:Ev. simpl in Hi. subst ph.
  edestruct (reg_step 6 sel d d) as (E1 & B1 & S1); [exact Ev | done | done | lia | by left |].
  destruct (delays_frame (outb (base + 6) sel d)) as [[Ed Sd] Bd]. rewrite E1 in Ed.
  set (d1 := io_delays _) in *.
  edestruct (reg_step 2 0 d1 d) as (E2 & B2 & S2); [exact Ed | intros i; by rewrite Sd | done | lia | right; lia |].
  edestruct (reg_step 3 0) as (E3 & B3 & S3); [exact E2 | exact S2 | done | lia | right; lia |].
  edestruct (reg_step 4 0) as (E4 & B4 & S4); [exact E3 | exact S3 | done | lia | right; lia |].
  edestruct (reg_step 5 0) as (E5 & B5 & S5); [exact E4 | exact S4 | done | lia | right; lia |].
  set (d5 := outb (base + 5) 0 _) in *.
  destruct (on_identify d5) as [E6 S6]; [by rewrite E5 | lia | by rewrite E5 |].
  set (d6 := outb (base + 7) 0xEC d5) in *. rewrite E5 in E6. simpl in E6.
  pose proof (on_status d6 ltac:(by rewrite E6)) as Hst. destruct (inb (base + 7) d6) as [st d7].
  destruct Hst as (E7 & S7 & _ & Hbsy & _ & _ & Hrdy).
  destruct (Z.eqb_spec st 0) as [->|_].
  { destruct (busy d6); [by destruct (Hrdy eq_refl) | done]. }
  destruct (wait_drq_ready POLLS d7) as (d8 & -> & [E8 S8] & B8);
    [apply busy_bound | by rewrite E7, E6 | by rewrite E7, E6 |]. cbn [negb].
  destruct (read_words_ok 0 (replicate 512 0) d8 (mkView sel 0 0 0 0 Idle) ident) as (d9 & -> & E9 & S9);
    [by rewrite E8, E7, E6 | done | done | by rewrite ident_length | by rewrite ident_length | lia | by rewrite length_replicate |].
  rewrite drop_ge in E9 |- * by (by rewrite ?ident_length, ?length_replicate).
  rewrite (take_ge ident) by (by rewrite ident_length). rewrite app_nil_r. simpl. rewrite ident_limit.
  exists d9. rewrite E9. split_and!; [done | done |]. intros i. by rewrite S9, S8, S7, S6, S5.
Qed.

(** Device [id] of the block layer is this drive, and nothing is in progress. *)
Definition mounted (id : Z) (b : blk D) (d : D) : Prop :=
  idle b /\ 0 <= id /\ g_devices b !! Z.to_nat id = Some (mkDev 0 limit (Some (ata_transfer g)) true) /\
  v_phase (vw d) = Idle.
Lemma register_mounted b d : idle b -> blk_device_count b < BLK_MAX_DEVICES -> v_phase (vw d) = Idle ->
  mounted (blk_device_count b)
    (mkBlk (g_devices b ++ [mkDev 0 limit (Some (ata_transfer g)) true]) (g_pool b) (g_queue b) (g_served b)) d.
Proof using.
  unfold blk_device_count. intros [H1 H2 H3 H4] Hcnt Hi. split_and!; [| lia | | done].
  - split; [done | done | done |]. cbn [g_devices]. rewrite length_app. simpl. lia.
  - cbn [g_devices]. by rewrite Nat2Z.id, list_lookup_middle.
Qed.

Lemma mounted_rw id b d lba count buf write : mounted id b d ->
  0 <= lba -> 0 < count -> lba + count < 2 ^ 32 -> Z.of_nat (length buf) = 512 * count ->
  if lba + count <=? limit then
    exists b' d', blk_rw id lba count (Some buf) write b d =
        Some (OS_OK, Some (if write then buf else seqZ lba count ≫= sect d), b', d') /\ mounted id b' d' /\
      forall i, sect d' i = if write && bool_decide (lba <= i < lba + count)
                            then take 512 (drop (Z.to_nat (512 * (i - lba))) buf) else sect d i
  else blk_rw id lba count (Some buf) write b d = Some (OS_ERR_RANGE, Some buf, b, d).
Proof using Hdrive Hlimit.
  intros (Hidle & Hid & Hdev & Hi) Hl Hc H32 Hlen. destruct (Z.leb_spec (lba + count) limit) as [Hlim|Hout].
  - assert (exists d', ata_transfer g lba count buf write d =
        (OS_OK, if write then buf else seqZ lba count ≫= sect d, d') /\ v_phase (vw d') = Idle /\
        forall i, sect d' i = if write && bool_decide (lba <= i < lba + count)
                              then take 512 (drop (Z.to_nat (512 * (i - lba))) buf) else sect d i)
      as (d' & E & Hi' & Hs).
    { destruct write.
      - destruct (ata_write_loop (Z.to_nat count) lba count buf d Hi) as (d' & E & Hi' & Hs); [lia..|].
        exists d'. split_and!; [done | done |]. intros i. rewrite (Hs i).
        destruct (decide _); [by rewrite bool_decide_eq_true_2 | by rewrite bool_decide_eq_false_2].
      - apply ata_read_loop; [done | lia..]. }
    destruct (blk_rw_idle b id lba count buf write d _ _ _ _ _ Hidle Hid Hdev eq_refl ltac:(lia)
      ltac:(right; simpl; rewrite u32_id; lia) E) as (b' & E' & Hidle' & Hdev' & _).
    exists b', d'. split_and!; [done | | done]. split_and!; [done | done | by rewrite Hdev' | done].
  - unfold blk_rw, blk_device_count. pose proof (lookup_lt_Some _ _ _ Hdev).
    rewrite (proj2 (Z.ltb_ge id 0)), (proj2 (Z.leb_gt (Z.of_nat (length (g_devices b))) id)) by lia.
    cbn [orb]. rewrite (proj2 (Z.eqb_neq count 0)) by lia. rewrite Hdev. cbn [bd_transfer bd_sectors].
    words. unfold ctrue. rewrite (proj2 (Z.eqb_neq limit 0)), (proj2 (Z.ltb_lt limit _)) by lia. done.
Qed.
End Correct.



(** ** A simulated drive *)

(** The primary slave, of 2048 sectors; it reports BSY once after a command and
    after every sector. *)
Module Sim.
Record dev := mkSim { s_view : view; s_late : bool; s_store : Ram.store }.

Abbreviation port := 0x1F0.
Definition sim_ident : list Z := replicate 120 0 ++ [0; 8; 0; 0] ++ replicate 388 0.
Definition live (d : dev) : bool := Z.testbit (v_sel (s_view d)) 4 && negb (s_late d).
Definition is_idle (w : view) : bool := match v_phase w with Idle => true | _ => false end.

Definition sim_status (d : dev) : Z :=
  if s_late d then ATA_BSY else if is_idle (s_view d) then ATA_DRDY else Z.lor ATA_DRDY ATA_DRQ.

Definition sim_command (v : Z) (d : dev) : phase :=
  let w := s_view d in
  if v =? ATA_CMD_READ then DataIn (seqZ (v_lba w) (v_count w) ≫= Ram.read_sector (s_store d))
  else if v =? ATA_CMD_WRITE then DataOut (v_lba w) (Z.to_nat (v_count w)) []
  else if v =? ATA_CMD_IDENTIFY then DataIn sim_ident
  else Idle.

#[global] Instance sim_ports : Ports dev := {
  inb p d :=
    if p =? port + 7 then (sim_status d, mkSim (s_view d) false (s_store d)) else (0xFF, d);
  outb p v d :=
    let r := p - port in
    if p =? 0x80 then d
    else if negb (is_idle (s_view d)) then d
    else if (1 <=? r) && (r <=? 6) && ((r =? 6) || negb (s_late d)) then
      mkSim (set_reg r v (s_view d)) (s_late d) (s_store d)
    else if (r =? 7) && live d then mkSim (set_phase (sim_command v d) (s_view d)) true (s_store d)
    else d;
  inw p d :=
    match v_phase (s_view d) with
    | DataIn (lo :: hi :: q) =>
        ((lo, hi), mkSim (set_phase (sending q) (s_view d)) (Z.of_nat (length q) mod 512 =? 0) (s_store d))
    | _ => ((0xFF, 0xFF), d)
    end;
  outw p '(lo, hi) d :=
    match v_phase (s_view d) with
    | DataOut lba n got =>
        let got := got ++ [lo; hi] in
        let full := bool_decide (length got = 512%nat) in
        mkSim (set_phase (receiving lba n got) (s_view d)) full
          (if full then <[lba := got]> (s_store d) else s_store d)
    | _ => d
    end
}.

Lemma idle_true w : v_phase w = Idle -> is_idle w = true.
Proof. unfold is_idle. by intros ->. Qed.

Lemma sim_command_step v d : selects true (s_view d) -> s_late d = false -> v_phase (s_view d) = Idle ->
  outb (port + 7) v d = mkSim (set_phase (sim_command v d) (s_view d)) true (s_store d).
Proof.
  unfold selects. intros H4 Hl Hi. simpl. unfold live. by rewrite (idle_true _ Hi), H4, Hl.
Qed.

#[global] Instance sim_disk : AtaDisk dev port true 2048.
Proof.
  refine {| vw := s_view; busy := fun d => if s_late d then 1%nat else 0%nat;
    sect := fun d => Ram.read_sector (s_store d); ident := sim_ident;
    sect_length := fun d => Ram.read_sector_length (s_store d) |}.
  - intros d. unfold POLLS. destruct (s_late d); lia.
  - done.
  - done.
  - done.
  - intros r v d Hr Hb Hi. cbn [outb sim_ports]. rewrite (idle_true _ Hi).
    rewrite (proj2 (Z.eqb_neq (port + r) 0x80)) by lia. replace (port + r - port) with r by lia.
    rewrite (proj2 (Z.leb_le 1 r)), (proj2 (Z.leb_le r 6)) by lia.
    replace ((r =? 6) || negb (s_late d)) with true; [done|].
    destruct Hb as [-> | Hb]; [done|]. destruct (s_late d); [done | by rewrite orb_true_r].
  - intros d _. cbn [inb sim_ports]. unfold sim_status, is_idle.
    destruct d as [w [] st]; simpl; [done|]. destruct (v_phase w); done.
  - intros d H4 _ Hb Hi _. rewrite sim_command_step; [done | done | by destruct (s_late d) | done].
  - intros d H4 _ Hb Hi _. rewrite sim_command_step; [done | done | by destruct (s_late d) | done].
  - intros d H4 Hb Hi. rewrite sim_command_step; [done | done | by destruct (s_late d) | done].
  - intros d lo hi q _ _ Hp. eexists. cbn [inw sim_ports]. rewrite Hp. split_and!; [reflexivity | done | done |].
    intros Hm. simpl. by rewrite (proj2 (Z.eqb_neq _ 0)).
  - intros d lba n got lo hi _ _ Hp. cbn [outw sim_ports]. rewrite Hp. simpl. split_and!; [done | |].
    + intros i. destruct (bool_decide _) eqn:E; [apply bool_decide_eq_true in E | apply bool_decide_eq_false in E].
      * unfold Ram.read_sector. destruct (decide (i = lba)) as [->|Hne].
        -- rewrite lookup_insert_eq, bool_decide_eq_true_2, decide_True by done. done.
        -- rewrite lookup_insert_ne, decide_False by naive_solver. done.
      * by rewrite decide_False by naive_solver.
    + intros Hl. by rewrite bool_decide_eq_false_2.
Defined.

Definition d0 : dev := mkSim (mkView 0xA0 0 0 0 0 Idle) false ∅.
End Sim.



End Ata.
