(* ===== verification/Buffer.v ===== *)
(** * Buffer cache (src/fs/noxfs/buffer.c)

    Sixteen buffers, a hash table of eight chains linked through
    [hash_next] and a doubly linked LRU list between two sentinels, exactly as
    the code links them.  The device below is a parameter with the contract
    [DiskIO]; the contract the cache offers to the file system is the class
    [BufferCache]. *)
From S2P Require Import Prelude.
From S2P Require Import Block.

(** ** What the buffer cache offers its clients

    [bc_inv s H]: the cache is consistent and its clients hold the buffers
    [H] (buffer to block).  [bc_view s b]: the logical contents of block [b].
    [bc_ready s]: the device behind the cache works; [bc_disk s b]: what it
    holds in block [b]. *)
Class BufferCache (S : Type) (limit : Z) := {
  bc_init : S -> S;
  bc_bread : Z -> M S (option nat);
  bc_data : nat -> S -> list Z;
  bc_set : nat -> list Z -> S -> S;
  bc_dirty : nat -> S -> S;
  bc_bwrite : nat -> S -> S;
  bc_brelse : nat -> S -> S;
  bc_ready : S -> Prop;
  bc_disk : S -> Z -> list Z;
  bc_inv : S -> gmap nat Z -> Prop;
  bc_view : S -> Z -> list Z;
  bc_init_ok s : bc_ready s -> bc_inv (bc_init s) ∅ /\ forall b, bc_view (bc_init s) b = bc_disk s b;
  bc_view_length s H b : bc_inv s H -> 0 <= b < limit -> length (bc_view s b) = 512%nat;
  bc_held s H i b : bc_inv s H -> H !! i = Some b -> 0 <= b < limit /\ bc_data i s = bc_view s b;
  bc_bread_ok s H b : bc_inv s H -> (size H < 16)%nat -> 0 <= b < limit -> (forall i, H !! i <> Some b) ->
    exists i s', bc_bread b s = Some (Some i, s') /\ bc_inv s' (<[i := b]> H) /\ H !! i = None /\
                 forall b', bc_view s' b' = bc_view s b';
  bc_set_ok s H i b d : bc_inv s H -> H !! i = Some b -> length d = 512%nat ->
    let s' := bc_dirty i (bc_set i d s) in
    bc_inv s' H /\ forall b', bc_view s' b' = if decide (b' = b) then d else bc_view s b';
  bc_bwrite_ok s H i b : bc_inv s H -> H !! i = Some b ->
    bc_inv (bc_bwrite i s) H /\ forall b', bc_view (bc_bwrite i s) b' = bc_view s b';
  bc_brelse_ok s H i b : bc_inv s H -> H !! i = Some b ->
    bc_inv (bc_brelse i s) (delete i H) /\ forall b', bc_view (bc_brelse i s) b' = bc_view s b'
}.

Module Buffer.

Definition NBUF : Z := 16.
Definition HASH_SIZE : Z := 8.
Abbreviation BUF_SIZE := 512.
Definition BUF_DEV_ATA : Z := 0.
Definition B_VALID : Z := 1.
Definition B_DIRTY : Z := 2.
Definition B_BUSY : Z := 4.

(** What the LRU links point to. *)
Inductive lref := LBuf (i : nat) | LruHead | LruTail.

#[export] Instance lref_eq_dec : EqDecision lref.
Proof. solve_decision. Defined.

Record buf := mkBuf {
  b_dev : Z;
  b_blockno : Z;
  b_flags : Z;
  b_data : list Z;
  b_hash_next : option nat;
  b_lru_prev : option lref;
  b_lru_next : option lref
}.

Definition set_flags (f : Z) (b : buf) : buf :=
  mkBuf (b_dev b) (b_blockno b) f (b_data b) (b_hash_next b) (b_lru_prev b) (b_lru_next b).
Definition set_data (d : list Z) (b : buf) : buf :=
  mkBuf (b_dev b) (b_blockno b) (b_flags b) d (b_hash_next b) (b_lru_prev b) (b_lru_next b).
Definition set_ident (dev blockno f : Z) (b : buf) : buf :=
  mkBuf dev blockno f (b_data b) (b_hash_next b) (b_lru_prev b) (b_lru_next b).
Definition set_hash_next (n : option nat) (b : buf) : buf :=
  mkBuf (b_dev b) (b_blockno b) (b_flags b) (b_data b) n (b_lru_prev b) (b_lru_next b).
Definition set_lru_prev (r : option lref) (b : buf) : buf :=
  mkBuf (b_dev b) (b_blockno b) (b_flags b) (b_data b) (b_hash_next b) r (b_lru_next b).
Definition set_lru_next (r : option lref) (b : buf) : buf :=
  mkBuf (b_dev b) (b_blockno b) (b_flags b) (b_data b) (b_hash_next b) (b_lru_prev b) r.

(** The file-scope state; [head_next] and [tail_prev] are the links of the two
    sentinels into the list ([head_prev] and [tail_next] are the outer ones). *)
Record cache := mkCache {
  g_buffers : list buf;
  g_hash : list (option nat);
  head_prev : option lref;
  head_next : option lref;
  tail_prev : option lref;
  tail_next : option lref
}.

Definition with_bufs (c : cache) (l : list buf) : cache :=
  mkCache l (g_hash c) (head_prev c) (head_next c) (tail_prev c) (tail_next c).
Definition with_hash (c : cache) (h : list (option nat)) : cache :=
  mkCache (g_buffers c) h (head_prev c) (head_next c) (tail_prev c) (tail_next c).
Definition upd (i : nat) (f : buf -> buf) (c : cache) : cache := with_bufs c (alter f i (g_buffers c)).

(** A field of buffer [i]. *)
Definition field {A} (f : buf -> A) (d : A) (c : cache) (i : nat) : A :=
  match g_buffers c !! i with Some b => f b | None => d end.
Definition flags (c : cache) (i : nat) : Z := field b_flags 0 c i.

Definition lnext (c : cache) (r : lref) : option lref :=
  match r with LBuf i => field b_lru_next None c i | LruHead => head_next c | LruTail => tail_next c end.
Definition lprev (c : cache) (r : lref) : option lref :=
  match r with LBuf i => field b_lru_prev None c i | LruHead => head_prev c | LruTail => tail_prev c end.

Definition set_lnext (r : lref) (v : option lref) (c : cache) : cache :=
  match r with
  | LBuf i => upd i (set_lru_next v) c
  | LruHead => mkCache (g_buffers c) (g_hash c) (head_prev c) v (tail_prev c) (tail_next c)
  | LruTail => mkCache (g_buffers c) (g_hash c) (head_prev c) (head_next c) (tail_prev c) v
  end.
Definition set_lprev (r : lref) (v : option lref) (c : cache) : cache :=
  match r with
  | LBuf i => upd i (set_lru_prev v) c
  | LruHead => mkCache (g_buffers c) (g_hash c) v (head_next c) (tail_prev c) (tail_next c)
  | LruTail => mkCache (g_buffers c) (g_hash c) (head_prev c) (head_next c) v (tail_next c)
  end.

(** [_hash]. *)
Definition hash (dev blockno : Z) : Z := u32 (dev * 31 + blockno) mod HASH_SIZE.

(** [_lru_remove]. *)
Definition lru_remove (i : nat) (c : cache) : cache :=
  match lprev c (LBuf i), lnext c (LBuf i) with
  | Some p, Some n =>
      let c := set_lnext p (Some n) c in
      let c := set_lprev n (Some p) c in
      set_lprev (LBuf i) None (set_lnext (LBuf i) None c)
  | _, _ => c
  end.

(** [_lru_insert_head]. *)
Definition lru_insert_head (i : nat) (c : cache) : cache :=
  let c := set_lnext (LBuf i) (head_next c) c in
  let c := set_lprev (LBuf i) (Some LruHead) c in
  let c := match head_next c with Some n => set_lprev n (Some (LBuf i)) c | None => c end in
  set_lnext LruHead (Some (LBuf i)) c.

Definition bucket (c : cache) (h : Z) : option nat := default None (g_hash c !! Z.to_nat h).

(** [_hash_insert]. *)
Definition hash_insert (i : nat) (c : cache) : cache :=
  let h := hash (field b_dev 0 c i) (field b_blockno 0 c i) in
  let c := upd i (set_hash_next (bucket c h)) c in
  with_hash c (<[Z.to_nat h := Some i]> (g_hash c)).

(** Longest walk along a chain or the LRU list. *)
Definition WALK_FUEL : nat := S (Z.to_nat NBUF).

(** The walk of [_hash_remove]; [p] is the link looked at, [None] being the
    bucket itself. *)
Fixpoint hash_unlink (fuel : nat) (h : Z) (p : option nat) (i : nat) (c : cache) : option cache :=
  match fuel with
  | O => None
  | S fuel =>
      match (match p with None => bucket c h | Some q => field b_hash_next None c q end) with
      | None => Some c
      | Some x =>
          if bool_decide (x = i) then
            let nx := field b_hash_next None c i in
            Some (match p with
                  | None => with_hash c (<[Z.to_nat h := nx]> (g_hash c))
                  | Some q => upd q (set_hash_next nx) c
                  end)
          else hash_unlink fuel h (Some x) i c
      end
  end.

Definition hash_remove (i : nat) (c : cache) : option cache :=
  hash_unlink WALK_FUEL (hash (field b_dev 0 c i) (field b_blockno 0 c i)) None i c.

(** [_hash_lookup]. *)
Fixpoint hash_find (fuel : nat) (dev blockno : Z) (p : option nat) (c : cache) : option (option nat) :=
  match fuel with
  | O => None
  | S fuel =>
      match p with
      | None => Some None
      | Some x =>
          if (field b_dev 0 c x =? dev) && (field b_blockno 0 c x =? blockno) then Some (Some x)
          else hash_find fuel dev blockno (field b_hash_next None c x) c
      end
  end.

Definition hash_lookup (dev blockno : Z) (c : cache) : option (option nat) :=
  hash_find WALK_FUEL dev blockno (bucket c (hash dev blockno)) c.

(** ** Operations that reach the device *)

Section Ops.
Context {IO : Type}.
(** [blk_rw] of one sector: device, block, buffer contents, direction. *)
Context (dev_rw : Z -> Z -> list Z -> bool -> IO -> os_status * list Z * IO).

Record st := mkSt { s_cache : cache; s_io : IO }.

Definition on_cache (f : cache -> cache) (s : st) : st := mkSt (f (s_cache s)) (s_io s).

Definition has (c : cache) (i : nat) (f : Z) : bool := ctrue (Z.land (flags c i) f).

Definition bwrite (i : nat) (s : st) : st :=
  let c := s_cache s in
  if negb (has c i B_DIRTY) then s
  else
    let '(status, _, io) := dev_rw (field b_dev 0 c i) (field b_blockno 0 c i) (field b_data [] c i) true (s_io s) in
    if bool_decide (status <> OS_OK) then mkSt c io
    else mkSt (upd i (fun b => set_flags (Z.land (b_flags b) (u32 (Z.lnot B_DIRTY))) b) c) io.

Definition brelse (i : nat) : st -> st :=
  on_cache (upd i (fun b => set_flags (Z.land (b_flags b) (u32 (Z.lnot B_BUSY))) b)).

(** First loop of [_evict]: neither busy nor dirty, from the LRU end. *)
Fixpoint evict_clean (fuel : nat) (p : option lref) (c : cache) : option (option nat) :=
  match fuel with
  | O => None
  | S fuel =>
      match p with
      | None | Some LruHead => Some None
      | Some (LBuf i) =>
          if negb (has c i B_BUSY) && negb (has c i B_DIRTY) then Some (Some i)
          else evict_clean fuel (lprev c (LBuf i)) c
      | Some LruTail => evict_clean fuel (lprev c LruTail) c
      end
  end.

(** Second loop of [_evict]: not busy, written back first. *)
Fixpoint evict_dirty (fuel : nat) (p : option lref) : M st (option nat) := fun s =>
  match fuel with
  | O => None
  | S fuel =>
      match p with
      | None | Some LruHead => Some (None, s)
      | Some (LBuf i) =>
          if negb (has (s_cache s) i B_BUSY) then Some (Some i, bwrite i s)
          else evict_dirty fuel (lprev (s_cache s) (LBuf i)) s
      | Some LruTail => evict_dirty fuel (lprev (s_cache s) LruTail) s
      end
  end.

Definition evict : M st (option nat) := fun s =>
  match evict_clean WALK_FUEL (tail_prev (s_cache s)) (s_cache s) with
  | None => None
  | Some (Some i) => Some (Some i, s)
  | Some None => evict_dirty WALK_FUEL (tail_prev (s_cache s)) s
  end.

(** [blk_rw(dev, blockno, 1, bp->data, BLK_READ)]: the status is not looked at. *)
Definition fetch (dev blockno : Z) (i : nat) (s : st) : st :=
  let '(_, d, io) := dev_rw dev blockno (field b_data [] (s_cache s) i) false (s_io s) in
  mkSt (upd i (set_data d) (s_cache s)) io.

Definition or_flag (f : Z) (i : nat) (s : st) : st :=
  on_cache (upd i (fun b => set_flags (Z.lor (b_flags b) f) b)) s.

Definition bread (dev blockno : Z) : M st (option nat) := fun s =>
  match hash_lookup dev blockno (s_cache s) with
  | None => None
  | Some (Some i) =>
      let s := if has (s_cache s) i B_VALID then s else or_flag B_VALID i (fetch dev blockno i s) in
      let s := on_cache (lru_remove i) s in
      let s := on_cache (lru_insert_head i) s in
      Some (Some i, or_flag B_BUSY i s)
  | Some None =>
      match evict s with
      | None => None
      | Some (None, s) => Some (None, s)
      | Some (Some i, s) =>
          match (if has (s_cache s) i B_VALID then hash_remove i (s_cache s) else Some (s_cache s)) with
          | None => None
          | Some c =>
              let s := mkSt (upd i (set_ident dev blockno 0) c) (s_io s) in
              let s := fetch dev blockno i s in
              let s := on_cache (upd i (set_flags (Z.lor B_VALID B_BUSY))) s in
              let s := on_cache (lru_remove i) s in
              let s := on_cache (hash_insert i) s in
              let s := on_cache (lru_insert_head i) s in
              Some (Some i, s)
          end
      end
  end.

(** The flush loop of [balloc]. *)
Definition flush_idle (s : st) : st :=
  for_up 0 NBUF (fun i s =>
    let i := Z.to_nat i in
    if negb (has (s_cache s) i B_BUSY) && has (s_cache s) i B_DIRTY then bwrite i s else s) s.

Definition balloc (dev blockno : Z) : M st (option nat) := fun s =>
  match evict s with
  | None => None
  | Some (oi, s) =>
      match (match oi with Some i => Some (Some i, s) | None => evict (flush_idle s) end) with
      | None => None
      | Some (None, s) => Some (None, s)
      | Some (Some i, s) =>
          match (if has (s_cache s) i B_VALID then hash_remove i (s_cache s) else Some (s_cache s)) with
          | None => None
          | Some c =>
              let c := upd i (set_ident dev blockno B_BUSY) c in
              let c := upd i (set_data (replicate (Z.to_nat BUF_SIZE) 0)) c in
              let c := lru_remove i c in
              let c := hash_insert i c in
              let c := lru_insert_head i c in
              Some (Some i, mkSt c (s_io s))
          end
      end
  end.

(** [buf_init] on the zero-initialised statics. *)
Definition blank_buf : buf := mkBuf 0 0 0 (replicate (Z.to_nat BUF_SIZE) 0) None None None.

Definition init_cache : cache :=
  let c := mkCache (replicate (Z.to_nat NBUF) blank_buf) (replicate (Z.to_nat HASH_SIZE) None)
                   None (Some LruTail) (Some LruHead) None in
  for_up 0 NBUF (fun i c => lru_insert_head (Z.to_nat i) c) c.

Definition buf_init (io : IO) : st := mkSt init_cache io.
End Ops.
Arguments st : clear implicits.

(** ** Field updates *)

Lemma lookup_fmap_length {A B} (f : A -> B) (l l' : list A) :
  (forall j, f <$> l' !! j = f <$> l !! j) -> length l' = length l.
Proof.
  intros Hb. destruct (Nat.lt_trichotomy (length l') (length l)) as [Hlt|[?|Hlt]]; [|done|].
  - specialize (Hb (length l')). rewrite (lookup_ge_None_2 l') in Hb by lia.
    destruct (lookup_lt_is_Some_2 _ _ Hlt) as [x Hx]. by rewrite Hx in Hb.
  - specialize (Hb (length l)). rewrite (lookup_ge_None_2 l) in Hb by lia.
    destruct (lookup_lt_is_Some_2 _ _ Hlt) as [x Hx]. by rewrite Hx in Hb.
Qed.

Lemma lookup_upd c i f j :
  g_buffers (upd i f c) !! j = if decide (i = j) then f <$> g_buffers c !! j else g_buffers c !! j.
Proof.
  unfold upd. simpl. rewrite list_lookup_alter. destruct (decide (i = j)) as [->|]; done.
Qed.

Lemma field_upd {A} (p : buf -> A) d c i f j : is_Some (g_buffers c !! i) ->
  field p d (upd i f c) j = if decide (i = j) then p (f (default blank_buf (g_buffers c !! i))) else field p d c j.
Proof.
  intros [b Hb]. unfold field. rewrite lookup_upd. destruct (decide (i = j)) as [<-|]; [|done]. by rewrite Hb.
Qed.

(** An update that does not touch the field read. *)
Lemma field_upd_other {A} (p : buf -> A) d c i f j : (forall b, p (f b) = p b) -> field p d (upd i f c) j = field p d c j.
Proof.
  intros Hp. unfold field. rewrite lookup_upd. destruct (decide (i = j)) as [<-|]; [|done].
  destruct (g_buffers c !! i); simpl; [apply Hp | done].
Qed.

Lemma length_upd c i f : length (g_buffers (upd i f c)) = length (g_buffers c).
Proof. apply length_alter. Qed.

(** ** The LRU list *)

Fixpoint linked (c : cache) (x : lref) (l : list lref) : Prop :=
  match l with
  | [] => True
  | y :: l => lnext c x = Some y /\ lprev c y = Some x /\ linked c y l
  end.

Lemma linked_frame c c' x l : linked c x l ->
  (forall r, r ∈ x :: l -> lnext c' r = lnext c r) -> (forall r, r ∈ l -> lprev c' r = lprev c r) ->
  linked c' x l.
Proof.
  revert x. induction l as [|y l IH]; intros x; simpl; [done|]. intros (H1 & H2 & H3) Hn Hp.
  rewrite Hn, Hp by set_solver. split_and!; [done | done |].
  apply IH; [done | intros r Hr; apply Hn; set_solver | intros r Hr; apply Hp; set_solver].
Qed.

(** A node in range of the buffer array, or a sentinel. *)
Definition present (c : cache) (r : lref) : Prop :=
  match r with LBuf i => is_Some (g_buffers c !! i) | _ => True end.

Lemma lnext_set_lnext c r v r' : present c r ->
  lnext (set_lnext r v c) r' = if decide (r = r') then v else lnext c r'.
Proof.
  intros Hr. destruct r as [i| |]; simpl in *.
  - destruct r' as [j| |]; simpl; try done. rewrite field_upd by done.
    destruct (decide (i = j)), (decide (LBuf i = LBuf j)); try congruence; done.
  - by destruct r'.
  - by destruct r'.
Qed.

Lemma lprev_set_lprev c r v r' : present c r ->
  lprev (set_lprev r v c) r' = if decide (r = r') then v else lprev c r'.
Proof.
  intros Hr. destruct r as [i| |]; simpl in *.
  - destruct r' as [j| |]; simpl; try done. rewrite field_upd by done.
    destruct (decide (i = j)), (decide (LBuf i = LBuf j)); try congruence; done.
  - by destruct r'.
  - by destruct r'.
Qed.

Lemma lprev_set_lnext c r v r' : lprev (set_lnext r v c) r' = lprev c r'.
Proof. destruct r as [i| |], r' as [j| |]; simpl; try done. by apply field_upd_other. Qed.

Lemma lnext_set_lprev c r v r' : lnext (set_lprev r v c) r' = lnext c r'.
Proof. destruct r as [i| |], r' as [j| |]; simpl; try done. by apply field_upd_other. Qed.

Lemma present_set_lnext c r v r' : present c r' -> present (set_lnext r v c) r'.
Proof.
  destruct r' as [j| |]; simpl; try done. destruct r as [i| |]; simpl; try done.
  rewrite list_lookup_alter. intros [b Hb]. destruct (decide (i = j)) as [->|]; rewrite Hb; by eexists.
Qed.

Lemma present_set_lprev c r v r' : present c r' -> present (set_lprev r v c) r'.
Proof.
  destruct r' as [j| |]; simpl; try done. destruct r as [i| |]; simpl; try done.
  rewrite list_lookup_alter. intros [b Hb]. destruct (decide (i = j)) as [->|]; rewrite Hb; by eexists.
Qed.

Lemma linked_remove c c' x l1 i n l2 :
  let p := default x (list.last l1) in
  NoDup (x :: l1 ++ LBuf i :: n :: l2) -> linked c x (l1 ++ LBuf i :: n :: l2) ->
  (lprev c (LBuf i) = Some p /\ lnext c (LBuf i) = Some n) /\
  (lnext c' p = Some n -> lprev c' n = Some p ->
   (forall r, r <> p -> r <> LBuf i -> lnext c' r = lnext c r) ->
   (forall r, r <> n -> r <> LBuf i -> lprev c' r = lprev c r) ->
   linked c' x (l1 ++ n :: l2)).
Proof.
  revert x. induction l1 as [|y l1 IH]; intros x p Hnd Hl; simpl in Hl.
  - destruct Hl as (H1 & H2 & H3 & H4 & H5). split; [done|]. intros Hn Hp Hfn Hfp. simpl.
    simpl in Hnd. rewrite !NoDup_cons in Hnd. destruct Hnd as (Nx & Ni & Nn & _).
    split_and!; [done | done |]. eapply linked_frame; [exact H5 | |].
    + intros r Hr. apply Hfn; intros ->; [by apply Nx; right | by apply Ni].
    + intros r Hr. apply Hfp; intros ->; [by apply Nn | by apply Ni; right].
  - destruct Hl as (H1 & H2 & Hl). apply NoDup_cons in Hnd as [Hx Hnd].
    assert (Ep : default x (list.last (y :: l1)) = default y (list.last l1))
      by (rewrite list.last_cons; by destruct (list.last l1)).
    subst p. rewrite Ep. destruct (IH y Hnd Hl) as [Hi Hrec]. split; [done|].
    intros Hn Hp Hfn Hfp. simpl. simpl in Hnd. rewrite NoDup_cons in Hnd.
    assert (default y (list.last l1) ∈ y :: l1).
    { destruct (list.last l1) as [z|] eqn:E; [|simpl; set_solver]. simpl. right.
      rewrite list.last_lookup in E. by eapply list_elem_of_lookup_2. }
    destruct Hnd as [Hy Hnd]. rewrite Hfn; [rewrite Hfp; [split_and!; [done | done | by apply Hrec]|..]|..].
    + intros E. apply Hy. rewrite E. set_solver.
    + intros E. apply Hy. rewrite E. set_solver.
    + intros E. apply Hx. rewrite E. set_solver.
    + intros E. apply Hx. rewrite E. set_solver.
Qed.

Definition lru_ok (c : cache) (order : list nat) : Prop := linked c LruHead ((LBuf <$> order) ++ [LruTail]).

Lemma nodes_NoDup (order : list nat) : NoDup order -> NoDup (LruHead :: (LBuf <$> order) ++ [LruTail]).
Proof.
  intros Hnd. apply NoDup_cons. split.
  - rewrite elem_of_app, list_elem_of_fmap. set_solver.
  - apply NoDup_app. split_and!.
    + apply NoDup_fmap_2; [|done]. by intros ? ? [= ->].
    + intros r (i & -> & _)%list_elem_of_fmap. set_solver.
    + apply NoDup_singleton.
Qed.

(** Everything about the cache but the LRU links. *)
Definition core (b : buf) : buf := set_lru_prev None (set_lru_next None b).
Definition same_core (c c' : cache) : Prop :=
  g_hash c' = g_hash c /\ forall i, core <$> g_buffers c' !! i = core <$> g_buffers c !! i.

Lemma same_core_refl c : same_core c c.
Proof. done. Qed.
Lemma same_core_trans c1 c2 c3 : same_core c1 c2 -> same_core c2 c3 -> same_core c1 c3.
Proof. intros [E1 H1] [E2 H2]. split; [congruence|]. intros i. by rewrite H2. Qed.

Lemma core_set_lnext r v c : same_core c (set_lnext r v c).
Proof.
  split; [by destruct r|]. intros j. destruct r as [i| |]; simpl; try done.
  rewrite list_lookup_alter. destruct (decide (i = j)) as [->|]; [|done]. by destruct (g_buffers c !! j).
Qed.
Lemma core_set_lprev r v c : same_core c (set_lprev r v c).
Proof.
  split; [by destruct r|]. intros j. destruct r as [i| |]; simpl; try done.
  rewrite list_lookup_alter. destruct (decide (i = j)) as [->|]; [|done]. by destruct (g_buffers c !! j).
Qed.

#[local] Hint Resolve core_set_lnext core_set_lprev same_core_refl : core.

Lemma same_core_field {A} (p : buf -> A) d c c' i : (forall b, p (core b) = p b) -> same_core c c' ->
  field p d c' i = field p d c i.
Proof.
  intros Hp [_ Hc]. specialize (Hc i). unfold field.
  destruct (g_buffers c' !! i) as [b'|], (g_buffers c !! i) as [b|]; simpl in Hc; try done.
  apply (f_equal (fmap p)) in Hc. simpl in Hc. rewrite !Hp in Hc. congruence.
Qed.

Definition in_range (c : cache) (order : list nat) : Prop := forall i, i ∈ order -> is_Some (g_buffers c !! i).

Lemma present_node c order r : in_range c order -> r ∈ LruHead :: (LBuf <$> order) ++ [LruTail] -> present c r.
Proof.
  intros Hin Hr. destruct r as [i| |]; simpl; try done. apply Hin.
  apply elem_of_cons in Hr as [|Hr]; [done|]. apply elem_of_app in Hr as [Hr|Hr]; [|set_solver].
  apply list_elem_of_fmap in Hr as (j & [= ->] & ?). done.
Qed.

Lemma lru_remove_spec c order i : lru_ok c order -> NoDup order -> i ∈ order -> in_range c order ->
  exists order', order ≡ₚ i :: order' /\ lru_ok (lru_remove i c) order' /\ same_core c (lru_remove i c).
Proof.
  intros Hl Hnd (o1 & o2 & ->)%list_elem_of_split Hin. exists (o1 ++ o2).
  split; [symmetry; apply Permutation_middle|].
  pose proof (nodes_NoDup _ Hnd) as Hnn. pose proof (fun r => present_node c _ r Hin) as Hpres.
  unfold lru_ok in *. rewrite fmap_app, fmap_cons, <- (assoc_L (++)) in Hl, Hnn, Hpres. simpl in Hl, Hnn, Hpres.
  rewrite fmap_app, <- (assoc_L (++)).
  destruct ((LBuf <$> o2) ++ [LruTail]) as [|n l2] eqn:E2; [by destruct o2|].
  set (p := default LruHead (list.last (LBuf <$> o1))).
  destruct (linked_remove c (lru_remove i c) LruHead (LBuf <$> o1) i n l2 Hnn Hl) as [[Hp Hn] Hrec].
  fold p in Hp, Hrec. unfold lru_remove in *. rewrite Hp, Hn in *.
  assert (Hpin : p ∈ LruHead :: (LBuf <$> o1)).
  { unfold p. destruct (list.last _) as [z|] eqn:E; simpl; [|set_solver]. right.
    rewrite list.last_lookup in E. by eapply list_elem_of_lookup_2. }
  assert (present c p) by (apply Hpres; set_solver).
  assert (present c n) by (apply Hpres; set_solver).
  assert (present c (LBuf i)) by (apply Hpres; set_solver).
  assert (p <> LBuf i /\ n <> LBuf i) as [Hpi Hni].
  { rewrite NoDup_cons, NoDup_app, !NoDup_cons in Hnn. destruct Hnn as (N1 & _ & N2 & N3 & N4 & _).
    split; [|intros ->; set_solver]. intros E. apply elem_of_cons in Hpin as [?|Hpin]; [congruence|].
    apply (N2 p Hpin). rewrite E. set_solver. }
  split.
  - apply Hrec.
    + rewrite lnext_set_lprev, lnext_set_lnext, decide_False by (done || by apply present_set_lprev, present_set_lnext).
      rewrite lnext_set_lprev, lnext_set_lnext by done. by rewrite decide_True.
    + rewrite lprev_set_lprev by by apply present_set_lnext, present_set_lprev, present_set_lnext.
      rewrite decide_False, lprev_set_lnext, lprev_set_lprev by (done || by apply present_set_lnext).
      by rewrite decide_True.
    + intros r Hr1 Hr2. rewrite lnext_set_lprev, lnext_set_lnext, decide_False by (done || by apply present_set_lprev, present_set_lnext).
      rewrite lnext_set_lprev, lnext_set_lnext, decide_False by done. done.
    + intros r Hr1 Hr2. rewrite lprev_set_lprev by by apply present_set_lnext, present_set_lprev, present_set_lnext.
      rewrite decide_False, lprev_set_lnext, lprev_set_lprev, decide_False by (done || by apply present_set_lnext).
      by rewrite lprev_set_lnext.
  - eapply same_core_trans; [|apply core_set_lprev]. eapply same_core_trans; [|apply core_set_lnext].
    eapply same_core_trans; [|apply core_set_lprev]. apply core_set_lnext.
Qed.

Lemma lru_insert_spec c order i : lru_ok c order -> NoDup (i :: order) -> in_range c (i :: order) ->
  lru_ok (lru_insert_head i c) (i :: order) /\ same_core c (lru_insert_head i c).
Proof.
  intros Hl Hnd Hin. pose proof (nodes_NoDup _ Hnd) as Hnn. pose proof (fun r => present_node c _ r Hin) as Hpres.
  unfold lru_ok in *. rewrite fmap_cons in Hnn, Hpres |- *. simpl app in Hnn, Hpres |- *.
  destruct ((LBuf <$> order) ++ [LruTail]) as [|n l] eqn:E; [by destruct order|].
  destruct Hl as (H1 & H2 & H3). simpl in H1.
  unfold lru_insert_head. simpl head_next at 2 3. rewrite H1.
  assert (head_next (set_lprev (LBuf i) (Some LruHead) (set_lnext (LBuf i) (Some n) c)) = Some n) as -> by done.
  assert (present c n) by (apply Hpres; set_solver). assert (present c (LBuf i)) by (apply Hpres; set_solver).
  rewrite !NoDup_cons in Hnn. destruct Hnn as (N1 & N2 & N3 & _).
  assert (n <> LBuf i /\ n <> LruHead) as [Hni Hnh] by (split; intros ->; set_solver).
  set (c1 := set_lnext (LBuf i) (Some n) c). set (c2 := set_lprev (LBuf i) (Some LruHead) c1).
  set (c3 := set_lprev n (Some (LBuf i)) c2). set (c4 := set_lnext LruHead (Some (LBuf i)) c3).
  assert (Hnext : forall r, lnext c4 r = if decide (LruHead = r) then Some (LBuf i) else
                            if decide (LBuf i = r) then Some n else lnext c r).
  { intros r. unfold c4. rewrite lnext_set_lnext by done. destruct (decide (LruHead = r)); [done|].
    unfold c3, c2, c1. rewrite !lnext_set_lprev, lnext_set_lnext by done. done. }
  assert (Hprev : forall r, lprev c4 r = if decide (n = r) then Some (LBuf i) else
                            if decide (LBuf i = r) then Some LruHead else lprev c r).
  { intros r. unfold c4. rewrite lprev_set_lnext. unfold c3.
    rewrite lprev_set_lprev by by apply present_set_lprev, present_set_lnext.
    destruct (decide (n = r)); [done|]. unfold c2. rewrite lprev_set_lprev by by apply present_set_lnext.
    destruct (decide (LBuf i = r)); [done|]. unfold c1. by rewrite lprev_set_lnext. }
  split.
  - cbn [linked]. rewrite !Hnext, !Hprev. split_and!.
    + done.
    + by rewrite decide_False, decide_True by done.
    + by rewrite (decide_True (P := LBuf i = LBuf i)) by done.
    + by rewrite decide_True.
    + eapply linked_frame; [exact H3 | |].
      * intros r Hr. rewrite Hnext, !decide_False; [done | intros <-; set_solver..].
      * intros r Hr. rewrite Hprev, !decide_False; [done | intros <-; set_solver..].
  - eapply same_core_trans; [|apply core_set_lnext]. eapply same_core_trans; [|apply core_set_lprev].
    eapply same_core_trans; [|apply core_set_lprev]. apply core_set_lnext.
Qed.

(** Walking the LRU list backwards from a node. *)
Fixpoint blinked (c : cache) (p : option lref) (l : list nat) : Prop :=
  match l with
  | [] => p = Some LruHead
  | i :: l => p = Some (LBuf i) /\ blinked c (lprev c (LBuf i)) l
  end.

Lemma linked_last c x l y z : linked c x (l ++ [y; z]) -> lprev c z = Some y /\ linked c x (l ++ [y]).
Proof.
  revert x. induction l as [|w l IH]; intros x; simpl; [naive_solver|].
  intros (H1 & H2 & H3). apply IH in H3 as [? ?]. naive_solver.
Qed.

Lemma linked_blinked c order e : linked c LruHead ((LBuf <$> order) ++ [e]) -> blinked c (lprev c e) (reverse order).
Proof.
  revert e. induction order as [|i order IH] using rev_ind; intros e; [by intros (_ & ? & _)|].
  rewrite fmap_app, <- (assoc_L (++)). intros [E Hl]%linked_last. rewrite reverse_snoc. simpl.
  split; [done|]. by apply (IH (LBuf i)).
Qed.

(** ** Hash chains *)

Abbreviation hnext c i := (field b_hash_next None c i).
Abbreviation dev_of c i := (field b_dev 0 c i).
Abbreviation blk_of c i := (field b_blockno 0 c i).
Abbreviation data_of c i := (field b_data [] c i).

Fixpoint hchain (c : cache) (h : option nat) (l : list nat) : Prop :=
  match l with
  | [] => h = None
  | i :: l => h = Some i /\ hchain c (hnext c i) l
  end.

Lemma hchain_frame c c' h l : (forall i, i ∈ l -> hnext c' i = hnext c i) -> hchain c h l -> hchain c' h l.
Proof.
  revert h. induction l as [|i l IH]; intros h Hf; simpl; [done|]. intros [-> Hc]. split; [done|].
  rewrite Hf by set_solver. apply IH; [|done]. intros j Hj. apply Hf. set_solver.
Qed.

Lemma hash_find_spec fuel dev b c h l : hchain c h l -> (length l < fuel)%nat ->
  hash_find fuel dev b h c = Some (List.find (fun i => (dev_of c i =? dev) && (blk_of c i =? b)) l).
Proof.
  revert fuel h. induction l as [|i l IH]; intros [|fuel] h Hc Hf; simpl in Hf; try lia.
  - simpl in Hc. by subst h.
  - destruct Hc as [-> Hc]. simpl. destruct (_ && _); [done|]. apply IH; [done | lia].
Qed.

(** Everything about a buffer but its hash link. *)
Definition unhashed (b : buf) : buf := set_hash_next None b.

Record rehashed (c c' : cache) : Prop := {
  rh_len : length (g_hash c') = length (g_hash c);
  rh_bufs : forall j, unhashed <$> g_buffers c' !! j = unhashed <$> g_buffers c !! j;
  rh_next : forall r, lnext c' r = lnext c r;
  rh_prev : forall r, lprev c' r = lprev c r
}.

Lemma rehashed_trans c1 c2 c3 : rehashed c1 c2 -> rehashed c2 c3 -> rehashed c1 c3.
Proof. intros [A1 A2 A3 A4] [B1 B2 B3 B4]. split; intros; congruence. Qed.

Lemma rehashed_field {A} (p : buf -> A) d c c' i : (forall b, p (unhashed b) = p b) -> rehashed c c' ->
  field p d c' i = field p d c i.
Proof.
  intros Hp Hr. pose proof (rh_bufs _ _ Hr i) as Hc. unfold field.
  destruct (g_buffers c' !! i) as [b'|], (g_buffers c !! i) as [b|]; simpl in Hc; try done.
  apply (f_equal (fmap p)) in Hc. simpl in Hc. rewrite !Hp in Hc. congruence.
Qed.

Lemma rehashed_upd c i n : rehashed c (upd i (set_hash_next n) c).
Proof.
  split; [done | | |].
  - intros j. rewrite lookup_upd. destruct (decide (i = j)); [|done]. by destruct (g_buffers c !! j).
  - intros [j| |]; simpl; try done. by apply field_upd_other.
  - intros [j| |]; simpl; try done. by apply field_upd_other.
Qed.

Lemma rehashed_with c h : length h = length (g_hash c) -> rehashed c (with_hash c h).
Proof. intros Hl. split; [done | done | by intros [] | by intros []]. Qed.

Definition link (c : cache) (h : Z) (p : option nat) : option nat :=
  match p with None => bucket c h | Some q => hnext c q end.

Lemma hash_unlink_spec fuel h p i c l : (Z.to_nat h < length (g_hash c))%nat ->
  hchain c (link c h p) l -> NoDup l -> i ∈ l ->
  (forall q, p = Some q -> (q ∉ l) /\ is_Some (g_buffers c !! q)) -> in_range c l -> (length l < fuel)%nat ->
  exists c' l', hash_unlink fuel h p i c = Some c' /\ l ≡ₚ i :: l' /\ hchain c' (link c' h p) l' /\ rehashed c c' /\
    (forall j, j ∉ l -> p <> Some j -> hnext c' j = hnext c j) /\
    (forall h', Z.to_nat h' <> Z.to_nat h \/ p <> None -> bucket c' h' = bucket c h').
Proof.
  revert fuel p. induction l as [|x l IH]; intros [|fuel] p Hh Hc Hnd Hi Hp Hin Hf; simpl in Hf; try lia; [set_solver|].
  destruct Hc as [Hx Hc]. apply NoDup_cons in Hnd as [Hxl Hnd]. cbn [hash_unlink]. fold (link c h p). rewrite Hx.
  destruct (bool_decide (x = i)) eqn:Exi.
  - apply bool_decide_eq_true in Exi as ->. eexists _, l. split; [reflexivity|]. split; [done|].
    destruct p as [q|].
    + destruct (Hp q eq_refl) as [Hq Hqs]. split_and!.
      * simpl. rewrite field_upd, decide_True by done. simpl. eapply hchain_frame; [|exact Hc].
        intros j Hj. rewrite field_upd, decide_False by (done || (intros ->; set_solver)). done.
      * apply rehashed_upd.
      * intros j Hj Hpj. rewrite field_upd, decide_False by (done || congruence). done.
      * done.
    + split_and!.
      * simpl. unfold bucket. simpl. rewrite list_lookup_insert_eq by done. simpl.
        eapply hchain_frame; [|exact Hc]. done.
      * apply rehashed_with. by rewrite length_insert.
      * done.
      * intros h' Hh'. unfold bucket. simpl. rewrite list_lookup_insert_ne; [done|]. destruct Hh'; congruence.
  - apply bool_decide_eq_false in Exi.
    destruct (IH fuel (Some x)) as (c' & l' & E & Hperm & Hc' & Hr & Ho & Hb); try done.
    { set_solver. }
    { intros q [= <-]. split; [done|]. apply Hin. set_solver. }
    { intros j Hj. apply Hin. set_solver. }
    { lia. }
    exists c', (x :: l'). split; [done|]. split; [rewrite Hperm; apply Permutation_swap|].
    assert (link c' h p = Some x) as ->.
    { destruct p as [q|]; simpl in *.
      - destruct (Hp q eq_refl) as [Hq _]. rewrite Ho; [done | set_solver | set_solver].
      - rewrite Hb; [done|]. by right. }
    split_and!; [by split | done | |].
    + intros j Hj Hpj. apply Ho; [set_solver | set_solver].
    + intros h' Hh'. apply Hb. by right.
Qed.

(** ** The device contract *)

(** A device whose first [limit] sectors can be read and written one at a
    time. *)
Class DiskIO {IO : Type} (dev_rw : Z -> Z -> list Z -> bool -> IO -> os_status * list Z * IO) (limit : Z) := {
  io_ok : IO -> Prop;
  io_sector : IO -> Z -> list Z;
  io_length s b : length (io_sector s b) = 512%nat;
  io_read s b buf : io_ok s -> 0 <= b < limit -> length buf = 512%nat ->
    exists s', dev_rw BUF_DEV_ATA b buf false s = (OS_OK, io_sector s b, s') /\ io_ok s' /\
               forall i, io_sector s' i = io_sector s i;
  io_write s b buf : io_ok s -> 0 <= b < limit -> length buf = 512%nat ->
    exists s', dev_rw BUF_DEV_ATA b buf true s = (OS_OK, buf, s') /\ io_ok s' /\
               forall i, io_sector s' i = if decide (i = b) then buf else io_sector s i
}.

(** ** Flag words *)

Definition hasf (f b : Z) : bool := ctrue (Z.land f b).

Lemma flag_cases f : 0 <= f < 8 -> f ∈ [0; 1; 2; 3; 4; 5; 6; 7].
Proof. intros H. assert (f = 0 \/ f = 1 \/ f = 2 \/ f = 3 \/ f = 4 \/ f = 5 \/ f = 6 \/ f = 7) by lia. set_solver. Qed.

(** Decides a fact about a flag word below 8 by running through the words. *)
Ltac each_flag H :=
  let H' := fresh in
  pose proof (flag_cases _ H) as H';
  repeat (apply elem_of_cons in H' as [->|H']; [by vm_compute|]); by apply elem_of_nil in H'.

Lemma clear_dirty f : 0 <= f < 8 -> let f' := Z.land f (u32 (Z.lnot B_DIRTY)) in
  (0 <=? f') && (f' <? 8) && negb (hasf f' B_DIRTY) && eqb (hasf f' B_VALID) (hasf f B_VALID)
  && eqb (hasf f' B_BUSY) (hasf f B_BUSY) = true.
Proof. intros H. each_flag H. Qed.

Lemma clear_busy f : 0 <= f < 8 -> let f' := Z.land f (u32 (Z.lnot B_BUSY)) in
  (0 <=? f') && (f' <? 8) && negb (hasf f' B_BUSY) && eqb (hasf f' B_VALID) (hasf f B_VALID)
  && eqb (hasf f' B_DIRTY) (hasf f B_DIRTY) = true.
Proof. intros H. each_flag H. Qed.

Lemma set_busy f : 0 <= f < 8 -> let f' := Z.lor f B_BUSY in
  (0 <=? f') && (f' <? 8) && hasf f' B_BUSY && eqb (hasf f' B_VALID) (hasf f B_VALID)
  && eqb (hasf f' B_DIRTY) (hasf f B_DIRTY) = true.
Proof. intros H. each_flag H. Qed.

Lemma set_dirty f : 0 <= f < 8 -> let f' := Z.lor f B_DIRTY in
  (0 <=? f') && (f' <? 8) && hasf f' B_DIRTY && eqb (hasf f' B_VALID) (hasf f B_VALID)
  && eqb (hasf f' B_BUSY) (hasf f B_BUSY) = true.
Proof. intros H. each_flag H. Qed.

Section Correct.
Context {IO : Type} {dev_rw : Z -> Z -> list Z -> bool -> IO -> os_status * list Z * IO} {limit : Z}.
Context (Hlimit : limit <= 2 ^ 32) `{!DiskIO dev_rw limit}.

Abbreviation nbuf := (16%nat).

(** The cache, apart from the LRU links, with the blocks [H] (buffer to block)
    currently held by clients. *)
Record core_inv (c : cache) (io : IO) (H : gmap nat Z) : Prop := {
  ci_len : length (g_buffers c) = nbuf;
  ci_hlen : length (g_hash c) = 8%nat;
  ci_io : io_ok io;
  ci_flags : forall i, (i < nbuf)%nat -> 0 <= flags c i < 8;
  ci_data : forall i, (i < nbuf)%nat -> length (data_of c i) = 512%nat;
  ci_valid : forall i, (i < nbuf)%nat -> has c i B_VALID = true -> dev_of c i = BUF_DEV_ATA /\ 0 <= blk_of c i < limit;
  ci_uniq : forall i j, (i < nbuf)%nat -> (j < nbuf)%nat -> has c i B_VALID = true -> has c j B_VALID = true ->
    blk_of c i = blk_of c j -> i = j;
  ci_clean : forall i, (i < nbuf)%nat -> has c i B_VALID = true -> has c i B_DIRTY = false ->
    data_of c i = io_sector io (blk_of c i);
  ci_invalid : forall i, (i < nbuf)%nat -> has c i B_VALID = false -> has c i B_DIRTY = false /\ has c i B_BUSY = false;
  ci_held : forall i b, H !! i = Some b <-> (i < nbuf)%nat /\ has c i B_BUSY = true /\ blk_of c i = b;
  ci_hash : forall h, 0 <= h < HASH_SIZE -> exists l, hchain c (bucket c h) l /\ NoDup l /\
    forall i, i ∈ l <-> (i < nbuf)%nat /\ has c i B_VALID = true /\ hash (dev_of c i) (blk_of c i) = h
}.

Lemma core_inv_same c c' io H : same_core c c' -> core_inv c io H -> core_inv c' io H.
Proof.
  intros Hs [I1 I2 I3 I4 I5 I6 I7 I8 I9 I10 I11].
  pose proof (lookup_fmap_length core _ _ (proj2 Hs)) as Hlen.
  assert (Hf : forall i, flags c' i = flags c i) by (intros i; by apply same_core_field).
  assert (Hd : forall i, dev_of c' i = dev_of c i) by (intros i; by apply same_core_field).
  assert (Hb : forall i, blk_of c' i = blk_of c i) by (intros i; by apply same_core_field).
  assert (Hda : forall i, data_of c' i = data_of c i) by (intros i; by apply same_core_field).
  assert (Hn : forall i, hnext c' i = hnext c i) by (intros i; by apply same_core_field).
  assert (Hh : forall i f, has c' i f = has c i f) by (intros i f; unfold has; by rewrite Hf).
  destruct Hs as [Hg _].
  split; intros; rewrite ?Hf, ?Hd, ?Hb, ?Hda, ?Hh in *; try (by eauto).
  - congruence.
  - by rewrite Hg.
  - destruct (I11 h) as (l & L1 & L2 & L3); [done|]. exists l. split_and!; [|done|].
    + unfold bucket. rewrite Hg. eapply hchain_frame; [|exact L1]. intros i _. apply Hn.
    + intros i. rewrite L3, Hh, Hd, Hb. done.
Qed.

(** Changing flags or data of one buffer, but not whether it is valid. *)
Lemma core_inv_upd c io H i f io' H' :
  core_inv c io H -> (i < nbuf)%nat ->
  (forall b, b_dev (f b) = b_dev b /\ b_blockno (f b) = b_blockno b /\ b_hash_next (f b) = b_hash_next b) ->
  let c' := upd i f c in
  0 <= flags c' i < 8 -> has c' i B_VALID = has c i B_VALID -> length (data_of c' i) = 512%nat ->
  io_ok io' -> (forall b, b <> blk_of c i \/ has c i B_VALID = false -> io_sector io' b = io_sector io b) ->
  (has c i B_VALID = true -> has c' i B_DIRTY = false -> data_of c' i = io_sector io' (blk_of c i)) ->
  (has c i B_VALID = false -> has c' i B_DIRTY = false /\ has c' i B_BUSY = false) ->
  (forall j b, H' !! j = Some b <-> if decide (j = i) then has c' i B_BUSY = true /\ blk_of c i = b else H !! j = Some b) ->
  core_inv c' io' H'.
Proof.
  intros [I1 I2 I3 I4 I5 I6 I7 I8 I9 I10 I11] Hi Hf c' Hfl Hva Hda Hio Hsec Hcl Hin Hheld.
  assert (Hlk : is_Some (g_buffers c !! i)) by (apply lookup_lt_is_Some_2; lia).
  assert (Hb : forall j, blk_of c' j = blk_of c j) by (intros j; apply field_upd_other; apply Hf).
  assert (Hd : forall j, dev_of c' j = dev_of c j) by (intros j; apply field_upd_other; apply Hf).
  assert (Hn : forall j, hnext c' j = hnext c j) by (intros j; apply field_upd_other; apply Hf).
  assert (Hfo : forall j, j <> i -> flags c' j = flags c j).
  { intros j Hj. unfold flags, c'. rewrite field_upd, decide_False by done. done. }
  assert (Hdo : forall j, j <> i -> data_of c' j = data_of c j).
  { intros j Hj. unfold c'. rewrite field_upd, decide_False by done. done. }
  assert (Hho : forall j g, j <> i -> has c' j g = has c j g) by (intros j g Hj; unfold has; by rewrite Hfo).
  assert (Hvj : forall j, has c' j B_VALID = has c j B_VALID).
  { intros j. destruct (decide (j = i)) as [->|]; [done | by apply Hho]. }
  split; [by unfold c'; rewrite length_upd | done | done | | | | | | | |].
  - intros j Hj. destruct (decide (j = i)) as [->|]; [done|]. rewrite Hfo by done. by apply I4.
  - intros j Hj. destruct (decide (j = i)) as [->|]; [done|]. rewrite Hdo by done. by apply I5.
  - intros j Hj. rewrite Hvj, Hd, Hb. by apply I6.
  - intros j k Hj Hk. rewrite !Hvj, !Hb. by apply I7.
  - intros j Hj. rewrite Hvj, Hb. destruct (decide (j = i)) as [->|Hne]; [done|].
    rewrite Hho, Hdo by done. intros Hv Hdj. rewrite (I8 j Hj Hv Hdj). symmetry. apply Hsec.
    destruct (has c i B_VALID) eqn:Ev; [left | by right]. intros E. apply Hne. by apply I7.
  - intros j Hj. rewrite Hvj. destruct (decide (j = i)) as [->|Hne]; [done|]. rewrite !Hho by done. by apply I9.
  - intros j b. rewrite Hheld. destruct (decide (j = i)) as [->|Hne]; rewrite Hb; [tauto|].
    rewrite I10, Hho by done. done.
  - intros h Hh. destruct (I11 h Hh) as (l & L1 & L2 & L3). exists l. split_and!; [|done|].
    + eapply hchain_frame; [|exact L1]. intros j _. apply Hn.
    + intros j. rewrite L3, Hvj, Hd, Hb. done.
Qed.

(** The logical contents of a block: the cached copy if there is one. *)
Definition view (s : st IO) (b : Z) : list Z :=
  let c := s_cache s in
  match List.find (fun i => has c i B_VALID && (blk_of c i =? b)) (seq 0 nbuf) with
  | Some i => data_of c i
  | None => io_sector (s_io s) b
  end.

Lemma view_hit c io H i b : core_inv c io H -> (i < nbuf)%nat -> has c i B_VALID = true -> blk_of c i = b ->
  view (mkSt c io) b = data_of c i.
Proof.
  intros HI Hi Hv Hb. unfold view. simpl s_cache. destruct (List.find _ _) as [j|] eqn:E.
  - apply find_some in E as [Hj [Hvj Hbj%Z.eqb_eq]%andb_true_iff]. apply in_seq in Hj.
    by rewrite (ci_uniq _ _ _ HI i j) by (lia || congruence).
  - exfalso. eapply find_none in E; [|apply in_seq; split; [lia | exact Hi]].
    simpl in E. by rewrite Hv, Hb, Z.eqb_refl in E.
Qed.

Lemma view_miss c io b : (forall i, (i < nbuf)%nat -> has c i B_VALID = true -> blk_of c i <> b) ->
  view (mkSt c io) b = io_sector io b.
Proof.
  intros Hm. unfold view. simpl s_cache. destruct (List.find _ _) as [j|] eqn:E; [|done].
  apply find_some in E as [Hj [Hvj Hbj%Z.eqb_eq]%andb_true_iff]. apply in_seq in Hj.
  by destruct (Hm j ltac:(lia) Hvj).
Qed.

Lemma cached_dec c b : {i | (i < nbuf)%nat /\ has c i B_VALID = true /\ blk_of c i = b} +
  {forall i, (i < nbuf)%nat -> has c i B_VALID = true -> blk_of c i <> b}.
Proof.
  destruct (List.find (fun i => has c i B_VALID && (blk_of c i =? b)) (seq 0 nbuf)) as [j|] eqn:E.
  - left. exists j. apply find_some in E as [Hj [Hvj Hbj%Z.eqb_eq]%andb_true_iff]. apply in_seq in Hj. split; [lia|done].
  - right. intros i Hi Hv Hb. eapply find_none in E; [|apply in_seq; split; [lia | exact Hi]].
    simpl in E. by rewrite Hv, Hb, Z.eqb_refl in E.
Qed.

Definition lru_fine (c : cache) : Prop := exists order, order ≡ₚ seq 0 nbuf /\ lru_ok c order.

Lemma lru_fine_upd c i f : (forall b, b_lru_prev (f b) = b_lru_prev b /\ b_lru_next (f b) = b_lru_next b) ->
  lru_fine c -> lru_fine (upd i f c).
Proof.
  intros Hf (order & Hp & Hl). exists order. split; [done|]. eapply linked_frame; [exact Hl | |].
  - intros [j| |] _; simpl; try done. apply field_upd_other. apply Hf.
  - intros [j| |] _; simpl; try done. apply field_upd_other. apply Hf.
Qed.

Lemma lru_fine_rehashed c c' : rehashed c c' -> lru_fine c -> lru_fine c'.
Proof.
  intros [_ _ Hn Hp] (order & Hpm & Hl). exists order. split; [done|]. eapply linked_frame; [exact Hl | done..].
Qed.

(** The whole invariant. *)
Record inv (s : st IO) (H : gmap nat Z) : Prop := {
  inv_core : core_inv (s_cache s) (s_io s) H;
  inv_lru : lru_fine (s_cache s)
}.

Lemma flags_upd c i f : (i < length (g_buffers c))%nat ->
  flags (upd i (fun b => set_flags (f (b_flags b)) b) c) i = f (flags c i).
Proof.
  intros Hi. unfold flags. rewrite field_upd, decide_True by (done || by apply lookup_lt_is_Some_2).
  unfold field. destruct (lookup_lt_is_Some_2 _ _ Hi) as [b ->]. done.
Qed.

(** Only the flag word of buffer [i] changes, and validity does not. *)
Lemma inv_set_flags c io H i f H' : core_inv c io H -> (i < nbuf)%nat ->
  let c' := upd i (fun b => set_flags (f (b_flags b)) b) c in
  0 <= f (flags c i) < 8 -> hasf (f (flags c i)) B_VALID = hasf (flags c i) B_VALID ->
  hasf (f (flags c i)) B_DIRTY = hasf (flags c i) B_DIRTY \/
    (hasf (flags c i) B_VALID = true /\ hasf (f (flags c i)) B_DIRTY = true) ->
  (hasf (flags c i) B_VALID = false -> hasf (f (flags c i)) B_BUSY = false) ->
  (forall j b, H' !! j = Some b <->
     if decide (j = i) then hasf (f (flags c i)) B_BUSY = true /\ blk_of c i = b else H !! j = Some b) ->
  core_inv c' io H' /\ (forall b, view (mkSt c' io) b = view (mkSt c io) b) /\
  (forall j, data_of c' j = data_of c j) /\ flags c' i = f (flags c i).
Proof.
  intros HI Hi c' Hr Hv Hd Hb HH'.
  assert (Hlen : (i < length (g_buffers c))%nat) by (rewrite (ci_len _ _ _ HI); done).
  assert (Hfl : flags c' i = f (flags c i)) by by apply flags_upd.
  assert (Hhas : forall g, has c' i g = hasf (f (flags c i)) g) by (intros g; unfold has; by rewrite Hfl).
  assert (Hda : forall j, data_of c' j = data_of c j) by (intros j; by apply field_upd_other).
  assert (Hbk : forall j, blk_of c' j = blk_of c j) by (intros j; by apply field_upd_other).
  assert (HI' : core_inv c' io H').
  { apply (core_inv_upd c io H i _ io H' HI Hi); fold c'; rewrite ?Hfl, ?Hhas, ?Hda; try done.
    - by apply (ci_data _ _ _ HI).
    - apply HI.
    - intros Hvi Hdi. apply (ci_clean _ _ _ HI i Hi Hvi). unfold has, hasf in *. destruct Hd as [Hd|[_ Hd]]; congruence.
    - intros Hvi. destruct (ci_invalid _ _ _ HI i Hi Hvi) as [D1 D2]. unfold has in *.
      split; [|by apply Hb]. destruct Hd as [Hd|[Hd _]]; unfold hasf in *; congruence. }
  assert (Hvj : forall j, has c' j B_VALID = has c j B_VALID).
  { intros j. destruct (decide (j = i)) as [->|Hne]; [by rewrite Hhas|]. unfold has, flags, c'.
    rewrite field_upd, decide_False by (done || by apply lookup_lt_is_Some_2). done. }
  split_and!; [done | | done | done]. intros b.
  destruct (cached_dec c b) as [(j & Hj & Hvj' & Hbj)|Hm].
  - rewrite (view_hit c' io H' j b), (view_hit c io H j b); try done; [by rewrite Hvj | by rewrite Hbk].
  - rewrite !view_miss; [done | done |]. intros j Hj. rewrite Hvj, Hbk. by apply Hm.
Qed.

(** Splits the conjunction of boolean facts about a flag word. *)
Ltac split_flags E :=
  cbv zeta in E; rewrite ?andb_true_iff, ?negb_true_iff, ?eqb_true_iff, ?Z.leb_le, ?Z.ltb_lt in E;
  destruct E as ((((?Hge & ?Hlt) & ?Ha) & ?Hb) & ?Hc).

Lemma held_facts s H i b : inv s H -> H !! i = Some b ->
  (i < nbuf)%nat /\ has (s_cache s) i B_VALID = true /\ blk_of (s_cache s) i = b /\ 0 <= b < limit /\
  data_of (s_cache s) i = view s b.
Proof.
  intros [HI _] Hi. destruct (proj1 (ci_held _ _ _ HI i b) Hi) as (Hlt & Hbusy & Hb).
  assert (Hv : has (s_cache s) i B_VALID = true).
  { destruct (has (s_cache s) i B_VALID) eqn:E; [done|]. destruct (ci_invalid _ _ _ HI i Hlt E). congruence. }
  split_and!; try done.
  - rewrite <- Hb. by apply (ci_valid _ _ _ HI).
  - rewrite <- Hb. by apply (ci_valid _ _ _ HI).
  - destruct s as [c io]. symmetry. by eapply view_hit.
Qed.

Lemma brelse_spec s H i b : inv s H -> H !! i = Some b ->
  inv (brelse i s) (delete i H) /\ (forall b', view (brelse i s) b' = view s b') /\
  (forall j, data_of (s_cache (brelse i s)) j = data_of (s_cache s) j).
Proof.
  intros Hinv Hi. destruct (held_facts _ _ _ _ Hinv Hi) as (Hlt & Hv & Hb & _).
  destruct Hinv as [HI HL]. destruct s as [c io]. simpl in *.
  pose proof (clear_busy _ (ci_flags _ _ _ HI i Hlt)) as E. split_flags E.
  destruct (inv_set_flags c io H i (fun f => Z.land f (u32 (Z.lnot B_BUSY))) (delete i H) HI Hlt) as (HI' & Hview & Hd & _);
    try done; [by left| |].
  { intros j b'. destruct (decide (j = i)) as [->|Hne]; [rewrite lookup_delete_eq|rewrite lookup_delete_ne by done; done].
    rewrite Ha. naive_solver. }
  split_and!; [|done|done]. split; [done|]. by apply lru_fine_upd.
Qed.

Lemma upd_upd i f g c : upd i g (upd i f c) = upd i (fun b => g (f b)) c.
Proof.
  unfold upd, with_bufs. simpl. f_equal. apply list_alter_alter_eq.
Qed.

(** Storing new contents in a held buffer and marking it dirty. *)
Definition bset (i : nat) (d : list Z) (s : st IO) : st IO := on_cache (upd i (set_data d)) s.
Definition bdirty (i : nat) (s : st IO) : st IO := or_flag B_DIRTY i s.

Lemma bset_dirty_spec s H i b d : inv s H -> H !! i = Some b -> length d = 512%nat ->
  let s' := bdirty i (bset i d s) in
  inv s' H /\ (forall b', view s' b' = if decide (b' = b) then d else view s b') /\
  has (s_cache s') i B_DIRTY = true /\
  (forall j, j <> i -> data_of (s_cache s') j = data_of (s_cache s) j).
Proof.
  intros Hinv Hi Hd s'. destruct (held_facts _ _ _ _ Hinv Hi) as (Hlt & Hv & Hb & Hr & _).
  destruct Hinv as [HI HL]. destruct s as [c io]. simpl in HI, HL, Hv, Hb.
  assert (Hlen : (i < length (g_buffers c))%nat) by (rewrite (ci_len _ _ _ HI); done).
  set (f := fun b => set_flags (Z.lor (b_flags b) B_DIRTY) (set_data d b)).
  assert (Es : s' = mkSt (upd i f c) io).
  { unfold s', bdirty, bset, or_flag, on_cache. simpl. by rewrite upd_upd. }
  rewrite Es. set (c' := upd i f c).
  assert (Hfl : flags c' i = Z.lor (flags c i) B_DIRTY).
  { unfold c', flags. rewrite field_upd, decide_True by (done || by apply lookup_lt_is_Some_2).
    unfold field. destruct (lookup_lt_is_Some_2 _ _ Hlen) as [b0 ->]. done. }
  assert (Hdi : data_of c' i = d).
  { unfold c'. rewrite field_upd, decide_True by (done || by apply lookup_lt_is_Some_2). done. }
  assert (Hdo : forall j, j <> i -> data_of c' j = data_of c j).
  { intros j Hj. unfold c'. rewrite field_upd, decide_False by (done || by apply lookup_lt_is_Some_2). done. }
  pose proof (set_dirty _ (ci_flags _ _ _ HI i Hlt)) as E. split_flags E.
  assert (Hhas : forall g, has c' i g = hasf (Z.lor (flags c i) B_DIRTY) g) by (intros g; unfold has; by rewrite Hfl).
  assert (Hbk : forall j, blk_of c' j = blk_of c j) by (intros j; by apply field_upd_other).
  assert (HI' : core_inv c' io H).
  { apply (core_inv_upd c io H i f io H HI Hlt); fold c'; rewrite ?Hfl, ?Hdi, ?Hhas; try done.
    - apply HI.
    - rewrite Ha. done.
    - rewrite Hv. done.
    - intros j b'. destruct (decide (j = i)) as [->|]; [|done]. rewrite Hc. rewrite (ci_held _ _ _ HI). unfold has, hasf. tauto. }
  assert (Hvj : forall j, has c' j B_VALID = has c j B_VALID).
  { intros j. destruct (decide (j = i)) as [->|Hne]; [by rewrite Hhas|]. unfold has, flags, c'.
    rewrite field_upd, decide_False by (done || by apply lookup_lt_is_Some_2). done. }
  split_and!; [split; [done | by apply lru_fine_upd] | | by simpl; rewrite Hhas | done].
  intros b'. destruct (decide (b' = b)) as [->|Hne].
  - rewrite (view_hit c' io H i b); try done; [by rewrite Hvj | by rewrite Hbk].
  - destruct (cached_dec c b') as [(j & Hj & Hvj' & Hbj)|Hm].
    + rewrite (view_hit c' io H j b'), (view_hit c io H j b'); try done; [|by rewrite Hvj | by rewrite Hbk].
      apply Hdo. congruence.
    + rewrite !view_miss; [done | done |]. intros j Hj. rewrite Hvj, Hbk. by apply Hm.
Qed.

Lemma bwrite_core c io H i : core_inv c io H -> (i < nbuf)%nat -> lru_fine c ->
  exists c' io', bwrite dev_rw i (mkSt c io) = mkSt c' io' /\ core_inv c' io' H /\ lru_fine c' /\
    (forall b, view (mkSt c' io') b = view (mkSt c io) b) /\
    (forall j, data_of c' j = data_of c j /\ blk_of c' j = blk_of c j /\ dev_of c' j = dev_of c j) /\
    has c' i B_DIRTY = false /\ (forall j, has c' j B_VALID = has c j B_VALID /\ has c' j B_BUSY = has c j B_BUSY) /\
    (has c i B_VALID = true -> io_sector io' (blk_of c i) = data_of c i).
Proof.
  intros HI Hi HL. unfold bwrite. simpl s_cache. destruct (has c i B_DIRTY) eqn:Ed; simpl negb; cbv iota.
  2:{ exists c, io. split_and!; try done. intros Hv. symmetry. by apply (ci_clean _ _ _ HI). }
  assert (Hv : has c i B_VALID = true).
  { destruct (has c i B_VALID) eqn:E; [done|]. destruct (ci_invalid _ _ _ HI i Hi E). congruence. }
  destruct (ci_valid _ _ _ HI i Hi Hv) as [Hdev Hr]. rewrite Hdev.
  destruct (io_write io (blk_of c i) (data_of c i) (ci_io _ _ _ HI) Hr (ci_data _ _ _ HI i Hi)) as (io' & Ew & Hok & Hsec).
  simpl s_io. rewrite Ew, bool_decide_eq_false_2 by (intros Hx; by apply Hx).
  set (f := fun b => set_flags (Z.land (b_flags b) (u32 (Z.lnot B_DIRTY))) b). set (c' := upd i f c).
  assert (Hlen : (i < length (g_buffers c))%nat) by (rewrite (ci_len _ _ _ HI); done).
  assert (Hfl : flags c' i = Z.land (flags c i) (u32 (Z.lnot B_DIRTY))) by (by apply (flags_upd c i (fun f => Z.land f (u32 (Z.lnot B_DIRTY))))).
  pose proof (clear_dirty _ (ci_flags _ _ _ HI i Hi)) as E. split_flags E. rewrite <- Hfl in *.
  assert (Hda : forall j, data_of c' j = data_of c j) by (intros j; by apply field_upd_other).
  assert (Hbk : forall j, blk_of c' j = blk_of c j) by (intros j; by apply field_upd_other).
  assert (HI' : core_inv c' io' H).
  { apply (core_inv_upd c io H i f io' H HI Hi); fold c'; rewrite ?Hda; try done.
    - by apply (ci_data _ _ _ HI).
    - intros b Hbb. rewrite Hsec. destruct (decide (b = blk_of c i)) as [->|]; [|done]. destruct Hbb; congruence.
    - intros _ _. rewrite Hsec. by rewrite decide_True.
    - rewrite Hv. done.
    - intros j b'. destruct (decide (j = i)) as [->|]; [|done]. rewrite (ci_held _ _ _ HI). unfold has, hasf in *. rewrite Hc. tauto. }
  assert (Hho : forall j g, j <> i -> has c' j g = has c j g).
  { intros j g Hne. unfold has, flags, c'. rewrite field_upd, decide_False by (done || by apply lookup_lt_is_Some_2). done. }
  assert (Hflg : forall j, has c' j B_VALID = has c j B_VALID /\ has c' j B_BUSY = has c j B_BUSY).
  { intros j. destruct (decide (j = i)) as [->|]; [done|]. by rewrite !Hho. }
  exists c', io'. split_and!; [done | done | by apply lru_fine_upd | | | done | done | ].
  - intros b. destruct (cached_dec c b) as [(j & Hj & Hvj' & Hbj)|Hm].
    + rewrite (view_hit c' io' H j b), (view_hit c io H j b); try done; [by rewrite (proj1 (Hflg j)) | by rewrite Hbk].
    + rewrite !view_miss; [| done |]; [rewrite Hsec, decide_False; [done|]|].
      * intros ->. by apply (Hm i).
      * intros j Hj. rewrite (proj1 (Hflg j)), Hbk. by apply Hm.
  - intros j. rewrite Hda, Hbk. split_and!; try done. by apply field_upd_other.
  - intros _. rewrite Hsec. by rewrite decide_True.
Qed.

(** ** Eviction *)

Lemma evict_clean_spec fuel c p l : blinked c p l -> (length l < fuel)%nat ->
  evict_clean fuel p c = Some (List.find (fun i => negb (has c i B_BUSY) && negb (has c i B_DIRTY)) l).
Proof.
  revert fuel p. induction l as [|i l IH]; intros [|fuel] p Hb Hf; simpl in Hf; try lia.
  - simpl in Hb. by subst p.
  - destruct Hb as [-> Hb]. simpl. destruct (_ && _); [done|]. apply IH; [done | lia].
Qed.

Lemma evict_dirty_spec fuel s p l : blinked (s_cache s) p l -> (length l < fuel)%nat ->
  evict_dirty dev_rw fuel p s =
  Some (match List.find (fun i => negb (has (s_cache s) i B_BUSY)) l with
        | Some i => (Some i, bwrite dev_rw i s) | None => (None, s) end).
Proof.
  revert fuel p. induction l as [|i l IH]; intros [|fuel] p Hb Hf; simpl in Hf; try lia.
  - simpl in Hb. by subst p.
  - destruct Hb as [-> Hb]. simpl. destruct (negb _); [done|]. apply IH; [done | lia].
Qed.

Lemma some_idle c io H : core_inv c io H -> (size H < nbuf)%nat ->
  exists i, (i < nbuf)%nat /\ has c i B_BUSY = false.
Proof.
  intros HI Hs. destruct (decide (Exists (fun i => has c i B_BUSY = false) (seq 0 nbuf))) as [HE|HE].
  - apply Exists_exists in HE as (i & Hi & Hb). exists i. apply elem_of_seq in Hi. split; [lia|done].
  - exfalso. assert (set_seq (C := gset nat) 0 nbuf ⊆ dom H) as Hsub.
    { intros i Hi%elem_of_set_seq. apply elem_of_dom. exists (blk_of c i). apply (ci_held _ _ _ HI).
      split_and!; [lia| |done]. destruct (has c i B_BUSY) eqn:E; [done|].
      destruct HE. apply Exists_exists. exists i. split; [apply elem_of_seq; lia | done]. }
    apply subseteq_size in Hsub. rewrite size_set_seq, size_dom in Hsub. lia.
Qed.

Lemma find_lt (f : nat -> bool) order i : order ≡ₚ seq 0 nbuf -> List.find f (reverse order) = Some i ->
  (i < nbuf)%nat /\ f i = true.
Proof.
  intros Hp [Hi Hf]%find_some. split; [|done].
  assert (i ∈ seq 0 nbuf) as Hs; [|apply elem_of_seq in Hs; lia].
  rewrite <- Hp. apply elem_of_reverse. by apply list_elem_of_In.
Qed.

Lemma find_none_all (f : nat -> bool) order i : order ≡ₚ seq 0 nbuf -> List.find f (reverse order) = None ->
  (i < nbuf)%nat -> f i = false.
Proof.
  intros Hp Hf Hi. eapply find_none; [exact Hf|]. apply list_elem_of_In, elem_of_reverse.
  rewrite Hp. apply elem_of_seq. lia.
Qed.

Lemma evict_spec s H : inv s H -> (size H < nbuf)%nat ->
  exists i s', evict dev_rw s = Some (Some i, s') /\ inv s' H /\ (i < nbuf)%nat /\
    has (s_cache s') i B_BUSY = false /\ has (s_cache s') i B_DIRTY = false /\
    (forall b, view s' b = view s b) /\
    (forall j, has (s_cache s') j B_VALID = has (s_cache s) j B_VALID /\
               data_of (s_cache s') j = data_of (s_cache s) j /\ blk_of (s_cache s') j = blk_of (s_cache s) j).
Proof.
  intros [HI HL] Hs. pose proof HL as (order & Hp & Hl). destruct s as [c io]. simpl in *.
  pose proof (linked_blinked _ _ _ Hl) as Hb. simpl in Hb.
  assert (Hlen : (length (reverse order) < WALK_FUEL)%nat) by (rewrite length_reverse, Hp; vm_compute; lia).
  unfold evict. cbn [s_cache s_io]. rewrite (evict_clean_spec _ _ _ _ Hb Hlen).
  destruct (List.find _ (reverse order)) as [i|] eqn:E1.
  - apply (find_lt _ _ _ Hp) in E1 as [Hi [Hbu Hd]%andb_true_iff]. apply negb_true_iff in Hbu, Hd.
    exists i, (mkSt c io). split_and!; try done.
  - rewrite (evict_dirty_spec WALK_FUEL (mkSt c io) _ _ Hb Hlen). cbn [s_cache s_io].
    destruct (List.find (fun i => negb (has c i B_BUSY)) (reverse order)) as [i|] eqn:E2.
    + apply (find_lt _ _ _ Hp) in E2 as [Hi Hbu]. apply negb_true_iff in Hbu.
      destruct (bwrite_core c io H i HI Hi HL) as (c' & io' & Ew & HI' & HL' & Hv & Hf & Hd & Hfl & _).
      exists i, (mkSt c' io'). rewrite Ew. split_and!; try done.
      * simpl. by rewrite (proj2 (Hfl i)).
      * intros j. destruct (Hf j) as (? & ? & ?). by split_and!; [apply Hfl | |].
    + exfalso. destruct (some_idle _ _ _ HI Hs) as (i & Hi & Hbu).
      pose proof (find_none_all _ _ i Hp E2 Hi) as Hx. simpl in Hx. by rewrite Hbu in Hx.
Qed.

(** ** Replacing the contents of a buffer *)

Lemma hash_range dev b : 0 <= hash dev b < HASH_SIZE.
Proof. unfold hash, HASH_SIZE. apply Z.mod_pos_bound. lia. Qed.

Lemma chain_length (l : list nat) : NoDup l -> (forall i, i ∈ l -> (i < nbuf)%nat) -> (length l < WALK_FUEL)%nat.
Proof.
  intros Hnd Hl. assert (l ⊆+ seq 0 nbuf) as Hs.
  { apply NoDup_submseteq; [done|]. intros i Hi. apply elem_of_seq. specialize (Hl i Hi). lia. }
  apply submseteq_length in Hs. rewrite length_seq in Hs. change WALK_FUEL with 17%nat. lia.
Qed.

Lemma in_range_lt c l : length (g_buffers c) = nbuf -> (forall i, i ∈ l -> (i < nbuf)%nat) -> in_range c l.
Proof. intros Hlen Hl i Hi. apply lookup_lt_is_Some_2. rewrite Hlen. by apply Hl. Qed.

(** Taking an idle clean buffer out of the hash table. *)
Lemma unhash_spec c io H i : core_inv c io H -> (i < nbuf)%nat ->
  exists c1, (if has c i B_VALID then hash_remove i c else Some c) = Some c1 /\ rehashed c c1 /\
    forall h, 0 <= h < HASH_SIZE -> exists l, hchain c1 (bucket c1 h) l /\ NoDup l /\
      forall j, j ∈ l <-> (j < nbuf)%nat /\ j <> i /\ has c j B_VALID = true /\ hash (dev_of c j) (blk_of c j) = h.
Proof.
  intros HI Hi. destruct (has c i B_VALID) eqn:Ev.
  2:{ exists c. split_and!; [done | by split |]. intros h Hh. destruct (ci_hash _ _ _ HI h Hh) as (l & L1 & L2 & L3).
      exists l. split_and!; [done | done |]. intros j. rewrite L3. split; [|tauto].
      intros (? & Hv & ?). split_and!; try done. intros ->. congruence. }
  set (h0 := hash (dev_of c i) (blk_of c i)). pose proof (hash_range (dev_of c i) (blk_of c i)) as Hh0. fold h0 in Hh0.
  destruct (ci_hash _ _ _ HI h0 Hh0) as (l & L1 & L2 & L3).
  destruct (hash_unlink_spec WALK_FUEL h0 None i c l) as (c1 & l' & E & Hperm & Hc1 & Hr & Ho & Hb); try done.
  { rewrite (ci_hlen _ _ _ HI). unfold HASH_SIZE in *. lia. }
  { by apply L3. }
  { apply in_range_lt; [apply HI|]. intros j Hj. by apply L3. }
  { apply chain_length; [done|]. intros j Hj. by apply L3. }
  exists c1. split; [done|]. split; [done|]. intros h Hh.
  destruct (decide (h = h0)) as [->|Hne].
  - exists l'. rewrite Hperm in L2. apply NoDup_cons in L2 as [Hil' Hnd']. split_and!; [done | done |].
    intros j. assert (j ∈ l <-> j = i \/ j ∈ l') as Hj by (rewrite Hperm; set_solver).
    rewrite L3 in Hj. split; [|tauto]. intros Hjl. assert (j <> i) by congruence. tauto.
  - destruct (ci_hash _ _ _ HI h Hh) as (k & K1 & K2 & K3). exists k. split_and!; [|done|].
    + rewrite Hb by (left; unfold HASH_SIZE in *; lia). eapply hchain_frame; [|exact K1].
      intros j Hj. apply Ho; [|done]. intros Hjl. apply L3 in Hjl as (_ & _ & Hjl). apply K3 in Hj as (_ & _ & Hj). congruence.
    + intros j. rewrite K3. split; [|tauto]. intros (? & ? & Hj). split_and!; try done. intros ->. by apply Hne.
Qed.

Lemma ident_spec c c1 io H i dev b : core_inv c io H -> (i < nbuf)%nat ->
  has c i B_BUSY = false -> has c i B_DIRTY = false -> rehashed c c1 ->
  (forall h, 0 <= h < HASH_SIZE -> exists l, hchain c1 (bucket c1 h) l /\ NoDup l /\
      forall j, j ∈ l <-> (j < nbuf)%nat /\ j <> i /\ has c j B_VALID = true /\ hash (dev_of c j) (blk_of c j) = h) ->
  let c2 := upd i (set_ident dev b 0) c1 in
  core_inv c2 io H /\ (forall b', view (mkSt c2 io) b' = view (mkSt c io) b') /\
  dev_of c2 i = dev /\ blk_of c2 i = b /\ has c2 i B_VALID = false /\
  (forall j, j <> i -> has c2 j B_VALID = has c j B_VALID /\ blk_of c2 j = blk_of c j) /\
  (forall j, data_of c2 j = data_of c j).
Proof.
  intros HI Hi Hbu Hdi Hr Hch c2. pose proof HI as [I1 I2 I3 I4 I5 I6 I7 I8 I9 I10 _].
  assert (Hlen1 : length (g_buffers c1) = nbuf).
  { rewrite <- I1. by apply (lookup_fmap_length unhashed), (rh_bufs _ _ Hr). }
  assert (Hlk : is_Some (g_buffers c1 !! i)) by (apply lookup_lt_is_Some_2; lia).
  assert (Hdat : forall j, data_of c2 j = data_of c j).
  { intros j. unfold c2. rewrite field_upd_other by done. by apply rehashed_field. }
  assert (Hfi : flags c2 i = 0) by (unfold flags, c2; rewrite field_upd, decide_True by done; done).
  assert (Hfo : forall j, j <> i -> flags c2 j = flags c j).
  { intros j Hj. unfold flags, c2. rewrite field_upd, decide_False by done. by apply rehashed_field. }
  assert (Hbo : forall j, j <> i -> blk_of c2 j = blk_of c j).
  { intros j Hj. unfold c2. rewrite field_upd, decide_False by done. by apply rehashed_field. }
  assert (Hdo : forall j, j <> i -> dev_of c2 j = dev_of c j).
  { intros j Hj. unfold c2. rewrite field_upd, decide_False by done. by apply rehashed_field. }
  assert (Hn : forall j, hnext c2 j = hnext c1 j) by (intros j; by apply field_upd_other).
  assert (Hhi : forall g, has c2 i g = false) by (intros g; unfold has; by rewrite Hfi, Z.land_0_l).
  assert (Hho : forall j g, j <> i -> has c2 j g = has c j g) by (intros j g Hj; unfold has; by rewrite Hfo).
  assert (HI2 : core_inv c2 io H).
  { split; [by unfold c2; rewrite length_upd | by rewrite <- I2; apply (rh_len _ _ Hr) | done | | | | | | | |].
    - intros j Hj. destruct (decide (j = i)) as [->|]; [rewrite Hfi; lia|]. rewrite Hfo by done. by apply I4.
    - intros j Hj. rewrite Hdat. by apply I5.
    - intros j Hj Hv. destruct (decide (j = i)) as [->|]; [congruence|]. rewrite Hho in Hv by done. rewrite Hdo, Hbo by done. by apply I6.
    - intros j k Hj Hk Hvj Hvk. destruct (decide (j = i)) as [->|]; [congruence|]. destruct (decide (k = i)) as [->|]; [congruence|].
      rewrite Hho in Hvj, Hvk by done. rewrite !Hbo by done. by apply I7.
    - intros j Hj Hv Hd. destruct (decide (j = i)) as [->|]; [congruence|]. rewrite Hho in Hv, Hd by done.
      rewrite Hdat, Hbo by done. by apply I8.
    - intros j Hj Hv. destruct (decide (j = i)) as [->|]; [done|]. rewrite !Hho in * by done. by apply I9.
    - intros j b'. rewrite I10. destruct (decide (j = i)) as [->|Hne]; [rewrite Hhi, Hbu; by split; intros (_ & ? & _)|]. by rewrite Hho, Hbo.
    - intros h Hh. destruct (Hch h Hh) as (l & L1 & L2 & L3). exists l. split_and!; [|done|].
      + eapply hchain_frame; [|exact L1]. intros j _. apply Hn.
      + intros j. rewrite L3. destruct (decide (j = i)) as [->|Hne]; [rewrite Hhi; by split; intros (_ & ? & _)|].
        rewrite Hho, Hdo, Hbo by done. tauto. }
  split_and!; try done.
  - intros b'. destruct (cached_dec c b') as [(j & Hj & Hvj & Hbj)|Hm].
    + rewrite (view_hit c io H j b') by done. destruct (decide (j = i)) as [->|Hne].
      * rewrite view_miss; [rewrite (I8 i Hj Hvj Hdi); by rewrite Hbj|].
        intros k Hk Hvk Hbk. destruct (decide (k = i)) as [->|Hki]; [congruence|].
        rewrite Hho in Hvk by done. rewrite Hbo in Hbk by done. apply Hki. apply I7; congruence.
      * rewrite (view_hit c2 io H j b'); [done..| |]; [by rewrite Hho | by rewrite Hbo].
    + rewrite !view_miss; [done | done |]. intros j Hj Hv. destruct (decide (j = i)) as [->|Hne]; [congruence|].
      rewrite Hho in Hv by done. rewrite Hbo by done. by apply Hm.
  - unfold c2. rewrite field_upd, decide_True by done. done.
  - unfold c2. rewrite field_upd, decide_True by done. done.
  - intros j Hj. by rewrite Hho, Hbo.
Qed.

Lemma same_core_hash_insert c c' i : same_core c c' -> same_core (hash_insert i c) (hash_insert i c').
Proof.
  intros Hs. pose proof Hs as [Hg Hb]. unfold hash_insert, bucket.
  rewrite !(same_core_field _ _ c c') by done. simpl. rewrite Hg. split; [done|]. intros j. simpl.
  rewrite !list_lookup_alter. destruct (decide (i = j)) as [->|]; [|done]. specialize (Hb j).
  destruct (g_buffers c' !! j) as [b'|], (g_buffers c !! j) as [b|]; simpl in *; try done.
  apply (f_equal (fmap (set_hash_next (default None (g_hash c !! Z.to_nat (hash (dev_of c j) (blk_of c j))))))) in Hb.
  done.
Qed.

Lemma hash_insert_rehashed i c : rehashed c (hash_insert i c).
Proof.
  unfold hash_insert. eapply rehashed_trans; [apply rehashed_upd|]. apply rehashed_with. by rewrite length_insert.
Qed.

(** A buffer that has been read for block [b] enters the table, busy. *)
Lemma install_spec c io H i b : core_inv c io H -> (i < nbuf)%nat -> has c i B_VALID = false ->
  dev_of c i = BUF_DEV_ATA -> blk_of c i = b -> 0 <= b < limit ->
  (forall j, (j < nbuf)%nat -> has c j B_VALID = true -> blk_of c j <> b) -> data_of c i = io_sector io b ->
  let c' := hash_insert i (upd i (set_flags (Z.lor B_VALID B_BUSY)) c) in
  core_inv c' io (<[i := b]> H) /\ (forall b', view (mkSt c' io) b' = view (mkSt c io) b') /\
  (forall j, data_of c' j = data_of c j).
Proof.
  intros HI Hi Hv Hdev Hblk Hb Hnew Hdat c'. pose proof HI as [I1 I2 I3 I4 I5 I6 I7 I8 I9 I10 I11].
  set (c0 := upd i (set_flags (Z.lor B_VALID B_BUSY)) c) in *.
  assert (Hlk : is_Some (g_buffers c !! i)) by (apply lookup_lt_is_Some_2; lia).
  assert (Hlk0 : is_Some (g_buffers c0 !! i)) by (apply lookup_lt_is_Some_2; unfold c0; rewrite length_upd; lia).
  pose proof (hash_insert_rehashed i c0) as Hr. fold c' in Hr.
  assert (Hd : forall j, data_of c' j = data_of c j).
  { intros j. rewrite (rehashed_field _ _ c0 c') by done. by apply field_upd_other. }
  assert (Hbk : forall j, blk_of c' j = blk_of c j).
  { intros j. rewrite (rehashed_field _ _ c0 c') by done. by apply field_upd_other. }
  assert (Hdv : forall j, dev_of c' j = dev_of c j).
  { intros j. rewrite (rehashed_field _ _ c0 c') by done. by apply field_upd_other. }
  assert (Hf : forall j, flags c' j = if decide (i = j) then 5 else flags c j).
  { intros j. unfold flags. rewrite (rehashed_field _ _ c0 c') by done. unfold c0. rewrite field_upd by done.
    by destruct (decide (i = j)). }
  assert (Hhi : has c' i B_VALID = true /\ has c' i B_BUSY = true /\ has c' i B_DIRTY = false)
    by (unfold has; rewrite Hf, decide_True by done; done).
  assert (Hho : forall j g, j <> i -> has c' j g = has c j g)
    by (intros j g Hj; unfold has; by rewrite Hf, decide_False by done).
  destruct Hhi as (Hiv & Hibu & Hid).
  set (hi := hash (dev_of c i) (blk_of c i)). pose proof (hash_range (dev_of c i) (blk_of c i)) as Hhr. fold hi in Hhr.
  assert (Hn : forall j, hnext c' j = if decide (i = j) then bucket c hi else hnext c j).
  { intros j. unfold c', hash_insert. change (hnext (with_hash ?x ?y) j) with (hnext x j).
    rewrite field_upd by done. destruct (decide (i = j)).
    - simpl. unfold hi, c0. by rewrite !field_upd_other.
    - unfold c0. by apply field_upd_other. }
  assert (Hbu : forall h, 0 <= h < HASH_SIZE -> bucket c' h = if decide (h = hi) then Some i else bucket c h).
  { intros h Hh. unfold bucket, c', hash_insert. simpl. unfold c0. rewrite !(field_upd_other _ _ c) by done. fold hi. simpl.
    unfold HASH_SIZE in *. destruct (decide (h = hi)) as [->|].
    - rewrite list_lookup_insert_eq by lia. done.
    - rewrite list_lookup_insert_ne by lia. done. }
  assert (HI' : core_inv c' io (<[i := b]> H)).
  { split; [unfold c', hash_insert; simpl; rewrite !length_alter; done | by rewrite (rh_len _ _ Hr) | done | | | | | | | |].
    - intros j Hj. rewrite Hf. destruct (decide (i = j)); [lia | by apply I4].
    - intros j Hj. rewrite Hd. by apply I5.
    - intros j Hj Hvj. rewrite Hdv, Hbk. destruct (decide (j = i)) as [->|]; [by rewrite Hblk|].
      rewrite Hho in Hvj by done. by apply I6.
    - intros j k Hj Hk Hvj Hvk. rewrite !Hbk. intros E. destruct (decide (j = i)) as [->|Hji], (decide (k = i)) as [->|Hki];
        rewrite ?Hho in * by done; try done.
      + exfalso. apply (Hnew k Hk Hvk). congruence.
      + exfalso. apply (Hnew j Hj Hvj). congruence.
      + by apply I7.
    - intros j Hj Hvj Hdj. rewrite Hd, Hbk. destruct (decide (j = i)) as [->|]; [by rewrite Hblk|].
      rewrite Hho in Hvj, Hdj by done. by apply I8.
    - intros j Hj Hvj. destruct (decide (j = i)) as [->|]; [congruence|]. rewrite !Hho in * by done. by apply I9.
    - intros j b'. rewrite Hbk. destruct (decide (j = i)) as [->|Hne].
      + rewrite lookup_insert_eq. rewrite Hblk. split; [intros [= <-]; done | intros (_ & _ & ->); done].
      + rewrite lookup_insert_ne by done. rewrite Hho by done. apply I10.
    - intros h Hh. destruct (I11 h Hh) as (l & L1 & L2 & L3). rewrite Hbu by done.
      assert (Hil : i ∉ l) by (intros Hil; apply L3 in Hil as (_ & ? & _); congruence).
      assert (L1' : hchain c' (bucket c h) l).
      { eapply hchain_frame; [|exact L1]. intros j Hj. rewrite Hn, decide_False; [done|]. by intros ->. }
      destruct (decide (h = hi)) as [->|Hne].
      + exists (i :: l). split_and!; [|by apply NoDup_cons|].
        * split; [done|]. rewrite Hn, decide_True by done. done.
        * intros j. rewrite elem_of_cons, L3, Hdv, Hbk. destruct (decide (j = i)) as [->|Hji]; [tauto|].
          rewrite Hho by done. tauto.
      + exists l. split_and!; [done | done |]. intros j. rewrite L3, Hdv, Hbk.
        destruct (decide (j = i)) as [->|Hji]; [|by rewrite Hho].
        rewrite Hv. split; [by intros (_ & ? & _)|]. intros (_ & _ & Hx). by destruct Hne. }
  split_and!; [done | | done]. intros b'. destruct (cached_dec c b') as [(j & Hj & Hvj & Hbj)|Hm].
  - assert (j <> i) by congruence. rewrite (view_hit c io H j b') by done.
    rewrite (view_hit c' io (<[i := b]> H) j b'); [by rewrite Hd | done | done | by rewrite Hho | by rewrite Hbk].
  - rewrite (view_miss c) by done. destruct (decide (b' = b)) as [->|Hne].
    + rewrite (view_hit c' io (<[i := b]> H) i b); [by rewrite Hd | done | done | done | by rewrite Hbk].
    + rewrite view_miss; [done|]. intros j Hj Hvj. rewrite Hbk. destruct (decide (j = i)) as [->|Hji]; [congruence|].
      rewrite Hho in Hvj by done. by apply Hm.
Qed.

Lemma touch_spec c i (g : cache -> cache) : lru_fine c -> length (g_buffers c) = nbuf -> (i < nbuf)%nat ->
  (forall c, rehashed c (g c)) ->
  let c' := lru_insert_head i (g (lru_remove i c)) in
  lru_fine c' /\ same_core c (lru_remove i c) /\ same_core (g (lru_remove i c)) c'.
Proof.
  intros (order & Hp & Hl) Hlen Hi Hg c'.
  assert (Hin : forall c0 o, length (g_buffers c0) = nbuf -> o ⊆ order -> in_range c0 o).
  { intros c0 o Hc0 Ho. apply in_range_lt; [done|]. intros j Hj%Ho. rewrite Hp in Hj. apply elem_of_seq in Hj. lia. }
  assert (Hnd : NoDup order) by (rewrite Hp; apply NoDup_seq).
  destruct (lru_remove_spec c order i Hl Hnd) as (order' & Hp' & Hl' & Hs).
  { rewrite Hp. apply elem_of_seq. lia. } { by apply Hin. }
  set (c1 := lru_remove i c) in *. pose proof (Hg c1) as Hr.
  assert (Hlen1 : length (g_buffers (g c1)) = nbuf).
  { rewrite <- Hlen. rewrite (lookup_fmap_length unhashed _ _ (rh_bufs _ _ Hr)). by apply (lookup_fmap_length core), Hs. }
  destruct (lru_insert_spec (g c1) order' i) as [Hl2 Hs2].
  { eapply linked_frame; [exact Hl' | intros r _; apply Hr | intros r _; apply Hr]. }
  { by rewrite <- Hp'. }
  { apply Hin; [done|]. intros j. by rewrite Hp'. }
  split_and!; [|done|done]. exists (i :: order'). split; [by rewrite <- Hp'|done].
Qed.

Lemma view_same_core c c' io b : same_core c c' -> view (mkSt c' io) b = view (mkSt c io) b.
Proof.
  intros Hs. unfold view. cbn [s_cache s_io].
  assert (Hf : forall l, List.find (fun i => has c' i B_VALID && (blk_of c' i =? b)) l =
                         List.find (fun i => has c i B_VALID && (blk_of c i =? b)) l).
  { induction l as [|i l IH]; [done|]. simpl.
    assert (has c' i B_VALID = has c i B_VALID) as ->
      by (unfold has, flags; by rewrite (same_core_field b_flags 0 c c')).
    rewrite (same_core_field b_blockno 0 c c') by done. by rewrite IH. }
  rewrite Hf. destruct (List.find _ _); [by apply same_core_field | done].
Qed.

Lemma bread_hit s H i b : inv s H -> (i < nbuf)%nat -> has (s_cache s) i B_VALID = true ->
  blk_of (s_cache s) i = b -> has (s_cache s) i B_BUSY = false ->
  let s' := or_flag B_BUSY i (on_cache (lru_insert_head i) (on_cache (lru_remove i) s)) in
  inv s' (<[i := b]> H) /\ forall b', view s' b' = view s b'.
Proof.
  intros [HI HL] Hi Hv Hb Hbu s'. destruct s as [c io]. cbn [s_cache s_io] in *.
  destruct (touch_spec c i id HL (ci_len _ _ _ HI) Hi) as (HL1 & Hs1 & Hs2); [by split|].
  set (c1 := lru_insert_head i (id (lru_remove i c))) in *.
  assert (Hs : same_core c c1) by by eapply same_core_trans.
  pose proof (core_inv_same _ _ _ _ Hs HI) as HI1.
  assert (Hf1 : flags c1 i = flags c i) by by apply same_core_field.
  assert (Hb1 : blk_of c1 i = b) by (rewrite (same_core_field _ _ c c1); done).
  pose proof (set_busy _ (ci_flags _ _ _ HI1 i Hi)) as E. split_flags E.
  destruct (inv_set_flags c1 io H i (fun f => Z.lor f B_BUSY) (<[i := b]> H) HI1 Hi) as (HI2 & Hv2 & _ & _);
    try done; [by left| | |].
  { unfold has in Hv. unfold hasf. rewrite Hf1, Hv. done. }
  { intros j b'. destruct (decide (j = i)) as [->|]; [|by rewrite lookup_insert_ne].
    rewrite lookup_insert_eq, Ha, Hb1. naive_solver. }
  split.
  - split; [done|]. by apply lru_fine_upd.
  - intros b'. unfold s', or_flag, on_cache. cbn [s_cache s_io]. rewrite Hv2. by apply view_same_core.
Qed.

(** Reading into a buffer that is not in use changes no logical contents. *)
Lemma fetch_invalid c io H i d io' : core_inv c io H -> (i < nbuf)%nat -> has c i B_VALID = false ->
  length d = 512%nat -> io_ok io' -> (forall b, io_sector io' b = io_sector io b) ->
  let c' := upd i (set_data d) c in
  core_inv c' io' H /\ (forall b, view (mkSt c' io') b = view (mkSt c io) b) /\ data_of c' i = d /\
  (forall j, flags c' j = flags c j /\ blk_of c' j = blk_of c j /\ dev_of c' j = dev_of c j).
Proof.
  intros HI Hi Hv Hd Hok Hsec c'.
  assert (Hlk : is_Some (g_buffers c !! i)) by (apply lookup_lt_is_Some_2; rewrite (ci_len _ _ _ HI); lia).
  assert (Hfld : forall j, flags c' j = flags c j /\ blk_of c' j = blk_of c j /\ dev_of c' j = dev_of c j).
  { intros j. unfold flags, c'. by rewrite !field_upd_other. }
  assert (Hh : forall j g, has c' j g = has c j g) by (intros j g; unfold has; by rewrite (proj1 (Hfld j))).
  assert (Hdi : data_of c' i = d) by (unfold c'; rewrite field_upd, decide_True by done; done).
  assert (HI' : core_inv c' io' H).
  { apply (core_inv_upd c io H i _ io' H HI Hi); fold c'; rewrite ?Hh, ?Hdi, ?(proj1 (Hfld i)); try done.
    - by apply (ci_flags _ _ _ HI).
    - congruence.
    - intros _. by apply (ci_invalid _ _ _ HI).
    - intros j b. destruct (decide (j = i)) as [->|]; [|done]. rewrite (ci_held _ _ _ HI). tauto. }
  split_and!; [done | | done | done]. intros b. destruct (cached_dec c b) as [(j & Hj & Hvj & Hbj)|Hm].
  - assert (i <> j) by congruence. rewrite (view_hit c io H j b) by done.
    rewrite (view_hit c' io' H j b); try done; [|by rewrite Hh | by rewrite (proj1 (proj2 (Hfld j)))].
    unfold c'. rewrite field_upd, decide_False by done. done.
  - rewrite !view_miss; [apply Hsec | done |]. intros j Hj. rewrite Hh, (proj1 (proj2 (Hfld j))). by apply Hm.
Qed.

Lemma bread_spec s H b : inv s H -> (size H < nbuf)%nat -> 0 <= b < limit -> (forall i, H !! i <> Some b) ->
  exists i s', bread dev_rw BUF_DEV_ATA b s = Some (Some i, s') /\ inv s' (<[i := b]> H) /\ H !! i = None /\
    forall b', view s' b' = view s b'.
Proof.
  intros Hinv Hs Hb Hnew. pose proof Hinv as [HI HL]. unfold bread.
  pose proof (hash_range BUF_DEV_ATA b) as Hhr. destruct (ci_hash _ _ _ HI _ Hhr) as (l & L1 & L2 & L3).
  unfold hash_lookup. rewrite (hash_find_spec _ _ _ _ _ l L1) by (apply chain_length; [done|]; intros j Hj; by apply L3).
  destruct (List.find _ l) as [i|] eqn:E.
  - apply find_some in E as [Hil [Ed%Z.eqb_eq Eb%Z.eqb_eq]%andb_true_iff].
    apply list_elem_of_In, L3 in Hil as (Hi & Hv & _). rewrite Hv.
    assert (Hbu : has (s_cache s) i B_BUSY = false).
    { destruct (has (s_cache s) i B_BUSY) eqn:Eq; [|done]. destruct (Hnew i). by apply (ci_held _ _ _ HI). }
    destruct (bread_hit s H i b Hinv Hi Hv Eb Hbu) as [Hinv' Hview]. eexists i, _. split; [reflexivity|].
    split_and!; [done | | done]. apply eq_None_not_Some. intros [b' Hb']. apply (ci_held _ _ _ HI) in Hb' as (_ & ? & _). congruence.
  - assert (Hmiss : forall i, (i < nbuf)%nat -> has (s_cache s) i B_VALID = true -> blk_of (s_cache s) i <> b).
    { intros i Hi Hv Eb. destruct (ci_valid _ _ _ HI i Hi Hv) as [Hd _].
      eapply find_none in E; [|apply list_elem_of_In, L3; split_and!; [exact Hi | exact Hv | by rewrite Hd, Eb]].
      simpl in E. by rewrite Hd, Eb, !Z.eqb_refl in E. }
    destruct (evict_spec s H Hinv Hs) as (i & s1 & E1 & [HI1 HL1] & Hi & Hbu & Hdi & Hv1 & Hsame). rewrite E1.
    destruct s1 as [c1 io1]. cbn [s_cache s_io] in *.
    destruct (unhash_spec c1 io1 H i HI1 Hi) as (c2 & E2 & Hr2 & Hch2). rewrite E2.
    destruct (ident_spec c1 c2 io1 H i BUF_DEV_ATA b HI1 Hi Hbu Hdi Hr2 Hch2) as (HI3 & Hv3 & Hdev3 & Hblk3 & Hval3 & Ho3 & Hd3).
    set (c3 := upd i (set_ident BUF_DEV_ATA b 0) c2) in *.
    assert (HL3 : lru_fine c3) by (apply lru_fine_upd; [done|]; by eapply lru_fine_rehashed).
    unfold fetch. cbn [s_cache s_io].
    destruct (io_read io1 b (data_of c3 i) (ci_io _ _ _ HI3) Hb (ci_data _ _ _ HI3 i Hi)) as (io4 & Er & Hok4 & Hsec4).
    rewrite Er. set (c4 := upd i (set_data (io_sector io1 b)) c3).
    destruct (fetch_invalid c3 io1 H i (io_sector io1 b) io4 HI3 Hi Hval3 (io_length _ _) Hok4 Hsec4)
      as (HI4 & Hv4 & Hd4 & Hf4). fold c4 in HI4, Hv4, Hd4, Hf4.
    destruct (Hf4 i) as (Hfl4 & Hblk4 & Hdev4).
    destruct (install_spec c4 io4 H i b HI4 Hi) as (HI5 & Hv5 & _); try done.
    { unfold has. by rewrite Hfl4. } { congruence. } { congruence. }
    { intros j Hj Hvj. destruct (Hf4 j) as (F1 & F2 & _). unfold has in Hvj. rewrite F1 in Hvj. rewrite F2.
      destruct (decide (j = i)) as [->|Hji]; [unfold has in Hval3; congruence|].
      destruct (Ho3 j Hji) as [V3 ->]. unfold has in V3. rewrite V3 in Hvj.
      destruct (Hsame j) as (S1 & _ & ->). unfold has in S1. rewrite S1 in Hvj. by apply Hmiss. }
    { by rewrite Hd4, Hsec4. }
    set (c5 := upd i (set_flags (Z.lor B_VALID B_BUSY)) c4) in *.
    destruct (touch_spec c5 i (hash_insert i)) as (HL6 & Hs5 & Hs6).
    { apply lru_fine_upd; [done|]. by apply lru_fine_upd. }
    { unfold c5, c4. rewrite !length_upd. apply (ci_len _ _ _ HI3). }
    { done. } { apply hash_insert_rehashed. }
    set (c6 := lru_insert_head i (hash_insert i (lru_remove i c5))) in *.
    assert (Hs56 : same_core (hash_insert i c5) c6).
    { eapply same_core_trans; [|exact Hs6]. by apply same_core_hash_insert. }
    eexists i, _. split; [reflexivity|]. unfold on_cache. cbn [s_cache s_io]. fold c6. split_and!.
    + split; [|done]. by eapply core_inv_same.
    + apply eq_None_not_Some. intros [b' Hb']. apply (ci_held _ _ _ HI1) in Hb' as (_ & ? & _). congruence.
    + intros b'. rewrite (view_same_core _ _ _ _ Hs56), Hv5, Hv4, Hv3. apply Hv1.
Qed.

(** ** Initial state *)

Lemma init_bufs (io : IO) i : (i < nbuf)%nat -> core <$> g_buffers (s_cache (buf_init io)) !! i = Some blank_buf.
Proof. intros Hi. do 16 (destruct i as [|i]; [reflexivity|]). lia. Qed.

Lemma init_field {A} (io : IO) (p : buf -> A) d i : (forall b, p (core b) = p b) -> (i < nbuf)%nat ->
  field p d (s_cache (buf_init io)) i = p blank_buf.
Proof.
  intros Hp Hi. pose proof (init_bufs io i Hi) as Hb. unfold field. destruct (g_buffers _ !! i) as [b|]; [|done].
  apply (f_equal (fmap p)) in Hb. simpl in Hb. rewrite Hp in Hb. congruence.
Qed.

Lemma init_has (io : IO) i g : (i < nbuf)%nat -> has (s_cache (buf_init io)) i g = false.
Proof. intros Hi. unfold has, flags. by rewrite init_field. Qed.

Lemma init_core io : io_ok io -> core_inv (s_cache (buf_init io)) io ∅.
Proof.
  intros Hok. split; [reflexivity | reflexivity | done | | | | | | | |].
  - intros i Hi. unfold flags. rewrite init_field by done. simpl. lia.
  - intros i Hi. by rewrite init_field.
  - intros i Hi Hv. by rewrite init_has in Hv.
  - intros i j Hi Hj Hv. by rewrite init_has in Hv.
  - intros i Hi Hv. by rewrite init_has in Hv.
  - intros i Hi _. by rewrite !init_has.
  - intros i b. rewrite lookup_empty. split; [done|]. intros (Hi & Hv & _). by rewrite init_has in Hv.
  - intros h Hh. exists []. split_and!; [| constructor |].
    + unfold bucket. change (g_hash (s_cache (buf_init io))) with (replicate (A := option nat) 8 None).
      rewrite lookup_replicate_2 by (unfold HASH_SIZE in Hh; lia). done.
    + intros i. split; [set_solver|]. intros (Hi & Hv & _). by rewrite init_has in Hv.
Qed.

Lemma init_lru (io : IO) : lru_fine (s_cache (buf_init io)).
Proof.
  exists (reverse (seq 0 nbuf)). split; [apply reverse_Permutation|].
  change (lru_ok init_cache (reverse (seq 0 nbuf))). vm_compute. by repeat split.
Qed.

Lemma init_inv io : io_ok io -> inv (buf_init io) ∅ /\ forall b, view (buf_init io) b = io_sector io b.
Proof.
  intros Hok. split; [split; [by apply init_core | apply init_lru]|].
  intros b. apply (view_miss (s_cache (buf_init io)) io). intros i Hi Hv. by rewrite init_has in Hv.
Qed.

Lemma view_length s H b : inv s H -> 0 <= b < limit -> length (view s b) = 512%nat.
Proof.
  intros [HI _] Hb. destruct s as [c io]. destruct (cached_dec c b) as [(j & Hj & Hvj & Hbj)|Hm].
  - rewrite (view_hit c io H j b) by done. by apply (ci_data _ _ _ HI).
  - rewrite view_miss by done. apply io_length.
Qed.

(** The cache implements its interface. *)
#[export] Instance buffer_cache : BufferCache (st IO) limit.
Proof using All.
  refine {| bc_init := fun s => buf_init (s_io s);
            bc_bread := bread dev_rw BUF_DEV_ATA;
            bc_data := fun i s => data_of (s_cache s) i;
            bc_set := bset; bc_dirty := bdirty;
            bc_bwrite := bwrite dev_rw; bc_brelse := brelse;
            bc_ready := fun s => io_ok (s_io s); bc_disk := fun s => io_sector (s_io s);
            bc_inv := inv; bc_view := view;
            bc_init_ok := fun s => init_inv (s_io s);
            bc_view_length := view_length;
            bc_bread_ok := bread_spec |}.
  - intros s H i b Hinv Hi. destruct (held_facts s H i b Hinv Hi) as (_ & _ & _ & ? & ?). done.
  - intros s H i b d Hinv Hi Hd. destruct (bset_dirty_spec s H i b d Hinv Hi Hd) as (? & ? & _). done.
  - intros s H i b [HI HL] Hi. destruct s as [c io].
    destruct (proj1 (ci_held _ _ _ HI i b) Hi) as (Hlt & _).
    destruct (bwrite_core c io H i HI Hlt HL) as (c' & io' & E & HI' & HL' & Hv & _). rewrite E. by split.
  - intros s H i b Hinv Hi. destruct (brelse_spec s H i b Hinv Hi) as (? & ? & _). done.
Defined.

(** C14: the buffer cache is transparent.  With fewer than sixteen buffers held,
    [bread] of a block nobody holds always returns a buffer with that block's
    current contents, evicting and writing back as needed without losing the
    contents of any block; storing new data, marking the buffer dirty, [bwrite]
    and [brelse] then change exactly that block, on the disk as well as in the
    cache, and give the buffer back. *)
Theorem buffer_update_cycle s H b d : inv s H -> (size H < nbuf)%nat -> 0 <= b < limit ->
  (forall i, H !! i <> Some b) -> length d = 512%nat ->
  exists i s1, bread dev_rw BUF_DEV_ATA b s = Some (Some i, s1) /\
    data_of (s_cache s1) i = view s b /\ (forall b', view s1 b' = view s b') /\
    let s2 := brelse i (bwrite dev_rw i (bdirty i (bset i d s1))) in
    inv s2 H /\ (forall b', view s2 b' = if decide (b' = b) then d else view s b') /\
    io_sector (s_io s2) b = d.
Proof.
  intros Hinv Hs Hb Hnew Hd. destruct (bread_spec s H b Hinv Hs Hb Hnew) as (i & s1 & E & Hinv1 & HiN & Hv1).
  exists i, s1. split; [done|]. assert (Hi : (<[i := b]> H) !! i = Some b) by apply lookup_insert_eq.
  destruct (held_facts _ _ _ _ Hinv1 Hi) as (Hlt & _ & _ & _ & Hdat).
  split; [by rewrite Hdat|]. split; [done|].
  destruct (bset_dirty_spec s1 _ i b d Hinv1 Hi Hd) as (Hinv2 & Hv2 & _ & _).
  destruct (held_facts _ _ _ _ Hinv2 Hi) as (_ & Hval & Hblk & _ & Hdat2).
  set (s2 := bdirty i (bset i d s1)) in *. destruct s2 as [c2 io2]. destruct Hinv2 as [HI2 HL2]. cbn [s_cache s_io] in *.
  destruct (bwrite_core c2 io2 _ i HI2 Hlt HL2) as (c3 & io3 & E3 & HI3 & HL3 & Hv3 & _ & _ & _ & Hdur). rewrite E3.
  destruct (brelse_spec (mkSt c3 io3) _ i b (Build_inv (mkSt c3 io3) _ HI3 HL3) Hi) as (Hinv4 & Hv4 & _).
  rewrite delete_insert_id in Hinv4 by done. split_and!; [done | |].
  - intros b'. rewrite Hv4, Hv3, Hv2. destruct (decide (b' = b)); [done | apply Hv1].
  - cbn [brelse on_cache s_io]. rewrite <- Hblk, (Hdur Hval), Hdat2, Hv2. by rewrite decide_True.
Qed.

End Correct.

(** ** On top of the block layer *)

Section OnBlock.
Context {W : Type} (transfer : Block.blk_transfer_fn W) (limit : Z).
Context (Hlimit : 0 < limit < 2 ^ 32) `{!Block.ReliableDisk transfer limit}.

(** One sector through [blk_rw].  The other outcomes do not occur on an idle
    layer ([Block.blk_rw_idle]). *)
Definition blk_io (dev b : Z) (buf : list Z) (write : bool) (s : Block.blk W * W) :
    os_status * list Z * (Block.blk W * W) :=
  match Block.blk_rw dev b 1 (Some buf) write s.1 s.2 with
  | Some (status, Some buf', bl, w) => (status, buf', (bl, w))
  | Some (status, None, bl, w) => (status, buf, (bl, w))
  | None => (OS_ERR_IO, buf, s)
  end.

Definition layer_ok (s : Block.blk W * W) : Prop :=
  Block.idle s.1 /\ Block.disk_ready s.2 /\ exists dev, Block.g_devices s.1 !! O = Some dev /\
    Block.bd_transfer dev = Some transfer /\ (Block.bd_sectors dev = 0 \/ limit <= Block.bd_sectors dev).

#[export] Instance block_disk_io : DiskIO blk_io limit.
Proof using All.
  refine {| io_ok := layer_ok; io_sector := fun s => Block.sector s.2;
            io_length := fun s => Block.sector_length s.2 |}.
  - intros [bl w] b buf (Hidle & Hrdy & dev & Hd & Ht & Hs) Hb Hlen.
    destruct (Block.disk_read b 1 buf w Hrdy) as (w' & E & Hrdy' & Hsec); [lia | lia | lia | lia |].
    destruct (Block.blk_rw_idle bl BUF_DEV_ATA b 1 buf false w dev transfer _ _ _ Hidle ltac:(done) Hd Ht
      ltac:(done) ltac:(rewrite u32_id by lia; lia) E) as (bl' & E' & Hidle' & Hdev' & _).
    exists (bl', w'). unfold blk_io. simpl. rewrite E'. simpl. rewrite app_nil_r. split; [done|]. split; [|done].
    split_and!; [done | done |]. exists dev. simpl. by rewrite Hdev'.
  - intros [bl w] b buf (Hidle & Hrdy & dev & Hd & Ht & Hs) Hb Hlen.
    destruct (Block.disk_write b 1 buf w Hrdy) as (w' & E & Hrdy' & Hsec); [lia | lia | lia | lia |].
    destruct (Block.blk_rw_idle bl BUF_DEV_ATA b 1 buf true w dev transfer _ _ _ Hidle ltac:(done) Hd Ht
      ltac:(done) ltac:(rewrite u32_id by lia; lia) E) as (bl' & E' & Hidle' & Hdev' & _).
    exists (bl', w'). unfold blk_io. simpl. rewrite E'. split; [done|]. split.
    + split_and!; [done | done |]. exists dev. simpl. by rewrite Hdev'.
    + intros i. simpl. rewrite Hsec. destruct (decide (i = b)) as [->|].
      * rewrite decide_True by lia. replace (Z.to_nat (512 * (b - b))) with 0%nat by lia.
        rewrite drop_0. apply take_ge. lia.
      * rewrite decide_False by lia. done.
Defined.
End OnBlock.

(** ** Read errors and [balloc] *)

(** The device [dev_rw], with the status of every read replaced by [status]. *)
Definition read_status {IO} (status : os_status) (dev_rw : Z -> Z -> list Z -> bool -> IO -> os_status * list Z * IO)
    (dev b : Z) (buf : list Z) (write : bool) (io : IO) : os_status * list Z * IO :=
  let '(r, d, io') := dev_rw dev b buf write io in
  if write then (r, d, io') else (status, d, io').

Section Status.
Context {IO : Type} (dev_rw : Z -> Z -> list Z -> bool -> IO -> os_status * list Z * IO) (status : os_status).

Lemma bwrite_read_status i s : bwrite (read_status status dev_rw) i s = bwrite dev_rw i s.
Proof. unfold bwrite, read_status. destruct (negb _); [done|]. by destruct (dev_rw _ _ _ true _) as [[? ?] ?]. Qed.

Lemma evict_dirty_read_status fuel p s : evict_dirty (read_status status dev_rw) fuel p s = evict_dirty dev_rw fuel p s.
Proof.
  revert p s. induction fuel as [|fuel IH]; intros p s; [done|]. destruct p as [[i| |]|]; simpl; try done.
  destruct (negb _); [by rewrite bwrite_read_status | apply IH].
Qed.

Lemma fetch_read_status dev b i s : fetch (read_status status dev_rw) dev b i s = fetch dev_rw dev b i s.
Proof. unfold fetch, read_status. by destruct (dev_rw _ _ _ false _) as [[? ?] ?]. Qed.

(** [bread] does not look at the status of its reads: a device whose reads
    all fail gives, from every state, the same buffer with the same flags as
    one whose reads succeed, so whatever the buffer held before a failed read
    is cached as valid data of the block. *)
Theorem bread_ignores_read_errors dev b s : bread (read_status status dev_rw) dev b s = bread dev_rw dev b s.
Proof.
  unfold bread. destruct (hash_lookup _ _ _) as [[i|]|]; [| |done].
  - by rewrite fetch_read_status.
  - unfold evict. rewrite evict_dirty_read_status.
    destruct (evict_clean _ _ _) as [[i|]|]; [| |done].
    + destruct (if has _ _ _ then _ else _); [|done]. by rewrite fetch_read_status.
    + destruct (evict_dirty dev_rw _ _ s) as [[[i|] s']|]; [|done|done].
      destruct (if has _ _ _ then _ else _); [|done]. by rewrite fetch_read_status.
Qed.
End Status.

(** ** A RAM disk *)

Abbreviation ram_rw := (blk_io (W := Block.Ram.store)).
Definition ram_state : st (Block.blk Block.Ram.store * Block.Ram.store) := buf_init (Block.Ram.layer, ∅).

Lemma ram_limit : 0 < 64 < 2 ^ 32. Proof. lia. Qed.
#[export] Instance ram_disk_io : DiskIO ram_rw 64 := @block_disk_io _ _ _ ram_limit (Block.Ram.ram_reliable 64).

Lemma ram_ok w : io_ok (DiskIO := ram_disk_io) (Block.Ram.layer, w).
Proof. split_and!; [apply Block.ram_idle | done |]. eexists. split; [reflexivity|]. split; [done|]. right. by vm_compute. Qed.

Lemma buffer_update_cycle_witness : exists i s1,
  bread ram_rw BUF_DEV_ATA 3 ram_state = Some (Some i, s1) /\
  Block.Ram.read_sector (s_io (brelse i (bwrite ram_rw i (bdirty i (bset i (replicate 512 7) s1))))).2 3 = replicate 512 7.
Proof.
  destruct (init_inv (limit := 64) ltac:(lia) (Block.Ram.layer, ∅) (ram_ok ∅)) as [Hinv _].
  destruct (buffer_update_cycle (limit := 64) ltac:(lia) ram_state ∅ 3 (replicate 512 7) Hinv ltac:(vm_compute; lia)
    ltac:(lia) ltac:(done) ltac:(done)) as (i & s1 & E & _ & _ & _ & _ & Hd).
  exists i, s1. split; [exact E | exact Hd].
Defined.

(** [balloc] of block 5, released, then fifteen other blocks and block 13. *)
Definition balloc_history : M (st (Block.blk Block.Ram.store * Block.Ram.store)) unit :=
  let* i := balloc ram_rw BUF_DEV_ATA 5 in
  do* modify (brelse (default 0%nat i)) in
  do* fold_left (fun m b => do* m in let* i := bread ram_rw BUF_DEV_ATA b in modify (brelse (default 0%nat i)))
        (seqZ 14 7 ++ seqZ 22 7 ++ [30]) (ret tt) in
  let* i := bread ram_rw BUF_DEV_ATA 13 in
  modify (brelse (default 0%nat i)).

(** The head of bucket 5, its block number and its successor in a state. *)
Definition chain5 {IO} (r : option (unit * st IO)) : option (option nat * Z * option nat) :=
  '(_, s) ← r; Some (bucket (s_cache s) 5, field b_blockno 0 (s_cache s) 0, field b_hash_next None (s_cache s) 0).

Lemma balloc_chain : chain5 (balloc_history ram_state) = Some (Some 0%nat, 13, Some 0%nat).
Proof. vm_compute. reflexivity. Qed.

Lemma hash_find_self_loop c i dev b : field b_hash_next None c i = Some i -> field b_blockno 0 c i <> b ->
  forall fuel, hash_find fuel dev b (Some i) c = None.
Proof.
  intros Hn Hb. induction fuel as [|fuel IH]; [done|]. cbn [hash_find].
  rewrite (proj2 (Z.eqb_neq _ _) Hb), andb_false_r, Hn. exact IH.
Qed.

Lemma chain5_cyclic {IO} (r : option (unit * st IO)) : chain5 r = Some (Some 0%nat, 13, Some 0%nat) ->
  exists s, r = Some (tt, s) /\
  forall fuel, hash_find fuel BUF_DEV_ATA 21 (bucket (s_cache s) (hash BUF_DEV_ATA 21)) (s_cache s) = None.
Proof.
  intros E. destruct r as [[[] s]|]; [|done]. injection E as Eb Ek En.
  exists s. split; [done|]. change (hash BUF_DEV_ATA 21) with 5. rewrite Eb.
  apply hash_find_self_loop; [done | by rewrite Ek].
Qed.

(** [balloc] leaves the buffer it hands out without the valid bit, so
    neither [bread] nor [balloc] takes it off its hash chain when they recycle
    it.  After [balloc] of block 5, fifteen other blocks and block 13, the
    chain of bucket 5 is a buffer linked to itself, and the walk of
    [_hash_lookup] for block 21 does not end, whatever the fuel. *)
Theorem balloc_makes_hash_chain_cyclic : exists s, balloc_history ram_state = Some (tt, s) /\
  forall fuel, hash_find fuel BUF_DEV_ATA 21 (bucket (s_cache s) (hash BUF_DEV_ATA 21)) (s_cache s) = None.
Proof. exact (chain5_cyclic _ balloc_chain). Qed.

End Buffer.
