(* ===== verification/NoxFS.v ===== *)
(** * NoxFS (src/fs/noxfs/noxfs.c)

    The inode file system over the buffer-cache interface: superblock, bitmaps,
    inode table, block map, file contents, directories, and the in-memory table
    of open files.  This file holds the executable model; its theorems are in
    the files that follow it.

    A computation without a result ([None]) stands for a loop that does not end
    or for an access outside a heap buffer. *)
From S2P Require Import Prelude Bytes Buffer.

Module NoxFS.

Abbreviation NOXFS_MAGIC := 0x4E584632.
Definition NOXFS_BLKSZ : Z := 512.
Definition NOXFS_INO_SZ : Z := 64.
Definition NOXFS_DIRECT : Z := 10.
Abbreviation NOXFS_INDIRECT := (NOXFS_BLKSZ / 4).
Abbreviation NOXFS_MAX_FILES := 24.
Definition BITS_PER_BYTE : Z := 8.
Definition INODES_PER_BLK : Z := NOXFS_BLKSZ / NOXFS_INO_SZ.
Abbreviation NOXFS_INO_FILE := 0x8000.
Abbreviation NOXFS_INO_DIR := 0x4000.
Abbreviation NOXFS_PERM_MASK := 0x01FF.
Abbreviation NOXFS_MODE_FILE := (Z.lor NOXFS_INO_FILE 0x01A4).
Abbreviation NOXFS_MODE_DIR := (Z.lor NOXFS_INO_DIR 0x01ED).
Abbreviation NOXFS_FT_FILE := 1.
Abbreviation NOXFS_FT_DIR := 2.
Definition DIRENT_SZ : Z := 32.

(** ** On-disk structures *)

Record noxfs_sb := mkSb {
  sb_magic : Z; sb_block_count : Z; sb_inode_count : Z; sb_free_blocks : Z; sb_free_inodes : Z;
  sb_blk_bmp : Z; sb_ino_bmp : Z; sb_ino_tbl : Z; sb_data_start : Z; sb_root_ino : Z; sb_pad : list Z
}.

Definition sb_of_bytes (d : list Z) : noxfs_sb :=
  mkSb (get32 d 0) (get32 d 4) (get32 d 8) (get32 d 12) (get32 d 16) (get32 d 20) (get32 d 24) (get32 d 28)
       (get32 d 32) (get32 d 36) (slice 40 472 d).

Definition sb_bytes (sb : noxfs_sb) : list Z :=
  le_bytes 4 (sb_magic sb) ++ le_bytes 4 (sb_block_count sb) ++ le_bytes 4 (sb_inode_count sb) ++
  le_bytes 4 (sb_free_blocks sb) ++ le_bytes 4 (sb_free_inodes sb) ++ le_bytes 4 (sb_blk_bmp sb) ++
  le_bytes 4 (sb_ino_bmp sb) ++ le_bytes 4 (sb_ino_tbl sb) ++ le_bytes 4 (sb_data_start sb) ++
  le_bytes 4 (sb_root_ino sb) ++ sb_pad sb.

Definition with_free_blocks (n : Z) (sb : noxfs_sb) : noxfs_sb :=
  mkSb (sb_magic sb) (sb_block_count sb) (sb_inode_count sb) n (sb_free_inodes sb)
       (sb_blk_bmp sb) (sb_ino_bmp sb) (sb_ino_tbl sb) (sb_data_start sb) (sb_root_ino sb) (sb_pad sb).
Definition with_free_inodes (n : Z) (sb : noxfs_sb) : noxfs_sb :=
  mkSb (sb_magic sb) (sb_block_count sb) (sb_inode_count sb) (sb_free_blocks sb) n
       (sb_blk_bmp sb) (sb_ino_bmp sb) (sb_ino_tbl sb) (sb_data_start sb) (sb_root_ino sb) (sb_pad sb).

Record noxfs_inode := mkInode {
  i_mode : Z; i_uid : Z; i_gid : Z; i_size : Z; i_blocks : list Z; i_indirect : Z; i_links : Z; i_pad : list Z
}.

Definition inode_of_bytes (d : list Z) : noxfs_inode :=
  mkInode (get16 d 0) (get16 d 2) (get16 d 4) (get32 d 6) ((fun k => get32 d (10 + 4 * k)) <$> seqZ 0 10)
          (get32 d 50) (get16 d 54) (slice 56 8 d).

Definition inode_bytes (i : noxfs_inode) : list Z :=
  le_bytes 2 (i_mode i) ++ le_bytes 2 (i_uid i) ++ le_bytes 2 (i_gid i) ++ le_bytes 4 (i_size i) ++
  (i_blocks i ≫= le_bytes 4) ++ le_bytes 4 (i_indirect i) ++ le_bytes 2 (i_links i) ++ i_pad i.

Definition zero_inode : noxfs_inode := mkInode 0 0 0 0 (replicate 10 0) 0 0 (replicate 8 0).

Definition set_mode (m : Z) (i : noxfs_inode) : noxfs_inode :=
  mkInode m (i_uid i) (i_gid i) (i_size i) (i_blocks i) (i_indirect i) (i_links i) (i_pad i).
Definition set_size (n : Z) (i : noxfs_inode) : noxfs_inode :=
  mkInode (i_mode i) (i_uid i) (i_gid i) n (i_blocks i) (i_indirect i) (i_links i) (i_pad i).
Definition set_block (k b : Z) (i : noxfs_inode) : noxfs_inode :=
  mkInode (i_mode i) (i_uid i) (i_gid i) (i_size i) (<[Z.to_nat k := b]> (i_blocks i)) (i_indirect i) (i_links i) (i_pad i).
Definition set_indirect (b : Z) (i : noxfs_inode) : noxfs_inode :=
  mkInode (i_mode i) (i_uid i) (i_gid i) (i_size i) (i_blocks i) b (i_links i) (i_pad i).
Definition set_links (n : Z) (i : noxfs_inode) : noxfs_inode :=
  mkInode (i_mode i) (i_uid i) (i_gid i) (i_size i) (i_blocks i) (i_indirect i) n (i_pad i).

Definition iblock (i : noxfs_inode) (k : Z) : Z := nth (Z.to_nat k) (i_blocks i) 0.

Record noxfs_dirent := mkDirent { de_inode : Z; de_rec_len : Z; de_name_len : Z; de_file_type : Z; de_name : list Z }.

Definition dirent_of_bytes (d : list Z) : noxfs_dirent :=
  mkDirent (get32 d 0) (get16 d 4) (byte d 6) (byte d 7) (slice 8 24 d).

(** The open-file view shared with the VFS (vfs.h). *)
Record vfs_file := mkFile { vf_name : list Z; vf_data : Z; vf_size : Z; vf_inode : Z; vf_capacity : Z }.
Definition blank_file : vfs_file := mkFile (replicate 32 0) 0 0 0 0.

(** ** State

    [n_heap] maps the address of each live heap buffer to its contents. *)
Section Model.
Context {S : Type} {limit : Z} `{BC : BufferCache S limit}.
(** [kmalloc]: the address and contents of a new buffer, given the live ones. *)
Context (pick : gmap Z (list Z) -> Z -> option (Z * list Z)).
(** The direct PIO read of one block, the fallback when no buffer is free. *)
Context (ata_read : Z -> S -> os_status * list Z * S).

Record nox := mkNox {
  n_bc : S; n_sb : noxfs_sb; n_files : list vfs_file; n_count : Z; n_ready : bool; n_heap : gmap Z (list Z)
}.

Definition on_bc (f : S -> S) (s : nox) : nox :=
  mkNox (f (n_bc s)) (n_sb s) (n_files s) (n_count s) (n_ready s) (n_heap s).
Definition set_sb (sb : noxfs_sb) (s : nox) : nox :=
  mkNox (n_bc s) sb (n_files s) (n_count s) (n_ready s) (n_heap s).
Definition set_file (i : Z) (f : vfs_file) (s : nox) : nox :=
  mkNox (n_bc s) (n_sb s) (<[Z.to_nat i := f]> (n_files s)) (n_count s) (n_ready s) (n_heap s).
Definition set_count (n : Z) (s : nox) : nox :=
  mkNox (n_bc s) (n_sb s) (n_files s) n (n_ready s) (n_heap s).
Definition set_ready (b : bool) (s : nox) : nox :=
  mkNox (n_bc s) (n_sb s) (n_files s) (n_count s) b (n_heap s).
Definition set_heap (h : gmap Z (list Z)) (s : nox) : nox :=
  mkNox (n_bc s) (n_sb s) (n_files s) (n_count s) (n_ready s) h.

Abbreviation MN := (M nox).

Definition gets {A} (f : nox -> A) : MN A := fun s => Some (f s, s).
Definition file (i : Z) (s : nox) : vfs_file := default blank_file (n_files s !! Z.to_nat i).

(** The buffer-cache calls. *)
Definition bread (b : Z) : MN (option nat) := fun s =>
  match bc_bread b (n_bc s) with Some (r, c) => Some (r, on_bc (fun _ => c) s) | None => None end.
Definition bdata (i : nat) : MN (list Z) := gets (fun s => bc_data i (n_bc s)).
(** [bp->data] overwritten, [bp->flags |= B_DIRTY; bwrite(bp)]. *)
Definition bstore (i : nat) (d : list Z) : MN unit :=
  do* modify (on_bc (bc_set i d)) in
  do* modify (on_bc (bc_dirty i)) in
  modify (on_bc (bc_bwrite i)).
Definition brelse (i : nat) : MN unit := modify (on_bc (bc_brelse i)).
Definition ata (b : Z) : MN (os_status * list Z) := fun s =>
  let '(r, d, c) := ata_read b (n_bc s) in Some ((r, d), on_bc (fun _ => c) s).

(** Heap buffers; 0 is the null pointer. *)
Definition kmalloc (n : Z) : MN Z := fun s =>
  match pick (n_heap s) n with
  | Some (p, d) => Some (p, set_heap (<[p := d]> (n_heap s)) s)
  | None => Some (0, s)
  end.
Definition kfree (p : Z) : MN unit := modify (fun s => set_heap (delete p (n_heap s)) s).
Definition hread (p o n : Z) : MN (list Z) := fun s =>
  match n_heap s !! p with
  | Some d => if (0 <=? o) && (0 <=? n) && (o + n <=? Z.of_nat (length d)) then Some (slice o n d, s) else None
  | None => None
  end.
Definition hwrite (p o : Z) (l : list Z) : MN unit := fun s =>
  match n_heap s !! p with
  | Some d => if (0 <=? o) && (o + Z.of_nat (length l) <=? Z.of_nat (length d))
              then Some (tt, set_heap (<[p := splice o l d]> (n_heap s)) s) else None
  | None => None
  end.

Definition is_ok (r : os_status) : bool := bool_decide (r = OS_OK).

(** ** Bitmaps *)

Inductive scan := Hit (byte bit : Z) | Past | Full.

(** The bits of one byte, from [bit] on. *)
Fixpoint scan_bits (n : nat) (d : list Z) (b byte_ bit max_bits : Z) : scan :=
  match n with
  | O => Full
  | Datatypes.S n =>
      let idx := u32 (b * NOXFS_BLKSZ * BITS_PER_BYTE + byte_ * BITS_PER_BYTE + bit) in
      if max_bits <=? idx then Past
      else if Z.land (byte d byte_) (Z.shiftl 1 bit) =? 0 then Hit byte_ bit
      else scan_bits n d b byte_ (bit + 1) max_bits
  end.

Fixpoint scan_bytes (n : nat) (d : list Z) (b byte_ max_bits : Z) : scan :=
  match n with
  | O => Full
  | Datatypes.S n =>
      if byte d byte_ =? 0xFF then scan_bytes n d b (byte_ + 1) max_bits
      else match scan_bits (Z.to_nat BITS_PER_BYTE) d b byte_ 0 max_bits with
           | Full => scan_bytes n d b (byte_ + 1) max_bits
           | r => r
           end
  end.

Fixpoint bmp_alloc_loop (n : nat) (b start_blk max_bits : Z) : MN Z :=
  match n with
  | O => ret U32_NEG1
  | Datatypes.S n =>
      let* bp := bread (u32 (start_blk + b)) in
      match bp with
      | None => ret U32_NEG1
      | Some bp =>
          let* d := bdata bp in
          match scan_bytes (Z.to_nat NOXFS_BLKSZ) d b 0 max_bits with
          | Past => do* brelse bp in ret U32_NEG1
          | Hit byte_ bit =>
              do* bstore bp (<[Z.to_nat byte_ := u8 (Z.lor (byte d byte_) (Z.shiftl 1 bit))]> d) in
              do* brelse bp in
              ret (u32 (b * NOXFS_BLKSZ * BITS_PER_BYTE + byte_ * BITS_PER_BYTE + bit))
          | Full => do* brelse bp in bmp_alloc_loop n (b + 1) start_blk max_bits
          end
      end
  end.

Definition bmp_alloc (start_blk blk_count max_bits : Z) : MN Z :=
  bmp_alloc_loop (Z.to_nat blk_count) 0 start_blk max_bits.

Definition bmp_free (start_blk bit : Z) : MN unit :=
  let blk_off := bit / (NOXFS_BLKSZ * BITS_PER_BYTE) in
  let byte_off := (bit mod (NOXFS_BLKSZ * BITS_PER_BYTE)) / BITS_PER_BYTE in
  let bit_off := bit mod BITS_PER_BYTE in
  let* bp := bread (u32 (start_blk + blk_off)) in
  match bp with
  | None => ret tt
  | Some bp =>
      let* d := bdata bp in
      do* bstore bp (<[Z.to_nat byte_off := u8 (Z.land (byte d byte_off) (Z.lnot (Z.shiftl 1 bit_off)))]> d) in
      brelse bp
  end.

(** ** Superblock *)

Definition sb_read : MN os_status :=
  let* bp := bread 0 in
  match bp with
  | None =>
      let* '(r, raw) := ata 0 in
      if negb (is_ok r) then ret OS_ERR_IO
      else if negb (get32 raw 0 =? NOXFS_MAGIC) then ret OS_ERR_NOT_FOUND
      else do* modify (set_sb (sb_of_bytes raw)) in ret OS_OK
  | Some bp =>
      let* d := bdata bp in
      if negb (get32 d 0 =? NOXFS_MAGIC) then do* brelse bp in ret OS_ERR_NOT_FOUND
      else
        do* modify (set_sb (sb_of_bytes d)) in
        do* brelse bp in
        ret OS_OK
  end.

Definition sb_write : MN os_status :=
  let* bp := bread 0 in
  match bp with
  | None => ret OS_ERR_IO
  | Some bp =>
      let* d := bdata bp in
      let* sb := gets n_sb in
      do* bstore bp (splice 0 (sb_bytes sb) d) in
      do* brelse bp in
      ret OS_OK
  end.

(** ** Block and inode allocators *)

Definition balloc : MN Z :=
  let* sb := gets n_sb in
  if sb_free_blocks sb =? 0 then ret U32_NEG1
  else
    let* blk := bmp_alloc (sb_blk_bmp sb) 1 (sb_block_count sb) in
    if blk =? U32_NEG1 then ret U32_NEG1
    else
      do* modify (fun s => set_sb (with_free_blocks (u32 (sb_free_blocks (n_sb s) - 1)) (n_sb s)) s) in
      do* sb_write in
      ret blk.

Definition bfree (blk : Z) : MN unit :=
  let* sb := gets n_sb in
  if sb_block_count sb <=? blk then ret tt
  else
    do* bmp_free (sb_blk_bmp sb) blk in
    do* modify (fun s => set_sb (with_free_blocks (u32 (sb_free_blocks (n_sb s) + 1)) (n_sb s)) s) in
    do* sb_write in
    ret tt.

Definition ino_blk (sb : noxfs_sb) (ino : Z) : Z := u32 (sb_ino_tbl sb + ino / INODES_PER_BLK).
Definition ino_off (ino : Z) : Z := (ino mod INODES_PER_BLK) * NOXFS_INO_SZ.

Definition ialloc (mode : Z) : MN Z :=
  let* sb := gets n_sb in
  if sb_free_inodes sb =? 0 then ret U32_NEG1
  else
    let* ino := bmp_alloc (sb_ino_bmp sb) 1 (sb_inode_count sb) in
    if ino =? U32_NEG1 then ret U32_NEG1
    else
      let ino_data := set_links 1 (set_mode mode zero_inode) in
      let* bp := bread (ino_blk sb ino) in
      match bp with
      | None => do* bmp_free (sb_ino_bmp sb) ino in ret U32_NEG1
      | Some bp =>
          let* d := bdata bp in
          do* bstore bp (splice (ino_off ino) (inode_bytes ino_data) d) in
          do* brelse bp in
          do* modify (fun s => set_sb (with_free_inodes (u32 (sb_free_inodes (n_sb s) - 1)) (n_sb s)) s) in
          do* sb_write in
          ret ino
      end.

(** ** Inodes *)

Definition iread (ino : Z) : MN (os_status * noxfs_inode) :=
  let* sb := gets n_sb in
  if sb_inode_count sb <=? ino then ret (OS_ERR_INVALID, zero_inode)
  else
    let* bp := bread (ino_blk sb ino) in
    match bp with
    | Some bp =>
        let* d := bdata bp in
        do* brelse bp in
        ret (OS_OK, inode_of_bytes (slice (ino_off ino) NOXFS_INO_SZ d))
    | None =>
        let* '(r, raw) := ata (ino_blk sb ino) in
        if negb (is_ok r) then ret (OS_ERR_IO, zero_inode)
        else ret (OS_OK, inode_of_bytes (slice (ino_off ino) NOXFS_INO_SZ raw))
    end.

Definition iwrite (ino : Z) (i : noxfs_inode) : MN os_status :=
  let* sb := gets n_sb in
  if sb_inode_count sb <=? ino then ret OS_ERR_INVALID
  else
    let* bp := bread (ino_blk sb ino) in
    match bp with
    | None => ret OS_ERR_IO
    | Some bp =>
        let* d := bdata bp in
        do* bstore bp (splice (ino_off ino) (inode_bytes i) d) in
        do* brelse bp in
        ret OS_OK
    end.

Definition ifree (ino : Z) : MN unit :=
  let* sb := gets n_sb in
  if sb_inode_count sb <=? ino then ret tt
  else
    do* bmp_free (sb_ino_bmp sb) ino in
    do* modify (fun s => set_sb (with_free_inodes (u32 (sb_free_inodes (n_sb s) + 1)) (n_sb s)) s) in
    do* sb_write in
    ret tt.

(** ** Block map *)

(** The physical block of a logical one (0: none), and the inode as changed. *)
Definition iget_block (ino : noxfs_inode) (logical : Z) (allocate : bool) : MN (Z * noxfs_inode) :=
  if logical <? NOXFS_DIRECT then
    if allocate && (iblock ino logical =? 0) then
      let* blk := balloc in
      if blk =? U32_NEG1 then ret (0, ino)
      else ret (blk, set_block logical blk ino)
    else ret (iblock ino logical, ino)
  else
    let logical := logical - NOXFS_DIRECT in
    if NOXFS_INDIRECT <=? logical then ret (0, ino)
    else
      let* r := (if allocate && (i_indirect ino =? 0) then
                   let* blk := balloc in
                   if blk =? U32_NEG1 then ret (false, ino)
                   else
                     let* bp := bread blk in
                     match bp with
                     | None => ret (false, set_indirect blk ino)
                     | Some bp =>
                         do* bstore bp (replicate (Z.to_nat NOXFS_BLKSZ) 0) in
                         do* brelse bp in
                         ret (true, set_indirect blk ino)
                     end
                 else ret (true, ino)) in
      match r with
      | (false, ino) => ret (0, ino)
      | (true, ino) =>
          if i_indirect ino =? 0 then ret (0, ino)
          else
            let* bp := bread (i_indirect ino) in
            match bp with
            | None => ret (0, ino)
            | Some bp =>
                let* d := bdata bp in
                if allocate && (get32 d (4 * logical) =? 0) then
                  let* blk := balloc in
                  if blk =? U32_NEG1 then do* brelse bp in ret (0, ino)
                  else
                    let* d := bdata bp in
                    do* bstore bp (put32 (4 * logical) blk d) in
                    let* d := bdata bp in
                    do* brelse bp in
                    ret (get32 d (4 * logical), ino)
                else
                  do* brelse bp in
                  ret (get32 d (4 * logical), ino)
            end
      end.

(** ** File contents *)

(** [(n + NOXFS_BLKSZ - 1) & ~(NOXFS_BLKSZ - 1)] *)
Definition round_blk (n : Z) : Z := Z.land (u32 (n + NOXFS_BLKSZ - 1)) (u32 (Z.lnot (NOXFS_BLKSZ - 1))).

(** Bytes of block [s] that belong to a file of [size] bytes. *)
Definition copy_len (s size : Z) : Z :=
  if size <? u32 (u32 (s * NOXFS_BLKSZ) + NOXFS_BLKSZ) then u32 (size - u32 (s * NOXFS_BLKSZ)) else NOXFS_BLKSZ.

Fixpoint load_loop (fuel : nat) (s : Z) (i : noxfs_inode) (buf : Z) : MN Z :=
  match fuel with
  | O => fun _ => None
  | Datatypes.S fuel =>
      if u32 (s * NOXFS_BLKSZ) <? i_size i then
        let* '(blk, _) := iget_block i s false in
        if blk =? 0 then load_loop fuel (s + 1) i buf
        else
          let* bp := bread blk in
          match bp with
          | Some bp =>
              let* d := bdata bp in
              do* hwrite buf (u32 (s * NOXFS_BLKSZ)) (slice 0 (copy_len s (i_size i)) d) in
              do* brelse bp in
              load_loop fuel (s + 1) i buf
          | None =>
              let* '(r, raw) := ata blk in
              if negb (is_ok r) then do* kfree buf in ret 0
              else
                do* hwrite buf (u32 (s * NOXFS_BLKSZ)) (slice 0 (copy_len s (i_size i)) raw) in
                load_loop fuel (s + 1) i buf
          end
      else ret buf
  end.

(** The buffer (0: none) and the size stored through [size_out], if any. *)
Definition load_data (ino : Z) : MN (Z * option Z) :=
  let* '(r, i) := iread ino in
  if negb (is_ok r) then ret (0, None)
  else if i_size i =? 0 then
    let* buf := kmalloc 1 in
    do* (if buf =? 0 then ret tt else hwrite buf 0 [0]) in
    ret (buf, Some (i_size i))
  else
    let* buf := kmalloc (round_blk (i_size i)) in
    if buf =? 0 then ret (0, Some (i_size i))
    else
      let* buf := load_loop (Z.to_nat (i_size i / NOXFS_BLKSZ + 2)) 0 i buf in
      ret (buf, Some (i_size i)).

Fixpoint store_loop (n : nat) (s : Z) (i : noxfs_inode) (data size : Z) : MN (os_status * noxfs_inode) :=
  match n with
  | O => ret (OS_OK, i)
  | Datatypes.S n =>
      let* '(blk, i) := iget_block i s true in
      if blk =? 0 then ret (OS_ERR_OOM, i)
      else
        let* bp := bread blk in
        match bp with
        | None => ret (OS_ERR_IO, i)
        | Some bp =>
            let* l := hread data (u32 (s * NOXFS_BLKSZ)) (copy_len s size) in
            let* d := bdata bp in
            do* bstore bp (splice 0 l d) in
            do* brelse bp in
            store_loop n (s + 1) i data size
        end
  end.

Definition store_data (ino data size : Z) : MN os_status :=
  let* '(r, i) := iread ino in
  if negb (is_ok r) then ret OS_ERR_IO
  else
    let new_blks := if size =? 0 then 0 else u32 (size + NOXFS_BLKSZ - 1) / NOXFS_BLKSZ in
    let* '(r, i) := store_loop (Z.to_nat new_blks) 0 (set_size size i) data size in
    if negb (is_ok r) then ret r
    else
      let* r := iwrite ino i in
      if negb (is_ok r) then ret OS_ERR_IO else ret OS_OK.

(** ** Directories *)

(** The comparison of a stored name with a C string. *)
Fixpoint name_match (fuel : nat) (dir_data o name_len : Z) (name : list Z) (j : Z) : MN bool :=
  match fuel with
  | O => fun _ => None
  | Datatypes.S fuel =>
      if (j <? name_len) && ctrue (byte name j) then
        let* c := hread dir_data (o + j) 1 in
        if byte c 0 =? byte name j then name_match fuel dir_data o name_len name (j + 1)
        else ret false
      else ret ((j =? name_len) && (byte name j =? 0))
  end.

Definition dirent_at (dir_data i : Z) : MN noxfs_dirent :=
  let* e := hread dir_data (i * DIRENT_SZ) DIRENT_SZ in ret (dirent_of_bytes e).

(** The first used entry with the name: its index and inode. *)
Fixpoint dir_find (n : nat) (i dir_data : Z) (name : list Z) : MN (option (Z * Z)) :=
  match n with
  | O => ret None
  | Datatypes.S n =>
      let* e := dirent_at dir_data i in
      if de_inode e =? 0 then dir_find n (i + 1) dir_data name
      else
        let* hit := name_match 257 dir_data (i * DIRENT_SZ + 8) (de_name_len e) name 0 in
        if hit then ret (Some (i, de_inode e)) else dir_find n (i + 1) dir_data name
  end.

Definition dir_lookup_name (dir_ino : Z) (name : list Z) : MN Z :=
  let* '(r, dir) := iread dir_ino in
  if negb (is_ok r) then ret U32_NEG1
  else if Z.land (i_mode dir) NOXFS_INO_DIR =? 0 then ret U32_NEG1
  else
    let* '(dir_data, sz) := load_data dir_ino in
    if dir_data =? 0 then ret U32_NEG1
    else
      let count := default (i_size dir) sz / DIRENT_SZ in
      let* r := dir_find (Z.to_nat count) 0 dir_data name in
      do* kfree dir_data in
      ret (match r with Some (_, ino) => ino | None => U32_NEG1 end).

(** The length of a name as a directory entry stores it. *)
Abbreviation stored_len name := (Z.min 23 (Z.of_nat (length name))).

Definition dir_add_entry (dir_ino : Z) (name : list Z) (file_ino file_type : Z) : MN os_status :=
  let* '(r, dir) := iread dir_ino in
  if negb (is_ok r) then ret OS_ERR_IO
  else
    let new_sz := u32 (i_size dir + DIRENT_SZ) in
    let* '(dir_data, _) := load_data dir_ino in
    if dir_data =? 0 then ret OS_ERR_OOM
    else
      let* new_data := kmalloc (round_blk new_sz) in
      if new_data =? 0 then do* kfree dir_data in ret OS_ERR_OOM
      else
        let* old := hread dir_data 0 (i_size dir) in
        do* hwrite new_data 0 old in
        do* kfree dir_data in
        let o := i_size dir in
        let nl := stored_len name in
        do* hwrite new_data o (le_bytes 4 file_ino ++ le_bytes 2 DIRENT_SZ ++ [nl; file_type]) in
        do* hwrite new_data (o + 8) (slice 0 nl name ++ [0]) in
        let* s := store_data dir_ino new_data new_sz in
        do* kfree new_data in
        ret s.

(** The compacting copy of [_dir_remove_entry]. *)
Fixpoint compact_loop (n : nat) (i dst found dir_data new_data : Z) : MN unit :=
  match n with
  | O => ret tt
  | Datatypes.S n =>
      if i =? found then compact_loop n (i + 1) dst found dir_data new_data
      else
        let* e := hread dir_data (i * DIRENT_SZ) DIRENT_SZ in
        do* hwrite new_data (dst * DIRENT_SZ) e in
        compact_loop n (i + 1) (dst + 1) found dir_data new_data
  end.

Definition dir_remove_entry (dir_ino : Z) (name : list Z) : MN os_status :=
  let* '(r, dir) := iread dir_ino in
  if negb (is_ok r) then ret OS_ERR_IO
  else if Z.land (i_mode dir) NOXFS_INO_DIR =? 0 then ret OS_ERR_INVALID
  else
    let* '(dir_data, sz) := load_data dir_ino in
    if dir_data =? 0 then ret OS_ERR_OOM
    else
      let count := default (i_size dir) sz / DIRENT_SZ in
      let* r := dir_find (Z.to_nat count) 0 dir_data name in
      match r with
      | None => do* kfree dir_data in ret OS_ERR_NOT_FOUND
      | Some (found, _) =>
          let new_sz := u32 ((count - 1) * DIRENT_SZ) in
          let* new_data := kmalloc (if 0 <? new_sz then new_sz else 1) in
          if new_data =? 0 then do* kfree dir_data in ret OS_ERR_OOM
          else
            do* compact_loop (Z.to_nat count) 0 0 found dir_data new_data in
            do* kfree dir_data in
            let* s := store_data dir_ino new_data new_sz in
            do* kfree new_data in
            ret s
      end.

(** ** Mounting *)

Abbreviation round_cap size := (if round_blk size =? 0 then NOXFS_BLKSZ else round_blk size).

(** [f->data = _load_data(ino, &f->size)] on slot [k] of the table. *)
Definition load_file (k ino : Z) : MN Z :=
  let* '(p, sz) := load_data ino in
  do* modify (fun s => let f := file k s in
        set_file k (mkFile (vf_name f) p (default (vf_size f) sz) (vf_inode f) (vf_capacity f)) s) in
  ret p.

Definition set_name (k : Z) (name : list Z) : MN unit :=
  modify (fun s => let f := file k s in
    set_file k (mkFile name (vf_data f) (vf_size f) (vf_inode f) (vf_capacity f)) s).

(** [f->inode], [f->capacity] from the size just loaded, and [g_count++]. *)
Definition finish_file (k ino : Z) : MN unit :=
  do* modify (fun s => let f := file k s in
        set_file k (mkFile (vf_name f) (vf_data f) (vf_size f) ino (round_cap (vf_size f))) s) in
  modify (fun s => set_count (u32 (n_count s + 1)) s).

Fixpoint dir_scan_loop (n : nat) (i dir_data : Z) : MN unit :=
  match n with
  | O => ret tt
  | Datatypes.S n =>
      let* k := gets n_count in
      if k <? NOXFS_MAX_FILES then
        let* e := dirent_at dir_data i in
        if (de_inode e =? 0) || negb (de_file_type e =? NOXFS_FT_FILE) then dir_scan_loop n (i + 1) dir_data
        else
          let name_len := Z.min 31 (de_name_len e) in
          let* nm := hread dir_data (i * DIRENT_SZ + 8) name_len in
          let* f := gets (file k) in
          do* set_name k (splice 0 (nm ++ [0]) (vf_name f)) in
          let* p := load_file k (de_inode e) in
          if p =? 0 then dir_scan_loop n (i + 1) dir_data
          else
            do* finish_file k (de_inode e) in
            dir_scan_loop n (i + 1) dir_data
      else ret tt
  end.

Definition dir_scan (dir_ino : Z) : MN os_status :=
  let* '(r, dir) := iread dir_ino in
  if negb (is_ok r) then ret OS_ERR_IO
  else if Z.land (i_mode dir) NOXFS_INO_DIR =? 0 then ret OS_ERR_INVALID
  else
    let* '(dir_data, sz) := load_data dir_ino in
    if dir_data =? 0 then ret OS_ERR_OOM
    else
      do* modify (set_count 0) in
      do* dir_scan_loop (Z.to_nat (default (i_size dir) sz / DIRENT_SZ)) 0 dir_data in
      do* kfree dir_data in
      ret OS_OK.

Definition noxfs_init : MN os_status :=
  do* modify (set_ready false) in
  do* modify (set_count 0) in
  do* modify (on_bc bc_init) in
  let* bp := bread 0 in
  match bp with
  | None => ret OS_ERR_NOT_FOUND
  | Some bp =>
      let* d := bdata bp in
      if negb (get32 d 0 =? NOXFS_MAGIC) then do* brelse bp in ret OS_ERR_NOT_FOUND
      else
        do* modify (set_sb (sb_of_bytes d)) in
        do* brelse bp in
        let* r := dir_scan (sb_root_ino (sb_of_bytes d)) in
        if negb (is_ok r) then ret OS_ERR_IO
        else do* modify (set_ready true) in ret OS_OK
  end.

(** ** The file interface

    A [vfs_file_t*] is an index into the table of open files. *)

Definition noxfs_count (s : nox) : Z := if n_ready s then n_count s else 0.

Definition noxfs_entry (i : Z) (s : nox) : option Z :=
  if negb (n_ready s) || (n_count s <=? i) then None else Some i.

(** [_streq]: both strings end at a zero byte, or at the end of the list. *)
Fixpoint streq (a b : list Z) : bool :=
  match a, b with
  | [], [] => true
  | [], y :: _ => y =? 0
  | x :: _, [] => x =? 0
  | x :: a, y :: b => if (x =? 0) || (y =? 0) then x =? y else (x =? y) && streq a b
  end.

(** The first of the [n] files from slot [i] on that has the name. *)
Fixpoint find_name (n : nat) (i : Z) (name : list Z) (s : nox) : option Z :=
  match n with
  | O => None
  | Datatypes.S n => if streq (vf_name (file i s)) name then Some i else find_name n (i + 1) name s
  end.

(** ** Paths: a C string is the list of its bytes. *)

Fixpoint skip_slashes (p : list Z) : list Z :=
  match p with c :: p' => if c =? 47 then skip_slashes p' else p | [] => [] end.

(** [while ( *p && *p != '/' && ci < max) comp[ci++] = *p++;] *)
Fixpoint take_comp (max : nat) (p : list Z) : list Z * list Z :=
  match max, p with
  | Datatypes.S max, c :: p' =>
      if c =? 47 then ([], p) else let '(comp, r) := take_comp max p' in (c :: comp, r)
  | _, _ => ([], p)
  end.

Fixpoint resolve_loop (fuel : nat) (cur_ino : Z) (p : list Z) : MN Z :=
  match fuel with
  | O => fun _ => None
  | Datatypes.S fuel =>
      match p with
      | [] => ret cur_ino
      | _ =>
          match skip_slashes p with
          | [] => ret cur_ino
          | p =>
              let '(comp, p) := take_comp 31 p in
              if bool_decide (comp = []) then resolve_loop fuel cur_ino p
              else if bool_decide (comp = [46]) then resolve_loop fuel cur_ino p
              else if bool_decide (comp = [46; 46]) then
                let* sb := gets n_sb in resolve_loop fuel (sb_root_ino sb) p
              else
                let* cur_ino := dir_lookup_name cur_ino comp in
                if cur_ino =? U32_NEG1 then ret U32_NEG1 else resolve_loop fuel cur_ino p
          end
      end
  end.

Definition noxfs_resolve (base_ino : Z) (path : list Z) : MN Z :=
  let* ready := gets n_ready in
  if negb ready then ret U32_NEG1
  else
    let* root := gets (fun s => sb_root_ino (n_sb s)) in
    match path with
    | [] => ret base_ino
    | c :: p =>
        if c =? 47 then
          match p with
          | [] => ret root
          | _ => resolve_loop (Datatypes.S (length p)) root p
          end
        else resolve_loop (Datatypes.S (length path)) base_ino path
    end.

(** The part of a path after its last slash. *)
Definition basename (path : list Z) : list Z :=
  (fix go (p base : list Z) : list Z :=
     match p with [] => base | c :: p' => go p' (if c =? 47 then p' else base) end) path path.

Definition noxfs_lookup (name : list Z) : MN (option Z) :=
  let* ready := gets n_ready in
  if negb ready then ret None
  else
    let* hit := gets (fun s => find_name (Z.to_nat (n_count s)) 0 name s) in
    match hit with
    | Some i => ret (Some i)
    | None =>
        let* root := gets (fun s => sb_root_ino (n_sb s)) in
        let* ino := noxfs_resolve root name in
        if (ino =? U32_NEG1) || (ino =? root) then ret None
        else
          let* '(r, i) := iread ino in
          if negb (is_ok r) then ret None
          else if Z.land (i_mode i) NOXFS_INO_FILE =? 0 then ret None
          else
            let* k := gets n_count in
            if NOXFS_MAX_FILES <=? k then ret None
            else
              let* f := gets (file k) in
              do* set_name k (splice 0 (slice 0 31 (basename name) ++ [0]) (vf_name f)) in
              let* p := load_file k ino in
              if p =? 0 then ret None
              else
                do* finish_file k ino in
                ret (Some k)
    end.

Definition ensure_capacity (k needed : Z) : MN os_status :=
  let* f := gets (file k) in
  if needed <=? vf_capacity f then ret OS_OK
  else
    let new_cap := round_blk needed in
    let* new_buf := kmalloc new_cap in
    if new_buf =? 0 then ret OS_ERR_OOM
    else
      let* old := (if vf_size f =? 0 then ret [] else hread (vf_data f) 0 (vf_size f)) in
      do* hwrite new_buf 0 old in
      do* hwrite new_buf (vf_size f) (replicate (Z.to_nat (new_cap - vf_size f)) 0) in
      do* (if vf_data f =? 0 then ret tt else kfree (vf_data f)) in
      do* modify (set_file k (mkFile (vf_name f) new_buf (vf_size f) (vf_inode f) new_cap)) in
      ret OS_OK.

Definition noxfs_write (k offset : Z) (data : list Z) : MN Z :=
  let len := Z.of_nat (length data) in
  if len =? 0 then ret 0
  else
    let needed := u32 (offset + len) in
    let* r := ensure_capacity k needed in
    if negb (is_ok r) then ret (-1)
    else
      let* f := gets (file k) in
      do* hwrite (vf_data f) offset data in
      do* (if vf_size f <? needed
           then modify (set_file k (mkFile (vf_name f) (vf_data f) needed (vf_inode f) (vf_capacity f)))
           else ret tt) in
      let* f := gets (file k) in
      let* r := store_data (vf_inode f) (vf_data f) (vf_size f) in
      if negb (is_ok r) then ret (-1) else ret (s32 len).

(** The slot filled in for a new empty file. *)
Definition new_file (name : list Z) (ino : Z) : MN (option Z) :=
  let* k := gets n_count in
  let* f := gets (file k) in
  do* set_name k (splice 31 [0] (splice 0 (slice 0 31 name) (vf_name f))) in
  let* p := kmalloc NOXFS_BLKSZ in
  do* modify (fun s => let f := file k s in
        set_file k (mkFile (vf_name f) p (vf_size f) (vf_inode f) (vf_capacity f)) s) in
  if p =? 0 then ret None
  else
    do* hwrite p 0 (replicate (Z.to_nat NOXFS_BLKSZ) 0) in
    do* modify (fun s => set_file k (mkFile (vf_name (file k s)) p 0 ino NOXFS_BLKSZ) s) in
    do* modify (fun s => set_count (u32 (n_count s + 1)) s) in
    ret (Some k).

Definition noxfs_creat_at (parent_ino : Z) (name : list Z) : MN (option Z) :=
  let* ready := gets n_ready in
  let* k := gets n_count in
  if negb ready || (NOXFS_MAX_FILES <=? k) then ret None
  else
    let* ino := ialloc NOXFS_MODE_FILE in
    if ino =? U32_NEG1 then ret None
    else
      let* r := dir_add_entry parent_ino name ino NOXFS_FT_FILE in
      if negb (is_ok r) then ret None else new_file name ino.

Definition noxfs_creat (name : list Z) : MN (option Z) :=
  let* ready := gets n_ready in
  let* k := gets n_count in
  if negb ready || (NOXFS_MAX_FILES <=? k) then ret None
  else
    let* hit := noxfs_lookup name in
    match hit with
    | Some _ => ret None
    | None =>
        let* ino := ialloc NOXFS_MODE_FILE in
        if ino =? U32_NEG1 then ret None
        else
          let* root := gets (fun s => sb_root_ino (n_sb s)) in
          let* r := dir_add_entry root name ino NOXFS_FT_FILE in
          if negb (is_ok r) then ret None else new_file name ino
    end.

(** The block with the entries of a new directory. *)
Definition dot_data (dir_ino parent_ino : Z) : list Z :=
  let d := replicate (Z.to_nat NOXFS_BLKSZ) 0 in
  let d := splice 0 (le_bytes 4 dir_ino ++ le_bytes 2 DIRENT_SZ ++ [1; NOXFS_FT_DIR] ++ [46]) d in
  splice DIRENT_SZ (le_bytes 4 parent_ino ++ le_bytes 2 DIRENT_SZ ++ [2; NOXFS_FT_DIR] ++ [46; 46]) d.

Definition noxfs_mkdir (parent_ino : Z) (name : list Z) : MN Z :=
  let* ready := gets n_ready in
  if negb ready || (byte name 0 =? 0) then ret U32_NEG1
  else
    let* old := dir_lookup_name parent_ino name in
    if negb (old =? U32_NEG1) then ret U32_NEG1
    else
      let* dir_ino := ialloc NOXFS_MODE_DIR in
      if dir_ino =? U32_NEG1 then ret U32_NEG1
      else
        let* data_blk := balloc in
        if data_blk =? U32_NEG1 then ret U32_NEG1
        else
          let* bp := bread data_blk in
          match bp with
          | None => ret U32_NEG1
          | Some bp =>
              do* bstore bp (dot_data dir_ino parent_ino) in
              do* brelse bp in
              let* '(r, i) := iread dir_ino in
              if negb (is_ok r) then ret U32_NEG1
              else
                let* r := iwrite dir_ino (set_size (2 * DIRENT_SZ) (set_block 0 data_blk i)) in
                if negb (is_ok r) then ret U32_NEG1
                else
                  let* r := dir_add_entry parent_ino name dir_ino NOXFS_FT_DIR in
                  if negb (is_ok r) then ret U32_NEG1 else ret dir_ino
          end.

Fixpoint creat_path_loop (fuel : nat) (cur : Z) (path p : list Z) : MN (option Z) :=
  match fuel with
  | O => fun _ => None
  | Datatypes.S fuel =>
      match p with
      | [] => ret None
      | _ =>
          let '(seg, r) := take_comp (length p) p in
          let p := match r with _ :: r' => r' | [] => [] end in
          let seglen := Z.of_nat (length seg) in
          if (seglen =? 0) || (31 <? seglen) then ret None
          else
            match p with
            | [] =>
                let* existing := noxfs_lookup path in
                match existing with
                | Some f => ret (Some f)
                | None => noxfs_creat_at cur seg
                end
            | _ =>
                let* child := dir_lookup_name cur seg in
                let* child := (if child =? U32_NEG1 then noxfs_mkdir cur seg else ret child) in
                if child =? U32_NEG1 then ret None else creat_path_loop fuel child path p
            end
      end
  end.

Definition noxfs_creat_path (path : list Z) : MN (option Z) :=
  let* ready := gets n_ready in
  if negb ready || negb (byte path 0 =? 47) then ret None
  else
    let* root := gets (fun s => sb_root_ino (n_sb s)) in
    creat_path_loop (length path) root path (drop 1 path).

(** ** Removal *)

(** [for (i = lo; i < hi; i++) if (ptr(i)) _bfree(ptr(i));] *)
Fixpoint free_blocks (n : nat) (i : Z) (ptr : Z -> MN Z) : MN unit :=
  match n with
  | O => ret tt
  | Datatypes.S n =>
      let* b := ptr i in
      do* (if b =? 0 then ret tt else bfree b) in
      free_blocks n (i + 1) ptr
  end.

(** The slot of the open file with the inode, from slot [i] on. *)
Fixpoint find_inode (n : nat) (i ino : Z) (s : nox) : option Z :=
  match n with
  | O => None
  | Datatypes.S n => if vf_inode (file i s) =? ino then Some i else find_inode n (i + 1) ino s
  end.

(** Drops the open file with the inode and compacts the table. *)
Definition forget_file (ino : Z) : MN unit :=
  let* n := gets n_count in
  let* hit := gets (fun s => find_inode (Z.to_nat n) 0 ino s) in
  match hit with
  | None => ret tt
  | Some i =>
      let* f := gets (file i) in
      do* (if vf_data f =? 0 then ret tt else kfree (vf_data f)) in
      do* modify (for_up i (n - 1) (fun j s => set_file j (file (j + 1) s) s)) in
      modify (fun s => set_count (u32 (n_count s - 1)) s)
  end.

Definition noxfs_unlink (parent_ino : Z) (name : list Z) : MN os_status :=
  let* ready := gets n_ready in
  if negb ready then ret OS_ERR_INVALID
  else
    let* ino := dir_lookup_name parent_ino name in
    if ino =? U32_NEG1 then ret OS_ERR_NOT_FOUND
    else
      let* root := gets (fun s => sb_root_ino (n_sb s)) in
      if ino =? root then ret OS_ERR_INVALID
      else
        let* '(r, i) := iread ino in
        if negb (is_ok r) then ret OS_ERR_IO
        else if ctrue (Z.land (i_mode i) NOXFS_INO_DIR) && (2 * DIRENT_SZ <? i_size i) then ret OS_ERR_INVALID
        else
          let* s := dir_remove_entry parent_ino name in
          if negb (is_ok s) then ret s
          else
            let* '(r, i) := iread ino in
            if negb (is_ok r) then ret OS_ERR_IO
            else
              let i := if 0 <? i_links i then set_links (i_links i - 1) i else i in
              if i_links i =? 0 then
                let blks := u32 (i_size i + NOXFS_BLKSZ - 1) / NOXFS_BLKSZ in
                do* free_blocks (Z.to_nat (Z.min blks NOXFS_DIRECT)) 0 (fun k => ret (iblock i k)) in
                do* (if i_indirect i =? 0 then ret tt
                     else
                       let* bp := bread (i_indirect i) in
                       do* match bp with
                           | None => ret tt
                           | Some bp =>
                               let n := if NOXFS_DIRECT <? blks then blks - NOXFS_DIRECT else 0 in
                               do* free_blocks (Z.to_nat (Z.min n NOXFS_INDIRECT)) 0
                                     (fun k => let* d := bdata bp in ret (get32 d (4 * k))) in
                               brelse bp
                           end in
                       bfree (i_indirect i)) in
                do* ifree ino in
                do* forget_file ino in
                ret OS_OK
              else
                do* iwrite ino i in
                ret OS_OK.

Definition noxfs_rename (src_parent : Z) (src_name : list Z) (dst_parent : Z) (dst_name : list Z) : MN os_status :=
  let* ready := gets n_ready in
  if negb ready then ret OS_ERR_INVALID
  else
    let* ino := dir_lookup_name src_parent src_name in
    if ino =? U32_NEG1 then ret OS_ERR_NOT_FOUND
    else
      let* '(r, i) := iread ino in
      if negb (is_ok r) then ret OS_ERR_IO
      else
        let ft := if Z.land (i_mode i) NOXFS_INO_DIR =? 0 then NOXFS_FT_FILE else NOXFS_FT_DIR in
        let* s := dir_add_entry dst_parent dst_name ino ft in
        if negb (is_ok s) then ret s
        else
          let* old_dst := dir_lookup_name dst_parent dst_name in
          do* (if negb (old_dst =? U32_NEG1) && negb (old_dst =? ino)
               then let* _ := noxfs_unlink dst_parent dst_name in ret tt else ret tt) in
          dir_remove_entry src_parent src_name.

Definition noxfs_rmdir (parent_ino : Z) (name : list Z) : MN os_status :=
  let* ready := gets n_ready in
  if negb ready then ret OS_ERR_INVALID
  else
    let* ino := dir_lookup_name parent_ino name in
    if ino =? U32_NEG1 then ret OS_ERR_NOT_FOUND
    else
      let* '(r, i) := iread ino in
      if negb (is_ok r) then ret OS_ERR_IO
      else if Z.land (i_mode i) NOXFS_INO_DIR =? 0 then ret OS_ERR_INVALID
      else if 2 * DIRENT_SZ <? i_size i then ret OS_ERR_INVALID
      else noxfs_unlink parent_ino name.

Definition noxfs_sync : MN unit :=
  let* ready := gets n_ready in
  if negb ready then ret tt else let* _ := sb_write in ret tt.

(** ** Metadata and directory reading *)

(** The entries that fit, from [entry_idx] on: the bytes written and the next index. *)
Fixpoint getdents_loop (n : nat) (entry_idx entry_count dir_data len : Z) (out : list Z) : MN (list Z * Z) :=
  match n with
  | O => ret (out, entry_idx)
  | Datatypes.S n =>
      if (entry_idx <? entry_count) && (Z.of_nat (length out) + DIRENT_SZ <=? len) then
        let* e := hread dir_data (entry_idx * DIRENT_SZ) DIRENT_SZ in
        getdents_loop n (entry_idx + 1) entry_count dir_data len (out ++ e)
      else ret (out, entry_idx)
  end.

(** The result, the bytes placed in the caller's buffer, and the new offset. *)
Definition noxfs_getdents (dir_ino len off : Z) : MN (Z * list Z * Z) :=
  let* ready := gets n_ready in
  if negb ready then ret (-1, [], off)
  else if len <? DIRENT_SZ then ret (-1, [], off)
  else
    let* '(r, dir) := iread dir_ino in
    if negb (is_ok r) then ret (-1, [], off)
    else if Z.land (i_mode dir) NOXFS_INO_DIR =? 0 then ret (-1, [], off)
    else
      let* '(dir_data, sz) := load_data dir_ino in
      if dir_data =? 0 then ret (-1, [], off)
      else
        let entry_count := default (i_size dir) sz / DIRENT_SZ in
        let entry_idx := off / DIRENT_SZ in
        if entry_count <=? entry_idx then do* kfree dir_data in ret (0, [], off)
        else
          let* '(out, idx) := getdents_loop (Z.to_nat (entry_count - entry_idx)) entry_idx entry_count dir_data len [] in
          do* kfree dir_data in
          ret (s32 (Z.of_nat (length out)), out, u32 (idx * DIRENT_SZ)).

(** The file view of an inode; [capacity] carries the mode. *)
Definition noxfs_stat (ino : Z) (out : vfs_file) : MN (os_status * vfs_file) :=
  let* ready := gets n_ready in
  if negb ready then ret (OS_ERR_INVALID, out)
  else
    let* '(r, i) := iread ino in
    if negb (is_ok r) then ret (OS_ERR_IO, out)
    else ret (OS_OK, mkFile (splice 0 [0] (vf_name out)) 0 (i_size i) ino (i_mode i)).

Definition noxfs_chmod (ino perm : Z) : MN os_status :=
  let* ready := gets n_ready in
  if negb ready then ret OS_ERR_INVALID
  else
    let* '(r, i) := iread ino in
    if negb (is_ok r) then ret OS_ERR_IO
    else iwrite ino (set_mode (u16 (Z.lor (Z.land (i_mode i) (Z.lnot NOXFS_PERM_MASK)) (Z.land perm NOXFS_PERM_MASK))) i).

Definition noxfs_root_ino (s : nox) : Z := if n_ready s then sb_root_ino (n_sb s) else U32_NEG1.

End Model.
Arguments nox : clear implicits.
End NoxFS.
