(* ===== verification/NoxDisk.v ===== *)
(** * NoxFS: blocks, bitmaps and inodes

    Specifications of the lower half of noxfs.c over the buffer-cache
    interface: how each operation changes the blocks of the disk. *)
From S2P Require Import Prelude Bytes Buffer NoxFS.
Import NoxFS.

Module NoxDisk.

(** A disk is the contents of its blocks. *)
Definition disk : Type := Z -> list Z.
Definition dset (b : Z) (d : list Z) (D : disk) : disk := fun b' => if decide (b' = b) then d else D b'.

Lemma dset_eq b d D : dset b d D b = d.
Proof. unfold dset. by rewrite decide_True. Qed.
Lemma dset_ne b b' d D : b' <> b -> dset b d D b' = D b'.
Proof. intros. unfold dset. by rewrite decide_False. Qed.

(** ** Scanning a bitmap *)

Lemma scan_bits_spec d y max n bit : 0 <= y < 512 -> 0 <= bit -> bit + Z.of_nat n = 8 ->
  (forall j, 0 <= j < bit -> Z.testbit (byte d y) j = true) ->
  match scan_bits n d 0 y bit max with
  | Hit y' k => y' = y /\ 0 <= k < 8 /\ y * 8 + k < max /\ Z.testbit (byte d y) k = false /\
                forall j, 0 <= j < k -> Z.testbit (byte d y) j = true
  | Past => exists k, 0 <= k < 8 /\ max <= y * 8 + k /\ forall j, 0 <= j < k -> Z.testbit (byte d y) j = true
  | Full => forall j, 0 <= j < 8 -> Z.testbit (byte d y) j = true
  end.
Proof.
  revert bit. induction n as [|n IH]; intros bit Hy Hb Hn Hlow; simpl.
  - intros j Hj. apply Hlow. lia.
  - replace (u32 (0 * NOXFS_BLKSZ * BITS_PER_BYTE + y * BITS_PER_BYTE + bit)) with (y * 8 + bit) by (unfold BITS_PER_BYTE; rewrite u32_id; lia).
    destruct (Z.leb_spec max (y * 8 + bit)); [exists bit; split_and!; [lia | lia | lia | done]|].
    rewrite land_shiftl_1 by lia. destruct (Z.testbit (byte d y) bit) eqn:E; simpl.
    + apply IH; [done | lia | lia |]. intros j Hj. destruct (decide (j = bit)) as [->|]; [done | apply Hlow; lia].
    + split_and!; [done | lia | lia | done | done | done].
Qed.

Lemma scan_bytes_spec d max n y : length d = 512%nat -> 0 <= y -> y + Z.of_nat n = 512 -> max <= 4096 ->
  (forall j, 0 <= j < y * 8 -> bit_set d j = true) ->
  match scan_bytes n d 0 y max with
  | Hit y' k => 0 <= y' < 512 /\ 0 <= k < 8 /\ y' * 8 + k < max /\ bit_set d (y' * 8 + k) = false /\
                forall j, 0 <= j < y' * 8 + k -> bit_set d j = true
  | _ => forall j, 0 <= j < max -> bit_set d j = true
  end.
Proof.
  intros Hlen. revert y. induction n as [|n IH]; intros y Hy Hn Hm Hlow; cbn [scan_bytes].
  - intros j Hj. apply Hlow. lia.
  - assert (Hbits : forall k, 0 <= k <= 8 -> (forall j, 0 <= j < k -> Z.testbit (byte d y) j = true) ->
                      forall j, 0 <= j < y * 8 + k -> bit_set d j = true).
    { intros k Hk Hall j Hj. destruct (Z.lt_ge_cases j (y * 8)); [apply Hlow; lia|]. unfold bit_set.
      assert (j / 8 = y) as -> by (symmetry; apply (Z.div_unique_pos _ _ _ (j - y * 8)); lia).
      assert (j mod 8 = j - y * 8) as -> by (symmetry; apply (Z.mod_unique_pos _ _ y); lia). apply Hall. lia. }
    assert (Hnext : (forall j, 0 <= j < 8 -> Z.testbit (byte d y) j = true) -> 
                    forall j, 0 <= j < (y + 1) * 8 -> bit_set d j = true).
    { intros Hall j Hj. apply (Hbits 8); [lia | done | lia]. }
    destruct (Z.eqb_spec (byte d y) 255) as [E|_].
    + apply IH; [lia | lia | done |]. apply Hnext. intros j Hj. rewrite E. change 255 with (Z.ones 8).
      apply Z.ones_spec_low. lia.
    + pose proof (scan_bits_spec d y max 8 0 ltac:(lia) ltac:(lia) ltac:(lia) ltac:(lia)) as Hs.
      change (Z.to_nat BITS_PER_BYTE) with 8%nat. destruct (scan_bits 8 d 0 y 0 max) as [y' k| |].
      * destruct Hs as (-> & Hk & Hlt & Hz & Hall). split_and!; [lia | lia | lia | lia | lia | |].
        { unfold bit_set. assert ((y * 8 + k) / 8 = y) as -> by (symmetry; apply (Z.div_unique_pos _ _ _ k); lia).
          assert ((y * 8 + k) mod 8 = k) as -> by (symmetry; apply (Z.mod_unique_pos _ _ y); lia). done. }
        apply (Hbits k); [lia | done].
      * destruct Hs as (k & Hk & Hge & Hall). intros j Hj. apply (Hbits k); [lia | done | lia].
      * apply IH; [lia | lia | done |]. by apply Hnext.
Qed.

(** Setting and clearing the bit of an index. *)
Definition mark (d : list Z) (i : Z) : list Z := <[Z.to_nat (i / 8) := u8 (Z.lor (byte d (i / 8)) (Z.shiftl 1 (i mod 8)))]> d.
Definition unmark (d : list Z) (i : Z) : list Z :=
  <[Z.to_nat (i / 8) := u8 (Z.land (byte d (i / 8)) (Z.lnot (Z.shiftl 1 (i mod 8))))]> d.

Lemma bit_set_mark d i j : length d = 512%nat -> 0 <= i < 4096 -> 0 <= j ->
  bit_set (mark d i) j = bool_decide (j = i) || bit_set d j.
Proof.
  intros Hd Hi Hj. pose proof (Z.mod_pos_bound i 8). unfold mark.
  rewrite bit_set_insert; [| lia | | lia |].
  - destruct (decide (j = i)) as [->|]; [|by rewrite bool_decide_eq_false_2].
    rewrite bool_decide_eq_true_2, testbit_u8, Z.lor_spec, testbit_1_shiftl, Z.eqb_refl, orb_true_r by lia. done.
  - assert (i / 8 < 512) by (apply Z.div_lt_upper_bound; lia). lia.
  - intros n Hn Hne. rewrite testbit_u8, Z.lor_spec, testbit_1_shiftl by lia.
    by rewrite (proj2 (Z.eqb_neq _ _) Hne), orb_false_r.
Qed.

Lemma bit_set_unmark d i j : length d = 512%nat -> 0 <= i < 4096 -> 0 <= j ->
  bit_set (unmark d i) j = negb (bool_decide (j = i)) && bit_set d j.
Proof.
  intros Hd Hi Hj. pose proof (Z.mod_pos_bound i 8). unfold unmark.
  rewrite bit_set_insert; [| lia | | lia |].
  - destruct (decide (j = i)) as [->|]; [|by rewrite bool_decide_eq_false_2].
    rewrite bool_decide_eq_true_2, testbit_u8, Z.land_spec, Z.lnot_spec, testbit_1_shiftl, Z.eqb_refl, andb_false_r by lia. done.
  - assert (i / 8 < 512) by (apply Z.div_lt_upper_bound; lia). lia.
  - intros n Hn Hne. rewrite testbit_u8, Z.land_spec, Z.lnot_spec, testbit_1_shiftl by lia.
    by rewrite (proj2 (Z.eqb_neq _ _) Hne), andb_true_r.
Qed.

Lemma length_mark d i : length (mark d i) = length d.
Proof. apply length_insert. Qed.
Lemma length_unmark d i : length (unmark d i) = length d.
Proof. apply length_insert. Qed.
Lemma bytes_ok_mark d i : bytes_ok d -> bytes_ok (mark d i).
Proof. intros. apply bytes_ok_insert; [done | apply u8_range]. Qed.
Lemma bytes_ok_unmark d i : bytes_ok d -> bytes_ok (unmark d i).
Proof. intros. apply bytes_ok_insert; [done | apply u8_range]. Qed.

(** ** On-disk structures *)

Record inode_wf (i : noxfs_inode) : Prop := {
  iw_mode : 0 <= i_mode i < 2 ^ 16;
  iw_uid : 0 <= i_uid i < 2 ^ 16;
  iw_gid : 0 <= i_gid i < 2 ^ 16;
  iw_size : 0 <= i_size i < 2 ^ 32;
  iw_len : length (i_blocks i) = 10%nat;
  iw_blocks : Forall (fun b => 0 <= b < 2 ^ 32) (i_blocks i);
  iw_indirect : 0 <= i_indirect i < 2 ^ 32;
  iw_links : 0 <= i_links i < 2 ^ 16;
  iw_pad : length (i_pad i) = 8%nat;
  iw_pad_ok : bytes_ok (i_pad i)
}.

Lemma length_blocks l : length (l ≫= le_bytes 4) = (4 * length l)%nat.
Proof. induction l as [|x l IH]; [done|]. cbn [mbind list_bind]. rewrite length_app, IH, length_le_bytes. simpl. lia. Qed.

Lemma bytes_ok_blocks l : bytes_ok (l ≫= le_bytes 4).
Proof. induction l as [|x l IH]; [constructor|]. cbn [mbind list_bind]. apply Forall_app. split; [apply le_bytes_ok | done]. Qed.

Lemma length_inode_bytes i : length (i_blocks i) = 10%nat -> length (i_pad i) = 8%nat -> length (inode_bytes i) = 64%nat.
Proof. intros H1 H2. unfold inode_bytes. rewrite !length_app, !length_le_bytes, length_blocks, H1, H2. done. Qed.

Lemma inode_bytes_ok i : bytes_ok (i_pad i) -> bytes_ok (inode_bytes i).
Proof. intros H. unfold inode_bytes. repeat (apply Forall_app; split); first [apply le_bytes_ok | apply bytes_ok_blocks | done]. Qed.

Lemma length_sb_bytes sb : length (sb_pad sb) = 472%nat -> length (sb_bytes sb) = 512%nat.
Proof. intros H. unfold sb_bytes. rewrite !length_app, !length_le_bytes, H. done. Qed.

Lemma sb_bytes_ok sb : bytes_ok (sb_pad sb) -> bytes_ok (sb_bytes sb).
Proof. intros H. unfold sb_bytes. repeat (apply Forall_app; split); first [apply le_bytes_ok | done]. Qed.

Lemma get32_blocks l k : Forall (fun b => 0 <= b < 2 ^ 32) l -> (k < length l)%nat ->
  forall rest, get32 ((l ≫= le_bytes 4) ++ rest) (4 * Z.of_nat k) = nth k l 0.
Proof.
  intros Hl. revert k. induction Hl as [|x l Hx Hl IH]; intros k Hk rest; simpl in Hk; [lia|].
  cbn [mbind list_bind]. unfold get32. rewrite <- app_assoc. destruct k as [|k].
  - cbn [nth]. rewrite Z.mul_0_r, slice_app_here by (rewrite ?length_le_bytes; lia). by apply le_val_bytes.
  - rewrite slice_app_skip by (rewrite length_le_bytes; lia). rewrite length_le_bytes.
    replace (4 * Z.of_nat (S k) - Z.of_nat 4) with (4 * Z.of_nat k) by lia. apply IH. lia.
Qed.

Lemma inode_roundtrip i : inode_wf i -> inode_of_bytes (inode_bytes i) = i.
Proof.
  intros []. destruct i as [mode uid gid sz blocks ind links pad]. unfold inode_of_bytes, inode_bytes.
  cbn [i_mode i_uid i_gid i_size i_blocks i_indirect i_links i_pad] in *. unfold get16, get32. f_equal.
  - rewrite slice_app_here by (rewrite ?length_le_bytes; lia). by apply le_val_bytes.
  - do 1 (rewrite slice_app_skip by (rewrite length_le_bytes; lia)). rewrite !length_le_bytes.
    rewrite slice_app_here by (rewrite ?length_le_bytes; lia). by apply le_val_bytes.
  - do 2 (rewrite slice_app_skip by (rewrite length_le_bytes; lia); rewrite length_le_bytes).
    rewrite slice_app_here by (rewrite ?length_le_bytes; lia). by apply le_val_bytes.
  - do 3 (rewrite slice_app_skip by (rewrite length_le_bytes; lia); rewrite length_le_bytes).
    rewrite slice_app_here by (rewrite ?length_le_bytes; lia). by apply le_val_bytes.
  - apply list_eq. intros k. rewrite list_lookup_fmap. destruct (decide (k < 10)%nat) as [Hk|Hk].
    + rewrite lookup_seqZ_lt by lia. cbn [fmap option_fmap option_map].
      do 4 (rewrite slice_app_skip by (rewrite length_le_bytes; lia); rewrite length_le_bytes).
      replace (10 + 4 * (0 + Z.of_nat k) - Z.of_nat 2 - Z.of_nat 2 - Z.of_nat 2 - Z.of_nat 4) with (4 * Z.of_nat k) by lia.
      pose proof (get32_blocks blocks k iw_blocks0 ltac:(lia)) as Hg. unfold get32 in Hg. rewrite Hg.
      destruct (lookup_lt_is_Some_2 blocks k ltac:(lia)) as [v Hv]. rewrite Hv. by rewrite (nth_lookup_Some _ _ _ _ Hv).
    + rewrite lookup_seqZ_ge by lia. simpl. symmetry. apply lookup_ge_None_2. lia.
  - do 4 (rewrite slice_app_skip by (rewrite length_le_bytes; lia); rewrite length_le_bytes).
    rewrite slice_app_skip by (rewrite length_blocks; lia). rewrite length_blocks, iw_len0.
    rewrite slice_app_here by (rewrite ?length_le_bytes; lia). by apply le_val_bytes.
  - do 4 (rewrite slice_app_skip by (rewrite length_le_bytes; lia); rewrite length_le_bytes).
    rewrite slice_app_skip by (rewrite length_blocks; lia). rewrite length_blocks, iw_len0.
    rewrite slice_app_skip by (rewrite length_le_bytes; lia). rewrite length_le_bytes.
    rewrite slice_app_here by (rewrite ?length_le_bytes; lia). by apply le_val_bytes.
  - do 4 (rewrite slice_app_skip by (rewrite length_le_bytes; lia); rewrite length_le_bytes).
    rewrite slice_app_skip by (rewrite length_blocks; lia). rewrite length_blocks, iw_len0.
    do 2 (rewrite slice_app_skip by (rewrite length_le_bytes; lia); rewrite length_le_bytes).
    apply slice_here; lia.
Qed.

Lemma get16_range d o : bytes_ok d -> 0 <= get16 d o < 2 ^ 16.
Proof.
  intros H. pose proof (le_val_bound _ (bytes_ok_slice o 2 d H)) as Hb. unfold get16.
  assert (Hl : (length (slice o 2 d) <= 2)%nat) by (unfold slice; rewrite length_take; lia).
  assert (256 ^ Z.of_nat (length (slice o 2 d)) <= 256 ^ 2) by (apply Z.pow_le_mono_r; lia).
  change (2 ^ 16) with (256 ^ 2). lia.
Qed.

(** Every 64 bytes are a well-formed inode. *)
Lemma inode_of_bytes_wf d : bytes_ok d -> length d = 64%nat -> inode_wf (inode_of_bytes d).
Proof.
  intros Hd Hl. unfold inode_of_bytes. split; simpl; try (by apply get16_range); try (by apply get32_range).
  - done.
  - do 10 (constructor; [by apply get32_range|]). constructor.
  - apply length_slice; lia.
  - by apply bytes_ok_slice.
Qed.

Section Specs.
Context {S : Type} {limit : Z} `{BC : BufferCache S limit}.

(** The cache is consistent, holds [H] for its clients, and shows [D]. *)
Definition cok (c : S) (H : gmap nat Z) (D : disk) : Prop := bc_inv c H /\ forall b, bc_view c b = D b.

Lemma cok_length c H D b : cok c H D -> 0 <= b < limit -> length (D b) = 512%nat.
Proof. intros [Hi Hv] Hb. rewrite <- Hv. by eapply bc_view_length. Qed.

(** A block is free to be read when no client holds it and buffers remain. *)
Definition readable (H : gmap nat Z) (b : Z) : Prop := (size H < 16)%nat /\ 0 <= b < limit /\ forall i, H !! i <> Some b.

(** Weakest-precondition style rules: the rest of the state is untouched. *)
Lemma bread_runs c sb fl n r h H D b Q : cok c H D -> readable H b ->
  (forall i c', cok c' (<[i := b]> H) D -> H !! i = None -> Q (Some i) (mkNox c' sb fl n r h)) ->
  runs (bread b) (mkNox c sb fl n r h) Q.
Proof.
  intros [Hi Hv] (Hs & Hb & Hn) HQ. destruct (bc_bread_ok c H b Hi Hs Hb Hn) as (i & c' & E & Hi' & Hnone & Hv').
  unfold runs, bread. simpl. rewrite E. apply HQ; [|done]. split; [done|]. intros b'. by rewrite Hv'.
Qed.

Lemma bdata_runs c sb fl n r h H D i b Q : cok c H D -> H !! i = Some b ->
  Q (D b) (mkNox c sb fl n r h) -> runs (bdata i) (mkNox c sb fl n r h) Q.
Proof.
  intros [Hi Hv] Hb HQ. unfold runs, bdata, gets. simpl. destruct (bc_held c H i b Hi Hb) as [_ ->]. by rewrite Hv.
Qed.

Lemma bstore_runs c sb fl n r h H D i b d Q : cok c H D -> H !! i = Some b -> length d = 512%nat ->
  (forall c', cok c' H (dset b d D) -> Q tt (mkNox c' sb fl n r h)) ->
  runs (bstore i d) (mkNox c sb fl n r h) Q.
Proof.
  intros [Hi Hv] Hb Hd HQ. unfold runs, bstore, bind, modify. simpl. apply HQ.
  destruct (bc_set_ok c H i b d Hi Hb Hd) as [Hi1 Hv1]. destruct (bc_bwrite_ok _ H i b Hi1 Hb) as [Hi2 Hv2].
  split; [done|]. intros b'. rewrite Hv2, Hv1. unfold dset. by rewrite Hv.
Qed.

Lemma brelse_runs c sb fl n r h H D i b Q : cok c H D -> H !! i = Some b ->
  (forall c', cok c' (delete i H) D -> Q tt (mkNox c' sb fl n r h)) ->
  runs (brelse i) (mkNox c sb fl n r h) Q.
Proof.
  intros [Hi Hv] Hb HQ. unfold runs, brelse, modify. simpl. apply HQ.
  destruct (bc_brelse_ok c H i b Hi Hb) as [Hi1 Hv1]. split; [done|]. intros b'. by rewrite Hv1.
Qed.

(** The common case: releasing the buffer read last. *)
Lemma brelse_top c sb fl n r h H D i b Q : cok c (<[i := b]> H) D -> H !! i = None ->
  (forall c', cok c' H D -> Q tt (mkNox c' sb fl n r h)) ->
  runs (brelse i) (mkNox c sb fl n r h) Q.
Proof.
  intros Hc Hi HQ. eapply brelse_runs; [done | apply lookup_insert_eq |].
  intros c'. rewrite delete_insert_id by done. apply HQ.
Qed.

(** Read, overwrite and release block [b]. *)
Lemma update_runs {A} c sb fl n r h H D b (f : list Z -> list Z) (a : A) Q : cok c H D -> readable H b ->
  length (f (D b)) = 512%nat ->
  (forall c', cok c' H (dset b (f (D b)) D) -> Q a (mkNox c' sb fl n r h)) ->
  forall none, runs (let* bp := bread b in
        match bp with
        | None => none
        | Some bp => let* d := bdata bp in do* bstore bp (f d) in do* brelse bp in ret a
        end) (mkNox c sb fl n r h) Q.
Proof.
  intros Hc Hr Hl HQ none. apply runs_bind. eapply bread_runs; [done | done |]. intros i c1 Hc1 Hi.
  apply runs_bind. eapply bdata_runs; [done | apply lookup_insert_eq |].
  apply runs_bind. eapply bstore_runs; [done | apply lookup_insert_eq | done |]. intros c2 Hc2.
  apply runs_bind. eapply brelse_top; [done | done |]. intros c3 Hc3. apply runs_ret. by apply HQ.
Qed.

Context (Hlimit : limit <= 2 ^ 32).

Lemma bmp_alloc_runs c sb fl n r h H D start max Q : cok c H D -> readable H start -> max <= 4096 ->
  (forall i c', 0 <= i < max -> bit_set (D start) i = false -> (forall j, 0 <= j < i -> bit_set (D start) j = true) ->
     cok c' H (dset start (mark (D start) i) D) -> Q i (mkNox c' sb fl n r h)) ->
  (forall c', (forall j, 0 <= j < max -> bit_set (D start) j = true) -> cok c' H D -> Q U32_NEG1 (mkNox c' sb fl n r h)) ->
  runs (bmp_alloc start 1 max) (mkNox c sb fl n r h) Q.
Proof.
  intros Hc Hr Hm Hhit Hmiss. pose proof Hr as (_ & Hb & _). pose proof (cok_length _ _ _ _ Hc Hb) as Hlen.
  unfold bmp_alloc. change (Z.to_nat 1) with 1%nat. cbn [bmp_alloc_loop]. apply runs_bind. rewrite Z.add_0_r, u32_id by lia.
  eapply bread_runs; [done | done |]. intros bp c1 Hc1 Hbp.
  apply runs_bind. eapply bdata_runs; [done | apply lookup_insert_eq |].
  pose proof (scan_bytes_spec (D start) max 512 0 Hlen ltac:(lia) ltac:(lia) Hm ltac:(lia)) as Hs.
  change (Z.to_nat NOXFS_BLKSZ) with 512%nat. destruct (scan_bytes 512 (D start) 0 0 max) as [y k| |].
  - destruct Hs as (Hy & Hk & Hlt & Hz & Hall).
    assert (Ey : (y * 8 + k) / 8 = y) by (symmetry; apply (Z.div_unique_pos _ _ _ k); lia).
    assert (Ek : (y * 8 + k) mod 8 = k) by (symmetry; apply (Z.mod_unique_pos _ _ y); lia).
    apply runs_bind. eapply bstore_runs; [done | apply lookup_insert_eq | by rewrite length_insert |]. intros c2 Hc2.
    apply runs_bind. eapply brelse_top; [done | done |]. intros c3 Hc3. apply runs_ret.
    replace (u32 _) with (y * 8 + k) by (unfold NOXFS_BLKSZ, BITS_PER_BYTE; rewrite u32_id; lia).
    apply Hhit; [lia | done | done |]. unfold mark. by rewrite Ey, Ek.
  - apply runs_bind. eapply brelse_top; [done | done |]. intros c3 Hc3. apply runs_ret. by apply Hmiss.
  - apply runs_bind. eapply brelse_top; [done | done |]. intros c3 Hc3. apply runs_ret. by apply Hmiss.
Qed.

Lemma bmp_free_runs c sb fl n r h H D start i Q : cok c H D -> readable H start -> 0 <= i < 4096 ->
  (forall c', cok c' H (dset start (unmark (D start) i) D) -> Q tt (mkNox c' sb fl n r h)) ->
  runs (bmp_free start i) (mkNox c sb fl n r h) Q.
Proof.
  intros Hc Hr Hi HQ. pose proof Hr as (_ & Hb & _). pose proof (cok_length _ _ _ _ Hc Hb) as Hlen.
  unfold bmp_free, NOXFS_BLKSZ, BITS_PER_BYTE. change (512 * 8) with 4096.
  rewrite (Z.div_small i 4096), (Z.mod_small i 4096) by lia. rewrite Z.add_0_r, u32_id by lia.
  apply runs_bind. eapply bread_runs; [done | done |]. intros bp c1 Hc1 Hbp.
  apply runs_bind. eapply bdata_runs; [done | apply lookup_insert_eq |].
  apply runs_bind. eapply bstore_runs; [done | apply lookup_insert_eq | by rewrite length_insert |]. intros c2 Hc2.
  eapply brelse_top; [done | done |]. intros c3 Hc3. by apply HQ.
Qed.

(** ** Layout and metadata *)

Definition tbl_blocks (sb : noxfs_sb) : Z := (sb_inode_count sb + 7) / 8.

Record geo (sb : noxfs_sb) : Prop := {
  geo_blocks : sb_block_count sb <= limit /\ sb_block_count sb <= 4096;
  geo_data : 0 < sb_data_start sb <= sb_block_count sb;
  geo_bmp : 0 < sb_blk_bmp sb < sb_ino_tbl sb;
  geo_ibmp : 0 < sb_ino_bmp sb < sb_ino_tbl sb;
  geo_bmps : sb_blk_bmp sb <> sb_ino_bmp sb;
  geo_tbl : sb_ino_tbl sb + tbl_blocks sb <= sb_data_start sb;
  geo_inodes : 0 <= sb_inode_count sb <= 4096;
  geo_pad : length (sb_pad sb) = 472%nat /\ bytes_ok (sb_pad sb)
}.

Definition used (D : disk) (sb : noxfs_sb) (b : Z) : bool := bit_set (D (sb_blk_bmp sb)) b.
Definition iused (D : disk) (sb : noxfs_sb) (i : Z) : bool := bit_set (D (sb_ino_bmp sb)) i.

(** The metadata blocks are in use and the free counts are the numbers of clear bits. *)
Record meta (D : disk) (sb : noxfs_sb) : Prop := {
  m_geo : geo sb;
  m_bytes : forall b, 0 <= b < limit -> bytes_ok (D b);
  m_used : forall b, 0 <= b < sb_data_start sb -> used D sb b = true;
  m_free : sb_free_blocks sb = countb (fun b => negb (used D sb b)) (Z.to_nat (sb_block_count sb));
  m_ifree : sb_free_inodes sb = countb (fun i => negb (iused D sb i)) (Z.to_nat (sb_inode_count sb))
}.

(** The buffers held while metadata is accessed hold data blocks. *)
Definition hold_ok (sb : noxfs_sb) (H : gmap nat Z) : Prop :=
  (size H < 8)%nat /\ forall i b, H !! i = Some b -> sb_data_start sb <= b.

Lemma hold_readable sb H b : geo sb -> hold_ok sb H -> 0 <= b < sb_data_start sb -> readable H b.
Proof.
  intros Hg [Hs Hh] Hb. pose proof (geo_blocks _ Hg). pose proof (geo_data _ Hg).
  split; [lia|]. split; [lia|]. intros i Hi. apply Hh in Hi. lia.
Qed.

Lemma geo_start sb : geo sb -> 0 <= tbl_blocks sb /\ sb_ino_tbl sb <= sb_data_start sb.
Proof.
  intros Hg. pose proof (geo_inodes _ Hg). pose proof (geo_tbl _ Hg). unfold tbl_blocks in *.
  assert (0 <= (sb_inode_count sb + 7) / 8) by (apply Z.div_pos; lia). lia.
Qed.

Lemma ino_blk_range sb ino : geo sb -> 0 <= ino < sb_inode_count sb ->
  sb_ino_tbl sb <= ino_blk sb ino < sb_data_start sb.
Proof.
  intros Hg Hi. pose proof (geo_tbl _ Hg). pose proof (geo_bmp _ Hg). pose proof (geo_blocks _ Hg). pose proof (geo_data _ Hg).
  unfold tbl_blocks, ino_blk, INODES_PER_BLK in *. change (NOXFS_BLKSZ / NOXFS_INO_SZ) with 8.
  assert (0 <= ino / 8) by (apply Z.div_pos; lia).
  assert (ino / 8 < (sb_inode_count sb + 7) / 8).
  { apply Z.lt_le_trans with ((ino + 8) / 8); [|apply Z.div_le_mono; lia].
    replace (ino + 8) with (ino + 1 * 8) by lia. rewrite Z.div_add by lia. lia. }
  rewrite u32_id; lia.
Qed.

Lemma ino_off_range ino : 0 <= ino_off ino /\ ino_off ino + 64 <= 512.
Proof.
  unfold ino_off, INODES_PER_BLK, NOXFS_INO_SZ. change (NOXFS_BLKSZ / 64) with 8.
  pose proof (Z.mod_pos_bound ino 8). lia.
Qed.

(** Distinct inodes of the same block of the table do not overlap. *)
Lemma ino_off_disjoint sb ino ino' : geo sb -> 0 <= ino < sb_inode_count sb -> 0 <= ino' < sb_inode_count sb ->
  ino <> ino' -> ino_blk sb ino = ino_blk sb ino' -> ino_off ino + 64 <= ino_off ino' \/ ino_off ino' + 64 <= ino_off ino.
Proof.
  intros Hg Hi Hi' Hne E. pose proof (geo_bmp _ Hg). pose proof (geo_tbl _ Hg). pose proof (geo_blocks _ Hg).
  pose proof (geo_data _ Hg). pose proof (geo_start _ Hg).
  pose proof (ino_blk_range sb ino Hg Hi) as R. pose proof (ino_blk_range sb ino' Hg Hi') as R'.
  unfold ino_off, ino_blk, INODES_PER_BLK, NOXFS_INO_SZ in *. change (NOXFS_BLKSZ / 64) with 8 in *.
  assert (0 <= ino / 8 < 4096) by (split; [apply Z.div_pos | apply Z.div_lt_upper_bound]; pose proof (geo_inodes _ Hg); lia).
  assert (0 <= ino' / 8 < 4096) by (split; [apply Z.div_pos | apply Z.div_lt_upper_bound]; pose proof (geo_inodes _ Hg); lia).
  rewrite !u32_id in E by lia. pose proof (Z.div_mod ino 8). pose proof (Z.div_mod ino' 8). lia.
Qed.

Lemma sb_write_runs c sb fl n r h H D Q : cok c H D -> geo sb -> hold_ok sb H ->
  (forall c', cok c' H (dset 0 (sb_bytes sb) D) -> Q OS_OK (mkNox c' sb fl n r h)) ->
  runs sb_write (mkNox c sb fl n r h) Q.
Proof.
  intros Hc Hg Hh HQ. pose proof (geo_data _ Hg). pose proof (geo_blocks _ Hg). destruct (geo_pad _ Hg) as [Hp _].
  assert (Hr : readable H 0) by (eapply hold_readable; [done | done | lia]).
  pose proof (cok_length _ _ _ 0 Hc ltac:(lia)) as Hlen.
  assert (E : splice 0 (sb_bytes sb) (D 0) = sb_bytes sb).
  { unfold splice. rewrite length_sb_bytes by done. simpl take. rewrite drop_ge by lia. by rewrite app_nil_r. }
  unfold sb_write. apply runs_bind. eapply bread_runs; [done | done |]. intros i c1 Hc1 Hi.
  apply runs_bind. eapply bdata_runs; [done | apply lookup_insert_eq |].
  apply runs_bind. unfold runs at 1, gets. cbn [n_sb]. rewrite E.
  apply runs_bind. eapply bstore_runs; [done | apply lookup_insert_eq | by apply length_sb_bytes |]. intros c2 Hc2.
  apply runs_bind. eapply brelse_top; [done | done |]. intros c3 Hc3. apply runs_ret. by apply HQ.
Qed.

(** Only the superblock and the block bitmap have changed. *)
Definition same_above (sb : noxfs_sb) (D D' : disk) : Prop := forall b, b <> 0 -> b <> sb_blk_bmp sb -> D' b = D b.

Lemma same_above_refl sb D : same_above sb D D.
Proof. done. Qed.
Lemma same_above_trans sb D1 D2 D3 : same_above sb D1 D2 -> same_above sb D2 D3 -> same_above sb D1 D3.
Proof. intros H1 H2 b Hb Hb'. by rewrite H2, H1. Qed.

Definition dec_free (sb : noxfs_sb) : noxfs_sb := with_free_blocks (sb_free_blocks sb - 1) sb.
Definition inc_free (sb : noxfs_sb) : noxfs_sb := with_free_blocks (sb_free_blocks sb + 1) sb.

Lemma geo_with_free n sb : geo sb -> geo (with_free_blocks n sb).
Proof. intros []. by split. Qed.

Lemma meta_free_range D sb : meta D sb -> 0 <= sb_free_blocks sb <= 4096.
Proof.
  intros Hm. rewrite (m_free _ _ Hm). pose proof (geo_blocks _ (m_geo _ _ Hm)).
  pose proof (countb_bounds (fun b => negb (used D sb b)) (Z.to_nat (sb_block_count sb))). lia.
Qed.

(** The block bitmap changed at one bit, and the superblock rewritten. *)
Lemma meta_bitmap D sb b d v : meta D sb -> sb_data_start sb <= b < sb_block_count sb ->
  length d = 512%nat -> bytes_ok d ->
  (forall j, 0 <= j -> bit_set d j = if decide (j = b) then v else used D sb j) ->
  used D sb b = negb v ->
  let sb' := with_free_blocks (sb_free_blocks sb + (if v then -1 else 1)) sb in
  meta (dset 0 (sb_bytes sb') (dset (sb_blk_bmp sb) d D)) sb'.
Proof.
  intros Hm Hb Hlen Hok Hbit Hv sb'. pose proof (m_geo _ _ Hm) as Hg. pose proof (geo_data _ Hg). pose proof (geo_bmp _ Hg).
  pose proof (geo_ibmp _ Hg). pose proof (geo_bmps _ Hg). pose proof (geo_blocks _ Hg).
  assert (Eb : dset 0 (sb_bytes sb') (dset (sb_blk_bmp sb) d D) (sb_blk_bmp sb) = d) by (rewrite dset_ne, dset_eq; lia || done).
  assert (Ei : dset 0 (sb_bytes sb') (dset (sb_blk_bmp sb) d D) (sb_ino_bmp sb) = D (sb_ino_bmp sb)) by (rewrite !dset_ne; lia || done).
  split.
  - by apply geo_with_free.
  - intros b' Hb'. unfold dset. destruct (decide (b' = 0)); [apply sb_bytes_ok; exact (proj2 (geo_pad _ Hg))|].
    destruct (decide _); [done | by apply (m_bytes _ _ Hm)].
  - intros j Hj. unfold used. cbn [sb' with_free_blocks sb_blk_bmp sb_data_start] in *. rewrite Eb, Hbit by lia.
    rewrite decide_False by lia. apply (m_used _ _ Hm). lia.
  - unfold used. cbn [sb' with_free_blocks sb_blk_bmp sb_block_count sb_free_blocks] in *. rewrite (m_free _ _ Hm), Eb.
    rewrite (countb_change (fun b => negb (used D sb b)) (fun b => negb (bit_set d b)) _ b).
    + rewrite Hv, Hbit, decide_True by lia. destruct v; simpl; lia.
    + lia.
    + intros j Hj Hne. rewrite Hbit, decide_False by done. done.
  - unfold iused. cbn [sb' with_free_blocks sb_ino_bmp sb_inode_count sb_free_inodes] in *. rewrite Ei. apply (m_ifree _ _ Hm).
Qed.

Lemma balloc_runs c sb fl n r h H D Q : cok c H D -> meta D sb -> hold_ok sb H ->
  (sb_free_blocks sb = 0 -> Q U32_NEG1 (mkNox c sb fl n r h)) ->
  (forall b c' D', 0 < sb_free_blocks sb -> sb_data_start sb <= b < sb_block_count sb -> used D sb b = false ->
     cok c' H D' -> meta D' (dec_free sb) -> same_above sb D D' ->
     (forall j, 0 <= j -> used D' sb j = bool_decide (j = b) || used D sb j) ->
     Q b (mkNox c' (dec_free sb) fl n r h)) ->
  runs balloc (mkNox c sb fl n r h) Q.
Proof.
  intros Hc Hm Hh Hnone Hsome. pose proof (m_geo _ _ Hm) as Hg. pose proof (geo_data _ Hg). pose proof (geo_bmp _ Hg).
  pose proof (geo_start _ Hg). pose proof (geo_blocks _ Hg). pose proof (meta_free_range _ _ Hm) as Hfr.
  unfold balloc. apply runs_bind. unfold runs at 1, gets. cbn [n_sb].
  destruct (Z.eqb_spec (sb_free_blocks sb) 0) as [E|E]; [apply runs_ret; by apply Hnone|].
  apply runs_bind. pose proof (cok_length _ _ _ (sb_blk_bmp sb) Hc ltac:(lia)) as Hlen.
  eapply bmp_alloc_runs; [done | eapply hold_readable; [done | done | lia] | lia | |].
  2:{ intros c1 Hall _. exfalso. apply E. rewrite (m_free _ _ Hm).
      rewrite (countb_ext _ (fun _ => false)); [by clear; induction (Z.to_nat _) as [|k IH]; simpl; lia|].
      intros i Hi. unfold used. rewrite Hall by lia. done. }
  intros b c1 Hb Hub _ Hc1.
  assert (Hbd : sb_data_start sb <= b).
  { destruct (Z.lt_ge_cases b (sb_data_start sb)); [|lia]. pose proof (m_used _ _ Hm b ltac:(lia)). unfold used in *. congruence. }
  rewrite (proj2 (Z.eqb_neq b U32_NEG1)) by (unfold U32_NEG1; lia).
  apply runs_bind. unfold runs at 1, modify, set_sb. cbn [n_sb n_bc n_files n_count n_ready n_heap].
  words. fold (dec_free sb). apply runs_bind.
  eapply sb_write_runs; [done | by apply geo_with_free | exact Hh |]. intros c2 Hc2. apply runs_ret.
  apply (Hsome b c2 _ ltac:(lia) ltac:(lia) Hub Hc2).
  - apply (meta_bitmap D sb b _ true); [done | lia | by rewrite length_mark | by apply bytes_ok_mark, (m_bytes _ _ Hm); lia | | done].
    intros j Hj. rewrite bit_set_mark by lia. destruct (decide (j = b)) as [->|].
    + by rewrite bool_decide_eq_true_2. + by rewrite bool_decide_eq_false_2.
  - intros b' Hb' Hb''. by rewrite !dset_ne.
  - intros j Hj. unfold used. rewrite dset_ne, dset_eq by lia. apply bit_set_mark; [done | lia | done].
Qed.

Lemma bfree_runs c sb fl n r h H D b Q : cok c H D -> meta D sb -> hold_ok sb H ->
  sb_data_start sb <= b < sb_block_count sb -> used D sb b = true ->
  (forall c' D', cok c' H D' -> meta D' (inc_free sb) -> same_above sb D D' ->
     (forall j, 0 <= j -> used D' sb j = negb (bool_decide (j = b)) && used D sb j) ->
     Q tt (mkNox c' (inc_free sb) fl n r h)) ->
  runs (bfree b) (mkNox c sb fl n r h) Q.
Proof.
  intros Hc Hm Hh Hb Hub HQ. pose proof (m_geo _ _ Hm) as Hg. pose proof (geo_data _ Hg). pose proof (geo_bmp _ Hg).
  pose proof (geo_start _ Hg). pose proof (geo_blocks _ Hg). pose proof (meta_free_range _ _ Hm) as Hfr.
  unfold bfree. apply runs_bind. unfold runs at 1, gets. cbn [n_sb].
  rewrite (proj2 (Z.leb_gt _ _)) by lia. pose proof (cok_length _ _ _ (sb_blk_bmp sb) Hc ltac:(lia)) as Hlen.
  apply runs_bind. eapply bmp_free_runs; [done | eapply hold_readable; [done | done | lia] | lia |]. intros c1 Hc1.
  apply runs_bind. unfold runs at 1, modify, set_sb. cbn [n_sb n_bc n_files n_count n_ready n_heap].
  words. fold (inc_free sb). apply runs_bind.
  eapply sb_write_runs; [done | by apply geo_with_free | exact Hh |]. intros c2 Hc2. apply runs_ret.
  apply (HQ c2 _ Hc2).
  - apply (meta_bitmap D sb b _ false); [done | lia | by rewrite length_unmark | by apply bytes_ok_unmark, (m_bytes _ _ Hm); lia | | done].
    intros j Hj. rewrite bit_set_unmark by lia. destruct (decide (j = b)) as [->|].
    + by rewrite bool_decide_eq_true_2. + by rewrite bool_decide_eq_false_2.
  - intros b' Hb' Hb''. by rewrite !dset_ne.
  - intros j Hj. unfold used. rewrite dset_ne, dset_eq by lia. apply bit_set_unmark; [done | lia | done].
Qed.

(** ** The inode table *)

Definition inode_at (D : disk) (sb : noxfs_sb) (ino : Z) : noxfs_inode :=
  inode_of_bytes (slice (ino_off ino) 64 (D (ino_blk sb ino))).

Definition put_inode (sb : noxfs_sb) (ino : Z) (i : noxfs_inode) (D : disk) : disk :=
  dset (ino_blk sb ino) (splice (ino_off ino) (inode_bytes i) (D (ino_blk sb ino))) D.

(** What a write to the inode table leaves alone. *)
Definition same_data (sb : noxfs_sb) (D D' : disk) : Prop := forall b, b < sb_ino_tbl sb \/ sb_data_start sb <= b -> D' b = D b.

Lemma meta_same D D' sb : meta D sb -> (forall b, 0 <= b < limit -> bytes_ok (D' b)) ->
  (forall b, 0 < b < sb_ino_tbl sb -> D' b = D b) -> meta D' sb.
Proof.
  intros Hm Hok Hs. pose proof (m_geo _ _ Hm) as Hg. pose proof (geo_bmp _ Hg). pose proof (geo_ibmp _ Hg).
  assert (Eb : D' (sb_blk_bmp sb) = D (sb_blk_bmp sb)) by (apply Hs; lia).
  assert (Ei : D' (sb_ino_bmp sb) = D (sb_ino_bmp sb)) by (apply Hs; lia).
  split; [done | done | | |].
  - intros b Hb. unfold used. rewrite Eb. by apply (m_used _ _ Hm).
  - unfold used. rewrite Eb. apply (m_free _ _ Hm).
  - unfold iused. rewrite Ei. apply (m_ifree _ _ Hm).
Qed.

Lemma inode_at_wf c H D sb ino : cok c H D -> meta D sb -> 0 <= ino < sb_inode_count sb -> inode_wf (inode_at D sb ino).
Proof.
  intros Hc Hm Hi. pose proof (m_geo _ _ Hm) as Hg. pose proof (ino_blk_range sb ino Hg Hi). pose proof (ino_off_range ino).
  pose proof (geo_blocks _ Hg). pose proof (geo_data _ Hg). pose proof (geo_bmp _ Hg).
  pose proof (cok_length _ _ _ (ino_blk sb ino) Hc ltac:(lia)) as Hlen.
  apply inode_of_bytes_wf; [apply bytes_ok_slice, (m_bytes _ _ Hm); lia | apply length_slice; lia].
Qed.

Lemma put_inode_facts D sb ino i : (forall b, 0 <= b < limit -> length (D b) = 512%nat) -> meta D sb -> inode_wf i ->
  0 <= ino < sb_inode_count sb ->
  length (put_inode sb ino i D (ino_blk sb ino)) = 512%nat /\
  meta (put_inode sb ino i D) sb /\ same_data sb D (put_inode sb ino i D) /\
  inode_at (put_inode sb ino i D) sb ino = i /\
  forall ino', 0 <= ino' < sb_inode_count sb -> ino' <> ino -> inode_at (put_inode sb ino i D) sb ino' = inode_at D sb ino'.
Proof.
  intros HD Hm Hi Hino. pose proof (m_geo _ _ Hm) as Hg. pose proof (ino_blk_range sb ino Hg Hino) as Hr. pose proof (ino_off_range ino).
  pose proof (geo_blocks _ Hg). pose proof (geo_data _ Hg). pose proof (geo_bmp _ Hg).
  pose proof (HD (ino_blk sb ino) ltac:(lia)) as Hlen.
  pose proof (length_inode_bytes i (iw_len _ Hi) (iw_pad _ Hi)) as Hib.
  assert (Hs : same_data sb D (put_inode sb ino i D)) by (intros b Hb; apply dset_ne; lia).
  split_and!.
  - unfold put_inode. rewrite dset_eq. by rewrite length_splice by lia.
  - apply (meta_same D); [done | | intros b Hb; apply Hs; lia].
    intros b Hb. unfold put_inode, dset. destruct (decide _); [|by apply (m_bytes _ _ Hm)].
    apply bytes_ok_splice; [apply (m_bytes _ _ Hm); lia | apply inode_bytes_ok, iw_pad_ok; done].
  - done.
  - unfold inode_at, put_inode. rewrite dset_eq. change 64 with (Z.of_nat 64). rewrite <- Hib.
    rewrite slice_splice_same by lia. by apply inode_roundtrip.
  - intros ino' Hino' Hne. unfold inode_at, put_inode, dset. destruct (decide _) as [E|]; [|done].
    rewrite E. f_equal. apply slice_splice_disjoint; [apply ino_off_range | lia | lia |].
    rewrite Hib. pose proof (ino_off_disjoint sb ino' ino Hg Hino' Hino Hne E). lia.
Qed.

Section Inodes.
Context (ata_read : Z -> S -> os_status * list Z * S).

Lemma iread_runs c sb fl n r h H D ino Q : cok c H D -> meta D sb -> hold_ok sb H -> 0 <= ino < sb_inode_count sb ->
  (forall c', cok c' H D -> Q (OS_OK, inode_at D sb ino) (mkNox c' sb fl n r h)) ->
  runs (iread ata_read ino) (mkNox c sb fl n r h) Q.
Proof.
  intros Hc Hm Hh Hi HQ. pose proof (m_geo _ _ Hm) as Hg. pose proof (ino_blk_range sb ino Hg Hi). pose proof (geo_bmp _ Hg).
  unfold iread. apply runs_bind. unfold runs at 1, gets. cbn [n_sb]. rewrite (proj2 (Z.leb_gt _ _)) by lia.
  apply runs_bind. eapply bread_runs; [done | eapply hold_readable; [done | done | lia] |]. intros bp c1 Hc1 Hbp.
  apply runs_bind. eapply bdata_runs; [done | apply lookup_insert_eq |].
  apply runs_bind. eapply brelse_top; [done | done |]. intros c2 Hc2. apply runs_ret. by apply HQ.
Qed.

Lemma iread_invalid c sb fl n r h ino Q : sb_inode_count sb <= ino ->
  Q (OS_ERR_INVALID, zero_inode) (mkNox c sb fl n r h) -> runs (iread ata_read ino) (mkNox c sb fl n r h) Q.
Proof. intros Hi HQ. unfold iread, runs, bind, gets. cbn [n_sb]. by rewrite (proj2 (Z.leb_le _ _)) by lia. Qed.
End Inodes.

Lemma iwrite_runs c sb fl n r h H D ino i Q : cok c H D -> meta D sb -> hold_ok sb H -> inode_wf i ->
  0 <= ino < sb_inode_count sb ->
  (forall c', cok c' H (put_inode sb ino i D) -> Q OS_OK (mkNox c' sb fl n r h)) ->
  runs (iwrite ino i) (mkNox c sb fl n r h) Q.
Proof.
  intros Hc Hm Hh Hw Hi HQ. pose proof (m_geo _ _ Hm) as Hg. pose proof (ino_blk_range sb ino Hg Hi). pose proof (geo_bmp _ Hg).
  destruct (put_inode_facts D sb ino i (fun b => cok_length _ _ _ b Hc) Hm Hw Hi) as (Hlen & _).
  unfold put_inode in Hlen. rewrite dset_eq in Hlen.
  unfold iwrite. apply runs_bind. unfold runs at 1, gets. cbn [n_sb]. rewrite (proj2 (Z.leb_gt _ _)) by lia.
  eapply (update_runs c sb fl n r h H D (ino_blk sb ino) (splice (ino_off ino) (inode_bytes i))); [done | | done | done].
  eapply hold_readable; [done | done | lia].
Qed.
End Specs.

End NoxDisk.
