(* ===== verification/NoxFiles.v ===== *)
(** * NoxFS: the block map and the contents of files

    Ownership of data blocks by inodes, the block map with and without
    allocation, and the round trip of [_store_data] and [_load_data]. *)
From S2P Require Import Prelude Bytes Buffer NoxFS NoxDisk.
Import NoxFS NoxDisk.

Module NoxFiles.

Lemma is_ok_ne st : st <> OS_OK -> is_ok st = false.
Proof. intros. by apply bool_decide_eq_false_2. Qed.

(** Logical blocks an inode can address. *)
Definition NSLOTS : Z := 138.

(** The physical block of logical block [l] (0: none). *)
Definition bmap (D : disk) (i : noxfs_inode) (l : Z) : Z :=
  if l <? NOXFS_DIRECT then iblock i l
  else if i_indirect i =? 0 then 0 else get32 (D (i_indirect i)) (4 * (l - NOXFS_DIRECT)).

(** All pointers of an inode: slot -1 is the indirect block itself. *)
Definition slot (D : disk) (i : noxfs_inode) (k : Z) : Z := if k =? -1 then i_indirect i else bmap D i k.

Lemma slot_ge0 D i k : 0 <= k -> slot D i k = bmap D i k.
Proof. intros. unfold slot. by rewrite (proj2 (Z.eqb_neq k (-1))) by lia. Qed.

(** Slots depend on the disk only through the indirect block. *)
Lemma slot_frame D D' i k : (i_indirect i <> 0 -> D' (i_indirect i) = D (i_indirect i)) -> slot D' i k = slot D i k.
Proof.
  intros E. unfold slot, bmap. destruct (k =? -1), (k <? NOXFS_DIRECT); try done.
  destruct (Z.eqb_spec (i_indirect i) 0); [done|]. by rewrite E.
Qed.

Definition iset (ino : Z) (i : noxfs_inode) (I : Z -> noxfs_inode) : Z -> noxfs_inode :=
  fun x => if decide (x = ino) then i else I x.

Lemma iset_eq ino i I : iset ino i I ino = i.
Proof. unfold iset. by rewrite decide_True. Qed.
Lemma iset_ne ino i I x : x <> ino -> iset ino i I x = I x.
Proof. intros. unfold iset. by rewrite decide_False. Qed.

(** Every pointer of a live inode is a data block in use, and no block has two
    owners. *)
Record owned (D : disk) (sb : noxfs_sb) (L : Z -> Prop) (I : Z -> noxfs_inode) : Prop := {
  ow_wf : forall ino, L ino -> inode_wf (I ino);
  ow_range : forall ino k, L ino -> -1 <= k < NSLOTS -> slot D (I ino) k <> 0 ->
    sb_data_start sb <= slot D (I ino) k < sb_block_count sb /\ used D sb (slot D (I ino) k) = true;
  ow_inj : forall ino k ino' k', L ino -> L ino' -> -1 <= k < NSLOTS -> -1 <= k' < NSLOTS ->
    slot D (I ino) k <> 0 -> slot D (I ino) k = slot D (I ino') k' -> ino = ino' /\ k = k'
}.

Definition same_geo (sb sb' : noxfs_sb) : Prop := sb' = with_free_blocks (sb_free_blocks sb') sb.

Lemma same_geo_refl sb : same_geo sb sb.
Proof. by destruct sb. Qed.
Lemma same_geo_trans sb1 sb2 sb3 : same_geo sb1 sb2 -> same_geo sb2 sb3 -> same_geo sb1 sb3.
Proof. unfold same_geo. intros H1 H2. rewrite H2, H1. done. Qed.
Lemma same_geo_dec sb : same_geo sb (dec_free sb).
Proof. done. Qed.

(** The fields of the layout that [same_geo] superblocks share. *)
Lemma same_geo_fields sb sb' : same_geo sb sb' ->
  sb_data_start sb' = sb_data_start sb /\ sb_block_count sb' = sb_block_count sb /\ sb_inode_count sb' = sb_inode_count sb /\
  sb_blk_bmp sb' = sb_blk_bmp sb /\ sb_ino_bmp sb' = sb_ino_bmp sb /\ sb_ino_tbl sb' = sb_ino_tbl sb /\
  sb_root_ino sb' = sb_root_ino sb.
Proof. intros ->. done. Qed.

Lemma used_geo D sb sb' b : same_geo sb sb' -> used D sb' b = used D sb b.
Proof. intros ->. done. Qed.

(** One slot of one inode filled in with a block that was free. *)
Lemma owned_extend D sb L I D' sb' ino i' k0 b : owned D sb L I -> L ino -> same_geo sb sb' ->
  sb_data_start sb <= b < sb_block_count sb -> used D sb b = false -> inode_wf i' -> 0 < sb_data_start sb ->
  (forall k, -1 <= k < NSLOTS -> slot D' i' k = if decide (k = k0) then b else slot D (I ino) k) ->
  (forall x k, L x -> x <> ino -> slot D' (I x) k = slot D (I x) k) ->
  (forall j, 0 <= j -> used D sb j = true -> used D' sb j = true) -> used D' sb b = true ->
  owned D' sb' L (iset ino i' I).
Proof.
  intros Ho HL Hg Hb Hub Hw Hpos Hs Hx Hu Hub'. pose proof (same_geo_fields _ _ Hg) as (E1 & E2 & _).
  assert (Hnb : forall x k, L x -> -1 <= k < NSLOTS -> slot D (I x) k <> b).
  { intros x k Hxl Hk E. destruct (ow_range _ _ _ _ Ho x k Hxl Hk); [lia | congruence]. }
  assert (Hslot : forall x k, L x -> -1 <= k < NSLOTS -> slot D' (iset ino i' I x) k =
                    if decide (x = ino /\ k = k0) then b else slot D (I x) k).
  { intros x k Hxl Hk. unfold iset. destruct (decide (x = ino)) as [->|Hne].
    - rewrite Hs by done. destruct (decide (k = k0)), (decide (ino = ino /\ k = k0)); tauto || done.
    - rewrite Hx by done. rewrite decide_False by tauto. done. }
  split.
  - intros x Hxl. unfold iset. destruct (decide _); [done | by apply (ow_wf _ _ _ _ Ho)].
  - intros x k Hxl Hk. rewrite Hslot by done. rewrite E1, E2, (used_geo _ sb) by done.
    destruct (decide _); [done|]. intros Hnz. destruct (ow_range _ _ _ _ Ho x k Hxl Hk Hnz) as [R1 R2].
    split; [done|]. apply Hu; [lia | done].
  - intros x k x' k' Hxl Hxl' Hk Hk'. rewrite !Hslot by done.
    destruct (decide (x = ino /\ k = k0)) as [[-> ->]|], (decide (x' = ino /\ k' = k0)) as [[-> ->]|].
    + done.
    + intros _ E. symmetry in E. by apply Hnb in E.
    + intros _ E. by apply Hnb in E.
    + by apply (ow_inj _ _ _ _ Ho).
Qed.

(** The pointers of [i0] are among those of [i]. *)
Definition sub (D : disk) (i0 i : noxfs_inode) : Prop :=
  forall k, -1 <= k < NSLOTS -> slot D i0 k = 0 \/ slot D i0 k = slot D i k.

Lemma sub_refl D i : sub D i i.
Proof. intros k _. by right. Qed.

Lemma owned_sub D sb L I ino i0 : owned D sb L I -> inode_wf i0 -> sub D i0 (I ino) -> owned D sb L (iset ino i0 I).
Proof.
  intros Ho Hw Hs.
  assert (Hx : forall x k, L x -> -1 <= k < NSLOTS -> slot D (iset ino i0 I x) k = 0 \/ slot D (iset ino i0 I x) k = slot D (I x) k).
  { intros x k Hxl Hk. unfold iset. destruct (decide (x = ino)) as [->|]; [by apply Hs | by right]. }
  split.
  - intros x Hxl. unfold iset. destruct (decide _); [done | by apply (ow_wf _ _ _ _ Ho)].
  - intros x k Hxl Hk Hnz. destruct (Hx x k Hxl Hk) as [?|E]; [done|]. rewrite E in *. by apply (ow_range _ _ _ _ Ho).
  - intros x k x' k' Hxl Hxl' Hk Hk' Hnz E. destruct (Hx x k Hxl Hk) as [?|E1]; [done|].
    destruct (Hx x' k' Hxl' Hk') as [?|E2]; [congruence|]. apply (ow_inj _ _ _ _ Ho); try done; congruence.
Qed.

(** What [kmalloc] promises: a new buffer of the size asked for. *)
Class ObjHeap (pick : gmap Z (list Z) -> Z -> option (Z * list Z)) :=
  pick_fresh h n p d : pick h n = Some (p, d) -> p <> 0 /\ h !! p = None /\ length d = Z.to_nat n.

(** ** Growing a file *)

Definition same_attrs (i i' : noxfs_inode) : Prop :=
  i_mode i' = i_mode i /\ i_uid i' = i_uid i /\ i_gid i' = i_gid i /\ i_size i' = i_size i /\
  i_links i' = i_links i /\ i_pad i' = i_pad i.

(** [D', sb', i'] has grown from [D, sb, i] by allocating blocks: pointers are
    only added, and only the indirect block among the blocks in use changes. *)
Record ext (D : disk) (sb : noxfs_sb) (i : noxfs_inode) (D' : disk) (sb' : noxfs_sb) (i' : noxfs_inode) : Prop := {
  e_attrs : same_attrs i i';
  e_geo : same_geo sb sb';
  e_slots : forall k, -1 <= k < NSLOTS -> slot D' i' k = slot D i k \/
    (slot D i k = 0 /\ sb_data_start sb <= slot D' i' k /\ used D sb (slot D' i' k) = false);
  e_data : forall x, sb_data_start sb <= x -> used D sb x = true -> x <> i_indirect i -> D' x = D x;
  e_table : forall b, sb_ino_tbl sb <= b < sb_data_start sb -> D' b = D b;
  e_used : forall j, 0 <= j -> used D sb j = true -> used D' sb j = true;
  e_imap : D' (sb_ino_bmp sb) = D (sb_ino_bmp sb)
}.

Lemma ext_refl D sb i : ext D sb i D sb i.
Proof. split; try done; [by apply same_geo_refl | by left]. Qed.

Lemma ext_trans D1 sb1 i1 D2 sb2 i2 D3 sb3 i3 : 0 < sb_data_start sb1 -> ext D1 sb1 i1 D2 sb2 i2 -> ext D2 sb2 i2 D3 sb3 i3 -> ext D1 sb1 i1 D3 sb3 i3.
Proof.
  intros Hpos [A1 G1 S1 F1 T1 U1 P1] [A2 G2 S2 F2 T2 U2 P2].
  pose proof (same_geo_fields _ _ G1) as (E1 & E2 & _ & E3 & E5 & E4 & _).
  assert (Hu : forall D b, used D sb2 b = used D sb1 b) by (intros; by apply used_geo).
  assert (Hback : forall j, 0 <= j -> used D2 sb1 j = false -> used D1 sb1 j = false).
  { intros j Hj Hf. destruct (used D1 sb1 j) eqn:E; [|done]. apply U1 in E; [congruence | done]. }
  split.
  - unfold same_attrs in *. intuition congruence.
  - by eapply same_geo_trans.
  - intros k Hk. destruct (S1 k Hk) as [H1|(H1 & R1 & H1')], (S2 k Hk) as [H2|(H2 & R2 & H2')].
    + left. congruence.
    + right. rewrite Hu in H2'. split_and!; [congruence | lia | apply Hback; [lia | done]].
    + right. rewrite H2. done.
    + lia.
  - intros x Hx Hux Hne. rewrite <- (F1 x) by done. apply F2; [lia | rewrite Hu; apply U1; [lia | done] |].
    destruct (S1 (-1) ltac:(unfold NSLOTS; lia)) as [H1|(H1 & R1 & H1')]; unfold slot in *; simpl in *; congruence.
  - intros b Hb. rewrite T2 by lia. by apply T1.
  - intros j Hj Huj. rewrite <- Hu. apply U2; [done|]. rewrite Hu. by apply U1.
  - rewrite <- P1, <- E5. done.
Qed.

Section Grow.
Context {S : Type} {limit : Z} `{BC : BufferCache S limit}.

(** While the inode [ino] is being extended: its copy in memory is [i], the
    one on disk [i0]. *)
Record growing (D : disk) (sb : noxfs_sb) (L : Z -> Prop) (I : Z -> noxfs_inode) (ino : Z) (i0 i : noxfs_inode) : Prop := {
  gr_meta : meta (limit := limit) D sb;
  gr_own : owned D sb L (iset ino i I);
  gr_live : L ino;
  gr_wf0 : inode_wf i0;
  gr_sub : sub D i0 i
}.

Lemma gr_wf D sb L I ino i0 i : growing D sb L I ino i0 i -> inode_wf i.
Proof. intros []. pose proof (ow_wf _ _ _ _ gr_own0 ino gr_live0) as H. by rewrite iset_eq in H. Qed.

Lemma gr_range D sb L I ino i0 i k : growing D sb L I ino i0 i -> -1 <= k < NSLOTS -> slot D i k <> 0 ->
  sb_data_start sb <= slot D i k < sb_block_count sb /\ used D sb (slot D i k) = true.
Proof. intros [] Hk Hnz. pose proof (ow_range _ _ _ _ gr_own0 ino k gr_live0 Hk) as H. rewrite iset_eq in H. by apply H. Qed.

Lemma gr_inj D sb L I ino i0 i k k' : growing D sb L I ino i0 i -> -1 <= k < NSLOTS -> -1 <= k' < NSLOTS ->
  slot D i k <> 0 -> slot D i k = slot D i k' -> k = k'.
Proof.
  intros [] Hk Hk' Hnz E. pose proof (ow_inj _ _ _ _ gr_own0 ino k ino k' gr_live0 gr_live0 Hk Hk') as H.
  rewrite iset_eq in H. by apply H.
Qed.

(** A block of another inode is not one of [ino]'s. *)
Lemma gr_other D sb L I ino i0 i x k k' : growing D sb L I ino i0 i -> L x -> x <> ino -> -1 <= k < NSLOTS -> -1 <= k' < NSLOTS ->
  slot D (I x) k <> 0 -> slot D (I x) k <> slot D i k'.
Proof.
  intros [] Hx Hne Hk Hk' Hnz E. pose proof (ow_inj _ _ _ _ gr_own0 x k ino k' Hx gr_live0 Hk Hk') as H.
  rewrite iset_eq, iset_ne in H by done. by destruct (H Hnz E).
Qed.

Lemma iset_iset ino i i' I x : iset ino i' (iset ino i I) x = iset ino i' I x.
Proof. unfold iset. by destruct (decide _). Qed.

Lemma owned_ext D sb L I I' : (forall x, I' x = I x) -> owned D sb L I -> owned D sb L I'.
Proof.
  intros E []. split.
  - intros x Hx. rewrite E. auto.
  - intros x k. rewrite E. auto.
  - intros x k x' k'. rewrite !E. auto.
Qed.

(** One allocation: the block [b] fills slot [k0], and at most [b] and the
    indirect block are written. *)
Lemma grow_step D sb L I ino i0 i D1 D2 i' k0 b :
  growing D sb L I ino i0 i -> sb_data_start sb <= b < sb_block_count sb -> used D sb b = false ->
  meta (limit := limit) D1 (dec_free sb) -> same_above sb D D1 ->
  (forall j, 0 <= j -> used D1 sb j = bool_decide (j = b) || used D sb j) ->
  (forall x, x <> b -> x <> i_indirect i \/ x < sb_data_start sb -> D2 x = D1 x) ->
  (forall x, 0 <= x < limit -> bytes_ok (D2 x)) ->
  (forall k, -1 <= k < NSLOTS -> slot D2 i' k = if decide (k = k0) then b else slot D i k) ->
  -1 <= k0 < NSLOTS -> slot D i k0 = 0 -> same_attrs i i' -> inode_wf i' -> sub D2 i0 i' ->
  growing D2 (dec_free sb) L I ino i0 i' /\ ext D sb i D2 (dec_free sb) i'.
Proof.
  intros Hgr Hb Hub Hm1 Hab Hu1 Hd2 Hok Hs Hk0 Hs0 Hat Hw Hsub.
  pose proof (gr_meta _ _ _ _ _ _ _ Hgr) as Hm. pose proof (m_geo _ _ Hm) as Hg.
  pose proof (geo_data _ Hg). pose proof (geo_bmp _ Hg). pose proof (geo_ibmp _ Hg). pose proof (geo_start _ Hg).
  assert (Hmeta2 : meta (limit := limit) D2 (dec_free sb)).
  { apply (meta_same D1); [done | done |]. intros x Hx. cbn [dec_free with_free_blocks sb_ino_tbl] in Hx.
    apply Hd2; [lia | right; lia]. }
  assert (Hu2 : forall j, used D2 sb j = used D1 sb j) by (intros j; unfold used; rewrite Hd2; [done | lia | right; lia]).
  split.
  - split; [done | | apply (gr_live _ _ _ _ _ _ _ Hgr) | apply (gr_wf0 _ _ _ _ _ _ _ Hgr) | done].
    apply (owned_ext _ _ _ (iset ino i' (iset ino i I))); [intros x; by rewrite iset_iset|].
    eapply (owned_extend D sb L (iset ino i I) D2 _ ino i' k0 b); try done.
    + apply (gr_own _ _ _ _ _ _ _ Hgr).
    + apply (gr_live _ _ _ _ _ _ _ Hgr).
    + apply Hg.
    + intros k Hk. rewrite iset_eq. by apply Hs.
    + intros x k Hx Hne. rewrite iset_ne by done. apply slot_frame. intros Hnz.
      pose proof (ow_range _ _ _ _ (gr_own _ _ _ _ _ _ _ Hgr) x (-1) Hx ltac:(unfold NSLOTS; lia)) as R.
      rewrite iset_ne in R by done. destruct (R Hnz) as [R1 R2]. change (slot D (I x) (-1)) with (i_indirect (I x)) in *.
      rewrite Hd2; [apply Hab; lia | congruence | left].
      apply (gr_other D sb L I ino i0 i x (-1) (-1) Hgr Hx Hne); unfold NSLOTS; lia || done.
    + intros j Hj Huj. rewrite Hu2, Hu1, Huj by done. apply orb_true_r.
    + rewrite Hu2, Hu1 by lia. by rewrite bool_decide_eq_true_2.
  - split; [done | done | | | | |].
    + intros k Hk. rewrite Hs by done. destruct (decide (k = k0)) as [->|]; [right; split_and!; [done | lia | done] | by left].
    + intros x Hx Hux Hne. rewrite Hd2; [apply Hab; lia | congruence | by left].
    + intros x Hx. rewrite Hd2; [apply Hab; lia | lia | right; lia].
    + intros j Hj Huj. rewrite Hu2, Hu1, Huj by done. apply orb_true_r.
    + pose proof (geo_bmps _ Hg). rewrite Hd2; [apply Hab; lia | lia | right; lia].
Qed.

(** *** The three ways a slot is filled *)

Lemma slot_set_block D D' i l b k : 0 <= l < NOXFS_DIRECT -> length (i_blocks i) = 10%nat ->
  (i_indirect i <> 0 -> D' (i_indirect i) = D (i_indirect i)) -> -1 <= k < NSLOTS ->
  slot D' (set_block l b i) k = if decide (k = l) then b else slot D i k.
Proof.
  unfold NOXFS_DIRECT. intros Hl Hlen HD Hk. rewrite (slot_frame D D') by done. unfold slot, bmap, NOXFS_DIRECT, iblock. simpl.
  destruct (Z.eqb_spec k (-1)); [rewrite decide_False by lia; done|].
  destruct (Z.ltb_spec k 10); [|by rewrite decide_False by lia].
  rewrite !nth_lookup. destruct (decide (k = l)) as [->|].
  - by rewrite list_lookup_insert_eq by lia.
  - by rewrite list_lookup_insert_ne by lia.
Qed.

Lemma wf_set_block i l b : inode_wf i -> 0 <= b < 2 ^ 32 -> inode_wf (set_block l b i).
Proof. intros [] Hb. split; simpl; try done; [by rewrite length_insert | by apply Forall_insert]. Qed.

Lemma wf_set_indirect i b : inode_wf i -> 0 <= b < 2 ^ 32 -> inode_wf (set_indirect b i).
Proof. intros [] Hb. by split. Qed.

Lemma get32_zeros o : get32 (replicate 512 0) o = 0.
Proof.
  unfold get32, slice. rewrite drop_replicate, take_replicate. generalize (Z.to_nat 4 `min` (512 - Z.to_nat o))%nat as m.
  induction m as [|m IH]; [done|]. cbn [replicate le_val]. lia.
Qed.

Lemma slot_set_indirect D D' i b k : i_indirect i = 0 -> b <> 0 -> D' b = replicate 512 0 -> -1 <= k < NSLOTS ->
  slot D' (set_indirect b i) k = if decide (k = -1) then b else slot D i k.
Proof.
  intros Hi Hb HD Hk. unfold slot, bmap, iblock. cbn [set_indirect i_indirect i_blocks].
  destruct (Z.eqb_spec k (-1)) as [->|]; [done|]. rewrite decide_False by done.
  destruct (k <? NOXFS_DIRECT); [done|]. rewrite Hi, (proj2 (Z.eqb_neq b 0)) by done. rewrite HD. apply get32_zeros.
Qed.

Lemma slot_put_pointer D D' i l b k d : NOXFS_DIRECT <= l < NSLOTS -> i_indirect i <> 0 -> 0 <= b < 2 ^ 32 ->
  length (D (i_indirect i)) = 512%nat -> D' (i_indirect i) = put32 (4 * (l - NOXFS_DIRECT)) b d -> d = D (i_indirect i) -> -1 <= k < NSLOTS ->
  slot D' i k = if decide (k = l) then b else slot D i k.
Proof.
  unfold NOXFS_DIRECT, NSLOTS. intros Hl Hi Hb Hlen HD -> Hk. unfold slot, bmap, NOXFS_DIRECT.
  destruct (Z.eqb_spec k (-1)); [by rewrite decide_False by lia|].
  destruct (Z.ltb_spec k 10); [by rewrite decide_False by lia|].
  rewrite (proj2 (Z.eqb_neq _ _) Hi), HD. destruct (decide (k = l)) as [->|].
  - apply get32_put32; lia.
  - apply get32_put32_ne; lia.
Qed.

(** The number of blocks the indirect block may still cost. *)
Definition need (i : noxfs_inode) : Z := if i_indirect i =? 0 then 1 else 0.

Lemma cok_hold c D sb : cok c ∅ D -> hold_ok sb ∅.
Proof. intros _. split; [rewrite map_size_empty; lia|]. intros i b. by rewrite lookup_empty. Qed.

Context (Hlimit : limit <= 2 ^ 32).

Lemma data_readable sb b : geo (limit := limit) sb -> sb_data_start sb <= b < sb_block_count sb -> readable (limit := limit) ∅ b.
Proof. intros Hg Hb. pose proof (geo_blocks _ Hg). pose proof (geo_data _ Hg). split; [rewrite map_size_empty; lia|]. split; [lia|]. intros i. by rewrite lookup_empty. Qed.

Lemma hold_one sb (bp : nat) b : sb_data_start sb <= b -> hold_ok sb (<[bp := b]> ∅).
Proof.
  intros Hb. split; [rewrite map_size_insert_None by done; rewrite map_size_empty; lia|].
  intros i b' Hi. apply lookup_insert_Some in Hi as [[_ <-]|[_ Hi]]; [done | by rewrite lookup_empty in Hi].
Qed.

(** Without allocation the block map is read. *)
Lemma iget_lookup_runs c sb fl n r h D i l Q : cok c ∅ D -> 0 <= l < NSLOTS ->
  (i_indirect i <> 0 -> 0 <= i_indirect i < limit) ->
  (forall c', cok c' ∅ D -> Q (bmap D i l, i) (mkNox c' sb fl n r h)) ->
  runs (iget_block i l false) (mkNox c sb fl n r h) Q.
Proof.
  intros Hc Hl Hr HQ. unfold iget_block, bmap in *. unfold NSLOTS in Hl. cbn [andb].
  destruct (l <? NOXFS_DIRECT); [apply runs_ret; by apply HQ|].
  rewrite (proj2 (Z.leb_gt NOXFS_INDIRECT (l - NOXFS_DIRECT))) by (change NOXFS_INDIRECT with 128; change NOXFS_DIRECT with 10; lia).
  apply runs_bind, runs_ret. destruct (Z.eqb_spec (i_indirect i) 0) as [E|E]; [apply runs_ret; by apply HQ|].
  apply runs_bind. eapply bread_runs; [done | split; [rewrite map_size_empty; lia|]; split; [by apply Hr|]; intros k; by rewrite lookup_empty |].
  intros bp c1 Hc1 Hbp. apply runs_bind. eapply bdata_runs; [done | apply lookup_insert_eq |].
  apply runs_bind. eapply brelse_top; [done | done |]. intros c2 Hc2. apply runs_ret. by apply HQ.
Qed.

(** A direct slot. *)
Lemma iget_direct_runs c sb fl n r h D L I ino i0 i l Q : cok c ∅ D -> growing D sb L I ino i0 i -> 0 <= l < NOXFS_DIRECT ->
  (sb_free_blocks sb = 0 -> slot D i l = 0 -> Q (0, i) (mkNox c sb fl n r h)) ->
  (forall c' D' sb' i', slot D' i' l <> 0 -> cok c' ∅ D' -> growing D' sb' L I ino i0 i' -> ext D sb i D' sb' i' ->
     sb_free_blocks sb - 1 <= sb_free_blocks sb' -> need i' = need i -> Q (slot D' i' l, i') (mkNox c' sb' fl n r h)) ->
  runs (iget_block i l true) (mkNox c sb fl n r h) Q.
Proof.
  intros Hc Hgr Hl Hno Hyes. pose proof (gr_meta _ _ _ _ _ _ _ Hgr) as Hm. pose proof (m_geo _ _ Hm) as Hg.
  pose proof (geo_data _ Hg). pose proof (geo_blocks _ Hg). pose proof (geo_bmp _ Hg). pose proof (geo_start _ Hg).
  pose proof (gr_wf _ _ _ _ _ _ _ Hgr) as Hw. unfold NOXFS_DIRECT in Hl.
  assert (Es : slot D i l = iblock i l).
  { unfold slot, bmap, NOXFS_DIRECT. by rewrite (proj2 (Z.eqb_neq l (-1))), (proj2 (Z.ltb_lt l 10)) by lia. }
  unfold iget_block. rewrite (proj2 (Z.ltb_lt l NOXFS_DIRECT)) by (unfold NOXFS_DIRECT; lia). cbn [andb].
  destruct (Z.eqb_spec (iblock i l) 0) as [E|E].
  2:{ apply runs_ret. rewrite <- Es. apply (Hyes c D sb i); [congruence | done | done | apply ext_refl | lia | done]. }
  apply runs_bind. eapply balloc_runs; [done | done | done | by eapply cok_hold | |].
  { intros Hz. rewrite (Z.eqb_refl U32_NEG1). apply runs_ret. apply Hno; [done | congruence]. }
  intros b c1 D1 Hpos Hb Hub Hc1 Hm1 Hab Hu1. rewrite (proj2 (Z.eqb_neq b U32_NEG1)) by (unfold U32_NEG1; lia).
  apply runs_ret. unfold NSLOTS in *.
  assert (Hind : i_indirect i <> 0 -> D1 (i_indirect i) = D (i_indirect i)).
  { intros Hnz. destruct (gr_range _ _ _ _ _ _ _ (-1) Hgr ltac:(unfold NSLOTS; lia) Hnz) as [R _].
    change (slot D i (-1)) with (i_indirect i) in R. apply Hab; lia. }
  assert (Hind0 : i_indirect i0 <> 0 -> D1 (i_indirect i0) = D (i_indirect i0)).
  { intros Hnz. destruct (gr_sub _ _ _ _ _ _ _ Hgr (-1) ltac:(unfold NSLOTS; lia)) as [Hz|Hz]; unfold slot in Hz; simpl in Hz; [done|].
    rewrite Hz in *. by apply Hind. }
  pose proof (fun k => slot_set_block D D1 i l b k ltac:(unfold NOXFS_DIRECT; lia) (iw_len _ Hw) Hind) as Hs.
  destruct (grow_step D sb L I ino i0 i D1 D1 (set_block l b i) l b) as [Hgr' Hext]; try done.
  - apply (m_bytes _ _ Hm1).
  - unfold NSLOTS. lia.
  - congruence.
  - apply wf_set_block; [done | lia].
  - intros k Hk. rewrite Hs by done. rewrite (slot_frame D D1 i0) by done.
    destruct (gr_sub _ _ _ _ _ _ _ Hgr k Hk) as [?|Hz]; [by left|]. destruct (decide (k = l)) as [->|]; [left; congruence | by right].
  - assert (Hb' : slot D1 (set_block l b i) l = b) by (rewrite Hs, decide_True by (unfold NSLOTS; lia); done).
    rewrite <- Hb' at 1. apply (Hyes c1 D1 (dec_free sb)); try done; simpl; lia.
Qed.

(** The indirect block, allocated and cleared when there is none. *)
Lemma indirect_runs c sb fl n r h D L I ino i0 i Q : cok c ∅ D -> growing D sb L I ino i0 i ->
  (sb_free_blocks sb = 0 -> i_indirect i = 0 -> Q (false, i) (mkNox c sb fl n r h)) ->
  (forall c' D' sb' i', i_indirect i' <> 0 -> cok c' ∅ D' -> growing D' sb' L I ino i0 i' -> ext D sb i D' sb' i' ->
     sb_free_blocks sb - need i <= sb_free_blocks sb' -> Q (true, i') (mkNox c' sb' fl n r h)) ->
  runs (if i_indirect i =? 0 then
          let* blk := balloc in
          if blk =? U32_NEG1 then ret (false, i)
          else
            let* bp := bread blk in
            match bp with
            | None => ret (false, set_indirect blk i)
            | Some bp =>
                do* bstore bp (replicate (Z.to_nat NOXFS_BLKSZ) 0) in
                do* brelse bp in
                ret (true, set_indirect blk i)
            end
        else ret (true, i)) (mkNox c sb fl n r h) Q.
Proof.
  intros Hc Hgr Hno Hyes. pose proof (gr_meta _ _ _ _ _ _ _ Hgr) as Hm. pose proof (m_geo _ _ Hm) as Hg.
  pose proof (geo_data _ Hg). pose proof (geo_blocks _ Hg). pose proof (geo_bmp _ Hg). pose proof (geo_start _ Hg).
  pose proof (gr_wf _ _ _ _ _ _ _ Hgr) as Hw. unfold need in Hyes.
  destruct (Z.eqb_spec (i_indirect i) 0) as [E|E].
  2:{ apply runs_ret, (Hyes c D sb i); [done | done | done | apply ext_refl | lia]. }
  apply runs_bind. eapply balloc_runs; [done | done | done | by eapply cok_hold | |].
  { intros Hz. rewrite (Z.eqb_refl U32_NEG1). apply runs_ret. by apply Hno. }
  intros b c1 D1 Hpos Hb Hub Hc1 Hm1 Hab Hu1. rewrite (proj2 (Z.eqb_neq b U32_NEG1)) by (unfold U32_NEG1; lia).
  apply runs_bind. eapply bread_runs; [done | eapply data_readable; [done | lia] |]. intros bp c2 Hc2 Hbp.
  apply runs_bind. eapply bstore_runs; [done | apply lookup_insert_eq | done |]. intros c3 Hc3.
  apply runs_bind. eapply brelse_top; [done | done |]. intros c4 Hc4. apply runs_ret.
  set (D2 := dset b (replicate (Z.to_nat NOXFS_BLKSZ) 0) D1) in *.
  assert (Hs0 : i_indirect i0 = 0).
  { destruct (gr_sub _ _ _ _ _ _ _ Hgr (-1) ltac:(unfold NSLOTS; lia)) as [Hz|Hz]; unfold slot in Hz; simpl in Hz; congruence. }
  pose proof (fun k => slot_set_indirect D D2 i b k E ltac:(lia) (dset_eq _ _ _)) as Hs.
  destruct (grow_step D sb L I ino i0 i D1 D2 (set_indirect b i) (-1) b) as [Hgr' Hext]; try done.
  - intros x Hx _. by apply dset_ne.
  - intros x Hx. unfold D2, dset. destruct (decide _); [by apply Forall_replicate | by apply (m_bytes _ _ Hm1)].
  - apply wf_set_indirect; [done | lia].
  - intros k Hk. rewrite Hs by done. rewrite (slot_frame D D2 i0) by done.
    destruct (gr_sub _ _ _ _ _ _ _ Hgr k Hk) as [?|Hz]; [by left|].
    destruct (decide (k = -1)) as [->|]; [left; unfold slot; simpl; done | by right].
  - apply (Hyes c4 D2 (dec_free sb)); try done; simpl; lia.
Qed.

(** A slot of an existing indirect block. *)
Lemma pointer_runs c sb fl n r h D L I ino i0 i l Q : cok c ∅ D -> growing D sb L I ino i0 i ->
  NOXFS_DIRECT <= l < NSLOTS -> i_indirect i <> 0 ->
  (forall c', sb_free_blocks sb = 0 -> cok c' ∅ D -> Q (0, i) (mkNox c' sb fl n r h)) ->
  (forall c' D' sb', slot D' i l <> 0 -> cok c' ∅ D' -> growing D' sb' L I ino i0 i -> ext D sb i D' sb' i ->
     sb_free_blocks sb - 1 <= sb_free_blocks sb' -> Q (slot D' i l, i) (mkNox c' sb' fl n r h)) ->
  runs (let* bp := bread (i_indirect i) in
        match bp with
        | None => ret (0, i)
        | Some bp =>
            let* d := bdata bp in
            if true && (get32 d (4 * (l - NOXFS_DIRECT)) =? 0) then
              let* blk := balloc in
              if blk =? U32_NEG1 then do* brelse bp in ret (0, i)
              else
                let* d := bdata bp in
                do* bstore bp (put32 (4 * (l - NOXFS_DIRECT)) blk d) in
                let* d := bdata bp in
                do* brelse bp in
                ret (get32 d (4 * (l - NOXFS_DIRECT)), i)
            else
              do* brelse bp in
              ret (get32 d (4 * (l - NOXFS_DIRECT)), i)
        end) (mkNox c sb fl n r h) Q.
Proof.
  intros Hc Hgr Hl Hind Hno Hyes. pose proof (gr_meta _ _ _ _ _ _ _ Hgr) as Hm. pose proof (m_geo _ _ Hm) as Hg.
  pose proof (geo_data _ Hg). pose proof (geo_blocks _ Hg). pose proof (geo_bmp _ Hg). pose proof (geo_start _ Hg).
  pose proof (gr_wf _ _ _ _ _ _ _ Hgr) as Hw.
  destruct (gr_range _ _ _ _ _ _ _ (-1) Hgr ltac:(unfold NSLOTS; lia) Hind) as [Rind Uind].
  change (slot D i (-1)) with (i_indirect i) in Rind, Uind.
  assert (Es : forall D', slot D' i l = get32 (D' (i_indirect i)) (4 * (l - NOXFS_DIRECT))).
  { intros D'. unfold slot, bmap. unfold NOXFS_DIRECT in *. rewrite (proj2 (Z.eqb_neq l (-1))), (proj2 (Z.ltb_ge l 10)) by lia.
    by rewrite (proj2 (Z.eqb_neq _ _) Hind). }
  apply runs_bind. eapply bread_runs; [done | by eapply data_readable |]. intros bp c1 Hc1 Hbp.
  apply runs_bind. eapply bdata_runs; [done | apply lookup_insert_eq |]. rewrite <- Es. cbn [andb].
  destruct (Z.eqb_spec (slot D i l) 0) as [E|E].
  2:{ apply runs_bind. eapply brelse_top; [done | done |]. intros c2 Hc2. apply runs_ret.
      apply (Hyes c2 D sb); [done | done | done | apply ext_refl | lia]. }
  apply runs_bind. eapply balloc_runs; [done | done | done | apply hold_one; lia | |].
  { intros Hz. rewrite (Z.eqb_refl U32_NEG1). apply runs_bind. eapply brelse_top; [done | done |]. intros c2 Hc2. apply runs_ret. by apply Hno. }
  intros b c2 D1 Hpos Hb Hub Hc2 Hm1 Hab Hu1. rewrite (proj2 (Z.eqb_neq b U32_NEG1)) by (unfold U32_NEG1; lia).
  assert (Hind1 : D1 (i_indirect i) = D (i_indirect i)) by (apply Hab; lia).
  pose proof (cok_length _ _ _ (i_indirect i) Hc ltac:(lia)) as Hlen.
  apply runs_bind. eapply bdata_runs; [done | apply lookup_insert_eq |]. rewrite Hind1.
  set (d2 := put32 (4 * (l - NOXFS_DIRECT)) b (D (i_indirect i))).
  assert (Hd2 : length d2 = 512%nat) by (unfold d2, NSLOTS, NOXFS_DIRECT in *; rewrite length_put32; lia).
  apply runs_bind. eapply bstore_runs; [done | apply lookup_insert_eq | done |]. intros c3 Hc3.
  apply runs_bind. eapply bdata_runs; [done | apply lookup_insert_eq |].
  apply runs_bind. eapply brelse_top; [done | done |]. intros c4 Hc4. apply runs_ret. rewrite <- Es.
  set (D2 := dset (i_indirect i) d2 D1) in *.
  pose proof (fun k => slot_put_pointer D D2 i l b k _ Hl Hind ltac:(lia) Hlen (dset_eq _ _ _) eq_refl) as Hs.
  assert (Hl' : -1 <= l < NSLOTS) by (unfold NOXFS_DIRECT in *; lia).
  destruct (grow_step D sb L I ino i0 i D1 D2 i l b) as [Hgr' Hext]; try done.
  - intros x _ Hx. apply dset_ne. lia.
  - intros x Hx. unfold D2, dset. destruct (decide _); [|by apply (m_bytes _ _ Hm1)].
    apply bytes_ok_splice; [apply (m_bytes _ _ Hm); lia | apply le_bytes_ok].
  - intros k Hk. destruct (Z.eq_dec (i_indirect i0) (i_indirect i)) as [Ei|Ei].
    + destruct (gr_sub _ _ _ _ _ _ _ Hgr k Hk) as [Hz|Hz].
      * destruct (Z.eq_dec k (-1)) as [->|]; [right; exact Ei|]. destruct (Z.ltb_spec k NOXFS_DIRECT) as [Hd|Hd].
        -- left. unfold slot, bmap in *. rewrite (proj2 (Z.eqb_neq k (-1))), (proj2 (Z.ltb_lt k _)) in * by lia. done.
        -- right. unfold slot, bmap. rewrite (proj2 (Z.eqb_neq k (-1))), (proj2 (Z.ltb_ge k _)) by lia. by rewrite Ei.
      * destruct (Z.ltb_spec k NOXFS_DIRECT) as [Hd|Hd].
        -- right. unfold slot, bmap in *. rewrite (proj2 (Z.ltb_lt k _)) in * by lia. done.
        -- right. unfold slot, bmap. rewrite (proj2 (Z.ltb_ge k _)) by lia. by rewrite Ei.
    + destruct (gr_sub _ _ _ _ _ _ _ Hgr (-1) ltac:(unfold NSLOTS; lia)) as [Hz|Hz]; change (i_indirect i0 = 0) in Hz || (by destruct Ei).
      destruct (gr_sub _ _ _ _ _ _ _ Hgr k Hk) as [Hz'|Hz']; rewrite (slot_frame D D2 i0) by done; [by left|].
      rewrite Hs by done. destruct (decide (k = l)) as [->|]; [left; congruence | by right].
  - assert (slot D2 i l = b) by (rewrite Hs, decide_True by done; done).
    apply (Hyes c4 D2 (dec_free sb)); try done; simpl; lia.
Qed.

(** The block map with allocation: it succeeds when enough blocks are free. *)
Lemma iget_alloc_runs c sb fl n r h D L I ino i0 i l Q : cok c ∅ D -> growing D sb L I ino i0 i -> 0 <= l < NSLOTS ->
  (forall c' D' sb' i', sb_free_blocks sb < 1 + need i -> cok c' ∅ D' -> growing D' sb' L I ino i0 i' -> ext D sb i D' sb' i' ->
     Q (0, i') (mkNox c' sb' fl n r h)) ->
  (forall c' D' sb' i', slot D' i' l <> 0 -> cok c' ∅ D' -> growing D' sb' L I ino i0 i' -> ext D sb i D' sb' i' ->
     sb_free_blocks sb - 1 - need i + need i' <= sb_free_blocks sb' -> Q (slot D' i' l, i') (mkNox c' sb' fl n r h)) ->
  runs (iget_block i l true) (mkNox c sb fl n r h) Q.
Proof.
  intros Hc Hgr Hl Hno Hyes. assert (Hneed : forall i, 0 <= need i <= 1) by (intros j; unfold need; destruct (_ =? _); lia).
  pose proof (Hneed i). destruct (Z.lt_ge_cases l NOXFS_DIRECT) as [Hd|Hd].
  - eapply iget_direct_runs; [done | done | lia | |].
    + intros Hz _. apply (Hno c D sb i); [lia | done | done | apply ext_refl].
    + intros c' D' sb' i' Hnz Hc' Hgr' Hext Hf Hn. apply (Hyes c' D' sb' i'); try done. lia.
  - unfold iget_block. rewrite (proj2 (Z.ltb_ge l NOXFS_DIRECT)) by lia.
    rewrite (proj2 (Z.leb_gt NOXFS_INDIRECT (l - NOXFS_DIRECT))) by (change NOXFS_INDIRECT with 128; unfold NOXFS_DIRECT, NSLOTS in *; lia).
    cbn [andb]. apply runs_bind. eapply indirect_runs; [done | done | |].
    + intros Hz Hi. apply runs_ret. apply (Hno c D sb i); [lia | done | done | apply ext_refl].
    + intros c1 D1 sb1 i1 Hi1 Hc1 Hgr1 Hext1 Hf1. rewrite (proj2 (Z.eqb_neq _ _) Hi1).
      assert (Hpos : 0 < sb_data_start sb) by (apply (geo_data _ (m_geo _ _ (gr_meta _ _ _ _ _ _ _ Hgr)))).
      assert (Hn1 : need i1 = 0) by (unfold need; by rewrite (proj2 (Z.eqb_neq _ _) Hi1)).
      eapply pointer_runs; [done | done | lia | done | |].
      * intros c2 Hz Hc2. apply (Hno c2 D1 sb1 i1); [lia | done | done | done].
      * intros c2 D2 sb2 Hnz Hc2 Hgr2 Hext2 Hf2. apply (Hyes c2 D2 sb2 i1); try done; [|lia]. by eapply ext_trans.
Qed.

(** ** What happens to the other files *)

Record keeps (L : Z -> Prop) (I : Z -> noxfs_inode) (ino : Z) (D : disk) (sb : noxfs_sb) (D' : disk) (sb' : noxfs_sb) : Prop := {
  k_geo : same_geo sb sb';
  k_table : forall b, sb_ino_tbl sb <= b < sb_data_start sb -> D' b = D b;
  k_imap : D' (sb_ino_bmp sb) = D (sb_ino_bmp sb);
  k_slots : forall x k, L x -> x <> ino -> -1 <= k < NSLOTS -> slot D' (I x) k = slot D (I x) k;
  k_data : forall x k, L x -> x <> ino -> 0 <= k < NSLOTS -> slot D (I x) k <> 0 ->
    D' (slot D (I x) k) = D (slot D (I x) k)
}.

Lemma keeps_refl L I ino D sb : keeps L I ino D sb D sb.
Proof. split; try done. apply same_geo_refl. Qed.

Lemma keeps_trans L I ino D1 sb1 D2 sb2 D3 sb3 : keeps L I ino D1 sb1 D2 sb2 -> keeps L I ino D2 sb2 D3 sb3 -> keeps L I ino D1 sb1 D3 sb3.
Proof.
  intros [G1 T1 P1 S1 K1] [G2 T2 P2 S2 K2]. pose proof (same_geo_fields _ _ G1) as (E1 & _ & _ & _ & E5 & E4 & _). split.
  - by eapply same_geo_trans.
  - intros b Hb. rewrite T2 by lia. by apply T1.
  - by rewrite <- P1, <- E5.
  - intros x k Hx Hne Hk. by rewrite S2, S1.
  - intros x k Hx Hne Hk Hnz. assert (E : slot D2 (I x) k = slot D1 (I x) k) by (apply S1; [done | done | lia]).
    rewrite <- (K1 x k) by done. rewrite <- E. apply K2; [done | done | done | congruence].
Qed.

Lemma ext_keeps D sb L I ino i0 i D' sb' i' : growing D sb L I ino i0 i -> ext D sb i D' sb' i' -> keeps L I ino D sb D' sb'.
Proof.
  intros Hgr Hext.
  assert (Hd : forall x k, L x -> x <> ino -> -1 <= k < NSLOTS -> slot D (I x) k <> 0 -> D' (slot D (I x) k) = D (slot D (I x) k)).
  { intros x k Hx Hne Hk Hnz. pose proof (ow_range _ _ _ _ (gr_own _ _ _ _ _ _ _ Hgr) x k Hx Hk) as R.
    rewrite iset_ne in R by done. destruct (R Hnz) as [R1 R2]. apply (e_data _ _ _ _ _ _ Hext); [lia | done |].
    apply (gr_other D sb L I ino i0 i x k (-1) Hgr Hx Hne Hk); [unfold NSLOTS; lia | done]. }
  split.
  - apply (e_geo _ _ _ _ _ _ Hext).
  - apply (e_table _ _ _ _ _ _ Hext).
  - apply (e_imap _ _ _ _ _ _ Hext).
  - intros x k Hx Hne Hk. apply slot_frame. intros Hnz. apply (Hd x (-1)); unfold NSLOTS; lia || done.
  - intros x k Hx Hne Hk Hnz. apply Hd; [done | done | lia | done].
Qed.

(** Writing a data block of the inode. *)
Lemma data_write D sb L I ino i0 i l d : growing D sb L I ino i0 i -> 0 <= l < NSLOTS -> slot D i l <> 0 -> bytes_ok d ->
  let D' := dset (slot D i l) d D in
  growing D' sb L I ino i0 i /\ keeps L I ino D sb D' sb /\ (forall k, -1 <= k < NSLOTS -> slot D' i k = slot D i k) /\
  forall k, 0 <= k < NSLOTS -> k <> l -> slot D i k <> 0 -> D' (slot D i k) = D (slot D i k).
Proof.
  intros Hgr Hl Hnz Hok D'. pose proof (gr_meta _ _ _ _ _ _ _ Hgr) as Hm. pose proof (m_geo _ _ Hm) as Hg.
  pose proof (geo_data _ Hg). pose proof (geo_bmp _ Hg). pose proof (geo_ibmp _ Hg). pose proof (geo_start _ Hg).
  destruct (gr_range _ _ _ _ _ _ _ l Hgr ltac:(lia) Hnz) as [R _].
  assert (Hi : i_indirect i <> 0 -> D' (i_indirect i) = D (i_indirect i)).
  { intros Hz. apply dset_ne. intros E. unfold NSLOTS in *.
    assert (-1 = l); [|lia]. apply (gr_inj _ _ _ _ _ _ _ (-1) l Hgr); [unfold NSLOTS; lia | unfold NSLOTS; lia | exact Hz | exact E]. }
  assert (Hs : forall k, slot D' i k = slot D i k) by (intros k; by apply slot_frame).
  assert (Hi0 : forall k, slot D' i0 k = slot D i0 k).
  { intros k. apply slot_frame. intros Hz. destruct (gr_sub _ _ _ _ _ _ _ Hgr (-1) ltac:(unfold NSLOTS; lia)) as [E|E];
    unfold slot in E; simpl in E; [done|]. rewrite E in *. by apply Hi. }
  assert (Hx : forall x k, L x -> x <> ino -> -1 <= k < NSLOTS -> slot D (I x) k <> 0 -> D' (slot D (I x) k) = D (slot D (I x) k)).
  { intros x k Hxl Hne Hk Hz. apply dset_ne. apply (gr_other D sb L I ino i0 i x k l Hgr Hxl Hne Hk); [lia | done]. }
  assert (Hxs : forall x k, L x -> x <> ino -> -1 <= k < NSLOTS -> slot D' (I x) k = slot D (I x) k).
  { intros x k Hxl Hne Hk. apply slot_frame. intros Hz. apply (Hx x (-1)); unfold NSLOTS; lia || done. }
  assert (Hall : forall x k, L x -> -1 <= k < NSLOTS -> slot D' (iset ino i I x) k = slot D (iset ino i I x) k).
  { intros x k Hxl Hk. unfold iset. destruct (decide _); [done | by apply Hxs]. }
  assert (Hu : forall b, used D' sb b = used D sb b) by (intros b; unfold used, D'; rewrite dset_ne by lia; done).
  split_and!.
  - destruct Hgr as [_ [O1 O2 O3] Hlive Hw0 Hsub]. split.
    + apply (meta_same D); [done | | intros b Hb; apply dset_ne; lia].
      intros b Hb. unfold D', dset. destruct (decide _); [done | by apply (m_bytes _ _ Hm)].
    + split; [done | |].
      * intros x k Hxl Hk. rewrite Hall by done. rewrite Hu. by apply O2.
      * intros x k x' k' Hxl Hxl' Hk Hk'. rewrite !Hall by done. by apply O3.
    + done.
    + done.
    + intros k Hk. rewrite Hi0, Hs. by apply Hsub.
  - split; [apply same_geo_refl | | | done |].
    + intros b Hb. apply dset_ne. lia.
    + apply dset_ne. lia.
    + intros x k Hxl Hne Hk. apply Hx; [done | done | lia].
  - intros k _. apply Hs.
  - intros k Hk Hne Hz. apply dset_ne. intros E. apply Hne. apply (gr_inj _ _ _ _ _ _ _ k l Hgr); [lia | lia | done | done].
Qed.

(** ** Storing *)

(** Bytes of logical block [s] in a file of [size] bytes, and the blocks it takes. *)
Definition clen (s size : Z) : Z := Z.min 512 (size - s * 512).
Definition nblocks (size : Z) : Z := (size + 511) / 512.

Lemma nblocks_lt s size : 0 <= s -> (s < nblocks size <-> s * 512 < size).
Proof.
  intros Hs. unfold nblocks. split; intros H.
  - pose proof (Z.mul_div_le (size + 511) 512). lia.
  - apply Z.lt_le_trans with ((s * 512 + 1 + 511) / 512); [|apply Z.div_le_mono; lia].
    replace (s * 512 + 1 + 511) with ((s + 1) * 512) by lia. rewrite Z.div_mul by lia. lia.
Qed.

Lemma copy_len_eq s size : 0 <= s -> s * 512 < size -> size < 2 ^ 31 -> copy_len s size = clen s size.
Proof.
  intros Hs Hlt Hsz. unfold copy_len, clen, NOXFS_BLKSZ. rewrite (u32_id (s * 512)), (u32_id (s * 512 + 512)), (u32_id (size - s * 512)) by lia.
  destruct (Z.ltb_spec size (s * 512 + 512)); lia.
Qed.

(** The first [s] blocks of a file of [size] bytes hold the bytes of [d]. *)
Definition stored (D : disk) (i : noxfs_inode) (size : Z) (d : list Z) (s : Z) : Prop :=
  forall t, 0 <= t < s -> slot D i t <> 0 /\ slice 0 (clen t size) (D (slot D i t)) = slice (t * 512) (clen t size) d.

Lemma stored_ext D sb L I ino i0 i D' sb' i' size d s : growing D sb L I ino i0 i -> ext D sb i D' sb' i' -> s <= NSLOTS ->
  stored D i size d s -> stored D' i' size d s.
Proof.
  intros Hgr Hext Hs Hst t Ht. destruct (Hst t Ht) as [Hnz E].
  destruct (e_slots _ _ _ _ _ _ Hext t ltac:(lia)) as [Et|(Hz & _)]; [|done]. rewrite Et. split; [done|].
  destruct (gr_range _ _ _ _ _ _ _ t Hgr ltac:(lia) Hnz) as [R1 R2].
  rewrite (e_data _ _ _ _ _ _ Hext); [done | lia | done |]. intros Ei. unfold NSLOTS in *.
  assert (t = -1); [|lia]. apply (gr_inj _ _ _ _ _ _ _ t (-1) Hgr); [unfold NSLOTS; lia | unfold NSLOTS; lia | exact Hnz | exact Ei].
Qed.

Lemma hread_runs (s : nox S) p o m buf Q : n_heap s !! p = Some buf -> 0 <= o -> 0 <= m -> o + m <= Z.of_nat (length buf) ->
  Q (slice o m buf) s -> runs (hread p o m) s Q.
Proof.
  intros Hp Ho Hm Hl HQ. unfold runs, hread. rewrite Hp.
  by rewrite (proj2 (Z.leb_le 0 o)), (proj2 (Z.leb_le 0 m)), (proj2 (Z.leb_le (o + m) _)) by lia.
Qed.

Lemma store_loop_runs n s c sb fl cnt r h D L I ino i0 i p buf size Q :
  cok c ∅ D -> growing D sb L I ino i0 i -> h !! p = Some buf -> bytes_ok buf -> 0 <= size <= Z.of_nat (length buf) ->
  size <= NSLOTS * 512 -> 0 <= s -> s + Z.of_nat n = nblocks size -> stored D i size buf s ->
  (forall c' D' sb' i' st, st <> OS_OK -> sb_free_blocks sb < Z.of_nat n + need i -> cok c' ∅ D' ->
     growing D' sb' L I ino i0 i' -> keeps L I ino D sb D' sb' -> Q (st, i') (mkNox c' sb' fl cnt r h)) ->
  (forall c' D' sb' i', cok c' ∅ D' -> growing D' sb' L I ino i0 i' -> keeps L I ino D sb D' sb' -> same_attrs i i' ->
     stored D' i' size buf (nblocks size) -> Q (OS_OK, i') (mkNox c' sb' fl cnt r h)) ->
  runs (store_loop n s i p size) (mkNox c sb fl cnt r h) Q.
Proof.
  revert s c sb D i. induction n as [|n IH]; intros s c sb D i Hc Hgr Hp Hok Hsz Hmax Hs Hn Hst Hno Hyes.
  { apply runs_ret, (Hyes c D sb i); [done | done | apply keeps_refl | done |]. by replace (nblocks size) with s by lia. }
  assert (Hlt : s * 512 < size) by (apply nblocks_lt; lia). unfold NSLOTS in Hmax.
  assert (Hneed : forall i, 0 <= need i <= 1) by (intros j; unfold need; destruct (_ =? _); lia).
  cbn [store_loop]. apply runs_bind. eapply iget_alloc_runs; [done | done | unfold NSLOTS; lia | |].
  { intros c1 D1 sb1 i1 Hf Hc1 Hgr1 Hext1. rewrite Z.eqb_refl. apply runs_ret, (Hno c1 D1 sb1 i1); [done | | done | done |].
    - pose proof (Hneed i). lia.
    - by eapply ext_keeps. }
  intros c1 D1 sb1 i1 Hnz Hc1 Hgr1 Hext1 Hf1. rewrite (proj2 (Z.eqb_neq _ _) Hnz).
  pose proof (m_geo _ _ (gr_meta _ _ _ _ _ _ _ Hgr1)) as Hg1. pose proof (geo_blocks _ Hg1). pose proof (geo_data _ Hg1).
  destruct (gr_range _ _ _ _ _ _ _ s Hgr1 ltac:(unfold NSLOTS; lia) Hnz) as [R1 _].
  apply runs_bind. eapply bread_runs; [done | by eapply data_readable |]. intros bp c2 Hc2 Hbp.
  rewrite copy_len_eq by lia. change NOXFS_BLKSZ with 512. rewrite u32_id by lia.
  pose proof (cok_length _ _ _ (slot D1 i1 s) Hc1 ltac:(lia)) as Hlen.
  assert (Hcl : 0 <= clen s size <= 512 /\ s * 512 + clen s size <= size) by (unfold clen; lia).
  apply runs_bind. apply (hread_runs _ p _ _ buf); [done | lia | lia | lia |].
  assert (Hll : length (slice (s * 512) (clen s size) buf) = Z.to_nat (clen s size)) by (apply length_slice; lia).
  set (lo := slice (s * 512) (clen s size) buf) in *.
  apply runs_bind. eapply bdata_runs; [done | apply lookup_insert_eq |].
  apply runs_bind. eapply bstore_runs; [done | apply lookup_insert_eq | rewrite length_splice; lia |]. intros c3 Hc3.
  apply runs_bind. eapply brelse_top; [done | done |]. intros c4 Hc4.
  destruct (data_write D1 sb1 L I ino i0 i1 s (splice 0 lo (D1 (slot D1 i1 s))) Hgr1 ltac:(unfold NSLOTS; lia) Hnz)
    as (Hgr2 & Hk2 & Hs2 & Hd2).
  { apply bytes_ok_splice; [apply (m_bytes _ _ (gr_meta _ _ _ _ _ _ _ Hgr1)); lia | by apply bytes_ok_slice]. }
  set (D2 := dset (slot D1 i1 s) _ D1) in *.
  assert (Hk12 : keeps L I ino D sb D2 sb1) by (eapply keeps_trans; [by eapply ext_keeps | done]).
  apply (IH (s + 1) c4 sb1 D2 i1); try done; [lia | lia | | |].
  - assert (Hs' : s <= NSLOTS) by (unfold NSLOTS; lia).
    pose proof (stored_ext _ _ _ _ _ _ _ _ _ _ _ _ _ Hgr Hext1 Hs' Hst) as Hst1.
    intros t Ht. rewrite Hs2 by (unfold NSLOTS; lia). destruct (decide (t = s)) as [->|Hts].
    + split; [done|]. unfold D2. rewrite dset_eq.
      pose proof (slice_splice_same 0 lo (D1 (slot D1 i1 s)) ltac:(lia) ltac:(lia)) as Hx.
      by rewrite Hll, Z2Nat.id in Hx by lia.
    + destruct (Hst1 t ltac:(lia)) as [Hz E]. split; [done|]. rewrite Hd2; [done | unfold NSLOTS; lia | done | done].
  - intros c' D' sb' i' st Hst' Hf Hc' Hgr' Hk'. apply (Hno c' D' sb' i' st); try done; [lia|]. by eapply keeps_trans.
  - intros c' D' sb' i' Hc' Hgr' Hk' Hat Hst'. apply (Hyes c' D' sb' i'); try done; [by eapply keeps_trans|].
    pose proof (e_attrs _ _ _ _ _ _ Hext1) as Hat1. unfold same_attrs in *. intuition congruence.
Qed.

(** ** The file system invariant *)

(** [L] holds of the inodes in use. *)
Record fs_ok (D : disk) (sb : noxfs_sb) (L : Z -> Prop) : Prop := {
  f_meta : meta (limit := limit) D sb;
  f_live : forall ino, L ino -> 0 <= ino < sb_inode_count sb;
  f_own : owned D sb L (inode_at D sb)
}.

(** File [x] has the same inode, pointers and data. *)
Definition same_file (D : disk) (sb : noxfs_sb) (D' : disk) (sb' : noxfs_sb) (x : Z) : Prop :=
  inode_at D' sb' x = inode_at D sb x /\
  forall k, -1 <= k < NSLOTS -> slot D' (inode_at D sb x) k = slot D (inode_at D sb x) k /\
    (0 <= k -> slot D (inode_at D sb x) k <> 0 -> D' (slot D (inode_at D sb x) k) = D (slot D (inode_at D sb x) k)).

(** What an operation on file [ino] leaves alone. *)
Record others (L : Z -> Prop) (ino : Z) (D : disk) (sb : noxfs_sb) (D' : disk) (sb' : noxfs_sb) : Prop := {
  o_geo : same_geo sb sb';
  o_imap : D' (sb_ino_bmp sb) = D (sb_ino_bmp sb);
  o_files : forall x, L x -> x <> ino -> same_file D sb D' sb' x
}.

Lemma inode_at_table D D' sb sb' ino : geo (limit := limit) sb -> same_geo sb sb' -> 0 <= ino < sb_inode_count sb ->
  (forall b, sb_ino_tbl sb <= b < sb_data_start sb -> D' b = D b) -> inode_at D' sb' ino = inode_at D sb ino.
Proof.
  intros Hg Hs Hi Hb. pose proof (ino_blk_range sb ino Hg Hi) as R. pose proof (same_geo_fields _ _ Hs) as (_ & _ & _ & _ & _ & E & _).
  unfold inode_at. assert (ino_blk sb' ino = ino_blk sb ino) as -> by (unfold ino_blk; by rewrite E). by rewrite Hb.
Qed.

Lemma keeps_others D sb L ino D' sb' : fs_ok D sb L -> keeps L (inode_at D sb) ino D sb D' sb' -> others L ino D sb D' sb'.
Proof.
  intros [Hm HL Ho] [G T P K1 K2]. split; [done | done |]. intros x Hx Hne. split.
  - apply inode_at_table; [apply Hm | done | by apply HL | done].
  - intros k Hk. split; [by apply K1|]. intros Hk0. apply K2; [done | done | lia].
Qed.

(** Starting to extend a live inode, with a new size. *)
Lemma grow_start c D sb L ino size : cok c ∅ D -> fs_ok D sb L -> L ino -> 0 <= size < 2 ^ 32 ->
  growing D sb L (inode_at D sb) ino (inode_at D sb ino) (set_size size (inode_at D sb ino)).
Proof.
  intros Hc [Hm HL Ho] Hino Hsz. assert (Hw : inode_wf (inode_at D sb ino)) by (eapply inode_at_wf; [done | done | by apply HL]).
  split; [done | | done | done | by intros k _; right].
  apply owned_sub; [done | by destruct Hw; split | by intros k _; right].
Qed.

(** Ending an operation without writing the inode back. *)
Lemma grow_abort D sb L ino D' sb' i' : fs_ok D sb L ->
  growing D' sb' L (inode_at D sb) ino (inode_at D sb ino) i' -> keeps L (inode_at D sb) ino D sb D' sb' ->
  fs_ok D' sb' L /\ others L ino D sb D' sb' /\ forall x, L x -> inode_at D' sb' x = inode_at D sb x.
Proof.
  intros Hf Hgr Hk. pose proof (k_geo _ _ _ _ _ _ _ Hk) as Hg. pose proof (same_geo_fields _ _ Hg) as (_ & _ & Ec & _).
  assert (Hat : forall x, L x -> inode_at D' sb' x = inode_at D sb x).
  { intros x Hx. apply inode_at_table; [apply Hf | done | by apply (f_live _ _ _ Hf) | by apply Hk]. }
  split_and!; [| by apply keeps_others | done]. split.
  - apply Hgr.
  - intros x Hx. rewrite Ec. by apply (f_live _ _ _ Hf).
  - pose proof (owned_sub D' sb' L _ ino (inode_at D sb ino) (gr_own _ _ _ _ _ _ _ Hgr) (gr_wf0 _ _ _ _ _ _ _ Hgr)) as Ho.
    rewrite iset_eq in Ho. specialize (Ho (gr_sub _ _ _ _ _ _ _ Hgr)). destruct Ho as [O1 O2 O3].
    assert (Hi : forall x, L x -> iset ino (inode_at D sb ino) (iset ino i' (inode_at D sb)) x = inode_at D' sb' x).
    { intros x Hx. rewrite Hat by done. unfold iset. by destruct (decide _) as [->|]. }
    split.
    + intros x Hx. rewrite <- Hi by done. by apply O1.
    + intros x k Hx. rewrite <- Hi by done. by apply O2.
    + intros x k x' k' Hx Hx'. rewrite <- !Hi by done. by apply O3.
Qed.

(** Writing the inode back. *)
Lemma grow_commit c D sb L ino D' sb' i' : fs_ok D sb L -> cok c ∅ D' ->
  growing D' sb' L (inode_at D sb) ino (inode_at D sb ino) i' -> keeps L (inode_at D sb) ino D sb D' sb' ->
  let D2 := put_inode sb' ino i' D' in
  fs_ok D2 sb' L /\ others L ino D sb D2 sb' /\ inode_at D2 sb' ino = i' /\
  forall b, sb_data_start sb <= b -> D2 b = D' b.
Proof.
  intros Hf Hc Hgr Hk D2. pose proof (k_geo _ _ _ _ _ _ _ Hk) as Hg.
  pose proof (same_geo_fields _ _ Hg) as (Ed & _ & Ec & Eb & Ei & Et & _).
  pose proof (gr_live _ _ _ _ _ _ _ Hgr) as Hino. pose proof (f_live _ _ _ Hf ino Hino) as Hr.
  pose proof (gr_meta _ _ _ _ _ _ _ Hgr) as Hm'. pose proof (m_geo _ _ Hm') as Hg'. pose proof (geo_ibmp _ Hg'). pose proof (geo_bmp _ Hg').
  destruct (put_inode_facts D' sb' ino i' (fun b => cok_length _ _ _ b Hc) Hm' (gr_wf _ _ _ _ _ _ _ Hgr) ltac:(lia))
    as (_ & Hm2 & Hsd & Hat & Hat'). fold D2 in Hm2, Hsd, Hat, Hat'.
  assert (Hdata : forall b, sb_data_start sb <= b -> D2 b = D' b) by (intros b Hb; apply Hsd; lia).
  assert (Hti : forall x, L x -> x <> ino -> inode_at D2 sb' x = inode_at D sb x).
  { intros x Hx Hne. pose proof (f_live _ _ _ Hf x Hx). rewrite Hat' by (lia || done).
    apply inode_at_table; [apply Hf | done | lia | by apply Hk]. }
  assert (Hi : forall x, L x -> inode_at D2 sb' x = iset ino i' (inode_at D sb) x).
  { intros x Hx. unfold iset. destruct (decide _) as [->|]; [done | by apply Hti]. }
  assert (Hslot : forall x k, L x -> slot D2 (iset ino i' (inode_at D sb) x) k = slot D' (iset ino i' (inode_at D sb) x) k).
  { intros x k Hx. apply slot_frame. intros Hz. apply Hdata. rewrite <- Ed.
    apply (ow_range _ _ _ _ (gr_own _ _ _ _ _ _ _ Hgr) x (-1) Hx ltac:(unfold NSLOTS; lia) Hz). }
  assert (Hu : forall b, used D2 sb' b = used D' sb' b) by (intros b; unfold used; rewrite Hsd; [done | lia]).
  split_and!; [split | split | done | done].
  - done.
  - intros x Hx. rewrite Ec. by apply (f_live _ _ _ Hf).
  - destruct (gr_own _ _ _ _ _ _ _ Hgr) as [O1 O2 O3]. split.
    + intros x Hx. rewrite Hi by done. by apply O1.
    + intros x k Hx Hk'. rewrite Hi, Hslot, Hu by done. by apply O2.
    + intros x k x' k' Hx Hx' Hk' Hk''. rewrite !Hi, !Hslot by done. by apply O3.
  - done.
  - rewrite <- Ei. rewrite Hsd by lia. rewrite Ei. apply (k_imap _ _ _ _ _ _ _ Hk).
  - intros x Hx Hne. split; [by apply Hti|].
    assert (Hsx : forall k, slot D2 (inode_at D sb x) k = slot D' (inode_at D sb x) k).
    { intros k. pose proof (Hslot x k Hx) as E. by rewrite iset_ne in E. }
    intros k Hkk. rewrite Hsx. split; [by apply (k_slots _ _ _ _ _ _ _ Hk)|]. intros Hk0 Hz.
    rewrite Hdata; [apply (k_data _ _ _ _ _ _ _ Hk); [done | done | lia | done]|].
    pose proof (ow_range _ _ _ _ (f_own _ _ _ Hf) x k Hx Hkk Hz) as [R _]. lia.
Qed.

Section Contents.
Context (ata_read : Z -> S -> os_status * list Z * S).

Lemma store_data_runs c sb fl cnt r h D L ino p buf size Q :
  cok c ∅ D -> fs_ok D sb L -> L ino -> h !! p = Some buf -> bytes_ok buf -> 0 <= size <= Z.of_nat (length buf) ->
  size <= NSLOTS * 512 ->
  (forall c' D' sb' st, st <> OS_OK -> sb_free_blocks sb < nblocks size + need (inode_at D sb ino) -> cok c' ∅ D' ->
     fs_ok D' sb' L -> others L ino D sb D' sb' -> inode_at D' sb' ino = inode_at D sb ino ->
     Q st (mkNox c' sb' fl cnt r h)) ->
  (forall c' D' sb', cok c' ∅ D' -> fs_ok D' sb' L -> others L ino D sb D' sb' ->
     same_attrs (set_size size (inode_at D sb ino)) (inode_at D' sb' ino) ->
     stored D' (inode_at D' sb' ino) size buf (nblocks size) -> Q OS_OK (mkNox c' sb' fl cnt r h)) ->
  runs (store_data ata_read ino p size) (mkNox c sb fl cnt r h) Q.
Proof.
  intros Hc Hf HL Hp Hok Hsz Hmax Hno Hyes. pose proof (f_meta _ _ _ Hf) as Hm. pose proof (f_live _ _ _ Hf ino HL) as Hino.
  unfold NSLOTS in Hmax. unfold store_data. apply runs_bind. eapply iread_runs; [done | done | by eapply cok_hold | done |].
  intros c1 Hc1. change (is_ok OS_OK) with true. cbn [negb].
  replace (if size =? 0 then 0 else u32 (size + NOXFS_BLKSZ - 1) / NOXFS_BLKSZ) with (nblocks size).
  2:{ unfold nblocks, NOXFS_BLKSZ. destruct (Z.eqb_spec size 0) as [->|]; [done|]. rewrite u32_id by lia. f_equal; lia. }
  assert (0 <= nblocks size) by (apply Z.div_pos; lia).
  pose proof (grow_start c1 D sb L ino size Hc1 Hf HL ltac:(lia)) as Hgr.
  apply runs_bind. eapply store_loop_runs; [done | done | done | done | lia | unfold NSLOTS; lia | lia | lia | | |].
  - intros t Ht. lia.
  - intros c2 D2 sb2 i2 st Hst Hfr Hc2 Hgr2 Hk2. rewrite (is_ok_ne st) by done. cbn [negb]. apply runs_ret.
    destruct (grow_abort D sb L ino D2 sb2 i2 Hf Hgr2 Hk2) as (Hf2 & Ho2 & Hat2).
    apply (Hno c2 D2 sb2 st); try done; [|by apply Hat2]. unfold need in *. cbn [set_size i_indirect] in Hfr. lia.
  - intros c2 D2 sb2 i2 Hc2 Hgr2 Hk2 Hat Hst. change (is_ok OS_OK) with true. cbn [negb].
    destruct (grow_commit c2 D sb L ino D2 sb2 i2 Hf Hc2 Hgr2 Hk2) as (Hf3 & Ho3 & Hi3 & Hd3).
    pose proof (same_geo_fields _ _ (k_geo _ _ _ _ _ _ _ Hk2)) as (Ed & _ & Ec & _).
    apply runs_bind. eapply iwrite_runs; [done | apply Hgr2 | by eapply cok_hold | by eapply gr_wf | lia |]. intros c3 Hc3.
    change (is_ok OS_OK) with true. cbn [negb]. apply runs_ret.
    apply (Hyes c3 _ sb2 Hc3 Hf3 Ho3); rewrite Hi3; [done|]. intros t Ht. destruct (Hst t Ht) as [Hz E].
    assert (Hts : -1 <= t < NSLOTS) by (assert (t * 512 < size) by (apply nblocks_lt; lia); unfold NSLOTS; lia).
    assert (Hr : forall k, -1 <= k < NSLOTS -> slot D2 i2 k <> 0 -> sb_data_start sb <= slot D2 i2 k).
    { intros k Hk Hnz. rewrite <- Ed. apply (gr_range _ _ _ _ _ _ _ k Hgr2 Hk Hnz). }
    rewrite (slot_frame D2) by (intros Hnz; apply Hd3, (Hr (-1)); [unfold NSLOTS; lia | done]).
    split; [done|]. rewrite Hd3; [done | by apply Hr].
Qed.

Lemma hwrite_runs c sb fl cnt r h p o l buf Q : h !! p = Some buf -> 0 <= o -> o + Z.of_nat (length l) <= Z.of_nat (length buf) ->
  Q tt (mkNox (S := S) c sb fl cnt r (<[p := splice o l buf]> h)) -> runs (hwrite p o l) (mkNox c sb fl cnt r h) Q.
Proof.
  intros Hp Ho Hl HQ. unfold runs, hwrite. cbn [n_heap]. rewrite Hp.
  by rewrite (proj2 (Z.leb_le 0 o)), (proj2 (Z.leb_le (o + _) _)) by lia.
Qed.

(** A prefix of a buffer extended by the next block. *)
Lemma slice_prefix_extend (buf d : list Z) s m : 0 <= s -> 0 <= m -> s + m <= Z.of_nat (length buf) -> s + m <= Z.of_nat (length d) ->
  slice 0 s buf = slice 0 s d -> slice 0 (s + m) (splice s (slice s m d) buf) = slice 0 (s + m) d.
Proof.
  intros Hs Hm Hb Hd E. assert (Hl : length (slice s m d) = Z.to_nat m) by (apply length_slice; lia).
  apply list_eq. intros j. rewrite !lookup_slice by lia. destruct (decide _) as [Hj|]; [|done].
  rewrite lookup_splice by lia. rewrite Hl. cbn [Z.to_nat Nat.add]. destruct (decide _) as [Hr|Hr].
  - rewrite lookup_slice by lia. rewrite decide_True by lia. f_equal. lia.
  - apply (f_equal (fun l => l !! j)) in E. rewrite !lookup_slice in E by lia. rewrite !decide_True in E by lia. exact E.
Qed.

(** What a file must look like to be read: every block present, and within the disk. *)
Definition file_holds (D : disk) (i : noxfs_inode) (d : list Z) : Prop :=
  i_size i <= NSLOTS * 512 /\ i_size i <= Z.of_nat (length d) /\ stored D i (i_size i) d (nblocks (i_size i)).

Lemma load_loop_runs n s c sb fl cnt r h D i p buf d Q :
  cok c ∅ D -> file_holds D i d -> 0 <= i_size i -> i_size i <= Z.of_nat (length buf) ->
  (forall k, -1 <= k < NSLOTS -> slot D i k <> 0 -> 0 <= slot D i k < limit) ->
  0 <= s <= nblocks (i_size i) -> nblocks (i_size i) - s < Z.of_nat n -> h !! p = Some buf ->
  slice 0 (Z.min (s * 512) (i_size i)) buf = slice 0 (Z.min (s * 512) (i_size i)) d ->
  (forall c' buf', cok c' ∅ D -> length buf' = length buf -> slice 0 (i_size i) buf' = slice 0 (i_size i) d ->
     Q p (mkNox c' sb fl cnt r (<[p := buf']> h))) ->
  runs (load_loop ata_read n s i p) (mkNox c sb fl cnt r h) Q.
Proof.
  revert s c buf h. induction n as [|n IH]; intros s c buf h Hc Hh Hsz Hbuf Hr Hs Hn Hp Hpre HQ; [lia|].
  pose proof Hh as (Hmax & Hd & Hst). unfold NSLOTS in Hmax. cbn [load_loop]. change NOXFS_BLKSZ with 512.
  assert (Hs512 : s * 512 < 2 ^ 31).
  { assert (nblocks (i_size i) < 139); [|lia]. apply Z.div_lt_upper_bound; lia. }
  rewrite u32_id by lia. destruct (Z.ltb_spec (s * 512) (i_size i)) as [Hlt|Hge].
  2:{ apply runs_ret. rewrite Z.min_r in Hpre by lia. rewrite <- (insert_id h p buf) by done. by apply HQ. }
  apply (proj2 (nblocks_lt s _ ltac:(lia))) in Hlt as Hlt'. destruct (Hst s ltac:(lia)) as [Hnz Es].
  apply runs_bind. eapply iget_lookup_runs; [done | unfold NSLOTS; lia | |].
  { intros Hz. apply (Hr (-1)); [unfold NSLOTS; lia | done]. }
  intros c1 Hc1. rewrite <- slot_ge0 by lia. rewrite (proj2 (Z.eqb_neq _ _) Hnz).
  pose proof (Hr s ltac:(unfold NSLOTS; lia) Hnz) as Hrs.
  apply runs_bind. eapply bread_runs; [done | split; [rewrite map_size_empty; lia|]; split; [done|]; intros k; by rewrite lookup_empty |].
  intros bp c2 Hc2 Hbp. apply runs_bind. eapply bdata_runs; [done | apply lookup_insert_eq |].
  rewrite copy_len_eq, Es by lia. assert (Hcl : 0 <= clen s (i_size i) /\ s * 512 + clen s (i_size i) <= i_size i) by (unfold clen; lia).
  assert (Hll : length (slice (s * 512) (clen s (i_size i)) d) = Z.to_nat (clen s (i_size i))) by (apply length_slice; lia).
  apply runs_bind. eapply hwrite_runs; [done | lia | lia |].
  apply runs_bind. eapply brelse_top; [done | done |]. intros c3 Hc3.
  set (buf1 := splice (s * 512) (slice (s * 512) (clen s (i_size i)) d) buf).
  assert (Hb1 : length buf1 = length buf) by (apply length_splice; lia).
  apply (IH (s + 1) c3 buf1); try done; [lia | lia | lia | apply lookup_insert_eq | |].
  - rewrite Z.min_l in Hpre by lia. replace (Z.min ((s + 1) * 512) (i_size i)) with (s * 512 + clen s (i_size i)) by (unfold clen; lia).
    apply slice_prefix_extend; [lia | lia | lia | lia | done].
  - intros c' buf' Hc' Hlb Hsl. rewrite insert_insert_eq. apply HQ; [done | lia | done].
Qed.

(** ** Loading *)

Context (pick : gmap Z (list Z) -> Z -> option (Z * list Z)) `{!ObjHeap pick}.

(** The buffer [_load_data] asks for. *)
Definition load_size (size : Z) : Z := if size =? 0 then 1 else round_blk size.

Lemma round_blk_eq size : 0 < size < 2 ^ 31 -> round_blk size = nblocks size * 512.
Proof.
  intros H. unfold round_blk, NOXFS_BLKSZ. rewrite u32_id by lia. change (512 - 1) with (Z.ones 9).
  rewrite land_mask32 by lia. change (2 ^ 9) with 512. unfold nblocks.
  replace (size + 512 - 1) with (size + 511) by lia. pose proof (Z.div_mod (size + 511) 512). lia.
Qed.

Lemma load_size_ge size : 0 <= size < 2 ^ 31 -> size <= load_size size.
Proof.
  intros H. unfold load_size. destruct (Z.eqb_spec size 0); [lia|]. rewrite round_blk_eq by lia. unfold nblocks.
  pose proof (Z.div_mod (size + 511) 512). pose proof (Z.mod_pos_bound (size + 511) 512). lia.
Qed.

Lemma kmalloc_runs c sb fl cnt r h n p d Q : pick h n = Some (p, d) ->
  Q p (mkNox (S := S) c sb fl cnt r (<[p := d]> h)) -> runs (kmalloc pick n) (mkNox c sb fl cnt r h) Q.
Proof. intros Hp HQ. unfold runs, kmalloc. cbn [n_heap]. by rewrite Hp. Qed.

Lemma kfree_runs c sb fl cnt r h p Q : Q tt (mkNox (S := S) c sb fl cnt r (delete p h)) -> runs (kfree p) (mkNox c sb fl cnt r h) Q.
Proof. done. Qed.

Lemma load_data_runs c sb fl cnt r h D L ino d p d0 Q : cok c ∅ D -> fs_ok D sb L -> L ino ->
  file_holds D (inode_at D sb ino) d -> pick h (load_size (i_size (inode_at D sb ino))) = Some (p, d0) ->
  (forall c' buf, cok c' ∅ D -> p <> 0 -> h !! p = None -> length buf = Z.to_nat (load_size (i_size (inode_at D sb ino))) ->
     slice 0 (i_size (inode_at D sb ino)) buf = slice 0 (i_size (inode_at D sb ino)) d ->
     Q (p, Some (i_size (inode_at D sb ino))) (mkNox c' sb fl cnt r (<[p := buf]> h))) ->
  runs (load_data pick ata_read ino) (mkNox c sb fl cnt r h) Q.
Proof.
  intros Hc Hf HL Hh Hp HQ. pose proof (f_meta _ _ _ Hf) as Hm. pose proof (f_live _ _ _ Hf ino HL) as Hino.
  pose proof (iw_size _ (inode_at_wf _ _ _ _ _ Hc Hm Hino)) as Hsz. destruct (pick_fresh _ _ _ _ Hp) as (Hp0 & Hph & Hlen).
  pose proof Hh as (Hmax & _). unfold NSLOTS in Hmax.
  unfold load_data. apply runs_bind. eapply iread_runs; [done | done | by eapply cok_hold | done |]. intros c1 Hc1.
  change (is_ok OS_OK) with true. cbn [negb]. set (i := inode_at D sb ino) in *.
  pose proof (load_size_ge (i_size i) ltac:(lia)) as Hge. unfold load_size in *.
  revert Hge Hlen Hp HQ. destruct (Z.eqb_spec (i_size i) 0) as [Ez|Ez]; intros Hge Hlen Hp HQ.
  - apply runs_bind. eapply kmalloc_runs; [done|]. rewrite (proj2 (Z.eqb_neq p 0)) by done.
    apply runs_bind. eapply hwrite_runs; [apply lookup_insert_eq | lia | simpl; lia |]. apply runs_ret. rewrite insert_insert_eq.
    apply HQ; [done | done | done | rewrite length_splice; simpl; lia |]. rewrite Ez. done.
  - apply runs_bind. eapply kmalloc_runs; [done|]. rewrite (proj2 (Z.eqb_neq p 0)) by done.
    assert (0 <= nblocks (i_size i)) by (apply Z.div_pos; lia).
    assert (nblocks (i_size i) <= i_size i / 512 + 1).
    { unfold nblocks. replace (i_size i / 512 + 1) with ((i_size i + 1 * 512) / 512) by (rewrite Z.div_add; lia). apply Z.div_le_mono; lia. }
    apply runs_bind. eapply (load_loop_runs _ 0 c1 sb fl cnt r _ D i p d0 d); try done; [lia | lia | | | apply lookup_insert_eq | |].
    + intros k Hk Hnz. pose proof (geo_blocks _ (m_geo _ _ Hm)). pose proof (geo_data _ (m_geo _ _ Hm)).
      destruct (ow_range _ _ _ _ (f_own _ _ _ Hf) ino k HL Hk Hnz) as [R _]. fold i in R. lia.
    + change NOXFS_BLKSZ with 512. lia.
    + by rewrite Z.min_l by lia.
    + intros c2 buf Hc2 Hb Hs. apply runs_ret. rewrite insert_insert_eq. apply HQ; [done | done | done | lia | done].
Qed.

Lemma same_file_holds D sb D' sb' x d : same_file D sb D' sb' x -> file_holds D (inode_at D sb x) d -> file_holds D' (inode_at D' sb' x) d.
Proof.
  intros [Hi Hk] (H1 & H2 & H3). rewrite Hi. split_and!; [done | done |]. intros t Ht. destruct (H3 t Ht) as [Hnz E].
  unfold NSLOTS in *. assert (t * 512 < i_size (inode_at D sb x)) by (apply nblocks_lt; lia).
  destruct (Hk t ltac:(lia)) as [Es Ed]. rewrite Es. split; [done|]. rewrite Ed by (lia || done). done.
Qed.

Lemma stored_file_holds D i size d : i_size i = size -> size <= NSLOTS * 512 -> size <= Z.of_nat (length d) ->
  stored D i size d (nblocks size) -> file_holds D i d.
Proof. intros <- H1 H2 H3. done. Qed.

(** C5: file contents survive the round trip to the disk.  With a free block for
    each block of the file and one for the indirect block, [_store_data] of a
    buffer into a live inode succeeds, [_load_data] of the inode then returns a
    buffer with exactly those bytes, the file system invariant is kept, and
    every other file keeps its contents. *)
Theorem store_load_roundtrip c sb fl cnt r h D L ino p buf size q d0 :
  cok c ∅ D -> fs_ok D sb L -> L ino -> h !! p = Some buf -> bytes_ok buf ->
  0 <= size <= Z.of_nat (length buf) -> size <= NSLOTS * 512 -> nblocks size + 1 <= sb_free_blocks sb ->
  pick h (load_size size) = Some (q, d0) ->
  runs (let* st := store_data ata_read ino p size in let* ld := load_data pick ata_read ino in ret (st, ld))
    (mkNox c sb fl cnt r h)
    (fun res s' => res = (OS_OK, (q, Some size)) /\
       (exists buf', n_heap s' = <[q := buf']> h /\ slice 0 size buf' = slice 0 size buf) /\
       exists D', cok (n_bc s') ∅ D' /\ fs_ok D' (n_sb s') L /\
         forall x d, L x -> x <> ino -> file_holds D (inode_at D sb x) d -> file_holds D' (inode_at D' (n_sb s') x) d).
Proof.
  intros Hc Hf HL Hp Hok Hsz Hmax Hfree Hq. apply runs_bind. eapply store_data_runs; try done.
  - intros c1 D1 sb1 st Hst Hlt. unfold need in Hlt. destruct (i_indirect _ =? 0); lia.
  - intros c1 D1 sb1 Hc1 Hf1 Ho1 Hat Hst. apply runs_bind.
    assert (Esz : i_size (inode_at D1 sb1 ino) = size) by (unfold same_attrs in Hat; simpl in Hat; tauto).
    eapply (load_data_runs _ _ _ _ _ _ D1 L ino buf q d0); try done.
    + eapply stored_file_holds; try done; lia.
    + by rewrite Esz.
    + rewrite Esz. intros c2 buf' Hc2 Hq0 Hqh Hlen Hsl. apply runs_ret. split; [done|]. split; [by exists buf'|].
      exists D1. split_and!; [done | done |]. intros x d Hx Hne Hd. by apply (same_file_holds D sb), Hd; apply Ho1.
Qed.
End Contents.
End Grow.

End NoxFiles.
