(* ===== verification/NoxDemo.v ===== *)
(** * NoxFS on a RAM disk

    A small formatted volume, a decision procedure for the file system
    invariant, and the instances of the theorems on that volume. *)
From S2P Require Import Prelude Bytes Block Buffer NoxFS NoxDisk NoxFiles.
Import NoxFS NoxDisk NoxFiles.

Module NoxDemo.

Abbreviation io := (Block.blk Block.Ram.store * Block.Ram.store)%type.
Abbreviation cache := (Buffer.st io).

#[export] Instance demo_cache : BufferCache cache 64 := @Buffer.buffer_cache io _ 64 ltac:(lia) Buffer.ram_disk_io.

(** 64 blocks, 16 inodes: superblock, bitmaps, two blocks of inodes, the root
    directory (inode 0, block 5, empty) and an empty file (inode 1). *)
Definition sb0 : noxfs_sb := mkSb NOXFS_MAGIC 64 16 58 14 1 2 3 5 0 (replicate 472 0).
Definition pad512 (l : list Z) : list Z := l ++ replicate (512 - length l) 0.
Definition root_inode : noxfs_inode := mkInode NOXFS_MODE_DIR 0 0 0 (5 :: replicate 9 0) 0 1 (replicate 8 0).
Definition file_inode : noxfs_inode := mkInode NOXFS_MODE_FILE 0 0 0 (replicate 10 0) 0 1 (replicate 8 0).
Definition image : gmap Z (list Z) :=
  <[0 := pad512 (sb_bytes sb0)]> (<[1 := pad512 [63]]> (<[2 := pad512 [3]]>
    (<[3 := pad512 (inode_bytes root_inode ++ inode_bytes file_inode)]> ∅))).

Definition pick (h : gmap Z (list Z)) (n : Z) : option (Z * list Z) :=
  Some (map_fold (fun k _ a => Z.max k a) 0 h + 1, replicate (Z.to_nat n) 170).
Definition ata_read (b : Z) (s : cache) : os_status * list Z * cache := (OS_ERR_IO, [], s).

Definition cache0 : cache := Buffer.buf_init (Block.Ram.layer, image).
Definition s0 : nox cache := mkNox cache0 sb0 (replicate 24 blank_file) 0 true ∅.
Definition D0 : disk := Block.Ram.read_sector image.

Lemma max_key (h : gmap Z (list Z)) k d : h !! k = Some d -> k <= map_fold (fun k _ a => Z.max k a) 0 h.
Proof.
  revert k d. apply (map_fold_weak_ind (fun r (h : gmap Z (list Z)) => forall k d, h !! k = Some d -> k <= r)); [done|].
  intros i x m r _ IH k d Hk. apply lookup_insert_Some in Hk as [[-> _]|[_ Hk]]; [lia|].
  pose proof (IH _ _ Hk). lia.
Qed.

Lemma max_key_nonneg (h : gmap Z (list Z)) : 0 <= map_fold (fun k _ a => Z.max k a) 0 h.
Proof. apply (map_fold_weak_ind (fun r (_ : gmap Z (list Z)) => 0 <= r)); [done|]. intros. lia. Qed.

#[export] Instance demo_heap : ObjHeap pick.
Proof.
  intros h n p d E. unfold pick in E. injection E as <- <-. pose proof (max_key_nonneg h). split_and!.
  - lia.
  - destruct (h !! _) as [x|] eqn:E; [|done]. apply max_key in E. lia.
  - apply length_replicate.
Qed.

Lemma cok0 : cok cache0 ∅ D0.
Proof.
  destruct (Buffer.init_inv (limit := 64) (DiskIO0 := Buffer.ram_disk_io) ltac:(lia) (Block.Ram.layer, image)) as [Hi Hv]; [|split; [exact Hi | exact Hv]].
  apply Buffer.ram_ok.
Qed.

(** ** Deciding the invariant *)

Definition between (a x b : Z) : bool := (a <=? x) && (x <? b).

Definition geo_check (limit : Z) (sb : noxfs_sb) : bool :=
  (sb_block_count sb <=? limit) && (sb_block_count sb <=? 4096) && (0 <? sb_data_start sb) &&
  (sb_data_start sb <=? sb_block_count sb) && (0 <? sb_blk_bmp sb) && (sb_blk_bmp sb <? sb_ino_tbl sb) &&
  (0 <? sb_ino_bmp sb) && (sb_ino_bmp sb <? sb_ino_tbl sb) && negb (sb_blk_bmp sb =? sb_ino_bmp sb) &&
  (sb_ino_tbl sb + tbl_blocks sb <=? sb_data_start sb) && (0 <=? sb_inode_count sb) && (sb_inode_count sb <=? 4096) &&
  bool_decide (length (sb_pad sb) = 472%nat) && forallb (fun x => between 0 x 256) (sb_pad sb).

Definition meta_check (limit : Z) (D : disk) (sb : noxfs_sb) : bool :=
  geo_check limit sb && forallb (fun b => forallb (fun x => between 0 x 256) (D b)) (seqZ 0 limit) &&
  forallb (used D sb) (seqZ 0 (sb_data_start sb)) &&
  (sb_free_blocks sb =? countb (fun b => negb (used D sb b)) (Z.to_nat (sb_block_count sb))) &&
  (sb_free_inodes sb =? countb (fun i => negb (iused D sb i)) (Z.to_nat (sb_inode_count sb))).

Definition slots : list Z := seqZ (-1) 139.

Definition own_check (D : disk) (sb : noxfs_sb) (l : list Z) : bool :=
  let cells := l ≫= (fun ino => (fun k => (ino, k, slot D (inode_at D sb ino) k)) <$> slots) in
  let live := filter (fun c => c.2 <> 0) cells in
  forallb (fun c => between (sb_data_start sb) c.2 (sb_block_count sb) && used D sb c.2) live &&
  forallb (fun c => forallb (fun c' => negb (c.2 =? c'.2) || bool_decide (c.1 = c'.1)) live) live.

Definition fs_check (limit : Z) (D : disk) (sb : noxfs_sb) (l : list Z) : bool :=
  meta_check limit D sb && forallb (fun ino => between 0 ino (sb_inode_count sb)) l && own_check D sb l.

Lemma between_spec a x b : between a x b = true -> a <= x < b.
Proof. unfold between. rewrite andb_true_iff, Z.leb_le, Z.ltb_lt. done. Qed.

Lemma forallb_elem {A} (f : A -> bool) l x : forallb f l = true -> x ∈ l -> f x = true.
Proof. intros Hf Hx. rewrite forallb_forall in Hf. apply Hf. by apply list_elem_of_In. Qed.

Lemma forallb_bytes d : forallb (fun x => between 0 x 256) d = true -> bytes_ok d.
Proof. intros H. apply Forall_forall. intros x Hx. apply between_spec. by apply (forallb_elem _ _ _ H). Qed.

Ltac split_checks H :=
  repeat match type of H with _ && _ = true => let H' := fresh "C" in apply andb_true_iff in H as [H H'] end.

Lemma geo_check_sound limit sb : geo_check limit sb = true -> geo (limit := limit) sb.
Proof.
  intros H. unfold geo_check in H. split_checks H.
  repeat match goal with
    | H : (_ <=? _) = true |- _ => apply Z.leb_le in H
    | H : (_ <? _) = true |- _ => apply Z.ltb_lt in H
    | H : negb (_ =? _) = true |- _ => apply negb_true_iff, Z.eqb_neq in H
    | H : bool_decide _ = true |- _ => apply bool_decide_eq_true in H
    | H : forallb _ _ = true |- _ => apply forallb_bytes in H
  end.
  split; done || lia.
Qed.

Lemma meta_check_sound limit D sb : meta_check limit D sb = true -> meta (limit := limit) D sb.
Proof.
  intros H. unfold meta_check in H. split_checks H. apply Z.eqb_eq in C, C0. split; [by apply geo_check_sound | | | done | done].
  - intros b Hb. apply forallb_bytes. apply (forallb_elem _ _ b C2). apply elem_of_seqZ. lia.
  - intros b Hb. apply (forallb_elem _ _ b C1). apply elem_of_seqZ. lia.
Qed.

Lemma own_check_sound D sb l : own_check D sb l = true -> (forall ino, ino ∈ l -> inode_wf (inode_at D sb ino)) ->
  owned D sb (fun x => x ∈ l) (inode_at D sb).
Proof.
  intros H Hw. unfold own_check in H. apply andb_true_iff in H as [H1 H2].
  set (live := filter _ _) in *.
  assert (Hin : forall ino k, ino ∈ l -> -1 <= k < NSLOTS -> slot D (inode_at D sb ino) k <> 0 ->
                  (ino, k, slot D (inode_at D sb ino) k) ∈ live).
  { intros ino k Hl Hk Hnz. apply list_elem_of_filter. split; [done|]. apply list_elem_of_bind. exists ino. split; [|done].
    apply list_elem_of_fmap. exists k. split; [done|]. apply elem_of_seqZ. unfold NSLOTS in Hk. lia. }
  split; [done | |].
  - intros ino k Hl Hk Hnz. pose proof (forallb_elem _ _ _ H1 (Hin ino k Hl Hk Hnz)) as Hc. simpl in Hc.
    apply andb_true_iff in Hc as [Hc1 Hc2]. split; [by apply between_spec | done].
  - intros ino k ino' k' Hl Hl' Hk Hk' Hnz E.
    pose proof (forallb_elem _ _ _ (forallb_elem _ _ _ H2 (Hin ino k Hl Hk Hnz)) (Hin ino' k' Hl' Hk' ltac:(congruence))) as Hc.
    simpl in Hc. rewrite E, Z.eqb_refl in Hc. simpl in Hc. apply bool_decide_eq_true in Hc. by injection Hc.
Qed.

Lemma fs_check_sound {S limit} `{BC : BufferCache S limit} c H D sb l : cok c H D -> fs_check limit D sb l = true ->
  fs_ok (limit := limit) D sb (fun x => x ∈ l).
Proof.
  intros Hc Hch. unfold fs_check in Hch. apply andb_true_iff in Hch as [Hch H3]. apply andb_true_iff in Hch as [H1 H2].
  apply meta_check_sound in H1.
  assert (HL : forall ino, ino ∈ l -> 0 <= ino < sb_inode_count sb).
  { intros ino Hi. apply between_spec. by apply (forallb_elem _ _ _ H2). }
  split; [done | done |]. apply own_check_sound; [done|]. intros ino Hi. eapply inode_at_wf; [done | done | by apply HL].
Qed.

Lemma fs_check0 : fs_check 64 D0 sb0 [0; 1] = true.
Proof. vm_compute. reflexivity. Qed.

Lemma fs_ok0 : fs_ok (limit := 64) D0 sb0 (fun x => x ∈ [0; 1]).
Proof. apply (fs_check_sound cache0 ∅); [apply cok0 | apply fs_check0]. Qed.

(** ** The round trip on this volume: 700 bytes into inode 1 *)

Definition heap1 : gmap Z (list Z) := <[1 := replicate 700 7]> ∅.

Lemma store_load_roundtrip_witness :
  runs (let* st := store_data ata_read 1 1 700 in let* ld := load_data pick ata_read 1 in ret (st, ld))
    (mkNox cache0 sb0 (replicate 24 blank_file) 0 true heap1)
    (fun res s' => res = (OS_OK, (2, Some 700))).
Proof.
  eapply runs_mono.
  - apply (store_load_roundtrip (limit := 64) ltac:(lia) ata_read pick cache0 sb0 _ 0 true heap1 D0 (fun x => x ∈ [0; 1]) 1 1
      (replicate 700 7) 700 2 (replicate (Z.to_nat 1024) 170)).
    + apply cok0.
    + apply fs_ok0.
    + apply list_elem_of_In. simpl. auto.
    + reflexivity.
    + by apply Forall_replicate.
    + rewrite length_replicate. lia.
    + unfold NSLOTS. lia.
    + vm_compute. discriminate.
    + vm_compute. reflexivity.
  - intros res s' [-> _]. reflexivity.
Defined.

End NoxDemo.
