(* ===== verification/NoxDir.v ===== *)
(** * NoxFS: directories

    What a directory's bytes mean, and that [_dir_lookup_name],
    [_dir_add_entry] and the path walk of [noxfs_resolve] implement a finite
    list of names: a search finds the first entry in use with the name, and an
    added entry is found while every other name keeps its meaning. *)
From S2P Require Import Prelude Bytes Buffer NoxFS NoxDisk NoxFiles.
Import NoxFS NoxDisk NoxFiles.

Module NoxDir.

(** ** Entries

    An entry is the number of an inode (0: unused) and a name. *)

Definition entry_is (e : list Z) (x : Z * list Z) : Prop :=
  get32 e 0 = x.1 /\ byte e 6 = Z.of_nat (length x.2) /\ slice 8 (Z.of_nat (length x.2)) e = x.2.

(** A name a C string can hold and an entry can store. *)
Definition name_ok (nm : list Z) : Prop := (length nm <= 23)%nat /\ Forall (fun c => 0 < c < 256) nm.

(** A buffer that starts with the entries [es]. *)
Definition dir_in (buf : list Z) (es : list (Z * list Z)) : Prop :=
  32 * Z.of_nat (length es) <= Z.of_nat (length buf) /\
  forall k x, es !! k = Some x -> name_ok x.2 /\ entry_is (slice (Z.of_nat k * 32) 32 buf) x.

(** The first used entry with the name, from index [i] on. *)
Fixpoint dir_search (i : Z) (es : list (Z * list Z)) (name : list Z) : option (Z * Z) :=
  match es with
  | [] => None
  | (ino, nm) :: es =>
      if negb (ino =? 0) && bool_decide (nm = name) then Some (i, ino) else dir_search (i + 1) es name
  end.

(** The inode a directory gives for a name. *)
Definition dir_get (es : list (Z * list Z)) (name : list Z) : option Z := snd <$> dir_search 0 es name.

Lemma dir_search_app i es x name : dir_search i (es ++ [x]) name =
  match dir_search i es name with
  | Some r => Some r
  | None => dir_search (i + Z.of_nat (length es)) [x] name
  end.
Proof.
  revert i. induction es as [|[ino nm] es IH]; intros i; cbn [app dir_search length].
  - by rewrite Z.add_0_r.
  - destruct (negb (ino =? 0) && bool_decide (nm = name)); [done|]. rewrite IH.
    replace (i + 1 + Z.of_nat (length es)) with (i + Z.of_nat (Datatypes.S (length es))) by lia. done.
Qed.

Lemma dir_get_app_new es ino name : ino <> 0 -> dir_get es name = None -> dir_get (es ++ [(ino, name)]) name = Some ino.
Proof.
  unfold dir_get. intros Hi Hn. rewrite dir_search_app. destruct (dir_search 0 es name); [done|].
  cbn [dir_search]. rewrite (proj2 (Z.eqb_neq ino 0)), bool_decide_eq_true_2 by done. done.
Qed.

Lemma dir_get_app_other es ino nm name : nm <> name -> dir_get (es ++ [(ino, nm)]) name = dir_get es name.
Proof.
  unfold dir_get. intros Hne. rewrite dir_search_app. destruct (dir_search 0 es name); [done|].
  cbn [dir_search]. rewrite bool_decide_eq_false_2, andb_false_r by done. done.
Qed.

(** Distinct names: every used entry is found. *)
Lemma dir_search_lookup i es k ino nm : NoDup (snd <$> es) -> es !! k = Some (ino, nm) -> ino <> 0 ->
  dir_search i es nm = Some (i + Z.of_nat k, ino).
Proof.
  revert i k. induction es as [|[ino' nm'] es IH]; intros i k Hnd Hk Hi; [done|].
  apply NoDup_cons in Hnd as [Hnot Hnd]. cbn [dir_search]. destruct k as [|k].
  - injection Hk as <- <-. rewrite (proj2 (Z.eqb_neq ino' 0)), bool_decide_eq_true_2 by done. simpl. by rewrite Z.add_0_r.
  - assert (nm' <> nm). { intros ->. apply Hnot. apply list_elem_of_fmap. exists (ino, nm). split; [done|]. by eapply list_elem_of_lookup_2. }
    rewrite bool_decide_eq_false_2, andb_false_r by done.
    rewrite (IH (i + 1) k) by done. do 2 f_equal. lia.
Qed.

Lemma dir_get_lookup es k ino nm : NoDup (snd <$> es) -> es !! k = Some (ino, nm) -> ino <> 0 -> dir_get es nm = Some ino.
Proof. intros. unfold dir_get. by erewrite dir_search_lookup. Qed.

(** ** C strings *)

Lemma byte_app_end l : byte l (Z.of_nat (length l)) = 0.
Proof. rewrite byte_lookup, Nat2Z.id, lookup_ge_None_2 by lia. done. Qed.

Lemma byte_name nm j : name_ok nm -> (byte nm (Z.of_nat j) =? 0) = bool_decide (length nm <= j)%nat.
Proof.
  intros [_ Hf]. rewrite byte_lookup, Nat2Z.id. destruct (nm !! j) as [c|] eqn:E; simpl.
  - apply lookup_lt_Some in E as Hl. apply (Forall_lookup_1 _ _ _ _ Hf) in E. rewrite bool_decide_eq_false_2 by lia. apply Z.eqb_neq. lia.
  - apply lookup_ge_None in E. by rewrite bool_decide_eq_true_2 by done.
Qed.

Lemma take_S_byte l j : (j < length l)%nat -> take (Datatypes.S j) l = take j l ++ [byte l (Z.of_nat j)].
Proof.
  intros Hj. rewrite byte_lookup, Nat2Z.id. destruct (lookup_lt_is_Some_2 l j Hj) as [c E]. rewrite E. by apply take_S_r.
Qed.

Section Search.
Context {S : Type} {limit : Z} `{BC : BufferCache S limit}.

(** The loop compares the stored name with the C string from position [j] on. *)
Lemma name_match_runs n (s : nox S) p o buf nm name j Q : n_heap s !! p = Some buf -> 0 <= o ->
  o + Z.of_nat (length nm) <= Z.of_nat (length buf) -> slice o (Z.of_nat (length nm)) buf = nm ->
  name_ok nm -> Forall (fun c => 0 < c < 256) name -> (j <= length nm)%nat -> take j nm = take j name -> (j <= length name)%nat ->
  (length nm < n + j)%nat ->
  Q (bool_decide (nm = name)) s -> runs (name_match n p o (Z.of_nat (length nm)) name (Z.of_nat j)) s Q.
Proof.
  revert j. induction n as [|n IH]; intros j Hp Ho Hl Hs Hnm Hname Hj Hpre Hj' Hn HQ; [lia|].
  cbn [name_match]. unfold ctrue.
  assert (Hend : (byte name (Z.of_nat j) =? 0) = bool_decide (length name <= j)%nat).
  { rewrite byte_lookup, Nat2Z.id. destruct (name !! j) as [c|] eqn:E; simpl.
    - apply lookup_lt_Some in E as Hlt. apply (Forall_lookup_1 _ _ _ _ Hname) in E.
      rewrite bool_decide_eq_false_2 by lia. apply Z.eqb_neq. lia.
    - apply lookup_ge_None in E. by rewrite bool_decide_eq_true_2 by done. }
  rewrite Hend. destruct (decide (length name <= j)%nat) as [Hlt'|Hlt'].
  - rewrite bool_decide_eq_true_2 by done. cbn [negb]. rewrite !andb_false_r, andb_true_r. apply runs_ret.
    assert (length name = j) as Ej by lia. replace (Z.of_nat j =? Z.of_nat (length nm)) with (bool_decide (nm = name)); [done|].
    destruct (Z.eqb_spec (Z.of_nat j) (Z.of_nat (length nm))) as [E|E].
    + apply bool_decide_eq_true_2. rewrite <- (take_ge nm j), <- (take_ge name j), Hpre by lia. done.
    + apply bool_decide_eq_false_2. intros ->. lia.
  - rewrite bool_decide_eq_false_2 by done. cbn [negb]. rewrite !andb_false_r, andb_true_r.
    destruct (Z.ltb_spec (Z.of_nat j) (Z.of_nat (length nm))) as [Hlt|Hge].
    + apply runs_bind. eapply hread_runs; [done | lia | lia | lia |].
      assert (Eb : byte (slice (o + Z.of_nat j) 1 buf) 0 = byte nm (Z.of_nat j)).
      { rewrite byte_slice by lia. rewrite <- Hs at 1. rewrite byte_slice by lia. f_equal. lia. }
      rewrite Eb. destruct (Z.eqb_spec (byte nm (Z.of_nat j)) (byte name (Z.of_nat j))) as [E|E].
      * replace (Z.of_nat j + 1) with (Z.of_nat (Datatypes.S j)) by lia. apply IH; try done; [lia | | lia | lia].
        by rewrite !take_S_byte, Hpre, E by lia.
      * apply runs_ret. rewrite bool_decide_eq_false_2 in HQ by (by intros ->). done.
    + apply runs_ret. rewrite bool_decide_eq_false_2 in HQ by (intros ->; lia). done.
Qed.

Lemma dir_find_runs n i (s : nox S) p buf es name Q : n_heap s !! p = Some buf -> dir_in buf es ->
  Forall (fun c => 0 < c < 256) name -> 0 <= i -> Z.of_nat n + i = Z.of_nat (length es) ->
  Q (dir_search i (drop (Z.to_nat i) es) name) s -> runs (dir_find n i p name) s Q.
Proof.
  revert i. induction n as [|n IH]; intros i Hp Hd Hname Hi Hn HQ; cbn [dir_find].
  - apply runs_ret. rewrite drop_ge in HQ by lia. done.
  - destruct Hd as [Hlen Hes]. destruct (lookup_lt_is_Some_2 es (Z.to_nat i) ltac:(lia)) as [[ino nm] E].
    destruct (Hes _ _ E) as [Hnm (E0 & E6 & E8)]. rewrite Z2Nat.id in E0, E6, E8 by lia. simpl in Hnm, E0, E6, E8.
    pose proof Hnm as [Hnl _]. rewrite (drop_S _ _ _ E) in HQ. cbn [dir_search] in HQ.
    replace (Datatypes.S (Z.to_nat i)) with (Z.to_nat (i + 1)) in HQ by lia.
    unfold dirent_at. apply runs_bind, runs_bind. eapply hread_runs; [done | unfold DIRENT_SZ; lia | unfold DIRENT_SZ; lia | unfold DIRENT_SZ; lia |].
    apply runs_ret. unfold DIRENT_SZ. cbn [de_inode de_name_len dirent_of_bytes]. rewrite E0.
    destruct (Z.eqb_spec ino 0) as [->|Hino].
    + apply IH; try done; lia.
    + cbn [negb andb] in HQ. apply runs_bind. rewrite E6. change 0 with (Z.of_nat 0). eapply name_match_runs; try done; try lia.
      * rewrite slice_slice in E8 by lia. done.
      * destruct (decide (nm = name)) as [En|En].
        { rewrite bool_decide_eq_true_2 in HQ |- * by done. by apply runs_ret. }
        rewrite bool_decide_eq_false_2 in HQ |- * by done. apply IH; try done; lia.
Qed.

(** ** Looking a name up *)

Context (ata_read : Z -> S -> os_status * list Z * S) (Hlimit : limit <= 2 ^ 32).
Context (pick : gmap Z (list Z) -> Z -> option (Z * list Z)) `{!ObjHeap pick}.

(** Inode [ino] is a directory with the entries [es]. *)
Definition is_dir (D : disk) (sb : noxfs_sb) (ino : Z) (es : list (Z * list Z)) : Prop :=
  Z.land (i_mode (inode_at D sb ino)) NOXFS_INO_DIR <> 0 /\
  i_size (inode_at D sb ino) = 32 * Z.of_nat (length es) /\
  exists d, file_holds D (inode_at D sb ino) d /\ bytes_ok d /\ dir_in d es.

Lemma dir_in_prefix d buf es : 32 * Z.of_nat (length es) <= Z.of_nat (length buf) ->
  slice 0 (32 * Z.of_nat (length es)) buf = slice 0 (32 * Z.of_nat (length es)) d -> dir_in d es -> dir_in buf es.
Proof.
  intros Hl Hs [Hd Hes]. split; [done|]. intros k x Hk. destruct (Hes k x Hk) as [Hn He]. split; [done|].
  apply lookup_lt_Some in Hk. rewrite <- (Z.add_0_l (Z.of_nat k * 32)), <- (slice_slice 0 (32 * Z.of_nat (length es))) in He |- * by lia.
  by rewrite Hs.
Qed.

Lemma dir_lookup_name_runs c sb fl cnt r h D L dir es name p d0 Q : cok c ∅ D -> fs_ok (limit := limit) D sb L -> L dir ->
  is_dir D sb dir es -> Forall (fun c => 0 < c < 256) name -> pick h (load_size (32 * Z.of_nat (length es))) = Some (p, d0) ->
  (forall c', cok c' ∅ D -> Q (default U32_NEG1 (dir_get es name)) (mkNox c' sb fl cnt r h)) ->
  runs (dir_lookup_name pick ata_read dir name) (mkNox c sb fl cnt r h) Q.
Proof.
  intros Hc Hf HL (Hmode & Hsz & d & Hh & _ & Hd) Hname Hp HQ. pose proof (f_live _ _ _ Hf dir HL) as Hino.
  unfold dir_lookup_name. apply runs_bind. eapply iread_runs; [done | apply Hf | by eapply cok_hold | done |]. intros c1 Hc1.
  change (is_ok OS_OK) with true. cbn [negb]. rewrite (proj2 (Z.eqb_neq _ 0)) by done.
  apply runs_bind. eapply (load_data_runs ata_read pick c1 _ _ _ _ _ D L dir d p d0); [done | done | done | done | by rewrite Hsz |].
  rewrite Hsz. intros c2 buf Hc2 Hp0 Hph Hlen Hsl. rewrite (proj2 (Z.eqb_neq p 0)) by done. cbn [default from_option id].
  pose proof Hh as (Hmax & _). unfold NSLOTS in Hmax.
  pose proof (load_size_ge (32 * Z.of_nat (length es)) ltac:(lia)) as Hge.
  unfold DIRENT_SZ. replace (32 * Z.of_nat (length es) / 32) with (Z.of_nat (length es)) by (symmetry; rewrite Z.mul_comm; apply Z.div_mul; lia).
  rewrite Nat2Z.id. apply runs_bind. eapply (dir_find_runs _ _ _ _ buf es); [apply lookup_insert_eq | | done | lia | lia |].
  { eapply (dir_in_prefix d); [lia | done | done]. }
  apply runs_bind. eapply kfree_runs. rewrite delete_insert_id by done. apply runs_ret.
  replace (match _ with Some (_, ino) => ino | None => U32_NEG1 end) with (default U32_NEG1 (dir_get es name)); [by apply HQ|].
  unfold dir_get. change (Z.to_nat 0) with 0%nat. rewrite drop_0. by destruct (dir_search 0 es name) as [[? ?]|].
Qed.

(** ** Adding an entry *)

(** The bytes of the grown directory: the old ones, then the new entry over
    whatever the buffer held. *)
Definition grown (old buf : list Z) (o ino ft : Z) (name : list Z) : list Z :=
  splice (o + 8) (slice 0 ((Z.min 23 (Z.of_nat (length name)))) name ++ [0])
    (splice o (le_bytes 4 ino ++ le_bytes 2 DIRENT_SZ ++ [Z.min 23 (Z.of_nat (length name)); ft]) (splice 0 old buf)).

Lemma grown_facts old buf es ino ft name : dir_in old es -> Z.of_nat (length old) = 32 * Z.of_nat (length es) ->
  32 * Z.of_nat (length es) + 32 <= Z.of_nat (length buf) -> name_ok name -> 0 <= ino < 2 ^ 32 ->
  length (grown old buf (32 * Z.of_nat (length es)) ino ft name) = length buf /\
  dir_in (grown old buf (32 * Z.of_nat (length es)) ino ft name) (es ++ [(ino, name)]).
Proof.
  intros [_ Hes] Ho Hb [Hn Hc] Hi. set (o := 32 * Z.of_nat (length es)) in *. unfold grown.
  rewrite Z.min_r by lia. rewrite slice_all by lia. set (hdr := le_bytes 4 ino ++ _).
  assert (Hh : length hdr = 8%nat) by (unfold hdr; rewrite !length_app, !length_le_bytes; done).
  assert (Hnl : length (name ++ [0]) = (length name + 1)%nat) by (rewrite length_app; done).
  assert (L1 : length (splice 0 old buf) = length buf) by (apply length_splice; lia).
  assert (L2 : length (splice o hdr (splice 0 old buf)) = length buf) by (rewrite length_splice; lia).
  assert (L3 : length (splice (o + 8) (name ++ [0]) (splice o hdr (splice 0 old buf))) = length buf) by (rewrite length_splice; lia).
  split; [done|]. split; [rewrite length_app; simpl; lia|]. intros k x Hk. apply lookup_app_Some in Hk as [Hk|[Hge Hk]].
  - destruct (Hes k x Hk) as [Hx He]. split; [done|]. apply lookup_lt_Some in Hk.
    rewrite !slice_splice_disjoint by lia. replace (slice (Z.of_nat k * 32) 32 (splice 0 old buf)) with (slice (Z.of_nat k * 32) 32 old); [done|].
    rewrite <- (Z.add_0_l (Z.of_nat k * 32)), <- (slice_slice 0 o _ 32 (splice _ _ _)) by lia.
    rewrite <- Ho, slice_splice_same by lia. done.
  - apply list_lookup_singleton_Some in Hk as [Ek <-]. split; [done|]. assert (k = length es) as -> by lia.
    replace (Z.of_nat (length es) * 32) with o by lia. set (b2 := splice o hdr _) in *.
    assert (Eh : slice o 8 (splice (o + 8) (name ++ [0]) b2) = hdr).
    { rewrite slice_splice_disjoint by lia. change 8 with (Z.of_nat 8). rewrite <- Hh. apply slice_splice_same; lia. }
    assert (E : forall a n, 0 <= a -> 0 <= n -> a + n <= 8 -> slice a n (slice o 32 (splice (o + 8) (name ++ [0]) b2)) = slice a n hdr).
    { intros a n Ha Hn' Han. rewrite <- Eh, !slice_slice by lia. done. }
    split_and!; cbn [fst snd].
    + unfold get32. rewrite E by lia. unfold hdr. rewrite slice_app_here by (rewrite ?length_le_bytes; done). by apply le_val_bytes.
    + rewrite <- (Z.add_0_r 6), <- (byte_slice 6 1) by lia. rewrite E by lia. unfold hdr.
      rewrite !slice_app_skip by (rewrite ?length_le_bytes; lia). rewrite !length_le_bytes. done.
    + rewrite slice_slice by lia. transitivity (slice 0 (Z.of_nat (length name)) (name ++ [0])); [|by apply slice_app_here].
      rewrite <- (slice_splice_same (o + 8) (name ++ [0]) b2) at 2 by lia. rewrite slice_slice by lia. f_equal; lia.
Qed.

Lemma grown_ok old buf o ino ft name : bytes_ok old -> bytes_ok buf -> name_ok name -> 0 <= ft < 256 ->
  bytes_ok (grown old buf o ino ft name).
Proof.
  intros Hold Hbuf [Hn1 Hn2] Hft. assert (bytes_ok name) by (apply (Forall_impl _ _ _ Hn2); lia).
  unfold grown. auto 10 with bytes.
Qed.

(** Requests of up to [m] bytes succeed as long as at most [k] more buffers are
    live than in [h]. *)
Definition heap_room (h : gmap Z (list Z)) (k : nat) (m : Z) : Prop :=
  forall h' n, (size h' <= size h + k)%nat -> 0 < n <= m -> exists p d, pick h' n = Some (p, d) /\ bytes_ok d.

Lemma load_size_pos n : 0 <= n < 2 ^ 31 -> 0 < load_size n <= n + 512.
Proof.
  intros H. unfold load_size. destruct (Z.eqb_spec n 0); [lia|]. rewrite round_blk_eq by lia. unfold nblocks.
  pose proof (Z.div_mod (n + 511) 512). pose proof (Z.mod_pos_bound (n + 511) 512). lia.
Qed.

Lemma dir_add_entry_runs c sb fl cnt r h D L dir es name ino ft Q : cok c ∅ D -> fs_ok (limit := limit) D sb L -> L dir ->
  is_dir D sb dir es -> name_ok name -> 0 <= ino < 2 ^ 32 -> 0 <= ft < 256 ->
  32 * Z.of_nat (length es) + 32 <= NSLOTS * 512 ->
  nblocks (32 * Z.of_nat (length es) + 32) + 1 <= sb_free_blocks sb ->
  heap_room h 1 (NSLOTS * 512 + 512) ->
  (forall c' D' sb', cok c' ∅ D' -> fs_ok (limit := limit) D' sb' L -> others L dir D sb D' sb' -> is_dir D' sb' dir (es ++ [(ino, name)]) ->
     Q OS_OK (mkNox c' sb' fl cnt r h)) ->
  runs (dir_add_entry pick ata_read dir name ino ft) (mkNox c sb fl cnt r h) Q.
Proof.
  intros Hc Hf HL (Hmode & Hsz & d & Hh & Hdok & Hd) Hname Hino Hft Hmax Hfree Hroom HQ.
  pose proof (f_live _ _ _ Hf dir HL) as Hdir. unfold NSLOTS in Hmax, Hroom.
  unfold dir_add_entry. apply runs_bind. eapply iread_runs; [done | apply Hf | by eapply cok_hold | done |]. intros c1 Hc1.
  change (is_ok OS_OK) with true. cbn [negb]. rewrite Hsz. set (o := 32 * Z.of_nat (length es)) in *.
  pose proof (load_size_pos o ltac:(lia)) as Hls. pose proof (load_size_ge o ltac:(lia)) as Hge.
  destruct (Hroom h (load_size o)) as (p & d0 & Hp & _); [lia | lia |].
  apply runs_bind. eapply (load_data_runs ata_read pick c1 _ _ _ _ _ D L dir d p d0); [done | done | done | done | by rewrite Hsz |].
  rewrite Hsz. intros c2 buf Hc2 Hp0 Hph Hlen Hsl. rewrite (proj2 (Z.eqb_neq p 0)) by done.
  unfold DIRENT_SZ. words.
  assert (Hrb : o + 32 <= round_blk (o + 32) <= o + 32 + 512).
  { pose proof (load_size_ge (o + 32) ltac:(lia)) as H1. pose proof (load_size_pos (o + 32) ltac:(lia)) as H2.
    unfold load_size in H1, H2. rewrite (proj2 (Z.eqb_neq (o + 32) 0)) in H1, H2 by lia. lia. }
  destruct (Hroom (<[p := buf]> h) (round_blk (o + 32))) as (q & d1 & Hq & Hd1); [rewrite map_size_insert_None by done; lia | lia |].
  destruct (pick_fresh _ _ _ _ Hq) as (Hq0 & Hqh & Hql).
  assert (Hpq : p <> q) by (intros ->; by rewrite lookup_insert_eq in Hqh).
  apply runs_bind. eapply kmalloc_runs; [done|]. rewrite (proj2 (Z.eqb_neq q 0)) by done.
  apply runs_bind. eapply hread_runs; [cbn [n_heap]; rewrite lookup_insert_ne by done; apply lookup_insert_eq | lia | lia | lia |].
  rewrite Hsl. set (old := slice 0 o d).
  assert (Hol : Z.of_nat (length old) = o) by (unfold old; destruct Hd; rewrite length_slice; lia).
  assert (Hod : dir_in old es). { apply (dir_in_prefix d); [lia | | done]. unfold old. rewrite slice_slice by lia. done. }
  assert (Hook : bytes_ok old) by by apply bytes_ok_slice.
  destruct (grown_facts old d1 es ino ft name Hod Hol ltac:(lia) Hname Hino) as [Hgl Hgd].
  fold o in Hgl, Hgd. pose proof (grown_ok old d1 o ino ft name Hook Hd1 Hname Hft) as Hgok.
  apply runs_bind. eapply hwrite_runs; [apply lookup_insert_eq | lia | lia |]. rewrite insert_insert_eq.
  apply runs_bind. eapply kfree_runs. rewrite delete_insert_ne, delete_insert_id by done.
  apply runs_bind. eapply hwrite_runs; [apply lookup_insert_eq | lia | |].
  { rewrite length_splice by lia. rewrite !length_app, !length_le_bytes. simpl. lia. }
  rewrite insert_insert_eq. apply runs_bind. eapply hwrite_runs; [apply lookup_insert_eq | lia | |].
  { destruct Hname. rewrite !length_splice by (rewrite ?length_splice, ?length_app, ?length_le_bytes; simpl; lia).
    rewrite length_app, length_slice; simpl; lia. }
  rewrite insert_insert_eq. fold (grown old d1 o ino ft name).
  apply runs_bind. eapply (store_data_runs Hlimit ata_read _ _ _ _ _ _ D L dir q (grown old d1 o ino ft name)); [done | done | done | apply lookup_insert_eq | done | rewrite Hgl; lia | unfold NSLOTS; lia | |].
  - intros c3 D3 sb3 st _ Hlt. unfold need in Hlt. destruct (i_indirect _ =? 0); lia.
  - intros c3 D3 sb3 Hc3 Hf3 Ho3 Hat Hst. apply runs_bind. eapply kfree_runs.
    assert (h !! q = None) by (by rewrite lookup_insert_ne in Hqh).
    rewrite delete_insert_id by done. apply runs_ret. apply HQ with (D' := D3); try done.
    assert (Esz : i_size (inode_at D3 sb3 dir) = o + 32) by (unfold same_attrs in Hat; simpl in Hat; tauto).
    assert (Em : i_mode (inode_at D3 sb3 dir) = i_mode (inode_at D sb dir)) by (unfold same_attrs in Hat; simpl in Hat; tauto).
    split; [by rewrite Em|]. split; [rewrite Esz, length_app; simpl; lia|].
    exists (grown old d1 o ino ft name). split; [|done]. eapply stored_file_holds; try done; unfold NSLOTS; lia.
Qed.

(** ** Resolving a name *)

(** A path component other than the empty one, "." and "..". *)
Definition comp_ok (nm : list Z) : Prop :=
  (length nm <= 31)%nat /\ Forall (fun c => 0 < c < 256) nm /\ Forall (fun c => c <> 47) nm /\
  nm <> [] /\ nm <> [46] /\ nm <> [46; 46].

Lemma take_comp_all n nm : (length nm <= n)%nat -> Forall (fun c => c <> 47) nm -> take_comp n nm = (nm, []).
Proof.
  revert n. induction nm as [|c nm IH]; intros n Hn Hc; [by destruct n|]. destruct n as [|n]; [simpl in Hn; lia|].
  apply Forall_cons in Hc as [Hc Hcs]. cbn [take_comp]. rewrite (proj2 (Z.eqb_neq c 47)) by done.
  rewrite IH by (simpl in Hn; done || lia). done.
Qed.

Lemma skip_slashes_comp nm : comp_ok nm -> skip_slashes nm = nm.
Proof.
  intros (_ & _ & Hf & Hne & _). destruct nm as [|c nm]; [done|]. apply Forall_cons in Hf as [Hc _]. simpl.
  by rewrite (proj2 (Z.eqb_neq c 47)) by done.
Qed.

(** The walk over a single component is the search of the directory. *)
Lemma resolve_loop_comp n dir nm : comp_ok nm ->
  resolve_loop pick ata_read (Datatypes.S (Datatypes.S n)) dir nm =
  (let* ino := dir_lookup_name pick ata_read dir nm in if ino =? U32_NEG1 then ret U32_NEG1 else ret ino).
Proof.
  intros Hc. pose proof Hc as (Hl & _ & Hs & Hne & H1 & H2). cbn [resolve_loop].
  destruct nm as [|c nm0]; [done|]. rewrite skip_slashes_comp by done. rewrite take_comp_all by done.
  rewrite !bool_decide_eq_false_2 by done. done.
Qed.

Lemma resolve_runs c sb fl cnt h D L dir es nm p d0 path base Q : cok c ∅ D -> fs_ok (limit := limit) D sb L -> L dir ->
  is_dir D sb dir es -> comp_ok nm -> pick h (load_size (32 * Z.of_nat (length es))) = Some (p, d0) ->
  (path = nm /\ base = dir \/ path = 47 :: nm /\ sb_root_ino sb = dir) ->
  (forall c', cok c' ∅ D -> Q (default U32_NEG1 (dir_get es nm)) (mkNox c' sb fl cnt true h)) ->
  runs (noxfs_resolve pick ata_read base path) (mkNox c sb fl cnt true h) Q.
Proof.
  intros Hc Hf HL Hd Hnm Hp Hpath HQ. pose proof Hnm as (_ & Hn1 & Hn2 & Hne & _).
  assert (Hrun : forall n, runs (resolve_loop pick ata_read (Datatypes.S (Datatypes.S n)) dir nm) (mkNox c sb fl cnt true h) Q).
  { intros n. rewrite resolve_loop_comp by done. apply runs_bind. eapply dir_lookup_name_runs; try done. intros c1 Hc1.
    destruct (Z.eqb_spec (default U32_NEG1 (dir_get es nm)) U32_NEG1) as [E|_]; apply runs_ret; [rewrite <- E|]; by apply HQ. }
  unfold noxfs_resolve. apply runs_bind. unfold runs at 1, gets. cbn [n_ready negb]. apply runs_bind. unfold runs at 1. cbn [n_sb].
  destruct nm as [|x nm0]; [done|]. destruct Hpath as [[-> ->]|[-> Hr]].
  - apply Forall_cons in Hn2 as [Hx _]. rewrite (proj2 (Z.eqb_neq x 47)) by done. apply (Hrun (length nm0)).
  - rewrite Z.eqb_refl, Hr. apply (Hrun (length nm0)).
Qed.

End Search.

End NoxDir.
