(* ===== verification/NoxMount.v ===== *)
(** * NoxFS: mounting a volume

    [noxfs_init] on a disk that holds a well-formed volume reads the
    superblock, loads the files of the root directory into the table of open
    files, and leaves them to be found by [noxfs_lookup]. *)
From S2P Require Import Prelude Bytes Buffer NoxFS NoxDisk NoxFiles NoxDir.
Import NoxFS NoxDisk NoxFiles NoxDir.

Module NoxMount.

(** A file of the root directory: inode, name, contents. *)
Abbreviation rfile := (Z * list Z * list Z)%type.
Definition rf_entry (x : rfile) : Z * list Z := x.1.

(** ** The table of open files *)

(** Table entry [f] is a loaded copy of the file. *)
Definition loaded (h : gmap Z (list Z)) (x : rfile) (f : vfs_file) : Prop :=
  length (vf_name f) = 32%nat /\ slice 0 (Z.of_nat (length x.1.2) + 1) (vf_name f) = x.1.2 ++ [0] /\
  vf_inode f = x.1.1 /\ vf_size f = Z.of_nat (length x.2) /\
  exists buf, vf_data f <> 0 /\ h !! vf_data f = Some buf /\ slice 0 (Z.of_nat (length x.2)) buf = x.2.

Lemma loaded_insert h x f p d : loaded h x f -> h !! p = None -> loaded (<[p := d]> h) x f.
Proof.
  intros (H1 & H2 & H3 & H4 & buf & H5 & H6 & H7) Hp. split_and!; try done. exists buf. split_and!; try done.
  rewrite lookup_insert_ne; [done|]. intros ->. congruence.
Qed.

Lemma loaded_delete h x f p : loaded h x f -> vf_data f <> p -> loaded (delete p h) x f.
Proof.
  intros (H1 & H2 & H3 & H4 & buf & H5 & H6 & H7) Hp. split_and!; try done. exists buf. split_and!; try done.
  by rewrite lookup_delete_ne.
Qed.

(** [_streq] on a stored name and a C string. *)
Lemma streq_stored nm s name : Forall (fun c => 0 < c < 256) nm -> Forall (fun c => 0 < c < 256) name ->
  slice 0 (Z.of_nat (length nm) + 1) s = nm ++ [0] -> streq s name = bool_decide (nm = name).
Proof.
  intros Hnm Hname Hs. assert (exists r, s = nm ++ 0 :: r) as [r ->].
  { exists (drop (length nm + 1) s). unfold slice in Hs. simpl in Hs. rewrite drop_0 in Hs.
    replace (Z.to_nat (Z.of_nat (length nm) + 1)) with (length nm + 1)%nat in Hs by lia.
    rewrite <- (take_drop (length nm + 1) s) at 1. rewrite Hs, <- app_assoc. done. }
  clear Hs. revert name Hname. induction Hnm as [|c nm Hc Hnm IH]; intros name Hname.
  - destruct name as [|y name]; [done|]. apply Forall_cons in Hname as [Hy _]. cbn [app streq]. rewrite Z.eqb_refl. cbn [orb].
    rewrite (proj2 (Z.eqb_neq 0 y)) by lia. symmetry. by apply bool_decide_eq_false_2.
  - destruct name as [|y name]; cbn [app streq].
    + rewrite (proj2 (Z.eqb_neq c 0)) by lia. symmetry. by apply bool_decide_eq_false_2.
    + apply Forall_cons in Hname as [Hy Hname]. rewrite (proj2 (Z.eqb_neq c 0)), (proj2 (Z.eqb_neq y 0)) by lia. cbn [orb].
      rewrite IH by done. destruct (Z.eqb_spec c y) as [->|Hne]; cbn [andb].
      * apply bool_decide_ext. split; [by intros -> | by intros [= ->]].
      * symmetry. apply bool_decide_eq_false_2. by intros [= ? ?].
Qed.

(** The directory entries of a volume whose entries are all files. *)
Definition dir_files (buf : list Z) (es : list (Z * list Z)) : Prop :=
  dir_in buf es /\ forall k, (k < length es)%nat -> byte (slice (Z.of_nat k * 32) 32 buf) 7 = NOXFS_FT_FILE.

Lemma dir_files_prefix d buf es : 32 * Z.of_nat (length es) <= Z.of_nat (length buf) ->
  slice 0 (32 * Z.of_nat (length es)) buf = slice 0 (32 * Z.of_nat (length es)) d -> dir_files d es -> dir_files buf es.
Proof.
  intros Hl Hs [Hd Ht]. split; [by eapply dir_in_prefix|]. intros k Hk. specialize (Ht k Hk).
  rewrite <- (Z.add_0_l (Z.of_nat k * 32)), <- (slice_slice 0 (32 * Z.of_nat (length es))) in Ht |- * by lia. by rewrite Hs.
Qed.

Section Mount.
Context {S : Type} {limit : Z} `{BC : BufferCache S limit}.
Context (ata_read : Z -> S -> os_status * list Z * S) (Hlimit : limit <= 2 ^ 32).
Context (pick : gmap Z (list Z) -> Z -> option (Z * list Z)) `{!ObjHeap pick}.

(** ** The volume *)

Record volume (D : disk) (L : Z -> Prop) (fs : list rfile) : Prop := {
  v_magic : get32 (D 0) 0 = NOXFS_MAGIC;
  v_fs : fs_ok (limit := limit) D (sb_of_bytes (D 0)) L;
  v_root : L (sb_root_ino (sb_of_bytes (D 0)));
  v_mode : Z.land (i_mode (inode_at D (sb_of_bytes (D 0)) (sb_root_ino (sb_of_bytes (D 0))))) NOXFS_INO_DIR <> 0;
  v_size : i_size (inode_at D (sb_of_bytes (D 0)) (sb_root_ino (sb_of_bytes (D 0)))) = 32 * Z.of_nat (length fs);
  v_dir : exists d, file_holds D (inode_at D (sb_of_bytes (D 0)) (sb_root_ino (sb_of_bytes (D 0)))) d /\
            bytes_ok d /\ dir_files d (rf_entry <$> fs);
  v_files : forall x, x ∈ fs -> 0 < x.1.1 < U32_NEG1 /\ x.1.1 <> sb_root_ino (sb_of_bytes (D 0)) /\ L x.1.1 /\
              file_holds D (inode_at D (sb_of_bytes (D 0)) x.1.1) x.2 /\
              i_size (inode_at D (sb_of_bytes (D 0)) x.1.1) = Z.of_nat (length x.2) /\
              Z.land (i_mode (inode_at D (sb_of_bytes (D 0)) x.1.1)) NOXFS_INO_FILE <> 0
}.

(** ** Loading a file into the table *)

Definition names32 (fl : list vfs_file) : Prop := (24 <= length fl)%nat /\ Forall (fun f => length (vf_name f) = 32%nat) fl.

(** What slot [k] holds after its name is set and the file is loaded. *)
Definition filled (f : vfs_file) (nm : list Z) (p : Z) (x : rfile) : vfs_file :=
  mkFile (splice 0 (nm ++ [0]) (vf_name f)) p (Z.of_nat (length x.2)) x.1.1
    (if round_blk (Z.of_nat (length x.2)) =? 0 then NOXFS_BLKSZ else round_blk (Z.of_nat (length x.2))).

Lemma filled_loaded h f x p buf : length (vf_name f) = 32%nat -> name_ok x.1.2 -> p <> 0 ->
  slice 0 (Z.of_nat (length x.2)) buf = x.2 -> loaded (<[p := buf]> h) x (filled f x.1.2 p x).
Proof.
  intros Hf [Hn _] Hp Hb. assert (Z.of_nat (length (x.1.2 ++ [0])) = Z.of_nat (length x.1.2) + 1) as Hl by (rewrite length_app; simpl; lia).
  split_and!; cbn [filled vf_name vf_inode vf_size vf_data]; try done.
  - rewrite length_splice; lia.
  - rewrite <- Hl. apply slice_splice_same; lia.
  - exists buf. split_and!; [done | apply lookup_insert_eq | done].
Qed.

(** Set the name of slot [k], load the inode into it and count it. *)
Lemma table_fill_runs {A} c sb fl k r h D L x p d0 nm (none rest : M (nox S) A) (Q : A -> nox S -> Prop) : cok c ∅ D -> fs_ok (limit := limit) D sb L -> L x.1.1 ->
  file_holds D (inode_at D sb x.1.1) x.2 -> i_size (inode_at D sb x.1.1) = Z.of_nat (length x.2) ->
  pick h (load_size (Z.of_nat (length x.2))) = Some (p, d0) -> 0 <= k < 24 -> names32 fl ->
  (forall c' buf, cok c' ∅ D -> p <> 0 -> h !! p = None -> slice 0 (Z.of_nat (length x.2)) buf = x.2 ->
     runs rest (mkNox c' sb (<[Z.to_nat k := filled (default blank_file (fl !! Z.to_nat k)) nm p x]> fl) (k + 1) r (<[p := buf]> h)) Q) ->
  runs (let* f := gets (file k) in
        do* set_name k (splice 0 (nm ++ [0]) (vf_name f)) in
        let* p := load_file pick ata_read k x.1.1 in
        if p =? 0 then none else do* finish_file k x.1.1 in rest) (mkNox c sb fl k r h) Q.
Proof.
  intros Hc Hf HL Hh Hsz Hp Hk [Hl _] HQ. assert (Hlt : (Z.to_nat k < length fl)%nat) by lia.
  apply runs_bind. unfold runs at 1, gets. apply runs_bind. unfold runs at 1, set_name, modify.
  unfold load_file. apply runs_bind, runs_bind. unfold set_file. cbn [n_bc n_sb n_files n_count n_ready n_heap].
  eapply (load_data_runs ata_read pick c _ _ _ _ _ D L x.1.1 x.2 p d0); [done | done | done | done | by rewrite Hsz |].
  rewrite Hsz. intros c1 buf Hc1 Hp0 Hph _ Hsl. pure_step. apply runs_ret.
  rewrite (proj2 (Z.eqb_neq p 0)) by done. apply runs_bind. unfold runs at 1, finish_file, bind, modify, set_file, set_count, file.
  cbn [n_bc n_sb n_files n_count n_ready n_heap]. rewrite !list_lookup_insert_eq by (rewrite ?length_insert; done).
  cbn [default from_option id vf_name vf_data vf_size vf_inode vf_capacity]. rewrite !list_insert_insert_eq.
  words. apply HQ; try done. rewrite Hsl. by apply slice_all.
Qed.

(** The first [i] files are in the first [i] slots, and no copy is the
    directory buffer [pd]. *)
Definition in_table (h : gmap Z (list Z)) (fl : list vfs_file) (fs : list rfile) (i : nat) (pd : Z) : Prop :=
  forall k x, (k < i)%nat -> fs !! k = Some x ->
    loaded h x (default blank_file (fl !! k)) /\ vf_data (default blank_file (fl !! k)) <> pd.

Lemma in_table_fill h fl fs i pd x p buf : in_table h fl fs i pd -> (i < length fl)%nat -> fs !! i = Some x ->
  length (vf_name (default blank_file (fl !! i))) = 32%nat -> name_ok x.1.2 -> p <> 0 -> p <> pd -> h !! p = None ->
  slice 0 (Z.of_nat (length x.2)) buf = x.2 ->
  in_table (<[p := buf]> h) (<[i := filled (default blank_file (fl !! i)) x.1.2 p x]> fl) fs (Datatypes.S i) pd.
Proof.
  intros Ht Hi Hx Hn Hnm Hp Hpd Hh Hb k y Hk Hy. destruct (decide (k = i)) as [->|Hne].
  - rewrite Hx in Hy. injection Hy as <-. rewrite list_lookup_insert_eq by done. cbn [default from_option id].
    split; [by apply filled_loaded | done].
  - rewrite list_lookup_insert_ne by done. destruct (Ht k y ltac:(lia) Hy) as [Hl Hd]. split; [by apply loaded_insert | done].
Qed.

Lemma names32_fill fl k f nm p x : names32 fl -> fl !! Z.to_nat k = Some f -> (length nm < 32)%nat ->
  names32 (<[Z.to_nat k := filled f nm p x]> fl).
Proof.
  intros [Hl Hf] Hk Hn. split; [by rewrite length_insert|]. apply Forall_insert; [done|]. cbn [filled vf_name].
  apply (Forall_lookup_1 _ _ _ _ Hf) in Hk. rewrite length_splice; rewrite ?length_app; simpl; lia.
Qed.

Lemma dir_scan_loop_runs n i c sb fl r h0 h D L fs pd dbuf (Q : unit -> nox S -> Prop) :
  cok c ∅ D -> fs_ok (limit := limit) D sb L ->
  (forall x, x ∈ fs -> 0 < x.1.1 < U32_NEG1 /\ L x.1.1 /\ file_holds D (inode_at D sb x.1.1) x.2 /\
     i_size (inode_at D sb x.1.1) = Z.of_nat (length x.2)) ->
  dir_files dbuf (rf_entry <$> fs) -> h !! pd = Some dbuf -> names32 fl -> (length fs <= 24)%nat ->
  heap_room pick h0 25 (NSLOTS * 512 + 512) -> (size h <= size h0 + 1 + i)%nat -> (n + i = length fs)%nat -> in_table h fl fs i pd ->
  (forall c' fl' h', cok c' ∅ D -> names32 fl' -> in_table h' fl' fs (length fs) pd -> h' !! pd = Some dbuf ->
     (size h' <= size h0 + 1 + length fs)%nat ->
     Q tt (mkNox c' sb fl' (Z.of_nat (length fs)) r h')) ->
  runs (dir_scan_loop pick ata_read n (Z.of_nat i) pd) (mkNox c sb fl (Z.of_nat i) r h) Q.
Proof.
  intros Hc Hf Hx Hd Hpd Hfl Hfs Hroom. revert i c fl h Hc Hpd Hfl. induction n as [|n IH]; intros i c fl h Hc Hpd Hfl Hsz Hn Ht HQ; cbn [dir_scan_loop].
  { apply runs_ret. simpl in Hn. subst i. by apply HQ. }
  destruct (lookup_lt_is_Some_2 fs i ltac:(lia)) as [x Ei]. pose proof Hd as [[Hlen Hes] Hft]. rewrite length_fmap in Hlen, Hft.
  destruct (Hes i (rf_entry x)) as [Hnm (E0 & E6 & E8)]; [by rewrite list_lookup_fmap, Ei|]. unfold rf_entry in Hnm, E0, E6, E8.
  specialize (Hft i ltac:(lia)). destruct (Hx x ltac:(by eapply list_elem_of_lookup_2)) as (Hino & HL & Hh & Hs).
  pose proof Hnm as [Hnl _]. pose proof Hh as (Hmax & _). rewrite Hs in Hmax. unfold NSLOTS in Hmax.
  apply runs_bind. unfold runs at 1, gets. cbn [n_count]. rewrite (proj2 (Z.ltb_lt _ _)) by lia.
  unfold dirent_at. apply runs_bind, runs_bind. eapply hread_runs; [done | unfold DIRENT_SZ; lia | unfold DIRENT_SZ; lia | unfold DIRENT_SZ; lia |].
  apply runs_ret. unfold DIRENT_SZ. cbn [de_inode de_file_type de_name_len dirent_of_bytes]. rewrite E0, E6, Hft.
  rewrite (proj2 (Z.eqb_neq x.1.1 0)) by lia. cbn [orb negb Z.eqb Pos.eqb]. rewrite Z.min_r by lia.
  apply runs_bind. eapply hread_runs; [done | lia | lia | lia |].
  rewrite slice_slice in E8 by lia. rewrite E8.
  pose proof (load_size_pos (Z.of_nat (length x.2)) ltac:(lia)).
  destruct (Hroom h (load_size (Z.of_nat (length x.2)))) as (p & d0 & Hp & _); [lia | unfold NSLOTS; lia |].
  eapply (table_fill_runs c sb fl _ r h D L x p d0); try done; [lia|]. intros c1 buf Hc1 Hp0 Hph Hb.
  assert (p <> pd) by congruence. pose proof Hfl as [Hl24 Hf32]. rewrite Nat2Z.id. destruct (lookup_lt_is_Some_2 fl i ltac:(lia)) as [f Ef].
  replace (Z.of_nat i + 1) with (Z.of_nat (Datatypes.S i)) by lia. apply IH; try done.
  - by rewrite lookup_insert_ne.
  - rewrite Ef. cbn [default from_option id]. rewrite <- (Nat2Z.id i) at 1. apply names32_fill; [done | by rewrite Nat2Z.id | lia].
  - rewrite map_size_insert_None by done. lia.
  - lia.
  - apply in_table_fill; try done; [lia|]. rewrite Ef. apply (Forall_lookup_1 _ _ _ _ Hf32 Ef).
Qed.

(** ** The mount *)

Lemma dir_scan_runs c sb fl cnt r h D L fs root d (Q : os_status -> nox S -> Prop) :
  cok c ∅ D -> fs_ok (limit := limit) D sb L -> L root -> Z.land (i_mode (inode_at D sb root)) NOXFS_INO_DIR <> 0 ->
  i_size (inode_at D sb root) = 32 * Z.of_nat (length fs) -> file_holds D (inode_at D sb root) d -> dir_files d (rf_entry <$> fs) ->
  (forall x, x ∈ fs -> 0 < x.1.1 < U32_NEG1 /\ L x.1.1 /\ file_holds D (inode_at D sb x.1.1) x.2 /\
     i_size (inode_at D sb x.1.1) = Z.of_nat (length x.2)) ->
  names32 fl -> (length fs <= 24)%nat -> heap_room pick h 25 (NSLOTS * 512 + 512) ->
  (forall c' fl' h', cok c' ∅ D -> names32 fl' -> (forall k x, fs !! k = Some x -> loaded h' x (default blank_file (fl' !! k))) ->
     (size h' <= size h + length fs)%nat -> Q OS_OK (mkNox c' sb fl' (Z.of_nat (length fs)) r h')) ->
  runs (dir_scan pick ata_read root) (mkNox c sb fl cnt r h) Q.
Proof.
  intros Hc Hf HL Hmode Hsz Hh Hd Hx Hfl Hfs Hroom HQ. pose proof (f_live _ _ _ Hf root HL) as Hr.
  unfold dir_scan. apply runs_bind. eapply iread_runs; [done | apply Hf | by eapply cok_hold | done |]. intros c1 Hc1.
  change (is_ok OS_OK) with true. cbn [negb]. rewrite (proj2 (Z.eqb_neq _ 0)) by done.
  pose proof Hh as (Hmax & _). rewrite Hsz in Hmax. unfold NSLOTS in Hmax.
  pose proof (load_size_pos (32 * Z.of_nat (length fs)) ltac:(lia)) as Hls. pose proof (load_size_ge (32 * Z.of_nat (length fs)) ltac:(lia)) as Hge.
  destruct (Hroom h (load_size (32 * Z.of_nat (length fs)))) as (p & d0 & Hp & _); [lia | unfold NSLOTS; lia |].
  apply runs_bind. eapply (load_data_runs ata_read pick c1 _ _ _ _ _ D L root d p d0); [done | done | done | done | by rewrite Hsz |].
  rewrite Hsz. intros c2 buf Hc2 Hp0 Hph Hlen Hsl. rewrite (proj2 (Z.eqb_neq p 0)) by done. cbn [default from_option id].
  unfold DIRENT_SZ. replace (32 * Z.of_nat (length fs) / 32) with (Z.of_nat (length fs)) by (symmetry; rewrite Z.mul_comm; apply Z.div_mul; lia).
  apply runs_bind. unfold runs at 1, modify, set_count. cbn [n_bc n_sb n_files n_count n_ready n_heap].
  rewrite Nat2Z.id. apply runs_bind. eapply (dir_scan_loop_runs _ 0 c2 sb fl r h (<[p := buf]> h) D L fs p buf); try done.
  - eapply (dir_files_prefix d); rewrite ?length_fmap; [lia | done | done].
  - apply lookup_insert_eq.
  - rewrite map_size_insert_None by done. lia.
  - intros k x Hk. lia.
  - intros c3 fl3 h3 Hc3 Hfl3 Ht3 Hp3 Hs3. apply runs_bind. eapply kfree_runs. apply runs_ret. apply HQ; try done.
    2:{ rewrite map_size_delete_Some by (by eexists). lia. }
    intros k x Hk. destruct (Ht3 k x (lookup_lt_Some _ _ _ Hk) Hk) as [Hl3 Hd3]. by apply loaded_delete.
Qed.

Lemma noxfs_init_runs c sb0 fl cnt r h D L fs (Q : os_status -> nox S -> Prop) :
  bc_ready c -> (forall b, bc_disk c b = D b) -> volume D L fs -> names32 fl -> (length fs <= 24)%nat ->
  heap_room pick h 25 (NSLOTS * 512 + 512) ->
  (forall c' fl' h', cok c' ∅ D -> names32 fl' -> (forall k x, fs !! k = Some x -> loaded h' x (default blank_file (fl' !! k))) ->
     (size h' <= size h + length fs)%nat -> Q OS_OK (mkNox c' (sb_of_bytes (D 0)) fl' (Z.of_nat (length fs)) true h')) ->
  runs (noxfs_init pick ata_read) (mkNox c sb0 fl cnt r h) Q.
Proof.
  intros Hready HD [Hmagic Hf HL Hmode Hsz (d & Hh & _ & Hd) Hx] Hfl Hfs Hroom HQ. destruct (bc_init_ok c Hready) as [Hi Hv].
  assert (Hc : cok (bc_init c) ∅ D) by (split; [done | intros b; by rewrite Hv]).
  pose proof (m_geo _ _ (f_meta _ _ _ Hf)) as Hg. pose proof (geo_blocks _ Hg). pose proof (geo_data _ Hg).
  unfold noxfs_init. do 3 (apply runs_bind; unfold runs at 1, modify). unfold on_bc, set_count, set_ready.
  cbn [n_bc n_sb n_files n_count n_ready n_heap]. apply runs_bind.
  eapply bread_runs; [done | split; [rewrite map_size_empty; lia|]; split; [lia|]; intros k; by rewrite lookup_empty |].
  intros bp c1 Hc1 Hbp. apply runs_bind. eapply bdata_runs; [done | apply lookup_insert_eq |].
  rewrite Hmagic, Z.eqb_refl. cbn [negb]. apply runs_bind. unfold runs at 1, modify, set_sb. cbn [n_bc n_sb n_files n_count n_ready n_heap].
  apply runs_bind. eapply brelse_top; [done | done |]. intros c2 Hc2. apply runs_bind.
  eapply (dir_scan_runs c2 _ fl 0 false h D L fs _ d); try done.
  intros x E. destruct (Hx x E) as (? & _ & ? & ? & ? & _). done.
Qed.

(** ** Finding a file by name *)

Lemma find_name_loaded (s : nox S) h fs nm k x : (forall k x, fs !! k = Some x -> name_ok x.1.2 /\ loaded h x (file (Z.of_nat k) s)) ->
  NoDup ((fun x : rfile => x.1.2) <$> fs) -> Forall (fun c => 0 < c < 256) nm -> fs !! k = Some x -> x.1.2 = nm ->
  forall n i, (i <= k)%nat -> (k < i + n)%nat -> find_name n (Z.of_nat i) nm s = Some (Z.of_nat k).
Proof.
  intros Ht Hnd Hnm Hk Ex. induction n as [|n IH]; intros i Hi Hn; [lia|]. cbn [find_name].
  destruct (lookup_lt_is_Some_2 fs i ltac:(apply lookup_lt_Some in Hk; lia)) as [y Ey].
  destruct (Ht i y Ey) as [[_ Hy] (_ & Hs & _)]. rewrite (streq_stored _ _ _ Hy Hnm Hs).
  destruct (decide (y.1.2 = nm)) as [E|E].
  - rewrite bool_decide_eq_true_2 by done. do 2 f_equal.
    apply (NoDup_lookup ((fun x : rfile => x.1.2) <$> fs) i k nm Hnd); rewrite list_lookup_fmap; [by rewrite Ey; simpl; f_equal | by rewrite Hk; simpl; f_equal].
  - rewrite bool_decide_eq_false_2 by done. assert (i <> k) by (intros ->; congruence).
    replace (Z.of_nat i + 1) with (Z.of_nat (Datatypes.S i)) by lia. apply IH; lia.
Qed.

(** ** A mounted volume

    The first slots hold the files of the volume in order; every slot in use
    holds a copy of one of them. *)
Record mounted (D : disk) (fs : list rfile) (h0 : gmap Z (list Z)) (s : nox S) : Prop := {
  mt_cache : cok (n_bc s) ∅ D;
  mt_sb : n_sb s = sb_of_bytes (D 0);
  mt_ready : n_ready s = true;
  mt_names : names32 (n_files s);
  mt_count : Z.of_nat (length fs) <= n_count s <= 24;
  mt_heap : Z.of_nat (size (n_heap s)) <= Z.of_nat (size h0) + n_count s;
  mt_slots : forall k, 0 <= k < n_count s -> exists x, x ∈ fs /\ loaded (n_heap s) x (file k s);
  mt_files : forall k x, fs !! k = Some x -> loaded (n_heap s) x (file (Z.of_nat k) s)
}.

Definition names_ok (fs : list rfile) : Prop :=
  (forall x, x ∈ fs -> name_ok x.1.2 /\ comp_ok x.1.2) /\ NoDup ((fun x : rfile => x.1.2) <$> fs).

Lemma init_mounted c sb0 fl cnt r h D L fs : bc_ready c -> (forall b, bc_disk c b = D b) -> volume D L fs -> names32 fl ->
  (length fs <= 24)%nat -> heap_room pick h 25 (NSLOTS * 512 + 512) ->
  runs (noxfs_init pick ata_read) (mkNox c sb0 fl cnt r h)
    (fun res s => res = OS_OK /\ mounted D fs h s /\ n_count s = Z.of_nat (length fs)).
Proof.
  intros Hr HD Hv Hfl Hfs Hroom. eapply noxfs_init_runs; try done. intros c1 fl1 h1 Hc1 Hfl1 Ht1 Hs1. split; [done|]. split; [|done].
  assert (Hf : forall k x, fs !! k = Some x -> loaded h1 x (default blank_file (fl1 !! Z.to_nat (Z.of_nat k)))).
  { intros k x Hk. rewrite Nat2Z.id. by apply Ht1. }
  split; cbn [n_bc n_sb n_files n_count n_ready n_heap]; try done; [lia | lia |].
  intros k Hk. destruct (lookup_lt_is_Some_2 fs (Z.to_nat k) ltac:(lia)) as [x Ex]. exists x.
  split; [by eapply list_elem_of_lookup_2|]. specialize (Hf _ _ Ex). rewrite Z2Nat.id in Hf by lia. exact Hf.
Qed.

(** A bare name finds the copy made at mount time. *)
Lemma lookup_name_runs D fs h0 s k x (Q : option Z -> nox S -> Prop) : mounted D fs h0 s -> names_ok fs -> fs !! k = Some x ->
  Q (Some (Z.of_nat k)) s -> runs (noxfs_lookup pick ata_read x.1.2) s Q.
Proof.
  intros Hm [Hn Hnd] Hk HQ. destruct (Hn x ltac:(by eapply list_elem_of_lookup_2)) as [[_ Hx] _].
  pose proof (mt_count _ _ _ _ Hm). apply lookup_lt_Some in Hk as Hlt.
  unfold noxfs_lookup. apply runs_bind. unfold runs at 1, gets. rewrite (mt_ready _ _ _ _ Hm). cbn [negb].
  apply runs_bind. unfold runs at 1. change 0 with (Z.of_nat 0).
  rewrite (find_name_loaded s (n_heap s) fs _ k x); try done; [| lia | lia].
  intros j y Hj. split; [by apply Hn; eapply list_elem_of_lookup_2 | by apply (mt_files _ _ _ _ Hm)].
Qed.

Lemma find_name_miss (s : nox S) path : Forall (fun c => 0 < c < 256) path ->
  forall n i, (forall k, i <= k < i + Z.of_nat n -> exists nm, nm <> path /\ Forall (fun c => 0 < c < 256) nm /\
     slice 0 (Z.of_nat (length nm) + 1) (vf_name (file k s)) = nm ++ [0]) -> find_name n i path s = None.
Proof.
  intros Hp. induction n as [|n IH]; intros i Hk; [done|]. cbn [find_name].
  destruct (Hk i ltac:(lia)) as (nm & Hne & Hnm & Hs). rewrite (streq_stored nm), bool_decide_eq_false_2 by done.
  apply IH. intros k Hk'. apply Hk. lia.
Qed.

Lemma basename_abs nm : Forall (fun c => c <> 47) nm -> basename (47 :: nm) = nm.
Proof.
  intros H. unfold basename. cbn [Z.eqb Pos.eqb]. generalize nm at 2 3 as base. induction H as [|c nm Hc Hnm IH]; intros base; [done|].
  rewrite (proj2 (Z.eqb_neq c 47)) by done. apply IH.
Qed.

Lemma names_nodup fs : names_ok fs -> NoDup (snd <$> (rf_entry <$> fs)).
Proof. intros [_ H]. by rewrite <- list_fmap_compose. Qed.

Lemma volume_is_dir D L fs : volume D L fs ->
  is_dir D (sb_of_bytes (D 0)) (sb_root_ino (sb_of_bytes (D 0))) (rf_entry <$> fs).
Proof.
  intros [_ _ _ Hmode Hsz (d & Hh & Hok & [Hd _]) _]. split; [done|]. split; [by rewrite length_fmap|]. by exists d.
Qed.

Lemma mounted_cache D fs h0 c c' sb fl n r h : cok c' ∅ D -> mounted D fs h0 (mkNox c sb fl n r h) -> mounted D fs h0 (mkNox c' sb fl n r h).
Proof. intros Hc' [Hc Hsb Hr Hfl Hn Hh Hsl Hfi]. by split. Qed.

(** One more copy in the next slot. *)
Lemma mounted_fill D fs h0 c sb fl n r h x p buf : mounted D fs h0 (mkNox c sb fl n r h) -> x ∈ fs -> name_ok x.1.2 -> n < 24 ->
  p <> 0 -> h !! p = None -> slice 0 (Z.of_nat (length x.2)) buf = x.2 ->
  mounted D fs h0 (mkNox c sb (<[Z.to_nat n := filled (default blank_file (fl !! Z.to_nat n)) x.1.2 p x]> fl) (n + 1) r (<[p := buf]> h)).
Proof.
  intros [Hc Hsb Hr Hfl Hn Hh Hsl Hfi] Hx Hnm Hlt Hp0 Hp Hb. cbn [n_bc n_sb n_files n_count n_ready n_heap] in *.
  pose proof Hfl as [Hl Hf]. destruct (lookup_lt_is_Some_2 fl (Z.to_nat n) ltac:(lia)) as [f Ef]. rewrite Ef. cbn [default from_option id].
  assert (Hold : forall k y, 0 <= k < n -> loaded h y (default blank_file (fl !! Z.to_nat k)) ->
    loaded (<[p := buf]> h) y (default blank_file (<[Z.to_nat n := filled f x.1.2 p x]> fl !! Z.to_nat k))).
  { intros k y Hk Hy. rewrite list_lookup_insert_ne by lia. by apply loaded_insert. }
  split; unfold file in *; cbn [n_bc n_sb n_files n_count n_ready n_heap] in *; try done.
  - apply names32_fill; [done | done | destruct Hnm; lia].
  - lia.
  - rewrite map_size_insert_None by done. lia.
  - intros k Hk. destruct (decide (k = n)) as [->|Hne].
    + exists x. split; [done|]. rewrite list_lookup_insert_eq by lia. apply filled_loaded; try done. by apply (Forall_lookup_1 _ _ _ _ Hf Ef).
    + destruct (Hsl k ltac:(lia)) as (y & Hy & Hly). exists y. split; [done|]. apply Hold; [lia | done].
  - intros k y Hk. apply lookup_lt_Some in Hk as Hkl. apply Hold; [lia | by apply Hfi].
Qed.

(** [noxfs_lookup] once the path is resolved. *)
Definition load_path (name : list Z) (root ino : Z) : M (nox S) (option Z) :=
  if (ino =? U32_NEG1) || (ino =? root) then ret None
  else
    let* '(r, i) := iread ata_read ino in
    if negb (is_ok r) then ret None
    else if Z.land (i_mode i) NOXFS_INO_FILE =? 0 then ret None
    else
      let* k := gets n_count in
      if 24 <=? k then ret None
      else
        let* f := gets (file k) in
        do* set_name k (splice 0 (slice 0 31 (basename name) ++ [0]) (vf_name f)) in
        let* p := load_file pick ata_read k ino in
        if p =? 0 then ret None else do* finish_file k ino in ret (Some k).

Lemma load_path_runs D L fs h0 c fl n h x (Q : option Z -> nox S -> Prop) : volume D L fs -> names_ok fs -> x ∈ fs ->
  heap_room pick h0 25 (NSLOTS * 512 + 512) -> mounted D fs h0 (mkNox c (sb_of_bytes (D 0)) fl n true h) ->
  (forall s', mounted D fs h0 s' -> n < 24 -> n_count s' = n + 1 -> loaded (n_heap s') x (file n s') -> Q (Some n) s') ->
  (forall s', mounted D fs h0 s' -> n = 24 -> n_count s' = 24 -> Q None s') ->
  runs (load_path (47 :: x.1.2) (sb_root_ino (sb_of_bytes (D 0))) x.1.1) (mkNox c (sb_of_bytes (D 0)) fl n true h) Q.
Proof.
  intros Hv [Hn _] Hx Hroom Hm Hyes Hno. destruct (Hn x Hx) as [Hnx (_ & _ & Hsx & _)]. pose proof Hnx as [Hnl _].
  destruct (v_files _ _ _ Hv x Hx) as (Hino & Hne & HL & Hh & Hsz & Hmode). pose proof Hh as (Hmax & _). rewrite Hsz in Hmax. unfold NSLOTS in Hmax.
  pose proof (mt_count _ _ _ _ Hm) as Hcount. pose proof (mt_heap _ _ _ _ Hm) as Hheap. cbn [n_count n_heap] in Hcount, Hheap.
  set (sb := sb_of_bytes (D 0)) in *. unfold load_path. unfold U32_NEG1 in *.
  rewrite (proj2 (Z.eqb_neq x.1.1 _)), (proj2 (Z.eqb_neq x.1.1 (sb_root_ino sb))) by lia || done. cbn [orb].
  pose proof (f_live _ _ _ (v_fs _ _ _ Hv) _ HL) as Hlive. fold sb in Hlive.
  apply runs_bind. eapply iread_runs; [apply (mt_cache _ _ _ _ Hm) | apply (v_fs _ _ _ Hv) | eapply cok_hold, (mt_cache _ _ _ _ Hm) | done |].
  intros c1 Hc1. change (is_ok OS_OK) with true. cbn [negb]. rewrite (proj2 (Z.eqb_neq _ 0)) by done.
  apply (mounted_cache D fs h0 c c1) in Hm as Hm1; [|done].
  apply runs_bind. unfold runs at 1, gets. cbn [n_count]. destruct (Z.leb_spec 24 n) as [Hge|Hlt].
  { apply runs_ret. assert (n = 24) as -> by lia. by apply Hno. }
  rewrite basename_abs, (slice_all x.1.2) by (done || lia).
  pose proof (load_size_pos (Z.of_nat (length x.2)) ltac:(lia)).
  destruct (Hroom h (load_size (Z.of_nat (length x.2)))) as (p & d0 & Hp & _); [lia | unfold NSLOTS; lia |].
  eapply (table_fill_runs c1 sb fl n true h D L x p d0); try done; [apply (v_fs _ _ _ Hv) | lia | apply (mt_names _ _ _ _ Hm) |].
  intros c2 buf Hc2 Hp0 Hph Hb. apply runs_ret. apply (mounted_cache D fs h0 c c2) in Hm as Hm2; [|done].
  pose proof (mounted_fill D fs h0 c2 sb fl n true h x p buf Hm2 Hx Hnx Hlt Hp0 Hph Hb) as Hm3. apply Hyes; try done.
  destruct (mt_names _ _ _ _ Hm) as [Hl24 Hf32]. cbn [n_files] in Hl24, Hf32. unfold file. cbn [n_files n_heap].
  destruct (lookup_lt_is_Some_2 fl (Z.to_nat n) ltac:(lia)) as [f Ef]. rewrite list_lookup_insert_eq by lia. rewrite Ef. cbn [default from_option id].
  apply filled_loaded; try done. by apply (Forall_lookup_1 _ _ _ _ Hf32 Ef).
Qed.

(** A path from the root is not compared with the copies in the table: it takes
    a new slot while there is one, and fails when there is none. *)
Lemma lookup_path_runs D L fs h0 s x (Q : option Z -> nox S -> Prop) : volume D L fs -> names_ok fs -> x ∈ fs ->
  heap_room pick h0 25 (NSLOTS * 512 + 512) -> mounted D fs h0 s ->
  (forall s', mounted D fs h0 s' -> n_count s < 24 -> n_count s' = n_count s + 1 -> loaded (n_heap s') x (file (n_count s) s') ->
     Q (Some (n_count s)) s') ->
  (forall s', mounted D fs h0 s' -> n_count s = 24 -> n_count s' = 24 -> Q None s') ->
  runs (noxfs_lookup pick ata_read (47 :: x.1.2)) s Q.
Proof.
  intros Hv Hnames Hx Hroom Hm Hyes Hno. pose proof Hnames as [Hn _]. destruct (Hn x Hx) as [Hnx Hcx]. pose proof Hcx as (Hlx & Hbx & Hsx & _).
  destruct (v_files _ _ _ Hv x Hx) as (Hino & _).
  destruct s as [c sb fl n r h]. pose proof (mt_count _ _ _ _ Hm) as Hcount. pose proof (mt_heap _ _ _ _ Hm) as Hheap.
  pose proof (mt_ready _ _ _ _ Hm) as Hr. pose proof (mt_sb _ _ _ _ Hm) as Hsb. cbn [n_bc n_sb n_files n_count n_ready n_heap] in *. subst r sb.
  unfold noxfs_lookup. apply runs_bind. unfold runs at 1, gets. cbn [n_ready negb]. apply runs_bind. unfold runs at 1. cbn [n_count].
  rewrite find_name_miss.
  2:{ constructor; [lia | done]. }
  2:{ intros k Hk. destruct (mt_slots _ _ _ _ Hm k) as (y & Hy & (_ & Hs & _)); [cbn [n_count]; lia|]. exists y.1.2.
      destruct (Hn y Hy) as [[_ Hby] (_ & _ & Hsy & _)]. split_and!; [|done|done]. intros E. rewrite E in Hsy. by apply Forall_cons in Hsy as [? _]. }
  apply runs_bind. unfold runs at 1. cbn [n_sb].
  pose proof (volume_is_dir D L fs Hv) as Hd. destruct (list_elem_of_lookup_1 _ _ Hx) as [j Hj].
  pose proof (v_size _ _ _ Hv) as Hds. destruct (v_dir _ _ _ Hv) as (d & (Hdmax & _) & _). rewrite Hds in Hdmax. unfold NSLOTS in Hdmax.
  pose proof (load_size_pos (32 * Z.of_nat (length (rf_entry <$> fs))) ltac:(rewrite length_fmap; lia)) as Hls. rewrite length_fmap in Hls.
  destruct (Hroom h (load_size (32 * Z.of_nat (length (rf_entry <$> fs))))) as (p & d0 & Hp & _); [lia | rewrite length_fmap; unfold NSLOTS; lia |].
  apply runs_bind. eapply (resolve_runs ata_read pick c _ fl n h D L _ (rf_entry <$> fs) x.1.2 p d0);
    [apply (mt_cache _ _ _ _ Hm) | apply (v_fs _ _ _ Hv) | apply (v_root _ _ _ Hv) | done | done | done | by right |].
  intros c1 Hc1. rewrite (dir_get_lookup _ j x.1.1 x.1.2); [|by apply names_nodup|by rewrite list_lookup_fmap, Hj; destruct x as [[? ?] ?]|lia].
  apply (load_path_runs D L fs h0); try done. by apply (mounted_cache D fs h0 c c1).
Qed.

(** The same lookup [m] times. *)
Fixpoint lookups (m : nat) (path : list Z) : M (nox S) (list (option Z)) :=
  match m with
  | O => ret []
  | Datatypes.S m =>
      let* k := noxfs_lookup pick ata_read path in
      let* ks := lookups m path in
      ret (k :: ks)
  end.

(** The slots taken from slot [n] on, then failures. *)
Definition slots_from (n : Z) (m : nat) : list (option Z) :=
  (fun i => if i <? 24 then Some i else None) <$> seqZ n (Z.of_nat m).

Lemma slots_from_S n m : slots_from n (Datatypes.S m) = (if n <? 24 then Some n else None) :: slots_from (n + 1) m.
Proof. unfold slots_from. rewrite seqZ_cons by lia. cbn [fmap list_fmap]. f_equal. do 2 f_equal; lia. Qed.

Lemma slots_from_full n m : 24 <= n -> slots_from n m = replicate m None.
Proof.
  intros Hn. revert n Hn. induction m as [|m IH]; intros n Hn; [done|]. rewrite slots_from_S, IH by lia.
  by rewrite (proj2 (Z.ltb_ge n 24)) by lia.
Qed.

Lemma lookups_runs D L fs h0 x : volume D L fs -> names_ok fs -> x ∈ fs -> heap_room pick h0 25 (NSLOTS * 512 + 512) ->
  forall m s, mounted D fs h0 s -> runs (lookups m (47 :: x.1.2)) s (fun rs _ => rs = slots_from (n_count s) m).
Proof.
  intros Hv Hn Hx Hroom. induction m as [|m IH]; intros s Hm; [done|]. cbn [lookups]. apply runs_bind.
  rewrite slots_from_S. eapply lookup_path_runs; try done.
  - intros s1 Hm1 Hlt Hc1 _. apply runs_bind. eapply runs_mono; [by apply IH|]. intros ks s2 ->. apply runs_ret.
    rewrite Hc1. by rewrite (proj2 (Z.ltb_lt _ _) Hlt).
  - intros s1 Hm1 Hc Hc1. apply runs_bind. eapply runs_mono; [by apply IH|]. intros ks s2 ->. apply runs_ret.
    rewrite Hc1, Hc, !slots_from_full by lia. done.
Qed.

(** C37: opening a file by a path from the root fills the table.  After the
    mount of a volume whose files all fit in the table, every [noxfs_lookup] of
    "/" followed by the name of one of them takes a new slot, although a copy
    of the file is in the table; the lookups after the last slot fail, for a
    file that is on the disk. *)
Theorem path_lookups_exhaust_table c sb0 fl cnt r h D L fs x m :
  bc_ready c -> (forall b, bc_disk c b = D b) -> volume D L fs -> names_ok fs -> names32 fl -> (length fs <= 24)%nat ->
  heap_room pick h 25 (NSLOTS * 512 + 512) -> x ∈ fs ->
  runs (let* st := noxfs_init pick ata_read in
        let* rs := lookups m (47 :: x.1.2) in ret (st, rs)) (mkNox c sb0 fl cnt r h)
    (fun res _ => res = (OS_OK, slots_from (Z.of_nat (length fs)) m)).
Proof.
  intros Hr HD Hv Hn Hfl Hfs Hroom Hx. apply runs_bind. eapply runs_mono; [by apply (init_mounted c sb0 fl cnt r h D L fs)|].
  intros st s (-> & Hm & Hc). apply runs_bind. eapply runs_mono; [by apply (lookups_runs D L fs h x)|].
  intros rs s' ->. apply runs_ret. by rewrite Hc.
Qed.
End Mount.

End NoxMount.
