(* ===== verification/MkDisk.v ===== *)
(** * The disk image builder (tools/linux/build_disk.sh)

    The Python program of the build script that formats a 1 MB NoxFS volume and
    installs files in its root directory.  What it writes is specified in
    MkDiskSpec.v; that the kernel mounts it is proved in MkDiskMount.v.

    A computation without a result ([None]) is the program stopping with an
    error: [sys.exit] or an exception. *)
From S2P Require Import Prelude Bytes Buffer NoxFS NoxDisk NoxFiles NoxDir NoxMount.
Import NoxFS NoxDisk NoxFiles NoxDir NoxMount.

Module MkDisk.

Definition BLKSZ : Z := 512.
Definition INO_SZ : Z := 64.
Definition DT_SZ : Z := 32.
Definition INODES : Z := 64.
Definition DISK_SIZE : Z := 1 * 1024 * 1024.
Definition N_BLOCKS : Z := DISK_SIZE / BLKSZ.

(** [math.ceil(a / b)] *)
Definition cdiv (a b : Z) : Z := (a + b - 1) / b.

Definition INO_BLKS : Z := cdiv (INODES * INO_SZ) BLKSZ.
Definition BLK_BMP_BLK : Z := 1.
Definition INO_BMP_BLK : Z := 2.
Definition INO_TBL_BLK : Z := 3.
Definition DATA_START : Z := INO_TBL_BLK + INO_BLKS.
Definition DIRECT : Z := 10.

(** The variables of [main]. *)
Record mk := mkMk {
  img : mem;
  blk_bmp : list Z;
  ino_bmp : list Z;
  used_blks : Z;
  used_inos : Z;
  next_blk : Z;
  dirents : list (list Z)
}.
Abbreviation MM := (M mk).

Definition with_img (m : mem) (s : mk) : mk :=
  mkMk m (blk_bmp s) (ino_bmp s) (used_blks s) (used_inos s) (next_blk s) (dirents s).
Definition with_blk_bmp (l : list Z) (s : mk) : mk :=
  mkMk (img s) l (ino_bmp s) (used_blks s) (used_inos s) (next_blk s) (dirents s).
Definition with_ino_bmp (l : list Z) (s : mk) : mk :=
  mkMk (img s) (blk_bmp s) l (used_blks s) (used_inos s) (next_blk s) (dirents s).
Definition with_used_blks (n : Z) (s : mk) : mk :=
  mkMk (img s) (blk_bmp s) (ino_bmp s) n (used_inos s) (next_blk s) (dirents s).
Definition with_used_inos (n : Z) (s : mk) : mk :=
  mkMk (img s) (blk_bmp s) (ino_bmp s) (used_blks s) n (next_blk s) (dirents s).
Definition with_next (n : Z) (s : mk) : mk :=
  mkMk (img s) (blk_bmp s) (ino_bmp s) (used_blks s) (used_inos s) n (dirents s).
Definition with_dirents (l : list (list Z)) (s : mk) : mk :=
  mkMk (img s) (blk_bmp s) (ino_bmp s) (used_blks s) (used_inos s) (next_blk s) l.

Definition view {A} (f : mk -> A) : MM A := fun s => Some (f s, s).

(** [bmp[i // 8] |= (1 << (i % 8))] *)
Definition bit_or (d : list Z) (i : Z) : list Z :=
  <[Z.to_nat (i / 8) := Z.lor (byte d (i / 8)) (Z.shiftl 1 (i mod 8))]> d.

(** [img[a : a + len(l)] = l], within the image at every call. *)
Fixpoint poke (a : Z) (l : list Z) (m : mem) : mem :=
  match l with [] => m | x :: l => poke (a + 1) l (wr m a x) end.
Definition put (a : Z) (l : list Z) : MM unit := modify (fun s => with_img (poke a l (img s)) s).

(** [struct.pack_into] of one little-endian field of [n] bytes; a value that
    does not fit or a field that ends past the image is an exception. *)
Definition pack (n : nat) (off v : Z) : MM unit := fun s =>
  if (0 <=? v) && (v <? 256 ^ Z.of_nat n) && (off + Z.of_nat n <=? DISK_SIZE) then put off (le_bytes n v) s else None.

(** Consecutive 32-bit fields. *)
Fixpoint pack_all (off : Z) (l : list Z) : MM unit :=
  match l with [] => ret tt | v :: l => do* pack 4 off v in pack_all (off + 4) l end.

(** The scan of [alloc_blk] over [n] blocks from [b] on. *)
Fixpoint scan_free (n : nat) (b : Z) (bmp : list Z) : option Z :=
  match n with
  | O => None
  | S n => if Z.land (Z.shiftr (byte bmp (b / 8)) (b mod 8)) 1 =? 0 then Some b else scan_free n (b + 1) bmp
  end.

Definition alloc_blk : MM Z := fun s =>
  match scan_free (Z.to_nat (N_BLOCKS - next_blk s)) (next_blk s) (blk_bmp s) with
  | Some b => Some (b, with_next (b + 1) (with_blk_bmp (bit_or (blk_bmp s) b) s))
  | None => None
  end.

(** [b = alloc_blk(); used_blks += 1] *)
Definition take_blk : MM Z :=
  let* b := alloc_blk in
  do* modify (fun s => with_used_blks (used_blks s + 1) s) in
  ret b.

Fixpoint take_blks (n : nat) : MM (list Z) :=
  match n with
  | O => ret []
  | S n => let* b := take_blk in let* fb := take_blks n in ret (b :: fb)
  end.

(** [for j, b in enumerate(fb)]: chunk [j] of the data goes to block [b]. *)
Fixpoint write_chunks (j : Z) (fb : list Z) (fdata : list Z) : MM unit :=
  match fb with
  | [] => ret tt
  | b :: fb => do* put (b * BLKSZ) (slice (j * BLKSZ) BLKSZ fdata) in write_chunks (j + 1) fb fdata
  end.

(** [spec.index(':')]: the name before the first colon and the path after it. *)
Fixpoint split_spec (spec : list Z) : option (list Z * list Z) :=
  match spec with
  | [] => None
  | c :: spec => if c =? 58 then Some ([], spec)
                 else match split_spec spec with Some (n, p) => Some (c :: n, p) | None => None end
  end.

(** The directory entry of a file. *)
Definition dirent (ino_id : Z) (nb : list Z) : list Z :=
  splice 8 nb (le_bytes 4 ino_id ++ le_bytes 2 DT_SZ ++ [Z.of_nat (length nb); 1] ++ replicate 24 0).

Definition ascii (fname : list Z) : bool := forallb (fun c => (0 <=? c) && (c <? 128)) fname.

(** The body of the loop for a file that exists. *)
Definition install (fname fdata : list Z) : MM unit :=
  let fsz := Z.of_nat (length fdata) in
  let n_blks := Z.max 1 (cdiv fsz BLKSZ) in
  let* ino_id := view used_inos in
  do* modify (with_used_inos (ino_id + 1)) in
  let* fb := take_blks (Z.to_nat n_blks) in
  do* write_chunks 0 fb fdata in
  let f_off := INO_TBL_BLK * BLKSZ + ino_id * INO_SZ in
  do* pack 2 (f_off + 0) 0x81ED in
  do* pack 4 (f_off + 6) fsz in
  do* pack_all (f_off + 10) (take (Z.to_nat DIRECT) fb) in
  do* (if DIRECT <? n_blks then
         let* ind := take_blk in
         do* pack 4 (f_off + 50) ind in
         pack_all (ind * BLKSZ) (drop (Z.to_nat DIRECT) fb)
       else ret tt) in
  do* pack 2 (f_off + 54) 1 in
  do* modify (fun s => with_ino_bmp (bit_or (ino_bmp s) ino_id) s) in
  if negb (ascii fname) then fun _ => None
  else modify (fun s => with_dirents (dirents s ++ [dirent ino_id (take 23 fname)]) s).

(** [host] gives the contents of the files that exist. *)
Section Main.
Context (host : list Z -> option (list Z)).

Definition add_file (spec : list Z) : MM unit :=
  match split_spec spec with
  | None => fun _ => None
  | Some (fname, fpath) => match host fpath with None => ret tt | Some fdata => install fname fdata end
  end.

Fixpoint add_files (specs : list (list Z)) : MM unit :=
  match specs with [] => ret tt | spec :: specs => do* add_file spec in add_files specs end.

(** [for i in range(i, ...)]: more blocks for the root directory. *)
Fixpoint grow_root (n : nat) (i : Z) : MM (list Z) :=
  match n with
  | O => ret []
  | S n =>
      let* b := take_blk in
      do* pack 4 (INO_TBL_BLK * BLKSZ + 10 + i * 4) b in
      let* bs := grow_root n (i + 1) in
      ret (b :: bs)
  end.

Fixpoint write_dirents (i : Z) (rblocks : list Z) (des : list (list Z)) : MM unit :=
  match des with
  | [] => ret tt
  | de :: des =>
      let off := i * DT_SZ in
      do* put (nth (Z.to_nat (off / BLKSZ)) rblocks 0 * BLKSZ + off mod BLKSZ) de in
      write_dirents (i + 1) rblocks des
  end.

Definition write_root (root_data_blk : Z) : MM unit :=
  let* des := view dirents in
  let dir_sz := Z.of_nat (length des) * DT_SZ in
  let root_need := Z.max 1 (cdiv dir_sz BLKSZ) in
  let* more := grow_root (Z.to_nat (root_need - 1)) 1 in
  do* write_dirents 0 (root_data_blk :: more) des in
  pack 4 (INO_TBL_BLK * BLKSZ + 6) dir_sz.

(** The bitmaps and the superblock. *)
Definition write_meta : MM unit :=
  let* s := get in
  do* put (BLK_BMP_BLK * BLKSZ) (blk_bmp s) in
  do* put (INO_BMP_BLK * BLKSZ) (ino_bmp s) in
  pack_all 0 [NOXFS_MAGIC; N_BLOCKS; INODES; N_BLOCKS - used_blks s; INODES - used_inos s;
              BLK_BMP_BLK; INO_BMP_BLK; INO_TBL_BLK; DATA_START; 0].

(** The variables before the first allocation. *)
Definition start : mk :=
  mkMk ∅ (for_up 0 DATA_START (fun i d => bit_or d i) (replicate 512 0)) (bit_or (replicate 512 0) 0)
       DATA_START 1 DATA_START [].

Definition format : MM Z :=
  let* root_data_blk := take_blk in
  let r_off := INO_TBL_BLK * BLKSZ in
  do* pack 2 (r_off + 0) 0x41ED in
  do* pack 4 (r_off + 10) root_data_blk in
  do* pack 2 (r_off + 54) 1 in
  ret root_data_blk.

Definition main (specs : list (list Z)) : MM unit :=
  let* root_data_blk := format in
  do* add_files specs in
  do* write_root root_data_blk in
  write_meta.

Definition mkdisk (specs : list (list Z)) : option mem :=
  match main specs start with Some (_, s) => Some (img s) | None => None end.
End Main.

End MkDisk.
