(* ===== verification/MkDiskSpec.v ===== *)
(** * The disk image builder: what it writes

    The layout of the image as an invariant of the builder, and that each of its
    steps establishes or keeps it. *)
From S2P Require Import Prelude Bytes Buffer NoxFS NoxDisk NoxFiles NoxDir NoxMount MkDisk.
Import NoxFS NoxDisk NoxFiles NoxDir NoxMount MkDisk.

Module MkDiskSpec.

(** ** The image as bytes, fields and blocks *)

Definition peek (m : mem) (a n : Z) : list Z := (fun i => rd m (a + i)) <$> seqZ 0 n.
Definition rd16 (m : mem) (a : Z) : Z := le_val (peek m a 2).
Definition rd32 (m : mem) (a : Z) : Z := le_val (peek m a 4).
Definition blocks_of (m : mem) : disk := fun b => peek m (b * 512) 512.

Lemma length_peek m a n : length (peek m a n) = Z.to_nat n.
Proof. unfold peek. rewrite length_fmap, length_seqZ. lia. Qed.

Lemma lookup_peek m a n k : peek m a n !! k = if decide (k < Z.to_nat n)%nat then Some (rd m (a + Z.of_nat k)) else None.
Proof.
  unfold peek. rewrite list_lookup_fmap. destruct (decide _).
  - rewrite lookup_seqZ_lt by lia. done.
  - rewrite lookup_seqZ_ge by lia. done.
Qed.

Lemma slice_peek m a n o k : 0 <= o -> 0 <= k -> o + k <= n -> slice o k (peek m a n) = peek m (a + o) k.
Proof.
  intros. apply list_eq. intros i. rewrite lookup_slice, !lookup_peek by lia. destruct (decide _); [|done].
  rewrite decide_True by lia. do 2 f_equal. lia.
Qed.

Lemma peek_ext m m' a n : (forall x, a <= x < a + n -> rd m' x = rd m x) -> peek m' a n = peek m a n.
Proof. intros H. apply list_eq. intros i. rewrite !lookup_peek. destruct (decide _); [|done]. f_equal. apply H. lia. Qed.

Lemma byte_peek m a n i : 0 <= i < n -> byte (peek m a n) i = rd m (a + i).
Proof. intros H. rewrite byte_lookup, lookup_peek, decide_True by lia. simpl. f_equal. lia. Qed.

Lemma peek_eq m a l : (forall i x, l !! i = Some x -> rd m (a + Z.of_nat i) = x) -> peek m a (Z.of_nat (length l)) = l.
Proof.
  intros H. apply list_eq. intros i. rewrite lookup_peek, Nat2Z.id. destruct (decide _) as [Hi|Hi].
  - destruct (lookup_lt_is_Some_2 l i Hi) as [x Ex]. by rewrite Ex, (H i x).
  - by rewrite lookup_ge_None_2 by lia.
Qed.

(** Images hold bytes. *)
Definition img_ok (m : mem) : Prop := forall a, 0 <= rd m a < 256.

Lemma peek_ok m a n : img_ok m -> bytes_ok (peek m a n).
Proof. intros H. apply Forall_fmap, Forall_forall. intros i _. apply H. Qed.

(** [m'] differs from [m] at most in [a .. b). *)
Definition frame (a b : Z) (m m' : mem) : Prop := forall x, x < a \/ b <= x -> rd m' x = rd m x.

Lemma frame_peek a b m m' p n : frame a b m m' -> p + n <= a \/ b <= p -> peek m' p n = peek m p n.
Proof. intros H Hd. apply peek_ext. intros x Hx. apply H. lia. Qed.
Lemma frame_rd32 a b m m' p : frame a b m m' -> p + 4 <= a \/ b <= p -> rd32 m' p = rd32 m p.
Proof. intros. unfold rd32. by erewrite frame_peek. Qed.
Lemma frame_rd16 a b m m' p : frame a b m m' -> p + 2 <= a \/ b <= p -> rd16 m' p = rd16 m p.
Proof. intros. unfold rd16. by erewrite frame_peek. Qed.

Lemma rd_poke a l m x : rd (poke a l m) x = if (a <=? x) && (x <? a + Z.of_nat (length l)) then byte l (x - a) else rd m x.
Proof.
  revert a m. induction l as [|y l IH]; intros a m; cbn [poke].
  - destruct (Z.leb_spec a x), (Z.ltb_spec x (a + Z.of_nat (length (@nil Z)))); simpl in *; lia || done.
  - rewrite IH. cbn [length]. destruct (Z.eq_dec x a) as [->|Hne].
    + rewrite (proj2 (Z.leb_gt (a + 1) a)), (proj2 (Z.leb_le a a)), (proj2 (Z.ltb_lt a (a + Z.of_nat (S (length l))))) by lia. cbn [andb]. by rewrite rd_wr_eq, Z.sub_diag.
    + rewrite rd_wr_ne by done. destruct (Z.leb_spec (a + 1) x), (Z.leb_spec a x); try lia; cbn [andb]; [|done].
      replace (a + 1 + Z.of_nat (length l)) with (a + Z.of_nat (S (length l))) by lia. destruct (Z.ltb_spec x (a + Z.of_nat (S (length l)))); [|done].
      unfold byte. replace (Z.to_nat (x - a)) with (S (Z.to_nat (x - (a + 1)))) by lia. done.
Qed.

Lemma poke_frame a l m : frame a (a + Z.of_nat (length l)) m (poke a l m).
Proof. intros x Hx. rewrite rd_poke. destruct (Z.leb_spec a x), (Z.ltb_spec x (a + Z.of_nat (length l))); simpl; lia || done. Qed.

Lemma peek_poke a l m : peek (poke a l m) a (Z.of_nat (length l)) = l.
Proof.
  apply peek_eq. intros i x Hi. apply lookup_lt_Some in Hi as Hl. rewrite rd_poke.
  rewrite (proj2 (Z.leb_le _ _)), (proj2 (Z.ltb_lt _ _)) by lia. cbn [andb]. rewrite byte_lookup.
  replace (Z.to_nat (a + Z.of_nat i - a)) with i by lia. by rewrite Hi.
Qed.

Lemma poke_ok a l m : img_ok m -> bytes_ok l -> img_ok (poke a l m).
Proof. intros Hm Hl x. rewrite rd_poke. destruct (_ && _); [by apply byte_range | apply Hm]. Qed.

(** ** Rules for the builder's operations *)

Lemma put_runs a l s (Q : unit -> mk -> Prop) :
  (forall m', frame a (a + Z.of_nat (length l)) (img s) m' -> peek m' a (Z.of_nat (length l)) = l ->
     (img_ok (img s) -> bytes_ok l -> img_ok m') -> Q tt (with_img m' s)) -> runs (put a l) s Q.
Proof. intros HQ. unfold runs, put, modify. apply HQ; [apply poke_frame | apply peek_poke | apply poke_ok]. Qed.

Lemma pack_runs n off v s (Q : unit -> mk -> Prop) : 0 <= v < 256 ^ Z.of_nat n -> off + Z.of_nat n <= DISK_SIZE ->
  (forall m', frame off (off + Z.of_nat n) (img s) m' -> le_val (peek m' off (Z.of_nat n)) = v ->
     (img_ok (img s) -> img_ok m') -> Q tt (with_img m' s)) -> runs (pack n off v) s Q.
Proof.
  intros Hv Ho HQ. unfold runs, pack. rewrite (proj2 (Z.leb_le 0 v)), (proj2 (Z.ltb_lt v _)), (proj2 (Z.leb_le (off + _) _)) by lia. cbn [andb].
  apply (put_runs off (le_bytes n v) s). rewrite length_le_bytes. intros m' Hf Hp Hok. apply HQ; [done | |].
  - rewrite Hp. by apply le_val_bytes.
  - intros H. apply Hok; auto with bytes.
Qed.

Lemma pack_all_runs l off s (Q : unit -> mk -> Prop) : Forall (fun v => 0 <= v < 2 ^ 32) l -> off + 4 * Z.of_nat (length l) <= DISK_SIZE ->
  (forall m', frame off (off + 4 * Z.of_nat (length l)) (img s) m' ->
     (forall k v, l !! k = Some v -> rd32 m' (off + 4 * Z.of_nat k) = v) ->
     (img_ok (img s) -> img_ok m') -> Q tt (with_img m' s)) -> runs (pack_all off l) s Q.
Proof.
  revert off s. induction l as [|v l IH]; intros off s Hl Ho HQ; cbn [pack_all].
  - apply runs_ret. destruct s. apply HQ; [done | done | done].
  - apply Forall_cons in Hl as [Hv Hl]. cbn [length] in *. apply runs_bind. apply pack_runs; [done | lia |]. intros m1 Hf1 Hv1 Hok1.
    apply IH; [done | lia |]. cbn [img with_img]. intros m2 Hf2 Hv2 Hok2. apply HQ; [| | tauto].
    + intros x Hx. rewrite Hf2, Hf1 by lia. done.
    + intros [|k] w Hk; [injection Hk as <-|].
      * rewrite Z.mul_0_r, Z.add_0_r. rewrite (frame_rd32 _ _ _ _ _ Hf2) by lia. done.
      * cbn [lookup list_lookup] in Hk. rewrite <- (Hv2 _ _ Hk). f_equal. lia.
Qed.

(** ** Allocation *)

(** A bitmap whose first [n] bits are set. *)
Definition upto (d : list Z) (n : Z) : Prop :=
  length d = 512%nat /\ bytes_ok d /\ forall b, 0 <= b < 4096 -> bit_set d b = (b <? n).

Lemma bit_or_mark d i : bytes_ok d -> 0 <= i -> bit_or d i = mark d i.
Proof.
  intros Hd Hi. unfold bit_or, mark. f_equal. pose proof (byte_range d (i / 8) Hd) as Hb. pose proof (Z.mod_pos_bound i 8 ltac:(lia)).
  symmetry. apply Z.mod_small. split; [apply Z.lor_nonneg; split; [lia | apply Z.shiftl_nonneg; lia]|].
  apply Z.log2_lt_cancel. rewrite Z.log2_lor by (try apply Z.shiftl_nonneg; lia). change (Z.log2 (2 ^ 8)) with 8.
  assert (Z.log2 (byte d (i / 8)) < 8). { destruct (Z.eq_dec (byte d (i / 8)) 0) as [->|]; [done|]. apply Z.log2_lt_pow2; lia. }
  rewrite Z.log2_shiftl by lia. simpl. lia.
Qed.

Lemma upto_step d n : upto d n -> 0 <= n < 4096 -> upto (bit_or d n) (n + 1).
Proof.
  intros (Hl & Hok & Hb) Hn. rewrite bit_or_mark by (done || lia). split; [by rewrite length_mark|]. split; [by apply bytes_ok_mark|].
  intros b Hb'. rewrite bit_set_mark by (done || lia). destruct (decide (b = n)) as [->|Hne].
  - rewrite bool_decide_eq_true_2 by done. symmetry. apply Z.ltb_lt. lia.
  - rewrite bool_decide_eq_false_2, Hb by (done || lia). destruct (Z.ltb_spec b n), (Z.ltb_spec b (n + 1)); lia || done.
Qed.

Lemma scan_free_upto d n : upto d n -> 0 <= n < 2048 -> scan_free (Z.to_nat (N_BLOCKS - n)) n d = Some n.
Proof.
  intros (_ & _ & Hb) Hn. change N_BLOCKS with 2048. destruct (Z.to_nat (2048 - n)) as [|k] eqn:E; [lia|]. cbn [scan_free].
  rewrite land_1_testbit by (apply Z.mod_pos_bound; lia). fold (bit_set d n). rewrite Hb by lia. by rewrite Z.ltb_irrefl.
Qed.

(** The builder's counters: blocks are handed out in order. *)
Definition counted (s : mk) : Prop := used_blks s = next_blk s /\ upto (blk_bmp s) (next_blk s) /\ 0 <= next_blk s.

Definition took (n : Z) (s s' : mk) : Prop :=
  img s' = img s /\ ino_bmp s' = ino_bmp s /\ used_inos s' = used_inos s /\ dirents s' = dirents s /\
  next_blk s' = next_blk s + n /\ counted s'.

Lemma take_blk_runs s (Q : Z -> mk -> Prop) : counted s -> next_blk s < 2048 ->
  (forall s', took 1 s s' -> Q (next_blk s) s') -> runs take_blk s Q.
Proof.
  intros (Hu & Hb & H0) Hn HQ. unfold take_blk. apply runs_bind. unfold runs at 1, alloc_blk. rewrite scan_free_upto by (done || lia).
  unfold runs, bind, modify, ret. apply HQ. split_and!; try done. unfold counted. cbn [used_blks next_blk blk_bmp with_used_blks with_next with_blk_bmp].
  split_and!; [lia | apply upto_step; [done | lia] | lia].
Qed.

Lemma take_blks_runs n s (Q : list Z -> mk -> Prop) : counted s -> next_blk s + Z.of_nat n <= 2048 ->
  (forall s', took (Z.of_nat n) s s' -> Q (seqZ (next_blk s) (Z.of_nat n)) s') -> runs (take_blks n) s Q.
Proof.
  revert s Q. induction n as [|n IH]; intros s Q Hc Hn HQ; cbn [take_blks].
  - apply runs_ret. apply HQ. split_and!; try done. lia.
  - apply runs_bind. apply take_blk_runs; [done | lia |]. intros s1 (E1 & E2 & E3 & E4 & E5 & Hc1).
    apply runs_bind. apply IH; [done | lia |]. intros s2 (F1 & F2 & F3 & F4 & F5 & Hc2). apply runs_ret.
    rewrite E5 in *. replace (next_blk s :: seqZ (next_blk s + 1) (Z.of_nat n)) with (seqZ (next_blk s) (Z.of_nat (S n))).
    + apply HQ. split_and!; try congruence; try done; lia.
    + rewrite seqZ_cons by lia. f_equal. f_equal; lia.
Qed.

(** ** Installing a file *)

Definition flen (d : list Z) : Z := Z.of_nat (length d).
(** Data blocks of a file, and all its blocks. *)
Definition nblk (d : list Z) : Z := Z.max 1 (cdiv (flen d) BLKSZ).
Definition foot (d : list Z) : Z := nblk d + (if 10 <? nblk d then 1 else 0).

Lemma cdiv_blocks n : cdiv n 512 = nblocks n.
Proof. unfold cdiv, nblocks. f_equal. lia. Qed.

Lemma nblk_bounds d : 1 <= nblk d /\ flen d <= nblk d * 512.
Proof.
  unfold nblk, BLKSZ. rewrite cdiv_blocks. unfold nblocks, flen. pose proof (Z.div_mod (Z.of_nat (length d) + 511) 512).
  pose proof (Z.mod_pos_bound (Z.of_nat (length d) + 511) 512). lia.
Qed.

Lemma write_chunks_runs d n : forall b j s (Q : unit -> mk -> Prop), 0 <= j -> 0 <= b -> flen d <= (j + Z.of_nat n) * 512 ->
  (forall m', (forall x, rd m' x = if (b * 512 <=? x) && (x <? b * 512 + (flen d - j * 512)) then byte d (j * 512 + (x - b * 512)) else rd (img s) x) ->
     (img_ok (img s) -> bytes_ok d -> img_ok m') -> Q tt (with_img m' s)) ->
  runs (write_chunks j (seqZ b (Z.of_nat n)) d) s Q.
Proof.
  induction n as [|n IH]; intros b j s Q Hj Hb Hn HQ.
  - cbn [seqZ write_chunks]. apply runs_ret. destruct s. apply HQ; [|done]. intros x. cbn [img].
    destruct (Z.leb_spec (b * 512) x), (Z.ltb_spec x (b * 512 + (flen d - j * 512))); simpl; lia || done.
  - rewrite seqZ_cons by lia. cbn [write_chunks]. replace (Z.pred (Z.of_nat (S n))) with (Z.of_nat n) by lia.
    apply runs_bind. unfold runs at 1, put, modify. unfold Z.succ. apply IH; [lia | lia | lia |]. cbn [img with_img]. intros m' Hm' Hok.
    unfold BLKSZ in *. set (ck := slice (j * 512) 512 d) in *.
    assert (Hck : Z.of_nat (length ck) = Z.max 0 (Z.min 512 (flen d - j * 512))).
    { unfold ck, slice, flen. rewrite length_take, length_drop. lia. }
    apply HQ.
    + intros x. rewrite Hm', rd_poke, Hck. replace ((b + 1) * 512) with (b * 512 + 512) by lia. replace ((j + 1) * 512) with (j * 512 + 512) by lia.
      destruct (Z.leb_spec (b * 512 + 512) x), (Z.ltb_spec x (b * 512 + 512 + (flen d - (j * 512 + 512)))), (Z.leb_spec (b * 512) x),
        (Z.ltb_spec x (b * 512 + (flen d - j * 512))), (Z.ltb_spec x (b * 512 + Z.max 0 (Z.min 512 (flen d - j * 512)))); cbn [andb]; try lia; try done.
      * f_equal. lia.
      * unfold ck. rewrite byte_slice by lia. done.
    + intros H1 H2. apply Hok; [|done]. apply poke_ok; [done | by apply bytes_ok_slice].
Qed.

(** File [ino] of the image has its data from block [b] on. *)
Definition slot_off (ino : Z) : Z := 1536 + ino * 64.
Record placed (m : mem) (ino b : Z) (d : list Z) : Prop := {
  pl_mode : rd16 m (slot_off ino) = 0x81ED;
  pl_size : rd32 m (slot_off ino + 6) = flen d;
  pl_dir : forall j, 0 <= j < 10 -> rd32 m (slot_off ino + 10 + 4 * j) = if j <? nblk d then b + j else 0;
  pl_ind : rd32 m (slot_off ino + 50) = if 10 <? nblk d then b + nblk d else 0;
  pl_ptr : 10 < nblk d -> forall j, 0 <= j < 128 -> rd32 m ((b + nblk d) * 512 + 4 * j) = if 10 + j <? nblk d then b + (10 + j) else 0;
  pl_data : forall x, 0 <= x < flen d -> rd m (b * 512 + x) = byte d x
}.

(** What lies outside a file's inode and blocks does not matter to it. *)
Lemma placed_frame m m' ino b d :
  (forall x, slot_off ino <= x < slot_off ino + 64 \/ b * 512 <= x < (b + foot d) * 512 -> rd m' x = rd m x) ->
  placed m ino b d -> placed m' ino b d.
Proof.
  intros H [H1 H2 H3 H4 H5 H6]. pose proof (nblk_bounds d) as [Hn1 Hn2]. unfold foot in H.
  assert (E32 : forall p, slot_off ino <= p <= slot_off ino + 60 \/ b * 512 <= p /\ p + 4 <= (b + foot d) * 512 -> rd32 m' p = rd32 m p).
  { intros p Hp. unfold rd32. f_equal. apply peek_ext. intros x Hx. apply H. unfold foot in Hp. lia. }
  unfold foot in E32. split.
  - rewrite <- H1. unfold rd16. f_equal. apply peek_ext. intros x Hx. apply H. lia.
  - rewrite E32 by lia. done.
  - intros j Hj. rewrite E32 by lia. by apply H3.
  - rewrite E32 by lia. done.
  - intros Hn j Hj. rewrite E32; [by apply H5|]. rewrite (proj2 (Z.ltb_lt 10 _)) by done. lia.
  - intros x Hx. rewrite H; [by apply H6|]. destruct (10 <? nblk d); lia.
Qed.

Lemma rd32_zero m p : (forall x, p <= x < p + 4 -> rd m x = 0) -> rd32 m p = 0.
Proof.
  intros H. unfold rd32. replace (peek m p 4) with (peek ∅ p 4); [done|]. symmetry. apply peek_ext. intros x Hx. by rewrite H.
Qed.

(** The counters and tables after a step that only writes the image and takes
    [n] blocks. *)
Definition advanced (n : Z) (s s' : mk) : Prop :=
  ino_bmp s' = ino_bmp s /\ used_inos s' = used_inos s /\ dirents s' = dirents s /\
  next_blk s' = next_blk s + n /\ counted s' /\ (img_ok (img s) -> img_ok (img s')).

(** The indirect block of a file of [nb] blocks from [b] on. *)
Lemma indirect_pointers_runs o b nb s (Q : unit -> mk -> Prop) : counted s -> next_blk s = b + nb -> 12 <= b -> 1 <= nb <= 138 ->
  b + nb + (if 10 <? nb then 1 else 0) <= 2048 -> 1536 <= o -> o + 64 <= 5632 ->
  (forall s', advanced (if 10 <? nb then 1 else 0) s s' ->
     (forall x, (x < o + 50 \/ o + 54 <= x) -> (x < (b + nb) * 512 \/ (b + nb) * 512 + 4 * (nb - 10) <= x) -> rd (img s') x = rd (img s) x) ->
     (if 10 <? nb then rd32 (img s') (o + 50) = b + nb else img s' = img s) ->
     (forall j, 0 <= j < nb - 10 -> rd32 (img s') ((b + nb) * 512 + 4 * j) = b + (10 + j)) -> Q tt s') ->
  runs (if 10 <? nb then
          let* ind := take_blk in
          do* pack 4 (o + 50) ind in
          pack_all (ind * BLKSZ) (drop (Z.to_nat DIRECT) (seqZ b nb))
        else ret tt) s Q.
Proof.
  intros Hc Hnx Hb Hnb Hmax Ho Ho' HQ. destruct (Z.ltb_spec 10 nb) as [Hlt|Hge].
  2:{ apply runs_ret. apply HQ; try done; [|intros; lia]. split_and!; try done. lia. }
  apply runs_bind. apply take_blk_runs; [done | lia |]. intros s1 (E1 & E2 & E3 & E4 & E5 & Hc1). rewrite Hnx in *.
  apply runs_bind. apply pack_runs; [change (256 ^ Z.of_nat 4) with (2 ^ 32); lia | unfold DISK_SIZE; lia |]. intros m1 Hf1 Hv1 Hok1.
  rewrite E1 in Hf1, Hok1. assert (Hdl : Z.of_nat (length (drop (Z.to_nat DIRECT) (seqZ b nb))) = nb - 10).
  { rewrite length_drop, length_seqZ. change (Z.to_nat DIRECT) with 10%nat. lia. }
  apply pack_all_runs.
  { apply Forall_drop, Forall_seqZ. intros; lia. }
  { rewrite Hdl. unfold BLKSZ, DISK_SIZE. lia. }
  rewrite Hdl. unfold BLKSZ. cbn [img with_img]. intros m2 Hf2 Hv2 Hok2. apply HQ; cbn [img with_img].
  - split_and!; cbn; try done; [lia|]. tauto.
  - intros x Hx1 Hx2. rewrite Hf2, Hf1 by lia. done.
  - rewrite (frame_rd32 _ _ _ _ _ Hf2) by lia. exact Hv1.
  - intros j Hj. rewrite <- (Z2Nat.id j) at 1 by lia. apply Hv2. rewrite lookup_drop, lookup_seqZ_lt by (change (Z.to_nat DIRECT) with 10%nat; lia).
    f_equal. change (Z.to_nat DIRECT) with 10%nat. lia.
Qed.

(** What an installed file changes. *)
Record installed (nm d : list Z) (s s' : mk) : Prop := {
  in_placed : placed (img s') (used_inos s) (next_blk s) d;
  in_frame : forall x, (x < slot_off (used_inos s) \/ slot_off (used_inos s) + 64 <= x) ->
               (x < next_blk s * 512 \/ (next_blk s + foot d) * 512 <= x) -> rd (img s') x = rd (img s) x;
  in_ok : img_ok (img s');
  in_counted : counted s';
  in_next : next_blk s' = next_blk s + foot d;
  in_inos : used_inos s' = used_inos s + 1;
  in_ibmp : upto (ino_bmp s') (used_inos s + 1);
  in_dirents : dirents s' = dirents s ++ [dirent (used_inos s) (take 23 nm)]
}.

(** The image part: where the writes go, given that the file's inode and its
    blocks were zero. *)
Lemma placed_written m m1 m2 m3 m4 m5 m6 ino b d :
  1 <= ino < 64 -> 12 <= b -> nblk d <= 138 ->
  (forall x, slot_off ino <= x < slot_off ino + 64 \/ b * 512 <= x -> rd m x = 0) ->
  (forall x, rd m1 x = if (b * 512 <=? x) && (x <? b * 512 + (flen d - 0 * 512)) then byte d (0 * 512 + (x - b * 512)) else rd m x) ->
  frame (slot_off ino) (slot_off ino + Z.of_nat 2) m1 m2 -> rd16 m2 (slot_off ino) = 0x81ED ->
  frame (slot_off ino + 6) (slot_off ino + 6 + Z.of_nat 4) m2 m3 -> rd32 m3 (slot_off ino + 6) = flen d ->
  frame (slot_off ino + 10) (slot_off ino + 10 + 4 * Z.min 10 (nblk d)) m3 m4 ->
  (forall j, 0 <= j < Z.min 10 (nblk d) -> rd32 m4 (slot_off ino + 10 + 4 * j) = b + j) ->
  (forall x, (x < slot_off ino + 50 \/ slot_off ino + 54 <= x) ->
     (x < (b + nblk d) * 512 \/ (b + nblk d) * 512 + 4 * (nblk d - 10) <= x) -> rd m5 x = rd m4 x) ->
  (if 10 <? nblk d then rd32 m5 (slot_off ino + 50) = b + nblk d else m5 = m4) ->
  (forall j, 0 <= j < nblk d - 10 -> rd32 m5 ((b + nblk d) * 512 + 4 * j) = b + (10 + j)) ->
  frame (slot_off ino + 54) (slot_off ino + 54 + Z.of_nat 2) m5 m6 ->
  placed m6 ino b d.
Proof.
  unfold slot_off. set (o := 1536 + ino * 64). intros Hino Hb Hnb Hz F1 F2 V2 F3 V3 F4 V4 F5 V5 P5 F6.
  pose proof (nblk_bounds d) as [Hn1 Hn2]. assert (0 <= flen d) by (unfold flen; lia). assert (Ho : o + 64 <= 5632) by (unfold o; lia).
  assert (E5 : forall p, p + 4 <= o + 50 \/ o + 54 <= p -> p + 4 <= (b + nblk d) * 512 \/ (b + nblk d) * 512 + 4 * (nblk d - 10) <= p -> rd32 m5 p = rd32 m4 p).
  { intros p H1 H2. unfold rd32. f_equal. apply peek_ext. intros x Hx. apply F5; lia. }
  assert (E1 : forall x, x < b * 512 \/ b * 512 + flen d <= x -> rd m1 x = rd m x).
  { intros x Hx. rewrite F1. destruct (Z.leb_spec (b * 512) x), (Z.ltb_spec x (b * 512 + (flen d - 0 * 512))); cbn [andb]; lia || done. }
  assert (Z4 : forall x, o + 50 <= x < o + 54 \/ b * 512 + flen d <= x -> rd m4 x = 0).
  { intros x Hx. rewrite F4, F3, F2, E1 by lia. apply Hz. fold o. lia. }
  split; fold o; unfold slot_off; fold o.
  - rewrite (frame_rd16 _ _ _ _ _ F6) by lia. transitivity (rd16 m4 o).
    { unfold rd16. f_equal. apply peek_ext. intros x Hx. apply F5; lia. }
    rewrite (frame_rd16 _ _ _ _ _ F4), (frame_rd16 _ _ _ _ _ F3) by lia. done.
  - rewrite (frame_rd32 _ _ _ _ _ F6), E5, (frame_rd32 _ _ _ _ _ F4) by lia. done.
  - intros j Hj. rewrite (frame_rd32 _ _ _ _ _ F6), E5 by lia. destruct (Z.ltb_spec j (nblk d)); [apply V4; lia|].
    apply rd32_zero. intros x Hx. rewrite F4, F3, F2, E1 by lia. apply Hz. fold o. lia.
  - rewrite (frame_rd32 _ _ _ _ _ F6) by lia. destruct (Z.ltb_spec 10 (nblk d)); [done|]. rewrite V5.
    apply rd32_zero. intros x Hx. apply Z4. lia.
  - intros Hlt j Hj. rewrite (frame_rd32 _ _ _ _ _ F6) by lia. destruct (Z.ltb_spec (10 + j) (nblk d)); [apply P5; lia|].
    rewrite E5 by lia. apply rd32_zero. intros x Hx. apply Z4. lia.
  - intros x Hx. rewrite F6, F5, F4, F3, F2, F1 by lia.
    rewrite (proj2 (Z.leb_le _ _)), (proj2 (Z.ltb_lt _ _)) by lia. cbn [andb]. f_equal. lia.
Qed.

Lemma install_runs nm d s (Q : unit -> mk -> Prop) :
  counted s -> upto (ino_bmp s) (used_inos s) -> img_ok (img s) -> bytes_ok d -> ascii nm = true ->
  1 <= used_inos s < 64 -> 12 <= next_blk s -> nblk d <= 138 -> next_blk s + foot d <= 2048 ->
  (forall x, slot_off (used_inos s) <= x < slot_off (used_inos s) + 64 \/ next_blk s * 512 <= x -> rd (img s) x = 0) ->
  (forall s', installed nm d s s' -> Q tt s') -> runs (install nm d) s Q.
Proof.
  intros Hc Hib Hok Hd Hnm Hino Hb Hnb Hmax Hz HQ. pose proof (nblk_bounds d) as [Hn1 Hn2]. assert (0 <= flen d) by (unfold flen; lia).
  unfold foot in Hmax. assert (Hmax' : next_blk s + nblk d <= 2048) by (destruct (10 <? nblk d); lia). assert (Ho : 1536 <= slot_off (used_inos s) /\ slot_off (used_inos s) + 64 <= 5632) by (unfold slot_off; lia).
  unfold install. apply runs_bind. unfold runs at 1, view. pure_step.
  change (INO_TBL_BLK * BLKSZ + used_inos s * INO_SZ) with (slot_off (used_inos s)). change (Z.max 1 (cdiv (Z.of_nat (length d)) BLKSZ)) with (nblk d).
  apply runs_bind. apply take_blks_runs; [exact Hc | cbn [next_blk with_used_inos]; destruct (10 <? nblk d); lia |].
  rewrite Z2Nat.id by lia. cbn [next_blk with_used_inos]. intros s1 (E1 & E2 & E3 & E4 & E5 & Hc1). cbn in E1, E2, E3, E4, E5.
  apply runs_bind. rewrite <- (Z2Nat.id (nblk d)) at 1 by lia. apply write_chunks_runs; [lia | lia | lia |]. rewrite E1. intros m1 F1 K1.
  rewrite Z.add_0_r. apply runs_bind. apply pack_runs; [done | unfold DISK_SIZE; lia |]. cbn [img with_img]. intros m2 F2 V2 K2.
  apply runs_bind. apply pack_runs; [change (256 ^ Z.of_nat 4) with (2 ^ 32); fold (flen d); lia | unfold DISK_SIZE; lia |]. cbn [img with_img]. intros m3 F3 V3 K3.
  set (dp := take (Z.to_nat DIRECT) (seqZ (next_blk s) (nblk d))).
  assert (Hdp : Z.of_nat (length dp) = Z.min 10 (nblk d)).
  { unfold dp. rewrite length_take, length_seqZ. change (Z.to_nat DIRECT) with 10%nat. lia. }
  apply runs_bind. apply pack_all_runs; [apply Forall_take, Forall_seqZ; intros; lia | rewrite Hdp; unfold DISK_SIZE; lia |].
  rewrite Hdp. cbn [img with_img]. intros m4 F4 V4 K4.
  apply runs_bind. change (DIRECT <? nblk d) with (10 <? nblk d). apply indirect_pointers_runs with (b := next_blk s); try done; [lia | lia | lia |].
  intros s5 (G1 & G2 & G3 & G4 & Hc5 & K5) F5 V5 P5. cbn in G1, G2, G3, G4, K5, F5, V5.
  apply runs_bind. apply pack_runs; [done | unfold DISK_SIZE; lia |]. intros m6 F6 V6 K6.
  pure_step. rewrite Hnm. cbn [negb]. unfold runs, modify. apply HQ. unfold with_dirents, with_ino_bmp, with_img.
  assert (Vd : forall j, 0 <= j < Z.min 10 (nblk d) -> rd32 m4 (slot_off (used_inos s) + 10 + 4 * j) = next_blk s + j).
  { intros j Hj. rewrite <- (Z2Nat.id j) at 1 by lia. apply V4. unfold dp. rewrite lookup_take_lt, lookup_seqZ_lt by (change (Z.to_nat DIRECT) with 10%nat; lia).
    f_equal. lia. }
  assert (V5' : if 10 <? nblk d then rd32 (img s5) (slot_off (used_inos s) + 50) = next_blk s + nblk d else img s5 = m4) by exact V5.
  split; cbn [img blk_bmp ino_bmp used_blks used_inos next_blk dirents].
  - eapply (placed_written (img s) m1 m2 m3 m4 (img s5) m6); try done.
  - intros x Hx1 Hx2. unfold foot in Hx2. rewrite F6 by lia. rewrite F5 by (destruct (Z.ltb_spec 10 (nblk d)); lia).
    rewrite F4, F3, F2, F1 by lia.
    destruct (Z.leb_spec (next_blk s * 512) x), (Z.ltb_spec x (next_blk s * 512 + (flen d - 0 * 512))); cbn [andb]; try done.
    destruct (10 <? nblk d); lia.
  - tauto.
  - exact Hc5.
  - unfold foot. rewrite G4, E5. lia.
  - rewrite G2, E3. lia.
  - rewrite G1, E2. apply upto_step; [done | lia].
  - rewrite G3, E4. done.
Qed.

(** ** The loop over the files *)

(** A file to install: name and contents. *)
Abbreviation ifile := (list Z * list Z)%type.

(** The block after the last one of the files placed from [b] on. *)
Fixpoint ends (b : Z) (fs : list ifile) : Z :=
  match fs with [] => b | f :: fs => ends (b + foot f.2) fs end.
Definition place (fs : list ifile) (k : nat) : Z := ends 12 (take k fs).

Lemma foot_pos d : 1 <= foot d.
Proof. pose proof (nblk_bounds d). unfold foot. destruct (10 <? nblk d); lia. Qed.

Lemma data_ends_ge b fs : b <= ends b fs.
Proof. revert b. induction fs as [|f fs IH]; intros b; cbn [ends]; [lia|]. pose proof (IH (b + foot f.2)). pose proof (foot_pos f.2). lia. Qed.

Lemma ends_app b l1 l2 : ends b (l1 ++ l2) = ends (ends b l1) l2.
Proof. revert b. induction l1 as [|f l1 IH]; intros b; cbn [app ends]; [done | apply IH]. Qed.

Lemma place_app fs f k : (k <= length fs)%nat -> place (fs ++ [f]) k = place fs k.
Proof. intros Hk. unfold place. rewrite take_app_le by lia. done. Qed.

Lemma place_all fs : place fs (length fs) = ends 12 fs.
Proof. unfold place. by rewrite take_ge by lia. Qed.

Lemma place_next fs k f k' : fs !! k = Some f -> (k < k')%nat -> place fs k + foot f.2 <= place fs k'.
Proof.
  intros Hk Hlt. unfold place. replace (take k' fs) with (take k fs ++ f :: drop (S k) (take k' fs)).
  - rewrite ends_app. cbn [ends]. apply data_ends_ge.
  - rewrite <- (take_drop k (take k' fs)) at 2. rewrite take_take, Nat.min_l by lia. f_equal. symmetry. apply drop_S.
    rewrite lookup_take_lt by lia. done.
Qed.

Lemma place_ge fs k : 12 <= place fs k.
Proof. apply data_ends_ge. Qed.

(** The directory entries of the files, inodes counted from 1. *)
Definition entries_from (i : Z) (fs : list ifile) : list (list Z) := imap (fun k f => dirent (i + Z.of_nat k) (take 23 f.1)) fs.

Record built (fs : list ifile) (s : mk) : Prop := {
  bu_counted : counted s;
  bu_next : next_blk s = ends 12 fs;
  bu_inos : used_inos s = 1 + Z.of_nat (length fs);
  bu_ibmp : upto (ino_bmp s) (used_inos s);
  bu_ok : img_ok (img s);
  bu_dirents : dirents s = entries_from 1 fs;
  bu_zero : forall x, slot_off (used_inos s) <= x < 5632 \/ next_blk s * 512 <= x -> rd (img s) x = 0;
  bu_root : rd16 (img s) 1536 = 0x41ED /\ rd32 (img s) 1546 = 11;
  bu_root0 : forall x, x < 1536 \/ 1550 <= x < 1590 -> rd (img s) x = 0;
  bu_files : forall k f, fs !! k = Some f -> placed (img s) (Z.of_nat k + 1) (place fs k) f.2
}.

(** What the builder and the kernel can handle. *)
Record fits (fs : list ifile) : Prop := {
  fi_names : forall f, f ∈ fs -> name_ok f.1 /\ comp_ok f.1 /\ ascii f.1 = true;
  fi_nodup : NoDup fs.*1;
  fi_data : forall f, f ∈ fs -> bytes_ok f.2 /\ flen f.2 <= NSLOTS * BLKSZ;
  fi_count : (length fs <= 63)%nat;
  fi_blocks : ends 12 fs + (Z.max 1 (cdiv (32 * Z.of_nat (length fs)) BLKSZ) - 1) <= N_BLOCKS
}.

Lemma nblk_max d : flen d <= NSLOTS * BLKSZ -> nblk d <= 138.
Proof.
  unfold nblk, BLKSZ, NSLOTS. rewrite cdiv_blocks. unfold nblocks. intros H.
  assert ((flen d + 511) / 512 < 139) by (apply Z.div_lt_upper_bound; lia). lia.
Qed.

Lemma entries_app i fs f : entries_from i (fs ++ [f]) = entries_from i fs ++ [dirent (i + Z.of_nat (length fs)) (take 23 f.1)].
Proof. unfold entries_from. rewrite imap_app. cbn [imap]. by rewrite Nat.add_0_r. Qed.

Lemma built_step fs f s s' : built fs s -> installed f.1 f.2 s s' -> (length fs < 63)%nat -> built (fs ++ [f]) s'.
Proof.
  intros [Hc Hnx Hui Hib Hok Hde Hz [Hr1 Hr2] Hr0 Hfi] [Ip If Iok Ic In Ii Iib Id] Hlen.
  pose proof (data_ends_ge 12 fs) as Hge. pose proof (foot_pos f.2) as Hfp.
  assert (Hso : slot_off (used_inos s) = 1600 + Z.of_nat (length fs) * 64) by (unfold slot_off; lia).
  split; try done.
  - rewrite In, Hnx, ends_app. done.
  - rewrite Ii, Hui, length_app. simpl. lia.
  - by rewrite Ii.
  - rewrite Id, Hde, entries_app. do 3 f_equal. lia.
  - intros x Hx. rewrite Ii in Hx. rewrite If; [apply Hz | | ]; unfold slot_off in *; lia.
  - unfold rd16, rd32. rewrite <- Hr1, <- Hr2. split; (unfold rd16, rd32; f_equal; apply peek_ext; intros x Hx; apply If; lia).
  - intros x Hx. rewrite If by lia. apply Hr0. lia.
  - intros k g Hk. apply lookup_app_Some in Hk as [Hk|[Hge' Hk]].
    + apply lookup_lt_Some in Hk as Hl. rewrite place_app by lia. eapply placed_frame; [|by apply Hfi].
      pose proof (place_next fs k g (length fs) Hk ltac:(lia)) as Hp. rewrite place_all in Hp. pose proof (place_ge fs k).
      intros x Hx. apply If; unfold slot_off in *; lia.
    + apply list_lookup_singleton_Some in Hk as [Ek <-]. assert (k = length fs) as -> by lia.
      rewrite place_app, place_all, <- Hnx by lia. replace (Z.of_nat (length fs) + 1) with (used_inos s) by lia. done.
Qed.

(** The files a list of arguments names on the host; the others are skipped. *)
Inductive listed (host : list Z -> option (list Z)) : list (list Z) -> list ifile -> Prop :=
| listed_nil : listed host [] []
| listed_file spec specs nm path d fs : split_spec spec = Some (nm, path) -> host path = Some d ->
    listed host specs fs -> listed host (spec :: specs) ((nm, d) :: fs)
| listed_skip spec specs nm path fs : split_spec spec = Some (nm, path) -> host path = None ->
    listed host specs fs -> listed host (spec :: specs) fs.

Lemma add_files_runs host specs fs' : listed host specs fs' -> forall fs s (Q : unit -> mk -> Prop), built fs s -> fits (fs ++ fs') ->
  (forall s', built (fs ++ fs') s' -> Q tt s') -> runs (add_files host specs) s Q.
Proof.
  induction 1 as [|spec specs nm path d fs' Hs Hh Hl IH|spec specs nm path fs' Hs Hh Hl IH]; intros fs s Q Hb Hf HQ; cbn [add_files].
  - apply runs_ret. apply HQ. by rewrite app_nil_r.
  - apply runs_bind. unfold add_file. rewrite Hs, Hh.
    destruct (fi_names _ Hf (nm, d)) as (_ & _ & Hasc); [apply elem_of_app; right; left|].
    destruct (fi_data _ Hf (nm, d)) as [Hd Hsz]; [apply elem_of_app; right; left|]. cbn [fst snd] in *.
    pose proof (fi_count _ Hf) as Hcnt. pose proof (fi_blocks _ Hf) as Hblk. change N_BLOCKS with 2048 in Hblk. rewrite length_app in Hcnt, Hblk. cbn [length] in Hcnt, Hblk.
    rewrite ends_app in Hblk. cbn [ends snd] in Hblk. pose proof (data_ends_ge (ends 12 fs + foot d) fs'). pose proof (data_ends_ge 12 fs).
    pose proof (bu_next _ _ Hb) as Hnx. pose proof (bu_inos _ _ Hb) as Hui.
    apply install_runs; try done; try apply Hb; [lia | lia | by apply nblk_max | lia | |].
    + intros x Hx. apply (bu_zero _ _ Hb). unfold slot_off in *. lia.
    + intros s' Hin. assert (Hb' : built (fs ++ [(nm, d)]) s') by (apply (built_step fs (nm, d) s); [done | done | lia]).
      apply (IH (fs ++ [(nm, d)]) s'); [done | by rewrite <- app_assoc |]. intros s2. rewrite <- app_assoc. apply HQ.
  - apply runs_bind. unfold add_file. rewrite Hs, Hh. apply runs_ret. by apply (IH fs).
Qed.

(** ** Formatting *)

Lemma upto_none : upto (replicate 512 0) 0.
Proof.
  split; [done|]. split; [apply Forall_replicate; lia|]. intros b Hb. unfold bit_set. rewrite byte_lookup.
  replace (default 0 (replicate 512 0 !! Z.to_nat (b / 8))) with 0 by (destruct (replicate 512 0 !! Z.to_nat (b / 8)) eqn:E; [by apply lookup_replicate in E as [-> _] | done]).
  rewrite Z.testbit_0_l. symmetry. apply Z.ltb_ge. lia.
Qed.

Lemma start_counted : counted start /\ upto (ino_bmp start) 1.
Proof.
  split.
  - split; [done|]. split; [|done]. change (next_blk start) with (Z.max 0 DATA_START). apply (for_up_ind (fun i d => upto d i)); [apply upto_none|].
    intros i d Hi Hd. change DATA_START with 11 in Hi. apply upto_step; [done | lia].
  - apply (upto_step _ 0 upto_none). lia.
Qed.

Lemma format_runs (Q : Z -> mk -> Prop) : (forall s', built [] s' -> Q 11 s') -> runs format start Q.
Proof.
  intros HQ. destruct start_counted as [Hc Hi]. unfold format. apply runs_bind. apply take_blk_runs; [done | done |].
  change (next_blk start) with 11. intros s1 (E1 & E2 & E3 & E4 & E5 & Hc1). change (img start) with (∅ : mem) in E1.
  change (INO_TBL_BLK * BLKSZ) with 1536. change (1536 + 0) with 1536. change (1536 + 10) with 1546. change (1536 + 54) with 1590.
  apply runs_bind. apply pack_runs; [done | done |]. rewrite E1. intros m1 F1 V1 K1.
  apply runs_bind. apply pack_runs; [done | done |]. cbn [img with_img]. intros m2 F2 V2 K2.
  apply runs_bind. apply pack_runs; [done | done |]. cbn [img with_img]. intros m3 F3 V3 K3.
  apply runs_ret. apply HQ. change (next_blk start + 1) with 12 in E5. change (used_inos start) with 1 in E3.
  assert (Z3 : forall x, x < 1536 \/ 1550 <= x < 1590 \/ 1592 <= x -> rd m3 x = 0).
  { intros x Hx. rewrite F3, F2, F1 by lia. apply rd_empty. }
  split; cbn [img blk_bmp ino_bmp used_blks used_inos next_blk dirents with_img]; try done.
  - by rewrite E3, E2.
  - apply K3, K2, K1. intros a. by rewrite rd_empty.
  - intros x Hx. apply Z3. rewrite E3, E5 in Hx. unfold slot_off in Hx. lia.
  - rewrite (frame_rd16 _ _ _ _ _ F3), (frame_rd16 _ _ _ _ _ F2), (frame_rd32 _ _ _ _ _ F3) by lia. done.
  - intros x Hx. apply Z3. lia.
Qed.

(** ** The root directory *)

Lemma grow_root_runs n : forall i s (Q : list Z -> mk -> Prop), counted s -> 12 <= next_blk s -> next_blk s + Z.of_nat n <= 2048 ->
  1 <= i -> i + Z.of_nat n <= 10 ->
  (forall s', advanced (Z.of_nat n) s s' -> frame (1546 + 4 * i) (1546 + 4 * (i + Z.of_nat n)) (img s) (img s') ->
     (forall k, 0 <= k < Z.of_nat n -> rd32 (img s') (1546 + 4 * (i + k)) = next_blk s + k) ->
     Q (seqZ (next_blk s) (Z.of_nat n)) s') -> runs (grow_root n i) s Q.
Proof.
  induction n as [|n IH]; intros i s Q Hc Hb Hmax Hi Hin HQ; cbn [grow_root].
  - apply runs_ret. apply HQ; [|done | intros; lia]. split_and!; try done. lia.
  - apply runs_bind. apply take_blk_runs; [done | lia |]. intros s1 (E1 & E2 & E3 & E4 & E5 & Hc1).
    change (INO_TBL_BLK * BLKSZ + 10) with 1546. replace (1546 + i * 4) with (1546 + 4 * i) by lia.
    apply runs_bind. apply pack_runs; [change (256 ^ Z.of_nat 4) with (2 ^ 32); lia | unfold DISK_SIZE; lia |]. rewrite E1. intros m1 F1 V1 K1.
    apply runs_bind. apply IH; cbn [next_blk with_img]; [done | lia | lia | lia | lia |]. rewrite E5. intros s2 (G1 & G2 & G3 & G4 & Hc2 & K2) F2 V2.
    cbn in G1, G2, G3, G4, K2, F2. apply runs_ret.
    replace (next_blk s :: seqZ (next_blk s + 1) (Z.of_nat n)) with (seqZ (next_blk s) (Z.of_nat (S n))) by (rewrite seqZ_cons by lia; f_equal; f_equal; lia).
    apply HQ.
    + split_and!; try congruence; try done; [lia | tauto].
    + intros x Hx. rewrite F2, F1 by lia. done.
    + intros k Hk. destruct (Z.eq_dec k 0) as [->|Hk0].
      * rewrite Z.add_0_r, (frame_rd32 _ _ _ _ _ F2) by lia. rewrite Z.add_0_r. exact V1.
      * replace (i + k) with (i + 1 + (k - 1)) by lia. rewrite V2 by lia. lia.
Qed.

(** Where entry [i] goes. *)
Definition adr (rb : list Z) (i : Z) : Z := nth (Z.to_nat (i * 32 / 512)) rb 0 * 512 + i * 32 mod 512.

Lemma write_dirents_runs rb des : forall i s (Q : unit -> mk -> Prop), Forall (fun de => length de = 32%nat) des ->
  (forall a b, i <= a < i + Z.of_nat (length des) -> i <= b < i + Z.of_nat (length des) -> a <> b ->
     adr rb a + 32 <= adr rb b \/ adr rb b + 32 <= adr rb a) ->
  (forall m', (forall k de, des !! k = Some de -> peek m' (adr rb (i + Z.of_nat k)) 32 = de) ->
     (forall x, (forall a, i <= a < i + Z.of_nat (length des) -> x < adr rb a \/ adr rb a + 32 <= x) -> rd m' x = rd (img s) x) ->
     (img_ok (img s) -> Forall bytes_ok des -> img_ok m') -> Q tt (with_img m' s)) ->
  runs (write_dirents i rb des) s Q.
Proof.
  induction des as [|de des IH]; intros i s Q Hlen Hdis HQ; cbn [write_dirents].
  - apply runs_ret. destruct s. apply HQ; [done | done | done].
  - apply Forall_cons in Hlen as [Hl Hlen]. cbn [length] in *. apply runs_bind. change BLKSZ with 512. change DT_SZ with 32.
    change (nth (Z.to_nat (i * 32 / 512)) rb 0 * 512 + i * 32 mod 512) with (adr rb i).
    apply put_runs. rewrite Hl. change (Z.of_nat 32) with 32. intros m1 F1 V1 K1. apply IH; [done | intros a b Ha Hb; apply Hdis; lia |].
    cbn [img with_img]. intros m2 V2 F2 K2. apply HQ.
    + intros [|k] e Hk.
      * injection Hk as <-. rewrite Z.add_0_r, <- V1. apply peek_ext. intros x Hx. apply F2. intros a Ha.
        destruct (Hdis a i ltac:(lia) ltac:(lia) ltac:(lia)); lia.
      * replace (i + Z.of_nat (S k)) with (i + 1 + Z.of_nat k) by lia. by apply V2.
    + intros x Hx. rewrite F2 by (intros a Ha; apply Hx; lia). apply F1. apply Hx. lia.
    + intros Ho Hd. apply Forall_cons in Hd as [Hd1 Hd2]. apply K2; [by apply K1 | done].
Qed.

(** Blocks of the root directory. *)
Definition root_need (fs : list ifile) : Z := Z.max 1 (cdiv (32 * Z.of_nat (length fs)) BLKSZ).
Definition root_blocks (fs : list ifile) : list Z := 11 :: seqZ (ends 12 fs) (root_need fs - 1).
Definition root_blk (fs : list ifile) (t : Z) : Z := nth (Z.to_nat t) (root_blocks fs) 0.

Lemma root_blk_eq fs t : 0 <= t < root_need fs -> root_blk fs t = if t =? 0 then 11 else ends 12 fs + (t - 1).
Proof.
  intros Ht. unfold root_blk, root_blocks. destruct (Z.eqb_spec t 0) as [->|Hne]; [done|].
  replace (Z.to_nat t) with (S (Z.to_nat (t - 1))) by lia. cbn [nth]. rewrite nth_lookup, lookup_seqZ_lt by lia. simpl. lia.
Qed.

Lemma root_need_bounds fs : (length fs <= 63)%nat -> 1 <= root_need fs <= 4 /\ 32 * Z.of_nat (length fs) <= root_need fs * 512.
Proof.
  intros H. unfold root_need, BLKSZ. rewrite cdiv_blocks. unfold nblocks. pose proof (Z.div_mod (32 * Z.of_nat (length fs) + 511) 512).
  pose proof (Z.mod_pos_bound (32 * Z.of_nat (length fs) + 511) 512). lia.
Qed.

Lemma adr_eq fs a : (length fs <= 63)%nat -> 0 <= a < Z.of_nat (length fs) ->
  0 <= a * 32 / 512 < root_need fs /\ adr (root_blocks fs) a = root_blk fs (a * 32 / 512) * 512 + a * 32 mod 512 /\
  0 <= a * 32 mod 512 <= 480 /\ a * 32 = 512 * (a * 32 / 512) + a * 32 mod 512.
Proof.
  intros Hl Ha. pose proof (root_need_bounds fs Hl). pose proof (Z.div_mod (a * 32) 512). pose proof (Z.mod_pos_bound (a * 32) 512).
  assert (a * 32 mod 512 = 32 * (a mod 16)). { rewrite (Z.mul_comm a 32). change 512 with (32 * 16). by rewrite Z.mul_mod_distr_l by lia. }
  pose proof (Z.mod_pos_bound a 16). split_and!; try lia; done.
Qed.

Lemma adr_disjoint fs a b : (length fs <= 63)%nat -> 0 <= a < Z.of_nat (length fs) -> 0 <= b < Z.of_nat (length fs) -> a <> b ->
  adr (root_blocks fs) a + 32 <= adr (root_blocks fs) b \/ adr (root_blocks fs) b + 32 <= adr (root_blocks fs) a.
Proof.
  intros Hl Ha Hb Hne. destruct (adr_eq fs a Hl Ha) as (Qa & -> & Ra & Ea). destruct (adr_eq fs b Hl Hb) as (Qb & -> & Rb & Eb).
  rewrite !root_blk_eq by done. pose proof (data_ends_ge 12 fs). destruct (Z.eqb_spec (a * 32 / 512) 0), (Z.eqb_spec (b * 32 / 512) 0); lia.
Qed.

Lemma length_dirent i nb : (length nb <= 23)%nat -> length (dirent i nb) = 32%nat.
Proof. intros H. unfold dirent. by rewrite length_splice by (rewrite ?length_app, ?length_le_bytes, ?length_replicate; simpl; lia). Qed.

Lemma dirent_ok i nb : (length nb <= 23)%nat -> bytes_ok nb -> bytes_ok (dirent i nb).
Proof.
  intros Hl Hn. unfold dirent. auto 10 with bytes.
Qed.

(** The image after the root directory is written. *)
Record rooted (fs : list ifile) (m : mem) : Prop := {
  ro_ok : img_ok m;
  ro_mode : rd16 m 1536 = 0x41ED;
  ro_size : rd32 m 1542 = 32 * Z.of_nat (length fs);
  ro_ptr : forall t, 0 <= t < 10 -> rd32 m (1546 + 4 * t) = if t <? root_need fs then root_blk fs t else 0;
  ro_ind : rd32 m 1586 = 0;
  ro_entries : forall k de, entries_from 1 fs !! k = Some de -> peek m (adr (root_blocks fs) (Z.of_nat k)) 32 = de;
  ro_files : forall k f, fs !! k = Some f -> placed m (Z.of_nat k + 1) (place fs k) f.2
}.

Lemma entries_facts fs : fits fs -> Forall (fun de => length de = 32%nat) (entries_from 1 fs) /\ Forall bytes_ok (entries_from 1 fs).
Proof.
  intros Hf. split; apply Forall_lookup_2; intros k de Hk; apply list_lookup_imap_Some in Hk as (f & Hfk & ->);
    destruct (fi_names _ Hf f ltac:(by eapply list_elem_of_lookup_2)) as ([Hn Hc] & _).
  - apply length_dirent. rewrite length_take. lia.
  - apply dirent_ok; [rewrite length_take; lia|]. apply Forall_take. apply (Forall_impl _ _ _ Hc). lia.
Qed.

Lemma write_root_runs fs s (Q : unit -> mk -> Prop) : built fs s -> fits fs ->
  (forall s', counted s' -> next_blk s' = ends 12 fs + (root_need fs - 1) -> used_inos s' = 1 + Z.of_nat (length fs) ->
     upto (ino_bmp s') (used_inos s') -> rooted fs (img s') -> Q tt s') -> runs (write_root 11) s Q.
Proof.
  intros Hb Hf HQ. pose proof Hb as [Hc Hnx Hui Hib Hok Hde Hz [Hr1 Hr2] Hr0 Hfi]. pose proof (fi_count _ Hf) as Hcnt.
  pose proof (root_need_bounds fs Hcnt) as [Hn1 Hn2]. pose proof (fi_blocks _ Hf) as Hblk. change N_BLOCKS with 2048 in Hblk. fold (root_need fs) in Hblk.
  pose proof (data_ends_ge 12 fs) as Hge. destruct (entries_facts fs Hf) as [Hl Hbo].
  assert (Hel : length (entries_from 1 fs) = length fs) by (unfold entries_from; by rewrite length_imap).
  unfold write_root. apply runs_bind. unfold runs at 1, view. rewrite Hde, Hel. change DT_SZ with 32.
  replace (Z.of_nat (length fs) * 32) with (32 * Z.of_nat (length fs)) by lia. change (Z.max 1 (cdiv _ BLKSZ)) with (root_need fs).
  apply runs_bind. apply grow_root_runs; [done | lia | lia | lia | lia |]. rewrite Z2Nat.id, Hnx by lia.
  intros s1 (G1 & G2 & G3 & G4 & Hc1 & K1) F1 V1. fold (root_blocks fs).
  apply runs_bind. apply write_dirents_runs; [done | rewrite Hel; intros a b Ha Hb'; apply adr_disjoint; [done | lia | lia] |].
  rewrite Hel. intros m2 V2 F2 K2. change (INO_TBL_BLK * BLKSZ + 6) with 1542.
  apply pack_runs; [change (256 ^ Z.of_nat 4) with (2 ^ 32); lia | done |]. cbn [img with_img]. intros m3 F3 V3 K3.
  (* the entries lie in the directory's blocks *)
  assert (F2' : forall x, x < 5632 \/ 6144 <= x < ends 12 fs * 512 -> rd m2 x = rd (img s1) x).
  { intros x Hx. apply F2. intros a Ha. destruct (adr_eq fs a Hcnt ltac:(lia)) as (Qa & -> & Ra & Ea). rewrite root_blk_eq by done.
    destruct (Z.eqb_spec (a * 32 / 512) 0); lia. }
  assert (E : forall x, x < 1542 \/ 1550 + 4 * (root_need fs - 1) <= x < 5632 \/ 6144 <= x < ends 12 fs * 512 -> rd m3 x = rd (img s) x).
  { intros x Hx. rewrite F3, F2', F1 by lia. done. }
  apply HQ; cbn [next_blk used_inos ino_bmp with_img]; try done; [lia | congruence | by rewrite G1, G2 |].
  split; cbn [img with_img].
  - tauto.
  - rewrite <- Hr1. unfold rd16. f_equal. apply peek_ext. intros x Hx. apply E. lia.
  - exact V3.
  - intros t Ht. assert (E2 : rd32 m3 (1546 + 4 * t) = rd32 (img s1) (1546 + 4 * t)).
    { rewrite (frame_rd32 _ _ _ _ _ F3) by lia. unfold rd32. f_equal. apply peek_ext. intros x Hx. apply F2'. lia. }
    rewrite E2. destruct (Z.ltb_spec t (root_need fs)) as [Hlt|Hge'].
    + rewrite root_blk_eq by lia. destruct (Z.eqb_spec t 0) as [->|Hne]; [rewrite (frame_rd32 _ _ _ _ _ F1) by lia; exact Hr2|].
      replace (1546 + 4 * t) with (1546 + 4 * (1 + (t - 1))) by lia. apply V1. lia.
    + apply rd32_zero. intros x Hx. rewrite F1 by lia. apply Hr0. lia.
  - apply rd32_zero. intros x Hx. rewrite E by lia. apply Hr0. lia.
  - intros k de Hk. rewrite <- (V2 k de Hk) at 1. apply lookup_lt_Some in Hk. rewrite Hel in Hk.
    destruct (adr_eq fs (Z.of_nat k) Hcnt ltac:(lia)) as (Qa & Ea & Ra & _). rewrite Z.add_0_l.
    apply (frame_peek _ _ _ _ _ _ F3). rewrite Ea, root_blk_eq by done. destruct (Z.eqb_spec (Z.of_nat k * 32 / 512) 0); lia.
  - intros k f Hk. eapply placed_frame; [|by apply Hfi]. intros x Hx. apply E. apply lookup_lt_Some in Hk as Hkl.
    pose proof (place_next fs k f (length fs) Hk ltac:(lia)) as Hp. rewrite place_all in Hp. pose proof (place_ge fs k). unfold slot_off in Hx. lia.
Qed.
End MkDiskSpec.
