(* ===== verification/MkDiskMount.v ===== *)
(** * Mounting the built disk image

    The finished image satisfies the file system invariant of NoxFS, with the
    installed files in its root directory; the kernel mounts it and finds
    every file with the contents it had on the host. *)
From S2P Require Import Prelude Bytes Buffer NoxFS NoxDisk NoxFiles NoxDir NoxMount MkDisk MkDiskSpec.
Import NoxFS NoxDisk NoxFiles NoxDir NoxMount MkDisk MkDiskSpec.

Module MkDiskMount.

(** ** The finished image *)

Definition last_blk (fs : list ifile) : Z := ends 12 fs + (root_need fs - 1).
Definition sb_words (fs : list ifile) : list Z :=
  [NOXFS_MAGIC; 2048; 64; 2048 - last_blk fs; 64 - (1 + Z.of_nat (length fs)); 1; 2; 3; 11; 0].

Record image (fs : list ifile) (m : mem) : Prop := {
  im_root : rooted fs m;
  im_words : forall k v, sb_words fs !! k = Some v -> rd32 m (4 * Z.of_nat k) = v;
  im_bmp : upto (peek m 512 512) (last_blk fs);
  im_ibmp : upto (peek m 1024 512) (1 + Z.of_nat (length fs))
}.

Lemma rooted_frame fs m m' : (forall x, 1536 <= x -> rd m' x = rd m x) -> img_ok m' -> fits fs -> rooted fs m -> rooted fs m'.
Proof.
  intros H Hok Hf [R1 R2 R3 R4 R5 R6 R7]. pose proof (fi_count _ Hf) as Hcnt. pose proof (data_ends_ge 12 fs).
  assert (E : forall a n, 1536 <= a -> peek m' a n = peek m a n) by (intros a n Ha; apply peek_ext; intros; apply H; lia).
  split; unfold rd16, rd32; try (rewrite E by lia; done); [done | | |].
  - intros t Ht. rewrite E by lia. by apply R4.
  - intros k de Hk. rewrite E; [by apply R6|]. apply lookup_lt_Some in Hk. unfold entries_from in Hk. rewrite length_imap in Hk.
    destruct (adr_eq fs (Z.of_nat k) Hcnt ltac:(lia)) as (Qa & -> & Ra & _). rewrite root_blk_eq by done. destruct (Z.eqb_spec (Z.of_nat k * 32 / 512) 0); lia.
  - intros k f Hk. eapply placed_frame; [|by apply R7]. pose proof (place_ge fs k). intros x Hx. apply H. unfold slot_off in Hx. lia.
Qed.

Lemma write_meta_runs fs s (Q : unit -> mk -> Prop) : fits fs -> counted s -> next_blk s = last_blk fs -> used_inos s = 1 + Z.of_nat (length fs) ->
  upto (ino_bmp s) (used_inos s) -> rooted fs (img s) -> (forall s', image fs (img s') -> Q tt s') -> runs write_meta s Q.
Proof.
  intros Hf (Hu & Hb & _) Hnx Hui Hib Hr HQ. pose proof (fi_count _ Hf). pose proof (fi_blocks _ Hf) as Hblk. change N_BLOCKS with 2048 in Hblk.
  fold (root_need fs) in Hblk. pose proof (data_ends_ge 12 fs). pose proof (root_need_bounds fs ltac:(lia)) as [Hn _].
  pose proof Hb as (Lb & Bb & _). pose proof Hib as (Li & Bi & _).
  unfold write_meta. apply runs_bind. unfold runs at 1, get. change (BLK_BMP_BLK * BLKSZ) with 512. change (INO_BMP_BLK * BLKSZ) with 1024.
  apply runs_bind. apply put_runs. rewrite Lb. change (Z.of_nat 512) with 512. intros m1 F1 V1 K1.
  apply runs_bind. apply put_runs. cbn [img with_img]. rewrite Li. change (Z.of_nat 512) with 512. intros m2 F2 V2 K2.
  replace [NOXFS_MAGIC; N_BLOCKS; INODES; N_BLOCKS - used_blks s; INODES - used_inos s; BLK_BMP_BLK; INO_BMP_BLK; INO_TBL_BLK; DATA_START; 0]
    with (sb_words fs) by (rewrite Hu, Hnx, Hui; done).
  apply pack_all_runs; [unfold sb_words, last_blk; repeat constructor; lia | done |]. cbn [img with_img]. intros m3 F3 V3 K3.
  change (0 + 4 * Z.of_nat (length (sb_words fs))) with 40 in F3.
  apply HQ. cbn [img with_img]. split.
  - apply (rooted_frame fs (img s)); [intros x Hx; rewrite F3, F2, F1 by lia; done | | done | done].
    apply K3, K2; [apply K1; [apply Hr | done] | done].
  - intros k v Hk. exact (V3 k v Hk).
  - rewrite (frame_peek _ _ _ _ _ _ F3), (frame_peek _ _ _ _ _ _ F2), V1 by lia. by rewrite <- Hnx.
  - rewrite (frame_peek _ _ _ _ _ _ F3), V2 by lia. by rewrite <- Hui.
Qed.

Lemma mkdisk_image host specs fs : listed host specs fs -> fits fs -> exists m, mkdisk host specs = Some m /\ image fs m.
Proof.
  intros Hl Hf. assert (H : runs (main host specs) start (fun _ s => image fs (img s))).
  { unfold main. apply runs_bind. apply format_runs. intros s1 H1. apply runs_bind.
    apply (add_files_runs host specs fs Hl [] s1); [done | done |]. intros s2 H2. apply runs_bind. apply (write_root_runs fs); [done | done |].
    intros s3 Hc Hn Hu Hi Hr. apply (write_meta_runs fs); done. }
  apply runs_result in H as ([] & s & E & Hi). exists (img s). split; [|done]. unfold mkdisk. by rewrite E.
Qed.

(** ** Entries *)

Lemma lookup_concat32 (ls : list (list Z)) i : Forall (fun l => length l = 32%nat) ls ->
  concat ls !! i = ls !! (i / 32)%nat ≫= (fun l => l !! (i mod 32)%nat).
Proof.
  intros H. revert i. induction H as [|l ls Hl _ IH]; intros i; cbn [concat]; [done|].
  destruct (decide (i < 32)%nat) as [Hi|Hi].
  - rewrite lookup_app_l by lia. by rewrite Nat.div_small, Nat.mod_small by lia.
  - rewrite lookup_app_r, Hl, IH by lia. assert (Ei : (i = i - 32 + 1 * 32)%nat) by lia.
    assert (E1 : (i / 32 = S ((i - 32) / 32))%nat) by (rewrite Ei at 1; rewrite Nat.div_add by lia; lia).
    assert (E2 : (i mod 32 = (i - 32) mod 32)%nat) by (rewrite Ei at 1; by rewrite Nat.Div0.mod_add). by rewrite E1, E2.
Qed.

Lemma length_concat32 (ls : list (list Z)) : Forall (fun l => length l = 32%nat) ls -> length (concat ls) = (32 * length ls)%nat.
Proof. induction 1 as [|l ls Hl _ IH]; cbn [concat length]; [done|]. rewrite length_app. lia. Qed.

Lemma slice_concat32 (ls : list (list Z)) k l : Forall (fun l => length l = 32%nat) ls -> ls !! k = Some l ->
  slice (Z.of_nat k * 32) 32 (concat ls) = l.
Proof.
  intros H Hk. apply list_eq. intros i. pose proof (Forall_lookup_1 _ _ _ _ H Hk) as Hl. simpl in Hl. rewrite lookup_slice by lia. destruct (decide _) as [Hi|Hi].
  - rewrite lookup_concat32 by done. replace (Z.to_nat (Z.of_nat k * 32) + i)%nat with (i + k * 32)%nat by lia.
    rewrite Nat.div_add, Nat.Div0.mod_add, (Nat.div_small i), (Nat.mod_small i) by lia. simpl. by rewrite Hk.
  - symmetry. apply lookup_ge_None_2. lia.
Qed.

Lemma dirent_entry i nm : 0 <= i < 2 ^ 32 -> (length nm <= 23)%nat -> entry_is (dirent i nm) (i, nm) /\ byte (dirent i nm) 7 = 1.
Proof.
  intros Hi Hn. unfold dirent. set (hd := le_bytes 4 i ++ _).
  assert (Hl : length hd = 32%nat) by (unfold hd; rewrite !length_app, !length_le_bytes, length_replicate; done).
  assert (E : forall a n, 0 <= a -> 0 <= n -> a + n <= 8 -> slice a n (splice 8 nm hd) = slice a n hd) by (intros; apply slice_splice_disjoint; lia).
  assert (B : forall j, j = 6 \/ j = 7 -> byte (splice 8 nm hd) j = byte [Z.of_nat (length nm); 1] (j - 6)).
  { intros j Hj. rewrite <- (Z.add_0_r j) at 1. rewrite <- (byte_slice j 1) by lia. rewrite E by lia. unfold hd.
    rewrite !slice_app_skip by (rewrite ?length_le_bytes; lia). rewrite !length_le_bytes. destruct Hj as [-> | ->]; done. }
  split; [|apply (B 7); lia]. split_and!; cbn [fst snd].
  - unfold get32. rewrite E by lia. unfold hd. rewrite slice_app_here by (rewrite ?length_le_bytes; done). by apply le_val_bytes.
  - apply (B 6). lia.
  - apply slice_splice_same; lia.
Qed.

(** ** The image seen by the file system *)

Section Volume.
Context (limit : Z) (m : mem) (D : disk) (fs : list ifile).
Context (Hlim : 2048 <= limit) (HD : forall b, 0 <= b < limit -> D b = blocks_of m b) (Him : image fs m) (Hfits : fits fs).

Lemma get32_D b o : 0 <= b < limit -> 0 <= o <= 508 -> get32 (D b) o = rd32 m (b * 512 + o).
Proof. intros Hb Ho. unfold get32, rd32. rewrite HD by done. unfold blocks_of. by rewrite slice_peek by lia. Qed.

Let sb := sb_of_bytes (D 0).

Lemma sb_fields : sb_magic sb = NOXFS_MAGIC /\ sb_block_count sb = 2048 /\ sb_inode_count sb = 64 /\
  sb_free_blocks sb = 2048 - last_blk fs /\ sb_free_inodes sb = 64 - (1 + Z.of_nat (length fs)) /\
  sb_blk_bmp sb = 1 /\ sb_ino_bmp sb = 2 /\ sb_ino_tbl sb = 3 /\ sb_data_start sb = 11 /\ sb_root_ino sb = 0.
Proof.
  assert (E : forall k v, sb_words fs !! k = Some v -> (k < 10)%nat -> get32 (D 0) (4 * Z.of_nat k) = v).
  { intros k v Hk Hlt. rewrite get32_D by lia. by apply (im_words _ _ Him). }
  unfold sb, sb_of_bytes. cbn [sb_magic sb_block_count sb_inode_count sb_free_blocks sb_free_inodes sb_blk_bmp sb_ino_bmp sb_ino_tbl sb_data_start sb_root_ino].
  split_and!; [apply (E 0%nat) | apply (E 1%nat) | apply (E 2%nat) | apply (E 3%nat) | apply (E 4%nat) | apply (E 5%nat) | apply (E 6%nat) |
    apply (E 7%nat) | apply (E 8%nat) | apply (E 9%nat)]; (reflexivity || lia).
Qed.

Lemma last_blk_bounds : 12 <= ends 12 fs <= last_blk fs /\ last_blk fs <= 2048.
Proof.
  pose proof (fi_blocks _ Hfits) as Hblk. change N_BLOCKS with 2048 in Hblk. fold (root_need fs) in Hblk. pose proof (data_ends_ge 12 fs).
  pose proof (root_need_bounds fs (fi_count _ Hfits)). unfold last_blk. lia.
Qed.

Lemma image_used b : 0 <= b < 2048 -> used D sb b = (b <? last_blk fs).
Proof.
  intros Hb. destruct sb_fields as (_ & _ & _ & _ & _ & E & _). unfold used. rewrite E, HD by lia.
  destruct (im_bmp _ _ Him) as (_ & _ & H). apply H. lia.
Qed.

Lemma image_iused i : 0 <= i < 64 -> iused D sb i = (i <? 1 + Z.of_nat (length fs)).
Proof.
  intros Hi. destruct sb_fields as (_ & _ & _ & _ & _ & _ & E & _). unfold iused. rewrite E, HD by lia.
  destruct (im_ibmp _ _ Him) as (_ & _ & H). apply H. lia.
Qed.

Lemma countb_above k n : 0 <= k <= Z.of_nat n -> countb (fun i => negb (i <? k)) n = Z.of_nat n - k.
Proof.
  induction n as [|n IH]; intros Hk; cbn [countb]; [lia|]. destruct (Z.ltb_spec (Z.of_nat n) k) as [H|H]; cbn [negb].
  - rewrite (countb_ext _ (fun _ => false)) by (intros i Hi; rewrite (proj2 (Z.ltb_lt i k)) by lia; done).
    assert (Z0 : forall n, countb (fun _ => false) n = 0) by (clear; induction n; simpl; lia). rewrite Z0. lia.
  - rewrite IH by lia. lia.
Qed.

Lemma image_ok_bytes b : 0 <= b < limit -> bytes_ok (D b).
Proof. intros Hb. rewrite HD by done. apply peek_ok. apply (im_root _ _ Him). Qed.

Lemma image_meta : meta (limit := limit) D sb.
Proof.
  destruct sb_fields as (_ & E1 & E2 & E3 & E4 & E5 & E6 & E7 & E8 & _). pose proof last_blk_bounds. pose proof (fi_count _ Hfits).
  split.
  - split; rewrite ?E1, ?E2, ?E5, ?E6, ?E7, ?E8; try lia; try done.
    + unfold tbl_blocks. rewrite E2. done.
    + unfold sb, sb_of_bytes. cbn [sb_pad]. rewrite HD by lia. unfold blocks_of. rewrite slice_peek by lia. split; [by rewrite length_peek|].
      apply peek_ok. apply (im_root _ _ Him).
  - apply image_ok_bytes.
  - intros b Hb. rewrite E8 in Hb. rewrite image_used by lia. apply Z.ltb_lt. lia.
  - rewrite E3, E1, (countb_ext _ (fun i => negb (i <? last_blk fs))) by (intros i Hi; rewrite image_used by lia; done).
    rewrite countb_above by lia. lia.
  - rewrite E4, E2, (countb_ext _ (fun i => negb (i <? 1 + Z.of_nat (length fs)))) by (intros i Hi; rewrite image_iused by lia; done).
    rewrite countb_above by lia. lia.
Qed.

(** ** Inodes and block maps *)

Lemma image_inode ino : 0 <= ino < 64 -> inode_at D sb ino = inode_of_bytes (peek m (slot_off ino) 64).
Proof.
  intros Hi. destruct sb_fields as (_ & _ & _ & _ & _ & _ & _ & E & _). unfold inode_at, ino_blk, ino_off. rewrite E.
  change INODES_PER_BLK with 8. unfold NOXFS_INO_SZ. pose proof (Z.div_mod ino 8). pose proof (Z.mod_pos_bound ino 8).
  words. rewrite HD by lia. unfold blocks_of, slot_off. rewrite slice_peek by lia. do 2 f_equal. lia.
Qed.

Lemma image_inode_wf ino : inode_wf (inode_of_bytes (peek m (slot_off ino) 64)).
Proof. apply inode_of_bytes_wf; [apply peek_ok, (im_root _ _ Him) | apply length_peek]. Qed.

Lemma inode_fields o : let i := inode_of_bytes (peek m o 64) in
  i_mode i = rd16 m o /\ i_size i = rd32 m (o + 6) /\ i_indirect i = rd32 m (o + 50) /\
  forall k, 0 <= k < 10 -> iblock i k = rd32 m (o + 10 + 4 * k).
Proof.
  cbn zeta. unfold inode_of_bytes, iblock. cbn [i_mode i_size i_indirect i_blocks]. unfold get16, get32. rewrite !slice_peek, Z.add_0_r by lia.
  split_and!; [done | done | done |]. intros k Hk. rewrite nth_lookup, list_lookup_fmap, lookup_seqZ_lt by lia. simpl.
  rewrite slice_peek by lia. unfold rd32. do 2 f_equal. lia.
Qed.

(** The block map of an installed file. *)
Definition file_blk (b : Z) (d : list Z) (k : Z) : Z :=
  if k =? -1 then (if 10 <? nblk d then b + nblk d else 0) else if k <? nblk d then b + k else 0.

Lemma file_slot ino b d k : placed m ino b d -> 0 <= ino < 64 -> 12 <= b -> b + foot d <= 2048 -> nblk d <= 138 -> -1 <= k < NSLOTS ->
  slot D (inode_at D sb ino) k = file_blk b d k.
Proof.
  intros [P1 P2 P3 P4 P5 P6] Hi Hb Hmax Hnb Hk. unfold NSLOTS in Hk. rewrite image_inode by done.
  destruct (inode_fields (slot_off ino)) as (_ & _ & Ei & Eb). unfold slot, bmap, file_blk, foot in *.
  destruct (Z.eqb_spec k (-1)) as [->|Hk1]; [by rewrite Ei, P4|]. change NOXFS_DIRECT with 10.
  destruct (Z.ltb_spec k 10) as [Hlt|Hge]; [rewrite Eb by lia; apply P3; lia|].
  rewrite Ei, P4. destruct (Z.ltb_spec 10 (nblk d)) as [Hd|Hd].
  - rewrite (proj2 (Z.eqb_neq (b + nblk d) 0)) by lia. rewrite get32_D by lia. rewrite P5 by lia. replace (10 + (k - 10)) with k by lia. done.
  - rewrite (proj2 (Z.ltb_ge k (nblk d))) by lia. done.
Qed.

Definition dir_blk (k : Z) : Z := if (0 <=? k) && (k <? root_need fs) then root_blk fs k else 0.

Lemma root_slot k : -1 <= k < NSLOTS -> slot D (inode_at D sb 0) k = dir_blk k.
Proof.
  intros Hk. unfold NSLOTS in Hk. rewrite image_inode by lia. destruct (im_root _ _ Him) as [R1 R2 R3 R4 R5 R6 R7].
  pose proof (root_need_bounds fs (fi_count _ Hfits)). change (slot_off 0) with 1536. destruct (inode_fields 1536) as (_ & _ & Ei & Eb).
  unfold slot, bmap, dir_blk. change NOXFS_DIRECT with 10. rewrite Ei. change (1536 + 50) with 1586. rewrite R5.
  destruct (Z.eqb_spec k (-1)) as [->|Hk1]; [done|]. rewrite (proj2 (Z.leb_le 0 k)) by lia. cbn [andb].
  destruct (Z.ltb_spec k 10) as [Hlt|Hge].
  - rewrite Eb by lia. apply R4. lia.
  - rewrite (proj2 (Z.ltb_ge k _)) by lia. done.
Qed.

(** ** Ownership *)

(** The blocks of inode [x]: its pointers lie in them and determine the slot. *)
Definition owns (x k b : Z) : Prop :=
  (x = 0 /\ 0 <= k < root_need fs /\ b = root_blk fs k) \/
  exists f, fs !! Z.to_nat (x - 1) = Some f /\ 0 < x /\ b = file_blk (place fs (Z.to_nat (x - 1))) f.2 k /\ b <> 0.

Definition live (x : Z) : Prop := 0 <= x <= Z.of_nat (length fs).

Lemma file_bounds k f : fs !! k = Some f -> 12 <= place fs k /\ place fs k + foot f.2 <= ends 12 fs /\ nblk f.2 <= 138 /\ (k < 63)%nat.
Proof.
  intros Hk. apply lookup_lt_Some in Hk as Hl. pose proof (place_next fs k f (length fs) Hk ltac:(lia)) as Hp. rewrite place_all in Hp.
  destruct (fi_data _ Hfits f ltac:(by eapply list_elem_of_lookup_2)) as [_ Hs]. pose proof (fi_count _ Hfits). pose proof (place_ge fs k).
  split_and!; try lia. by apply nblk_max.
Qed.

Lemma slot_owns x k : live x -> -1 <= k < NSLOTS -> slot D (inode_at D sb x) k <> 0 -> owns x k (slot D (inode_at D sb x) k).
Proof.
  unfold live. intros Hx Hk Hnz. destruct (Z.eq_dec x 0) as [->|Hne].
  - left. rewrite root_slot in * by done. unfold dir_blk in *. destruct (Z.leb_spec 0 k), (Z.ltb_spec k (root_need fs)); cbn [andb] in *; lia || done.
  - right. destruct (lookup_lt_is_Some_2 fs (Z.to_nat (x - 1)) ltac:(lia)) as [f Ef]. exists f. split; [done|]. split; [lia|].
    destruct (file_bounds _ _ Ef) as (B1 & B2 & B3 & B4). pose proof last_blk_bounds.
    pose proof (ro_files _ _ (im_root _ _ Him) _ _ Ef) as Hp. replace (Z.of_nat (Z.to_nat (x - 1)) + 1) with x in Hp by lia.
    rewrite (file_slot x _ f.2 k Hp) in * by lia || done. done.
Qed.

Lemma file_blk_range b d k : 12 <= b -> -1 <= k < NSLOTS -> file_blk b d k <> 0 ->
  b <= file_blk b d k < b + foot d /\ (k = -1 -> file_blk b d k = b + nblk d) /\ (k <> -1 -> file_blk b d k = b + k /\ k < nblk d).
Proof.
  intros Hb Hk. unfold file_blk, foot. pose proof (nblk_bounds d). destruct (Z.eqb_spec k (-1)), (Z.ltb_spec 10 (nblk d)), (Z.ltb_spec k (nblk d)); lia.
Qed.

Lemma owns_range x k b : -1 <= k < NSLOTS -> owns x k b -> 11 <= b < last_blk fs.
Proof.
  intros Hk [(-> & Hk' & ->)|(f & Ef & Hx & -> & Hnz)]; pose proof last_blk_bounds.
  - rewrite root_blk_eq by done. unfold last_blk in *. destruct (k =? 0); lia.
  - destruct (file_bounds _ _ Ef) as (B1 & B2 & _). destruct (file_blk_range _ f.2 k B1 Hk Hnz) as [R _]. lia.
Qed.

Lemma owns_root_file x k k' b f : owns 0 k b -> fs !! Z.to_nat (x - 1) = Some f -> 12 <= place fs (Z.to_nat (x - 1)) -> -1 <= k' < NSLOTS ->
  b = file_blk (place fs (Z.to_nat (x - 1))) f.2 k' -> b <> 0 -> False.
Proof.
  intros [(_ & Hk & ->)|(g & _ & H & _)] Ef B1 Hk' E Hnz; [|lia]. destruct (file_bounds _ _ Ef) as (_ & B2 & _).
  rewrite E in Hnz. destruct (file_blk_range _ f.2 k' B1 Hk' Hnz) as [R _]. rewrite <- E, root_blk_eq in R by done. destruct (Z.eqb_spec k 0); lia.
Qed.

Lemma owns_inj x k x' k' b : -1 <= k < NSLOTS -> -1 <= k' < NSLOTS -> owns x k b -> owns x' k' b -> x = x' /\ k = k'.
Proof.
  intros Hk Hk' H H'. pose proof (data_ends_ge 12 fs).
  destruct H as [(-> & Hk1 & E)|(f & Ef & Hx & E & Hnz)], H' as [(-> & Hk1' & E')|(f' & Ef' & Hx' & E' & Hnz')].
  - split; [done|]. rewrite E, !root_blk_eq in E' by done. destruct (Z.eqb_spec k 0), (Z.eqb_spec k' 0); lia.
  - exfalso. eapply (owns_root_file x' k k' b f'); try done; [by left|]. by destruct (file_bounds _ _ Ef').
  - exfalso. eapply (owns_root_file x k' k b f); try done; [by left|]. by destruct (file_bounds _ _ Ef).
  - destruct (file_bounds _ _ Ef) as (B1 & B2 & _), (file_bounds _ _ Ef') as (B1' & B2' & _).
    assert (Ex : x = x').
    { rewrite E in Hnz. rewrite E' in Hnz'. destruct (file_blk_range _ f.2 k B1 Hk Hnz) as [R _]. destruct (file_blk_range _ f'.2 k' B1' Hk' Hnz') as [R' _].
      rewrite <- E in R. rewrite <- E' in R'. destruct (Z.lt_trichotomy x x') as [Hlt|[->|Hlt]]; [|done|].
      - pose proof (place_next fs _ f (Z.to_nat (x' - 1)) Ef ltac:(lia)). lia.
      - pose proof (place_next fs _ f' (Z.to_nat (x - 1)) Ef' ltac:(lia)). lia. }
    subst x'. split; [done|]. rewrite Ef in Ef'. injection Ef' as <-. rewrite E in E', Hnz.
    destruct (file_blk_range _ f.2 k B1 Hk Hnz) as (_ & R1 & R2). rewrite E' in Hnz. destruct (file_blk_range _ f.2 k' B1 Hk' Hnz) as (_ & R1' & R2').
    destruct (Z.eq_dec k (-1)), (Z.eq_dec k' (-1)); lia.
Qed.

Lemma image_fs_ok : fs_ok (limit := limit) D sb live.
Proof.
  destruct sb_fields as (_ & E1 & E2 & _ & _ & _ & _ & _ & E8 & _). pose proof (fi_count _ Hfits). pose proof last_blk_bounds.
  split; [apply image_meta | unfold live; intros ino Hi; lia |]. split.
  - intros ino Hi. unfold live in Hi. rewrite image_inode by lia. apply image_inode_wf.
  - intros ino k Hi Hk Hnz. pose proof (owns_range _ _ _ Hk (slot_owns ino k Hi Hk Hnz)). rewrite E1, E8, image_used by lia.
    split; [lia|]. apply Z.ltb_lt. lia.
  - intros ino k ino' k' Hi Hi' Hk Hk' Hnz E. pose proof (slot_owns ino k Hi Hk Hnz) as O. rewrite E in Hnz. pose proof (slot_owns ino' k' Hi' Hk' Hnz) as O'.
    rewrite <- E in O'. by apply (owns_inj _ _ _ _ _ Hk Hk' O).
Qed.

(** ** Contents *)

(** Bytes of a block against bytes of the contents. *)
Lemma block_slice b t n d : 0 <= b < limit -> 0 <= t -> 0 <= n <= 512 -> t * 512 + n <= flen d ->
  (forall y, 0 <= y < n -> rd m (b * 512 + y) = byte d (t * 512 + y)) -> slice 0 n (D b) = slice (t * 512) n d.
Proof.
  unfold flen. intros Hb Ht Hn Hl H. rewrite HD by done. unfold blocks_of. rewrite slice_peek by lia. apply list_eq. intros i.
  rewrite lookup_peek, lookup_slice by lia. destruct (decide _) as [Hi|Hi]; [|done]. rewrite Z.add_0_r, H by lia. rewrite byte_lookup.
  replace (Z.to_nat (t * 512 + Z.of_nat i)) with (Z.to_nat (t * 512) + i)%nat by lia.
  destruct (lookup_lt_is_Some_2 d (Z.to_nat (t * 512) + i) ltac:(lia)) as [x ->]. done.
Qed.

Lemma image_file k f : fs !! k = Some f ->
  file_holds D (inode_at D sb (Z.of_nat k + 1)) f.2 /\ i_size (inode_at D sb (Z.of_nat k + 1)) = flen f.2 /\
  i_mode (inode_at D sb (Z.of_nat k + 1)) = 0x81ED.
Proof.
  intros Hk. destruct (file_bounds _ _ Hk) as (B1 & B2 & B3 & B4). pose proof last_blk_bounds.
  pose proof (ro_files _ _ (im_root _ _ Him) _ _ Hk) as Hp. destruct (fi_data _ Hfits f ltac:(by eapply list_elem_of_lookup_2)) as [_ Hs].
  assert (Esz : i_size (inode_at D sb (Z.of_nat k + 1)) = flen f.2).
  { rewrite image_inode by lia. destruct (inode_fields (slot_off (Z.of_nat k + 1))) as (_ & -> & _). apply Hp. }
  split_and!; [|done|].
  - split; [rewrite Esz; exact Hs|]. split; [rewrite Esz; unfold flen; lia|]. rewrite Esz. intros t Ht.
    pose proof (proj1 (nblocks_lt t (flen f.2) ltac:(lia)) ltac:(lia)) as Hlt. pose proof (nblk_bounds f.2) as [Hn1 Hn2].
    unfold NSLOTS, BLKSZ in Hs. rewrite (file_slot _ _ f.2 t Hp) by (unfold NSLOTS; lia). unfold file_blk, foot in *.
    rewrite (proj2 (Z.eqb_neq t (-1))), (proj2 (Z.ltb_lt t (nblk f.2))) by lia.
    split; [lia|]. apply block_slice; unfold clen; try (destruct (10 <? nblk f.2); lia). intros y Hy.
    replace ((place fs k + t) * 512 + y) with (place fs k * 512 + (t * 512 + y)) by lia. apply Hp. lia.
  - rewrite image_inode by lia. destruct (inode_fields (slot_off (Z.of_nat k + 1))) as (-> & _). apply Hp.
Qed.

Lemma image_dir : file_holds D (inode_at D sb 0) (concat (entries_from 1 fs)) /\ i_size (inode_at D sb 0) = 32 * Z.of_nat (length fs) /\
  i_mode (inode_at D sb 0) = 0x41ED.
Proof.
  pose proof (fi_count _ Hfits) as Hcnt. destruct (root_need_bounds fs Hcnt) as [Hn1 Hn2]. pose proof last_blk_bounds.
  destruct (entries_facts fs Hfits) as [Hl _]. destruct (im_root _ _ Him) as [R1 R2 R3 R4 R5 R6 R7].
  assert (Hel : length (entries_from 1 fs) = length fs) by (unfold entries_from; by rewrite length_imap).
  assert (Hcl : flen (concat (entries_from 1 fs)) = 32 * Z.of_nat (length fs)) by (unfold flen; rewrite length_concat32, Hel by done; lia).
  destruct (inode_fields (slot_off 0)) as (Em & Es & _). rewrite <- (image_inode 0) in Em, Es by lia. change (slot_off 0) with 1536 in Em, Es. change (1536 + 6) with 1542 in Es. rewrite R3 in Es. rewrite R2 in Em.
  split_and!; [|done|done]. split; [rewrite Es; unfold NSLOTS; lia|]. split; [rewrite Es, <- Hcl; unfold flen; lia|]. rewrite Es. intros t Ht.
  pose proof (proj1 (nblocks_lt t (32 * Z.of_nat (length fs)) ltac:(lia)) ltac:(lia)) as Hlt.
  assert (Htn : t < root_need fs). { unfold root_need, BLKSZ. rewrite cdiv_blocks. lia. }
  rewrite root_slot by (unfold NSLOTS; lia). unfold dir_blk. rewrite (proj2 (Z.leb_le 0 t)), (proj2 (Z.ltb_lt t _)) by lia. cbn [andb].
  rewrite root_blk_eq by lia. pose proof (data_ends_ge 12 fs). unfold last_blk in *.
  split; [destruct (Z.eqb_spec t 0); lia|]. apply block_slice; unfold clen; try lia; [destruct (Z.eqb_spec t 0); lia|]. intros y Hy.
  set (a := (t * 512 + y) / 32). pose proof (Z.div_mod (t * 512 + y) 32 ltac:(lia)) as Ed. pose proof (Z.mod_pos_bound (t * 512 + y) 32 ltac:(lia)) as Er. fold a in Ed.
  destruct (lookup_lt_is_Some_2 (entries_from 1 fs) (Z.to_nat a) ltac:(lia)) as [de Ede]. pose proof (R6 _ _ Ede) as Hpk. rewrite Z2Nat.id in Hpk by lia.
  destruct (adr_eq fs a Hcnt ltac:(lia)) as (Qa & Ea & Ra & E32). assert (a * 32 / 512 = t) as Et by lia.
  rewrite Ea, Et, root_blk_eq in Hpk by lia. rewrite <- (slice_concat32 _ _ _ Hl Ede) in Hpk.
  apply (f_equal (fun l => byte l ((t * 512 + y) mod 32))) in Hpk. rewrite byte_peek in Hpk by lia. rewrite byte_slice in Hpk by lia.
  rewrite Z2Nat.id in Hpk by lia. replace (a * 32 + (t * 512 + y) mod 32) with (t * 512 + y) in Hpk by lia. rewrite <- Hpk. f_equal. lia.
Qed.

(** ** The volume *)

Definition volume_files : list rfile := imap (fun k f => (Z.of_nat k + 1, f.1, f.2)) fs.

Lemma volume_names : (fun x : rfile => x.1.2) <$> volume_files = fs.*1.
Proof.
  apply list_eq. intros k. unfold volume_files. rewrite !list_lookup_fmap, list_lookup_imap. by destruct (fs !! k).
Qed.

Lemma image_entries : dir_files (concat (entries_from 1 fs)) (rf_entry <$> volume_files).
Proof.
  destruct (entries_facts fs Hfits) as [Hl _]. pose proof (fi_count _ Hfits).
  assert (Hel : length (entries_from 1 fs) = length fs) by (unfold entries_from; by rewrite length_imap).
  assert (Hev : length (rf_entry <$> volume_files) = length fs) by (unfold volume_files; rewrite length_fmap; by rewrite length_imap).
  assert (Hent : forall k f, fs !! k = Some f -> name_ok f.1 /\ slice (Z.of_nat k * 32) 32 (concat (entries_from 1 fs)) = dirent (1 + Z.of_nat k) f.1).
  { intros k f Hk. destruct (fi_names _ Hfits f ltac:(by eapply list_elem_of_lookup_2)) as (Hn & _). split; [done|]. apply slice_concat32; [done|].
    unfold entries_from. rewrite list_lookup_imap, Hk. simpl. destruct Hn. by rewrite take_ge by lia. }
  split.
  - split; [rewrite Hev, length_concat32, Hel by done; lia|]. intros k x Hk. unfold volume_files in Hk. rewrite list_lookup_fmap, list_lookup_imap in Hk.
    destruct (fs !! k) as [f|] eqn:Ef; [|done]. injection Hk as <-. apply lookup_lt_Some in Ef as Hkl. destruct (Hent k f Ef) as [Hn ->]. split; [done|].
    replace (1 + Z.of_nat k) with (Z.of_nat k + 1) by lia. apply dirent_entry; [lia | apply Hn].
  - intros k Hk. rewrite Hev in Hk. destruct (lookup_lt_is_Some_2 fs k Hk) as [f Ef]. destruct (Hent k f Ef) as [Hn ->]. apply dirent_entry; [lia | apply Hn].
Qed.

Lemma image_volume : volume (limit := limit) D live volume_files.
Proof.
  destruct image_dir as (Hd & Hsz & Hmode). destruct sb_fields as (Em & _ & _ & _ & _ & _ & _ & _ & _ & Er). pose proof (fi_count _ Hfits).
  split; fold sb; rewrite ?Er; try done.
  - apply image_fs_ok.
  - unfold live. lia.
  - rewrite Hmode. done.
  - unfold volume_files. by rewrite length_imap.
  - exists (concat (entries_from 1 fs)). split; [done|]. split; [|apply image_entries]. apply Forall_concat. apply (entries_facts fs Hfits).
  - intros x Hx. unfold volume_files in Hx. apply list_elem_of_lookup_1 in Hx as [k Hk]. rewrite list_lookup_imap in Hk.
    destruct (fs !! k) as [f|] eqn:Ef; [|done]. injection Hk as <-. cbn [fst snd]. apply lookup_lt_Some in Ef as Hkl.
    destruct (image_file k f Ef) as (H1 & H2 & H3). split_and!; try done; try (unfold live, U32_NEG1; lia). by rewrite H3.
Qed.
End Volume.

Lemma volume_names_ok fs : fits fs -> names_ok (volume_files fs).
Proof.
  intros Hf. split; [|rewrite volume_names; apply (fi_nodup _ Hf)]. intros x Hx. apply list_elem_of_lookup_1 in Hx as [k Hk].
  unfold volume_files in Hk. rewrite list_lookup_imap in Hk. destruct (fs !! k) as [f|] eqn:Ef; [|done]. injection Hk as <-.
  destruct (fi_names _ Hf f ltac:(by eapply list_elem_of_lookup_2)) as (H1 & H2 & _). done.
Qed.

(** The kernel reads what the build wrote.  When the files named on the
    command line fit the volume, the builder produces an image; from any disk
    that holds the image, [noxfs_init] mounts it, establishing the invariant of
    the file system, every installed file is found under its name with the
    bytes it has on the host, and its path resolves to its inode. *)
Theorem built_image_mounts {S : Type} {limit : Z} `{BC : BufferCache S limit} (ata_read : Z -> S -> os_status * list Z * S)
    (pick : gmap Z (list Z) -> Z -> option (Z * list Z)) `{!ObjHeap pick} host specs fs sb0 fl cnt r h :
  2048 <= limit <= 2 ^ 32 -> listed host specs fs -> fits fs -> (length fs <= 24)%nat -> names32 fl ->
  heap_room pick h 25 (NSLOTS * 512 + 512) ->
  exists m, mkdisk host specs = Some m /\
    forall c, bc_ready c -> (forall b, 0 <= b < limit -> bc_disk c b = blocks_of m b) ->
    forall k f, fs !! k = Some f ->
    runs (let* st := noxfs_init pick ata_read in
          let* slot := noxfs_lookup pick ata_read f.1 in
          let* ino := noxfs_resolve pick ata_read 0 (47 :: f.1) in ret (st, slot, ino)) (mkNox c sb0 fl cnt r h)
      (fun res s => res = (OS_OK, Some (Z.of_nat k), Z.of_nat k + 1) /\
         loaded (n_heap s) (Z.of_nat k + 1, f.1, f.2) (file (Z.of_nat k) s) /\
         exists D, cok (n_bc s) ∅ D /\ fs_ok (limit := limit) D (n_sb s) (live fs)).
Proof.
  intros Hlim Hl Hf Hcnt Hfl Hroom. destruct (mkdisk_image host specs fs Hl Hf) as (m & Em & Him). exists m. split; [done|].
  intros c Hr HD k f Hk. pose proof (image_volume limit m (bc_disk c) fs ltac:(lia) HD Him Hf) as Hv. pose proof (volume_names_ok fs Hf) as Hn.
  assert (Hx : volume_files fs !! k = Some (Z.of_nat k + 1, f.1, f.2)) by (unfold volume_files; by rewrite list_lookup_imap, Hk).
  assert (Hvl : length (volume_files fs) = length fs) by (unfold volume_files; by rewrite length_imap).
  apply runs_bind. eapply runs_mono; [by apply (init_mounted ata_read pick c sb0 fl cnt r h (bc_disk c) (live fs) (volume_files fs)); rewrite ?Hvl|].
  intros st s (-> & Hm & Hc). apply runs_bind. apply (lookup_name_runs ata_read pick (bc_disk c) (volume_files fs) h s k (Z.of_nat k + 1, f.1, f.2)); [done | done | done |].
  pose proof (volume_is_dir _ _ _ Hv) as Hd. pose proof (mt_heap _ _ _ _ Hm) as Hh. pose proof (mt_ready _ _ _ _ Hm) as Hrd. pose proof (mt_sb _ _ _ _ Hm) as Hsb.
  pose proof (load_size_pos (32 * Z.of_nat (length (rf_entry <$> volume_files fs))) ltac:(rewrite length_fmap; lia)) as Hls. rewrite length_fmap in Hls.
  destruct (Hroom (n_heap s) (load_size (32 * Z.of_nat (length (rf_entry <$> volume_files fs))))) as (p & d0 & Hp & _); [lia | rewrite length_fmap; unfold NSLOTS; lia |].
  destruct (fi_names _ Hf f ltac:(by eapply list_elem_of_lookup_2)) as (_ & Hcomp & _).
  destruct s as [c1 sb1 fl1 n1 r1 h1]. cbn [n_bc n_sb n_files n_count n_ready n_heap] in *. subst r1 sb1.
  apply runs_bind. eapply (resolve_runs ata_read pick c1 _ fl1 n1 h1 (bc_disk c) (live fs) _ (rf_entry <$> volume_files fs) f.1 p d0);
    [apply (mt_cache _ _ _ _ Hm) | apply (v_fs _ _ _ Hv) | apply (v_root _ _ _ Hv) | done | done | done | by right |].
  intros c2 Hc2. rewrite (dir_get_lookup _ k (Z.of_nat k + 1) f.1); [|by apply names_nodup|by rewrite list_lookup_fmap, Hx|lia].
  apply runs_ret. split; [done|]. split; [apply (mt_files _ _ _ _ Hm k _ Hx)|]. exists (bc_disk c). split; [done | apply (v_fs _ _ _ Hv)].
Qed.
End MkDiskMount.
