(* ===== verification/MkDiskDemo.v ===== *)
(** * A built image on a RAM disk

    One file on the host and one missing; the image is put on a RAM disk of
    2048 blocks.  The instances of the theorems on directories, mounting and
    the image builder. *)
From S2P Require Import Prelude Bytes Block Buffer NoxFS NoxDisk NoxFiles NoxDemo NoxDir NoxMount MkDisk MkDiskSpec MkDiskMount.
Import NoxFS NoxDisk NoxFiles NoxDir NoxMount MkDisk MkDiskSpec MkDiskMount.

Module MkDiskDemo.

#[local] Existing Instance NoxDemo.demo_heap.
#[local] Existing Instance NoxDemo.demo_cache.

Abbreviation io := (Block.blk Block.Ram.store * Block.Ram.store)%type.
Abbreviation cache := (Buffer.st io).

Lemma disk_limit : 0 < 2048 < 2 ^ 32. Proof. lia. Qed.
#[export] Instance disk_io : Buffer.DiskIO (Buffer.blk_io (W := Block.Ram.store)) 2048 :=
  @Buffer.block_disk_io _ _ _ disk_limit (Block.Ram.ram_reliable 2048).
#[export] Instance disk_cache : BufferCache cache 2048 := @Buffer.buffer_cache io _ 2048 ltac:(lia) disk_io.

Definition layer : Block.blk Block.Ram.store :=
  (Block.blk_register (Some (Block.mkDev 0 2048 (Some Block.Ram.transfer) false)) Block.blk_init).2.

(** The RAM disk that holds the first [n] blocks of an image. *)
Definition disk_upto (n : Z) (m : mem) : Block.Ram.store := list_to_map ((fun b => (b, blocks_of m b)) <$> seqZ 0 n).
Definition disk_of (m : mem) : Block.Ram.store := disk_upto 2048 m.

Lemma disk_upto_sector n m b : 0 <= b < n -> Block.Ram.read_sector (disk_upto n m) b = blocks_of m b.
Proof.
  intros Hb. unfold Block.Ram.read_sector, disk_upto. rewrite (elem_of_list_to_map_1 _ b (blocks_of m b)).
  - by rewrite bool_decide_eq_true_2 by apply length_peek.
  - rewrite <- list_fmap_compose. change (fst ∘ (fun b0 => (b0, blocks_of m b0))) with (@id Z). rewrite list_fmap_id. apply NoDup_seqZ.
  - apply list_elem_of_fmap. exists b. split; [done|]. apply elem_of_seqZ. lia.
Qed.

Lemma disk_of_sector m b : 0 <= b < 2048 -> Block.Ram.read_sector (disk_of m) b = blocks_of m b.
Proof. apply disk_upto_sector. Qed.

Definition cache_of (m : mem) : cache := Buffer.buf_init (layer, disk_of m).

Lemma layer_idle : Block.idle layer.
Proof. split; [done | by apply Forall_replicate | done | vm_compute; lia]. Qed.

Lemma layer_ok w : Buffer.io_ok (DiskIO := disk_io) (layer, w).
Proof. split_and!; [apply layer_idle | done |]. eexists. split; [reflexivity|]. split; [done|]. right. by vm_compute. Qed.

Lemma cache_ready m : bc_ready (cache_of m).
Proof. exact (layer_ok (disk_of m)). Qed.

Definition ata_none (b : Z) (s : cache) : os_status * list Z * cache := (OS_ERR_IO, [], s).
Definition table0 : list vfs_file := replicate 24 blank_file.

Lemma table0_ok : names32 table0.
Proof. split; [done|]. by apply Forall_replicate. Qed.

Lemma pick_room h k n : heap_room NoxDemo.pick h k n.
Proof.
  intros h' m _ Hm. unfold NoxDemo.pick. eexists _, _. split; [reflexivity|]. apply Forall_replicate. lia.
Qed.

(** The arguments "nsh:a" and "x:b"; the host has the file "a". *)
Definition host (p : list Z) : option (list Z) := if bool_decide (p = [97]) then Some [127; 69; 76; 70] else None.
Definition specs : list (list Z) := [[110; 115; 104; 58; 97]; [120; 58; 98]].
Definition files : list ifile := [([110; 115; 104], [127; 69; 76; 70])].

Lemma specs_listed : listed host specs files.
Proof. eapply listed_file; [reflexivity | reflexivity |]. eapply listed_skip; [reflexivity | reflexivity |]. constructor. Qed.

Lemma nsh_ok : name_ok [110; 115; 104] /\ comp_ok [110; 115; 104].
Proof. split; [split|split_and!]; try done; try (simpl; lia); repeat constructor; lia. Qed.

Lemma files_fit : fits files.
Proof.
  split.
  - intros f Hf. apply list_elem_of_singleton in Hf as ->. destruct nsh_ok. done.
  - apply NoDup_singleton.
  - intros f Hf. apply list_elem_of_singleton in Hf as ->. split; [repeat constructor; lia | done].
  - simpl. lia.
  - vm_compute. discriminate.
Qed.

Definition mounted_disk (m : mem) : nox cache := mkNox (cache_of m) NoxDemo.sb0 table0 0 false ∅.

Lemma built_image_mounts_witness : exists m, mkdisk host specs = Some m /\
  runs (let* st := noxfs_init NoxDemo.pick ata_none in
        let* slot := noxfs_lookup NoxDemo.pick ata_none [110; 115; 104] in
        let* ino := noxfs_resolve NoxDemo.pick ata_none 0 [47; 110; 115; 104] in ret (st, slot, ino)) (mounted_disk m)
    (fun res s => res = (OS_OK, Some 0, 1)).
Proof.
  destruct (built_image_mounts (limit := 2048) ata_none NoxDemo.pick host specs files NoxDemo.sb0 table0 0 false ∅
    ltac:(lia) specs_listed files_fit ltac:(simpl; lia) table0_ok (pick_room ∅ 25 _)) as (m & Em & H).
  exists m. split; [exact Em|]. eapply runs_mono.
  - apply (H (cache_of m) (cache_ready m) (disk_of_sector m) 0%nat ([110; 115; 104], [127; 69; 76; 70]) eq_refl).
  - intros res s (-> & _). reflexivity.
Defined.

Lemma path_lookups_exhaust_table_witness : exists m, mkdisk host specs = Some m /\
  runs (let* st := noxfs_init NoxDemo.pick ata_none in
        let* rs := lookups ata_none NoxDemo.pick 24 [47; 110; 115; 104] in ret (st, rs)) (mounted_disk m)
    (fun res _ => res = (OS_OK, (Some <$> seqZ 1 23) ++ [None])).
Proof.
  destruct (mkdisk_image host specs files specs_listed files_fit) as (m & Em & Him). exists m. split; [exact Em|].
  eapply runs_mono.
  - apply (path_lookups_exhaust_table ata_none NoxDemo.pick (cache_of m) NoxDemo.sb0 table0 0 false ∅ (bc_disk (cache_of m)) (live files)
      (volume_files files) (1, [110; 115; 104], [127; 69; 76; 70]) 24 (cache_ready m) (fun b => eq_refl)
      (image_volume 2048 m _ files ltac:(lia) (disk_of_sector m) Him files_fit) (volume_names_ok files files_fit) table0_ok ltac:(simpl; lia)
      (pick_room ∅ 25 _) ltac:(left)).
  - intros res s ->. reflexivity.
Defined.

(** A name for inode 1 in the empty root directory of the volume of NoxDemo. *)
Lemma root_empty : is_dir NoxDemo.D0 NoxDemo.sb0 0 [].
Proof.
  split; [vm_compute; discriminate|]. split; [vm_compute; reflexivity|]. exists []. split; [|split; [constructor | split; [simpl; lia | done]]].
  split; [vm_compute; discriminate|]. split; [vm_compute; discriminate|]. intros t Ht.
  replace (nblocks (i_size (inode_at NoxDemo.D0 NoxDemo.sb0 0))) with 0 in Ht by (vm_compute; reflexivity). lia.
Qed.


End MkDiskDemo.
