(* ===== verification/Vfs.v ===== *)
(** * The file systems behind the VFS (src/fs/vfs, src/fs/procfs, src/fs/devfs)

    The state of the whole kernel, the synthetic file systems /proc and /dev,
    the built-in ramfs, and the facade that sends a path or an open file to one
    of them.

    A [vfs_file_t*] is a position in one table of [vfs_file_t] objects: the
    table of NoxFS is followed by the static objects of the other file systems,
    whose contents are static buffers at fixed addresses. *)
From Stdlib Require String Ascii.
Import String.StringSyntax.
From S2P Require Import Prelude Bytes Pmm Vmm Pipe Proc Vga Input Buffer NoxFS.

Module Vfs.
Import Proc NoxFS.

Definition cs (s : String.string) : list Z := (fun a => Z.of_nat (Ascii.nat_of_ascii a)) <$> String.list_ascii_of_string s.
#[global] Arguments cs s%_string_scope.

Definition SLASH : Z := 47.
Definition is_digit (c : Z) : bool := (48 <=? c) && (c <=? 57).

(** ** Constants *)

Abbreviation PROCFS_ROOT_INO := 0xFFFFFFFE.
Abbreviation PROCFS_PID_INO pid := (Z.lor 0xFFFF0000 (Z.land (u32 pid) 0xFFFF)).
Abbreviation IS_PROCFS_INO ino := (0xFFFF0000 <=? ino).
Abbreviation POOL_SLOTS := 8.
Abbreviation POOL_BUFSZ := 512.

Abbreviation DEV_ROOT_INO := 0xFFFE0000.
Abbreviation DEV_NULL_INO := 0xFFFE0001.
Abbreviation DEV_ZERO_INO := 0xFFFE0002.
Abbreviation DEV_TTY_INO := 0xFFFE0003.
Abbreviation DEV_RANDOM_INO := 0xFFFE0004.
Abbreviation IS_DEVFS_INO ino := (DEV_ROOT_INO <=? ino).
Abbreviation POOL := 4.
Abbreviation FILES_N := 3.

(** ** Numbers as text (procfs.c) *)

(** Digits are produced from the last to the first; 64 bits are at most 20 decimal
    and 16 hexadecimal digits. *)
Fixpoint digits (fuel : nat) (base : Z) (v : Z) (acc : list Z) : list Z :=
  match fuel with
  | O => acc
  | S fuel =>
      if v =? 0 then acc
      else let d := v mod base in digits fuel base (v / base) ((if d <? 10 then 48 + d else 97 + d - 10) :: acc)
  end.

Definition uint_to_str (v : Z) : list Z := if v =? 0 then [48] else digits 20 10 v [].
Definition hex_to_str (v : Z) : list Z := if v =? 0 then [48] else digits 16 16 v [].

Fixpoint parse_from (v : Z) (s : list Z) : Z :=
  match s with
  | c :: s => if is_digit c then parse_from (u64 (v * 10 + (c - 48))) s else v
  | [] => v
  end.
Definition parse_uint (s : list Z) : Z := parse_from 0 s.

Fixpoint skip_digits (s : list Z) : list Z :=
  match s with
  | c :: s' => if is_digit c then skip_digits s' else s
  | [] => []
  end.

Definition state_name (s : proc_state) : list Z :=
  match s with PROC_READY => cs "ready" | PROC_RUNNING => cs "running" | PROC_BLOCKED => cs "blocked" | PROC_ZOMBIE => cs "zombie" end.

(** ** Paths *)

Definition procfs_is_proc_path (p : list Z) : bool :=
  bool_decide (take 5 p = cs "/proc") && match drop 5 p with [] => true | c :: _ => c =? SLASH end.
Definition devfs_is_dev_path (p : list Z) : bool :=
  bool_decide (take 4 p = cs "/dev") && match drop 4 p with [] => true | c :: _ => c =? SLASH end.

Definition is_root (rest : list Z) : bool := bool_decide (rest = []) || bool_decide (rest = [SLASH]).

Definition procfs_resolve (path : list Z) : Z :=
  let rest := drop 5 path in
  if is_root rest then PROCFS_ROOT_INO
  else match rest with
       | c :: rest =>
           if negb (c =? SLASH) then U32_NEG1
           else if is_digit (byte rest 0) then
             if bool_decide (skip_digits rest = []) then PROCFS_PID_INO (parse_uint rest) else U32_NEG1
           else U32_NEG1
       | [] => U32_NEG1
       end.

Definition procfs_is_dir (ino : Z) : bool := IS_PROCFS_INO ino.

(** The device a path names. *)
Definition dev_of (path : list Z) : option Z :=
  match drop 4 path with
  | c :: r =>
      if negb (c =? SLASH) then None
      else if bool_decide (r = cs "null") then Some DEV_NULL_INO
      else if bool_decide (r = cs "zero") then Some DEV_ZERO_INO
      else if bool_decide (r = cs "tty") then Some DEV_TTY_INO
      else if bool_decide (r = cs "random") then Some DEV_RANDOM_INO
      else None
  | [] => None
  end.

(** ** Directory entries

    One 32-byte entry at [pos] of the caller's buffer; name bytes past the
    terminator are left as they were. *)

Definition write_dirent (buf : list Z) (pos len ino type : Z) (name : list Z) : list Z * Z :=
  if len <? u32 (pos + DIRENT_SZ) then (buf, pos)
  else
    let n := take 23 name in
    (splice pos (le_bytes 4 ino ++ le_bytes 2 DIRENT_SZ ++ [Z.of_nat (length n); type] ++ n ++ [0]) buf, u32 (pos + DIRENT_SZ)).

(** Entries of a constant table from its first one on while they fit: the buffer, the
    position, and the entries left. *)
Fixpoint write_entries (es : list (list Z * Z * Z)) (buf : list Z) (pos len : Z) : list Z * Z * list (list Z * Z * Z) :=
  match es with
  | [] => (buf, pos, [])
  | (name, ino, type) :: es' =>
      if u32 (pos + DIRENT_SZ) <=? len then
        let '(buf, pos) := write_dirent buf pos len ino type name in write_entries es' buf pos len
      else (buf, pos, es)
  end.

Definition dev_entries : list (list Z * Z * Z) :=
  [(cs ".", DEV_ROOT_INO, 2); (cs "..", DEV_ROOT_INO, 2); (cs "null", DEV_NULL_INO, 1); (cs "zero", DEV_ZERO_INO, 1);
   (cs "tty", DEV_TTY_INO, 1); (cs "random", DEV_RANDOM_INO, 1)].

(** The result, the buffer and the new offset; an offset past the end of the table
    reads outside it and has no result. *)
Definition devfs_getdents (buf : list Z) (len off : Z) : option (Z * list Z * Z) :=
  if len <? DIRENT_SZ then Some (-1, buf, off)
  else
    let idx := off / DIRENT_SZ in
    if 6 <? idx then None
    else
      let es := drop (Z.to_nat idx) dev_entries in
      let '(buf, pos, rest) := write_entries es buf 0 len in
      Some (s32 pos, buf, u32 (off + DIRENT_SZ * (Z.of_nat (length es) - Z.of_nat (length rest)))).

(** ** The kernel *)

Section Kernel.
Context {B : Type} {limit : Z} `{BC : BufferCache B limit}.
Context (pick : gmap Z (list Z) -> Z -> option (Z * list Z)) (ata_read : Z -> B -> os_status * list Z * B).
(** Addresses of the static buffers of procfs ([g_data]) and devfs ([g_dat]). *)
Context (proc_data dev_data : Z -> Z).

(** [proc_next] and [dev_next] are the [g_next] of the two pools. *)
Record sys := mkSys {
  y_kern : kern; y_vm : Vmm.vmm; y_nox : nox B; use_noxfs : bool; proc_next : Z; dev_next : Z;
  g_ticks : Z; g_rand : Z; y_term : Input.term; y_serial : list Z
}.

Abbreviation MS := (M sys).

Definition with_kern (v : kern) (s : sys) : sys :=
  let '(mkSys _ b c d e f g h i j) := s in mkSys v b c d e f g h i j.
Definition with_vm (v : Vmm.vmm) (s : sys) : sys :=
  let '(mkSys a _ c d e f g h i j) := s in mkSys a v c d e f g h i j.
Definition with_nox (v : nox B) (s : sys) : sys :=
  let '(mkSys a b _ d e f g h i j) := s in mkSys a b v d e f g h i j.
Definition with_use (v : bool) (s : sys) : sys :=
  let '(mkSys a b c _ e f g h i j) := s in mkSys a b c v e f g h i j.
Definition with_next (v w : Z) (s : sys) : sys :=
  let '(mkSys a b c d _ _ g h i j) := s in mkSys a b c d v w g h i j.
Definition with_rand (v : Z) (s : sys) : sys :=
  let '(mkSys a b c d e f g _ i j) := s in mkSys a b c d e f g v i j.
Definition with_term (v : Input.term) (s : sys) : sys :=
  let '(mkSys a b c d e f g h _ j) := s in mkSys a b c d e f g h v j.
Definition with_serial (v : list Z) (s : sys) : sys :=
  let '(mkSys a b c d e f g h i _) := s in mkSys a b c d e f g h i v.

Definition view {A} (f : sys -> A) : MS A := fun s => Some (f s, s).
Definition on_kern {A} (m : MK A) : MS A := zoom y_kern with_kern m.
Definition on_vm {A} (m : M Vmm.vmm A) : MS A := zoom y_vm with_vm m.
Definition on_nox {A} (m : M (nox B) A) : MS A := zoom y_nox with_nox m.

(** ** Open files *)

Definition slot (v : vptr) : Z :=
  match v with
  | VNox i => i
  | VProc i => NOXFS_MAX_FILES + i
  | VDev i => NOXFS_MAX_FILES + POOL_SLOTS + i
  | VRam i => NOXFS_MAX_FILES + POOL_SLOTS + POOL + i
  end.

Definition vfile (v : vptr) : MS vfs_file := view (fun s => file (slot v) (y_nox s)).
Definition set_vfile (v : vptr) (f : vfs_file) : MS unit := on_nox (modify (set_file (slot v) f)).
Definition set_vsize (v : vptr) (n : Z) : MS unit :=
  let* f := vfile v in set_vfile v (mkFile (vf_name f) (vf_data f) n (vf_inode f) (vf_capacity f)).

(** ** /proc (procfs.c) *)

Definition pool_alloc : MS vptr :=
  let* i := view proc_next in
  do* modify (fun s => with_next ((i + 1) mod POOL_SLOTS) (dev_next s) s) in
  let* f := vfile (VProc i) in
  do* set_vfile (VProc i) (mkFile (<[0%nat := 0]> (vf_name f)) (proc_data i) 0 0 POOL_BUFSZ) in
  ret (VProc i).

Fixpoint puts (a pos : Z) (s : list Z) : MS Z :=
  match s with
  | [] => ret pos
  | c :: s => if pos <? POOL_BUFSZ - 1 then do* on_nox (hwrite a pos [c]) in puts a (pos + 1) s else ret pos
  end.

(** A run of [_puts] and [_putu] calls on a new pool file, and its size. *)
Fixpoint puts_all (a pos : Z) (l : list (list Z)) : MS Z :=
  match l with
  | [] => ret pos
  | s :: l => let* pos := puts a pos s in puts_all a pos l
  end.

Definition gen_file (l : list (list Z)) : MS vptr :=
  let* v := pool_alloc in
  let* f := vfile v in
  let* p := puts_all (vf_data f) 0 l in
  do* set_vsize v p in
  ret v.

Definition gen_uptime : MS vptr := let* t := view g_ticks in gen_file [uint_to_str t; cs " ms" ++ [10]].

Definition gen_meminfo : MS vptr :=
  let* n := view (fun s => Pmm.pmm_free_count (Vmm.v_pmm (y_vm s))) in
  gen_file [cs "MemFree:  "; uint_to_str (u64 (n * 4)); cs " kB" ++ [10]; cs "MemTotal: "; uint_to_str (128 * 1024); cs " kB" ++ [10]].

Definition gen_status (p : Z) : MS vptr :=
  let* d := on_kern (pget p) in
  gen_file [cs "Name:  "; cstr (p_name d); [10]; cs "Pid:   "; uint_to_str (pid d); [10];
            cs "State: "; state_name (p_state d); [10]; cs "Brk:   0x"; hex_to_str (p_brk d); [10]].

Definition procfs_lookup (path : list Z) : MS (option vptr) :=
  let rest := drop 5 path in
  if is_root rest then ret None
  else match rest with
       | c :: rest =>
           if negb (c =? SLASH) then ret None
           else if bool_decide (rest = cs "uptime") then let* v := gen_uptime in ret (Some v)
           else if bool_decide (rest = cs "meminfo") then let* v := gen_meminfo in ret (Some v)
           else if is_digit (byte rest 0) then
             if bool_decide (skip_digits rest = cs "/status") then
               let* p := on_kern (scheduler_find (parse_uint rest)) in
               if ctrue p then let* v := gen_status p in ret (Some v) else ret None
             else ret None
           else ret None
       | [] => ret None
       end.

(** The process entries of /proc: [i] counts the processes, [skip] those before the
    offset. *)
Fixpoint proc_dirents (fuel : nat) (i skip : Z) (buf : list Z) (pos len written : Z) : MS (list Z * Z * Z) :=
  match fuel with
  | O => fun _ => None
  | S fuel =>
      let* p := on_kern (scheduler_at i) in
      if negb (ctrue p) then ret (buf, pos, written)
      else if 0 <? skip then proc_dirents fuel (u32 (i + 1)) (skip - 1) buf pos len written
      else if len <? u32 (pos + DIRENT_SZ) then ret (buf, pos, written)
      else
        let* d := on_kern (pget p) in
        let '(buf, pos) := write_dirent buf pos len (PROCFS_PID_INO (pid d)) 2 (uint_to_str (pid d)) in
        proc_dirents fuel (u32 (i + 1)) skip buf pos len (written + 1)
  end.

Definition proc_entries : list (list Z * Z * Z) :=
  [(cs ".", PROCFS_ROOT_INO, 2); (cs "..", PROCFS_ROOT_INO, 2); (cs "uptime", 1, 1); (cs "meminfo", 2, 1)].

Definition procfs_getdents (dir_ino : Z) (buf : list Z) (len off : Z) : MS (Z * list Z * Z) :=
  if len <? DIRENT_SZ then ret (-1, buf, off)
  else
    let idx := off / DIRENT_SZ in
    if dir_ino =? PROCFS_ROOT_INO then
      let es := drop (Z.to_nat idx) proc_entries in
      let skip := idx - Z.min idx 4 in
      let '(buf, pos, rest) := write_entries es buf 0 len in
      let written := Z.of_nat (length es) - Z.of_nat (length rest) in
      match rest with
      | _ :: _ => ret (s32 pos, buf, u32 (idx * DIRENT_SZ + written * DIRENT_SZ))
      | [] =>
          let* fuel := view (fun s => S (size (k_procs (y_kern s)))) in
          let* '(buf, pos, written) := proc_dirents fuel 0 skip buf pos len written in
          ret (s32 pos, buf, u32 (off + written * DIRENT_SZ))
      end
    else if 3 <? idx then fun _ => None
    else
      let es := drop (Z.to_nat idx) [(cs ".", dir_ino, 2); (cs "..", dir_ino, 2); (cs "status", Z.land dir_ino 0xFFFF, 1)] in
      let '(buf, pos, rest) := write_entries es buf 0 len in
      ret (s32 pos, buf, u32 (off + DIRENT_SZ * (Z.of_nat (length es) - Z.of_nat (length rest)))).

(** ** /dev (devfs.c) *)

Definition dev_alloc (ino : Z) : MS vptr :=
  let* i := view dev_next in
  do* modify (fun s => with_next (proc_next s) ((i + 1) mod POOL) s) in
  let* f := vfile (VDev i) in
  do* set_vfile (VDev i) (mkFile (<[0%nat := 0]> (vf_name f)) (dev_data i) 0 ino 0) in
  ret (VDev i).

Definition devfs_lookup (path : list Z) : MS (option vptr) :=
  match dev_of path with Some ino => let* v := dev_alloc ino in ret (Some v) | None => ret None end.

Definition devfs_resolve (path : list Z) : MS Z :=
  if is_root (drop 4 path) then ret DEV_ROOT_INO
  else
    let* v := devfs_lookup path in
    match v with Some v => let* f := vfile v in ret (vf_inode f) | None => ret U32_NEG1 end.

(** ** ramfs (ramfs.c) *)

Definition motd : list Z :=
  cs "Welcome to Noxis OS." ++ [10] ++ cs "A tiny x86 kernel, written from scratch." ++ [10] ++ cs "Type 'help' for commands." ++ [10].
Definition version : list Z := cs "noxis 0.6.0" ++ [10] ++ cs "built 2026-05-30" ++ [10].
Definition readme : list Z :=
  cs "Noxis is an educational kernel." ++ [10] ++ cs "Boot -> GDT/IDT -> paging -> heap -> PIT -> KBD -> sched." ++ [10] ++
  cs "User mode reached via sysenter. Ring 3 demo printed 'Hello'." ++ [10].

(** The static table, with the addresses of the three arrays. *)
Definition ram_file (name : list Z) (data : Z) (text : list Z) : vfs_file :=
  mkFile (name ++ replicate (32 - length name) 0) data (Z.of_nat (length text)) 0 0.
Definition ramfs_files (ram_data : Z -> Z) : list vfs_file :=
  [ram_file (cs "motd") (ram_data 0) motd; ram_file (cs "version") (ram_data 1) version; ram_file (cs "readme") (ram_data 2) readme].

Definition ramfs_entry (i : Z) : option vptr := if i <? FILES_N then Some (VRam i) else None.

Fixpoint ramfs_find (n : nat) (i : Z) (name : list Z) (s : sys) : option vptr :=
  match n with
  | O => None
  | S n => if streq (cstr (vf_name (file (slot (VRam i)) (y_nox s)))) name then Some (VRam i) else ramfs_find n (i + 1) name s
  end.
Definition ramfs_lookup (name : list Z) : MS (option vptr) := view (ramfs_find (Z.to_nat FILES_N) 0 name).

(** ** The facade (vfs.c) *)

Definition as_nox (r : option Z) : option vptr := VNox <$> r.

Definition vfs_init : MS os_status :=
  let* r := on_nox (noxfs_init pick ata_read) in
  if is_ok r then do* modify (with_use true) in ret OS_OK
  else do* modify (with_use false) in ret OS_OK.

Definition vfs_count : MS Z := view (fun s => if use_noxfs s then noxfs_count (y_nox s) else FILES_N).
Definition vfs_entry (i : Z) : MS (option vptr) := view (fun s => if use_noxfs s then as_nox (noxfs_entry i (y_nox s)) else ramfs_entry i).

Definition vfs_lookup (name : list Z) : MS (option vptr) :=
  let* u := view use_noxfs in
  if u then let* r := on_nox (noxfs_lookup pick ata_read name) in ret (as_nox r) else ramfs_lookup name.

Definition vfs_write_file (v : vptr) (offset : Z) (data : list Z) : MS Z :=
  if bool_decide (data = []) then ret 0
  else
    let* u := view use_noxfs in
    if negb u then ret (-1) else on_nox (noxfs_write pick ata_read (slot v) offset data).

Definition vfs_creat (name : list Z) : MS (option vptr) :=
  let* u := view use_noxfs in
  if negb u then ret None else let* r := on_nox (noxfs_creat pick ata_read name) in ret (as_nox r).

Definition vfs_sync : MS unit := let* u := view use_noxfs in if u then on_nox noxfs_sync else ret tt.

Definition vfs_root_ino : MS Z := view (fun s => if use_noxfs s then noxfs_root_ino (y_nox s) else 0).

Definition vfs_resolve_ino (cwd : Z) (path : list Z) : MS Z :=
  if procfs_is_proc_path path then ret (procfs_resolve path)
  else if devfs_is_dev_path path then devfs_resolve path
  else
    let* u := view use_noxfs in
    if negb u then ret U32_NEG1 else on_nox (noxfs_resolve pick ata_read cwd path).

Definition vfs_lookup_at (cwd : Z) (path : list Z) : MS (option vptr) :=
  if procfs_is_proc_path path then procfs_lookup path
  else if devfs_is_dev_path path then devfs_lookup path
  else
    let* u := view use_noxfs in
    if negb u then vfs_lookup path
    else if byte path 0 =? SLASH then let* r := on_nox (noxfs_lookup pick ata_read path) in ret (as_nox r)
    else
      let* ino := on_nox (noxfs_resolve pick ata_read cwd path) in
      if ino =? U32_NEG1 then ret None
      else
        let* hit := view (fun s => find_inode (Z.to_nat (noxfs_count (y_nox s))) 0 ino (y_nox s)) in
        match hit with
        | Some i => ret (Some (VNox i))
        | None => let* r := on_nox (noxfs_lookup pick ata_read (basename path)) in ret (as_nox r)
        end.

Definition vfs_getdents (dir_ino : Z) (buf : list Z) (len off : Z) : MS (Z * list Z * Z) :=
  if IS_PROCFS_INO dir_ino then procfs_getdents dir_ino buf len off
  else if IS_DEVFS_INO dir_ino then fun s => match devfs_getdents buf len off with Some r => Some (r, s) | None => None end
  else
    let* u := view use_noxfs in
    if negb u then ret (-1, buf, off)
    else
      let* '(r, out, off) := on_nox (noxfs_getdents pick ata_read dir_ino len off) in
      ret (r, splice 0 out buf, off).

Definition vfs_is_dir (ino : Z) : MS bool :=
  if IS_PROCFS_INO ino then ret (procfs_is_dir ino)
  else if IS_DEVFS_INO ino then ret (ino =? DEV_ROOT_INO)
  else
    let* u := view use_noxfs in
    if negb u then ret false
    else
      let* '(r, st) := on_nox (noxfs_stat ata_read ino blank_file) in
      if negb (is_ok r) then ret false else ret (ctrue (Z.land (vf_capacity st) 0x4000)).
End Kernel.
Arguments sys : clear implicits.
End Vfs.
