(* ===== verification/Files.v ===== *)
(** * Files, devices and the console behind descriptors (src/proc/fd.c)

    [sys_open], [sys_lseek], [sys_read] and [sys_write].  A user buffer is the
    map of its bytes; a call returns its result and the buffer it leaves.  What
    other processes do while a call waits is an argument: the scan codes that
    arrive before each poll of the keyboard, and the changes to a pipe at each
    yield. *)
From S2P Require Import Prelude Bytes Pipe Proc Fd Vga Input Console Buffer NoxFS Vfs.

Module Files.
Import Fd NoxFS Vfs.

Abbreviation O_CREAT := 0x40.
Abbreviation O_TRUNC := 0x200.
Abbreviation SEEK_CUR := 1.
Abbreviation SEEK_END := 2.

Definition dev_kind (ino : Z) : option fd_kind :=
  if ino =? DEV_NULL_INO then Some FD_DEV_NULL
  else if ino =? DEV_ZERO_INO then Some FD_DEV_ZERO
  else if ino =? DEV_TTY_INO then Some FD_DEV_TTY
  else if ino =? DEV_RANDOM_INO then Some FD_DEV_RANDOM
  else None.

(** The descriptor [sys_open] fills in for a file. *)
Definition open_fd (v : vptr) (f : vfs_file) : fd_t :=
  match dev_kind (vf_inode f) with Some k => mkFd k FNull 0 | None => mkFd FD_FILE (FVfs v) 0 end.

(** The next value of the generator, seeded from the clock. *)
Definition rand_next (ticks g : Z) : Z :=
  let g := if ctrue g then g else let x := Z.lxor ticks 0xDEAD1337 in if ctrue x then x else 1 in
  u32 (g * 1664525 + 1013904223).

(** A 32-bit store into the buffer. *)
Definition wr32 (buf : mem) (o r : Z) : mem :=
  for_up 0 4 (fun j b => wr b (o + j) (Z.land (Z.shiftr r (8 * j)) 255)) buf.

(** The loop of a read from /dev/random: the generator and the buffer. *)
Definition random_fill (ticks len : Z) (g : Z) (buf : mem) : Z * mem :=
  for_up 0 len (fun i '(g, b) =>
    if Z.land i 3 =? 0 then let r := rand_next ticks g in (r, wr32 b (Z.land i 0xFFFFFFFC) r) else (g, b)) (g, buf).

Fixpoint wr_list (buf : mem) (o : Z) (l : list Z) : mem :=
  match l with [] => buf | c :: l => wr_list (wr buf o c) (o + 1) l end.

Definition set_offset (o : Z) (e : fd_t) : fd_t := mkFd (fd_kind_of e) (fd_file e) o.

Section Calls.
Context {B : Type} {limit : Z} `{BC : BufferCache B limit}.
Context (pick : gmap Z (list Z) -> Z -> option (Z * list Z)) (ata_read : Z -> B -> os_status * list Z * B).
Context (proc_data dev_data : Z -> Z).
Abbreviation MS := (M (sys B)).

Definition sys_open (path : list Z) (flags : Z) : MS Z :=
  let* cur := on_kern scheduler_current in
  let* p := on_kern (pget cur) in
  let* v := vfs_lookup_at pick ata_read proc_data dev_data (cwd_ino p) path in
  let* v := match v with
            | None => if ctrue (Z.land flags O_CREAT) then vfs_creat pick ata_read path else ret None
            | Some v => ret (Some v)
            end in
  match v with
  | None => ret (-1)
  | Some v =>
      do* (if ctrue (Z.land flags O_TRUNC) then set_vsize v 0 else ret tt) in
      match closed_from 3 p with
      | None => ret (-1)
      | Some fd =>
          let* f := vfile v in
          do* on_kern (pset cur (fd_put fd (open_fd v f))) in
          ret fd
      end
  end.

Definition sys_lseek (fd off whence : Z) : MS Z :=
  let* cur := on_kern scheduler_current in
  let* p := on_kern (pget cur) in
  match fd_get fd p with
  | None => ret (-1)
  | Some e =>
      match fd_kind_of e, fd_file e with
      | FD_FILE, FVfs v =>
          let* f := vfile v in
          let base := if whence =? SEEK_CUR then fd_offset e else if whence =? SEEK_END then vf_size f else 0 in
          let pos := base + off in
          if pos <? 0 then ret (-1)
          else do* on_kern (pset cur (fd_put fd (set_offset (u32 pos) e))) in ret pos
      | FD_FILE, _ => fun _ => None
      | _, _ => ret (-1)
      end
  end.

(** The bytes of a file from the descriptor's position on. *)
Definition read_file (fd : Z) (e : fd_t) (v : vptr) (len : Z) (buf : mem) : MS (Z * mem) :=
  let* f := vfile v in
  let n := Z.max 0 (Z.min len (vf_size f - fd_offset e)) in
  let* l := (if n =? 0 then ret [] else on_nox (hread (vf_data f) (fd_offset e) n)) in
  let* cur := on_kern scheduler_current in
  do* on_kern (pset cur (fd_put fd (set_offset (fd_offset e + n) e))) in
  ret (n, wr_list buf 0 l).

(** The console reader on the kernel's state. *)
Definition on_term {A} (m : M (Input.term * kern) A) : MS A :=
  zoom (fun s => (y_term s, y_kern s)) (fun '(t, k) s => with_term t (with_kern k s)) m.

Definition pipe_at {A} (i : nat) (m : Pipe.pipe -> option (A * Pipe.pipe)) : MS A :=
  let* ps := view (fun s => g_pipes (y_kern s)) in
  match ps !! i with
  | None => fun _ => None
  | Some p =>
      match m p with
      | None => fun _ => None
      | Some (a, p') => do* on_kern (modify (set_pipes (<[i := p']> ps))) in ret a
      end
  end.

(** A read from the descriptor after /dev/tty has been replaced by standard input. *)
Definition read_fd (keys : list (list Z)) (penv : list (Pipe.pipe -> Pipe.pipe)) (fd : Z) (e : fd_t) (len : Z) (buf : mem) : MS (Z * mem) :=
  match fd_kind_of e, fd_file e with
  | FD_CON_IN, _ => let* '(got, buf, _) := on_term (Console.con_read keys len buf) in ret (got, buf)
  | FD_FILE, FVfs v => read_file fd e v len buf
  | FD_FILE, _ => fun _ => None
  | FD_PIPE_R, FPipe i =>
      let* l := pipe_at i (Pipe.pipe_read penv (Z.to_nat len)) in
      ret (Z.of_nat (length l), wr_list buf 0 l)
  | FD_PIPE_R, _ => fun _ => None
  | _, _ => ret (-1, buf)
  end.

Definition sys_read (keys : list (list Z)) (penv : list (Pipe.pipe -> Pipe.pipe)) (fd len : Z) (buf : mem) : MS (Z * mem) :=
  let* p := on_kern current in
  match fd_get fd p with
  | None => ret (-1, buf)
  | Some e =>
      match fd_kind_of e with
      | FD_DEV_NULL => ret (0, buf)
      | FD_DEV_ZERO => ret (s64 len, for_up 0 len (fun i b => wr b i 0) buf)
      | FD_DEV_RANDOM =>
          let* t := view g_ticks in
          let* g := view g_rand in
          let '(g, buf) := random_fill t len g buf in
          do* modify (with_rand g) in ret (s64 len, buf)
      | FD_DEV_TTY => read_fd keys penv 0 (fd_at 0 p) len buf
      | _ => read_fd keys penv fd e len buf
      end
  end.

(** [vga_write_buf] and [serial_write_n] *)
Definition con_write (data : list Z) : MS unit :=
  do* zoom (fun s => Input.t_vga (y_term s)) (fun v s => with_term (Input.set_vga v (y_term s)) s) (Vga.vga_write_buf data) in
  modify (fun s => with_serial (y_serial s ++ data) s).

(** [null]: the pointer to the data is NULL, which the file system refuses. *)
Definition write_fd (penv : list (Pipe.pipe -> Pipe.pipe)) (fd : Z) (e : fd_t) (null : bool) (data : list Z) : MS Z :=
  let len := Z.of_nat (length data) in
  let data32 := take (Z.to_nat (u32 len)) data in
  match fd_kind_of e, fd_file e with
  | FD_CON_OUT, _ => do* con_write data32 in ret (s64 len)
  | FD_FILE, FVfs v =>
      let* w := vfs_write_file pick ata_read v (fd_offset e) (if null then [] else data32) in
      let* cur := on_kern scheduler_current in
      do* (if 0 <? w then on_kern (pset cur (fd_put fd (set_offset (u32 (fd_offset e + w)) e))) else ret tt) in
      ret w
  | FD_FILE, _ => fun _ => None
  | FD_PIPE_W, FPipe i => pipe_at i (Pipe.pipe_write penv data)
  | FD_PIPE_W, _ => fun _ => None
  | _, _ => ret (-1)
  end.

Definition sys_write (penv : list (Pipe.pipe -> Pipe.pipe)) (fd : Z) (null : bool) (data : list Z) : MS Z :=
  let* p := on_kern current in
  match fd_get fd p with
  | None => ret (-1)
  | Some e =>
      match fd_kind_of e with
      | FD_DEV_NULL | FD_DEV_ZERO | FD_DEV_RANDOM => ret (s64 (Z.of_nat (length data)))
      | FD_DEV_TTY => write_fd penv 1 (fd_at 1 p) null data
      | _ => write_fd penv fd e null data
      end
  end.
End Calls.
End Files.
