(* ===== verification/VfsDemo.v ===== *)
(** * Writing to a file of /proc

    A small volume with one file in its root directory, and a process that
    writes to /proc/uptime. *)
From S2P Require Import Prelude Bytes Pipe Proc Fd Vga Input Buffer Block NoxFS NoxDisk NoxFiles NoxDemo Vmm Pmm Vfs Files.
From Stdlib Require String.
Import String.StringSyntax.
Import NoxFS NoxDemo.

Module VfsDemo.
Import Proc Fd Vfs Files.

(** The root directory (inode 0) has one entry: the file "f", inode 1. *)
Definition root_dir : noxfs_inode := mkInode NOXFS_MODE_DIR 0 0 32 (5 :: replicate 9 0) 0 1 (replicate 8 0).
Definition f_entry : list Z := le_bytes 4 1 ++ le_bytes 2 32 ++ [1; NOXFS_FT_FILE] ++ [102] ++ replicate 23 0.
Definition image2 : gmap Z (list Z) :=
  <[3 := pad512 (inode_bytes root_dir ++ inode_bytes file_inode)]> (<[5 := pad512 f_entry]> image).

(** The static buffers of procfs and devfs are at fixed addresses of their own. *)
Definition proc_data (i : Z) : Z := 1000 + i.
Definition dev_data (i : Z) : Z := 1100 + i.
Definition buffers : gmap Z (list Z) :=
  foldr (fun i h => <[proc_data i := replicate 512 0]> h) ∅ (seqZ 0 8).

Definition nox2 : nox cache := mkNox (Buffer.buf_init (Block.Ram.layer, image2)) sb0 (replicate 39 blank_file) 0 true buffers.
Definition proc2 : process := mkProc 1 [] PROC_RUNNING 0 0 0 0 0 0 0 0 0 [] 0 0 10 1 0 0 std_fds 0 [] [] 0.
Definition kern2 : kern := mkKern {[ 16 := proc2 ]} 16 0 0 16 0 2 0 0 0 ∅ [].
Definition term2 : Input.term := Input.mkTerm Input.kbd0 (Input.mkReg [] 0 None) Input.tty_init Vga.vga0.
Definition sys2 : sys cache := mkSys kern2 (Vmm.mkVmm ∅ Pmm.pmm_boot 0 true) nox2 true 0 0 12345 0 term2 [].

Definition lookup_f : M (sys cache) Z := on_nox (noxfs_resolve pick ata_read 0 (cs "/f")).

(** writing to a file of /proc destroys the root directory.  The synthetic files
    carry inode number 0, a write to an open file goes to NoxFS whatever file system it
    belongs to, and inode 0 is the root directory of a volume.  On a volume with the file
    /f, opening /proc/uptime with truncation (as the shell does for "> /proc/uptime") and
    writing two bytes both succeed; /f resolved to inode 1 before, and to nothing after. *)
Theorem proc_write_destroys_root :
  (let* before := lookup_f in
   let* fd := sys_open pick ata_read proc_data dev_data (cs "/proc/uptime") (Z.lor 1 (Z.lor O_CREAT O_TRUNC)) in
   let* n := sys_write pick ata_read [] fd false [120; 10] in
   let* after := lookup_f in
   ret (before, fd, n, after)) sys2 ≫= (fun r => Some r.1) = Some (1, 3, 2, U32_NEG1).
Proof. vm_compute. reflexivity. Qed.
End VfsDemo.
