(* ===== verification/Syscalls.v ===== *)
(** * System calls (src/proc/syscalls.c, src/kernel/syscall/syscall.c)

    Processes and address spaces ([sys_fork], [sys_exec], [sys_brk],
    [sys_waitpid]), directories and names, and the dispatcher.  Strings and
    buffers of the caller are arguments; what a call stores in user memory is
    part of its result. *)
From S2P Require Import Prelude Bytes Heap Pmm Vmm Pipe Proc Fd Signal Env Path Vga Input Console Buffer NoxFS Vfs Files.

Module Syscalls.
Import Fd NoxFS Vfs Files.

(** System call numbers: the position in the list. *)
Inductive sysno :=
| SYS_EXIT | SYS_WRITE | SYS_READ
| SYS_FORK | SYS_EXEC | SYS_GETPID | SYS_WAITPID
| SYS_OPEN | SYS_CLOSE | SYS_LSEEK | SYS_READDIR
| SYS_DUP | SYS_DUP2 | SYS_PIPE
| SYS_KILL | SYS_SIGNAL | SYS_PROCINFO
| SYS_SETFG
| SYS_CHDIR | SYS_GETCWD | SYS_GETDENTS
| SYS_BRK
| SYS_MKDIR | SYS_UNLINK | SYS_STAT | SYS_RENAME
| SYS_TCGETATTR | SYS_TCSETATTR
| SYS_SLEEP | SYS_UPTIME
| SYS_GETENV | SYS_SETENV | SYS_UNSETENV | SYS_GETENV_AT.

Definition sysnos : list sysno :=
  [SYS_EXIT; SYS_WRITE; SYS_READ;
   SYS_FORK; SYS_EXEC; SYS_GETPID; SYS_WAITPID;
   SYS_OPEN; SYS_CLOSE; SYS_LSEEK; SYS_READDIR;
   SYS_DUP; SYS_DUP2; SYS_PIPE;
   SYS_KILL; SYS_SIGNAL; SYS_PROCINFO;
   SYS_SETFG;
   SYS_CHDIR; SYS_GETCWD; SYS_GETDENTS;
   SYS_BRK;
   SYS_MKDIR; SYS_UNLINK; SYS_STAT; SYS_RENAME;
   SYS_TCGETATTR; SYS_TCSETATTR;
   SYS_SLEEP; SYS_UPTIME;
   SYS_GETENV; SYS_SETENV; SYS_UNSETENV; SYS_GETENV_AT].
Definition sysno_of (n : Z) : option sysno := if (0 <=? n) && (n <? 34) then sysnos !! Z.to_nat n else None.

Abbreviation MAX_ARGS := 16.
Abbreviation USER_HEAP_MAX := 0x40000000.

(** ** The initial stack of a program *)

Fixpoint store_bytes (m : mem) (a : Z) (l : list Z) : mem :=
  match l with [] => m | c :: l => store_bytes (Vmm.wr8 m a c) (a + 1) l end.

(** The strings, last one first, below [off] in the page at [stk]: the offset reached
    and the user addresses, in the order of the arguments. *)
Fixpoint push_strings (stk : Z) (rargs : list (list Z)) (off : Z) (uva : list Z) (m : mem) : Z * list Z * mem :=
  match rargs with
  | [] => (off, uva, m)
  | s :: rargs =>
      let off := off - (Z.of_nat (length s) + 1) in
      push_strings stk rargs off (u64 (Vmm.USTACK_BASE + off) :: uva) (store_bytes m (stk + off) (s ++ [0]))
  end.

(** 64-bit words pushed from the last to the first. *)
Fixpoint push_vals (stk : Z) (rvals : list Z) (off : Z) (m : mem) : Z * mem :=
  match rvals with
  | [] => (off, m)
  | v :: rvals => push_vals stk rvals (off - 8) (wr m (stk + (off - 8)) v)
  end.

(** The page of the new stack: the offset of [argc] and the memory.  [off] goes below 0
    when the arguments do not fit, and the stores then leave the page. *)
Definition build_stack (stk : Z) (argv : list (list Z)) (m : mem) : Z * mem :=
  let args := take (Z.to_nat MAX_ARGS) argv in
  let '(off, uva, m) := push_strings stk (reverse args) 0x1000 [] m in
  let off := Z.land off (Z.lnot 7) in
  push_vals stk (reverse (Z.of_nat (length args) :: uva ++ [0])) off m.

Definition set_entry_point (rip ursp : Z) (f : syscall_frame) : syscall_frame :=
  let '(mkFrame _ b c d e g h i j k l m n _ _ _) := f in mkFrame 0 b c d e g h i j k l m n rip 0x202 ursp.

(** The [nox_stat_t] of [sys_stat]. *)
Definition stat_bytes (ino mode size : Z) : list Z := le_bytes 4 ino ++ le_bytes 2 mode ++ le_bytes 2 0 ++ le_bytes 4 size ++ le_bytes 4 0.

Definition state_code (s : proc_state) : Z := match s with PROC_READY => 0 | PROC_RUNNING => 1 | PROC_BLOCKED => 2 | PROC_ZOMBIE => 3 end.

Abbreviation page_up a := (Vmm.frame_of (u64 (a + 0xFFF))).

Section Calls.
Context {B : Type} {limit : Z} `{BC : BufferCache B limit}.
Context (pick : gmap Z (list Z) -> Z -> option (Z * list Z)) (ata_read : Z -> B -> os_status * list Z * B).
Context (proc_data dev_data : Z -> Z).
Context (new_proc : gmap Z process -> option (Z * process)) (new_stack : gmap Z process -> option Z).
Context (fork_ret_trampoline : Z).
Abbreviation MS := (M (sys B)).

Abbreviation resolve := (vfs_resolve_ino pick ata_read dev_data).
Abbreviation is_dir := (vfs_is_dir ata_read).

(** ** Processes and address spaces *)

Definition sys_fork (f : syscall_frame) : MS Z :=
  let* p := on_kern current in
  let* child_pml4 := on_vm Vmm.vmm_create_address_space in
  if child_pml4 =? 0 then ret (-1)
  else
    let* r := on_vm (Vmm.vmm_cow_user_space child_pml4 (pml4 p)) in
    if negb (r =? 0) then ret (-1) else on_kern (fork_child new_proc new_stack fork_ret_trampoline f child_pml4).

(** The result and the frame the call returns to. *)
Definition sys_exec (f : syscall_frame) (path : list Z) (argv : option (list (list Z))) : MS (Z * syscall_frame) :=
  let* v := vfs_lookup pick ata_read path in
  match v with
  | None => ret (-1, f)
  | Some v =>
      let* prog := vfile v in
      if vf_data prog =? 0 then ret (-1, f)
      else
        let* nas := on_vm Vmm.vmm_create_address_space in
        if nas =? 0 then ret (-1, f)
        else
          let* img := view (fun s => n_heap (y_nox s) !! vf_data prog) in
          match img with
          | None => fun _ => None
          | Some img =>
              let* '(entry, brk) := on_vm (Vmm.elf64_load_into nas img) in
              if entry =? 0 then ret (-1, f)
              else
                let* stk := on_vm Vmm.pmm_alloc in
                if stk =? 0 then ret (-1, f)
                else
                  let* _ := on_vm (Vmm.vmm_map_page_into nas Vmm.USTACK_BASE stk (Z.lor Vmm.PAGE_RW Vmm.PAGE_USER)) in
                  let* m := view (fun s => Vmm.v_mem (y_vm s)) in
                  let '(off, m) := build_stack stk (default [] argv) m in
                  do* on_vm (modify (Vmm.set_mem m)) in
                  let* cur := on_kern scheduler_current in
                  let* p := on_kern (pget cur) in
                  do* on_kern (pset cur (set_pml4 nas)) in
                  do* on_kern (modify (fun k => set_cpu nas (g_cur_kstack k) (k_rsp k) k)) in
                  do* on_vm (Vmm.vmm_free_user_space (pml4 p)) in
                  do* on_kern (pset cur (set_layout Vmm.USTACK_BASE (default 0 brk))) in
                  do* (if cwd_ino p =? 0 then
                         let* root := vfs_root_ino in
                         on_kern (pset cur (set_cwd root (<[0%nat := 47]> (<[1%nat := 0]> (cwd_path p)))))
                       else ret tt) in
                  ret (0, set_entry_point entry (u64 (Vmm.USTACK_BASE + off)) f)
          end
  end.

(** The pages of [sys_brk], from [va] on; [None] when a frame is missing. *)
Fixpoint brk_pages (n : nat) (pml4_ va : Z) : M Vmm.vmm bool :=
  match n with
  | O => ret true
  | S n =>
      let* frame := Vmm.pmm_alloc in
      if frame =? 0 then ret false
      else
        do* Vmm.zero_table frame in
        let* _ := Vmm.vmm_map_page_into pml4_ va frame (Z.lor Vmm.PAGE_RW Vmm.PAGE_USER) in
        brk_pages n pml4_ (va + 0x1000)
  end.

Definition sys_brk (addr : Z) : MS Z :=
  let* cur := on_kern scheduler_current in
  let* p := on_kern (pget cur) in
  if (addr =? 0) || (addr <=? p_brk p) || (USER_HEAP_MAX <=? addr) then ret (s64 (p_brk p))
  else
    let* ok := on_vm (brk_pages (Z.to_nat ((page_up addr - page_up (p_brk p)) / 0x1000)) (pml4 p) (page_up (p_brk p))) in
    if negb ok then ret (s64 (p_brk p))
    else do* on_kern (pset cur (fun d => set_layout (stack_low d) addr d)) in ret (s64 addr).

(** Each element of [env] is what the others do while the caller has yielded; the result
    is the child's pid and its exit code. *)
Fixpoint sys_waitpid (env : list (sys B -> sys B)) (want : Z) : MS (Z * Z) :=
  let* r := on_kern (reap_child want) in
  match r with
  | Some (cpid, code, as_) => do* on_vm (Vmm.vmm_free_user_space as_) in ret (cpid, code)
  | None => match env with [] => fun _ => None | e :: env => do* modify e in sys_waitpid env want end
  end.

Definition sys_getpid : MS Z := let* p := on_kern current in ret (pid p).
Definition sys_setfg (p : Z) : MS unit := on_kern (scheduler_set_fg p).
Definition sys_uptime : MS Z := view g_ticks.

Fixpoint sleep_until (env : list (sys B -> sys B)) (wake : Z) : MS unit :=
  let* t := view g_ticks in
  if t <? wake then match env with [] => fun _ => None | e :: env => do* modify e in sleep_until env wake end else ret tt.
Definition sys_sleep (env : list (sys B -> sys B)) (ms : Z) : MS unit :=
  let* t := view g_ticks in sleep_until env (u32 (t + ms)).

(** [NULL] pointers are [None]. *)
Definition sys_tcgetattr (out : bool) : MS (Z * option Input.ktermios) :=
  if negb out then ret (-1, None) else let* t := view (fun s => Input.g_termios (y_term s)) in ret (0, Some t).
Definition sys_tcsetattr (t : option Input.ktermios) : MS Z :=
  match t with
  | None => ret (-1)
  | Some t => do* modify (fun s => let x := y_term s in with_term (Input.mkTerm (Input.t_kbd x) (Input.t_keymap x) t (Input.t_vga x)) s) in ret 0
  end.

(** ** Names and directories *)

Definition cwd : MS Z := let* p := on_kern current in ret (cwd_ino p).

(** [path] is [None] for NULL. *)
Definition named (path : option (list Z)) : bool := match path with Some (_ :: _) => true | _ => false end.

Definition sys_chdir (path : option (list Z)) : MS Z :=
  if negb (named path) then ret (-1)
  else
    let path := default [] path in
    let* cur := on_kern scheduler_current in
    let* p := on_kern (pget cur) in
    let* new_ino := resolve (cwd_ino p) path in
    if new_ino =? U32_NEG1 then ret (-1)
    else
      let* d := is_dir new_ino in
      if negb d then ret (-1)
      else
        match Path.path_resolve_str 128 (cstr (cwd_path p)) path with
        | None => fun _ => None
        | Some dst => do* on_kern (pset cur (set_cwd new_ino (splice 0 (dst ++ [0]) (cwd_path p)))) in ret 0
        end.

Definition sys_getcwd (buf size : Z) : MS (Z * option (list Z)) :=
  let* p := on_kern current in ret (Path.getcwd (cstr (cwd_path p)) buf size).

Definition sys_mkdir (path : option (list Z)) : MS Z :=
  if negb (named path) then ret (-1)
  else
    let '(par, name) := Path.path_split (default [] path) in
    let* c := cwd in
    let* par_ino := resolve c par in
    if par_ino =? U32_NEG1 then ret (-1)
    else
      let* d := is_dir par_ino in
      if negb d then ret (-1)
      else let* r := on_nox (noxfs_mkdir pick ata_read par_ino name) in ret (if r =? U32_NEG1 then -1 else 0).

Definition sys_unlink (path : option (list Z)) : MS Z :=
  if negb (named path) then ret (-1)
  else
    let '(par, name) := Path.path_split (default [] path) in
    let* c := cwd in
    let* par_ino := resolve c par in
    if par_ino =? U32_NEG1 then ret (-1)
    else
      let* r := on_nox (noxfs_unlink pick ata_read par_ino name) in
      if is_ok r then ret 0
      else let* r := on_nox (noxfs_rmdir pick ata_read par_ino name) in ret (if is_ok r then 0 else -1).

(** [buf] says whether the buffer pointer is not NULL. *)
Definition sys_stat (path : option (list Z)) (buf : bool) : MS (Z * option (list Z)) :=
  match path with
  | None => ret (-1, None)
  | Some path =>
      if negb buf then ret (-1, None)
      else
        let* c := cwd in
        let* ino := resolve c path in
        if ino =? U32_NEG1 then ret (-1, None)
        else
          let* '(r, st) := on_nox (noxfs_stat ata_read ino blank_file) in
          if negb (is_ok r) then ret (-1, None) else ret (0, Some (stat_bytes ino (u16 (vf_capacity st)) (vf_size st)))
  end.

Definition sys_rename (old new : option (list Z)) : MS Z :=
  match old, new with
  | Some old, Some new =>
      let '(opar, oname) := Path.path_split old in
      let '(npar, nname) := Path.path_split new in
      let* c := cwd in
      let* oino := resolve c opar in
      let* nino := resolve c npar in
      if (oino =? U32_NEG1) || (nino =? U32_NEG1) then ret (-1)
      else let* r := on_nox (noxfs_rename pick ata_read oino oname nino nname) in ret (if is_ok r then 0 else -1)
  | _, _ => ret (-1)
  end.

(** [buf] is [None] for NULL, else the contents of the caller's buffer. *)
Definition sys_getdents (path : option (list Z)) (buf : option (list Z)) (len : Z) : MS (Z * option (list Z)) :=
  match buf with
  | None => ret (-1, None)
  | Some buf =>
      if len =? 0 then ret (-1, Some buf)
      else
        let* c := cwd in
        let* dir_ino := resolve c (if named path then default [] path else [46]) in
        if dir_ino =? U32_NEG1 then ret (-1, Some buf)
        else
          let* d := is_dir dir_ino in
          if negb d then ret (-1, Some buf)
          else let* '(r, buf, _) := vfs_getdents pick ata_read dir_ino buf (u32 len) 0 in ret (r, Some buf)
  end.

(** What is stored at the start of the caller's buffer. *)
Definition sys_procinfo (idx : Z) : MS (Z * list Z) :=
  let* p := on_kern (scheduler_at (u32 idx)) in
  if negb (ctrue p) then ret (0, [])
  else
    let* d := on_kern (pget p) in
    ret (1, le_bytes 8 (pid d) ++ le_bytes 8 (state_code (p_state d)) ++ take 31 (cstr (p_name d)) ++ [0]).

Definition sys_readdir (idx : Z) : MS (Z * list Z) :=
  let* n := vfs_count in
  if n <=? idx then ret (0, [])
  else
    let* v := vfs_entry (u32 idx) in
    match v with
    | None => ret (0, [])
    | Some v => let* f := vfile v in ret (1, take 31 (cstr (vf_name f)) ++ [0])
    end.

(** ** The dispatcher (syscall.c)

    [str], [bytes] and [strs] read the caller's memory at an address: a C string, a
    number of bytes, an array of strings; address 0 is NULL.  [Result] is a return with
    the value for [rax] and the stores into user memory, [Replaced] the frame of a new
    program, [Gone] an exit. *)
Inductive outcome := Result (rax : Z) (stores : list (Z * list Z)) | Replaced (f : syscall_frame) | Gone.

Context (str : Z -> list Z) (bytes : Z -> Z -> list Z) (strs : Z -> list (list Z)).
Context (kernel_pml4 : Z).

(** What happens elsewhere while a call waits. *)
Record waits := mkWaits { w_keys : list (list Z); w_pipe : list (Pipe.pipe -> Pipe.pipe); w_sys : list (sys B -> sys B) }.

Definition opt_str (a : Z) : option (list Z) := if a =? 0 then None else Some (str a).
Definition value (r : Z) : outcome := Result (u64 r) [].
Definition store_at (a : Z) (l : option (list Z)) : list (Z * list Z) := match l with Some l => [(a, l)] | None => [] end.
(** The characters and the terminator of an environment string. *)
Definition store_env (a : Z) (l : option (list Z * Z)) : list (Z * list Z) := match l with Some (l, cp) => [(a, l); (a + cp, [0])] | None => [] end.
Definition dump (buf : mem) (n : Z) : list Z := (fun i => rd buf i) <$> seqZ 0 n.
Definition termios_of (l : list Z) : Input.ktermios := Input.mkTermios (get32 l 0) (slice 4 8 l).
Definition termios_bytes (t : Input.ktermios) : list Z := le_bytes 4 (Input.c_lflag t) ++ Input.c_cc t.

Definition do_syscall (w : waits) (f : syscall_frame) : MS outcome :=
  let a := f_rdi f in let b := f_rsi f in let c := f_rdx f in
  match sysno_of (f_rax f) with
  | Some SYS_EXIT => do* on_kern (sys_exit kernel_pml4 (s32 a)) in ret Gone
  | Some SYS_WRITE => let* r := sys_write pick ata_read (w_pipe w) (s32 a) (b =? 0) (bytes b c) in ret (value r)
  | Some SYS_READ =>
      let* '(r, buf) := sys_read (w_keys w) (w_pipe w) (s32 a) c (wr_list ∅ 0 (bytes b (c + 3))) in
      ret (Result (u64 r) [(b, dump buf (c + 3))])
  | Some SYS_FORK => let* r := sys_fork f in ret (value r)
  | Some SYS_EXEC =>
      let* '(r, f') := sys_exec f (str a) (if b =? 0 then None else Some (strs b)) in
      ret (if r =? 0 then Replaced f' else value r)
  | Some SYS_GETPID => let* r := sys_getpid in ret (value r)
  | Some SYS_WAITPID =>
      let* '(r, code) := sys_waitpid (w_sys w) (s64 a) in ret (Result (u64 r) (if b =? 0 then [] else [(b, le_bytes 4 (u32 code))]))
  | Some SYS_OPEN => let* r := sys_open pick ata_read proc_data dev_data (str a) (s32 b) in ret (value r)
  | Some SYS_CLOSE => let* r := on_kern (sys_close (s32 a)) in ret (value r)
  | Some SYS_LSEEK => let* r := sys_lseek (s32 a) (s64 b) (s32 c) in ret (value r)
  | Some SYS_READDIR => let* '(r, l) := sys_readdir a in ret (Result (u64 r) [(b, l)])
  | Some SYS_DUP => let* r := on_kern (sys_dup (s32 a)) in ret (value r)
  | Some SYS_DUP2 => let* r := on_kern (sys_dup2 (s32 a) (s32 b)) in ret (value r)
  | Some SYS_PIPE =>
      let* '(r, fds) := on_kern sys_pipe in
      ret (Result (u64 r) (match fds with Some (x, y) => [(a, le_bytes 4 x ++ le_bytes 4 y)] | None => [] end))
  | Some SYS_KILL => let* r := on_kern (Signal.sys_kill (s64 a) (s32 b)) in ret (value r)
  | Some SYS_SIGNAL => let* r := on_kern (Signal.sys_signal (s32 a) b) in ret (value r)
  | Some SYS_PROCINFO => let* '(r, l) := sys_procinfo a in ret (Result (u64 r) [(b, l)])
  | Some SYS_SETFG => do* sys_setfg a in ret (value 0)
  | Some SYS_CHDIR => let* r := sys_chdir (opt_str a) in ret (value r)
  | Some SYS_GETCWD =>
      let* '(r, l) := sys_getcwd a b in ret (Result (u64 r) (store_at a ((fun l => l ++ [0]) <$> l)))
  | Some SYS_GETDENTS =>
      let* '(r, l) := sys_getdents (opt_str a) (if b =? 0 then None else Some (bytes b c)) c in ret (Result (u64 r) (store_at b l))
  | Some SYS_BRK => let* r := sys_brk a in ret (value r)
  | Some SYS_MKDIR => let* r := sys_mkdir (opt_str a) in ret (value r)
  | Some SYS_UNLINK => let* r := sys_unlink (opt_str a) in ret (value r)
  | Some SYS_STAT => let* '(r, l) := sys_stat (opt_str a) (ctrue b) in ret (Result (u64 r) (store_at b l))
  | Some SYS_RENAME => let* r := sys_rename (opt_str a) (opt_str b) in ret (value r)
  | Some SYS_TCGETATTR => let* '(r, t) := sys_tcgetattr (ctrue b) in ret (Result (u64 r) (store_at b (termios_bytes <$> t)))
  | Some SYS_TCSETATTR => let* r := sys_tcsetattr (if b =? 0 then None else Some (termios_of (bytes b 12))) in ret (value r)
  | Some SYS_SLEEP => do* sys_sleep (w_sys w) (u32 a) in ret (value 0)
  | Some SYS_UPTIME => let* r := sys_uptime in ret (value r)
  | Some SYS_GETENV =>
      let* '(r, l) := on_kern (Env.sys_getenv (str a) b c) in ret (Result (u64 r) (store_env b l))
  | Some SYS_SETENV => let* r := on_kern (Env.sys_setenv (str a) (str b)) in ret (value r)
  | Some SYS_UNSETENV => let* r := on_kern (Env.sys_unsetenv (str a)) in ret (value r)
  | Some SYS_GETENV_AT =>
      let* '(r, l) := on_kern (Env.sys_getenv_at a b c) in ret (Result (u64 r) (store_env b l))
  | None => ret (value (-1))
  end.

(** The frame after the call, and what its end does: signals pending for the caller are
    delivered on the way back. *)
Definition syscall_dispatch (w : waits) (f : syscall_frame) : MS (list (Z * list Z) * Signal.delivery syscall_frame) :=
  let* r := do_syscall w f in
  match r with
  | Result rax stores => let* d := on_kern (Signal.deliver_signals kernel_pml4 (set_rax rax f)) in ret (stores, d)
  | Replaced f' => let* d := on_kern (Signal.deliver_signals kernel_pml4 f') in ret ([], d)
  | Gone => ret ([], Signal.Exited)
  end.
End Calls.
End Syscalls.
