(* ===== verification/Usys.v ===== *)
(** * System calls seen from user programs (src/lib/noxlib/noxlib.h)

    The wrappers of the C runtime put a number and up to three arguments into
    registers; the dispatcher of the kernel takes them apart again.  The
    theorem relates the two: each wrapper reaches its handler with its own arguments. *)
From S2P Require Import Prelude Bytes Heap Pmm Vmm Pipe Proc Fd Signal Env Path Vga Input Console Buffer NoxFS NoxDemo Vfs Files VfsDemo Syscalls.

Module Usys.
Import Fd NoxFS Vfs Files Syscalls.

(** ** The wrappers *)

(** A call of a program, with the C values it passes; pointers are addresses. *)
Inductive ucall : Set :=
| write (fd buf len : Z) | read (fd buf len : Z) | exit (code : Z)
| fork | execv (p argv : Z) | getpid | waitpid (pid st : Z)
| open (path flags : Z) | close (fd : Z) | lseek (fd off whence : Z)
| dup (fd : Z) | dup2 (o n : Z) | pipe (fds : Z) | readdir (idx buf : Z)
| kill (pid sig : Z) | signal (sig h : Z) | setfg (pid : Z) | procinfo (idx pi : Z)
| chdir (path : Z) | getcwd (buf size : Z) | getdents (path buf len : Z)
| mkdir (path : Z) | unlink (path : Z) | stat (path buf : Z) | rename (old newp : Z)
| sleep_ms (ms : Z) | sleep (sec : Z) | uptime_ms
| sys_getenv (key buf size : Z) | sys_setenv (key val : Z) | unsetenv (key : Z) | getenv_at (idx buf bufsz : Z)
| tcgetattr (fd t : Z) | tcsetattr (fd wh t : Z) | brk (addr : Z).

(** [_syscall3]: the registers at the instruction; the others are the program's. *)
Definition syscall3 (n a1 a2 a3 : Z) (f : syscall_frame) : syscall_frame :=
  let '(mkFrame _ _ _ _ e g h i j k l m n' o p q) := f in mkFrame (u64 n) (u64 a1) (u64 a2) (u64 a3) e g h i j k l m n' o p q.

Definition enter (c : ucall) : syscall_frame -> syscall_frame :=
  match c with
  | write fd buf len => syscall3 1 fd buf len
  | read fd buf len => syscall3 2 fd buf len
  | exit code => syscall3 0 code 0 0
  | fork => syscall3 3 0 0 0
  | execv p argv => syscall3 4 p argv 0
  | getpid => syscall3 5 0 0 0
  | waitpid pid st => syscall3 6 pid st 0
  | open path flags => syscall3 7 path flags 0
  | close fd => syscall3 8 fd 0 0
  | lseek fd off whence => syscall3 9 fd off whence
  | dup fd => syscall3 11 fd 0 0
  | dup2 o n => syscall3 12 o n 0
  | pipe fds => syscall3 13 fds 0 0
  | readdir idx buf => syscall3 10 idx buf 0
  | kill pid sig => syscall3 14 pid sig 0
  | signal sig h => syscall3 15 sig h 0
  | setfg pid => syscall3 17 pid 0 0
  | procinfo idx pi => syscall3 16 idx pi 0
  | chdir path => syscall3 18 path 0 0
  | getcwd buf size => syscall3 19 buf size 0
  | getdents path buf len => syscall3 20 path buf len
  | mkdir path => syscall3 22 path 0 0
  | unlink path => syscall3 23 path 0 0
  | stat path buf => syscall3 24 path buf 0
  | rename old newp => syscall3 25 old newp 0
  | sleep_ms ms => syscall3 28 ms 0 0
  | sleep sec => syscall3 28 (u64 (sec * 1000)) 0 0
  | uptime_ms => syscall3 29 0 0 0
  | sys_getenv key buf size => syscall3 30 key buf size
  | sys_setenv key val => syscall3 31 key val 0
  | unsetenv key => syscall3 32 key 0 0
  | getenv_at idx buf bufsz => syscall3 33 idx buf bufsz
  | tcgetattr fd t => syscall3 26 fd t 0
  | tcsetattr fd wh t => syscall3 27 fd t wh
  | brk addr => syscall3 21 addr 0 0
  end.

(** The values of the C types: [int], [long], [unsigned], and addresses and [size_t]. *)
Definition int (x : Z) : Prop := - 2 ^ 31 <= x < 2 ^ 31.
Definition long (x : Z) : Prop := - 2 ^ 63 <= x < 2 ^ 63.
Definition word (x : Z) : Prop := 0 <= x < 2 ^ 64.

Definition typed (c : ucall) : Prop :=
  match c with
  | write fd buf len | read fd buf len => int fd /\ word buf /\ word len
  | exit x | close x | dup x => int x
  | fork | getpid | uptime_ms => True
  | execv x y | rename x y | sys_setenv x y | stat x y => word x /\ word y
  | waitpid pid st => long pid /\ word st
  | open path flags => word path /\ int flags
  | lseek fd off whence => int fd /\ long off /\ int whence
  | dup2 o n => int o /\ int n
  | pipe x | chdir x | mkdir x | unlink x | sleep_ms x | unsetenv x => word x
  | readdir x y | procinfo x y => long x /\ word y
  | kill pid sig => long pid /\ int sig
  | signal sig h => int sig /\ word h
  | setfg x | brk x => long x
  | getcwd buf size => word buf /\ long size
  | getdents path buf len => word path /\ word buf /\ long len
  | sleep sec => 0 <= sec < 2 ^ 32
  | sys_getenv key buf size => word key /\ word buf /\ word size
  | getenv_at idx buf bufsz => long idx /\ word buf /\ long bufsz
  | tcgetattr fd t => int fd /\ word t
  | tcsetattr fd wh t => int fd /\ int wh /\ word t
  end.

(** The result a wrapper returns: [rax] as a [long]. *)
Definition returned (f : syscall_frame) : Z := s64 (f_rax f).

(** ** What each call means

    The kernel's function for it, applied to the values of the program. *)
Section Calls.
Context {B : Type} {limit : Z} `{BC : BufferCache B limit}.
Context (pick : gmap Z (list Z) -> Z -> option (Z * list Z)) (ata_read : Z -> B -> os_status * list Z * B).
Context (proc_data dev_data : Z -> Z).
Context (new_proc : gmap Z process -> option (Z * process)) (new_stack : gmap Z process -> option Z).
Context (fork_ret_trampoline : Z).
Context (str : Z -> list Z) (bytes : Z -> Z -> list Z) (strs : Z -> list (list Z)).
Context (kernel_pml4 : Z).
Abbreviation MS := (M (sys B)).

Definition meaning (w : waits) (c : ucall) (f : syscall_frame) : MS outcome :=
  match c with
  | write fd buf len => let* r := sys_write pick ata_read (w_pipe w) fd (buf =? 0) (bytes buf len) in ret (value r)
  | read fd buf len =>
      let* '(r, b) := sys_read (w_keys w) (w_pipe w) fd len (wr_list ∅ 0 (bytes buf (len + 3))) in
      ret (Result (u64 r) [(buf, dump b (len + 3))])
  | exit code => do* on_kern (sys_exit kernel_pml4 code) in ret Gone
  | fork => let* r := sys_fork new_proc new_stack fork_ret_trampoline (enter fork f) in ret (value r)
  | execv p argv =>
      let* '(r, f') := sys_exec pick ata_read (enter (execv p argv) f) (str p) (if argv =? 0 then None else Some (strs argv)) in
      ret (if r =? 0 then Replaced f' else value r)
  | getpid => let* r := sys_getpid in ret (value r)
  | waitpid pid st =>
      let* '(r, code) := sys_waitpid (w_sys w) pid in ret (Result (u64 r) (if st =? 0 then [] else [(st, le_bytes 4 (u32 code))]))
  | open path flags => let* r := sys_open pick ata_read proc_data dev_data (str path) flags in ret (value r)
  | close fd => let* r := on_kern (sys_close fd) in ret (value r)
  | lseek fd off whence => let* r := sys_lseek fd off whence in ret (value r)
  | dup fd => let* r := on_kern (sys_dup fd) in ret (value r)
  | dup2 o n => let* r := on_kern (sys_dup2 o n) in ret (value r)
  | pipe fds =>
      let* '(r, ends) := on_kern sys_pipe in
      ret (Result (u64 r) (match ends with Some (x, y) => [(fds, le_bytes 4 x ++ le_bytes 4 y)] | None => [] end))
  | readdir idx buf => let* '(r, l) := sys_readdir (u64 idx) in ret (Result (u64 r) [(buf, l)])
  | kill pid sig => let* r := on_kern (Signal.sys_kill pid sig) in ret (value r)
  | signal sig h => let* r := on_kern (Signal.sys_signal sig h) in ret (value r)
  | setfg pid => do* sys_setfg (u64 pid) in ret (value 0)
  | procinfo idx pi => let* '(r, l) := sys_procinfo (u64 idx) in ret (Result (u64 r) [(pi, l)])
  | chdir path => let* r := sys_chdir pick ata_read dev_data (opt_str str path) in ret (value r)
  | getcwd buf size => let* '(r, l) := sys_getcwd buf (u64 size) in ret (Result (u64 r) (store_at buf ((fun l => l ++ [0]) <$> l)))
  | getdents path buf len =>
      let* '(r, l) := sys_getdents pick ata_read dev_data (opt_str str path) (if buf =? 0 then None else Some (bytes buf (u64 len))) (u64 len) in
      ret (Result (u64 r) (store_at buf l))
  | mkdir path => let* r := sys_mkdir pick ata_read dev_data (opt_str str path) in ret (value r)
  | unlink path => let* r := sys_unlink pick ata_read dev_data (opt_str str path) in ret (value r)
  | stat path buf => let* '(r, l) := sys_stat pick ata_read dev_data (opt_str str path) (ctrue buf) in ret (Result (u64 r) (store_at buf l))
  | rename old newp => let* r := sys_rename pick ata_read dev_data (opt_str str old) (opt_str str newp) in ret (value r)
  | sleep_ms ms => do* sys_sleep (w_sys w) (u32 ms) in ret (value 0)
  | sleep sec => do* sys_sleep (w_sys w) (u32 (sec * 1000)) in ret (value 0)
  | uptime_ms => let* r := sys_uptime in ret (value r)
  | sys_getenv key buf size => let* '(r, l) := on_kern (Env.sys_getenv (str key) buf size) in ret (Result (u64 r) (store_env buf l))
  | sys_setenv key val => let* r := on_kern (Env.sys_setenv (str key) (str val)) in ret (value r)
  | unsetenv key => let* r := on_kern (Env.sys_unsetenv (str key)) in ret (value r)
  | getenv_at idx buf bufsz => let* '(r, l) := on_kern (Env.sys_getenv_at (u64 idx) buf (u64 bufsz)) in ret (Result (u64 r) (store_env buf l))
  | tcgetattr fd t => let* '(r, x) := sys_tcgetattr (ctrue t) in ret (Result (u64 r) (store_at t (termios_bytes <$> x)))
  | tcsetattr fd wh t => let* r := sys_tcsetattr (if t =? 0 then None else Some (termios_of (bytes t 12))) in ret (value r)
  | brk addr => let* r := sys_brk (u64 addr) in ret (value r)
  end.

Lemma mod_negative k x : - 2 ^ k <= x < 0 -> x mod 2 ^ k = x + 2 ^ k.
Proof using. intros Hx. symmetry. apply (Z.mod_unique _ _ (-1)); [left; lia | lia]. Qed.

Lemma s64_of_reg x : long x -> s64 (u64 x) = x.
Proof using.
  unfold long, s64, u64. intros Hx. rewrite Z.mod_mod by lia. destruct (Z.lt_ge_cases x 0).
  - rewrite mod_negative by lia. destruct (Z.ltb_spec (x + 2 ^ 64) (2 ^ 63)); lia.
  - rewrite Z.mod_small by lia. destruct (Z.ltb_spec x (2 ^ 63)); lia.
Qed.

Lemma u32_of_reg x : u32 (u64 x) = u32 x.
Proof using. unfold u32, u64. apply Z.mod_mod_divide. by exists (2 ^ 32). Qed.

Lemma s32_of_reg x : int x -> s32 (u64 x) = x.
Proof using.
  unfold int, s32. intros Hx. rewrite u32_of_reg. unfold u32. destruct (Z.lt_ge_cases x 0).
  - rewrite mod_negative by lia. destruct (Z.ltb_spec (x + 2 ^ 32) (2 ^ 31)); lia.
  - rewrite Z.mod_small by lia. destruct (Z.ltb_spec x (2 ^ 31)); lia.
Qed.

Lemma word_reg x : word x -> u64 x = x.
Proof using. apply u64_id. Qed.

Lemma reg_idem x : u64 (u64 x) = u64 x.
Proof using. unfold u64. apply Z.mod_mod. lia. Qed.

(** The registers of a call read back by the dispatcher. *)
Ltac registers :=
  repeat match goal with
  | H : _ /\ _ |- _ => destruct H
  | H : int ?x |- _ => rewrite ?(s32_of_reg x H); clear H
  | H : long ?x |- _ => rewrite ?(s64_of_reg x H); clear H
  | H : word ?x |- _ => rewrite ?(word_reg x H); clear H
  end; rewrite ?u32_of_reg, ?reg_idem.

(** C22: the interface between programs and the kernel: for every call of the runtime whose
    arguments are values of their C types, the dispatcher run on the registers the wrapper
    sets up does exactly what the kernel function of that call does on the
    arguments of the program - the right number, each argument in its place and at its
    width, negative ones included - and a result in the range of [long] comes back unchanged. *)
Theorem wrappers_reach_handlers w c f s : typed c ->
  do_syscall pick ata_read proc_data dev_data new_proc new_stack fork_ret_trampoline str bytes strs kernel_pml4 w (enter c f) s = meaning w c f s /\
  forall r, long r -> returned (set_rax (u64 r) f) = r.
Proof using.
  intros Ht. split; [|intros r Hr; destruct f; by apply s64_of_reg]. destruct f.
  destruct c; cbn [typed] in Ht; unfold do_syscall; cbn [enter syscall3 f_rax f_rdi f_rsi f_rdx];
    match goal with |- context [sysno_of ?n] => let x := eval vm_compute in (sysno_of n) in change (sysno_of n) with x end;
    cbv iota; cbv beta zeta; unfold meaning; cbn [enter syscall3]; registers; reflexivity.
Qed.
End Calls.

#[local] Existing Instance NoxDemo.demo_cache.

(** [lseek(3, -4, SEEK_CUR)] on the machine of [VfsDemo]. *)
Lemma wrappers_reach_handlers_witness :
  do_syscall NoxDemo.pick NoxDemo.ata_read VfsDemo.proc_data VfsDemo.dev_data (fun _ => None) (fun _ => None) 0
    (fun _ => []) (fun _ _ => []) (fun _ => []) 0 (mkWaits [] [] []) (enter (lseek 3 (-4) 1) Signal.frame0) VfsDemo.sys2 =
  meaning NoxDemo.pick NoxDemo.ata_read VfsDemo.proc_data VfsDemo.dev_data (fun _ => None) (fun _ => None) 0
    (fun _ => []) (fun _ _ => []) (fun _ => []) 0 (mkWaits [] [] []) (lseek 3 (-4) 1) Signal.frame0 VfsDemo.sys2 /\
  returned (set_rax (u64 (-1)) Signal.frame0) = -1.
Proof.
  destruct (wrappers_reach_handlers NoxDemo.pick NoxDemo.ata_read VfsDemo.proc_data VfsDemo.dev_data (fun _ => None) (fun _ => None) 0
    (fun _ => []) (fun _ _ => []) (fun _ => []) 0 (mkWaits [] [] []) (lseek 3 (-4) 1) Signal.frame0 VfsDemo.sys2) as [H1 H2].
  - unfold typed, int, long. lia.
  - split; [exact H1 | apply H2; unfold long; lia].
Defined.
End Usys.
