(* ===== verification/Exec.v ===== *)
(** * Arguments of a new program

    The stack page [sys_exec] builds, read back the way the start-up code of a
    program reads it: [argc], the pointers, the strings. *)
From S2P Require Import Prelude Bytes Vmm Syscalls.

Module Exec.
Import Vmm Syscalls.

(** ** Strings *)

Lemma store_bytes_out l : forall m a w, w mod 8 <> 0 \/ a + Z.of_nat (length l) <= w \/ w + 8 <= a -> rd (store_bytes m a l) w = rd m w.
Proof. induction l as [|c l IH]; intros m a w Hw; cbn [store_bytes length] in *; [done|]. rewrite IH, rd_wr8 by lia. done. Qed.

Lemma store_bytes_rd8 l : bytes_ok l -> forall m a q,
  rd8 (store_bytes m a l) q = if (a <=? q) && (q <? a + Z.of_nat (length l)) then nth (Z.to_nat (q - a)) l 0 else rd8 m q.
Proof.
  induction 1 as [|c l Hc Hl IH]; intros m a q; cbn [store_bytes length].
  - destruct (Z.leb_spec a q), (Z.ltb_spec q (a + Z.of_nat 0)); cbn; lia || done.
  - rewrite IH, rd8_wr8 by done. destruct (Z.eqb_spec q a) as [->|Hne].
    + rewrite (proj2 (Z.leb_gt (a + 1) a)) by lia. cbn [andb]. by rewrite Z.leb_refl, (proj2 (Z.ltb_lt a _)), Z.sub_diag by lia.
    + destruct (Z.leb_spec (a + 1) q), (Z.leb_spec a q); try lia; cbn [andb]; [|done].
      replace (a + 1 + Z.of_nat (length l)) with (a + Z.of_nat (S (length l))) by lia. destruct (_ <? _); [|done].
      replace (Z.to_nat (q - a)) with (S (Z.to_nat (q - (a + 1)))) by lia. done.
Qed.

(** The C string [s] is at [p]. *)
Definition string_at (m : mem) (p : Z) (s : list Z) : Prop :=
  forall i, 0 <= i <= Z.of_nat (length s) -> rd8 m (p + i) = nth (Z.to_nat i) (s ++ [0]) 0.

Definition arg_ok (s : list Z) : Prop := Forall (fun c => 1 <= c < 256) s.

(** Bytes the strings take, with their terminators. *)
Fixpoint total (args : list (list Z)) : Z := match args with [] => 0 | s :: args => Z.of_nat (length s) + 1 + total args end.

Lemma total_nonneg args : 0 <= total args.
Proof. induction args; cbn [total]; lia. Qed.

Lemma total_app l1 l2 : total (l1 ++ l2) = total l1 + total l2.
Proof. induction l1 as [|s l1 IH]; cbn [total app]; [done | rewrite IH; lia]. Qed.

Lemma total_reverse args : total (reverse args) = total args.
Proof. induction args as [|s args IH]; [done|]. rewrite reverse_cons, total_app. cbn [total]. lia. Qed.

Lemma arg_bytes s : arg_ok s -> bytes_ok (s ++ [0]).
Proof. intros H. apply Forall_app. split; [eapply Forall_impl; [exact H | cbn; lia] | apply Forall_singleton; lia]. Qed.

Lemma push_strings_spec stk rargs : Forall arg_ok rargs -> forall off uva m, exists addrs m',
  push_strings stk rargs off uva m = (off - total rargs, ((fun a => u64 (USTACK_BASE + a)) <$> addrs) ++ uva, m') /\
  Forall2 (fun a s => string_at m' (stk + a) s /\ off - total rargs <= a < off) addrs (reverse rargs) /\
  (forall q, stk + off <= q -> rd8 m' q = rd8 m q) /\
  (forall w, w mod 8 <> 0 \/ stk + off <= w \/ w + 8 <= stk + (off - total rargs) -> rd m' w = rd m w).
Proof.
  induction 1 as [|s rargs Hs Hr IH]; intros off uva m; cbn [push_strings total].
  - exists [], m. split_and!; [f_equal; f_equal; lia | constructor | done | done].
  - set (o := off - (Z.of_nat (length s) + 1)). pose proof (total_nonneg rargs).
    destruct (IH o (u64 (USTACK_BASE + o) :: uva) (store_bytes m (stk + o) (s ++ [0]))) as (addrs & m' & -> & Ha & Hq & Hw).
    assert (Hl : Z.of_nat (length (s ++ [0])) = Z.of_nat (length s) + 1) by (rewrite length_app; cbn; lia).
    assert (Hst : string_at m' (stk + o) s).
    { intros i Hi. rewrite Hq by lia. rewrite store_bytes_rd8 by by apply arg_bytes. rewrite Hl, (proj2 (Z.leb_le _ _)), (proj2 (Z.ltb_lt _ _)) by lia. cbn [andb]. do 2 f_equal. lia. }
    exists (addrs ++ [o]), m'. split_and!.
    + rewrite fmap_app, <- app_assoc. f_equal. f_equal. lia.
    + rewrite reverse_cons. apply Forall2_app; [|constructor; [split; [done | lia] | constructor]].
      eapply Forall2_impl; [exact Ha|]. cbn. intros a s' [H1 H2]. split; [done | lia].
    + intros q Hq'. rewrite Hq by lia. rewrite store_bytes_rd8 by by apply arg_bytes. rewrite Hl, (proj2 (Z.ltb_ge _ _)), andb_false_r by lia. done.
    + intros w Hw'. rewrite Hw by lia. apply store_bytes_out. rewrite Hl. lia.
Qed.

Lemma push_vals_spec stk rvals : stk mod 8 = 0 -> forall off m, off mod 8 = 0 ->
  let '(off', m') := push_vals stk rvals off m in
  off' = off - 8 * Z.of_nat (length rvals) /\
  (forall i v, reverse rvals !! i = Some v -> rd m' (stk + off' + 8 * Z.of_nat i) = v) /\
  (forall q, stk + off <= q -> rd8 m' q = rd8 m q) /\
  (forall w, w < stk + off' \/ stk + off <= w -> rd m' w = rd m w).
Proof.
  intros Hk. induction rvals as [|v rvals IH]; intros off m Ho; cbn [push_vals length]; [split_and!; [lia | done | done | done]|].
  pose proof (IH (off - 8) (wr m (stk + (off - 8)) v)) as H. pose proof (Z.div_mod off 8) as D1. pose proof (Z.div_mod stk 8) as D2.
  destruct (push_vals stk rvals (off - 8) (wr m (stk + (off - 8)) v)) as [off' m']. destruct H as (H1 & H2 & H3 & H4).
  { replace (off - 8) with ((off / 8 - 1) * 8) by lia. apply Z.mod_mul. lia. }
  split_and!; [lia | | |].
  - intros i x Hx. rewrite reverse_cons in Hx. apply lookup_app_Some in Hx as [Hx|[Hi Hx]]; [by apply H2|].
    rewrite length_reverse in *. apply list_lookup_singleton_Some in Hx as [Hi' <-].
    replace (stk + off' + 8 * Z.of_nat i) with (stk + (off - 8)) by lia. rewrite H4 by lia. apply rd_wr_eq.
  - intros q Hq. rewrite H3 by lia. apply rd8_wr; [|lia]. replace (stk + (off - 8)) with ((stk / 8 + off / 8 - 1) * 8) by lia. apply Z.mod_mul. lia.
  - intros w Hw. rewrite H4 by lia. apply rd_wr_ne. lia.
Qed.

(** ** What the program sees *)

(** The C string at a user address of the stack page, as far as [fuel]. *)
Fixpoint user_str (fuel : nat) (m : mem) (stk p : Z) : list Z :=
  match fuel with
  | O => []
  | S fuel => let c := rd8 m (stk + (p - USTACK_BASE)) in if c =? 0 then [] else c :: user_str fuel m stk (p + 1)
  end.

(** [argc] at the stack pointer, then as many pointers to strings. *)
Definition start_args (m : mem) (stk sp : Z) : list (list Z) :=
  (fun i => user_str 4096 m stk (rd m (stk + sp + 8 * (i + 1)))) <$> seqZ 0 (rd m (stk + sp)).

Lemma user_str_at m stk a s fuel : arg_ok s -> string_at m (stk + a) s -> (length s < fuel)%nat -> user_str fuel m stk (USTACK_BASE + a) = s.
Proof.
  intros Hs. revert a fuel. induction Hs as [|c s Hc Hs IH]; intros a fuel Ha Hf; (destruct fuel as [|fuel]; [cbn in Hf; lia|]); cbn [user_str].
  - replace (stk + (USTACK_BASE + a - USTACK_BASE)) with (stk + a + 0) by lia. rewrite Ha by (cbn; lia). done.
  - assert (E : rd8 m (stk + (USTACK_BASE + a - USTACK_BASE)) = c).
    { replace (stk + (USTACK_BASE + a - USTACK_BASE)) with (stk + a + 0) by lia. by rewrite Ha by (cbn [length]; lia). }
    cbv zeta. rewrite !E.
    rewrite (proj2 (Z.eqb_neq c 0)) by lia. f_equal. rewrite <- Z.add_assoc. apply IH; [|cbn in Hf; lia].
    intros i Hi. replace (stk + (a + 1) + i) with (stk + a + (i + 1)) by lia. rewrite Ha by (cbn [length]; lia).
    replace (Z.to_nat (i + 1)) with (S (Z.to_nat i)) by lia. done.
Qed.

Lemma land_down8 x : Z.land x (Z.lnot 7) = x - x mod 8.
Proof.
  change 7 with (Z.ones 3). rewrite <- Z.ldiff_land, Z.ldiff_ones_r, Z.shiftl_mul_pow2, Z.shiftr_div_pow2 by lia.
  pose proof (Z.div_mod x 8). change (2 ^ 3) with 8. lia.
Qed.

(** The arguments fit in the page with the pointers, the terminating NULL, [argc] and
    the alignment. *)
Definition fits (argv : list (list Z)) : Prop :=
  (length argv <= 16)%nat /\ total argv + 7 + 8 * (Z.of_nat (length argv) + 2) <= 4096.


End Exec.
