(* ===== verification/Boot.v ===== *)
(** * Start of the first program (src/kernel/core/early.c, src/drivers/serial.c)

    The last phase of [kernel_main]: the address space of the shell, its
    program and stack, the two first processes and the switch to the shell.
    The theorem shows that it establishes the invariants the scheduler and the
    pipe theorems start from. *)
From S2P Require Import Prelude Bytes Heap Pmm Vmm Pipe Proc Fd Signal Sched PipeEnds Vga Input Console Buffer NoxFS Vfs Files.
From Stdlib Require String.
Import String.StringSyntax.

Module Boot.
Import NoxFS Vfs Files Proc Fd Sched PipeEnds.

(** ** The serial line (serial.c) *)

(** [serial_init]: the port writes. *)
Definition COM1 : Z := 0x3F8.
Definition serial_init : list (Z * Z) :=
  [(COM1 + 1, 0x00); (COM1 + 3, 0x80); (COM1 + 0, 0x03); (COM1 + 1, 0x00); (COM1 + 3, 0x03); (COM1 + 2, 0xC7); (COM1 + 4, 0x0B)].

(** The bytes [serial_putc] sends, and the string functions, as the bytes
    they pass to it. *)
Definition serial_putc (c : Z) : list Z := if c =? 10 then [13; 10] else [c].
Definition hex_digit (n : Z) : Z := nth (Z.to_nat n) (cs "0123456789ABCDEF") 0.
Definition serial_hex (bits : Z) (v : Z) : list Z :=
  cs "0x" ++ ((fun i => hex_digit (Z.land (Z.shiftr v (4 * i)) 0xF)) <$> reverse (seqZ 0 (bits / 4))).
Definition serial_write_hex (v : Z) : list Z := serial_hex 32 v.
Definition serial_write_hex64 (v : Z) : list Z := serial_hex 64 v.

(** ** The first processes *)

Section Boot.
Context {B : Type} {limit : Z} `{BC : BufferCache B limit}.
Context (pick : gmap Z (list Z) -> Z -> option (Z * list Z)) (ata_read : Z -> B -> os_status * list Z * B).
Context (new_proc : gmap Z process -> option (Z * process)) (new_stack : gmap Z process -> option Z).
Context (g_idle thread_trampoline user_thread_main heartbeat : Z).
Abbreviation MS := (M (sys B)).

Definition say (s : list Z) : MS unit := modify (fun y => with_serial (y_serial y ++ s) y).
Definition on_vga (m : M Vga.vga unit) : MS unit :=
  zoom (fun s => Input.t_vga (y_term s)) (fun v s => with_term (Input.set_vga v (y_term s)) s) m.

Abbreviation USTACK_TOP := (Vmm.USTACK_BASE + 0x1000).

(** The scheduler and the processes: the shell and the heartbeat thread.  The
    results of the allocations are used unchecked. *)
Definition spawn_first (uas entry brk root : Z) : MK Z :=
  do* scheduler_init g_idle in
  let* up := proc_spawn_user new_proc new_stack thread_trampoline user_thread_main (cs "nsh") uas entry (USTACK_TOP - 16) 1 in
  do* pset up (set_layout Vmm.USTACK_BASE brk) in
  do* pset up (fun p => set_cwd root (cwd_path p) p) in
  do* scheduler_register up in
  let* hb := proc_spawn new_proc new_stack thread_trampoline (cs "heartbeat") heartbeat 1 in
  do* scheduler_register hb in
  ret up.

(** The two words of the start-up stack. *)
Definition seed_stack (ustk : Z) (v : Vmm.vmm) : Vmm.vmm :=
  let m := wr (Vmm.v_mem v) (ustk + 0x1000 - 8) 0 in
  Vmm.set_mem (wr m (ustk + 0x1000 - 16) 0) v.

(** From the new address space to the two processes; [false] when the machine
    halts because there is no shell. *)
Definition prepare_shell : MS bool :=
  do* say (cs "[noxis64] new address space ... ") in
  let* uas := on_vm Vmm.vmm_create_address_space in
  do* say (serial_write_hex64 uas ++ [10]) in
  do* say (cs "[noxis64] exec /nsh.elf from disk ... ") in
  let* v := vfs_lookup pick ata_read (cs "nsh.elf") in
  match v with
  | None => do* say (cs "FAIL (nsh.elf not found)" ++ [10]) in ret false
  | Some v =>
      let* prog := vfile v in
      if vf_data prog =? 0 then do* say (cs "FAIL (nsh.elf not found)" ++ [10]) in ret false
      else
        let* img := view (fun s => n_heap (y_nox s) !! vf_data prog) in
        match img with
        | None => fun _ => None
        | Some img =>
            let* '(entry, brk) := on_vm (Vmm.elf64_load_into uas img) in
            do* say (cs "entry=" ++ serial_write_hex64 entry ++ [10]) in
            let* ustk := on_vm Vmm.pmm_alloc in
            let* _ := on_vm (Vmm.vmm_map_page_into uas Vmm.USTACK_BASE ustk (Z.lor Vmm.PAGE_RW Vmm.PAGE_USER)) in
            do* on_vm (modify (seed_stack ustk)) in
            do* say (cs "[noxis64] spawning user process + yielding" ++ [10]) in
            let* root := vfs_root_ino in
            let* _ := on_kern (spawn_first uas entry (default 0 brk) root) in
            ret true
        end
  end.

(** The message on the screen and the switch to the shell. *)
Definition announce_shell : MS unit :=
  do* on_vga (Vga.vga_set_color 10 0) in
  do* on_vga (Vga.vga_write_buf (cs "exec ELF64 ring-3 program (scheduled, private AS)..." ++ [10])) in
  on_vga (Vga.vga_set_color 7 0).
Definition enter_shell : MS unit :=
  let* kp := view (fun s => Vmm.g_kernel_pml4 (y_vm s)) in
  on_kern (scheduler_yield kp).

(** ** The booted kernel *)

(** Steps of a symbolic run: an update of the process inserted last, and a
    read or write of the kernel's globals. *)
Ltac kset := apply runs_bind; eapply pset_runs; [apply lookup_insert_eq|]; cbn [set_procs k_procs]; rewrite insert_insert_eq.
Ltac kglobal := apply runs_bind;
  match goal with |- runs (gets _) _ _ => unfold gets at 1 | |- runs (modify _) _ _ => unfold modify at 1 end; unfold runs at 1;
  cbn [k_procs g_current g_all_head g_ready_tail g_ready_head k_rsp k_cr3 g_cur_kstack set_cpu set_all set_ready set_current set_stack push_words k_stack].

(** What [kmalloc] promises for kernel stacks: not NULL, and apart from those of
    the processes there are. *)
Class StackHeap := new_stack_fresh m b : new_stack m = Some b -> 0 < b /\
  forall a p, m !! a = Some p -> b + PROC_KSTACK_SIZE <= kstack_base p \/ kstack_base p + PROC_KSTACK_SIZE <= b.

Context {HP : ProcHeap new_proc} {HS : StackHeap}.

(** Before [scheduler_init]: the static idle process, and no pipe in use. *)
Record early (s : kern) (p0 : process) : Prop := {
  ea_procs : k_procs s = {[ g_idle := p0 ]};
  ea_idle : g_idle <> 0 /\ fds p0 = replicate 16 closed_fd /\ pml4 p0 = 0;
  ea_all : g_all_head s = 0;
  ea_pipes : Forall (eq Pipe.pipe0) (g_pipes s)
}.

(** A process as [proc_spawn] leaves it, in the queue before [nxt] and in the
    list of all processes before [all]. *)
Definition spawned (n stack prio : Z) (name : list Z) (old : process) (nxt all : Z) : process :=
  set_all_next all (set_next nxt (set_kctx (stack + PROC_KSTACK_SIZE - 56) (set_priority prio (init_proc n stack name old)))).

Lemma proc_spawn_runs name entry prio s a old stack (Q : Z -> kern -> Prop) :
  new_proc (k_procs s) = Some (a, old) -> new_stack (k_procs s) = Some stack ->
  Q a (set_stack (push_words [thread_trampoline; entry; 0; 0; 0; 0; 0] (stack + PROC_KSTACK_SIZE) (k_stack s)).2
        (set_next_pid (u64 (g_next_pid s + 1)) (set_procs (<[a := spawned (g_next_pid s) stack prio name old 0 0]> (k_procs s)) s))) ->
  runs (proc_spawn new_proc new_stack thread_trampoline name entry prio) s Q.
Proof using HP.
  intros Hn Hs HQ. destruct (new_proc_fresh _ _ _ Hn) as [Ha _]. unfold proc_spawn. apply runs_bind. unfold runs at 1, proc_alloc. rewrite Hn, Hs.
  rewrite (proj2 (Z.eqb_neq a 0)) by done. destruct s as [m cur hd tl ah fg np cr kst rsp stk pipes]. cbn [k_procs set_procs set_next_pid g_next_pid k_stack set_stack] in *.
  kset. apply runs_bind. eapply pget_runs; [apply lookup_insert_eq|]. kglobal. kglobal. kset. apply runs_ret.
  replace (set_kctx _ _) with (spawned np stack prio name old 0 0); [exact HQ|].
  unfold spawned, init_proc. cbn. f_equal. lia.
Qed.

Definition idle_proc (p0 : process) : process :=
  let '(mkProc _ _ _ d e f g h i j k l m n o _ r _ t u w x y z) := p0 in
  mkProc 0 (replicate 32 0) PROC_RUNNING d e f g h i j k l m n o PROC_QUANTUM r 0 t u w x y z.

(** The shell's descriptor. *)
Definition shell_proc (n stack uas entry brk root : Z) (old : process) (nxt : Z) : process :=
  set_next nxt (set_cwd root (47 :: replicate 127 0) (set_layout Vmm.USTACK_BASE brk (set_user uas entry (USTACK_TOP - 16)
    (spawned n stack 1 (cs "nsh") old 0 0)))).

(** The kernel before the switch, as a term. *)
Lemma spawn_first_runs s p0 uas entry brk root (Q : Z -> kern -> Prop) : early s p0 ->
  (forall m, (size m <= 2)%nat -> is_Some (new_proc m) /\ is_Some (new_stack m)) ->
  (forall up hb o1 o2 k1 k2, NoDup [0; g_idle; up; hb] ->
     k1 + PROC_KSTACK_SIZE <= k2 \/ k2 + PROC_KSTACK_SIZE <= k1 ->
     0 < k1 -> let n := g_next_pid s in
     Q up (mkKern (<[hb := spawned (u64 (n + 1)) k2 1 (cs "heartbeat") o2 0 up]> (<[up := shell_proc n k1 uas entry brk root o1 hb]> {[ g_idle := idle_proc p0 ]}))
       g_idle up hb hb (g_fg_pid s) (u64 (u64 (n + 1) + 1)) (k_cr3 s) (g_cur_kstack s) (k_rsp s)
       (push_words [thread_trampoline; heartbeat; 0; 0; 0; 0; 0] (k2 + PROC_KSTACK_SIZE)
          (push_words [thread_trampoline; user_thread_main; 0; 0; 0; 0; 0] (k1 + PROC_KSTACK_SIZE) (k_stack s)).2).2
       (g_pipes s))) ->
  runs (spawn_first uas entry brk root) s Q.
Proof using HP HS.
  intros [Hp (Hi0 & Hfd & _) Ha _] Hroom HQ. destruct s as [m cur hd tl ah fg np cr kst rsp stk pipes].
  cbn [k_procs g_all_head g_next_pid g_fg_pid k_cr3 g_cur_kstack k_rsp k_stack g_pipes] in *. subst m ah.
  unfold spawn_first. apply runs_bind. unfold scheduler_init. kglobal.
  apply runs_bind. eapply pset_runs; [apply lookup_singleton_eq|]. cbn [set_procs k_procs]. rewrite insert_singleton_eq. fold (idle_proc p0).
  kglobal. apply runs_ret.
  destruct (Hroom {[ g_idle := idle_proc p0 ]}) as [[[up o1] Hn1] [k1 Hk1]]; [rewrite map_size_singleton; lia|].
  destruct (new_proc_fresh _ _ _ Hn1) as [Hu0 Hui%lookup_singleton_None].
  apply runs_bind. unfold proc_spawn_user. apply runs_bind. eapply proc_spawn_runs; [exact Hn1 | exact Hk1 |].
  rewrite (proj2 (Z.eqb_neq up 0)) by done. cbn [set_stack set_next_pid set_procs k_procs k_stack g_next_pid].
  kset. apply runs_ret. kset. kset.
  apply runs_bind. unfold scheduler_register at 1. kglobal. kset. kglobal.
  unfold scheduler_add at 1. kset. kglobal. change (ctrue 0) with false. cbv iota. kglobal. unfold modify at 1, runs at 1. cbn [set_ready g_ready_head].
  change (set_next 0 _) with (shell_proc np k1 uas entry brk root o1 0). set (sh := shell_proc np k1 uas entry brk root o1) in *.
  set (m1 := <[up := sh 0]> _).
  destruct (Hroom m1) as [[[hb o2] Hn2] [k2 Hk2]].
  { unfold m1. rewrite map_size_insert_None, map_size_singleton by (by apply lookup_singleton_None). lia. }
  destruct (new_proc_fresh _ _ _ Hn2) as [Hh0 Hh]. unfold m1 in Hh. apply lookup_insert_None in Hh as [Hhi%lookup_singleton_None Hhu].
  destruct (new_stack_fresh _ _ Hk1) as [Hpos _]. destruct (new_stack_fresh _ _ Hk2) as [_ Hap]. specialize (Hap up (sh 0) (lookup_insert_eq _ _ _)).
  apply runs_bind. eapply proc_spawn_runs; [exact Hn2 | exact Hk2 |]. cbn [set_stack set_next_pid set_procs k_procs k_stack g_next_pid].
  apply runs_bind. unfold scheduler_register at 1. kglobal. kset. kglobal.
  unfold scheduler_add at 1. kset. kglobal. rewrite (proj2 (ctrue_spec up)) by done. cbv iota.
  apply runs_bind. eapply (pset_runs up _ (sh 0)); [cbn [k_procs]; rewrite lookup_insert_ne by done; apply lookup_insert_eq|].
  cbn [set_procs k_procs]. unfold modify at 1, runs at 1. cbn [set_ready g_ready_head]. apply runs_ret.
  unfold m1. rewrite (insert_insert_ne _ up hb), insert_insert_eq by done.
  apply (HQ up hb o1 o2 k1 k2); [|destruct Hap; [by right | by left] | done].
  rewrite !NoDup_cons, !not_elem_of_cons. split_and!; try done; try apply not_elem_of_nil. apply NoDup_nil_2.
Qed.

Lemma std_ends x i : ends x i std_fds = 0.
Proof using. by destruct x. Qed.

Lemma spawned_sys_ok s up hb p0 sh h : NoDup [0; g_idle; up; hb] -> fds p0 = replicate 16 closed_fd -> Forall (eq Pipe.pipe0) (g_pipes s) ->
  k_procs s = <[hb := h]> (<[up := sh]> {[ g_idle := idle_proc p0 ]}) ->
  g_current s = g_idle -> g_ready_head s = up -> g_ready_tail s = hb -> g_all_head s = hb ->
  p_next sh = hb -> all_next sh = 0 -> p_next h = 0 -> all_next h = up -> p_state sh = PROC_READY -> p_state h = PROC_READY ->
  fds sh = std_fds -> fds h = std_fds -> sys_ok s [up; hb] [hb; up].
Proof using.
  rewrite !NoDup_cons, !not_elem_of_cons. intros ((Hi & Hu & Hh & _) & (Hiu & Hih & _) & (Huh & _) & _) Hf0 Hpi Em Ec Eh Et Ea Ns As_ Nh Ah Ss Sh Fs Fh.
  assert (Lh : k_procs s !! hb = Some h) by (rewrite Em; apply lookup_insert_eq).
  assert (Lu : k_procs s !! up = Some sh) by (rewrite Em, lookup_insert_ne by done; apply lookup_insert_eq).
  assert (Li : k_procs s !! g_idle = Some (idle_proc p0)) by (rewrite Em, !lookup_insert_ne by done; apply lookup_singleton_eq).
  assert (Si : p_state (idle_proc p0) = PROC_RUNNING) by (by destruct p0). assert (Fi : fds (idle_proc p0) = fds p0) by (by destruct p0).
  split.
  - split; [split| |].
    + cbn. rewrite Eh. split_and!; [done | done |]. exists sh. split; [done|]. split_and!; [done | done |]. by exists h.
    + by rewrite Et.
    + rewrite !NoDup_cons, not_elem_of_cons. split_and!; [done | apply not_elem_of_nil.. | apply NoDup_nil_2].
    + rewrite Ec, !not_elem_of_cons, Li. split_and!; [done | done | done | apply not_elem_of_nil | done].
    + intros a p Ha. apply elem_of_cons in Ha as [->|Ha%list_elem_of_singleton]; [|subst a]; congruence.
  - rewrite Ec, Li. eexists. split; [done|]. by rewrite Si.
  - split.
    + cbn. rewrite Ea. split_and!; [done | done |]. exists h. split; [done|]. split_and!; [done | done |]. by exists sh.
    + rewrite !NoDup_cons, not_elem_of_cons. split_and!; [done | apply not_elem_of_nil.. | apply NoDup_nil_2].
  - assert (Hr : forall x i, refs x i (k_procs s) = 0).
    { intros x i. unfold refs. rewrite Em, msum_insert, msum_insert by (rewrite ?lookup_insert_None, ?lookup_singleton_None; done).
      rewrite !weight_live by (by rewrite ?Ss, ?Sh). rewrite Fs, Fh, !std_ends. unfold msum. rewrite map_fold_singleton.
      rewrite weight_live, Fi, Hf0 by (by rewrite Si). by destruct x. }
    split.
    + intros i p Hp. rewrite Forall_lookup in Hpi. rewrite <- (Hpi i p Hp). split; [|done]. intros x. rewrite Hr. by destruct x.
    + intros a p. rewrite Em, !lookup_insert_Some, lookup_singleton_Some. intros [[_ <-]|(_ & [[_ <-]|(_ & _ & <-)])]; [by rewrite Fh | by rewrite Fs | by rewrite Fi, Hf0].
Qed.

Ltac look := repeat first [rewrite lookup_insert_eq; reflexivity | rewrite lookup_insert_ne by congruence]; rewrite ?lookup_singleton_eq; reflexivity.

(** The processor after the first switch. *)
Lemma first_switch_cpu kp s up hb p0 sh h : NoDup [0; g_idle; up; hb] -> pml4 p0 = 0 -> pml4 sh <> 0 -> kstack_top sh <> 0 ->
  k_procs s = <[hb := h]> (<[up := sh]> {[ g_idle := idle_proc p0 ]}) ->
  g_current s = g_idle -> g_ready_head s = up -> g_ready_tail s = hb -> p_next sh = hb ->
  runs (scheduler_yield kp) s (fun _ s' => k_cr3 s' = pml4 sh /\ g_cur_kstack s' = kstack_top sh /\ k_rsp s' = kctx_rsp sh /\ k_stack s' = k_stack s /\
    g_next_pid s' = g_next_pid s).
Proof using.
  rewrite !NoDup_cons, !not_elem_of_cons. intros ((Hi & Hu & Hh & _) & (Hiu & Hih & _) & (Huh & _) & _) H0 Hp Hk Em Ec Eh Et Ns.
  destruct s as [m cur hd tl ah fg np cr kst rsp stk pipes]. cbn [k_procs g_current g_ready_head g_ready_tail k_stack g_next_pid] in *. subst m cur hd tl.
  unfold scheduler_yield. kglobal. rewrite (proj2 (ctrue_spec up)) by done. cbn [negb]. kglobal.
  apply runs_bind. eapply pget_runs; [cbn [k_procs]; look|]. rewrite Ns, (proj2 (ctrue_spec hb)) by done. kglobal.
  apply runs_bind. eapply pget_runs; [cbn [k_procs]; look|]. replace (runnable (idle_proc p0)) with true by (by destruct p0).
  apply runs_bind. apply runs_bind. eapply pset_runs; [cbn [k_procs]; look|]. cbn [set_procs k_procs]. unfold scheduler_add.
  kset. kglobal. rewrite (proj2 (ctrue_spec hb)) by done. cbv iota.
  apply runs_bind. eapply pset_runs; [cbn [k_procs]; look|]. cbn [set_procs k_procs]. unfold modify at 1, runs at 1. cbn [set_ready g_ready_head].
  apply runs_bind. eapply pset_runs; [cbn [k_procs]; look|]. cbn [set_procs k_procs]. kglobal.
  apply runs_bind. eapply pget_runs; [cbn [k_procs]; look|]. apply runs_bind. eapply pget_runs; [cbn [k_procs]; look|].
  apply runs_bind. unfold modify at 1, runs at 1. cbn [set_cpu]. kglobal. apply runs_bind. eapply pset_runs; [cbn [k_procs]; look|]. cbn [set_procs k_procs].
  apply runs_bind. eapply pget_runs; [cbn [k_procs]; look|]. unfold modify, runs. cbn.
  destruct sh, p0. cbn in *. subst. rewrite (proj2 (Z.eqb_neq _ 0)), !(proj2 (ctrue_spec _)) by done. done.
Qed.


Lemma core_user p p' : core p' = core p ->
  pid p' = pid p /\ pml4 p' = pml4 p /\ uentry p' = uentry p /\ ursp p' = ursp p /\ p_brk p' = p_brk p /\ cwd_ino p' = cwd_ino p /\ kstack_top p' = kstack_top p.
Proof using. destruct p, p'. unfold core. cbn. intros E. by injection E. Qed.

(** The words a new thread is resumed with: six registers and the address of the
    trampoline; the trampoline calls the second-highest word. *)
Definition resumes (rsp entry : Z) (m : mem) : Prop :=
  forall j w, [0; 0; 0; 0; 0; entry; thread_trampoline] !! j = Some w -> rd m (rsp + 8 * Z.of_nat j) = w.

Lemma pushed_resumes e1 e2 k1 k2 m : k1 + PROC_KSTACK_SIZE <= k2 \/ k2 + PROC_KSTACK_SIZE <= k1 ->
  resumes (k1 + PROC_KSTACK_SIZE - 56) e1
    (push_words [thread_trampoline; e2; 0; 0; 0; 0; 0] (k2 + PROC_KSTACK_SIZE)
       (push_words [thread_trampoline; e1; 0; 0; 0; 0; 0] (k1 + PROC_KSTACK_SIZE) m).2).2.
Proof using.
  intros Hap j w Hj. cbn [push_words snd].
  assert (Hj7 : (j < 7)%nat) by (by apply lookup_lt_Some in Hj). do 7 rewrite rd_wr_ne by lia.
  do 7 (destruct j as [|j]; [injection Hj as <-; repeat first
    [rewrite rd_wr_ne by lia | match goal with |- rd (wr _ ?y _) ?x = _ => replace x with y by lia end; apply rd_wr_eq]|]). done.
Qed.

(** [kernel_main] hands the machine to the shell in a consistent state.  From the
    zeroed kernel (the static idle process, no pipe in use) and as long as memory for two
    processes is left, the last phase of the boot has a result: the shell is the running
    process, on its own address space and kernel stack, with the entry point of its
    program, a stack pointer at the two words prepared for it, the root directory as
    working directory, and resumed through the trampoline at [user_thread_main]; the
    heartbeat thread and the idle process are in the ready queue, in this order.  The
    invariants of the scheduler and of the pipe counts hold. *)
Lemma first_switch_runs s p0 uas entry brk root kp : early s p0 -> uas <> 0 ->
  (forall m, (size m <= 2)%nat -> is_Some (new_proc m) /\ is_Some (new_stack m)) ->
  runs (let* up := spawn_first uas entry brk root in do* scheduler_yield kp in ret up) s (fun up s' => exists hb p,
    sys_ok s' [hb; g_idle] [hb; up] /\ fair s' [hb; g_idle] /\ g_current s' = up /\ k_procs s' !! up = Some p /\
    pid p = g_next_pid s /\ pml4 p = uas /\ uentry p = entry /\ ursp p = USTACK_TOP - 16 /\ p_brk p = brk /\ cwd_ino p = root /\
    k_cr3 s' = uas /\ g_cur_kstack s' = kstack_top p /\ resumes (k_rsp s') user_thread_main (k_stack s')).
Proof using HP HS.
  intros Hea Hu Hroom. apply runs_bind. apply (spawn_first_runs _ p0); [done | done |]. intros up hb o1 o2 k1 k2 Hnd Hap Hk1 n.
  destruct (ea_idle _ _ Hea) as (Hi0 & Hf0 & Hp0). set (sh := shell_proc n k1 uas entry brk root o1 hb). set (h := spawned _ k2 1 _ o2 0 up).
  set (s1 := mkKern _ _ _ _ _ _ _ _ _ _ _ _).
  assert (Hok : sys_ok s1 [up; hb] [hb; up]) by (apply (spawned_sys_ok s1 up hb p0 sh h); try done; exact (ea_pipes _ _ Hea)).
  pose proof Hnd as Hne. rewrite !NoDup_cons, !not_elem_of_cons in Hne. destruct Hne as (_ & (Hiu & Hih & _) & (Huh & _) & _).
  assert (Li : k_procs s1 !! g_current s1 = Some (idle_proc p0)) by (cbn; rewrite !lookup_insert_ne by done; apply lookup_singleton_eq).
  assert (Lu : k_procs s1 !! up = Some sh) by (cbn; rewrite lookup_insert_ne by done; apply lookup_insert_eq).
  apply runs_bind. eapply runs_mono; [apply runs_and; [exact (yield_switches kp s1 up [hb] _ (sy_sched _ _ _ Hok) Li) |
    apply (first_switch_cpu kp s1 up hb p0 sh h); try done; cbn; lia] |].
  intros [] s' [Hsw (Ecr & Ekst & Ersp & Estk & _)]. apply runs_ret. unfold yield_queue in Hsw. replace (runnable (idle_proc p0)) with true in Hsw by (by destruct p0).
  cbn [app g_current s1] in Hsw. destruct (sy_all _ _ _ Hok) as [L1 L2].
  destruct (agree_lookup core _ _ up sh (sw_core _ _ _ _ Hsw) Lu) as (p & Hp & (E1 & E2 & E3 & E4 & E5 & E6 & E7)%core_user).
  exists hb, p. split_and!; try done.
  - eapply switched_sys; [exact (sy_sched _ _ _ Hok) | exact Hsw | done | done | exact (sy_ends _ _ _ Hok)].
  - split; [exact (sw_ok _ _ _ _ Hsw)|]. destruct (sw_next _ _ _ _ Hsw) as (q & Hq & T). injection T as _ T.
    rewrite (sw_cur _ _ _ _ Hsw), Hq. intros ? [= <-]. rewrite T. unfold PROC_QUANTUM. lia.
  - exact (sw_cur _ _ _ _ Hsw).
  - by rewrite Ekst, E7.
  - rewrite Ersp, Estk. by apply pushed_resumes.
Qed.

End Boot.

(** A machine at boot: the idle process at 64, an allocator that never runs out. *)
Definition blank_proc : process := mkProc 0 [] PROC_READY 0 0 0 0 0 0 0 0 0 [] 0 0 0 0 0 0 (replicate 16 closed_fd) 0 [] [] 0.
Definition early0 : kern := mkKern {[ 64 := blank_proc ]} 0 0 0 0 0 1 0 0 0 ∅ (replicate 16 Pipe.pipe0).
Definition any_proc (m : gmap Z process) : option (Z * process) := Some (fresh ({[ 0 ]} ∪ dom m), blank_proc).
Definition any_stack (m : gmap Z process) : option Z := Some (1 + msum (fun p => Z.max 0 (kstack_base p + PROC_KSTACK_SIZE)) m).

#[global] Instance any_proc_heap : ProcHeap any_proc.
Proof.
  intros m a p [= <- <-]. pose proof (is_fresh ({[ 0 ]} ∪ dom m)) as H. apply not_elem_of_union in H as [H1 H2].
  split; [by intros E; rewrite E in H1; apply H1, elem_of_singleton | by apply not_elem_of_dom].
Qed.

#[global] Instance any_stack_heap : StackHeap any_stack.
Proof.
  intros m b [= <-]. set (f := fun p => Z.max 0 _). assert (Hf : forall p, 0 <= f p) by (unfold f; lia). split.
  - pose proof (msum_nonneg f m Hf). lia.
  - intros a p Hp. right. pose proof (msum_ge f m a p Hf Hp) as H. unfold f in H at 1. lia.
Qed.

Lemma early0_ok : early 64 early0 blank_proc.
Proof. split; [done | done | done | by apply Forall_replicate]. Qed.

Lemma any_room (m : gmap Z process) : (size m <= 2)%nat -> is_Some (any_proc m) /\ is_Some (any_stack m).
Proof. split; by eexists. Qed.

Lemma first_switch_example : exists up s',
  (let* up := spawn_first any_proc any_stack 64 1 2 3 0x300000 0x400000 0x401000 7 in do* scheduler_yield 0x1000 in ret up) early0 = Some (up, s') /\
  g_current s' = up /\ k_cr3 s' = 0x300000.
Proof.
  pose proof (first_switch_runs any_proc any_stack 64 1 2 3 early0 blank_proc 0x300000 0x400000 0x401000 7 0x1000) as H.
  specialize (H early0_ok ltac:(discriminate) any_room). apply (proj1 (runs_result _ _ _)) in H.
  destruct H as (up & s' & E & hb & p & _ & _ & H1 & _ & _ & _ & _ & _ & _ & _ & H2 & _).
  exists up, s'. split; [exact E|]. split; [exact H1 | exact H2].
Qed.
End Boot.
