(* ===== verification/DiskBoot.v ===== *)
(** * The disks at boot (src/kernel/core/early.c)

    The part of [kernel_main] from the probe of the boot disk to the list of
    files: both drives of the primary channel are initialised, the slave is
    registered as the block device, and the file system on it is mounted.  The
    theorem composes the ATA driver, the block layer, the buffer cache, NoxFS
    and the image builder. *)
From S2P Require Import Prelude Bytes Pmm Vmm Vga Input Block Ata Buffer NoxFS NoxDisk NoxFiles NoxDemo NoxDir NoxMount MkDisk MkDiskSpec MkDiskMount MkDiskDemo Proc Vfs Boot.
From Stdlib Require String.
Import String.StringSyntax.
Import NoxFS NoxDisk NoxFiles NoxDir NoxMount MkDisk MkDiskSpec MkDiskMount Proc Vfs.

Module DiskBoot.

Abbreviation ATA_PRIMARY := 0.
Abbreviation ATA_MASTER := 0.
Abbreviation ATA_SLAVE := 1.
Abbreviation base := (Ata.ata_base ATA_PRIMARY).

Section Phase.
Context {D : Type} {PT : Ata.Ports D}.
Abbreviation io := (Block.blk D * D)%type.
Abbreviation cache := (Buffer.st io).

Definition drive : Ata.blk_drive := Ata.ata_set_block_drive ATA_PRIMARY ATA_SLAVE Ata.blk_drive0.

(** The direct reads of noxfs.c, into a buffer on the stack. *)
Definition direct_read (raw : list Z) (b : Z) (c : cache) : os_status * list Z * cache :=
  let '(r, buf, d) := Ata.ata_read ATA_PRIMARY ATA_MASTER b 1 (Some raw) (Buffer.s_io c).2 in
  (r, buf, Buffer.mkSt (Buffer.s_cache c) ((Buffer.s_io c).1, d)).

Context {limit : Z} `{BC : BufferCache cache limit}.
Context (pick : gmap Z (list Z) -> Z -> option (Z * list Z)) (raw : list Z).
Abbreviation MS := (M (sys cache)).

(** The devices are behind the cache. *)
Definition on_io {A} (f : io -> A * io) : MS A := fun s =>
  let c := n_bc (y_nox s) in
  let '(a, w) := f (Buffer.s_io c) in
  Some (a, with_nox (on_bc (fun c => Buffer.mkSt (Buffer.s_cache c) w) (y_nox s)) s).
Definition on_dev {A} (f : D -> A * D) : MS A := on_io (fun w => let '(a, d) := f w.2 in (a, (w.1, d))).

Definition LF : list Z := [10].

Fixpoint list_files (n : nat) (i : Z) : MS unit :=
  match n with
  | O => fun _ => None
  | S n =>
      let* count := vfs_count in
      if i <? count then
        let* f := vfs_entry i in
        do* (match f with
             | None => ret tt
             | Some v => let* f := vfile v in Boot.say (cs "   - " ++ cstr (vf_name f) ++ LF)
             end) in
        list_files n (i + 1)
      else ret tt
  end.

(** Sector 0 of the boot disk; [sec] is the static buffer. *)
Definition probe_boot_disk (sec : list Z) : MS unit :=
  let* _ := on_dev (Ata.ata_init ATA_PRIMARY ATA_MASTER) in
  let* '(r, b) := on_dev (fun d => let '(r, b, d) := Ata.ata_read ATA_PRIMARY ATA_MASTER 0 1 (Some sec) d in ((r, b), d)) in
  if is_ok r then
    Boot.say (if (byte b 510 =? 0x55) && (byte b 511 =? 0xAA) then cs "OK (read sector 0, 0xAA55 found)" ++ LF
              else cs "read ok but no boot signature" ++ LF)
  else Boot.say (cs "FAIL (ata_read)" ++ LF).

(** The count is below 2^32; 256 rounds are more than the files there can be. *)
Definition disk_phase : MS unit :=
  do* Boot.say (cs "[noxis64] ATA ... ") in
  do* probe_boot_disk (replicate 512 0) in
  let* _ := on_dev (Ata.ata_init ATA_PRIMARY ATA_SLAVE) in
  let* _ := on_io (fun w => let '(id, b, d) := Ata.ata_register_block drive w.1 w.2 in (id, (b, d))) in
  do* Boot.say (cs "[noxis64] VFS ... ") in
  let* _ := vfs_init pick (direct_read raw) in
  let* n := vfs_count in
  do* Boot.say (cs "OK (files=" ++ Boot.serial_write_hex64 n ++ cs ")" ++ LF) in
  list_files 256 0.
End Phase.

(** ** A drive that is not selected *)

(** Device 1 of an ATA channel does not act on commands and data transfers
    while the drive-select register names device 0. *)
Class Unselected (D : Type) `{!Ata.Ports D} (limit : Z) `{!Ata.AtaDisk D base (ATA_SLAVE =? 1) limit} := {
  un_reg r v d : 1 <= r <= 5 -> Z.testbit (Ata.v_sel (Ata.vw d)) 4 = false -> Ata.v_phase (Ata.vw d) = Ata.Idle ->
    let d' := Ata.outb (base + r) v d in
    Ata.v_sel (Ata.vw d') = Ata.v_sel (Ata.vw d) /\ Ata.v_phase (Ata.vw d') = Ata.Idle /\ forall i, Ata.sect d' i = Ata.sect d i;
  un_command v d : Z.testbit (Ata.v_sel (Ata.vw d)) 4 = false ->
    let d' := Ata.outb (base + 7) v d in Ata.vw d' = Ata.vw d /\ forall i, Ata.sect d' i = Ata.sect d i;
  un_status d : Z.testbit (Ata.v_sel (Ata.vw d)) 4 = false ->
    let d' := (Ata.inb (base + 7) d).2 in Ata.vw d' = Ata.vw d /\ forall i, Ata.sect d' i = Ata.sect d i;
  un_data d : Z.testbit (Ata.v_sel (Ata.vw d)) 4 = false -> Ata.v_phase (Ata.vw d) = Ata.Idle ->
    let d' := (Ata.inw (base + 0) d).2 in Ata.vw d' = Ata.vw d /\ forall i, Ata.sect d' i = Ata.sect d i
}.

Section Quiet.
Context {D : Type} {PT : Ata.Ports D} {limit : Z} {AD : Ata.AtaDisk D base (ATA_SLAVE =? 1) limit} {UN : Unselected D limit}.

(** The slave is idle and not selected, with the sectors of [d0]. *)
Definition quiet (d0 d : D) : Prop :=
  Z.testbit (Ata.v_sel (Ata.vw d)) 4 = false /\ Ata.v_phase (Ata.vw d) = Ata.Idle /\ forall i, Ata.sect d i = Ata.sect d0 i.

Lemma quiet_same d0 d d' : quiet d0 d -> Ata.vw d' = Ata.vw d -> (forall i, Ata.sect d' i = Ata.sect d i) -> quiet d0 d'.
Proof. intros (H1 & H2 & H3) E S. split_and!; [by rewrite E | by rewrite E |]. intros i. by rewrite S. Qed.

Lemma quiet_delay d0 d : quiet d0 d -> quiet d0 (Ata.io_delay d).
Proof. intros H. destruct (Ata.on_delay d) as (H1 & _ & H3). by apply (quiet_same d0 d). Qed.

Lemma quiet_delays d0 d : quiet d0 d -> quiet d0 (Ata.io_delays d).
Proof. intros H. unfold Ata.io_delays. apply (for_up_ind (fun _ d => quiet d0 d) 0 4); [done|]. intros. by apply quiet_delay. Qed.

Lemma quiet_status d0 d : quiet d0 d -> quiet d0 (Ata.inb (base + 7) d).2.
Proof. intros H. destruct (un_status d (proj1 H)). by apply (quiet_same d0 d). Qed.

Lemma quiet_reg d0 d r v : 1 <= r <= 5 -> quiet d0 d -> quiet d0 (Ata.outb (base + r) v d).
Proof.
  intros Hr (H1 & H2 & H3). destruct (un_reg r v d Hr H1 H2) as (E1 & E2 & E3). split_and!; [by rewrite E1 | done |]. intros i. by rewrite E3.
Qed.

Lemma quiet_timeout d0 n d : quiet d0 d -> quiet d0 (Ata.timeout_loop n base d).2.
Proof.
  revert d. induction n as [|n IH]; intros d H; [done|]. cbn [Ata.timeout_loop]. pose proof (quiet_status d0 d H) as Hs.
  destruct (Ata.inb _ d) as [st d1]. destruct (ctrue _); [by apply IH, quiet_delay|]. destruct (ctrue _); [done|].
  destruct (ctrue _); [done | by apply IH, quiet_delay].
Qed.

Lemma quiet_wait d0 n d : quiet d0 d -> quiet d0 (Ata.wait_drq_loop n base d).2.
Proof.
  revert d. induction n as [|n IH]; intros d H; [done|]. cbn [Ata.wait_drq_loop]. pose proof (quiet_status d0 d H) as Hs.
  destruct (Ata.inb _ d) as [st d1]. destruct (ctrue _); [done|]. destruct (ctrue _); [done | by apply IH, quiet_delay].
Qed.

Lemma quiet_words d0 s buf d : quiet d0 d -> quiet d0 (Ata.read_words base s buf d).2.
Proof.
  intros H. unfold Ata.read_words. apply (for_up_ind (fun _ p => quiet d0 p.2) 0 256 _ (buf, d)); [done|].
  intros i [b d1] _ H1. cbn [snd] in H1. destruct (un_data d1 (proj1 H1) (proj1 (proj2 H1))) as [E S]. destruct (Ata.inw _ d1) as [w d2]. by apply (quiet_same d0 d1).
Qed.

Lemma quiet_sectors d0 n s buf d : quiet d0 d -> quiet d0 (Ata.read_sectors n base s buf d).2.
Proof.
  revert s buf d. induction n as [|n IH]; intros s buf d H; [done|]. cbn [Ata.read_sectors]. pose proof (quiet_wait d0 Ata.POLLS d H) as Hw.
  unfold Ata.wait_drq. destruct (Ata.wait_drq_loop _ _ d) as [ok d1]. destruct ok; [|done]. cbn [negb].
  pose proof (quiet_words d0 s buf d1 Hw) as Hr. destruct (Ata.read_words _ _ _ d1) as [b d2]. by apply IH.
Qed.

(** Selecting the master. *)
Lemma quiet_select d v : Ata.v_phase (Ata.vw d) = Ata.Idle -> Z.testbit v 4 = false -> quiet d (Ata.outb (base + 6) v d).
Proof.
  intros Hi Hv. destruct (Ata.on_reg 6 v d ltac:(lia) ltac:(by left) Hi) as (E & _ & S). split_and!; [| |done].
  - rewrite E. by destruct (Ata.vw d).
  - rewrite E. by destruct (Ata.vw d).
Qed.

Lemma master_init_quiet d : Ata.v_phase (Ata.vw d) = Ata.Idle -> quiet d (Ata.ata_init ATA_PRIMARY ATA_MASTER d).2.
Proof.
  intros Hi. unfold Ata.ata_init, Ata.timeout. pose proof (quiet_select d (u8 (Z.lor 160 (u8 (Z.shiftl 0 4)))) Hi eq_refl) as H1.
  apply quiet_delays in H1. apply (quiet_timeout d Ata.POLLS) in H1. by destruct (Ata.timeout_loop _ _ _).
Qed.

Lemma master_read_quiet d lba buf : Ata.v_phase (Ata.vw d) = Ata.Idle -> 0 <= lba < 2 ^ 28 ->
  quiet d (Ata.ata_read ATA_PRIMARY ATA_MASTER lba 1 (Some buf) d).2.
Proof.
  intros Hi Hl. unfold Ata.ata_read, Ata.load_task, Ata.timeout. cbn [Z.eqb].
  assert (Hsel : Z.testbit (Ata.drv_lba ATA_MASTER lba) 4 = false) by (apply (Ata.drv_lba_bits ATA_MASTER lba); [by left | lia]).
  pose proof (quiet_select d _ Hi Hsel) as H1. apply quiet_delays, (quiet_timeout d Ata.POLLS) in H1.
  destruct (Ata.timeout_loop _ _ _) as [ok d1]. cbn [snd] in H1. destruct ok; cbn [negb]; [|done].
  apply quiet_sectors. assert (Hr : quiet d (Ata.load_regs base lba 1 d1)) by (unfold Ata.load_regs; repeat (apply quiet_reg; [lia|]); done).
  destruct (un_command Ata.ATA_CMD_READ _ (proj1 Hr)). by apply (quiet_same d (Ata.load_regs base lba 1 d1)).
Qed.

(** The slave after its initialisation: idle and ready. *)
Lemma slave_init_ready d : Ata.v_phase (Ata.vw d) = Ata.Idle ->
  exists d', Ata.ata_init ATA_PRIMARY ATA_SLAVE d = (OS_OK, d') /\ Ata.v_phase (Ata.vw d') = Ata.Idle /\ Ata.busy d' = 0%nat /\
    forall i, Ata.sect d' i = Ata.sect d i.
Proof.
  intros Hi. unfold Ata.ata_init, Ata.timeout. set (v := u8 (Z.lor 160 (u8 (Z.shiftl 1 4)))).
  destruct (Ata.on_reg 6 v d ltac:(lia) ltac:(by left) Hi) as (E1 & _ & S1).
  destruct (Ata.delays_frame ATA_PRIMARY ATA_SLAVE limit (Ata.outb (base + 6) v d)) as [[E2 S2] _].
  assert (E : Ata.vw (Ata.io_delays (Ata.outb (base + 6) v d)) = Ata.set_reg 6 v (Ata.vw d)) by (by rewrite E2, E1).
  destruct (Ata.timeout_ready ATA_PRIMARY ATA_SLAVE limit Ata.POLLS (Ata.io_delays (Ata.outb (base + 6) v d))) as (d' & -> & [E3 S3] & B3).
  - apply (Ata.busy_bound (AtaDisk := AD)).
  - unfold Ata.selects. rewrite E. by destruct (Ata.vw d).
  - exists d'. split_and!; [done | rewrite E3, E; by destruct (Ata.vw d) | done |]. intros i. by rewrite S3, S2, S1.
Qed.

Context (Hlim : 2048 <= limit <= 2 ^ 28).

Lemma limit_range : 0 < limit < 2 ^ 32. Proof using Hlim. lia. Qed.
Lemma limit_28 : 0 < limit <= 2 ^ 28. Proof using Hlim. lia. Qed.
Lemma limit_32 : limit <= 2 ^ 32. Proof using Hlim. lia. Qed.

(** The drive behind the block layer, and the cache over it. *)
#[local] Instance slave_disk : Block.ReliableDisk (Ata.ata_transfer drive) limit :=
  @Ata.ata_reliable D PT ATA_PRIMARY ATA_SLAVE limit AD (or_intror eq_refl) limit_28.
#[local] Instance slave_io : Buffer.DiskIO (Buffer.blk_io (W := D)) limit := Buffer.block_disk_io (Ata.ata_transfer drive) limit limit_range.
#[local] Instance slave_cache : BufferCache (Buffer.st (Block.blk D * D)) limit := Buffer.buffer_cache limit_32.

Lemma register_ready d ca : Ata.v_phase (Ata.vw d) = Ata.Idle -> Ata.busy d = 0%nat ->
  exists b' d', Ata.ata_register_block drive Block.blk_init d = (0, b', d') /\ bc_ready (Buffer.mkSt ca (b', d')) /\
    forall i, bc_disk (Buffer.mkSt ca (b', d')) i = Ata.sect d i.
Proof.
  intros Hi Hb. destruct (Ata.identify_ok ATA_PRIMARY ATA_SLAVE limit ltac:(by right) d ltac:(by left) Hi Hb) as (d1 & E & Hi1 & Hs1).
  eexists _, d1. split.
  - unfold Ata.ata_register_block. change drive with (Ata.mkBD ATA_PRIMARY ATA_SLAVE). rewrite E. reflexivity.
  - split; [|done]. split_and!; [split; [done | by apply Forall_replicate | done | vm_compute; lia] | done |].
    eexists. split; [reflexivity|]. split; [done|]. right. cbn. lia.
Qed.

(** ** The list of files *)

Definition lines (fs : list rfile) : list Z := concat ((fun x : rfile => cs "   - " ++ x.1.2 ++ LF) <$> fs).

Lemma cstr_stored nm s : Forall (fun c => 0 < c < 256) nm -> slice 0 (Z.of_nat (length nm) + 1) s = nm ++ [0] -> cstr s = nm.
Proof.
  intros Hnm Hs. unfold slice in Hs. simpl in Hs. rewrite drop_0 in Hs. replace (Z.to_nat (Z.of_nat (length nm) + 1)) with (length nm + 1)%nat in Hs by lia.
  rewrite <- (take_drop (length nm + 1) s), Hs, <- app_assoc. clear Hs. generalize (drop (length nm + 1) s) as r. intros r. induction Hnm as [|c nm Hc _ IH]; [done|]. cbn [app cstr].
  rewrite (proj2 (Z.eqb_neq c 0)) by lia. f_equal. apply IH.
Qed.

Lemma list_files_runs n i fs (s : sys (Buffer.st (Block.blk D * D))) Dk h0 (Q : unit -> sys (Buffer.st (Block.blk D * D)) -> Prop) :
  use_noxfs s = true -> mounted Dk fs h0 (y_nox s) -> n_count (y_nox s) = Z.of_nat (length fs) -> names_ok fs ->
  (i <= length fs)%nat -> (length fs < n + i)%nat ->
  Q tt (with_serial (y_serial s ++ lines (drop i fs)) s) -> runs (list_files n (Z.of_nat i)) s Q.
Proof.
  intros Hu Hm Hc Hn. destruct s as [k v nx u pn dn tk rn tm ser]. cbn [y_nox use_noxfs y_serial with_serial] in *. subst u.
  pose proof (mt_ready _ _ _ _ Hm) as Hr. revert i ser. induction n as [|n IH]; intros i ser Hi Hlt HQ; [lia|]. cbn [list_files].
  apply runs_bind. unfold runs at 1, vfs_count, view, noxfs_count. cbn [use_noxfs y_nox]. rewrite Hr, Hc.
  destruct (Z.ltb_spec (Z.of_nat i) (Z.of_nat (length fs))) as [Hil|Hil].
  2:{ apply runs_ret. rewrite drop_ge in HQ by lia. unfold lines in HQ. simpl in HQ. by rewrite app_nil_r in HQ. }
  destruct (lookup_lt_is_Some_2 fs i ltac:(lia)) as [x Ex]. apply runs_bind. unfold runs at 1, vfs_entry, view, noxfs_entry. cbn [use_noxfs y_nox].
  rewrite Hr, Hc, (proj2 (Z.leb_gt _ _)) by lia. cbn [orb negb as_nox fmap option_fmap option_map].
  apply runs_bind, runs_bind. unfold runs at 1, vfile, view. cbn [y_nox slot].
  destruct (mt_files _ _ _ _ Hm i x Ex) as (_ & Hs & _). destruct Hn as [Hn _]. destruct (Hn x ltac:(by eapply list_elem_of_lookup_2)) as [[_ Hb] _].
  rewrite (cstr_stored _ _ Hb Hs). unfold runs at 1, Boot.say, modify. cbn [with_serial y_serial].
  replace (Z.of_nat i + 1) with (Z.of_nat (S i)) by lia. apply IH; [lia | lia |].
  rewrite (drop_S _ _ _ Ex) in HQ. unfold lines in *. cbn [fmap list_fmap concat] in HQ. by rewrite <- app_assoc.
Qed.

(** ** The phase *)

(** Fields of a machine state built by updates. *)
Ltac fields := unfold on_bc; cbn [y_nox y_serial with_nox with_serial n_bc n_sb n_files n_count n_ready n_heap Buffer.s_cache].

Context (pick : gmap Z (list Z) -> Z -> option (Z * list Z)) `{!ObjHeap pick} (raw : list Z).
Abbreviation sysd := (sys (Buffer.st (Block.blk D * D))).

(** The machine before and after: only the devices behind the cache and the
    serial line have changed. *)
Definition with_dev (w : Block.blk D * D) (l : list Z) (s : sysd) : sysd :=
  with_serial (y_serial s ++ l) (with_nox (on_bc (fun c => Buffer.mkSt (Buffer.s_cache c) w) (y_nox s)) s).

Lemma probe_runs (s : sysd) b d (Q : unit -> sysd -> Prop) : Buffer.s_io (n_bc (y_nox s)) = (b, d) -> Ata.v_phase (Ata.vw d) = Ata.Idle ->
  (forall d' msg, Ata.v_phase (Ata.vw d') = Ata.Idle -> (forall i, Ata.sect d' i = Ata.sect d i) -> Q tt (with_dev (b, d') msg s)) ->
  runs (probe_boot_disk (replicate 512 0)) s Q.
Proof using UN.
  intros Hio Hi HQ. destruct s as [k v [[ca w] sb fl n r h] u pn dn tk rn tm ser]. cbn in Hio. subst w.
  unfold probe_boot_disk. apply runs_bind. unfold runs at 1, on_dev, on_io. cbn [y_nox n_bc Buffer.s_io fst snd].
  destruct (master_init_quiet d Hi) as (_ & Hi1 & Hs1). destruct (Ata.ata_init ATA_PRIMARY ATA_MASTER d) as [st d1]. cbn [snd] in Hi1, Hs1.
  fields.
  apply runs_bind. unfold runs at 1. cbn [y_nox n_bc Buffer.s_io fst snd].
  destruct (master_read_quiet d1 0 (replicate 512 0) Hi1 ltac:(lia)) as (_ & Hi2 & Hs2).
  destruct (Ata.ata_read ATA_PRIMARY ATA_MASTER 0 1 (Some (replicate 512 0)) d1) as [[st2 b2] d2]. cbn [snd] in Hi2, Hs2.
  fields.
  assert (Hs : forall i, Ata.sect d2 i = Ata.sect d i) by (intros i; by rewrite Hs2, Hs1).
  unfold with_dev in HQ. unfold on_bc in HQ. cbn in HQ.
  destruct (is_ok st2); unfold runs, Boot.say, modify; cbn [with_serial y_serial]; by apply HQ.
Qed.

Definition phase_log (probe : list Z) (fs : list rfile) : list Z :=
  cs "[noxis64] ATA ... " ++ probe ++ cs "[noxis64] VFS ... " ++
  cs "OK (files=" ++ Boot.serial_write_hex64 (Z.of_nat (length fs)) ++ cs ")" ++ LF ++ lines fs.

Lemma disk_phase_runs (s : sysd) d fs L (Q : unit -> sysd -> Prop) :
  Buffer.s_io (n_bc (y_nox s)) = (Block.blk_init, d) -> Ata.v_phase (Ata.vw d) = Ata.Idle ->
  volume (limit := limit) (Ata.sect d) L fs -> names_ok fs -> (length fs <= 24)%nat ->
  names32 (n_files (y_nox s)) -> heap_room pick (n_heap (y_nox s)) 25 (NSLOTS * 512 + 512) ->
  (forall nx probe, mounted (Ata.sect d) fs (n_heap (y_nox s)) nx -> n_count nx = Z.of_nat (length fs) ->
     Q tt (with_serial (y_serial s ++ phase_log probe fs) (with_use true (with_nox nx s)))) ->
  runs (disk_phase pick raw) s Q.
Proof using All.
  intros Hio Hi Hv Hn Hfs Hfl Hroom HQ. unfold disk_phase. apply runs_bind. unfold runs at 1, Boot.say, modify.
  destruct s as [k v [[ca w] sb fl n r h] u pn dn tk rn tm ser]. cbn in Hio, Hfl, Hroom. subst w. cbn [with_serial y_serial].
  apply runs_bind. apply (probe_runs _ Block.blk_init d); [done | done |]. intros d1 probe Hi1 Hs1. unfold with_dev. fields.
  apply runs_bind. unfold runs at 1, on_dev, on_io. cbn [y_nox n_bc Buffer.s_io fst snd].
  destruct (slave_init_ready d1 Hi1) as (d2 & -> & Hi2 & Hb2 & Hs2). fields.
  apply runs_bind. unfold runs at 1. cbn [y_nox n_bc Buffer.s_io fst snd].
  destruct (register_ready d2 ca Hi2 Hb2) as (b3 & d3 & -> & Hr3 & Hd3). fields.
  apply runs_bind. unfold runs at 1, Boot.say, modify. cbn [with_serial y_serial].
  apply runs_bind. unfold vfs_init. apply runs_bind. apply runs_zoom. cbn [y_nox].
  eapply runs_mono; [apply (init_mounted (direct_read raw) pick _ sb fl n r h (Ata.sect d) L fs); try done; intros b; rewrite Hd3, Hs2, Hs1; done|].
  intros st nx (-> & Hm & Hc). change (is_ok OS_OK) with true. cbn [with_nox]. pure_step. cbn [with_use]. apply runs_ret.
  apply runs_bind. unfold runs at 1, vfs_count, view, noxfs_count. cbn [use_noxfs y_nox]. rewrite (mt_ready _ _ _ _ Hm), Hc.
  apply runs_bind. unfold runs at 1, Boot.say, modify. cbn [with_serial y_serial]. change 0 with (Z.of_nat 0).
  apply (list_files_runs 256 0 fs _ (Ata.sect d) h); [done | done | done | done | lia | lia |]. cbn [with_serial y_serial].
  specialize (HQ nx probe Hm Hc). rewrite drop_0. unfold phase_log in HQ. cbn [y_serial with_nox with_use with_serial] in HQ. by rewrite <- !app_assoc in *.
Qed.
End Quiet.


(** ** A simulated machine *)

Definition sim_slave : Ata.AtaDisk Ata.Sim.dev base (ATA_SLAVE =? 1) 2048 := Ata.Sim.sim_disk.
#[local] Existing Instance sim_slave.

#[local] Instance sim_unselected : Unselected Ata.Sim.dev 2048.
Proof.
  split.
  - intros r v d Hr Hs Hi. cbn in Hs, Hi. cbn [Ata.outb Ata.Sim.sim_ports]. change base with 0x1F0. rewrite (Ata.Sim.idle_true _ Hi).
    rewrite (proj2 (Z.eqb_neq (0x1F0 + r) 0x80)) by lia. replace (0x1F0 + r - 0x1F0) with r by lia.
    rewrite (proj2 (Z.leb_le 1 r)), (proj2 (Z.leb_le r 6)), (proj2 (Z.eqb_neq r 6)), (proj2 (Z.eqb_neq r 7)) by lia. cbn [andb orb negb].
    destruct (Ata.Sim.s_late d); [done|]. cbn. destruct (Ata.Sim.s_view d) as [sel cnt lo mid hi ph]. cbn in Hi |- *. subst ph.
    rewrite (proj2 (Z.eqb_neq r 6)) by lia. repeat destruct (r =? _); done.
  - intros v d Hs. cbn [Ata.vw sim_slave Ata.Sim.sim_disk] in Hs. cbn [Ata.outb Ata.Sim.sim_ports]. unfold Ata.Sim.live. rewrite Hs. cbn. by destruct (Ata.Sim.is_idle _).
  - intros d Hs. done.
  - intros d Hs Hi. cbn in Hs, Hi. cbn. by rewrite Hi.
Qed.

Lemma sim_range : 2048 <= 2048 <= 2 ^ 28. Proof. lia. Qed.

(** The simulated drive with an image on it, and a machine that has it. *)
Definition sim_drive (m : mem) : Ata.Sim.dev := Ata.Sim.mkSim (Ata.mkView 0xA0 0 0 0 0 Ata.Idle) false (MkDiskDemo.disk_of m).
Definition sim_machine (m : mem) : sys (Buffer.st (Block.blk Ata.Sim.dev * Ata.Sim.dev)) :=
  mkSys Boot.early0 (Vmm.mkVmm ∅ Pmm.pmm_boot 0 true)
    (mkNox (Buffer.buf_init (Block.blk_init, sim_drive m)) NoxDemo.sb0 MkDiskDemo.table0 0 false ∅) false 0 0 0 0
    (Input.mkTerm Input.kbd0 (Input.mkReg [] 0 None) Input.tty_init Vga.vga0) [].

#[local] Existing Instance NoxDemo.demo_heap.

End DiskBoot.
