(* ===== verification/KStore.v ===== *)
(** * Kernel stores to user pages

    What a store by the kernel into a user buffer does, in the processor mode
    the boot code sets up: supervisor writes ignore the read-only bit of a page
    unless CR0.WP is set. *)
From S2P Require Import Prelude Bytes Pmm Vmm Paging Syscalls Exec.

Module KStore.
Import Vmm Paging.

(** ** CR0 (boot.asm, fpu.c) *)

Abbreviation CR0_MP := (Z.shiftl 1 1).
Abbreviation CR0_EM := (Z.shiftl 1 2).
Abbreviation CR0_NE := (Z.shiftl 1 5).
(** The bit that makes supervisor writes obey read-only pages. *)
Definition WP : Z := 16.

(** Protected mode, then paging. *)
Definition boot_cr0 (reset : Z) : Z := Z.lor (Z.lor reset 1) (Z.shiftl 1 31).
Definition fpu_cr0 (cr0 : Z) : Z := Z.lor (Z.lor (Z.land cr0 (Z.lnot CR0_EM)) CR0_MP) CR0_NE.

Lemma wp_clear reset : Z.testbit reset WP = false -> Z.testbit (fpu_cr0 (boot_cr0 reset)) WP = false.
Proof. intros H. unfold fpu_cr0, boot_cr0. by rewrite !Z.lor_spec, Z.land_spec, !Z.lor_spec, H. Qed.

(** ** The store *)

Definition page_addr (e va : Z) : Z := frame_of e + va mod 4096.
Definition user_byte (m : mem) (r va : Z) : option Z := (fun e => rd8 m (page_addr e va)) <$> leaf m r va.

(** A one-byte store at [va] under the page tables [r]: a page that is missing, or
    read-only with WP set, faults; the store is repeated if the handler returns, and
    [false] is its halt. *)
Fixpoint kernel_store (n : nat) (cr0 r va v : Z) (low : option Z) : MV bool := fun s =>
  match n with
  | O => None
  | S n =>
      let fault ec := match vmm_page_fault_handler va r ec low s with
                      | Some (Resume low', s') => kernel_store n cr0 r va v low' s'
                      | Some (Panic, s') => Some (false, s')
                      | None => None
                      end in
      match leaf (v_mem s) r va with
      | None => fault 2
      | Some e => if Z.testbit cr0 WP && negb (has e PAGE_RW) then fault 3
                  else Some (true, set_mem (wr8 (v_mem s) (page_addr e va) v) s)
      end
  end.

(** The tables above a page: the root and one per level. *)
Definition tables_of (m : mem) (r va : Z) : list (option Z) :=
  [Some r; node m r [idx4 va]; node m r [idx4 va; idx3 va]; node m r [idx4 va; idx3 va; idx2 va]].

(** The frame is not one of them. *)
Definition apart (m : mem) (r va f : Z) : Prop :=
  Forall (fun t => match t with Some t => t mod 4096 = 0 /\ t <> f | None => True end) (tables_of m r va).

Lemma entry_wr8 m f o v t i : f mod 4096 = 0 -> 0 <= o < 4096 -> t mod 4096 = 0 -> t <> f -> 0 <= i < 512 -> entry (wr8 m (f + o) v) t i = entry m t i.
Proof.
  intros Hf Ho Ht Hne Hi. unfold entry. apply Vmm.rd_wr8. pose proof (Z.div_mod f 4096). pose proof (Z.div_mod t 4096). lia.
Qed.

Lemma leaf_wr8 m r va f o v : f mod 4096 = 0 -> 0 <= o < 4096 -> apart m r va f -> leaf (wr8 m (f + o) v) r va = leaf m r va.
Proof.
  intros Hf Ho Ha. destruct (idx_range va) as (I4 & I3 & I2 & I1). unfold apart, tables_of in Ha. rewrite !Forall_cons in Ha. destruct Ha as (H4 & H3 & H2 & H1 & _).
  unfold leaf. cbn [node] in *. unfold child in *. rewrite (entry_wr8 m f o v r (idx4 va)) by naive_solver.
  destruct (has (entry m r (idx4 va)) PAGE_PRESENT); [|done]. rewrite entry_wr8 by naive_solver.
  destruct (has (entry m _ (idx3 va)) PAGE_PRESENT); [|done]. rewrite entry_wr8 by naive_solver.
  destruct (has (entry m _ (idx2 va)) PAGE_PRESENT); [|done]. rewrite entry_wr8 by naive_solver. done.
Qed.

(** a system call that stores into a page shared by fork changes it for both
    processes.  The boot code enables paging without CR0.WP, so a store by the kernel
    through the address space [r0] into a page that [r1] maps to the same frame reaches
    that frame at once, even if the page is read-only and copy-on-write in both: no copy
    is made, and the other process reads the new byte. *)
Theorem kernel_store_ignores_cow reset low n s r0 r1 va e0 e1 v : Z.testbit reset WP = false ->
  leaf (v_mem s) r0 va = Some e0 -> leaf (v_mem s) r1 va = Some e1 -> frame_of e0 = frame_of e1 -> frame_of e0 mod 4096 = 0 ->
  apart (v_mem s) r1 va (frame_of e0) -> 0 <= v < 256 ->
  exists s', kernel_store (S n) (fpu_cr0 (boot_cr0 reset)) r0 va v low s = Some (true, s') /\
    v_pmm s' = v_pmm s /\ user_byte (v_mem s') r1 va = Some v.
Proof.
  intros Hwp E0 E1 Ef Ha Hap Hv. cbn [kernel_store]. rewrite E0, (wp_clear reset Hwp). cbn [andb]. eexists. split; [reflexivity|]. split; [by destruct s|].
  cbn [v_mem set_mem]. unfold user_byte, page_addr. pose proof (Z.mod_pos_bound va 4096). rewrite leaf_wr8, E1 by (done || lia). cbn. f_equal.
  rewrite <- Ef, Vmm.rd8_wr8 by done. by rewrite Z.eqb_refl.
Qed.

(** A process with one writable page at 0x400000, forked. *)
Definition forked : option (Z * vmm) :=
  (let* _ := vmm_map_page_into root1 0x400000 0x201000 (PAGE_RW + PAGE_USER) in
   let* child := vmm_create_address_space in
   let* _ := vmm_cow_user_space child root1 in
   ret child) vm1.
Definition child1 : Z := default 0 (fst <$> forked).
Definition vm3 : vmm := default vm1 (snd <$> forked).

Lemma forked_pages : let e := leaf_entry 0x201000 (PAGE_USER + PAGE_COW) in
  leaf (v_mem vm3) root1 0x400010 = Some e /\ leaf (v_mem vm3) child1 0x400010 = Some e /\ has e PAGE_RW = false /\
  user_byte (v_mem vm3) child1 0x400010 = Some 0 /\
  forallb (fun t => match t with Some t => (t mod 4096 =? 0) && negb (t =? 0x201000) | None => true end) (tables_of (v_mem vm3) child1 0x400010) = true.
Proof. split_and!; vm_compute; reflexivity. Qed.

Lemma forked_apart : apart (v_mem vm3) child1 0x400010 0x201000.
Proof.
  destruct forked_pages as (_ & _ & _ & _ & H). unfold apart. induction (tables_of (v_mem vm3) child1 0x400010) as [|[t|] l IH]; [constructor | |];
    cbn [forallb] in H; apply andb_true_iff in H as [H1 H2]; constructor; auto.
  apply andb_true_iff in H1 as [H1 H3]. apply Z.eqb_eq in H1. by apply negb_true_iff, Z.eqb_neq in H3.
Qed.

Lemma kernel_store_ignores_cow_witness : exists s',
  kernel_store 1 (fpu_cr0 (boot_cr0 0x60000010)) root1 0x400010 90 None vm3 = Some (true, s') /\
  v_pmm s' = v_pmm vm3 /\ user_byte (v_mem s') child1 0x400010 = Some 90.
Proof.
  destruct forked_pages as (E0 & E1 & _).
  apply (kernel_store_ignores_cow 0x60000010 None 0 vm3 root1 child1 0x400010 _ _ 90 eq_refl E0 E1 eq_refl eq_refl forked_apart). lia.
Defined.
End KStore.
