(* ===== verification/Libc.v ===== *)
(** * The C runtime of user programs (src/lib/noxlib/noxlib.h)

    Strings, numbers, formatted output and the line editor [readline].  A C
    string is the list of its bytes; output is the list of bytes written. *)
From Stdlib Require String Ascii.
Import String.StringSyntax.
From S2P Require Import Prelude Bytes Vfs.

Module Libc.
Import Vfs.

(** ** Characters *)

Definition isdigit (c : Z) : bool := (48 <=? c) && (c <=? 57).
Definition isupper (c : Z) : bool := (65 <=? c) && (c <=? 90).
Definition islower (c : Z) : bool := (97 <=? c) && (c <=? 122).
Definition isalpha (c : Z) : bool := islower c || isupper c.
Definition tolower (c : Z) : Z := if isupper c then c + 32 else c.

(** ** Strings *)

Fixpoint strcmp (a b : list Z) : Z :=
  match a, b with
  | x :: a', y :: b' => if x =? y then strcmp a' b' else x - y
  | x :: _, [] => x
  | [], y :: _ => - y
  | [], [] => 0
  end.

Fixpoint strncmp (n : nat) (a b : list Z) : Z :=
  match n with
  | O => 0
  | S n =>
      let x := byte a 0 in let y := byte b 0 in
      if negb (x =? y) then x - y else if x =? 0 then 0 else strncmp n (tail a) (tail b)
  end.

(** [n] is a prefix of [h]. *)
Fixpoint starts (h n : list Z) : bool :=
  match n, h with
  | [], _ => true
  | y :: n, x :: h => (x =? y) && starts h n
  | _ :: _, [] => false
  end.

(** The suffix of [h] where [n] is found. *)
Fixpoint strstr (h n : list Z) : option (list Z) :=
  match n with
  | [] => Some h
  | _ => match h with
         | [] => None
         | _ :: h' => if starts h n then Some h else strstr h' n
         end
  end.

(** ** Numbers *)

Fixpoint atoi_digits (v : Z) (s : list Z) : Z :=
  match s with
  | c :: s => if isdigit c then atoi_digits (s32 (v * 10 + (c - 48))) s else v
  | [] => v
  end.
Definition atoi (s : list Z) : Z :=
  match s with
  | c :: s' => if c =? 45 then s32 (- atoi_digits 0 s') else if c =? 43 then atoi_digits 0 s' else atoi_digits 0 s
  | [] => 0
  end.

(** Text of a number: at least one digit. *)
Definition udec (u : Z) : list Z := uint_to_str u.
(** [-v] of the most negative number is itself, as an unsigned value its magnitude. *)
Definition sdec (v : Z) : list Z := (if v <? 0 then [45] else []) ++ udec (Z.abs v).

Fixpoint hexdigits (fuel : nat) (upper : bool) (v : Z) (acc : list Z) : list Z :=
  match fuel with
  | O => acc
  | S fuel =>
      if v =? 0 then acc
      else let d := Z.land v 15 in
           hexdigits fuel upper (Z.shiftr v 4) ((if d <? 10 then 48 + d else (if upper then 65 else 97) + d - 10) :: acc)
  end.
Definition uhex (upper : bool) (u : Z) : list Z := if u =? 0 then [48] else hexdigits 16 upper u [].

(** ** Formatted output *)

(** The variable arguments; one of the wrong kind, or none left, has no meaning. *)
Inductive arg := AInt (v : Z) | AStr (s : option (list Z)).

Record spec := mkSpec { sp_left : bool; sp_zero : bool; sp_width : Z; sp_long : Z }.

Fixpoint flags (fmt : list Z) (l z : bool) : bool * bool * list Z :=
  match fmt with
  | c :: fmt' => if c =? 45 then flags fmt' true z else if c =? 48 then flags fmt' l true else (l, z, fmt)
  | [] => (l, z, [])
  end.
Fixpoint width (fmt : list Z) (w : Z) : Z * list Z :=
  match fmt with
  | c :: fmt' => if isdigit c then width fmt' (s32 (w * 10 + (c - 48))) else (w, fmt)
  | [] => (w, [])
  end.
Fixpoint longs (fmt : list Z) (n : Z) : Z * list Z :=
  match fmt with
  | c :: fmt' => if c =? 108 then longs fmt' (n + 1) else (n, fmt)
  | [] => (n, [])
  end.

Definition parse_spec (fmt : list Z) : spec * list Z :=
  let '(l, z, fmt) := flags fmt false false in
  let '(w, fmt) := width fmt 0 in
  let '(n, fmt) := longs fmt 0 in
  (mkSpec l z w n, fmt).

Definition blanks (c n : Z) : list Z := replicate (Z.to_nat n) c.

(** The output loops for a converted text [t], in order: padding, text, padding. *)
Definition pad (s : spec) (t : list Z) : list (list Z) :=
  let n := sp_width s - Z.of_nat (length t) in
  if sp_left s then [t; blanks 32 n]
  else if sp_zero s && (0 <? n) then
    match t with
    | c :: t' => if c =? 45 then [[45]; blanks 48 n; t'] else [blanks 48 n; t]
    | [] => [blanks 48 n; t]
    end
  else [blanks 32 n; t].

(** [%s] ignores the zero flag. *)
Definition pad_str (s : spec) (t : list Z) : list (list Z) := pad (mkSpec (sp_left s) false (sp_width s) 0) t.

(** The output of one conversion and the arguments left. *)
Definition convert (s : spec) (c : Z) (args : list arg) : option (list (list Z) * list arg) :=
  if c =? 99 then match args with AInt v :: args => Some (pad s [u8 v], args) | _ => None end
  else if c =? 115 then
    match args with
    | AStr t :: args => Some (pad_str s (default (cs "(null)") t), args)
    | _ => None
    end
  else if (c =? 100) || (c =? 105) then
    match args with AInt v :: args => Some (pad s (sdec (if sp_long s =? 0 then s32 v else s64 v)), args) | _ => None end
  else if c =? 117 then
    match args with AInt v :: args => Some (pad s (udec (if sp_long s =? 0 then u32 v else u64 v)), args) | _ => None end
  else if (c =? 120) || (c =? 88) then
    match args with AInt v :: args => Some (pad s (uhex (c =? 88) (if sp_long s =? 0 then u32 v else u64 v)), args) | _ => None end
  else if c =? 112 then
    match args with AInt v :: args => Some (pad s (cs "0x" ++ uhex false (u64 v)), args) | _ => None end
  else if c =? 37 then Some (pad s [37], args)
  else Some (pad s [37; c], args).

(** [while (... && p < sz-1) b[p++] = ...] *)
Definition put (sz : Z) (b t : list Z) : list Z := b ++ take (Z.to_nat (sz - 1) - length b) t.

(** [b] is what has been stored so far; every round consumes a byte of the format. *)
Fixpoint format_into (fuel : nat) (sz : Z) (fmt : list Z) (args : list arg) (b : list Z) : option (list Z) :=
  match fuel with
  | O => None
  | S fuel =>
      match fmt with
      | [] => Some b
      | c :: fmt =>
          if negb (c =? 37) then format_into fuel sz fmt args (put sz b [c])
          else
            let '(s, fmt) := parse_spec fmt in
            match fmt with
            | [] => Some b
            | c :: fmt =>
                match convert s c args with
                | None => None
                | Some (ts, args) => format_into fuel sz fmt args (foldl (put sz) b ts)
                end
            end
      end
  end.

(** The text stored, without its terminator, and the result. *)
Definition vsnprintf (sz : Z) (fmt : list Z) (args : list arg) : option (list Z * Z) :=
  if sz =? 0 then Some ([], 0)
  else (fun t => (t, Z.of_nat (length t))) <$> format_into (S (length fmt)) sz fmt args [].

(** Formatted text, cut to the buffer it is printed into. *)
Definition print_to (sz : Z) (f : list Z) (args : list arg) : list Z :=
  match vsnprintf sz f args with Some (t, _) => t | None => [] end.

(** ** Reference: the whole text, with no buffer *)

Fixpoint format (fuel : nat) (fmt : list Z) (args : list arg) : option (list Z) :=
  match fuel with
  | O => None
  | S fuel =>
      match fmt with
      | [] => Some []
      | c :: fmt =>
          if negb (c =? 37) then (fun t => c :: t) <$> format fuel fmt args
          else
            let '(s, fmt) := parse_spec fmt in
            match fmt with
            | [] => Some []
            | c :: fmt =>
                match convert s c args with
                | None => None
                | Some (ts, args) => (fun r => mjoin ts ++ r) <$> format fuel fmt args
                end
            end
      end
  end.

Lemma put_take sz x t : put sz (take (Z.to_nat (sz - 1)) x) t = take (Z.to_nat (sz - 1)) (x ++ t).
Proof. unfold put. rewrite take_app, length_take. f_equal. f_equal. lia. Qed.

Lemma puts_take sz ts : forall x, foldl (put sz) (take (Z.to_nat (sz - 1)) x) ts = take (Z.to_nat (sz - 1)) (x ++ mjoin ts).
Proof.
  induction ts as [|t ts IH]; intros x; cbn [foldl].
  - cbn. by rewrite app_nil_r.
  - rewrite put_take, IH. cbn. by rewrite app_assoc.
Qed.

Lemma format_into_take fuel sz : forall fmt args x,
  format_into fuel sz fmt args (take (Z.to_nat (sz - 1)) x) = (fun t => take (Z.to_nat (sz - 1)) (x ++ t)) <$> format fuel fmt args.
Proof.
  induction fuel as [|fuel IH]; intros fmt args x; [done|]. cbn [format_into format]. destruct fmt as [|c fmt]; [cbn; by rewrite app_nil_r|].
  destruct (negb (c =? 37)).
  - rewrite put_take, IH. destruct (format fuel fmt args); [|done]. cbn. by rewrite <- app_assoc.
  - destruct (parse_spec fmt) as [s fmt']. destruct fmt' as [|c' fmt']; [cbn; by rewrite app_nil_r|].
    destruct (convert s c' args) as [[ts args']|]; [|done]. rewrite puts_take, IH. destruct (format fuel fmt' args'); [|done]. cbn. by rewrite app_assoc.
Qed.

(** Parsing a conversion consumes what it reads. *)
Lemma flags_shorter fmt : forall l z, (length (flags fmt l z).2 <= length fmt)%nat.
Proof. induction fmt as [|c fmt IH]; intros l z; cbn [flags]; [done|]. destruct (c =? 45); [specialize (IH true z); cbn; lia|]. destruct (c =? 48); [specialize (IH l true); cbn; lia | done]. Qed.

Lemma width_shorter fmt : forall w, (length (width fmt w).2 <= length fmt)%nat.
Proof. induction fmt as [|c fmt IH]; intros w; cbn [width]; [done|]. destruct (isdigit c); [specialize (IH (s32 (w * 10 + (c - 48)))); cbn; lia | done]. Qed.

Lemma longs_shorter fmt : forall n, (length (longs fmt n).2 <= length fmt)%nat.
Proof. induction fmt as [|c fmt IH]; intros n; cbn [longs]; [done|]. destruct (c =? 108); [specialize (IH (n + 1)); cbn; lia | done]. Qed.

Lemma parse_spec_shorter fmt : (length (parse_spec fmt).2 <= length fmt)%nat.
Proof.
  unfold parse_spec. pose proof (flags_shorter fmt false false). destruct (flags fmt false false) as [[l z] f1].
  pose proof (width_shorter f1 0). destruct (width f1 0) as [w f2]. pose proof (longs_shorter f2 0). destruct (longs f2 0) as [n f3]. cbn in *. lia.
Qed.

Lemma format_fuel n m : forall fmt args, (length fmt < n)%nat -> (length fmt < m)%nat -> format n fmt args = format m fmt args.
Proof.
  revert m. induction n as [|n IH]; intros m fmt args Hn Hm; [lia|]. destruct m as [|m]; [lia|]. cbn [format]. destruct fmt as [|c fmt]; [done|]. cbn [length] in *.
  destruct (negb (c =? 37)); [by rewrite (IH m) by lia|]. pose proof (parse_spec_shorter fmt) as Hp. destruct (parse_spec fmt) as [s fmt']. destruct fmt' as [|c' fmt']; [done|].
  cbn in Hp. destruct (convert s c' args) as [[ts args']|]; [|done]. by rewrite (IH m) by lia.
Qed.

(** C38: [vsnprintf] is formatting followed by truncation.  For a buffer of [sz > 0] bytes
    it stores exactly the first [sz - 1] bytes of the full text of the format, whatever
    the field widths and arguments, so the terminator always fits; the result is the
    number of bytes stored.  The full text does not depend on the bound on the rounds. *)
Theorem vsnprintf_truncates sz fmt args : 0 < sz ->
  vsnprintf sz fmt args = (fun t => (take (Z.to_nat (sz - 1)) t, Z.min (sz - 1) (Z.of_nat (length t)))) <$> format (S (length fmt)) fmt args /\
  forall n, (length fmt < n)%nat -> format n fmt args = format (S (length fmt)) fmt args.
Proof.
  intros Hsz. split; [|intros n Hn; by apply format_fuel; [|lia]]. unfold vsnprintf. rewrite (proj2 (Z.eqb_neq sz 0)) by lia.
  rewrite <- (take_nil (Z.to_nat (sz - 1))) at 1. rewrite format_into_take. destruct (format _ fmt args) as [t|]; [|done].
  cbn. do 2 f_equal. rewrite length_take. lia.
Qed.

(** [snprintf(b, 6, "%04d|%-3s|", -7, "ab")] *)
Lemma vsnprintf_truncates_witness :
  vsnprintf 6 (cs "%04d|%-3s|") [AInt (-7); AStr (Some (cs "ab"))] = Some (cs "-007|", 5) /\
  format 20 (cs "%04d|%-3s|") [AInt (-7); AStr (Some (cs "ab"))] = Some (cs "-007|ab |").
Proof.
  destruct (vsnprintf_truncates 6 (cs "%04d|%-3s|") [AInt (-7); AStr (Some (cs "ab"))]) as [E1 E2]; [lia|].
  split; [rewrite E1; reflexivity | rewrite E2; [reflexivity | cbn; lia]].
Defined.
End Libc.
