(* ===== verification/Numbers.v ===== *)
(** * Numbers, memory and output of the C runtime (src/lib/noxlib/noxlib.h)

    The rest of the runtime's library functions: [strtol], the character
    classes, [memset], [memcmp], the [printf] family and [putenv].  The theorem
    shows that reading a number undoes printing it. *)
From Stdlib Require String.
Import String.StringSyntax.
From S2P Require Import Prelude Bytes Env Vfs Libc.

Module Numbers.
Import Vfs Libc.

(** ** Characters and strings *)

Definition isalnum (c : Z) : bool := isdigit c || isalpha c.
Definition isspace (c : Z) : bool := (c =? 32) || (c =? 9) || (c =? 10) || (c =? 13).
Definition toupper (c : Z) : Z := if islower c then c - 32 else c.
Definition strlen (s : list Z) : Z := Z.of_nat (length s).

(** ** Memory *)

Definition memset (d c n : Z) (m : mem) : mem := fill d n (u8 c) m.
Fixpoint memcmp (m : mem) (a b : Z) (n : nat) : Z :=
  match n with
  | O => 0
  | S n => if negb (rd m a =? rd m b) then rd m a - rd m b else memcmp m (a + 1) (b + 1) n
  end.

(** ** [strtol] *)

Fixpoint skip_blanks (s : list Z) : list Z :=
  match s with
  | c :: s' => if (c =? 32) || (c =? 9) then skip_blanks s' else s
  | [] => []
  end.

Definition digit_value (c : Z) : option Z :=
  if (48 <=? c) && (c <=? 57) then Some (c - 48)
  else if (97 <=? c) && (c <=? 102) then Some (c - 97 + 10)
  else if (65 <=? c) && (c <=? 70) then Some (c - 65 + 10)
  else None.

(** The value so far is a [long]; the string left is what [end] points to. *)
Fixpoint strtol_loop (base v : Z) (s : list Z) : Z * list Z :=
  match s with
  | [] => (v, [])
  | c :: s' =>
      match digit_value c with
      | None => (v, s)
      | Some d => if base <=? d then (v, s) else strtol_loop base (s64 (v * base + d)) s'
      end
  end.

(** Base 0: the prefix decides. *)
Definition strtol_base (base : Z) (s : list Z) : Z * list Z :=
  if base =? 0 then
    match s with
    | 48 :: c :: s' => if (c =? 120) || (c =? 88) then (16, s') else (8, c :: s')
    | [48] => (8, [])
    | _ => (10, s)
    end
  else (base, s).

Definition strtol (s : list Z) (base : Z) : Z * list Z :=
  let s := skip_blanks s in
  let '(neg, s) := match s with
                   | c :: s' => if c =? 45 then (true, s') else if c =? 43 then (false, s') else (false, s)
                   | [] => (false, [])
                   end in
  let '(base, s) := strtol_base base s in
  let '(v, s) := strtol_loop base 0 s in
  (if neg then s64 (- v) else v, s).

(** ** Formatted output: the bytes written, and the result *)

Definition sprintf (fmt : list Z) (args : list arg) : option (list Z * Z) := vsnprintf 4096 fmt args.
Definition fprintf (fmt : list Z) (args : list arg) : option (list Z * Z) :=
  (fun '(t, r) => (if 0 <? r then t else [], r)) <$> vsnprintf 1024 fmt args.

(** ** [putenv] *)

Fixpoint env_key (n : nat) (s : list Z) : list Z :=
  match n, s with
  | S n, c :: s' => if c =? 61 then [] else c :: env_key n s'
  | _, _ => []
  end.

Definition putenv (s : list Z) (env : list (list Z)) (n : Z) : Z * list (list Z) * Z :=
  let key := env_key 31 s in
  let rest := drop (length key) s in
  Env.setenv key (match rest with c :: v => if c =? 61 then v else [] | [] => [] end) env n.

(** ** Printing and reading back *)

(** Text that ends a number in this base. *)
Definition stops (base : Z) (rest : list Z) : bool :=
  match rest with
  | [] => true
  | c :: _ => match digit_value c with Some d => base <=? d | None => true end
  end.

Lemma loop_stops base v rest : stops base rest = true -> strtol_loop base v rest = (v, rest).
Proof.
  destruct rest as [|c rest]; [done|]. cbn [stops strtol_loop]. destruct (digit_value c) as [d|]; [|done]. by intros ->.
Qed.

(** A digit of a number, in lower or upper case. *)
Definition digit_char (upper : bool) (d : Z) : Z := if d <? 10 then 48 + d else (if upper then 65 else 97) + d - 10.

Lemma digit_value_char upper d : 0 <= d < 16 -> digit_value (digit_char upper d) = Some d.
Proof.
  intros Hd. unfold digit_char, digit_value. destruct (Z.ltb_spec d 10), upper;
    repeat match goal with |- context [?x <=? ?y] => destruct (Z.leb_spec x y); try lia end; cbn [andb]; f_equal; lia.
Qed.

Lemma loop_digit base v upper d s : 2 <= base <= 16 -> 0 <= d < base -> 0 <= v * base + d < 2 ^ 63 ->
  strtol_loop base v (digit_char upper d :: s) = strtol_loop base (v * base + d) s.
Proof.
  intros Hb Hd Hv. cbn [strtol_loop]. rewrite digit_value_char by lia. rewrite (proj2 (Z.leb_gt base d)) by lia. f_equal.
  unfold s64, u64. rewrite Z.mod_small by lia. by rewrite (proj2 (Z.ltb_lt _ _)) by lia.
Qed.

Definition starts_digit (s : list Z) : bool := match s with c :: _ => bool_decide (is_Some (digit_value c)) | [] => false end.

(** A conversion puts the digits of a number, last one first, in front of [acc]. *)
Section Conversion.
Context (conv : nat -> Z -> list Z -> list Z) (base : Z) (upper : bool).
Context (base_ok : 2 <= base <= 16) (conv_end : forall n u acc, n = O \/ u = 0 -> conv n u acc = acc).
Context (conv_step : forall n u acc, 0 < u -> conv (S n) u acc = conv n (u / base) (digit_char upper (u mod base) :: acc)).

(** Read from the value 0 the digits give the number. *)
Lemma loop_digits n : forall u acc, 0 <= u < base ^ Z.of_nat n -> u < 2 ^ 63 -> strtol_loop base 0 (conv n u acc) = strtol_loop base u acc.
Proof using base_ok conv_end conv_step.
  induction n as [|n IH]; intros u acc Hu Hlt.
  - assert (u = 0) as -> by (cbn in Hu; lia). by rewrite conv_end by auto.
  - destruct (Z.eq_dec u 0) as [->|]; [by rewrite conv_end by auto|]. rewrite conv_step by lia.
    pose proof (Z.div_mod u base ltac:(lia)) as E. pose proof (Z.mod_pos_bound u base ltac:(lia)).
    assert (0 <= u / base) by (apply Z.div_pos; lia). assert (u / base <= u) by (apply Z.div_le_upper_bound; nia).
    rewrite IH by (split_and?; try lia; apply Z.div_lt_upper_bound; rewrite Nat2Z.inj_succ, Z.pow_succ_r in Hu; lia).
    rewrite loop_digit by lia. f_equal. lia.
Qed.

Lemma conv_starts n : forall u acc, 0 <= u -> starts_digit acc = true \/ 0 < u /\ n <> O -> starts_digit (conv n u acc) = true.
Proof using base_ok conv_end conv_step.
  induction n as [|n IH]; intros u acc Hu Hs; [rewrite conv_end by auto; by destruct Hs as [|[_ []]]|].
  destruct (Z.eq_dec u 0) as [->|]; [rewrite conv_end by auto; destruct Hs; [done | lia]|]. rewrite conv_step by lia.
  apply IH; [apply Z.div_pos; lia|]. left. cbn [starts_digit]. pose proof (Z.mod_pos_bound u base ltac:(lia)).
  rewrite digit_value_char by lia. apply bd_Some.
Qed.
End Conversion.

Lemma digits_app base n : forall u acc rest, digits n base u acc ++ rest = digits n base u (acc ++ rest).
Proof. induction n as [|n IH]; intros u acc rest; cbn [digits]; [done|]. destruct (u =? 0); [done|]. by rewrite IH. Qed.

Lemma hexdigits_app up n : forall u acc rest, hexdigits n up u acc ++ rest = hexdigits n up u (acc ++ rest).
Proof. induction n as [|n IH]; intros u acc rest; cbn [hexdigits]; [done|]. destruct (u =? 0); [done|]. by rewrite IH. Qed.

Lemma decimal_step n v acc : 0 < v -> digits (S n) 10 v acc = digits n 10 (v / 10) (digit_char false (v mod 10) :: acc).
Proof. intros Hv. cbn [digits]. by rewrite (proj2 (Z.eqb_neq v 0)) by lia. Qed.

Lemma hex_step up n v acc : 0 < v -> hexdigits (S n) up v acc = hexdigits n up (v / 16) (digit_char up (v mod 16) :: acc).
Proof.
  intros Hv. cbn [hexdigits]. rewrite (proj2 (Z.eqb_neq v 0)) by lia. change 15 with (Z.ones 4).
  by rewrite Z.land_ones, Z.shiftr_div_pow2 by lia.
Qed.

Lemma decimal_end n u acc : n = O \/ u = 0 -> digits n 10 u acc = acc.
Proof. intros [->| ->]; [done | by destruct n]. Qed.

Lemma hex_end up n u acc : n = O \/ u = 0 -> hexdigits n up u acc = acc.
Proof. intros [->| ->]; [done | by destruct n]. Qed.

Lemma udec_reads u rest : 0 <= u < 2 ^ 63 -> stops 10 rest = true ->
  strtol_loop 10 0 (udec u ++ rest) = (u, rest) /\ starts_digit (udec u ++ rest) = true.
Proof.
  intros Hu Hr. unfold udec, uint_to_str. destruct (Z.eqb_spec u 0) as [->|Hne].
  - split; [|done]. change ([48] ++ rest) with (digit_char false 0 :: rest). rewrite loop_digit by lia. by apply loop_stops.
  - rewrite digits_app. split.
    + rewrite (loop_digits (fun n => digits n 10) 10 false); [by apply loop_stops | lia | apply decimal_end | apply decimal_step | lia | lia].
    + apply (conv_starts (fun n => digits n 10) 10 false); [lia | apply decimal_end | apply decimal_step | lia | right; lia].
Qed.

Lemma uhex_reads up u rest : 0 <= u < 2 ^ 63 -> stops 16 rest = true ->
  strtol_loop 16 0 (uhex up u ++ rest) = (u, rest) /\ starts_digit (uhex up u ++ rest) = true.
Proof.
  intros Hu Hr. unfold uhex. destruct (Z.eqb_spec u 0) as [->|Hne].
  - split; [|done]. change ([48] ++ rest) with (digit_char false 0 :: rest). rewrite loop_digit by lia. by apply loop_stops.
  - rewrite hexdigits_app. split.
    + rewrite (loop_digits (fun n => hexdigits n up) 16 up); [by apply loop_stops | lia | apply hex_end | apply hex_step | lia | lia].
    + apply (conv_starts (fun n => hexdigits n up) 16 up); [lia | apply hex_end | apply hex_step | lia | right; lia].
Qed.

(** A string that starts with a digit has no blank and no sign in front. *)
Lemma starts_digit_plain s : starts_digit s = true -> exists c s', s = c :: s' /\ 48 <= c <= 102.
Proof.
  destruct s as [|c s]; [done|]. cbn [starts_digit]. intros H%bool_decide_eq_true. exists c, s. split; [done|].
  unfold digit_value in H. destruct (Z.leb_spec 48 c); [|exfalso].
  - destruct (Z.leb_spec c 57), (Z.leb_spec 97 c), (Z.leb_spec c 102), (Z.leb_spec 65 c), (Z.leb_spec c 70); cbn in H; lia || by destruct H.
  - rewrite (proj2 (Z.leb_gt 97 c)), (proj2 (Z.leb_gt 65 c)) in H by lia. by destruct H.
Qed.

Lemma strtol_plain base s : base <> 0 -> starts_digit s = true -> strtol s base = strtol_loop base 0 s.
Proof.
  intros Hb (c & s' & -> & Hc)%starts_digit_plain. unfold strtol. cbn [skip_blanks].
  rewrite (proj2 (Z.eqb_neq c 32)), (proj2 (Z.eqb_neq c 9)) by lia. cbn [orb].
  rewrite (proj2 (Z.eqb_neq c 45)), (proj2 (Z.eqb_neq c 43)) by lia. unfold strtol_base. rewrite (proj2 (Z.eqb_neq base 0)) by done.
  by destruct (strtol_loop base 0 (c :: s')).
Qed.

Lemma strtol_minus base s : base <> 0 -> strtol (45 :: s) base = let '(v, r) := strtol_loop base 0 s in (s64 (- v), r).
Proof. intros Hb. unfold strtol. cbn. unfold strtol_base. by rewrite (proj2 (Z.eqb_neq base 0)) by done. Qed.

(** C24: [strtol] reads back what [printf] prints: the text of a [long] other than the smallest, with
    its sign, gives the number and the position after it in base 10; the
    hexadecimal text of a non-negative one, in either case, does so in base 16, and with the
    prefix "0x" in base 0; whatever text follows, as long as it does not continue the number. *)
Theorem strtol_reads_back v up rest : - 2 ^ 63 < v < 2 ^ 63 ->
  (stops 10 rest = true -> strtol (sdec v ++ rest) 10 = (v, rest)) /\
  (stops 16 rest = true -> 0 <= v -> strtol (uhex up v ++ rest) 16 = (v, rest) /\ strtol (48 :: 120 :: uhex up v ++ rest) 0 = (v, rest)).
Proof.
  intros Hv. split.
  - intros Hr. unfold sdec. destruct (udec_reads (Z.abs v) rest ltac:(lia) Hr) as [E1 E2]. destruct (Z.ltb_spec v 0).
    + change (([45] ++ udec (Z.abs v)) ++ rest) with (45 :: (udec (Z.abs v) ++ rest)). rewrite strtol_minus, E1 by done. f_equal.
      unfold s64, u64. replace (- Z.abs v) with v by lia.
      assert (E : v mod 2 ^ 64 = v + 2 ^ 64) by (symmetry; apply (Z.mod_unique _ _ (-1)); lia). rewrite E.
      rewrite (proj2 (Z.ltb_ge _ _)) by lia. lia.
    + cbn [app]. rewrite strtol_plain, E1 by done. f_equal. lia.
  - intros Hr H0. destruct (uhex_reads up v rest ltac:(lia) Hr) as [E1 E2]. split; [by rewrite strtol_plain, E1|].
    unfold strtol. cbn [skip_blanks orb Z.eqb Pos.eqb strtol_base]. by rewrite E1.
Qed.

(** ["-42;"] *)
Lemma strtol_reads_back_witness : strtol (sdec (-42) ++ cs ";") 10 = (-42, cs ";") /\ strtol (48 :: 120 :: uhex false 48879 ++ []) 0 = (48879, []).
Proof.
  split.
  - destruct (strtol_reads_back (-42) false (cs ";") ltac:(lia)) as [H _]. apply H. reflexivity.
  - destruct (strtol_reads_back 48879 false [] ltac:(lia)) as [_ H]. apply H; [reflexivity | lia].
Defined.

(** [putenv] of "KEY=VAL" sets KEY to VAL. *)
Lemma env_key_stop k rest : forall n, (length k <= n)%nat -> 61 ∉ k -> env_key n (k ++ 61 :: rest) = k.
Proof.
  induction k as [|c k IH]; intros n Hn Hk; [by destruct n|]. destruct n as [|n]; cbn in *; [lia|].
  apply not_elem_of_cons in Hk as [Hc Hk]. rewrite (proj2 (Z.eqb_neq c 61)) by done. by rewrite IH by (done || lia).
Qed.

Theorem putenv_sets k v env n : (length k <= 31)%nat -> 61 ∉ k -> putenv (k ++ 61 :: v) env n = Env.setenv k v env n.
Proof. intros Hk Hc. unfold putenv. rewrite env_key_stop by done. by rewrite drop_app_length. Qed.
End Numbers.
