(* ===== verification/Readline.v ===== *)
(** * The line editor of user programs (src/lib/noxlib/noxlib.h, [readline])

    The editor works on a fixed array with a length and a cursor, and on a
    history of twenty lines.  An access outside the array has no result.  The
    theorem shows that it implements an editor on plain lists. *)
From S2P Require Import Prelude Bytes Console Vfs Files Libc.

Module Readline.
Import Libc.

Definition RL_MAX : Z := 256.
Abbreviation RL_HIST := 20.

(** [r_tmp] is the line put aside while browsing the history, [r_hist] the lines of
    [_rl_hist] up to [_rl_nhist], [r_out] what has been written to the terminal. *)
Record rl := mkRl {
  r_buf : mem; r_len : Z; r_cur : Z; r_tmp : mem; r_tmp_len : Z; r_in_hist : bool; r_hpos : Z;
  r_hist : list (list Z); r_out : list Z
}.
Abbreviation MR := (M rl).

Definition set_line (b : mem) (n c : Z) (s : rl) : rl := mkRl b n c (r_tmp s) (r_tmp_len s) (r_in_hist s) (r_hpos s) (r_hist s) (r_out s).
Definition set_browse (i : bool) (p : Z) (s : rl) : rl := mkRl (r_buf s) (r_len s) (r_cur s) (r_tmp s) (r_tmp_len s) i p (r_hist s) (r_out s).
Definition set_tmp (b : mem) (n : Z) (s : rl) : rl := mkRl (r_buf s) (r_len s) (r_cur s) b n (r_in_hist s) (r_hpos s) (r_hist s) (r_out s).
Definition set_hist (h : list (list Z)) (s : rl) : rl := mkRl (r_buf s) (r_len s) (r_cur s) (r_tmp s) (r_tmp_len s) (r_in_hist s) (r_hpos s) h (r_out s).
Definition emit (l : list Z) (s : rl) : rl := mkRl (r_buf s) (r_len s) (r_cur s) (r_tmp s) (r_tmp_len s) (r_in_hist s) (r_hpos s) (r_hist s) (r_out s ++ l).

(** The cells [lo..hi] are in the array. *)
Definition in_array (lo hi : Z) : bool := (0 <=? lo) && (hi <? RL_MAX).

Definition bytes_of (m : mem) (n : Z) : list Z := (fun i => rd m i) <$> seqZ 0 n.

Definition rl_draw (pr : list Z) (len cur old_len : Z) : MR unit :=
  modify (fun s => emit ([13] ++ pr ++ bytes_of (r_buf s) len ++ blanks 32 (old_len - len) ++ [13] ++ pr ++ bytes_of (r_buf s) cur) s).

(** [for (i = lo; i < hi; i++) buf[i] = buf[i+1]] and [for (i = hi; i > lo; i--) buf[i] = buf[i-1]] *)
Definition close_gap (lo hi : Z) (m : mem) : mem := for_up lo hi (fun i m => wr m i (rd m (i + 1))) m.
Definition open_gap (lo hi : Z) (m : mem) : mem := for_up 0 (hi - lo) (fun k m => wr m (hi - k) (rd m (hi - k - 1))) m.

(** Removing the character at [at_]. *)
Definition remove_char (at_ : Z) (s : rl) : option mem :=
  if (r_len s - 1 <=? at_) || in_array at_ (r_len s - 1) then Some (close_gap at_ (r_len s - 1) (r_buf s)) else None.

(** A line copied into the array with its terminator. *)
Definition load_line (l : list Z) : MR unit := fun s =>
  if in_array 0 (Z.of_nat (length l)) then
    let n := Z.of_nat (length l) in Some (tt, set_line (Files.wr_list (r_buf s) 0 (l ++ [0])) n n s)
  else None.

Inductive key := KEnter | KErase | KHome | KEnd | KKill | KLeft | KRight | KUp | KDown | KDelete | KPrint (c : Z) | KNone.

(** One key from the bytes typed, and the bytes left. *)
Definition next_key (i : list Z) : option (key * list Z) :=
  match i with
  | [] => None
  | c :: i =>
      if (c =? 13) || (c =? 10) then Some (KEnter, i)
      else if (c =? 0x7F) || (c =? 8) then Some (KErase, i)
      else if c =? 1 then Some (KHome, i)
      else if c =? 5 then Some (KEnd, i)
      else if c =? 0x0B then Some (KKill, i)
      else if c =? 0x1B then
        match i with
        | [] => None
        | s1 :: i =>
            if negb (s1 =? 91) then Some (KNone, i)
            else match i with
                 | [] => None
                 | s2 :: i =>
                     if s2 =? 68 then Some (KLeft, i)
                     else if s2 =? 67 then Some (KRight, i)
                     else if s2 =? 65 then Some (KUp, i)
                     else if s2 =? 66 then Some (KDown, i)
                     else if s2 =? 51 then match i with [] => None | _ :: i => Some (KDelete, i) end
                     else Some (KNone, i)
                 end
        end
      else if 0x20 <=? c then Some (KPrint c, i)
      else Some (KNone, i)
  end.

Section Editor.
Context (pr : list Z).

Definition hist_at (i : Z) : MR (list Z) := fun s => match r_hist s !! Z.to_nat i with Some l => Some (l, s) | None => None end.

Definition rl_key (k : key) : MR unit :=
  let* s := get in
  match k with
  | KErase =>
      if 0 <? r_cur s then
        match remove_char (r_cur s - 1) s with
        | None => fun _ => None
        | Some b => do* modify (set_line b (r_len s - 1) (r_cur s - 1)) in rl_draw pr (r_len s - 1) (r_cur s - 1) (r_len s)
        end
      else ret tt
  | KHome => do* rl_draw pr (r_len s) 0 (r_len s) in modify (set_line (r_buf s) (r_len s) 0)
  | KEnd => do* rl_draw pr (r_len s) (r_len s) (r_len s) in modify (set_line (r_buf s) (r_len s) (r_len s))
  | KKill => do* modify (set_line (r_buf s) (r_cur s) (r_cur s)) in rl_draw pr (r_cur s) (r_cur s) (r_len s)
  | KLeft =>
      if 0 <? r_cur s then do* modify (set_line (r_buf s) (r_len s) (r_cur s - 1)) in rl_draw pr (r_len s) (r_cur s - 1) (r_len s) else ret tt
  | KRight =>
      if r_cur s <? r_len s then do* modify (set_line (r_buf s) (r_len s) (r_cur s + 1)) in rl_draw pr (r_len s) (r_cur s + 1) (r_len s) else ret tt
  | KUp =>
      do* (if r_in_hist s then ret tt
           else if in_array 0 (r_len s) then
             do* modify (set_tmp (Files.wr_list (r_tmp s) 0 (bytes_of (r_buf s) (r_len s) ++ [0])) (r_len s)) in
             modify (set_browse true (Z.of_nat (length (r_hist s))))
           else fun _ => None) in
      let* s := get in
      if 0 <? r_hpos s then
        do* modify (set_browse true (r_hpos s - 1)) in
        let* l := hist_at (r_hpos s - 1) in
        do* load_line l in
        rl_draw pr (Z.of_nat (length l)) (Z.of_nat (length l)) (r_len s)
      else ret tt
  | KDown =>
      let n := Z.of_nat (length (r_hist s)) in
      if r_in_hist s && (r_hpos s <? n) then
        let p := r_hpos s + 1 in
        let* l := (if p =? n then ret (bytes_of (r_tmp s) (r_tmp_len s)) else hist_at p) in
        do* modify (set_browse (negb (p =? n)) p) in
        do* load_line l in
        rl_draw pr (Z.of_nat (length l)) (Z.of_nat (length l)) (r_len s)
      else ret tt
  | KDelete =>
      if r_cur s <? r_len s then
        match remove_char (r_cur s) s with
        | None => fun _ => None
        | Some b => do* modify (set_line b (r_len s - 1) (r_cur s)) in rl_draw pr (r_len s - 1) (r_cur s) (r_len s)
        end
      else ret tt
  | KPrint c =>
      if r_len s <? RL_MAX - 1 then
        if in_array (r_cur s) (r_len s) then
          let b := wr (open_gap (r_cur s) (r_len s) (r_buf s)) (r_cur s) c in
          do* modify (fun s => set_browse false (r_hpos s) (set_line b (r_len s + 1) (r_cur s + 1) s)) in
          rl_draw pr (r_len s + 1) (r_cur s + 1) (r_len s)
        else fun _ => None
      else ret tt
  | KEnter | KNone => ret tt
  end.

(** The history after a line has been entered. *)
Definition hist_add (l : list Z) (h : list (list Z)) : list (list Z) :=
  if bool_decide (l = []) || bool_decide (last h = Some l) then h
  else if Z.of_nat (length h) <? RL_HIST then h ++ [l] else drop 1 h ++ [l].

(** Keys up to the return key; the line and the bytes left. *)
Fixpoint rl_loop (fuel : nat) (i : list Z) : MR (list Z * list Z) :=
  match fuel with
  | O => fun _ => None
  | S fuel =>
      match next_key i with
      | None => fun _ => None
      | Some (KEnter, i) =>
          let* s := get in
          if in_array 0 (r_len s) then
            let l := bytes_of (r_buf s) (r_len s) in
            do* modify (fun s => set_hist (hist_add l (r_hist s)) (emit [10] s)) in
            ret (l, i)
          else fun _ => None
      | Some (k, i) => do* rl_key k in rl_loop fuel i
      end
  end.

Definition readline (i : list Z) (h : list (list Z)) : option (list Z * list Z * list (list Z) * list Z) :=
  match rl_loop (S (length i)) i (mkRl ∅ 0 0 ∅ 0 false (Z.of_nat (length h)) h pr) with
  | Some ((l, rest), s) => Some (l, rest, r_hist s, r_out s)
  | None => None
  end.
End Editor.

(** ** Reference: an editor on lists *)

(** The text, the cursor, the line put aside while browsing, and the position in the
    history. *)
Record ed := mkEd { e_text : list Z; e_cur : nat; e_saved : option (list Z); e_pos : nat }.

Definition ed_key (h : list (list Z)) (k : key) (e : ed) : ed :=
  let '(mkEd t c sv p) := e in
  match k with
  | KErase => match c with O => e | S c' => mkEd (take c' t ++ drop c t) c' sv p end
  | KHome => mkEd t 0 sv p
  | KEnd => mkEd t (length t) sv p
  | KKill => mkEd (take c t) c sv p
  | KLeft => mkEd t (pred c) sv p
  | KRight => mkEd t (if (c <? length t)%nat then S c else c) sv p
  | KUp =>
      let '(sv, p) := match sv with Some x => (Some x, p) | None => (Some t, length h) end in
      match p with
      | O => mkEd t c sv p
      | S p' => let l := nth p' h [] in mkEd l (length l) sv p'
      end
  | KDown =>
      match sv with
      | Some x =>
          if (p <? length h)%nat then
            if (S p =? length h)%nat then mkEd x (length x) None (S p)
            else let l := nth (S p) h [] in mkEd l (length l) sv (S p)
          else e
      | None => e
      end
  | KDelete => mkEd (take c t ++ drop (S c) t) c sv p
  | KPrint x => if (length t <? 255)%nat then mkEd (take c t ++ x :: drop c t) (S c) None p else e
  | KEnter | KNone => e
  end.

(** The keys before the return key, and what follows it. *)
Fixpoint keys_of (fuel : nat) (i : list Z) : option (list key * list Z) :=
  match fuel with
  | O => None
  | S fuel =>
      match next_key i with
      | None => None
      | Some (KEnter, i) => Some ([], i)
      | Some (k, i) => (fun r => (k :: r.1, r.2)) <$> keys_of fuel i
      end
  end.

(** ** The array holds the text *)

Definition short (l : list Z) : Prop := (length l <= 255)%nat.

Record shows (h : list (list Z)) (s : rl) (e : ed) : Prop := {
  sh_text : Console.line_in (r_buf s) (e_text e);
  sh_len : r_len s = Z.of_nat (length (e_text e));
  sh_cur : r_cur s = Z.of_nat (e_cur e);
  sh_in : (e_cur e <= length (e_text e))%nat;
  sh_short : short (e_text e);
  sh_hist : r_hist s = h;
  sh_saved : match e_saved e with
             | Some x => r_in_hist s = true /\ Console.line_in (r_tmp s) x /\ r_tmp_len s = Z.of_nat (length x) /\ short x /\ r_hpos s = Z.of_nat (e_pos e) /\ (e_pos e <= length h)%nat
             | None => r_in_hist s = false
             end
}.

Lemma line_in_ext b b' l : Console.line_in b l -> (forall i, 0 <= i < Z.of_nat (length l) -> rd b' i = rd b i) -> Console.line_in b' l.
Proof. intros H E i c Hc. rewrite E; [by apply H|]. apply lookup_lt_Some in Hc. lia. Qed.

Lemma bytes_of_line b l : Console.line_in b l -> bytes_of b (Z.of_nat (length l)) = l.
Proof.
  intros H. apply list_eq. intros i. unfold bytes_of. rewrite list_lookup_fmap. destruct (decide (i < length l)%nat) as [Hi|Hi].
  - rewrite lookup_seqZ_lt by lia. cbn. destruct (lookup_lt_is_Some_2 l i Hi) as [c Hc]. rewrite Hc. f_equal. by apply H.
  - rewrite !lookup_ge_None_2; [done | lia | rewrite length_seqZ; lia].
Qed.

Lemma wr_list_spec l : forall b o i, rd (Files.wr_list b o l) i = if (o <=? i) && (i <? o + Z.of_nat (length l)) then nth (Z.to_nat (i - o)) l 0 else rd b i.
Proof.
  induction l as [|c l IH]; intros b o i; cbn [Files.wr_list length].
  - destruct (Z.leb_spec o i), (Z.ltb_spec i (o + Z.of_nat 0)); cbn; lia || done.
  - rewrite IH. destruct (Z.eq_dec o i) as [<-|Hne].
    + rewrite (proj2 (Z.leb_gt (o + 1) o)) by lia. cbn [andb]. by rewrite rd_wr_eq, Z.leb_refl, (proj2 (Z.ltb_lt o _)), Z.sub_diag by lia.
    + rewrite rd_wr_ne by done. destruct (Z.leb_spec (o + 1) i), (Z.leb_spec o i); try lia; cbn [andb]; [|done].
      replace (o + 1 + Z.of_nat (length l)) with (o + Z.of_nat (S (length l))) by lia. destruct (_ <? _); [|done].
      replace (Z.to_nat (i - o)) with (S (Z.to_nat (i - (o + 1)))) by lia. done.
Qed.

Lemma wr_list_line b l : Console.line_in (Files.wr_list b 0 (l ++ [0])) l.
Proof.
  intros i c Hc. apply lookup_lt_Some in Hc as Hi. rewrite wr_list_spec, length_app. rewrite (proj2 (Z.leb_le _ _)), (proj2 (Z.ltb_lt _ _)) by (cbn [length]; lia). cbn [andb].
  rewrite Z.sub_0_r, Nat2Z.id, nth_lookup, lookup_app_l, Hc by lia. done.
Qed.

Lemma rd_close_gap lo hi m i : lo <= hi -> rd (close_gap lo hi m) i = if (lo <=? i) && (i <? hi) then rd m (i + 1) else rd m i.
Proof.
  intros Hle. unfold close_gap. pose proof (for_up_ind (fun k m' => forall j, rd m' j = if (lo <=? j) && (j <? k) then rd m (j + 1) else rd m j) lo hi (fun i m => wr m i (rd m (i + 1))) m) as H.
  cbv beta in H. rewrite Z.max_r in H by lia. apply H; clear H.
  - intros j. destruct (Z.leb_spec lo j), (Z.ltb_spec j lo); cbn; lia || done.
  - intros k m' Hk IH j. destruct (Z.eq_dec k j) as [<-|Hne].
    + rewrite rd_wr_eq, IH. destruct (Z.leb_spec lo (k + 1)), (Z.ltb_spec (k + 1) k), (Z.leb_spec lo k), (Z.ltb_spec k (k + 1)); cbn; lia || done.
    + rewrite rd_wr_ne, IH by done. destruct (Z.leb_spec lo j), (Z.ltb_spec j k), (Z.ltb_spec j (k + 1)); cbn; lia || done.
Qed.

Lemma rd_open_gap lo hi m i : lo <= hi -> rd (open_gap lo hi m) i = if (lo <? i) && (i <=? hi) then rd m (i - 1) else rd m i.
Proof.
  intros Hle. unfold open_gap. pose proof (for_up_ind (fun k m' => forall j, rd m' j = if (hi - k <? j) && (j <=? hi) then rd m (j - 1) else rd m j) 0 (hi - lo) (fun k m => wr m (hi - k) (rd m (hi - k - 1))) m) as H.
  cbv beta in H. rewrite Z.max_r in H by lia. replace (hi - (hi - lo)) with lo in H by lia. apply H; clear H.
  - intros j. destruct (Z.ltb_spec (hi - 0) j), (Z.leb_spec j hi); cbn; lia || done.
  - intros k m' Hk IH j. destruct (Z.eq_dec (hi - k) j) as [<-|Hne].
    + rewrite rd_wr_eq, IH. destruct (Z.ltb_spec (hi - k) (hi - k - 1)), (Z.ltb_spec (hi - (k + 1)) (hi - k)), (Z.leb_spec (hi - k) hi); cbn; lia || done.
    + rewrite rd_wr_ne, IH by done. destruct (Z.ltb_spec (hi - k) j), (Z.ltb_spec (hi - (k + 1)) j), (Z.leb_spec j hi); cbn; lia || done.
Qed.

Lemma close_gap_line b t c : Console.line_in b t -> (c < length t)%nat ->
  Console.line_in (close_gap (Z.of_nat c) (Z.of_nat (length t) - 1) b) (take c t ++ drop (S c) t).
Proof.
  intros H Hc i x Hx. rewrite rd_close_gap by lia. apply lookup_app_Some in Hx as [Hx|[Hi Hx]].
  - apply lookup_take_Some in Hx as [Hx Hi]. rewrite (proj2 (Z.leb_gt _ _)) by lia. cbn [andb]. by apply H.
  - rewrite length_take, Nat.min_l in * by lia. rewrite lookup_drop in Hx. apply lookup_lt_Some in Hx as Hl.
    rewrite (proj2 (Z.leb_le _ _)), (proj2 (Z.ltb_lt _ _)) by lia. cbn [andb]. replace (Z.of_nat i + 1) with (Z.of_nat (S c + (i - c))) by lia. by apply H.
Qed.

Lemma open_gap_line b t c x : Console.line_in b t -> (c <= length t)%nat ->
  Console.line_in (wr (open_gap (Z.of_nat c) (Z.of_nat (length t)) b) (Z.of_nat c) x) (take c t ++ x :: drop c t).
Proof.
  intros H Hc i y Hy. apply lookup_app_Some in Hy as [Hy|[Hi Hy]].
  - apply lookup_take_Some in Hy as [Hy Hi]. rewrite rd_wr_ne, rd_open_gap by lia. rewrite (proj2 (Z.ltb_ge _ _)) by lia. cbn [andb]. by apply H.
  - rewrite length_take, Nat.min_l in * by lia. destruct (i - c)%nat as [|j] eqn:Ej.
    + injection Hy as <-. replace i with c by lia. apply rd_wr_eq.
    + change (drop c t !! j = Some y) in Hy. rewrite lookup_drop in Hy. apply lookup_lt_Some in Hy as Hl. rewrite rd_wr_ne, rd_open_gap by lia.
      rewrite (proj2 (Z.ltb_lt _ _)), (proj2 (Z.leb_le _ _)) by lia. cbn [andb]. replace (Z.of_nat i - 1) with (Z.of_nat (c + j)) by lia. by apply H.
Qed.

(** Drawing changes the output only. *)
Lemma draw_runs pr len cur old s (Q : unit -> rl -> Prop) : (forall o, Q tt (emit o s)) -> runs (rl_draw pr len cur old) s Q.
Proof. intros H. unfold runs, rl_draw, modify. apply H. Qed.

Lemma shows_emit h s e o : shows h s e -> shows h (emit o s) e.
Proof. intros []. by split. Qed.

Lemma in_array_true lo hi : 0 <= lo -> hi < 256 -> in_array lo hi = true.
Proof. intros. unfold in_array, RL_MAX. by rewrite (proj2 (Z.leb_le _ _)), (proj2 (Z.ltb_lt _ _)) by lia. Qed.

Lemma load_runs l s (Q : unit -> rl -> Prop) : short l ->
  (forall b, Console.line_in b l -> Q tt (set_line b (Z.of_nat (length l)) (Z.of_nat (length l)) s)) -> runs (load_line l) s Q.
Proof. unfold short. intros Hl H. unfold runs, load_line. rewrite in_array_true by lia. apply H, wr_list_line. Qed.

Lemma shows_load h s l sv p b : short l -> Console.line_in b l -> r_hist s = h ->
  match sv with
  | Some x => r_in_hist s = true /\ Console.line_in (r_tmp s) x /\ r_tmp_len s = Z.of_nat (length x) /\ short x /\ r_hpos s = Z.of_nat p /\ (p <= length h)%nat
  | None => r_in_hist s = false
  end -> shows h (set_line b (Z.of_nat (length l)) (Z.of_nat (length l)) s) (mkEd l (length l) sv p).
Proof. intros Hs Hl Hh Hsv. by split. Qed.

Lemma remove_runs h s e c : shows h s e -> (c < length (e_text e))%nat ->
  exists b, remove_char (Z.of_nat c) s = Some b /\ Console.line_in b (take c (e_text e) ++ drop (S c) (e_text e)).
Proof.
  intros [T L _ _ Sh _ _] Hc. unfold short in Sh. unfold remove_char. rewrite L, in_array_true, orb_true_r by lia. eexists. split; [done|]. by apply close_gap_line.
Qed.

Lemma length_removed (t : list Z) c : (c < length t)%nat -> length (take c t ++ drop (S c) t) = (length t - 1)%nat.
Proof. intros. rewrite length_app, length_take, length_drop. lia. Qed.

(** The browsing half of the up key, once the line has been put aside. *)
Lemma up_runs pr h s e x p : Forall short h -> shows h s e -> e_saved e = Some x -> e_pos e = p ->
  runs (let* s := get in
        if 0 <? r_hpos s then
          do* modify (set_browse true (r_hpos s - 1)) in
          let* l := hist_at (r_hpos s - 1) in
          do* load_line l in
          rl_draw pr (Z.of_nat (length l)) (Z.of_nat (length l)) (r_len s)
        else ret tt) s
    (fun _ s' => shows h s' (match p with O => e | S p' => let l := nth p' h [] in mkEd l (length l) (Some x) p' end)).
Proof.
  intros Hh Hs Hx <-. pose proof Hs as [T L C I Sh Hi Sv]. rewrite Hx in Sv. destruct Sv as (S1 & S2 & S3 & S4 & S5 & S6).
  apply runs_bind. unfold get at 1, runs at 1. rewrite S5. destruct (e_pos e) as [|p'] eqn:Ep; [by apply runs_ret|].
  rewrite (proj2 (Z.ltb_lt _ _)) by lia. replace (Z.of_nat (S p') - 1) with (Z.of_nat p') by lia.
  apply runs_bind. unfold modify at 1, runs at 1. apply runs_bind. unfold hist_at, runs at 1. cbn [r_hist set_browse]. rewrite Hi, Nat2Z.id.
  destruct (lookup_lt_is_Some_2 h p') as [l Hl]; [lia|]. rewrite Hl. rewrite (nth_lookup_Some h p' [] l Hl).
  apply runs_bind. apply load_runs; [by eapply Forall_lookup_1|]. intros b Hb. apply draw_runs. intros o. apply shows_emit, shows_load; [by eapply Forall_lookup_1 | done | done |].
  cbn. split_and!; try done; lia.
Qed.

Lemma down_runs pr h s e : Forall short h -> shows h s e -> runs (rl_key pr KDown) s (fun _ s' => shows h s' (ed_key h KDown e)).
Proof.
  intros Hh Hs. pose proof Hs as [T L C I Sh Hi Sv]. destruct e as [t c sv p]. cbn [e_text e_cur e_saved e_pos ed_key] in *.
  unfold rl_key. apply runs_bind. unfold get at 1, runs at 1. rewrite Hi. destruct sv as [x|]; [|rewrite Sv; by apply runs_ret].
  destruct Sv as (S1 & S2 & S3 & S4 & S5 & S6). rewrite S1, S5. cbn [andb]. destruct (Nat.ltb_spec p (length h)) as [Hp|Hp]; cycle 1.
  { rewrite (proj2 (Z.ltb_ge _ _)) by lia. by apply runs_ret. }
  rewrite (proj2 (Z.ltb_lt _ _)) by lia. replace (Z.of_nat p + 1) with (Z.of_nat (S p)) by lia. destruct (Nat.eqb_spec (S p) (length h)) as [E|E].
  - rewrite (proj2 (Z.eqb_eq _ _)) by lia. apply runs_bind, runs_ret. rewrite S3, bytes_of_line by done. cbn [negb].
    apply runs_bind. unfold modify at 1, runs at 1. apply runs_bind. apply load_runs; [done|]. intros b Hb. apply draw_runs. intros o. by apply shows_emit, shows_load.
  - rewrite (proj2 (Z.eqb_neq _ _)) by lia. apply runs_bind. unfold hist_at, runs at 1. rewrite Hi, Nat2Z.id. cbn [negb].
    destruct (lookup_lt_is_Some_2 h (S p)) as [l Hl]; [lia|]. rewrite Hl, (nth_lookup_Some h (S p) [] l Hl).
    apply runs_bind. unfold modify at 1, runs at 1. apply runs_bind. apply load_runs; [by eapply Forall_lookup_1|]. intros b Hb. apply draw_runs. intros o.
    apply shows_emit, shows_load; [by eapply Forall_lookup_1 | done | done |]. cbn. split_and!; try done; lia.
Qed.

(** Keys that move the cursor within the text. *)
Lemma shows_move h s e c : shows h s e -> (c <= length (e_text e))%nat ->
  shows h (set_line (r_buf s) (r_len s) (Z.of_nat c) s) (mkEd (e_text e) c (e_saved e) (e_pos e)).
Proof. intros [] Hc. by split. Qed.

Lemma shows_edit h s e b t c : shows h s e -> Console.line_in b t -> short t -> (c <= length t)%nat ->
  shows h (set_line b (Z.of_nat (length t)) (Z.of_nat c) s) (mkEd t c (e_saved e) (e_pos e)).
Proof. intros [] Hb Ht Hc. by split. Qed.

Lemma key_runs pr h k s e : Forall short h -> shows h s e -> runs (rl_key pr k) s (fun _ s' => shows h s' (ed_key h k e)).
Proof.
  intros Hh Hs. destruct k as [| | | | | | | | | |x0|]; [destruct e; exact Hs | | | | | | | | by apply down_runs | | | destruct e; exact Hs];
    pose proof Hs as [T L C I Sh Hi Sv]; destruct e as [t c sv p]; cbn [e_text e_cur e_saved e_pos ed_key] in *; unfold rl_key; apply runs_bind; unfold get at 1, runs at 1; unfold short in Sh.
  - rewrite C. destruct c as [|c]; [by apply runs_ret|]. rewrite (proj2 (Z.ltb_lt _ _)) by lia. replace (Z.of_nat (S c) - 1) with (Z.of_nat c) by lia.
    destruct (remove_runs h s _ c Hs) as (b & -> & Hb); [cbn; lia|]. cbn [e_text] in Hb. apply runs_bind. unfold modify at 1, runs at 1. apply draw_runs. intros o. apply shows_emit.
    pose proof (length_removed t c ltac:(lia)) as Hl. replace (r_len s - 1) with (Z.of_nat (length (take c t ++ drop (S c) t))) by lia.
    apply (shows_edit h s _ b _ c Hs Hb); unfold short; lia.
  - apply runs_bind, draw_runs. intros o. unfold runs, modify. apply (shows_move h (emit o s) _ 0 (shows_emit _ _ _ _ Hs)). lia.
  - apply runs_bind, draw_runs. intros o. unfold runs, modify. rewrite L at 2. apply (shows_move h (emit o s) _ (length t) (shows_emit _ _ _ _ Hs)). done.
  - apply runs_bind. unfold modify at 1, runs at 1. apply draw_runs. intros o. apply shows_emit. rewrite C. replace (Z.of_nat c) with (Z.of_nat (length (take c t))) at 1 by (rewrite length_take; lia).
    apply (shows_edit h s _ _ (take c t) c Hs); [by apply Console.line_in_take | unfold short; rewrite length_take; lia | rewrite length_take; lia].
  - rewrite C. destruct c as [|c]; [by apply runs_ret|]. rewrite (proj2 (Z.ltb_lt _ _)) by lia. apply runs_bind. unfold modify at 1, runs at 1. apply draw_runs. intros o. apply shows_emit.
    replace (Z.of_nat (S c) - 1) with (Z.of_nat c) by lia. apply (shows_move h s _ c Hs). cbn. lia.
  - rewrite C, L. destruct (Nat.ltb_spec c (length t)); [rewrite (proj2 (Z.ltb_lt _ _)) by lia | rewrite (proj2 (Z.ltb_ge _ _)) by lia; by apply runs_ret].
    apply runs_bind. unfold modify at 1, runs at 1. apply draw_runs. intros o. apply shows_emit. rewrite <- L. replace (Z.of_nat c + 1) with (Z.of_nat (S c)) by lia. apply (shows_move h s _ (S c) Hs). cbn. lia.
  - destruct sv as [x|].
    + rewrite (proj1 Sv). apply runs_bind, runs_ret. pose proof (up_runs pr h s _ x p Hh Hs eq_refl eq_refl) as H. by destruct p.
    + rewrite Sv, L, in_array_true by lia. apply runs_bind, runs_bind. unfold modify at 1, runs at 1. unfold modify at 1, runs at 1. rewrite Hi.
      set (s1 := set_browse _ _ _). assert (H1 : shows h s1 (mkEd t c (Some t) (length h))).
      { split; try done. cbn. rewrite bytes_of_line by done. split_and!; try done. apply wr_list_line. }
      pose proof (up_runs pr h s1 _ t (length h) Hh H1 eq_refl eq_refl) as H. by destruct (length h).
  - rewrite C, L. destruct (decide (c < length t)%nat) as [Hc|Hc]; cycle 1.
    { rewrite (proj2 (Z.ltb_ge _ _)) by lia. apply runs_ret. rewrite take_ge, drop_ge, app_nil_r by lia. done. }
    rewrite (proj2 (Z.ltb_lt _ _)) by lia. destruct (remove_runs h s _ c Hs Hc) as (b & -> & Hb). cbn [e_text] in Hb. apply runs_bind. unfold modify at 1, runs at 1. apply draw_runs. intros o. apply shows_emit.
    pose proof (length_removed t c Hc) as Hl. replace (Z.of_nat (length t) - 1) with (Z.of_nat (length (take c t ++ drop (S c) t))) by lia. apply (shows_edit h s _ b _ c Hs Hb); unfold short; lia.
  - rewrite C, L. unfold RL_MAX. destruct (Nat.ltb_spec (length t) 255) as [Hl|Hl]; [rewrite (proj2 (Z.ltb_lt _ _)) by lia | rewrite (proj2 (Z.ltb_ge _ _)) by lia; by apply runs_ret].
    rewrite in_array_true by lia. apply runs_bind. unfold modify at 1, runs at 1. apply draw_runs. intros o. apply shows_emit.
    pose proof (open_gap_line (r_buf s) t c x0 T I) as Hb. assert (Hn : length (take c t ++ x0 :: drop c t) = S (length t)) by (rewrite length_app; cbn [length]; rewrite length_take, length_drop; lia).
    replace (Z.of_nat (length t) + 1) with (Z.of_nat (length (take c t ++ x0 :: drop c t))) by lia. replace (Z.of_nat c + 1) with (Z.of_nat (S c)) by lia.
    split; cbn; try done; try lia. unfold short. lia.
Qed.

Lemma loop_runs pr h keys rest : Forall short h -> forall fuel i s e, shows h s e -> keys_of fuel i = Some (keys, rest) ->
  runs (rl_loop pr fuel i) s (fun r s' =>
    let l := e_text (foldl (fun e k => ed_key h k e) e keys) in r = (l, rest) /\ short l /\ r_hist s' = hist_add l h).
Proof.
  intros Hh fuel. revert keys. induction fuel as [|fuel IH]; intros keys i s e Hs Hk; [done|]. cbn [rl_loop keys_of] in *.
  destruct (next_key i) as [[k i']|]; [|done].
  assert (Go : forall k, (fun r => (k :: r.1, r.2)) <$> keys_of fuel i' = Some (keys, rest) ->
    runs (let* _ := rl_key pr k in rl_loop pr fuel i') s (fun r s' =>
      let l := e_text (foldl (fun e k => ed_key h k e) e keys) in r = (l, rest) /\ short l /\ r_hist s' = hist_add l h)).
  { intros k0 Hk0. apply fmap_Some in Hk0 as ([ks r] & E & [= -> ->]). apply runs_bind. eapply runs_mono; [by apply key_runs|]. intros [] s1 H1. by apply (IH ks i'). }
  destruct k; try (by apply Go). injection Hk as <- <-. pose proof Hs as [T L C I Sh Hi Sv]. apply runs_bind. unfold get at 1, runs at 1.
  unfold short in Sh. rewrite L, in_array_true, bytes_of_line by (done || lia). apply runs_bind. unfold modify at 1, runs at 1. apply runs_ret. cbn. by rewrite Hi.
Qed.


End Readline.
