(* ===== verification/Shell.v ===== *)
(** * The shell: words and commands (src/bin/nsh/nsh.c)

    Keywords, [$] expansion, parsing, the programs a command starts and
    [exec1].  Strings are lists of bytes.  What the shell changes of its own
    process (environment, working directory, last status) and what it writes
    are the record [sh]; other processes are reached through the class
    [Kernel]: creating a process with the list of steps the child takes up to
    [execv] or [exit], and waiting for it. *)
From Stdlib Require String Ascii.
Import String.StringSyntax.
From S2P Require Import Prelude Bytes Proc Env Path Vfs Files Libc.

Module Shell.
Import Proc Vfs Libc.

Abbreviation MAX_ARGS := 32%nat.
Abbreviation MAX_STAGES := 8%nat.
Definition SB_LINE : nat := 256.

(** ** Words *)

(** The copy loop of at most [n] characters that satisfy [p]: those, and the rest. *)
Fixpoint scan (p : Z -> bool) (n : nat) (t : list Z) : list Z * list Z :=
  match n, t with
  | S n, c :: t' => if p c then let '(a, r) := scan p n t' in (c :: a, r) else ([], t)
  | _, _ => ([], t)
  end.

Definition is_blank (c : Z) : bool := (c =? 32) || (c =? 9).

Fixpoint skip (p : Z -> bool) (s : list Z) : list Z :=
  match s with
  | c :: s' => if p c then skip p s' else s
  | [] => []
  end.
Definition trim (s : list Z) : list Z := skip is_blank s.
Definition skip_spaces (s : list Z) : list Z := skip (fun c => c =? 32) s.

(** What ends a keyword: the end of the string, a blank or a semicolon. *)
Definition ends_kw (c : Z) : bool := (c =? 0) || is_blank c || (c =? 59).

Definition is_kw (line kw : list Z) : bool :=
  let t := trim line in (strncmp (length kw) t kw =? 0) && ends_kw (nth (length kw) t 0).

Abbreviation rtrim s := (reverse (trim (reverse s))).

Definition after_kw (line kw : list Z) (outsz : nat) : list Z :=
  rtrim (scan (fun c => negb (c =? 59)) (outsz - 1) (trim (drop (length kw) (trim line)))).1.

(** ** Starting programs *)

(** The directories of a path list, each cut to the 128-byte buffer. *)
Fixpoint path_dirs (fuel : nat) (p : list Z) : list (list Z) :=
  match fuel, p with
  | S fuel, _ :: _ =>
      let '(dir, p) := scan (fun c => negb (c =? 58)) 127 p in
      let p := match p with c :: p' => if c =? 58 then p' else p | [] => [] end in
      match dir with [] => path_dirs fuel p | _ => dir :: path_dirs fuel p end
  | _, _ => []
  end.

(** The steps of a new process, up to the first [execv] that succeeds.  Opening a file
    onto a descriptor ends the process with status 1 and a message when it fails. *)
Inductive act :=
| OpenTo (path : list Z) (flags fd : Z) (msg : list Z)
| PipeTo (k : nat) (w : bool) (fd : Z)
| ClosePipes
| Execv (path : list Z) (argv : list (list Z))
| Message (msg : list Z)
| ExitWith (code : Z).

(** The calls of [execv] in order. *)
Definition exec_search (path : option (list Z)) (argv : list (list Z)) : list act :=
  let a0 := hd [] argv in
  Execv a0 argv ::
  if existsb (fun c => c =? SLASH) a0 then []
  else
    Execv (print_to 256 (cs "%s.elf") [AStr (Some a0)]) argv ::
    match path with
    | None => []
    | Some p =>
        mjoin ((fun d => [Execv (print_to 256 (cs "%s/%s") [AStr (Some d); AStr (Some a0)]) argv;
                          Execv (print_to 256 (cs "%s/%s.elf") [AStr (Some d); AStr (Some a0)]) argv]) <$> path_dirs (length p) p)
    end.

(** ** Parsing a command *)

Record command := mkCmd { c_argv : list (list Z); c_in : option (list Z); c_out : option (list Z); c_app : bool }.

(** A word and what follows the space after it. *)
Definition word (p : list Z) : list Z * list Z :=
  let '(w, p) := scan (fun c => negb (c =? 32)) (length p) p in (w, drop 1 p).

Fixpoint parse_loop (fuel : nat) (p : list Z) (c : command) : command :=
  match fuel with
  | O => c
  | S fuel =>
      if (length (c_argv c) <? MAX_ARGS - 1)%nat then
        match skip_spaces p with
        | [] => c
        | p =>
            let '(tok, p) := word p in
            if strcmp tok (cs "<") =? 0 then
              let '(f, p) := word (skip_spaces p) in parse_loop fuel p (mkCmd (c_argv c) (Some f) (c_out c) (c_app c))
            else if (strcmp tok (cs ">") =? 0) || (strcmp tok (cs ">>") =? 0) then
              let '(f, p) := word (skip_spaces p) in parse_loop fuel p (mkCmd (c_argv c) (c_in c) (Some f) (nth 1 tok 0 =? 62))
            else parse_loop fuel p (mkCmd (c_argv c ++ [tok]) (c_in c) (c_out c) (c_app c))
        end
      else c
  end.

Definition parse (line : list Z) : command := parse_loop (S (length line)) line (mkCmd [] None None false).

(** The texts between bars, at most [n + 1] of them. *)
Fixpoint stages (n : nat) (cur s : list Z) : list (list Z) :=
  match s with
  | [] => [cur]
  | c :: s =>
      if (c =? 124) && (0 <? n)%nat then cur :: stages (n - 1) [] s
      else stages n (cur ++ [c]) s
  end.

(** ** The shell's process *)

(** What the shell needs of the system: changing directory (the new one, or failure),
    starting a process, waiting for one (its status and what it wrote to the shell's
    output), the foreground process and the clock. *)
Class Kernel (W : Type) := {
  k_chdir : list Z -> list Z -> W -> option (list Z);
  k_fork : list act -> list (list Z) -> list Z -> W -> Z * W;
  k_wait : Z -> W -> Z * list Z * W;
  k_setfg : Z -> W -> W;
  k_uptime : W -> Z }.

Section Commands.
Context {W : Type} `{K : Kernel W}.

(** [s_in] is what will be typed, [s_hist] the history of the line editor. *)
Record sh := mkSh { s_last : Z; s_env : list (list Z); s_envc : Z; s_cwd : list Z; s_out : list Z; s_in : list Z; s_hist : list (list Z); s_world : W }.

Definition set_last (z : Z) (s : sh) : sh := mkSh z (s_env s) (s_envc s) (s_cwd s) (s_out s) (s_in s) (s_hist s) (s_world s).
Definition set_environ (e : list (list Z)) (n : Z) (s : sh) : sh := mkSh (s_last s) e n (s_cwd s) (s_out s) (s_in s) (s_hist s) (s_world s).
Definition set_cwd (d : list Z) (s : sh) : sh := mkSh (s_last s) (s_env s) (s_envc s) d (s_out s) (s_in s) (s_hist s) (s_world s).
Definition set_out (o : list Z) (s : sh) : sh := mkSh (s_last s) (s_env s) (s_envc s) (s_cwd s) o (s_in s) (s_hist s) (s_world s).
Definition set_typed (i : list Z) (h : list (list Z)) (s : sh) : sh := mkSh (s_last s) (s_env s) (s_envc s) (s_cwd s) (s_out s) i h (s_world s).
Definition set_world (w : W) (s : sh) : sh := mkSh (s_last s) (s_env s) (s_envc s) (s_cwd s) (s_out s) (s_in s) (s_hist s) w.

Abbreviation MSh := (M sh).

(** A command returns a status or ends the shell. *)
Inductive outcome := Ret (st : Z) | Quit (code : Z).

Definition say (t : list Z) : MSh unit := modify (fun s => set_out (s_out s ++ t) s).

Definition lookup_env (k : list Z) (s : sh) : option (list Z) :=
  match Env.getenv k 1 160 (s_env s) (s_envc s) with
  | (r, Some (t, _)) => if 0 <=? r then Some t else None
  | _ => None
  end.
Definition getenv (k : list Z) : MSh (option (list Z)) := let* s := get in ret (lookup_env k s).
Definition setenv (k v : list Z) (overwrite : bool) : MSh unit :=
  let* old := getenv k in
  if negb overwrite && bool_decide (is_Some old) then ret tt
  else modify (fun s => let '(_, e, n) := Env.setenv k v (s_env s) (s_envc s) in set_environ e n s).
Definition unsetenv (k : list Z) : MSh unit :=
  modify (fun s => let '(_, e, n) := Env.unsetenv k (s_env s) (s_envc s) in set_environ e n s).

Definition fork (child : list act) : MSh Z := fun s =>
  let '(pid, w) := k_fork child (s_env s) (s_cwd s) (s_world s) in Some (pid, set_world w s).
Definition waitpid (pid : Z) : MSh Z := fun s =>
  let '(st, o, w) := k_wait pid (s_world s) in Some (st, set_out (s_out s ++ o) (set_world w s)).
Definition setfg (pid : Z) : MSh unit := modify (fun s => set_world (k_setfg pid (s_world s)) s).

Definition O_RDONLY : Z := 0.
Definition O_WRONLY : Z := 1.

Definition run_one_cmd (argv : list (list Z)) (inf outf : option (list Z)) (app bg : bool) : MSh Z :=
  let* path := getenv (cs "PATH") in
  let child :=
    (match inf with Some f => [OpenTo f O_RDONLY 0 (print_to 1024 (cs "nsh: cannot open %s" ++ [10]) [AStr (Some f)])] | None => [] end) ++
    (match outf with
     | Some f => [OpenTo f (Z.lor O_WRONLY (Z.lor Files.O_CREAT (if app then 0 else Files.O_TRUNC))) 1
                    (print_to 1024 (cs "nsh: cannot create %s" ++ [10]) [AStr (Some f)])]
     | None => []
     end) ++
    exec_search path argv ++
    [Message (print_to 1024 (cs "%s: command not found" ++ [10]) [AStr (Some (hd [] argv))]); ExitWith 127] in
  let* pid := fork child in
  if bg then do* say (print_to 1024 (cs "[1] %ld" ++ [10]) [AInt pid]) in ret 0
  else
    do* setfg pid in
    let* st := waitpid pid in
    do* setfg 0 in
    ret st.

(** Stage [i] of [n]: the redirections [parse] found are not used. *)
Definition stage_steps (path : option (list Z)) (n i : nat) (argv : list (list Z)) : list act :=
  (if (0 <? i)%nat then [PipeTo (i - 1) false 0] else []) ++
  (if (i <? n - 1)%nat then [PipeTo i true 1] else []) ++
  [ClosePipes] ++
  (match argv with
   | [] => []
   | a0 :: _ => exec_search path argv ++ [Message (print_to 1024 (cs "%s: not found" ++ [10]) [AStr (Some a0)])]
   end) ++
  [ExitWith 127].

Fixpoint fork_all (jobs : list (list act)) : MSh (list Z) :=
  match jobs with
  | [] => ret []
  | j :: jobs => let* pid := fork j in let* pids := fork_all jobs in ret (pid :: pids)
  end.

Fixpoint wait_all (pids : list Z) (st : Z) : MSh Z :=
  match pids with
  | [] => ret st
  | pid :: pids => let* st := waitpid pid in wait_all pids st
  end.

Definition run_pipeline (line : list Z) : MSh Z :=
  let ss := stages (MAX_STAGES - 1) [] line in
  let* path := getenv (cs "PATH") in
  let* pids := fork_all (imap (stage_steps path (length ss)) ((fun t => c_argv (parse t)) <$> ss)) in
  do* setfg (hd 0 pids) in
  let* st := wait_all pids 0 in
  do* setfg 0 in
  ret st.

(** ** [$] expansion *)

Definition is_name (c : Z) : bool := (c =? 95) || isalpha c || isdigit c.

(** The text of a substitution up to its closing parenthesis, at most [n] bytes, and what
    follows. *)
Fixpoint sub_text (n depth : nat) (s : list Z) : list Z * list Z :=
  match n, s with
  | S n, c :: s' =>
      if c =? 40 then let '(a, r) := sub_text n (S depth) s' in (c :: a, r)
      else if c =? 41 then
        match depth with
        | S (S d) => let '(a, r) := sub_text n (S d) s' in (c :: a, r)
        | _ => ([], s')
        end
      else let '(a, r) := sub_text n depth s' in (c :: a, r)
  | _, _ => ([], s)
  end.

(** Appending while there is room for a terminator. *)
Definition add (outsz : nat) (o t : list Z) : list Z := o ++ take (outsz - 1 - length o) t.

(** The captured output: line ends become blanks and the last blanks are dropped. *)
Definition captured (out : list Z) : list Z :=
  reverse (skip_spaces (reverse ((fun c => if (c =? 10) || (c =? 13) then 32 else c) <$> take (SB_LINE - 1) out))).

(** [sub] runs the command of a substitution and gives its output. *)
Fixpoint expand_loop (sub : list Z -> MSh (list Z)) (fuel : nat) (i o : list Z) (outsz : nat) : MSh (list Z) :=
  match fuel, i with
  | S fuel, c :: i' =>
      if (length o <? outsz - 1)%nat then
        if (c =? 36) && (nth 0 i' 0 =? 40) then
          let '(cmd, r) := sub_text (SB_LINE - 1) 1 (drop 1 i') in
          let* out := sub cmd in
          expand_loop sub fuel r (add outsz o (captured out)) outsz
        else if (c =? 36) && negb (nth 0 i' 0 =? 0) then
          let '(vn, r) := scan is_name 31 i' in
          let* val := (match vn with [] => ret None | _ => getenv vn end) in
          expand_loop sub fuel r (add outsz o (default [] val)) outsz
        else expand_loop sub fuel i' (o ++ [c]) outsz
      else ret o
  | _, _ => ret o
  end.
Definition expand_vars (sub : list Z -> MSh (list Z)) (i : list Z) (outsz : nat) : MSh (list Z) := expand_loop sub (length i) i [] outsz.

(** The child of a substitution: a copy of the shell whose output is the pipe.  Its own
    environment, directory and status go with it. *)
Definition capture (child : MSh outcome) : MSh (list Z) := fun s =>
  match child (set_out [] s) with
  | Some (_, s') => Some (s_out s', set_world (s_world s') s)
  | None => None
  end.

(** ** [exec1] *)

Fixpoint export_all (args : list (list Z)) : MSh unit :=
  match args with
  | [] => ret tt
  | a :: args =>
      let '(key, r) := scan (fun c => negb (c =? 61)) 31 a in
      do* setenv key (match r with c :: v => if c =? 61 then v else [] | [] => [] end) true in
      export_all args
  end.
Fixpoint unset_all (args : list (list Z)) : MSh unit :=
  match args with [] => ret tt | a :: args => do* unsetenv a in unset_all args end.

(** Each entry with a line end, as [getenv_at] copies it. *)
Abbreviation env_text s := (mjoin ((fun e => take 159 (cstr e) ++ [10]) <$> take (Z.to_nat (s_envc s)) (s_env s))).

(** A parsed command: builtins, then programs. *)
Definition run_command (c : command) (bg : bool) : MSh outcome :=
  let av := c_argv c in
  let named (n : list Z) := strcmp (hd [] av) n =? 0 in
  if named (cs "exit") then ret (Quit (match av with _ :: a :: _ => atoi a | _ => 0 end))
  else if named (cs "cd") then
    fun s => match k_chdir (s_cwd s) (match av with _ :: d :: _ => d | _ => cs "/" end) (s_world s) with
             | Some d => Some (Ret 0, set_cwd d s)
             | None => Some (Ret 1, s)
             end
  else if named (cs "pwd") then
    let* s := get in
    do* say (default [] (Path.getcwd (s_cwd s) 1 128).2) in do* say [10] in ret (Ret 0)
  else if named (cs "export") then do* export_all (tail av) in ret (Ret 0)
  else if named (cs "unset") then do* unset_all (tail av) in ret (Ret 0)
  else if named (cs "env") then let* s := get in do* say (env_text s) in ret (Ret 0)
  else if named (cs "true") then ret (Ret 0)
  else if named (cs "false") then ret (Ret 1)
  else if named (cs "time") then
    if (length av <? 2)%nat then ret (Ret 0)
    else
      let* s := get in
      let t0 := k_uptime (s_world s) in
      let* st := run_one_cmd (tail av) (c_in c) (c_out c) (c_app c) false in
      let* s := get in
      do* say (print_to 1024 (cs "real" ++ [9] ++ cs "%lums" ++ [10]) [AInt (k_uptime (s_world s) - t0)]) in
      ret (Ret st)
  else let* st := run_one_cmd av (c_in c) (c_out c) (c_app c) bg in ret (Ret st).

Fixpoint exec1_fuel (fuel : nat) (raw : list Z) : MSh outcome :=
  match fuel with
  | O => fun _ => None
  | S fuel =>
      match raw with
      | [] => ret (Ret 0)
      | _ =>
          let* exp := expand_vars (fun cmd => capture (exec1_fuel fuel cmd)) raw SB_LINE in
          let t := trim exp in
          match t with
          | [] => ret (Ret 0)
          | c :: _ =>
              if c =? 35 then ret (Ret 0)
              else if existsb (fun c => c =? 124) t then let* st := run_pipeline exp in ret (Ret st)
              else
                let c := parse t in
                match c_argv c with
                | [] => ret (Ret 0)
                | av =>
                    let bg := strcmp (List.last av []) (cs "&") =? 0 in
                    let av := if bg then removelast av else av in
                    match av with
                    | [] => ret (Ret 0)
                    | _ => run_command (mkCmd av (c_in c) (c_out c) (c_app c)) bg
                    end
                end
          end
      end
  end.

(** A substitution's text is shorter than the command it is in. *)
Definition exec1 (raw : list Z) : MSh outcome := exec1_fuel (S (length raw)) raw.

(** ** Every command returns *)

Definition total {A} (m : MSh A) : Prop := forall s, is_Some (m s).

Lemma total_ret {A} (a : A) : total (ret a).
Proof. intros s. by eexists. Qed.
Lemma total_bind {A B} (m : MSh A) (k : A -> MSh B) : total m -> (forall a, total (k a)) -> total (bind m k).
Proof. intros Hm Hk s. unfold bind. destruct (Hm s) as [[a s'] ->]. apply Hk. Qed.
Lemma total_get {A} (k : sh -> MSh A) : (forall s, total (k s)) -> total (bind get k).
Proof. intros H s. apply H. Qed.
Lemma total_modify f : total (modify f).
Proof. intros s. by eexists. Qed.
Lemma total_fork c : total (fork c).
Proof. intros s. unfold fork. destruct (k_fork _ _ _ _). by eexists. Qed.
Lemma total_waitpid p : total (waitpid p).
Proof. intros s. unfold waitpid. destruct (k_wait _ _) as [[? ?] ?]. by eexists. Qed.
Lemma total_cd d : total (fun s => match k_chdir (s_cwd s) d (s_world s) with Some d => Some (Ret 0, set_cwd d s) | None => Some (Ret 1, s) end).
Proof. intros s. destruct (k_chdir _ _ _); by eexists. Qed.

Ltac total_step :=
  lazymatch goal with
  | |- total (ret _) => apply total_ret
  | |- total (bind get _) => apply total_get; intro
  | |- total (bind _ _) => apply total_bind; [|intro]
  | |- total (modify _) => apply total_modify
  | |- total (say _) => apply total_modify
  | |- total (setfg _) => apply total_modify
  | |- total (unsetenv _) => apply total_modify
  | |- total (fork _) => apply total_fork
  | |- total (waitpid _) => apply total_waitpid
  | |- total (getenv _) => unfold getenv
  | |- total (setenv _ _ _) => unfold setenv
  | |- total (match ?x with _ => _ end) => destruct x
  | |- total (if ?x then _ else _) => destruct x
  end.

Lemma total_run_one_cmd argv i o a b : total (run_one_cmd argv i o a b).
Proof. unfold run_one_cmd. repeat total_step. Qed.

Lemma total_run_pipeline l : total (run_pipeline l).
Proof.
  assert (F : forall js, total (fork_all js)) by (induction js; cbn [fork_all]; repeat (assumption || total_step)).
  assert (G : forall ps st, total (wait_all ps st)) by (induction ps; intros; cbn [wait_all]; repeat (done || total_step)).
  unfold run_pipeline. repeat (apply F || apply G || total_step).
Qed.

Lemma total_run_command c bg : total (run_command c bg).
Proof.
  assert (F : forall args, total (export_all args)).
  { induction args as [|a args IH]; cbn [export_all]; [apply total_ret|]. destruct (scan _ 31 a). repeat (assumption || total_step). }
  assert (G : forall args, total (unset_all args)) by (induction args; cbn [unset_all]; repeat (assumption || total_step)).
  unfold run_command. repeat (apply F || apply G || apply total_cd || apply total_run_one_cmd || total_step).
Qed.

(** What a scan takes and leaves is what it was given. *)
Lemma scan_app p n : forall t, (scan p n t).1 ++ (scan p n t).2 = t.
Proof.
  induction n as [|n IH]; intros [|c t]; cbn [scan]; try done. specialize (IH t). destruct (p c); [|done]. destruct (scan p n t) as [a r]. cbn in *. by rewrite IH.
Qed.

Lemma sub_text_shorter n : forall d s, (length (sub_text n d s).1 + length (sub_text n d s).2 <= length s)%nat.
Proof.
  induction n as [|n IH]; intros d [|c s]; cbn [sub_text]; try (cbn; lia). pose proof (IH (S d) s). pose proof (IH d s).
  destruct (c =? 40); [destruct (sub_text n (S d) s); cbn in *; lia|].
  destruct (c =? 41); [|destruct (sub_text n d s); cbn in *; lia].
  destruct d as [|[|d]]; [cbn; lia | cbn; lia |]. pose proof (IH (S d) s). destruct (sub_text n (S d) s). cbn in *. lia.
Qed.

Lemma total_expand sub n outsz : (forall cmd, (length cmd < n)%nat -> total (sub cmd)) ->
  forall fuel i o, (length i <= n)%nat -> total (expand_loop sub fuel i o outsz).
Proof.
  intros Hs. induction fuel as [|fuel IH]; intros i o Hi; [apply total_ret|]. cbn [expand_loop]. destruct i as [|c i]; [apply total_ret|]. cbn [length] in Hi.
  destruct (_ <? _)%nat; [|apply total_ret]. destruct ((c =? 36) && (nth 0 i 0 =? 40)).
  - pose proof (sub_text_shorter (SB_LINE - 1) 1 (drop 1 i)) as H. rewrite length_drop in H. destruct (sub_text _ _ _) as [cmd r]. cbn [fst snd] in H.
    apply total_bind; [apply Hs; lia | intros out; apply IH; lia].
  - destruct (_ && _); [|apply IH; lia]. pose proof (scan_app is_name 31 i) as H. destruct (scan is_name 31 i) as [vn r]. apply (f_equal length) in H. rewrite length_app in H. cbn [fst snd] in H.
    apply total_bind; [repeat total_step | intros v; apply IH; lia].
Qed.

Lemma total_exec1_fuel fuel : forall raw, (length raw < fuel)%nat -> total (exec1_fuel fuel raw).
Proof.
  induction fuel as [|fuel IH]; intros raw Hf; [lia|]. cbn [exec1_fuel]. destruct raw as [|c raw]; [apply total_ret|].
  apply total_bind.
  - apply (total_expand _ (length (c :: raw))); [|done]. intros cmd Hc s. unfold capture. destruct (IH cmd ltac:(lia) (set_out [] s)) as [[r s'] ->]. by eexists.
  - intros exp. repeat (apply total_run_pipeline || apply total_run_command || total_step).
Qed.

End Commands.
#[global] Arguments sh W : clear implicits.
#[global] Arguments outcome : clear implicits.
End Shell.
