(* ===== verification/Script.v ===== *)
(** * The shell: scripts and control flow (src/bin/nsh/nsh.c)

    The line buffer [sb], [exec_block], the reading of lines and [main].  The
    buffer is an argument: commands do not touch it, and the line [elif]
    replaces is put back.  The reference is a structured language of commands,
    [if], [while] and [for]; [exec_block] on the lines of a program is proved
    to run the program, for every fuel, so also to diverge when it does. *)
From Stdlib Require String Ascii.
Import String.StringSyntax.
From S2P Require Import Prelude Bytes Proc Env Path Vfs Libc Readline Shell.

Module Script.
Import Proc Vfs Libc Shell.

Definition SB_MAX : nat := 512.

(** ** The line buffer *)

Abbreviation rows := (list (list Z)).

Definition row (sb : rows) (i : nat) : list Z := cstr (nth i sb []).

(** The copy loop stores no terminator, except in the last byte. *)
Definition store_row (got old : list Z) : list Z := <[(SB_LINE - 1)%nat := 0]> (splice 0 (take SB_LINE got) old).
Definition put_row (n : nat) (got : list Z) (sb : rows) : option rows :=
  if (n <? SB_MAX)%nat then Some (<[n := store_row got (nth n sb [])]> sb) else None.

Definition empty_sb : rows := replicate SB_MAX (replicate SB_LINE 0).

(** ** Searches *)

Fixpoint find_close (opens closes : list Z -> bool) (sb : rows) (n i depth : nat) : nat :=
  match n with
  | O => i
  | S n =>
      if opens (row sb i) then find_close opens closes sb n (S i) (S depth)
      else if closes (row sb i) then
        match depth with O => i | S d => find_close opens closes sb n (S i) d end
      else find_close opens closes sb n (S i) depth
  end.

(** Both loops return [end] when they do not find the line. *)
Definition find_end (sb : rows) (from end_ : nat) (open_kw close_kw : list Z) : nat :=
  if (from <? end_)%nat then find_close (fun l => is_kw l open_kw) (fun l => is_kw l close_kw) sb (end_ - from) from 0 else end_.

Definition opens_loop (l : list Z) : bool := is_kw l (cs "while") || is_kw l (cs "for").
Definition find_done (sb : rows) (from end_ : nat) : nat :=
  if (from <? end_)%nat then find_close opens_loop (fun l => is_kw l (cs "done")) sb (end_ - from) from 0 else end_.

(** [while (k < to && !is_kw(sb[k], kw)) k++] *)
Fixpoint find_kw (sb : rows) (kw : list Z) (n k : nat) : nat :=
  match n with O => k | S n => if is_kw (row sb k) kw then k else find_kw sb kw n (S k) end.

Definition starts_else (l : list Z) : bool := is_kw l (cs "else") || is_kw l (cs "elif").
Fixpoint find_else (sb : rows) (n j : nat) (d : Z) : option nat :=
  match n with
  | O => None
  | S n =>
      if is_kw (row sb j) (cs "if") then find_else sb n (S j) (d + 1)
      else if is_kw (row sb j) (cs "fi") then find_else sb n (S j) (d - 1)
      else if (d =? 0) && starts_else (row sb j) then Some j
      else find_else sb n (S j) d
  end.

(** ** The header of [for] *)

Fixpoint for_words (fuel n : nat) (t : list Z) : list (list Z) :=
  match fuel, n with
  | S fuel, S n' =>
      match skip_spaces t with
      | [] => []
      | c :: _ =>
          if c =? 59 then []
          else
            let '(w, t) := scan (fun c => negb (c =? 32) && negb (c =? 59)) 63 (skip_spaces t) in
            match w with [] => for_words fuel n t | _ => w :: for_words fuel n' t end
      end
  | _, _ => []
  end.

Definition for_header (l : list Z) : list Z * list (list Z) :=
  let '(var, t) := scan (fun c => negb (c =? 32)) 31 (skip_spaces (drop 3 (trim l))) in
  let t := skip_spaces t in
  let t := if strncmp 2 t (cs "in") =? 0 then drop 2 t else t in
  let t := skip_spaces t in
  (var, for_words (S (length t)) 32 t).

Section Blocks.
Context {W : Type} `{K : Kernel W}.
Abbreviation MSh := (M (sh W)).

(** Going on with the status, unless the shell ends. *)
Definition andthen (m : MSh outcome) (k : Z -> MSh outcome) : MSh outcome :=
  let* r := m in match r with Ret z => k z | Quit c => ret (Quit c) end.

Definition last_status : MSh outcome := let* s := get in ret (Ret (s_last s)).

Fixpoint while_loop (fuel : nat) (test body : MSh outcome) (k : MSh outcome) : MSh outcome :=
  match fuel with
  | O => fun _ => None
  | S fuel => andthen test (fun z => if z =? 0 then andthen body (fun _ => while_loop fuel test body k) else k)
  end.

Fixpoint for_loop (var : list Z) (vals : list (list Z)) (body : MSh outcome) (k : MSh outcome) : MSh outcome :=
  match vals with
  | [] => k
  | v :: vals => do* setenv var v true in andthen body (fun _ => for_loop var vals body k)
  end.

Definition control_kw (l : list Z) : bool :=
  is_kw l (cs "then") || is_kw l (cs "else") || is_kw l (cs "elif") || is_kw l (cs "fi") || is_kw l (cs "do") || is_kw l (cs "done").

(** The line that stands for [elif] while its branch runs. *)
Definition elif_row (l : list Z) : list Z := print_to (Z.of_nat SB_LINE) (cs "if %s") [AStr (Some (drop 4 (trim l)))].

Fixpoint exec_block (fuel : nat) (sb : rows) (i to : nat) : MSh outcome :=
  match fuel with
  | O => fun _ => None
  | S fuel =>
      if (to <=? i)%nat then last_status
      else
        let l := row sb i in
        let c := nth 0 (trim l) 0 in
        if (c =? 0) || (c =? 35) then exec_block fuel sb (S i) to
        else if is_kw l (cs "if") then
          let cond := after_kw l (cs "if") SB_LINE in
          let then_i := if is_kw l (cs "then") then S i else find_kw sb (cs "then") (to - S i) (S i) in
          let fi_i := find_end sb (S i) to (cs "if") (cs "fi") in
          let else_i := find_else sb (fi_i - S then_i) (S then_i) 0 in
          andthen (exec1 cond) (fun z =>
            let rest := exec_block fuel sb (S fi_i) to in
            if z =? 0 then andthen (exec_block fuel sb (S then_i) (default fi_i else_i)) (fun _ => rest)
            else match else_i with
                 | None => rest
                 | Some e =>
                     andthen (if is_kw (row sb e) (cs "elif") then exec_block fuel (<[e := elif_row (row sb e)]> sb) e (S fi_i)
                              else exec_block fuel sb (S e) fi_i) (fun _ => rest)
                 end)
        else if is_kw l (cs "while") then
          let cond := after_kw l (cs "while") SB_LINE in
          let do_i := find_kw sb (cs "do") (to - S i) (S i) in
          let done_i := find_done sb (S i) to in
          while_loop fuel (exec1 cond) (exec_block fuel sb (S do_i) done_i) (exec_block fuel sb (S done_i) to)
        else if is_kw l (cs "for") then
          let '(var, vals) := for_header l in
          let do_i := find_kw sb (cs "do") (to - S i) (S i) in
          let done_i := find_done sb (S i) to in
          for_loop var vals (exec_block fuel sb (S do_i) done_i) (exec_block fuel sb (S done_i) to)
        else if control_kw l then exec_block fuel sb (S i) to
        else andthen (exec1 l) (fun z => do* modify (set_last z) in exec_block fuel sb (S i) to)
  end.

(** ** Reading lines *)

(** The characters of a line of a script, at most [n], without carriage returns; [None]
    at the end of the file. *)
Fixpoint read_chars (n : nat) (f acc : list Z) : option (list Z * list Z) :=
  match f, n with
  | _, O => Some (acc, f)
  | [], S _ => match acc with [] => None | _ => Some (acc, []) end
  | c :: f', S n' => if c =? 10 then Some (acc, f') else if c =? 13 then read_chars n f' acc else read_chars n' f' (acc ++ [c])
  end.

Definition is_blank_line (l : list Z) : bool := match trim l with [] => true | _ => false end.

(** The next line of a script that is not blank, without its comment, and the rest. *)
Fixpoint next_line (fuel : nat) (f : list Z) : option (list Z * list Z) :=
  match fuel with
  | O => None
  | S fuel =>
      match read_chars (SB_LINE - 1) f [] with
      | None => None
      | Some (buf, f) =>
          let l := (scan (fun c => negb (c =? 35)) SB_LINE (cstr buf)).1 in
          if is_blank_line l then next_line fuel f else Some (l, f)
      end
  end.

(** At most [k] lines of the script stored from row [n] on. *)
Fixpoint load_script (k n : nat) (f : list Z) (sb : rows) : option (nat * rows) :=
  match k with
  | O => Some (n, sb)
  | S k =>
      match next_line (S (length f)) f with
      | None => Some (n, sb)
      | Some (l, f) => match put_row n l sb with Some sb => load_script k (S n) f sb | None => None end
      end
  end.

(** The next line typed that is not blank. *)
Fixpoint next_typed (fuel : nat) (prompt : list Z) : MSh (list Z) :=
  match fuel with
  | O => fun _ => None
  | S fuel => fun s =>
      match Readline.readline prompt (s_in s) (s_hist s) with
      | None => None
      | Some (l, i, h, o) =>
          let s := set_typed i h (set_out (s_out s ++ o) s) in
          let l := take (if (SB_LINE - 1 <=? length l)%nat then SB_LINE - 2 else length l) l in
          if is_blank_line l then next_typed fuel prompt s else Some (l, s)
      end
  end.

Definition opens_block (l : list Z) : bool := is_kw l (cs "if") || is_kw l (cs "while") || is_kw l (cs "for").

(** The lines typed after the first of a compound command; a row past the buffer has no
    meaning.  The number of rows filled and the buffer. *)
Fixpoint collect_loop (fuel : nat) (close_kw : list Z) (n depth : nat) (sb : rows) : MSh (nat * rows) :=
  match fuel with
  | O => fun _ => None
  | S fuel =>
      let* got := next_typed (S fuel) (cs "> ") in
      match put_row n got sb with
      | None => fun _ => None
      | Some sb =>
          let t := trim got in
          let depth := if opens_block t then S depth else depth in
          if is_kw t close_kw then
            match depth with O => ret (S n, sb) | S d => collect_loop fuel close_kw (S n) d sb end
          else collect_loop fuel close_kw (S n) depth sb
      end
  end.

Definition collect_block (fuel : nat) (first : list Z) (sb : rows) : MSh (nat * rows) :=
  match put_row 0 first sb with
  | Some sb => collect_loop fuel (if is_kw first (cs "if") then cs "fi" else cs "done") 1 0 sb
  | None => fun _ => None
  end.

(** ** [main] *)

Definition main_env : MSh unit :=
  do* setenv (cs "PATH") (cs "/") false in
  do* setenv (cs "HOME") (cs "/") false in
  setenv (cs "SHELL") (cs "nsh") false.

(** [nsh name]: [file] is what [open] finds; the message of a failure goes to the error
    output. *)
Definition main_script (fuel : nat) (file : option (list Z)) : MSh outcome :=
  do* main_env in
  match file with
  | None => ret (Ret 1)
  | Some f =>
      match load_script SB_MAX 0 f empty_sb with
      | Some (n, sb) => exec_block fuel sb 0 n
      | None => fun _ => None
      end
  end.

Definition help_text : list Z :=
  mjoin ((fun l => l ++ [10]) <$>
   [cs "builtins:  cd, pwd, exit, export, env, unset, time, true, false, help";
    cs "programs:  ls cat echo ps cp touch wc head tail grep sort seq";
    cs "           mkdir rm mv  (works with or without .elf)";
    cs "control:   if CMD; then ... [elif CMD; then ...] [else ...] fi";
    cs "           while CMD; do ... done";
    cs "           for VAR in v1 v2 ...; do ... done";
    cs "pipeline:  cmd1 | cmd2 | cmd3  (8 stages)";
    cs "redir:     > file   >> file   < file";
    cs "bg:        cmd &";
    cs "scripts:   nsh script.sh";
    cs "vars:      export KEY=val   env   unset KEY   $KEY"]).

Fixpoint prompt_loop (fuel : nat) (sb : rows) : MSh outcome :=
  match fuel with
  | O => fun _ => None
  | S fuel =>
      let* s := get in
      let* line := next_typed (S fuel) (print_to 160 (cs "nsh:%s$ ") [AStr (Path.getcwd (s_cwd s) 1 128).2]) in
      let t := trim line in
      if opens_block t then
        let* '(n, sb) := collect_block (S fuel) line sb in
        andthen (exec_block (S fuel) sb 0 n) (fun _ => prompt_loop fuel sb)
      else if strcmp t (cs "help") =? 0 then do* say help_text in prompt_loop fuel sb
      else andthen (exec1 line) (fun z => do* modify (set_last z) in prompt_loop fuel sb)
  end.

Definition main_interactive (fuel : nat) : MSh outcome :=
  do* main_env in
  do* say ([10] ++ cs "nsh " ++ [0xe2; 0x80; 0x94] ++ cs " Noxis shell.  type 'help' for info." ++ [10]) in
  prompt_loop fuel empty_sb.

(** ** Reference: structured programs *)

(** A program is a list of statements; an [if] ends in [fi], [else] or [elif]. *)
Inductive prog :=
| Done
| Cmd (l : list Z) (p : prog)
| If (c : list Z) (b : prog) (t : branch) (p : prog)
| While (c : list Z) (b p : prog)
| For (v : list Z) (ws : list (list Z)) (b p : prog)
with branch :=
| Fi
| Else (b : prog)
| Elif (c : list Z) (b : prog) (t : branch).

Fixpoint run (fuel : nat) (p : prog) : MSh outcome :=
  match fuel with
  | O => fun _ => None
  | S fuel =>
      match p with
      | Done => last_status
      | Cmd l p => andthen (exec1 l) (fun z => do* modify (set_last z) in run fuel p)
      | If c b t p =>
          andthen (exec1 c) (fun z =>
            if z =? 0 then andthen (run fuel b) (fun _ => run fuel p)
            else match t with
                 | Fi => run fuel p
                 | Else b => andthen (run fuel b) (fun _ => run fuel p)
                 | Elif c b t => andthen (run fuel (If c b t Done)) (fun _ => run fuel p)
                 end)
      | While c b p => while_loop fuel (exec1 c) (run fuel b) (run fuel p)
      | For v ws b p => for_loop v ws (run fuel b) (run fuel p)
      end
  end.

End Blocks.

(** ** Keywords *)

(** The first word of a line. *)
Definition token (l : list Z) : list Z := (scan (fun c => negb (ends_kw c)) (length (trim l)) (trim l)).1.

Definition kws : list (list Z) := [cs "if"; cs "then"; cs "else"; cs "elif"; cs "fi"; cs "while"; cs "for"; cs "do"; cs "done"].

Lemma kw_test kw : Forall (fun c => ends_kw c = false) kw -> forall t,
  (strncmp (length kw) t kw =? 0) && ends_kw (nth (length kw) t 0) = bool_decide ((scan (fun c => negb (ends_kw c)) (length t) t).1 = kw).
Proof.
  induction 1 as [|k kw Hk _ IH]; intros t.
  - destruct t as [|c t]; [done|]. cbn. destruct (ends_kw c); cbn; [done|]. by destruct (scan _ (length t) t).
  - assert (k <> 0) by (intros ->; done). destruct t as [|c t]; cbn [length strncmp scan].
    + unfold byte. change (Z.to_nat 0) with 0%nat. cbn [nth]. rewrite (proj2 (Z.eqb_neq 0 k)) by lia. cbn [negb]. by rewrite (proj2 (Z.eqb_neq _ _)) by lia.
    + unfold byte. change (Z.to_nat 0) with 0%nat. cbn [nth tail]. destruct (Z.eqb_spec c k) as [->|E]; cbn [negb].
      * rewrite (proj2 (Z.eqb_neq k 0)), Hk, IH by done. cbn [negb]. destruct (scan _ (length t) t) as [a r]. cbn. apply bool_decide_ext. split; [by intros -> | by intros [= ->]].
      * rewrite (proj2 (Z.eqb_neq _ _)) by lia. cbn [andb]. symmetry. apply bool_decide_false. destruct (ends_kw c); cbn; [done|]. destruct (scan _ (length t) t) as [a r]. cbn. by intros [= ? ?].
Qed.

Lemma is_kw_token l k : k ∈ kws -> is_kw l k = bool_decide (token l = k).
Proof.
  intros H. unfold is_kw, token. apply kw_test. assert (F : Forall (Forall (fun c => ends_kw c = false)) kws) by (repeat constructor).
  by eapply Forall_forall in F.
Qed.

Lemma token_head l c k : token l = c :: k -> nth 0 (trim l) 0 = c.
Proof. unfold token. destruct (trim l) as [|x t]; [done|]. cbn. destruct (ends_kw x); cbn; [done|]. destruct (scan _ (length t) t). cbn. by intros [= -> _]. Qed.

(** ** The lines of a program *)

Definition key (sb : rows) (i : nat) : list Z := token (row sb i).
Definition head_at (sb : rows) (i : nat) (kw c : list Z) : Prop := key sb i = kw /\ after_kw (row sb i) kw SB_LINE = c.
Definition plain (l : list Z) : Prop := (token l ∉ kws) /\ nth 0 (trim l) 0 <> 0 /\ nth 0 (trim l) 0 <> 35.

(** The rows [i .. j-1] hold a program; the rows from [m] to the [fi] at [k] the end of
    an [if]. *)
Inductive block_at (sb : rows) : nat -> prog -> nat -> Prop :=
| at_done i : block_at sb i Done i
| at_cmd i l p j : row sb i = l -> plain l -> block_at sb (S i) p j -> block_at sb i (Cmd l p) j
| at_if i c b t p m k j : head_at sb i (cs "if") c -> key sb (S i) = cs "then" -> block_at sb (S (S i)) b m ->
    tail_at sb m t k -> block_at sb (S k) p j -> block_at sb i (If c b t p) j
| at_while i c b p m j : head_at sb i (cs "while") c -> key sb (S i) = cs "do" -> block_at sb (S (S i)) b m ->
    key sb m = cs "done" -> block_at sb (S m) p j -> block_at sb i (While c b p) j
| at_for i v ws b p m j : key sb i = cs "for" -> for_header (row sb i) = (v, ws) -> key sb (S i) = cs "do" -> block_at sb (S (S i)) b m ->
    key sb m = cs "done" -> block_at sb (S m) p j -> block_at sb i (For v ws b p) j
with tail_at (sb : rows) : nat -> branch -> nat -> Prop :=
| at_fi m : key sb m = cs "fi" -> tail_at sb m Fi m
| at_else m b k : key sb m = cs "else" -> block_at sb (S m) b k -> key sb k = cs "fi" -> tail_at sb m (Else b) k
| at_elif m c b t m' k : head_at sb m (cs "elif") c -> key sb (S m) = cs "then" -> block_at sb (S (S m)) b m' ->
    tail_at sb m' t k -> tail_at sb m (Elif c b t) k.

Scheme block_at_mut := Induction for block_at Sort Prop
with tail_at_mut := Induction for tail_at Sort Prop.
Combined Scheme block_tail_ind from block_at_mut, tail_at_mut.

Lemma block_le sb : (forall i p j, block_at sb i p j -> (i <= j)%nat) /\ (forall m t k, tail_at sb m t k -> (m <= k)%nat).
Proof. apply block_tail_ind; intros; lia. Qed.
Lemma block_le1 sb i p j : block_at sb i p j -> (i <= j)%nat.
Proof. apply block_le. Qed.
Lemma tail_le1 sb m t k : tail_at sb m t k -> (m <= k)%nat.
Proof. apply block_le. Qed.

(** Evaluates the keyword tests on rows whose first word is known. *)
Lemma kw_key sb i k k' : key sb i = k -> k' ∈ kws -> is_kw (row sb i) k' = bool_decide (k = k').
Proof. intros <- H. by apply is_kw_token. Qed.
Lemma kw_plain l k : plain l -> k ∈ kws -> is_kw l k = false.
Proof. intros [H _] Hk. rewrite is_kw_token by done. apply bool_decide_false. intros E. apply H. by rewrite E. Qed.

Ltac in_kws := apply list_elem_of_In; vm_compute; tauto.
Ltac kw_compute :=
  repeat match goal with
  | |- context [bool_decide (cs ?a = cs ?b)] =>
      let v := eval vm_compute in (bool_decide (cs a = cs b)) in change (bool_decide (cs a = cs b)) with v
  end.
Ltac kw_simpl :=
  unfold opens_loop, starts_else, control_kw;
  repeat match goal with
  | H : head_at _ _ _ _ |- _ => destruct H
  end;
  repeat match goal with
  | H : key ?sb ?i = cs ?k |- context [is_kw (row ?sb ?i) ?k'] => rewrite (kw_key sb i (cs k) k' H) by in_kws
  | H : plain ?l |- context [is_kw ?l ?k'] => rewrite (kw_plain l k' H) by in_kws
  end; kw_compute; cbn [orb andb].

(** ** The searches skip whole blocks *)

Lemma find_close_step o c sb i e d : (i < e)%nat ->
  find_close o c sb (e - i) i d =
    if o (row sb i) then find_close o c sb (e - S i) (S i) (S d)
    else if c (row sb i) then match d with O => i | S d => find_close o c sb (e - S i) (S i) d end
    else find_close o c sb (e - S i) (S i) d.
Proof. intros H. by replace (e - i)%nat with (S (e - S i)) by lia. Qed.

Lemma find_else_step sb i e d : (i < e)%nat ->
  find_else sb (e - i) i d =
    if is_kw (row sb i) (cs "if") then find_else sb (e - S i) (S i) (d + 1)
    else if is_kw (row sb i) (cs "fi") then find_else sb (e - S i) (S i) (d - 1)
    else if (d =? 0) && starts_else (row sb i) then Some i
    else find_else sb (e - S i) (S i) d.
Proof. intros H. by replace (e - i)%nat with (S (e - S i)) by lia. Qed.

(** One line of a search, whose first word is known. *)
Ltac scan_line := first [rewrite find_close_step by lia | rewrite find_else_step by lia]; kw_simpl.
Ltac scan_bounds :=
  repeat match goal with
  | H : block_at ?sb ?i ?p ?j |- _ => lazymatch goal with _ : (i <= j)%nat |- _ => fail | _ => pose proof (block_le1 sb i p j H) end
  | H : tail_at ?sb ?i ?p ?j |- _ => lazymatch goal with _ : (i <= j)%nat |- _ => fail | _ => pose proof (tail_le1 sb i p j H) end
  end.

Definition seek_fi (sb : rows) (i e d : nat) : nat := find_close (fun l => is_kw l (cs "if")) (fun l => is_kw l (cs "fi")) sb (e - i) i d.
Definition seek_done (sb : rows) (i e d : nat) : nat := find_close opens_loop (fun l => is_kw l (cs "done")) sb (e - i) i d.

Lemma fi_skips sb :
  (forall i p j, block_at sb i p j -> forall lim d, (j <= lim)%nat -> seek_fi sb i lim d = seek_fi sb j lim d) /\
  (forall m t k, tail_at sb m t k -> forall lim, (k < lim)%nat -> seek_fi sb m lim 0 = k /\ forall d, seek_fi sb m lim (S d) = seek_fi sb (S k) lim d).
Proof.
  apply block_tail_ind; intros; scan_bounds; unfold seek_fi in *; subst.
  - done.
  - scan_line. auto.
  - scan_line. scan_line. rewrite H by lia. destruct (H0 lim) as [_ ->]; [lia | auto].
  - scan_line. scan_line. rewrite H by lia. scan_line. auto.
  - scan_line. scan_line. rewrite H by lia. scan_line. auto.
  - split; [|intros]; by scan_line.
  - split; [|intros]; scan_line; rewrite H by lia; by scan_line.
  - destruct (H0 lim) as [E1 E2]; [lia|]. split; [|intros]; scan_line; scan_line; by rewrite H by lia.
Qed.

Lemma done_skips sb :
  (forall i p j, block_at sb i p j -> forall e d, (j <= e)%nat -> seek_done sb i e d = seek_done sb j e d) /\
  (forall m t k, tail_at sb m t k -> forall e d, (k < e)%nat -> seek_done sb m e d = seek_done sb (S k) e d).
Proof.
  apply block_tail_ind; intros; scan_bounds; unfold seek_done in *; subst.
  - done.
  - scan_line. auto.
  - scan_line. scan_line. rewrite H, H0 by lia. auto.
  - scan_line. scan_line. rewrite H by lia. scan_line. auto.
  - scan_line. scan_line. rewrite H by lia. scan_line. auto.
  - by scan_line.
  - scan_line. rewrite H by lia. by scan_line.
  - scan_line. scan_line. rewrite H by lia. auto.
Qed.

Lemma else_skips sb :
  (forall i p j, block_at sb i p j -> forall e d, (j <= e)%nat -> 0 <= d -> find_else sb (e - i) i d = find_else sb (e - j) j d) /\
  (forall m t k, tail_at sb m t k -> forall e d, (k < e)%nat -> 0 <= d -> find_else sb (e - m) m (d + 1) = find_else sb (e - S k) (S k) d).
Proof.
  assert (E : forall d, 0 <= d -> (d + 1 =? 0) = false) by (intros; apply Z.eqb_neq; lia).
  apply block_tail_ind; intros; scan_bounds; subst.
  - done.
  - scan_line. rewrite andb_false_r. auto.
  - scan_line. scan_line. rewrite andb_false_r, H, H0 by lia. auto.
  - scan_line. rewrite andb_false_r. scan_line. rewrite andb_false_r, H by lia. scan_line. rewrite andb_false_r. auto.
  - scan_line. rewrite andb_false_r. scan_line. rewrite andb_false_r, H by lia. scan_line. rewrite andb_false_r. auto.
  - scan_line. by replace (d + 1 - 1) with d by lia.
  - scan_line. rewrite E by done. cbn [andb]. rewrite H by lia. scan_line. by replace (d + 1 - 1) with d by lia.
  - scan_line. rewrite E by done. cbn [andb]. scan_line. rewrite andb_false_r, H by lia. auto.
Qed.

(** ** The line of an [elif] *)

Lemma trim_no c l : is_blank c = false -> trim (c :: l) = c :: l.
Proof. intros H. unfold trim. cbn. by rewrite H. Qed.

Lemma kw_rest l k : token l = k -> exists r, trim l = k ++ r.
Proof. intros <-. exists (scan (fun c => negb (ends_kw c)) (length (trim l)) (trim l)).2. unfold token. by rewrite scan_app. Qed.

Lemma format_s n t : format (S (S n)) [37; 115] [AStr (Some t)] = Some t.
Proof.
  change (format (S (S n)) [37; 115] [AStr (Some t)]) with (Some (mjoin [blanks 32 (0 - Z.of_nat (length t)); t] ++ [])).
  unfold blanks. replace (Z.to_nat (0 - Z.of_nat (length t))) with 0%nat by lia. cbn. by rewrite !app_nil_r.
Qed.

Lemma print_s_take sz pre t : 0 < sz -> Forall (fun c => c <> 37) pre ->
  print_to sz (pre ++ cs "%s") [AStr (Some t)] = take (Z.to_nat (sz - 1)) (pre ++ t).
Proof.
  intros Hs Hp. unfold print_to, vsnprintf. rewrite (proj2 (Z.eqb_neq _ _)) by lia.
  pose proof (format_into_take (S (length (pre ++ cs "%s"))) sz (pre ++ cs "%s") [AStr (Some t)] []) as F. rewrite take_nil in F. rewrite F. clear F. cbn [app].
  enough (E : forall n, format (n + S (length (pre ++ cs "%s"))) (pre ++ cs "%s") [AStr (Some t)] = Some (pre ++ t)) by (specialize (E 0%nat); cbn [Nat.add] in E; by rewrite E).
  induction Hp as [|c pre Hc _ IH]; intros n; [cbn [app]|rewrite Nat.add_succ_r; cbn [app length format]].
  - rewrite Nat.add_succ_r. change (length (cs "%s")) with 2%nat. change (cs "%s") with [37; 115]. replace (n + 2)%nat with (S (S n)) by lia. apply (format_s (S n)).
  - rewrite (proj2 (Z.eqb_neq _ _)) by done. cbn [negb]. rewrite IH. done.
Qed.

Lemma elif_row_if r : token r = cs "elif" -> (length r < SB_LINE)%nat ->
  token (elif_row r) = cs "if" /\ after_kw (elif_row r) (cs "if") SB_LINE = after_kw r (cs "elif") SB_LINE /\
  (Forall (fun c => c <> 0) r -> Forall (fun c => c <> 0) (elif_row r)).
Proof.
  intros Ht Hl. destruct (kw_rest r _ Ht) as [x Ex].
  assert (Hlen : (length (trim r) <= length r)%nat) by (clear; induction r as [|c r IH]; unfold trim in *; cbn; [lia | destruct (is_blank c); cbn; lia]).
  assert (E : elif_row r = cs "if " ++ x).
  { unfold elif_row. rewrite Ex. change (drop 4 (cs "elif" ++ x)) with x. change (cs "if %s") with (cs "if " ++ cs "%s").
    rewrite print_s_take; [|done | by repeat constructor]. apply take_ge. apply (f_equal length) in Ex. rewrite length_app in Ex |- *.
    change (length (cs "elif")) with 4%nat in Ex. change (length (cs "if ")) with 3%nat. unfold SB_LINE in *. lia. }
  rewrite E. split_and!.
  - done.
  - unfold after_kw. rewrite Ex. do 3 f_equal.
  - intros H. apply Forall_app. split; [by repeat constructor|].
    assert (Forall (fun c => c <> 0) (trim r)) as H' by (clear -H; induction H; unfold trim in *; cbn; [done | destruct (is_blank x); [done | by constructor]]).
    rewrite Ex in H'. by apply Forall_app in H' as [_ ?].
Qed.

(** ** Running *)

Section Running.
Context {W : Type} `{K : Kernel W}.
Abbreviation MSh := (M (sh W)).

Lemma andthen_ext (m m' : MSh outcome) k k' s : m s = m' s -> (forall z s, k z s = k' z s) -> andthen m k s = andthen m' k' s.
Proof. intros Hm Hk. unfold andthen, bind. rewrite Hm. destruct (m' s) as [[[z|c] s']|]; [apply Hk | done | done]. Qed.

Lemma while_ext fuel (t b b' k k' : MSh outcome) : (forall s, b s = b' s) -> (forall s, k s = k' s) -> forall s, while_loop fuel t b k s = while_loop fuel t b' k' s.
Proof.
  intros Hb Hk. induction fuel as [|fuel IH]; intros s; [done|]. cbn [while_loop]. apply andthen_ext; [done|]. intros z s'. destruct (z =? 0); [|done]. by apply andthen_ext.
Qed.

Lemma for_ext v ws (b b' k k' : MSh outcome) : (forall s, b s = b' s) -> (forall s, k s = k' s) -> forall s, for_loop v ws b k s = for_loop v ws b' k' s.
Proof.
  intros Hb Hk. induction ws as [|w ws IH]; intros s; [done|]. cbn [for_loop]. unfold bind. destruct (setenv v w true s) as [[[] s']|]; [|done]. by apply andthen_ext.
Qed.

Lemma block_frame sb sb' :
  (forall i p j, block_at sb i p j -> (forall k, (i <= k < j)%nat -> row sb' k = row sb k) -> block_at sb' i p j) /\
  (forall m t k, tail_at sb m t k -> (forall x, (m <= x <= k)%nat -> row sb' x = row sb x) -> tail_at sb' m t k).
Proof.
  apply block_tail_ind; unfold head_at, key; intros; scan_bounds;
    match goal with H : forall k, _ -> row sb' k = row sb k |- _ => rename H into Hr end.
  - constructor.
  - apply at_cmd; [by rewrite Hr by lia | done |]. apply H. intros. apply Hr. lia.
  - apply (at_if sb' i c b t p m k j); unfold head_at, key; rewrite ?Hr by lia; [done | done | apply H | apply H0 | apply H1]; intros; apply Hr; lia.
  - apply (at_while sb' i c b p m j); unfold head_at, key; rewrite ?Hr by lia; [done | done | apply H | done | apply H0]; intros; apply Hr; lia.
  - apply (at_for sb' i v ws b p m j); unfold head_at, key; rewrite ?Hr by lia; [done | done | done | apply H | done | apply H0]; intros; apply Hr; lia.
  - apply at_fi. unfold key. by rewrite Hr by lia.
  - apply at_else; unfold key; rewrite ?Hr by lia; [done | apply H | done]. intros. apply Hr. lia.
  - apply (at_elif sb' m c b t m' k); unfold head_at, key; rewrite ?Hr by lia; [done | done | apply H | apply H0]; intros; apply Hr; lia.
Qed.

Lemma row_clean sb i : Forall (fun c => c <> 0) (row sb i).
Proof. unfold row. generalize (nth i sb []). intros l. induction l as [|c l IH]; cbn; [done|]. destruct (Z.eqb_spec c 0); [done | by constructor]. Qed.

Lemma cstr_clean l : Forall (fun c => c <> 0) l -> cstr l = l.
Proof. induction 1 as [|c l Hc _ IH]; cbn; [done|]. by rewrite (proj2 (Z.eqb_neq _ _)), IH. Qed.

Definition rows_ok (sb : rows) : Prop := forall i, (length (row sb i) < SB_LINE)%nat.

Lemma row_insert sb e l k : (e < length sb)%nat -> row (<[e := l]> sb) k = if (k =? e)%nat then cstr l else row sb k.
Proof.
  intros He. unfold row. rewrite !nth_lookup. destruct (Nat.eqb_spec k e) as [->|H]; [by rewrite list_lookup_insert_eq | by rewrite list_lookup_insert_ne].
Qed.

(** The rows of an [elif] with the line that stands for it are an [if]. *)
Lemma elif_block sb m c b t k : rows_ok sb -> (m < length sb)%nat -> tail_at sb m (Elif c b t) k ->
  let sb' := <[m := elif_row (row sb m)]> sb in rows_ok sb' /\ block_at sb' m (If c b t Done) (S k).
Proof.
  intros Hok Hm Ht sb'. inversion Ht as [| |? ? ? ? m' ? [Hk Hc] Hthen Hb Htl]; subst. unfold key in Hk.
  destruct (elif_row_if (row sb m) Hk (Hok m)) as (E1 & E2 & E3). specialize (E3 (row_clean sb m)).
  assert (Hr : forall x, row sb' x = if (x =? m)%nat then elif_row (row sb m) else row sb x) by (intros; unfold sb'; rewrite row_insert, (cstr_clean _ E3); done).
  assert (Hn : forall x, x <> m -> row sb' x = row sb x) by (intros x Hx; rewrite Hr; by rewrite (proj2 (Nat.eqb_neq _ _))).
  assert (He : row sb' m = elif_row (row sb m)) by (by rewrite Hr, Nat.eqb_refl).
  pose proof (block_le1 _ _ _ _ Hb). pose proof (tail_le1 _ _ _ _ Htl). split.
  - intros x. rewrite Hr. destruct (x =? m)%nat; [|done]. unfold elif_row, print_to, vsnprintf. 
    pose proof (print_s_take 256 (cs "if ") (drop 4 (trim (row sb m))) ltac:(lia) ltac:(by repeat constructor)) as E. unfold print_to, vsnprintf in E.
    change (cs "if " ++ cs "%s") with (cs "if %s") in E. change (Z.of_nat SB_LINE) with 256. rewrite E, length_take. unfold SB_LINE. lia.
  - apply (at_if sb' m _ b t Done m' k (S k)).
    + split; unfold key; by rewrite He.
    + unfold key. by rewrite Hn by lia.
    + apply (proj1 (block_frame sb sb')) with (1 := Hb). intros x Hx. apply Hn. lia.
    + apply (proj2 (block_frame sb sb')) with (1 := Htl). intros x Hx. apply Hn. lia.
    + constructor.
Qed.

Lemma find_kw_here sb kw i e : kw ∈ kws -> key sb i = kw -> (i < e)%nat -> find_kw sb kw (e - i) i = i.
Proof. intros Hk H Hi. replace (e - i)%nat with (S (e - S i)) by lia. cbn [find_kw]. by rewrite (kw_key sb i kw kw H Hk), bool_decide_true. Qed.

Definition branch_row (m : nat) (t : branch) : option nat := match t with Fi => None | _ => Some m end.

Lemma branch_end sb m t k : tail_at sb m t k -> default k (branch_row m t) = m.
Proof. by destruct 1. Qed.

Lemma if_finds sb i b t m k e : key sb (S i) = cs "then" -> block_at sb (S (S i)) b m -> tail_at sb m t k -> (k < e)%nat ->
  find_end sb (S i) e (cs "if") (cs "fi") = k /\ find_else sb (k - S (S i)) (S (S i)) 0 = branch_row m t.
Proof.
  intros Hthen Hb Ht He. scan_bounds. split.
  - unfold find_end. rewrite (proj2 (Nat.ltb_lt _ _)) by lia. scan_line. change (seek_fi sb (S (S i)) e 0 = k).
    rewrite (proj1 (fi_skips sb) _ _ _ Hb) by lia. by apply (proj2 (fi_skips sb) _ _ _ Ht).
  - rewrite (proj1 (else_skips sb) _ _ _ Hb) by lia. inversion Ht; subst; scan_bounds; cbn [branch_row]; [by rewrite Nat.sub_diag | by scan_line | by scan_line].
Qed.

Lemma loop_finds sb i b m e : key sb (S i) = cs "do" -> block_at sb (S (S i)) b m -> key sb m = cs "done" -> (m < e)%nat -> find_done sb (S i) e = m.
Proof.
  intros Hdo Hb Hd He. scan_bounds. unfold find_done. rewrite (proj2 (Nat.ltb_lt _ _)) by lia. scan_line. change (seek_done sb (S (S i)) e 0 = m).
  rewrite (proj1 (done_skips sb) _ _ _ Hb) by lia. unfold seek_done. by scan_line.
Qed.

(** The first character of a line that starts with a keyword. *)
Lemma key_starts sb i kw c r : key sb i = kw -> kw = c :: r -> c <> 0 -> c <> 35 -> (nth 0 (trim (row sb i)) 0 =? 0) || (nth 0 (trim (row sb i)) 0 =? 35) = false.
Proof. intros H E H0 H1. unfold key in H. rewrite E in H. rewrite (token_head _ _ _ H). by rewrite !(proj2 (Z.eqb_neq _ _)). Qed.

Lemma exec_runs fuel : forall sb i p j s, rows_ok sb -> (j <= length sb)%nat -> block_at sb i p j -> exec_block fuel sb i j s = run fuel p s.
Proof.
  induction fuel as [|fuel IH]; intros sb i p j s Hok Hj Hb; [done|]. cbn [exec_block run].
  inversion Hb as [|? l p' ? Hl Hp Hb'|? c b t p' m k ? Hh Hthen Hb1 Ht Hb2|? c b p' m ? Hh Hdo Hb1 Hd Hb2|? v ws b p' m ? Hf Hhd Hdo Hb1 Hd Hb2]; subst; scan_bounds.
  - by rewrite (proj2 (Nat.leb_le _ _)).
  - rewrite (proj2 (Nat.leb_gt _ _)) by lia. pose proof Hp as (_ & N0 & N1). rewrite !(proj2 (Z.eqb_neq _ _)) by done. kw_simpl.
    apply andthen_ext; [done|]. intros z s'. unfold bind. cbn. by apply IH.
  - rewrite (proj2 (Nat.leb_gt _ _)) by lia. destruct Hh as [Hk Hc]. rewrite (key_starts sb i (cs "if") 105 _ Hk eq_refl) by done. destruct (if_finds sb i b t m k j Hthen Hb1 Ht ltac:(lia)) as [Efi Eelse].
    rewrite (find_kw_here sb (cs "then") (S i) j) by (in_kws || done || lia). kw_simpl. rewrite Efi, Eelse.
    apply andthen_ext; [by rewrite Hc|]. intros z s'. destruct (z =? 0).
    + apply andthen_ext; [|intros; by apply IH]. rewrite (branch_end _ _ _ _ Ht). apply IH; [done | lia | done].
    + destruct t as [|b'|c' b' t']; cbn [branch_row]; [by apply IH | |].
      * inversion Ht; subst. kw_simpl. apply andthen_ext; [|intros; by apply IH]. apply IH; [done | scan_bounds; lia | done].
      * destruct (elif_block sb m c' b' t' k Hok ltac:(lia) Ht) as [Hok' Hb']. inversion Ht; subst. kw_simpl.
        apply andthen_ext; [|intros; by apply IH]. apply IH; [done | rewrite length_insert; lia | done].
  - rewrite (proj2 (Nat.leb_gt _ _)) by lia. destruct Hh as [Hk Hc]. rewrite (key_starts sb i (cs "while") 119 _ Hk eq_refl) by done. rewrite (find_kw_here sb (cs "do") (S i) j) by (in_kws || done || lia). rewrite (loop_finds sb i b m j) by (done || lia).
    kw_simpl. rewrite Hc. apply while_ext; intros s'; apply IH; done || lia.
  - rewrite (proj2 (Nat.leb_gt _ _)) by lia. rewrite (key_starts sb i (cs "for") 102 _ Hf eq_refl) by done. rewrite (find_kw_here sb (cs "do") (S i) j) by (in_kws || done || lia). rewrite (loop_finds sb i b m j) by (done || lia).
    kw_simpl. rewrite Hhd. apply for_ext; intros s'; apply IH; done || lia.
Qed.
End Running.
End Script.
