(* ===== verification/ScriptRun.v ===== *)
(** * The shell: scripts as text (src/bin/nsh/nsh.c)

    The text of a structured program, and the proof that [nsh] run on that
    text runs the program; what becomes of the one-line forms its own help
    text advertises, and of a block typed after a longer one. *)
From Stdlib Require String Ascii.
Import String.StringSyntax.
From S2P Require Import Prelude Bytes Proc Env Path Vfs Libc Readline Shell Script.

Module ScriptRun.
Import Proc Vfs Libc Shell Script.

(** ** The text of a program *)

Fixpoint spaced (ws : list (list Z)) : list Z := match ws with [] => [] | w :: ws => 32 :: w ++ spaced ws end.
Definition for_line (v : list Z) (ws : list (list Z)) : list Z := cs "for " ++ v ++ cs " in" ++ spaced ws.

Fixpoint lines (p : prog) : rows :=
  match p with
  | Done => []
  | Cmd l p => l :: lines p
  | If c b t p => (cs "if " ++ c) :: cs "then" :: lines b ++ branch_lines t ++ lines p
  | While c b p => (cs "while " ++ c) :: cs "do" :: lines b ++ cs "done" :: lines p
  | For v ws b p => for_line v ws :: cs "do" :: lines b ++ cs "done" :: lines p
  end
with branch_lines (t : branch) : rows :=
  match t with
  | Fi => [cs "fi"]
  | Else b => cs "else" :: lines b ++ [cs "fi"]
  | Elif c b t => (cs "elif " ++ c) :: cs "then" :: lines b ++ branch_lines t
  end.

Definition text (ls : rows) : list Z := mjoin ((fun l => l ++ [10]) <$> ls).

(** Lines that fit a row and have no line end, comment or NUL. *)
Definition line_ok (l : list Z) : bool :=
  forallb (fun c => negb ((c =? 0) || (c =? 10) || (c =? 13) || (c =? 35))) l && (length l <? SB_LINE - 1)%nat && negb (is_blank_line l).

(** Conditions without a semicolon and without blanks around them. *)
Definition cond_ok (c : list Z) : bool :=
  forallb (fun c => negb (c =? 59)) c && bool_decide (trim c = c) && bool_decide (rtrim c = c) && (length c <? SB_LINE)%nat.

Definition word_ok (n : nat) (w : list Z) : bool :=
  forallb (fun c => negb (c =? 32) && negb (c =? 59)) w && (length w <=? n)%nat && negb (bool_decide (w = [])).

Fixpoint prog_ok (p : prog) : bool :=
  match p with
  | Done => true
  | Cmd l p => line_ok l && negb (bool_decide (token l ∈ kws)) && prog_ok p
  | If c b t p => line_ok (cs "if " ++ c) && cond_ok c && prog_ok b && branch_ok t && prog_ok p
  | While c b p => line_ok (cs "while " ++ c) && cond_ok c && prog_ok b && prog_ok p
  | For v ws b p => line_ok (for_line v ws) && word_ok 31 v && forallb (word_ok 63) ws && (length ws <=? 32)%nat && prog_ok b && prog_ok p
  end
with branch_ok (t : branch) : bool :=
  match t with
  | Fi => true
  | Else b => prog_ok b
  | Elif c b t => line_ok (cs "elif " ++ c) && cond_ok c && prog_ok b && branch_ok t
  end.

Scheme prog_mut := Induction for prog Sort Prop
with branch_mut := Induction for branch Sort Prop.
Combined Scheme prog_branch_ind from prog_mut, branch_mut.

(** ** Headers *)

Lemma scan_all p n l r : forallb p l = true -> (length l <= n)%nat -> match r with [] => True | c :: _ => p c = false \/ length l = n end ->
  scan p n (l ++ r) = (l, r).
Proof.
  intros Hl. revert n. induction l as [|c l IH]; intros n Hn Hr; cbn [app].
  - destruct n, r as [|c r]; try done. cbn. destruct Hr as [->|[=]]. done.
  - cbn in Hl. apply andb_prop in Hl as [Hc Hl]. destruct n as [|n]; cbn [length] in *; [lia|]. cbn [scan]. rewrite Hc, IH; [done | done | lia |].
    destruct r; [done|]. destruct Hr as [?|?]; [by left | right; lia].
Qed.

Lemma after_kw_cond (kw c : list Z) : trim (kw ++ 32 :: c) = kw ++ 32 :: c -> cond_ok c = true -> after_kw (kw ++ 32 :: c) kw SB_LINE = c.
Proof.
  unfold cond_ok. intros Ht H. repeat (apply andb_prop in H as [H ?]). apply Nat.ltb_lt in H0. apply bool_decide_eq_true in H1, H2.
  unfold after_kw. rewrite Ht, drop_app_length. change (trim (32 :: c)) with (trim c). rewrite H2.
  pose proof (scan_all (fun c => negb (c =? 59)) (SB_LINE - 1) c [] H ltac:(lia) I) as E. rewrite app_nil_r in E. by rewrite E.
Qed.

Lemma skip_spaces_word n w r : word_ok n w = true -> skip_spaces (w ++ r) = w ++ r.
Proof.
  unfold word_ok. intros H. apply andb_prop in H as [H Hn]. apply andb_prop in H as [H _]. destruct w as [|c w]; [done|]. cbn in H. apply andb_prop in H as [H _]. apply andb_prop in H as [H _].
  unfold skip_spaces. cbn. by destruct (c =? 32).
Qed.

Lemma for_words_all ws : forallb (word_ok 63) ws = true -> forall fuel n, (length (spaced ws) <= fuel)%nat -> (length ws <= n)%nat ->
  for_words fuel n (spaced ws) = ws.
Proof.
  induction ws as [|w ws IH]; intros Hw fuel n Hf Hn; [by destruct fuel, n|]. cbn in Hw. apply andb_prop in Hw as [Hw Hws]. cbn [spaced length] in *. rewrite length_app in Hf.
  destruct fuel as [|fuel]; [cbn in Hf; lia|]. destruct n as [|n]; [lia|]. cbn [for_words]. set (r := spaced ws) in *.
  change (skip_spaces (32 :: w ++ r)) with (skip_spaces (w ++ r)). rewrite (skip_spaces_word 63) by done.
  unfold word_ok in Hw. apply andb_prop in Hw as [Hw Hne]. apply andb_prop in Hw as [Hw Hl]. apply Nat.leb_le in Hl.
  rewrite (scan_all _ 63 w r Hw Hl); [|unfold r; destruct ws; cbn; [done | by left]].
  destruct w as [|c w]; [done|]. cbn [app]. cbn in Hw. apply andb_prop in Hw as [Hc _]. apply andb_prop in Hc as [_ Hc]. destruct (c =? 59); [done|]. f_equal. apply IH; [done | cbn in Hf; lia | cbn in Hn; lia].
Qed.

Lemma skip_spaces_idem t : skip_spaces (skip_spaces t) = skip_spaces t.
Proof. unfold skip_spaces. induction t as [|c t IH]; cbn; [done|]. destruct (c =? 32) eqn:E; [done|]. cbn. by rewrite E. Qed.

Lemma for_words_skip fuel n t : for_words fuel n (skip_spaces t) = for_words fuel n t.
Proof. destruct fuel, n; try done. cbn [for_words]. by rewrite skip_spaces_idem. Qed.

Lemma for_line_header v ws : word_ok 31 v = true -> forallb (word_ok 63) ws = true -> (length ws <= 32)%nat -> for_header (for_line v ws) = (v, ws).
Proof.
  intros Hv Hws Hn. unfold for_header, for_line. change (drop 3 (trim (cs "for " ++ v ++ cs " in" ++ spaced ws))) with (32 :: v ++ cs " in" ++ spaced ws).
  change (skip_spaces (32 :: v ++ cs " in" ++ spaced ws)) with (skip_spaces (v ++ cs " in" ++ spaced ws)). rewrite (skip_spaces_word 31) by done.
  unfold word_ok in Hv. apply andb_prop in Hv as [Hv _]. apply andb_prop in Hv as [Hv Hl]. apply Nat.leb_le in Hl.
  assert (Hv' : forallb (fun c => negb (c =? 32)) v = true).
  { apply forallb_forall. intros c Hc. eapply forallb_forall in Hv; [|exact Hc]. by apply andb_prop in Hv as [? _]. }
  rewrite (scan_all _ 31 v _ Hv' Hl) by (by left).
  change (drop 2 (skip_spaces (cs " in" ++ spaced ws))) with (spaced ws). change (strncmp 2 (skip_spaces (cs " in" ++ spaced ws)) (cs "in") =? 0) with true. cbn iota.
  rewrite for_words_skip, for_words_all; [done | done | | done]. destruct ws as [|w ws]; [cbn; lia|]. cbn in Hws. apply andb_prop in Hws as [Hw _].
  change (skip_spaces (spaced (w :: ws))) with (skip_spaces (w ++ spaced ws)). rewrite (skip_spaces_word 63) by done. done.
Qed.

(** ** A program's lines in the buffer *)

Definition held (sb : rows) (i : nat) (ls : rows) : Prop := forall k l, ls !! k = Some l -> row sb (i + k) = l.

Lemma held_cons sb i l ls : held sb i (l :: ls) -> row sb i = l /\ held sb (S i) ls.
Proof. intros H. split; [specialize (H 0%nat l eq_refl); by rewrite Nat.add_0_r in H|]. intros k x Hx. specialize (H (S k) x Hx). by rewrite <- Nat.add_succ_comm in H. Qed.

Lemma held_app sb i ls ls' : held sb i (ls ++ ls') -> held sb i ls /\ held sb (i + length ls) ls'.
Proof.
  intros H. split; intros k x Hx; [apply H; by apply lookup_app_l_Some|]. rewrite <- Nat.add_assoc. apply H. rewrite lookup_app_r by lia. by replace (length ls + k - length ls)%nat with k by lia.
Qed.

Ltac split_held :=
  repeat match goal with
  | H : held _ _ (_ :: _) |- _ => apply held_cons in H as [? H]
  | H : held _ _ (_ ++ _) |- _ => apply held_app in H as [? H]
  | H : andb _ _ = true |- _ => apply andb_prop in H as [H ?]
  end.

(** The row that holds a header. *)
Lemma head_held sb i kw c l : row sb i = l -> l = kw ++ 32 :: c -> kw ∈ kws -> cond_ok c = true -> token l = kw -> trim l = l -> head_at sb i kw c.
Proof. intros Hr -> Hk Hc Ht Htr. split; [by unfold key; rewrite Hr | rewrite Hr; by apply after_kw_cond]. Qed.

Ltac key_held := match goal with H : row ?sb ?i = _ |- key ?sb ?i = _ => unfold key; rewrite H; reflexivity end.
Ltac head_held := match goal with H : row ?sb ?i = _ |- head_at ?sb ?i _ _ => eapply (head_held sb i _ _ _ H); [reflexivity | in_kws | assumption | reflexivity | reflexivity] end.

Lemma trim_suffix l : exists pre, l = pre ++ trim l.
Proof. unfold trim. induction l as [|c l [pre IH]]; [by exists []|]. cbn. destruct (is_blank c); [|by exists []]. exists (c :: pre). cbn. by f_equal. Qed.

Lemma line_plain l : line_ok l = true -> negb (bool_decide (token l ∈ kws)) = true -> plain l.
Proof.
  unfold line_ok. intros H Hk. apply andb_prop in H as [H Hb]. apply andb_prop in H as [H _]. apply negb_true_iff, bool_decide_eq_false in Hk. split; [done|].
  unfold is_blank_line in Hb. destruct (trim_suffix l) as [pre E]. destruct (trim l) as [|c r]; [done|]. rewrite E, forallb_app in H. apply andb_prop in H as [_ H]. cbn in H |- *.
  apply andb_prop in H as [H _]. split; intros ->; done.
Qed.

Lemma branch_lines_length t : (1 <= length (branch_lines t))%nat.
Proof. destruct t; cbn; lia. Qed.

Lemma block_at_eq sb i p j i' j' : block_at sb i p j -> i = i' -> j = j' -> block_at sb i' p j'.
Proof. by intros ? -> ->. Qed.
Lemma tail_at_eq sb i p j i' j' : tail_at sb i p j -> i = i' -> j = j' -> tail_at sb i' p j'.
Proof. by intros ? -> ->. Qed.

Lemma lines_block sb :
  (forall p i, prog_ok p = true -> held sb i (lines p) -> block_at sb i p (i + length (lines p))) /\
  (forall t m, branch_ok t = true -> held sb m (branch_lines t) -> tail_at sb m t (m + length (branch_lines t) - 1)).
Proof.
  apply prog_branch_ind; cbn [lines branch_lines prog_ok branch_ok].
  - intros i _ _. rewrite Nat.add_0_r. constructor.
  - intros l p IH i Hok H. split_held. apply at_cmd; [done | by apply line_plain|]. eapply block_at_eq; [by apply IH | done | cbn; lia].
  - intros c b IHb t IHt p IHp i Hok H. split_held. pose proof (branch_lines_length t). cbn [length]. rewrite !length_app.
    eapply (at_if sb i c b t p); [head_held | key_held | by apply IHb | by apply IHt |]. eapply block_at_eq; [by apply IHp | lia | lia].
  - intros c b IHb p IHp i Hok H. split_held. cbn [length]. rewrite length_app. cbn [length].
    eapply (at_while sb i c b p); [head_held | key_held | by apply IHb | key_held |]. eapply block_at_eq; [by apply IHp | lia | lia].
  - intros v ws b IHb p IHp i Hok H. split_held. cbn [length]. rewrite length_app. cbn [length].
    assert (row sb i = cs "for " ++ v ++ cs " in" ++ spaced ws) by done.
    eapply (at_for sb i v ws b p); [key_held | | key_held | by apply IHb | key_held |].
    + match goal with E : row sb i = for_line v ws |- _ => rewrite E end. apply for_line_header; [done | done |]. by apply Nat.leb_le.
    + eapply block_at_eq; [by apply IHp | lia | lia].
  - intros m _ H. split_held. cbn [length]. replace (m + 1 - 1)%nat with m by lia. apply at_fi. key_held.
  - intros b IHb m Hok H. split_held. cbn [length]. rewrite length_app. cbn [length]. eapply tail_at_eq; [apply (at_else sb m b (S m + length (lines b))); [key_held | by apply IHb | key_held] | done | lia].
  - intros c b IHb t IHt m Hok H. split_held. pose proof (branch_lines_length t). cbn [length]. rewrite length_app.
    eapply (at_elif sb m c b t); [head_held | key_held | by apply IHb |]. eapply tail_at_eq; [by apply IHt | lia | lia].
Qed.

(** ** Reading a script *)

Lemma line_ok_chars l : line_ok l = true -> Forall (fun c => c <> 0 /\ c <> 10 /\ c <> 13 /\ c <> 35) l /\ (length l < 255)%nat /\ is_blank_line l = false.
Proof.
  unfold line_ok. intros H. apply andb_prop in H as [H Hb]. apply andb_prop in H as [H Hl]. apply Nat.ltb_lt in Hl. split_and!; [|done | by apply negb_true_iff].
  apply Forall_forall. intros c Hc. eapply forallb_forall in H; [|by apply list_elem_of_In]. apply negb_true_iff in H.
  repeat (apply orb_false_elim in H as [H ?]). repeat match goal with E : (_ =? _) = false |- _ => apply Z.eqb_neq in E end. done.
Qed.

Lemma read_chars_line l r : Forall (fun c => c <> 0 /\ c <> 10 /\ c <> 13 /\ c <> 35) l -> forall n acc, (length l < n)%nat -> read_chars n (l ++ 10 :: r) acc = Some (acc ++ l, r).
Proof.
  induction 1 as [|c l (_ & H10 & H13 & _) _ IH]; intros n acc Hn; destruct n as [|n]; try (cbn in Hn; lia); cbn [app read_chars].
  - cbn. by rewrite app_nil_r.
  - rewrite !(proj2 (Z.eqb_neq _ _)) by done. rewrite IH by (cbn in Hn; lia). by rewrite <- app_assoc.
Qed.

Lemma next_line_ok fuel l r : line_ok l = true -> next_line (S fuel) (l ++ 10 :: r) = Some (l, r).
Proof.
  intros H. destruct (line_ok_chars l H) as (Hc & Hl & Hb). cbn [next_line]. rewrite read_chars_line by done. cbn [app].
  rewrite cstr_clean by (eapply Forall_impl; [exact Hc | by intros ? (? & _)]).
  pose proof (scan_all (fun c => negb (c =? 35)) SB_LINE l []) as E. rewrite app_nil_r in E. rewrite E; [cbn [fst]; by rewrite Hb | | unfold SB_LINE; lia | done].
  apply forallb_forall. intros c Hin. eapply Forall_forall in Hc; [|by apply list_elem_of_In]. apply negb_true_iff, Z.eqb_neq. tauto.
Qed.

Lemma cstr_zeros l n : Forall (fun c => c <> 0) l -> cstr (l ++ replicate n 0) = l.
Proof. induction 1 as [|c l Hc _ IH]; cbn; [by destruct n|]. by rewrite (proj2 (Z.eqb_neq _ _)), IH. Qed.

Lemma store_row_fresh l : line_ok l = true -> cstr (store_row l (replicate SB_LINE 0)) = l.
Proof.
  intros H. destruct (line_ok_chars l H) as (Hc & Hl & _). unfold store_row, splice. change (Z.to_nat 0) with 0%nat. rewrite take_0. cbn [app Nat.add]. rewrite (take_ge l) by (unfold SB_LINE; lia). rewrite drop_replicate.
  rewrite list_insert_id; [apply cstr_zeros; eapply Forall_impl; [exact Hc | by intros ? (? & _)]|].
  unfold SB_LINE. rewrite lookup_app_r by lia. apply lookup_replicate. lia.
Qed.

Lemma text_cons l ls : text (l :: ls) = l ++ 10 :: text ls.
Proof. unfold text. cbn. by rewrite <- app_assoc. Qed.

Lemma load_lines ls : Forall (fun l => line_ok l = true) ls -> forall k n sb, (length ls <= k)%nat -> (n + k = SB_MAX)%nat -> length sb = SB_MAX ->
  (forall i, (n <= i < SB_MAX)%nat -> nth i sb [] = replicate SB_LINE 0) ->
  exists sb', load_script k n (text ls) sb = Some ((n + length ls)%nat, sb') /\ length sb' = SB_MAX /\ held sb' n ls /\
    (forall i, ~ (n <= i < n + length ls)%nat -> nth i sb' [] = nth i sb []).
Proof.
  induction 1 as [|l ls Hl _ IH]; intros k n sb Hk Hn Hs Hz.
  - exists sb. split_and!; [destruct k; cbn; by rewrite Nat.add_0_r | done | by intros ? ? ? | done].
  - cbn [length] in *. destruct k as [|k]; [lia|]. rewrite text_cons. cbn [load_script]. rewrite next_line_ok by done.
    unfold put_row. rewrite (proj2 (Nat.ltb_lt _ _)) by lia. rewrite Hz by lia.
    assert (Hne : forall i, i <> n -> nth i (<[n := store_row l (replicate SB_LINE 0)]> sb) [] = nth i sb []) by (intros; rewrite !nth_lookup; by rewrite list_lookup_insert_ne).
    destruct (IH k (S n) (<[n := store_row l (replicate SB_LINE 0)]> sb)) as (sb' & E & Hs' & Hh & Hr); [lia | lia | by rewrite length_insert | intros; rewrite Hne by lia; apply Hz; lia|].
    exists sb'. split_and!; [rewrite E; do 2 f_equal; lia | done | | intros i Hi; rewrite Hr by lia; apply Hne; lia].
    intros [|i] x Hx.
    + injection Hx as <-. rewrite Nat.add_0_r. unfold row. rewrite Hr by lia. rewrite nth_lookup, list_lookup_insert_eq by lia. by apply store_row_fresh.
    + rewrite Nat.add_succ_r. by apply (Hh i x).
Qed.

Lemma lines_ok : (forall p, prog_ok p = true -> Forall (fun l => line_ok l = true) (lines p)) /\ (forall t, branch_ok t = true -> Forall (fun l => line_ok l = true) (branch_lines t)).
Proof.
  apply prog_branch_ind; cbn [lines branch_lines prog_ok branch_ok]; intros; split_held;
    repeat first [rewrite Forall_cons | rewrite Forall_app]; split_and?; auto.
Qed.

Lemma load_ok ls : Forall (fun l => line_ok l = true) ls -> (length ls <= SB_MAX)%nat ->
  exists sb, load_script SB_MAX 0 (text ls) empty_sb = Some (length ls, sb) /\ length sb = SB_MAX /\ held sb 0 ls /\ rows_ok sb.
Proof.
  intros Hok Hn. destruct (load_lines ls Hok SB_MAX 0 empty_sb) as (sb & E & Hs & Hh & Hr); [done | done | done | |].
  { intros i Hi. unfold empty_sb. rewrite nth_lookup, lookup_replicate_2 by lia. done. }
  exists sb. split_and!; [done | done | done |]. intros i. unfold SB_LINE. destruct (decide (i < length ls)%nat) as [Hi|Hi].
  - destruct (lookup_lt_is_Some_2 ls i Hi) as [l Hl]. pose proof (Hh i l Hl) as Er. cbn [Nat.add] in Er. rewrite Er. eapply Forall_lookup_1 in Hl; [|exact Hok].
    apply line_ok_chars in Hl as (_ & ? & _). lia.
  - unfold row. rewrite Hr by lia. unfold empty_sb. rewrite nth_lookup. destruct (decide (i < SB_MAX)%nat); [rewrite lookup_replicate_2 by done | rewrite lookup_ge_None_2 by (rewrite length_replicate; lia)]; cbn; lia.
Qed.

Section Run.
Context {W : Type} `{K : Kernel W}.


(** ** The forms on one line *)

Lemma inline_cond (kw c rest : list Z) : trim (kw ++ 32 :: c ++ 59 :: rest) = kw ++ 32 :: c ++ 59 :: rest -> c <> [] -> cond_ok c = true ->
  after_kw (kw ++ 32 :: c ++ 59 :: rest) kw SB_LINE = c.
Proof.
  unfold cond_ok. intros Ht Hne H. repeat (apply andb_prop in H as [H ?]). apply Nat.ltb_lt in H0. apply bool_decide_eq_true in H1, H2.
  unfold after_kw. rewrite Ht, drop_app_length. change (trim (32 :: c ++ 59 :: rest)) with (trim (c ++ 59 :: rest)).
  replace (trim (c ++ 59 :: rest)) with (c ++ 59 :: rest).
  - rewrite (scan_all _ _ c _ H); [done | lia | by left].
  - destruct c as [|x c]; [done|]. unfold trim in *. cbn in *. destruct (is_blank x); [|done]. apply (f_equal length) in H2.
    assert (forall l, (length (skip is_blank l) <= length l)%nat) as L by (clear; induction l as [|y l IH]; cbn; [lia | destruct (is_blank y); cbn; lia]). specialize (L c). cbn in H2. lia.
Qed.

Lemma exec_empty fuel sb i to : (to <= i)%nat -> exec_block (W := W) (S fuel) sb i to = last_status.
Proof. intros H. cbn [exec_block]. by rewrite (proj2 (Nat.leb_le _ _)). Qed.

Lemma inline_if sb fuel c rest l s : row sb 0 = cs "if" ++ 32 :: c ++ 59 :: rest -> row sb 1 = l -> row sb 2 = cs "fi" -> c <> [] -> cond_ok c = true -> plain l ->
  exec_block (S (S fuel)) sb 0 3 s = andthen (exec1 c) (fun _ => last_status) s.
Proof.
  intros R0 <- R2 Hne Hc Hp. assert (K0 : key sb 0 = cs "if") by key_held. assert (K2 : key sb 2 = cs "fi") by key_held.
  remember (S fuel) as f. cbn [exec_block Nat.leb]. rewrite (key_starts sb 0 (cs "if") 105 _ K0 eq_refl) by done. unfold find_end. cbn [Nat.ltb Nat.leb Nat.sub find_kw find_close]. kw_simpl.
  cbn [find_else]. rewrite R0, inline_cond by done. subst f. apply andthen_ext; [done|]. intros z s'. rewrite !exec_empty by (cbn; lia). destruct (z =? 0); done.
Qed.

Lemma inline_while sb fuel c rest l s : row sb 0 = cs "while" ++ 32 :: c ++ 59 :: rest -> row sb 1 = l -> row sb 2 = cs "done" -> c <> [] -> cond_ok c = true -> plain l ->
  exec_block (S (S fuel)) sb 0 3 s = while_loop (S fuel) (exec1 c) last_status last_status s.
Proof.
  intros R0 <- R2 Hne Hc Hp. assert (K0 : key sb 0 = cs "while") by key_held. assert (K2 : key sb 2 = cs "done") by key_held.
  remember (S fuel) as f. cbn [exec_block Nat.leb]. rewrite (key_starts sb 0 (cs "while") 119 _ K0 eq_refl) by done. unfold find_done. cbn [Nat.ltb Nat.leb Nat.sub find_kw find_close]. kw_simpl.
  rewrite R0, inline_cond by done. subst f. by rewrite !exec_empty by (cbn; lia).
Qed.

(** The one-line forms that the help text of [nsh] gives do not run their bodies.  For
    a script with [if CMD; then] on one line, the command of the body is never executed:
    the script only evaluates the condition.  For [while CMD; do] the condition is
    evaluated again and again with an empty body.  The search for [then] and [do] looks at
    the first word of the lines after the header only. *)
Theorem inline_body_never_runs (c l : list Z) (fuel : nat) (s : sh W) :
  c <> [] -> cond_ok c = true -> line_ok (cs "if " ++ c ++ cs "; then") = true -> line_ok (cs "while " ++ c ++ cs "; do") = true ->
  line_ok l = true -> negb (bool_decide (token l ∈ kws)) = true ->
  main_script (S (S fuel)) (Some (text [cs "if " ++ c ++ cs "; then"; l; cs "fi"])) s =
    (do* main_env in andthen (exec1 c) (fun _ => last_status)) s /\
  main_script (S (S fuel)) (Some (text [cs "while " ++ c ++ cs "; do"; l; cs "done"])) s =
    (do* main_env in while_loop (S fuel) (exec1 c) last_status last_status) s.
Proof.
  intros Hne Hc Hi Hw Hl Hk. pose proof (line_plain l Hl Hk) as Hp. unfold main_script, bind. destruct (main_env s) as [[[] s1]|]; [|done]. split.
  - destruct (load_ok [cs "if " ++ c ++ cs "; then"; l; cs "fi"]) as (sb & -> & Hs & Hh & Hr); [by repeat constructor | cbn; unfold SB_MAX; lia|].
    split_held. by apply (inline_if sb fuel c (cs " then") l).
  - destruct (load_ok [cs "while " ++ c ++ cs "; do"; l; cs "done"]) as (sb & -> & Hs & Hh & Hr); [by repeat constructor | cbn; unfold SB_MAX; lia|].
    split_held. by apply (inline_while sb fuel c (cs " do") l).
Qed.
End Run.

(** ** A kernel for the examples *)

(** The world is the log of what was executed; every program is found under its own name,
    prints it and succeeds. *)
Definition demo : Type := list (list Z).
#[export] Instance demo_kernel : Kernel demo := {
  k_chdir := fun _ d _ => Some d;
  k_fork := fun acts _ _ w => (1, w ++ match acts with Execv p _ :: _ => [p] | _ => [] end);
  k_wait := fun _ w => (0, List.last w [], w);
  k_setfg := fun _ w => w;
  k_uptime := fun _ => 0 }.

Definition demo_sh (typed : list Z) : sh demo := mkSh 0 (replicate 32 (replicate 160 0)) 0 (cs "/") [] typed [] [].


(** [if true; then], [rm], [fi]: nothing is started. *)
Lemma inline_body_never_runs_witness : exists s',
  main_script 3 (Some (text [cs "if true; then"; cs "rm"; cs "fi"])) (demo_sh []) = Some (Ret 0, s') /\ s_world s' = [].
Proof.
  eexists. split.
  - refine (eq_trans (proj1 (inline_body_never_runs (cs "true") (cs "rm") 1 (demo_sh []) ltac:(done) eq_refl eq_refl eq_refl eq_refl eq_refl)) _). vm_compute. reflexivity.
  - vm_compute. reflexivity.
Defined.

(** ** Blocks typed one after the other *)

Lemma cstr_stop l r : Forall (fun c => c <> 0) l -> cstr (l ++ 0 :: r) = l.
Proof. induction 1 as [|c l Hc _ IH]; cbn; [done|]. by rewrite (proj2 (Z.eqb_neq _ _)), IH. Qed.

Lemma cstr_prefix l : (length (cstr l) < length l)%nat -> exists r, l = cstr l ++ 0 :: r.
Proof.
  induction l as [|c l IH]; cbn; [lia|]. destruct (Z.eqb_spec c 0) as [->|Hc]; [by exists l|]. cbn. intros H. destruct (IH ltac:(lia)) as [r E]. exists r. by f_equal.
Qed.

(** A line of a compound command typed at the prompt is stored without a terminator.
    If the row holds an older line at least as long, what is executed is the new line
    followed by the end of the old one. *)
Theorem typed_row_keeps_tail (n : nat) (got : list Z) (sb : rows) :
  (n < SB_MAX)%nat -> length sb = SB_MAX -> length (nth n sb []) = SB_LINE -> Forall (fun c => c <> 0) got ->
  (length got <= length (row sb n) < SB_LINE)%nat ->
  exists sb', put_row n got sb = Some sb' /\ row sb' n = got ++ drop (length got) (row sb n).
Proof.
  intros Hn Hs Hl Hg Hlen. unfold put_row. rewrite (proj2 (Nat.ltb_lt _ _)) by done. eexists. split; [done|].
  unfold row in *. rewrite nth_lookup, list_lookup_insert_eq by lia. cbn [default]. set (old := nth n sb []) in *.
  destruct (cstr_prefix old) as [r E]; [lia|]. set (t := cstr old) in *. pose proof (f_equal length E) as EL. rewrite length_app in EL. cbn [length] in EL.
  assert (Ht : Forall (fun c => c <> 0) t) by apply (row_clean sb n).
  unfold store_row, splice. change (Z.to_nat 0) with 0%nat. rewrite take_0. cbn [app Nat.add]. rewrite (take_ge got) by lia. rewrite E, drop_app_le, app_assoc by lia.
  assert (Hc : Forall (fun c => c <> 0) (got ++ drop (length got) t)) by (apply Forall_app; split; [done | by apply Forall_drop]).
  assert (Hd : length (got ++ drop (length got) t) = length t) by (rewrite length_app, length_drop; lia).
  destruct (decide (length t = 255%nat)) as [Ht'|Ht'].
  - rewrite insert_app_r_alt by (unfold SB_LINE in *; lia). replace (SB_LINE - 1 - length (got ++ drop (length got) t))%nat with 0%nat by (unfold SB_LINE in *; lia). by apply cstr_stop.
  - rewrite insert_app_r_alt by (unfold SB_LINE in *; lia). destruct (SB_LINE - 1 - length (got ++ drop (length got) t))%nat as [|k] eqn:Ek; [unfold SB_LINE in *; lia|]. by apply cstr_stop.
Qed.

(** "env" in a row that held "echo hello". *)
Lemma typed_row_keeps_tail_witness : exists sb',
  put_row 0 (cs "env") (<[0%nat := cs "echo hello" ++ replicate 246 0]> empty_sb) = Some sb' /\ row sb' 0 = cs "envo hello".
Proof.
  destruct (typed_row_keeps_tail 0 (cs "env") (<[0%nat := cs "echo hello" ++ replicate 246 0]> empty_sb)) as (sb' & E & R);
    [unfold SB_MAX; lia | reflexivity | reflexivity | by repeat constructor | vm_compute; lia |].
  exists sb'. split; [exact E | rewrite R; vm_compute; reflexivity].
Defined.

(** The same at the prompt: a second block runs a command nobody typed. *)
Example second_block_runs_other_command :
  let enter := mjoin ((fun l => l ++ [13]) <$> [cs "if true"; cs "then"; cs "echo hello"; cs "fi"; cs "if true"; cs "then"; cs "env"; cs "fi"; cs "exit"]) in
  exists s', main_interactive 12 (demo_sh enter) = Some (Quit 0, s') /\ s_world s' = [cs "echo"; cs "envo"].
Proof. eexists. split; vm_compute; reflexivity. Qed.
End ScriptRun.
