(* ===== verification/Utils.v ===== *)
(** * User programs that filter text (src/bin)

    sort, tail, head, wc, grep, cat, echo, seq and test.  A program gets its
    arguments (without its name), what each file name opens to and its
    standard input, and gives what it prints and its exit status.  Messages to
    the error output are left out. *)
From Stdlib Require String Ascii.
Import String.StringSyntax.
From stdpp Require Import sorting.
From S2P Require Import Prelude Bytes Proc Vfs Libc.

Module Utils.
Import Proc Vfs Libc.

Definition result : Type := list Z * Z.

(** One file after the other: output and status; a file that cannot be opened sets the
    status [err] and is skipped. *)
Fixpoint each_file (files : list Z -> option (list Z)) (err : Z) (body : list Z -> list Z -> list Z) (names : list (list Z)) : result :=
  match names with
  | [] => ([], 0)
  | n :: names =>
      let '(out, rc) := each_file files err body names in
      match files n with
      | Some f => (body n f ++ out, rc)
      | None => (out, err)
      end
  end.

(** ** sort *)

Definition SORT_MAX_LINES : nat := 512.
Definition SORT_LINE_MAX : nat := 256.

(** [room] rows are left; [buf] holds the characters of the current line.  A stored line
    is used up to its first NUL. *)
Fixpoint read_lines (room : nat) (f buf : list Z) : list (list Z) :=
  match room, f with
  | O, _ => []
  | S _, [] => match buf with [] => [] | _ => [cstr buf] end
  | S room', c :: f =>
      if c =? 13 then read_lines room f buf
      else if c =? 10 then cstr buf :: read_lines room' f []
      else if (length buf <? SORT_LINE_MAX - 1)%nat then read_lines room f (buf ++ [c])
      else read_lines room f buf
  end.

(** [j + 1 = k]: the rows above [j] have moved up by one. *)
Fixpoint sift (rev : bool) (key : list Z) (k : nat) (a : list (list Z)) : list (list Z) :=
  match k with
  | O => <[O := key]> a
  | S j =>
      let cmp := strcmp (nth j a []) key in
      if (if rev then cmp <? 0 else 0 <? cmp) then sift rev key j (<[k := nth j a []]> a)
      else <[k := key]> a
  end.

Definition insertion_sort (rev : bool) (a : list (list Z)) : list (list Z) :=
  foldl (fun a i => sift rev (nth i a []) i a) a (seq 1 (length a - 1)).

(** The lines of several files share the 512 rows. *)
Fixpoint read_files (files : list Z -> option (list Z)) (ls : list (list Z)) (names : list (list Z)) : list (list Z) :=
  match names with
  | [] => ls
  | n :: names =>
      match files n with
      | Some f => read_files files (ls ++ read_lines (SORT_MAX_LINES - length ls) f []) names
      | None => read_files files ls names
      end
  end.

Definition puts_lines (ls : list (list Z)) : list Z := mjoin ((fun l => l ++ [10]) <$> ls).

Definition sort_main (files : list Z -> option (list Z)) (stdin : list Z) (args : list (list Z)) : result :=
  let rev := match args with a :: _ => strcmp a (cs "-r") =? 0 | [] => false end in
  let names := if rev then drop 1 args else args in
  let ls := match names with [] => read_lines SORT_MAX_LINES stdin [] | _ => read_files files [] names end in
  (puts_lines (insertion_sort rev ls), 0).

(** ** tail *)

Definition TAIL_LINE_MAX : nat := 512.
Definition TAIL_LINES_MAX : Z := 100.

(** The rows, their lengths, the row being filled, the rows in use and the position in
    the row being filled. *)
Record ring := mkRing { t_rows : list (list Z); t_llen : list nat; t_head : nat; t_count : nat; t_pos : nat }.

Definition end_row (n : nat) (r : ring) : ring :=
  mkRing (<[t_head r := <[t_pos r := 0]> (nth (t_head r) (t_rows r) [])]> (t_rows r)) (<[t_head r := t_pos r]> (t_llen r))
    ((t_head r + 1) mod n) (if (t_count r <? n)%nat then S (t_count r) else t_count r) 0.

Definition tail_char (n : nat) (r : ring) (c : Z) : ring :=
  if c =? 13 then r
  else if c =? 10 then end_row n r
  else if (t_pos r <? TAIL_LINE_MAX - 1)%nat then
    mkRing (<[t_head r := <[t_pos r := c]> (nth (t_head r) (t_rows r) [])]> (t_rows r)) (t_llen r) (t_head r) (t_count r) (S (t_pos r))
  else r.

Definition ring0 (rows : list (list Z)) (llen : list nat) : ring := mkRing rows llen 0 0 0.

(** The rows and lengths are static: they keep what an earlier file left. *)
Definition tail_fd (n : Z) (rows : list (list Z)) (llen : list nat) (f : list Z) : list Z * (list (list Z) * list nat) :=
  let n := Z.to_nat (if (n <=? 0) || (TAIL_LINES_MAX <? n) then TAIL_LINES_MAX else n) in
  let r := foldl (tail_char n) (ring0 rows llen) f in
  let r := if (0 <? t_pos r)%nat then end_row n r else r in
  let start := ((t_head r + n - t_count r) mod n)%nat in
  (mjoin ((fun i => let idx := ((start + i) mod n)%nat in take (nth idx (t_llen r) 0%nat) (nth idx (t_rows r) []) ++ [10]) <$> seq 0 (t_count r)),
   (t_rows r, t_llen r)).

(** [-nN] or [-n N]; the rest are files. *)
Definition tail_args (args : list (list Z)) : Z * list (list Z) :=
  let '(n, names) :=
    match args with
    | a :: rest =>
        if (byte a 0 =? 45) && (byte a 1 =? 110) then
          if negb (byte a 2 =? 0) then (atoi (drop 2 a), rest)
          else match rest with b :: rest => (atoi b, rest) | [] => (10, args) end
        else (10, args)
    | [] => (10, [])
    end in
  (if n <=? 0 then 10 else n, names).

Definition banner (names : list (list Z)) (name : list Z) : list Z :=
  if (1 <? length names)%nat then print_to 1024 (cs "==> %s <==" ++ [10]) [AStr (Some name)] else [].

Fixpoint tail_files (files : list Z -> option (list Z)) (all : list (list Z)) (n : Z) (st : list (list Z) * list nat) (names : list (list Z)) : result :=
  match names with
  | [] => ([], 0)
  | name :: names =>
      match files name with
      | None => (fun r => (r.1, 1)) (tail_files files all n st names)
      | Some f =>
          let '(o, st) := tail_fd n st.1 st.2 f in
          let '(out, rc) := tail_files files all n st names in
          (banner all name ++ o ++ out, rc)
      end
  end.

Definition tail_static : list (list Z) * list nat := (replicate 100 (replicate TAIL_LINE_MAX 0), replicate 100 0%nat).

Definition tail_main (files : list Z -> option (list Z)) (stdin : list Z) (args : list (list Z)) : result :=
  let '(n, names) := tail_args args in
  match names with
  | [] => ((tail_fd n tail_static.1 tail_static.2 stdin).1, 0)
  | _ => tail_files files names n tail_static names
  end.

(** ** head *)

Fixpoint head_fd (n : Z) (f : list Z) : list Z :=
  match f with
  | [] => []
  | c :: f' => if 0 <? n then c :: head_fd (if c =? 10 then n - 1 else n) f' else []
  end.

Definition head_args (args : list (list Z)) : Z * list (list Z) :=
  let '(n, names) :=
    match args with
    | a :: rest =>
        if (byte a 0 =? 45) && (byte a 1 =? 110) then
          let n := atoi (drop 2 a) in
          match rest with
          | b :: rest' => if (n =? 0) && (byte a 2 =? 0) then (atoi b, rest') else (n, rest)
          | [] => (n, rest)
          end
        else (10, args)
    | [] => (10, [])
    end in
  (if n <=? 0 then 10 else n, names).

Definition head_main (files : list Z -> option (list Z)) (stdin : list Z) (args : list (list Z)) : result :=
  let '(n, names) := head_args args in
  match names with
  | [] => (head_fd n stdin, 0)
  | _ => each_file files 1 (fun name f => banner names name ++ head_fd n f) names
  end.

(** ** wc *)

Record counts := mkCounts { w_lines : Z; w_words : Z; w_bytes : Z; w_in : bool }.

Definition wc_char (w : counts) (c : Z) : counts :=
  let lines := if c =? 10 then w_lines w + 1 else w_lines w in
  if (c =? 32) || (c =? 9) || (c =? 10) || (c =? 13) then mkCounts lines (w_words w) (w_bytes w + 1) false
  else mkCounts lines (if w_in w then w_words w else w_words w + 1) (w_bytes w + 1) true.

Definition count (label : option (list Z)) (f : list Z) : list Z :=
  let w := foldl wc_char (mkCounts 0 0 0 false) f in
  print_to 1024 (cs "%8ld %8ld %8ld") [AInt (w_lines w); AInt (w_words w); AInt (w_bytes w)] ++
  (match label with None => [] | Some l => 32 :: l end) ++ [10].

(** Without a file there is no label. *)
Definition wc_main (files : list Z -> option (list Z)) (stdin : list Z) (args : list (list Z)) : result :=
  match args with
  | [] => (count None stdin, 0)
  | _ => each_file files 1 (fun n => count (Some n)) args
  end.

(** ** grep *)

Fixpoint starts_ci (h p : list Z) : bool :=
  match p, h with
  | [], _ => true
  | y :: p, x :: h => (tolower x =? tolower y) && starts_ci h p
  | _ :: _, [] => false
  end.

(** Every position of the line but its end. *)
Fixpoint match_ci (line pat : list Z) : bool :=
  match line with
  | [] => false
  | _ :: l => starts_ci line pat || match_ci l pat
  end.

Definition grep_match (line pat : list Z) (ci : bool) : bool :=
  if ci then match_ci line pat else bool_decide (is_Some (strstr line pat)).

(** A character read when 511 are stored ends the line and is not stored.  What is
    printed, and whether there was a match. *)
Fixpoint grep_loop (pat : list Z) (ci : bool) (name line f : list Z) : list Z * bool :=
  let flush (r : list Z * bool) : list Z * bool :=
    if grep_match (cstr line) pat ci then (name ++ cstr line ++ [10] ++ r.1, true) else r in
  match f with
  | [] => match line with [] => ([], false) | _ => flush ([], false) end
  | c :: f =>
      if (c =? 10) || (length line =? 511)%nat then flush (grep_loop pat ci name [] f)
      else grep_loop pat ci name (line ++ [c]) f
  end.

Definition grep_main (files : list Z -> option (list Z)) (stdin : list Z) (args : list (list Z)) : result :=
  let ci := match args with a :: _ => strcmp a (cs "-i") =? 0 | [] => false end in
  match (if ci then drop 1 args else args) with
  | [] => (cs "usage: grep [-i] <pattern> [file ...]" ++ [10], 2)
  | pat :: names =>
      let show n := if (1 <? length names)%nat then n ++ [58] else [] in
      let run n f := grep_loop pat ci (show n) [] f in
      let '(out, found, rc) :=
        match names with
        | [] => let '(o, b) := grep_loop pat ci [] [] stdin in (o, b, 0)
        | _ => (mjoin ((fun n => match files n with Some f => (run n f).1 | None => [] end) <$> names),
                existsb (fun n => match files n with Some f => (run n f).2 | None => false end) names,
                if existsb (fun n => bool_decide (files n = None)) names then 2 else 0)
        end in
      (out, if found then 0 else if rc =? 0 then 1 else rc)
  end.

(** ** cat *)

Definition cat_main (files : list Z -> option (list Z)) (stdin : list Z) (args : list (list Z)) : result :=
  match args with
  | [] => (stdin, 0)
  | a :: _ => match files a with Some f => (f, 0) | None => (cs "cat: cannot open " ++ a ++ [10], 1) end
  end.

(** ** echo *)

Fixpoint unescape (s : list Z) : list Z :=
  match s with
  | [] => []
  | c :: s' =>
      match s' with
      | d :: s'' =>
          if c =? 92 then
            (if d =? 110 then [10] else if d =? 116 then [9] else if d =? 114 then [13] else if d =? 92 then [92] else [92; d]) ++ unescape s''
          else c :: unescape s'
      | [] => [c]
      end
  end.
Definition echo_str (s : list Z) (escape : bool) : list Z := if escape then unescape s else s.

(** The leading words of a dash and of the letters [n] and [e]. *)
Fixpoint echo_flags (newline escape : bool) (args : list (list Z)) : bool * bool * list (list Z) :=
  match args with
  | (c :: f) :: rest =>
      if (c =? 45) && forallb (fun x => (x =? 110) || (x =? 101)) f then
        echo_flags (newline && negb (existsb (fun x => x =? 110) f)) (escape || existsb (fun x => x =? 101) f) rest
      else (newline, escape, args)
  | _ => (newline, escape, args)
  end.

Fixpoint echo_words (escape : bool) (args : list (list Z)) : list Z :=
  match args with
  | [] => []
  | [a] => echo_str a escape
  | a :: args => echo_str a escape ++ [32] ++ echo_words escape args
  end.

Definition echo_main (args : list (list Z)) : result :=
  let '(newline, escape, words) := echo_flags true false args in
  (echo_words escape words ++ (if newline then [10] else []), 0).

(** ** seq *)

Fixpoint seq_loop (fuel : nat) (i step last : Z) : list Z :=
  match fuel with
  | O => []
  | S fuel =>
      if (if 0 <? step then i <=? last else last <=? i) then
        print_to 32 (cs "%ld" ++ [10]) [AInt i] ++ seq_loop fuel (i + step) step last
      else []
  end.

(** [atoi] gives 32-bit values, so the 64-bit index does not overflow and the loop runs at
    most [|last - first| + 1] times. *)
Definition seq_main (args : list (list Z)) : result :=
  let go (first step last : Z) : result :=
    if step =? 0 then (cs "seq: step cannot be zero" ++ [10], 1)
    else (seq_loop (Z.to_nat (Z.abs (last - first) + 2)) first step last, 0) in
  match args with
  | [a] => go 1 1 (atoi a)
  | [a; b] => go (atoi a) 1 (atoi b)
  | [a; b; c] => go (atoi a) (atoi b) (atoi c)
  | _ => (cs "usage: seq [first [step]] last" ++ [10], 1)
  end.

(** ** test *)

(** The mode and size of a file, if it exists. *)
Definition stats : Type := list Z -> option (Z * Z).

Definition test_unary (st : stats) (op arg : list Z) : bool :=
  let named (n : list Z) := strcmp op n =? 0 in
  if named (cs "-z") then (length arg =? 0)%nat
  else if named (cs "-n") then negb (length arg =? 0)%nat
  else
    match st arg with
    | None => false
    | Some (mode, size) =>
        if named (cs "-e") then true
        else if named (cs "-f") then ctrue (Z.land mode 0x8000)
        else if named (cs "-d") then ctrue (Z.land mode 0x4000)
        else if named (cs "-r") then true
        else if named (cs "-s") then 0 <? size
        else false
    end.

Definition test_binary (a op b : list Z) : bool :=
  let named (n : list Z) := strcmp op n =? 0 in
  let cmp := strcmp a b in
  if named (cs "=") || named (cs "==") then cmp =? 0
  else if named (cs "!=") then negb (cmp =? 0)
  else if named (cs "<") then cmp <? 0
  else if named (cs ">") then 0 <? cmp
  else if named (cs "-eq") then atoi a =? atoi b
  else if named (cs "-ne") then negb (atoi a =? atoi b)
  else if named (cs "-lt") then atoi a <? atoi b
  else if named (cs "-le") then atoi a <=? atoi b
  else if named (cs "-gt") then atoi b <? atoi a
  else if named (cs "-ge") then atoi b <=? atoi a
  else false.

Fixpoint test_eval (st : stats) (args : list (list Z)) : bool :=
  match args with
  | [] => false
  | a :: rest =>
      if strcmp a (cs "!") =? 0 then negb (test_eval st rest)
      else match rest with
           | [] => negb (length a =? 0)%nat
           | [b] => if byte a 0 =? 45 then test_unary st a b else false
           | [op; b] => test_binary a op b
           | _ => false
           end
  end.

Definition test_main (st : stats) (args : list (list Z)) : Z :=
  let args := match last args with Some l => if strcmp l (cs "]") =? 0 then removelast args else args | None => args end in
  if test_eval st args then 1 else 0.
End Utils.
