(* ===== verification/UtilsSpec.v ===== *)
(** * User programs that filter text: correctness

    sort prints a sorted permutation of the lines of its files; tail prints the
    last lines. *)
From Stdlib Require String Ascii.
Import String.StringSyntax.
From stdpp Require Import sorting.
From S2P Require Import Prelude Bytes Proc Vfs Libc Utils.

Module UtilsSpec.
Import Proc Vfs Libc Utils.

(** ** The order of lines *)

Definition text_line (l : list Z) : Prop := Forall (fun c => 0 < c < 256 /\ c <> 10 /\ c <> 13) l.

(** [x] may stand before [y]. *)
Definition before (rev : bool) (x y : list Z) : Prop := if rev then 0 <= strcmp x y else strcmp x y <= 0.

Lemma strcmp_opp a : forall b, strcmp a b = - strcmp b a.
Proof. induction a as [|x a IH]; intros [|y b]; cbn; try lia. destruct (Z.eqb_spec x y) as [->|H]; [by rewrite Z.eqb_refl|]. rewrite (proj2 (Z.eqb_neq y x)) by done. lia. Qed.

Lemma strcmp_trans a : forall b c, text_line a -> text_line b -> text_line c -> strcmp a b <= 0 -> strcmp b c <= 0 -> strcmp a c <= 0.
Proof.
  induction a as [|x a IH]; intros b c Ha Hb Hc Hab Hbc.
  - destruct c as [|z c]; cbn; [done|]. inversion Hc; subst. lia.
  - destruct b as [|y b]; [inversion Ha; subst; cbn in *; lia|]. destruct c as [|z c]; [inversion Hb; subst; cbn in *; lia|].
    apply Forall_cons in Ha as [? Ha], Hb as [? Hb], Hc as [? Hc]. cbn in *. destruct (Z.eqb_spec x y) as [->|Hxy].
    + destruct (Z.eqb_spec y z) as [->|]; [by apply (IH b c) | done].
    + destruct (Z.eqb_spec y z) as [->|]; [rewrite (proj2 (Z.eqb_neq x z)) by done; lia|]. rewrite (proj2 (Z.eqb_neq x z)) by lia. lia.
Qed.

Lemma before_trans rev a b c : text_line a -> text_line b -> text_line c -> before rev a b -> before rev b c -> before rev a c.
Proof.
  intros Ha Hb Hc. destruct rev; cbn; [|by apply strcmp_trans]. rewrite (strcmp_opp a b), (strcmp_opp b c), (strcmp_opp a c). intros H1 H2.
  pose proof (strcmp_trans c b a Hc Hb Ha). lia.
Qed.

(** ** Insertion sort *)

Definition above (rev : bool) (x key : list Z) : bool := if rev then strcmp x key <? 0 else 0 <? strcmp x key.

Lemma sift_spec rev key q p : forall y, exists l1 l2, p = l1 ++ l2 /\ sift rev key (length p) (p ++ y :: q) = l1 ++ key :: l2 ++ q /\
  Forall (fun x => above rev x key = true) l2 /\ forall x, last l1 = Some x -> above rev x key = false.
Proof.
  revert q. induction p as [|x p IH] using rev_ind; intros q y.
  - exists [], []. split_and!; try done.
  - rewrite length_app, Nat.add_1_r, <- app_assoc. cbn [app sift]. rewrite nth_middle.
    change (if rev then strcmp x key <? 0 else 0 <? strcmp x key) with (above rev x key). destruct (above rev x key) eqn:E.
    + replace (<[S (length p) := x]> (p ++ x :: y :: q)) with (p ++ x :: x :: q) by (rewrite insert_app_r_alt by lia; by replace (S (length p) - length p)%nat with 1%nat by lia).
      destruct (IH (x :: q) x) as (l1 & l2 & -> & Hs & Hf & Hl). exists l1, (l2 ++ [x]). split_and!; [by rewrite app_assoc | rewrite Hs; by rewrite <- (app_assoc l2 [x] q) | apply Forall_app; split; [done | by repeat constructor] | done].
    + exists (p ++ [x]), []. split_and!; [by rewrite app_nil_r | | done | intros z; rewrite last_snoc; by intros [= <-]].
      rewrite insert_app_r_alt by lia. replace (S (length p) - length p)%nat with 1%nat by lia. by rewrite <- app_assoc.
Qed.

Lemma sift_sorted rev key q p y : Forall text_line p -> text_line key -> StronglySorted (before rev) p ->
  exists p', sift rev key (length p) (p ++ y :: q) = p' ++ q /\ p' ≡ₚ key :: p /\ StronglySorted (before rev) p'.
Proof.
  intros Hp Hk Hs. destruct (sift_spec rev key q p y) as (l1 & l2 & -> & -> & H2 & H1). exists (l1 ++ key :: l2). split_and!; [by rewrite <- app_assoc | by rewrite Permutation_middle |].
  apply Forall_app in Hp as [Hp1 Hp2]. pose proof (StronglySorted_app_1_l _ _ _ Hs) as S1. pose proof (StronglySorted_app_1_r _ _ _ Hs) as S2.
  assert (K1 : Forall (fun x => before rev x key) l1).
  { destruct l1 as [|z l1'] using rev_ind; [done|]. clear IHl1'. specialize (H1 z). rewrite last_snoc in H1. specialize (H1 eq_refl).
    apply Forall_app in Hp1 as [Hp1 Hz]. assert (Bz : before rev z key) by (unfold above, before in *; destruct rev; lia). apply Forall_app. split; [|by repeat constructor].
    inversion Hz; subst. apply Forall_forall. intros x Hx. eapply (before_trans rev x z key); [by eapply Forall_forall in Hp1 | done | done | | done].
    eapply (StronglySorted_app_1_elem_of _ l1' [z]); [done | done | by apply list_elem_of_singleton]. }
  assert (K2 : Forall (fun x => before rev key x) l2) by (eapply Forall_impl; [exact H2|]; intros x; unfold above, before; rewrite (strcmp_opp key x); destruct rev; lia).
  apply StronglySorted_app_2; [| done | by constructor]. intros x1 x2 Hx1 Hx2. eapply Forall_forall in K1; [|exact Hx1]. apply elem_of_cons in Hx2 as [->|Hx2]; [done|].
  eapply Forall_forall in K2; [|exact Hx2]. apply (before_trans rev x1 key x2); [by eapply Forall_forall in Hp1 | done | by eapply Forall_forall in Hp2 | done | done].
Qed.

Lemma insertion_sort_sorts rev a : Forall text_line a -> insertion_sort rev a ≡ₚ a /\ StronglySorted (before rev) (insertion_sort rev a).
Proof.
  intros Ha. unfold insertion_sort.
  enough (G : forall n i q p, length p = i -> length q = n -> Forall text_line (p ++ q) -> StronglySorted (before rev) p ->
    let b := foldl (fun a i => sift rev (nth i a []) i a) (p ++ q) (seq i n) in b ≡ₚ p ++ q /\ StronglySorted (before rev) b).
  { destruct a as [|x a]; [by repeat constructor|]. cbn [length]. rewrite Nat.sub_succ, Nat.sub_0_r. apply (G (length a) 1%nat a [x]); [done | done | done | by repeat constructor]. }
  induction n as [|n IH]; intros i q p Hp Hq Ht Hs; [destruct q; [|done]; rewrite app_nil_r; done|]. cbn [seq foldl].
  destruct q as [|y q]; [done|]. rewrite <- Hp, nth_middle. pose proof Ht as Ht'. apply Forall_app in Ht' as [Tp Tq]. apply Forall_cons in Tq as [Ty Tq].
  destruct (sift_sorted rev y q p y Tp Ty Hs) as (p' & -> & Hperm & Hs'). cbn in Hq.
  destruct (IH (S (length p)) q p') as [H1 H2]; [by rewrite Hperm | lia | rewrite Hperm; apply Forall_app; split; [by constructor | done] | done|].
  split; [|done]. rewrite H1, Hperm. by apply Permutation_middle.
Qed.

(** ** Reading lines *)

Lemma cstr_text l : text_line l -> cstr l = l.
Proof. induction 1 as [|c l (Hc & _) _ IH]; cbn; [done|]. by rewrite (proj2 (Z.eqb_neq _ _)), IH by lia. Qed.

Lemma read_line l r room buf : text_line l -> text_line buf -> (length buf + length l < SORT_LINE_MAX)%nat -> read_lines (S room) (l ++ 10 :: r) buf = (buf ++ l) :: read_lines room r [].
Proof.
  revert buf. induction l as [|c l IH]; intros buf Hl Hb Hn; cbn [app].
  - cbn. rewrite app_nil_r, cstr_text by done. done.
  - apply Forall_cons in Hl as [(Hc & H10 & H13) Hl]. cbn [read_lines]. rewrite !(proj2 (Z.eqb_neq _ _)) by done. cbn [length] in Hn. rewrite (proj2 (Nat.ltb_lt _ _)) by lia.
    rewrite IH; [by rewrite <- app_assoc | done | apply Forall_app; split; [done | by apply Forall_singleton] | rewrite length_app; cbn; lia].
Qed.

Lemma puts_lines_cons l ls : puts_lines (l :: ls) = l ++ 10 :: puts_lines ls.
Proof. unfold puts_lines. cbn. by rewrite <- app_assoc. Qed.

Definition sort_line (l : list Z) : Prop := text_line l /\ (length l < SORT_LINE_MAX)%nat.

Lemma read_lines_text ls : Forall sort_line ls -> forall room, (length ls <= room)%nat -> read_lines room (puts_lines ls) [] = ls.
Proof.
  induction 1 as [|l ls [Hl Hn] _ IH]; intros room Hr; [by destruct room|]. destruct room as [|room]; cbn [length] in Hr; [lia|].
  rewrite puts_lines_cons, read_line by (done || constructor). cbn [app]. by rewrite IH by lia.
Qed.

Lemma read_files_text files names lss : Forall2 (fun n ls => files n = Some (puts_lines ls) /\ Forall sort_line ls) names lss ->
  forall acc, (length acc + length (mjoin lss) <= SORT_MAX_LINES)%nat -> read_files files acc names = acc ++ mjoin lss.
Proof.
  induction 1 as [|n ls names lss [Hn Hls] _ IH]; intros acc Ha; [cbn; by rewrite app_nil_r|]. change (mjoin (ls :: lss)) with (ls ++ mjoin lss) in *. rewrite length_app in Ha.
  cbn [read_files]. rewrite Hn, read_lines_text by (done || lia). rewrite IH by (rewrite length_app; lia). by rewrite <- app_assoc.
Qed.

(** sort prints the lines of all its files in order.  For files that together have at
    most 512 lines of at most 255 characters, the output is a permutation of their lines,
    no line lost or repeated, and every line compares at most equal to all that follow
    (at least equal with -r). *)
Theorem sort_sorts files stdin (rev : bool) names lss : names <> [] -> strcmp (hd [] names) (cs "-r") <> 0 ->
  Forall2 (fun n ls => files n = Some (puts_lines ls) /\ Forall sort_line ls) names lss -> (length (mjoin lss) <= SORT_MAX_LINES)%nat ->
  exists out, sort_main files stdin (if rev then cs "-r" :: names else names) = (puts_lines out, 0) /\ out ≡ₚ mjoin lss /\ StronglySorted (before rev) out.
Proof.
  intros Hne Hr Hf Hn. exists (insertion_sort rev (mjoin lss)).
  assert (Ht : Forall text_line (mjoin lss)).
  { clear -Hf. induction Hf as [|n ls names lss [_ H] _ IH]; [constructor|]. apply Forall_app. split; [|done]. eapply Forall_impl; [exact H|]. by intros ? [? _]. }
  split; [|by apply insertion_sort_sorts].
  unfold sort_main. destruct rev.
  - change (strcmp (cs "-r") (cs "-r") =? 0) with true. change (drop 1 (cs "-r" :: names)) with names. cbv zeta. cbv iota. destruct names; [done|]. cbv iota. by rewrite (read_files_text files _ lss Hf []) by done.
  - destruct names as [|n names]; [done|]. cbn [hd] in Hr. cbv zeta. rewrite (proj2 (Z.eqb_neq _ _)) by done. cbv iota. by rewrite (read_files_text files _ lss Hf []) by done.
Qed.

(** Two files, in reverse order. *)
Lemma sort_sorts_witness : exists out,
  sort_main (fun n => if bool_decide (n = [97]) then Some (puts_lines [[98]; [100; 100]]) else Some (puts_lines [[99]])) [] [cs "-r"; [97]; [98]] = (puts_lines out, 0) /\
  out ≡ₚ [[98]; [100; 100]; [99]] /\ StronglySorted (before true) out.
Proof.
  apply (sort_sorts (fun n => if bool_decide (n = [97]) then Some (puts_lines [[98]; [100; 100]]) else Some (puts_lines [[99]])) [] true [[97]; [98]] [[[98]; [100; 100]]; [[99]]]);
    [done | done | | cbn; unfold SORT_MAX_LINES; lia].
  repeat constructor; try (cbn; unfold SORT_LINE_MAX; lia).
Defined.

(** ** The ring of tail *)

Lemma mod_ne i j N : (i < j < i + N)%nat -> (i mod N <> j mod N)%nat.
Proof.
  intros H E. pose proof (Nat.div_mod_eq i N). pose proof (Nat.div_mod_eq j N). assert (N * (j / N) - N * (i / N) = j - i)%nat by lia.
  assert (j / N <= i / N \/ i / N + 1 <= j / N)%nat as [?|?] by lia; nia.
Qed.

Definition ring_ok (r : ring) : Prop :=
  length (t_rows r) = 100%nat /\ length (t_llen r) = 100%nat /\ Forall (fun row => length row = TAIL_LINE_MAX) (t_rows r).

(** The ring after the complete lines [L]: the last [N] of them are in their rows. *)
Record ring_holds (N : nat) (L : list (list Z)) (r : ring) : Prop := {
  rh_ok : ring_ok r;
  rh_pos : t_pos r = 0%nat;
  rh_head : t_head r = (length L mod N)%nat;
  rh_count : t_count r = Nat.min N (length L);
  rh_line : forall i l, L !! i = Some l -> (length L <= i + N)%nat ->
    nth (i mod N)%nat (t_llen r) 0%nat = length l /\ take (length l) (nth (i mod N)%nat (t_rows r) []) = l }.

Definition tail_line (l : list Z) : Prop := text_line l /\ (length l < TAIL_LINE_MAX)%nat.

(** The characters of a line go to the row at the head. *)
Lemma fill_row N l : text_line l -> forall rows llen h cnt pos row, length row = TAIL_LINE_MAX -> (h < length rows)%nat -> (pos + length l < TAIL_LINE_MAX)%nat ->
  exists row', length row' = TAIL_LINE_MAX /\ take (pos + length l) row' = take pos row ++ l /\
    foldl (tail_char N) (mkRing (<[h := row]> rows) llen h cnt pos) l = mkRing (<[h := row']> rows) llen h cnt (pos + length l).
Proof.
  induction 1 as [|c l (Hc & H10 & H13) _ IH]; intros rows llen h cnt pos row Hr Hh Hp.
  - exists row. rewrite Nat.add_0_r, app_nil_r. done.
  - cbn [foldl length] in *. unfold tail_char at 2. cbn [t_pos t_rows t_llen t_head t_count]. rewrite !(proj2 (Z.eqb_neq _ _)) by done. rewrite (proj2 (Nat.ltb_lt _ _)) by lia.
    rewrite nth_lookup, list_lookup_insert_eq by done. change (default [] (Some row)) with row. rewrite list_insert_insert_eq.
    destruct (IH rows llen h cnt (S pos) (<[pos := c]> row)) as (row' & Hl & Ht & E); [by rewrite length_insert | done | lia|].
    exists row'. rewrite <- Nat.add_succ_comm. split_and!; [done | | done]. rewrite Ht. rewrite (take_S_r _ pos c) by (apply list_lookup_insert_eq; lia).
    rewrite take_insert_ge by done. by rewrite <- app_assoc.
Qed.

Lemma ring_line N L l r : (0 < N <= 100)%nat -> tail_line l -> ring_holds N L r ->
  exists r', foldl (tail_char N) r l = r' /\ t_pos r' = length l /\ ring_holds N (L ++ [l]) (end_row N r').
Proof.
  intros HN [Hl Hlen] [(R1 & R2 & R3) P0 Hh Hc Hi]. pose proof (Nat.mod_upper_bound (length L) N ltac:(lia)) as Hb.
  destruct (lookup_lt_is_Some_2 (t_rows r) (t_head r)) as [row Hrow]; [rewrite Hh; lia|].
  destruct (fill_row N l Hl (t_rows r) (t_llen r) (t_head r) (t_count r) 0 row) as (row' & Hr' & Ht & E); [by eapply Forall_lookup_1 in R3 | rewrite Hh; lia | lia|].
  rewrite list_insert_id in E by done. destruct r as [rows llen h cnt pos]. cbn [t_rows t_llen t_head t_count t_pos] in *. subst pos. eexists. split; [exact E|]. split; [done|].
  rewrite take_0 in Ht. cbn [app Nat.add] in Ht. unfold end_row. cbn [t_rows t_llen t_head t_count t_pos Nat.add]. rewrite nth_lookup, list_lookup_insert_eq by lia. change (default [] (Some row')) with row'. rewrite list_insert_insert_eq.
  split; cbn [t_rows t_llen t_head t_count t_pos].
  - split_and!; cbn; rewrite ?length_insert; try done. apply Forall_insert; [done | by rewrite length_insert].
  - done.
  - rewrite Hh, length_app. cbn [length]. rewrite Nat.Div0.add_mod_idemp_l. done.
  - rewrite length_app. cbn [length]. destruct (Nat.ltb_spec cnt N); lia.
  - intros i x Hx Hin. rewrite length_app in Hin. cbn [length] in Hin. rewrite !nth_lookup. apply lookup_app_Some in Hx as [Hx|[Hge Hx]].
    + apply lookup_lt_Some in Hx as Hlt. assert (h <> i mod N)%nat by (rewrite Hh; apply not_eq_sym, mod_ne; lia). rewrite !list_lookup_insert_ne by done. rewrite <- !nth_lookup. apply Hi; [done | lia].
    + apply list_lookup_singleton_Some in Hx as [Hx <-]. replace i with (length L) by lia. rewrite <- Hh, !list_lookup_insert_eq by lia. cbn. split; [done|]. by rewrite take_insert_ge.
Qed.

Lemma ring_lines N ls : (0 < N <= 100)%nat -> Forall tail_line ls -> forall L r, ring_holds N L r -> ring_holds N (L ++ ls) (foldl (tail_char N) r (puts_lines ls)).
Proof.
  intros HN. induction 1 as [|l ls Hl _ IH]; intros L r Hr; [by rewrite app_nil_r|]. rewrite puts_lines_cons, foldl_app. cbn [foldl].
  destruct (ring_line N L l r HN Hl Hr) as (r' & -> & _ & H). change (tail_char N r' 10) with (end_row N r'). specialize (IH (L ++ [l]) _ H). by rewrite <- app_assoc in IH.
Qed.

(** What is printed: the rows in use, oldest first. *)
Lemma ring_prints N L r : (0 < N <= 100)%nat -> ring_holds N L r ->
  mjoin ((fun i => take (nth ((((t_head r + N - t_count r) mod N + i) mod N)%nat) (t_llen r) 0%nat) (nth ((((t_head r + N - t_count r) mod N + i) mod N)%nat) (t_rows r) []) ++ [10]) <$> seq 0 (t_count r))
  = puts_lines (drop (length L - N) L).
Proof.
  intros HN [_ _ Hh Hc Hi]. unfold puts_lines. f_equal. apply list_eq. intros i. rewrite !list_lookup_fmap, lookup_drop. destruct (decide (i < t_count r)%nat) as [Hlt|Hge]; cycle 1.
  { rewrite lookup_seq_ge by lia. rewrite lookup_ge_None_2 by lia. done. }
  rewrite lookup_seq_lt by done. destruct (lookup_lt_is_Some_2 L (length L - N + i)) as [l Hl]; [lia|]. rewrite Hl. cbn. f_equal. f_equal.
  assert (Ei : (((t_head r + N - t_count r) mod N + i) mod N = (length L - N + i) mod N)%nat).
  { rewrite Nat.Div0.add_mod_idemp_l, Hh. replace (length L mod N + N - t_count r + i)%nat with (length L mod N + (N - t_count r + i))%nat by lia.
    rewrite Nat.Div0.add_mod_idemp_l. destruct (decide (N <= length L)%nat) as [H|H].
    - replace (length L + (N - t_count r + i))%nat with (length L - N + i + 1 * N)%nat by lia. by rewrite Nat.Div0.mod_add.
    - replace (length L + (N - t_count r + i))%nat with (i + 1 * N)%nat by lia. rewrite Nat.Div0.mod_add. f_equal. lia. }
  rewrite Ei. destruct (Hi _ l Hl) as [E1 E2]; [lia|]. by rewrite E1, E2.
Qed.

(** tail prints the last lines of a file.  With 1 to 100 lines asked for, a file of
    any number of lines of at most 511 characters, the last one with or without a line
    end, and whatever an earlier file has left in the line buffers, the ring of line
    buffers comes out as the last N lines in order, each with a line end. *)
Theorem tail_prints_last_lines (n : Z) rows llen ls l : 1 <= n <= 100 -> ring_ok (ring0 rows llen) -> Forall tail_line ls -> tail_line l ->
  let all := ls ++ match l with [] => [] | _ => [l] end in
  (tail_fd n rows llen (puts_lines ls ++ l)).1 = puts_lines (drop (length all - Z.to_nat n) all).
Proof.
  intros Hn Hok Hls Hl all. unfold tail_fd. rewrite (proj2 (Z.leb_gt n 0)), (proj2 (Z.ltb_ge TAIL_LINES_MAX n)) by (unfold TAIL_LINES_MAX; lia). cbn [orb]. set (N := Z.to_nat n). assert (HN : (0 < N <= 100)%nat) by lia.
  assert (H0 : ring_holds N [] (ring0 rows llen)) by (split; cbn; [done | done | by rewrite Nat.Div0.mod_0_l | lia | done]).
  rewrite foldl_app. pose proof (ring_lines N ls HN Hls [] _ H0) as H1. cbn [app] in H1.
  destruct l as [|c l].
  - cbn [foldl]. rewrite (rh_pos _ _ _ H1). cbn [Nat.ltb Nat.leb fst]. unfold all. rewrite app_nil_r. by apply ring_prints.
  - destruct (ring_line N ls (c :: l) _ HN Hl H1) as (r' & -> & Hp & H2). rewrite Hp. cbn [length Nat.ltb Nat.leb fst]. by apply ring_prints.
Qed.

(** The last two of three lines; the last has no line end. *)
Lemma tail_prints_last_lines_witness : (tail_fd 2 tail_static.1 tail_static.2 (puts_lines [[97]; [98]] ++ [99])).1 = puts_lines [[98]; [99]].
Proof.
  rewrite (tail_prints_last_lines 2 tail_static.1 tail_static.2 [[97]; [98]] [99]); [reflexivity | lia | | | ].
  - split_and!; [reflexivity | reflexivity | by apply Forall_replicate].
  - repeat constructor; try (cbn; unfold TAIL_LINE_MAX; lia).
  - repeat constructor; try (cbn; unfold TAIL_LINE_MAX; lia).
Defined.
End UtilsSpec.
