(* ===== verification/FileUtils.v ===== *)
(** * User programs that work on files (src/bin)

    cp, touch, mkdir, rm, mv, ls and ps.  The system calls they make are the
    class [FileSys]; a program gets its arguments (without its name) and gives
    what it prints, its exit status and the system after it.  Messages to the
    error output are left out.  [RegularFiles] states what calls on them do,
    and cp is proved against it. *)
From Stdlib Require String Ascii.
Import String.StringSyntax.
From S2P Require Import Prelude Bytes Proc Vfs.

Module FileUtils.
Import Proc Vfs.

Abbreviation O_RDONLY := 0x00.
Abbreviation O_WRONLY := 0x01.
Abbreviation O_CREAT := 0x40.
Abbreviation O_TRUNC := 0x200.

(** The calls; [fs_read] and [fs_getdents] give the result and the bytes stored,
    [fs_procinfo] the pid, the state and the name of the process with an index. *)
Class FileSys (W : Type) := {
  fs_open : list Z -> Z -> W -> Z * W;
  fs_read : Z -> Z -> W -> Z * list Z * W;
  fs_write : Z -> list Z -> W -> Z * W;
  fs_close : Z -> W -> Z * W;
  fs_mkdir : list Z -> W -> Z * W;
  fs_unlink : list Z -> W -> Z * W;
  fs_rename : list Z -> list Z -> W -> Z * W;
  fs_getdents : list Z -> Z -> W -> Z * list Z * W;
  fs_procinfo : Z -> W -> option (Z * Z * list Z)
}.

Section Programs.
Context {W : Type} `{!FileSys W}.

(** ** cp *)

Fixpoint copy_loop (fuel : nat) (src dst : Z) (w : W) : option W :=
  match fuel with
  | O => None
  | S fuel =>
      let '(n, buf, w) := fs_read src 512 w in
      if 0 <? n then let '(_, w) := fs_write dst (take (Z.to_nat n) buf) w in copy_loop fuel src dst w
      else Some w
  end.

Definition cp_main (fuel : nat) (args : list (list Z)) (w : W) : option (list Z * Z * W) :=
  match args with
  | a :: b :: _ =>
      let '(src, w) := fs_open a O_RDONLY w in
      if src <? 0 then Some ([], 1, w)
      else
        let '(dst, w) := fs_open b (Z.lor O_WRONLY (Z.lor O_CREAT O_TRUNC)) w in
        if dst <? 0 then let '(_, w) := fs_close src w in Some ([], 1, w)
        else
          match copy_loop fuel src dst w with
          | None => None
          | Some w =>
              let '(_, w) := fs_close src w in
              let '(_, w) := fs_close dst w in
              Some ([], 0, w)
          end
  | _ => Some (cs "usage: cp <src> <dst>" ++ [10], 1, w)
  end.

(** ** touch, mkdir, rm, mv *)

(** A call for every argument; a failure prints and sets the status. *)
Fixpoint each_arg (call : list Z -> W -> bool * W) (msg : list Z -> list Z) (args : list (list Z)) (w : W) : list Z * Z * W :=
  match args with
  | [] => ([], 0, w)
  | a :: args =>
      let '(ok, w) := call a w in
      let '(out, rc, w) := each_arg call msg args w in
      if ok then (out, rc, w) else (msg a ++ out, 1, w)
  end.

Definition touch_one (a : list Z) (w : W) : bool * W :=
  let '(fd, w) := fs_open a (Z.lor O_WRONLY O_CREAT) w in
  if fd <? 0 then (false, w) else let '(_, w) := fs_close fd w in (true, w).

Definition touch_main (args : list (list Z)) (w : W) : list Z * Z * W :=
  match args with
  | [] => (cs "usage: touch <file> [file ...]" ++ [10], 1, w)
  | _ => each_arg touch_one (fun _ => []) args w
  end.

Definition mkdir_main (args : list (list Z)) (w : W) : list Z * Z * W :=
  match args with
  | [] => (cs "usage: mkdir <dir> [dir ...]" ++ [10], 1, w)
  | _ => each_arg (fun a w => let '(r, w) := fs_mkdir a w in (negb (r <? 0), w)) (fun a => cs "mkdir: cannot create " ++ a ++ [10]) args w
  end.

Definition rm_main (args : list (list Z)) (w : W) : list Z * Z * W :=
  match args with
  | [] => (cs "usage: rm <file> [file ...]" ++ [10], 1, w)
  | _ => each_arg (fun a w => let '(r, w) := fs_unlink a w in (negb (r <? 0), w)) (fun a => cs "rm: cannot remove " ++ a ++ [10]) args w
  end.

Definition mv_main (args : list (list Z)) (w : W) : list Z * Z * W :=
  match args with
  | [a; b] =>
      let '(r, w) := fs_rename a b w in
      if r <? 0 then (cs "mv: cannot rename " ++ a ++ cs " to " ++ b ++ [10], 1, w) else ([], 0, w)
  | _ => (cs "usage: mv <src> <dst>" ++ [10], 1, w)
  end.

(** ** ls and ps *)

(** Entry [i] of the directory data: inode, record length, name length, type and name. *)
Definition ls_entry (buf : list Z) (i : Z) : list Z :=
  let e := drop (Z.to_nat (32 * i)) buf in
  if get32 e 0 =? 0 then []
  else if byte e 8 =? 46 then []
  else cstr (drop 8 e) ++ (if byte e 7 =? 2 then cs "/" else []) ++ [10].

Definition ls_main (args : list (list Z)) (w : W) : list Z * Z * W :=
  let path := match args with a :: _ => a | [] => cs "." end in
  let '(n, buf, w) := fs_getdents path (128 * 32) w in
  if n <? 0 then (cs "ls: cannot read directory" ++ [10], 1, w)
  else (mjoin (ls_entry buf <$> seqZ 0 (n / 32)), 0, w).

Definition puti (v : Z) : list Z := if v <? 0 then 45 :: uint_to_str (u64 (- v)) else uint_to_str v.

Definition state_char (s : Z) : Z := if (0 <=? s) && (s <? 4) then nth (Z.to_nat s) (cs "RrBZ") 0 else 63.

(** The processes from index [i] on, until [procinfo] finds none. *)
Fixpoint ps_loop (fuel : nat) (i : Z) (w : W) : option (list Z) :=
  match fuel with
  | O => None
  | S fuel =>
      match fs_procinfo i w with
      | None => Some []
      | Some (pid, state, name) =>
          out ← ps_loop fuel (i + 1) w;
          Some (cs "  " ++ puti pid ++ cs " " ++ [state_char state] ++ cs " " ++ name ++ [10] ++ out)
      end
  end.
Definition ps_main (fuel : nat) (w : W) : option (list Z * Z) :=
  out ← ps_loop fuel 0 w; Some (cs "  PID S NAME" ++ [10] ++ out, 0).
End Programs.

Definition true_main : Z := 0.
Definition false_main : Z := 1.

(** ** Regular files *)

(** What the calls promise on regular files: [content] of a path, and the path and
    offset behind a descriptor.  A read may give fewer bytes than asked for, but some
    when there are any; a write at the end of a file appends all its data. *)
Class RegularFiles (W : Type) `{!FileSys W} := {
  content : W -> list Z -> option (list Z);
  handle : W -> Z -> option (list Z * Z);
  open_existing a w : is_Some (content w a) -> exists fd w', fs_open a O_RDONLY w = (fd, w') /\ 0 <= fd /\ handle w fd = None /\
    (forall p, content w' p = content w p) /\ handle w' fd = Some (a, 0) /\ (forall f, f <> fd -> handle w' f = handle w f);
  open_create b w : let '(fd, w') := fs_open b (Z.lor O_WRONLY (Z.lor O_CREAT O_TRUNC)) w in
    (fd < 0 /\ w' = w) \/
    (0 <= fd /\ handle w fd = None /\ content w' b = Some [] /\ (forall p, p <> b -> content w' p = content w p) /\
     handle w' fd = Some (b, 0) /\ (forall f, f <> fd -> handle w' f = handle w f));
  read_some fd len w a o c : handle w fd = Some (a, o) -> content w a = Some c -> 0 < len -> 0 <= o ->
    let '(n, buf, w') := fs_read fd len w in
    0 <= n <= len /\ (o < Z.of_nat (length c) -> 0 < n) /\ o + n <= Z.max o (Z.of_nat (length c)) /\
    take (Z.to_nat n) buf = take (Z.to_nat n) (drop (Z.to_nat o) c) /\
    (forall p, content w' p = content w p) /\ handle w' fd = Some (a, o + n) /\ (forall f, f <> fd -> handle w' f = handle w f);
  write_append fd data w b c : handle w fd = Some (b, Z.of_nat (length c)) -> content w b = Some c ->
    let '(n, w') := fs_write fd data w in
    content w' b = Some (c ++ data) /\ (forall p, p <> b -> content w' p = content w p) /\
    handle w' fd = Some (b, Z.of_nat (length (c ++ data))) /\ (forall f, f <> fd -> handle w' f = handle w f);
  close_keeps fd w : let '(r, w') := fs_close fd w in forall p, content w' p = content w p
}.

Section Cp.
Context {W : Type} `{!FileSys W, !RegularFiles W}.

(** The loop appends what is left of the source. *)
Lemma copy_loop_ok a b c src dst : a <> b -> src <> dst -> forall fuel o w, handle w src = Some (a, Z.of_nat o) -> content w a = Some c ->
  handle w dst = Some (b, Z.of_nat (length (take o c))) -> content w b = Some (take o c) -> (length c - o < fuel)%nat ->
  exists w', copy_loop fuel src dst w = Some w' /\ content w' b = Some c /\ forall p, p <> b -> content w' p = content w p.
Proof.
  intros Hab Hsd. induction fuel as [|fuel IH]; intros o w Hs Ha Hd Hb Hf; [lia|]. cbn [copy_loop].
  pose proof (read_some src 512 w a (Z.of_nat o) c Hs Ha ltac:(lia) ltac:(lia)) as Hr.
  destruct (fs_read src 512 w) as [[n buf] w1]. destruct Hr as (Hn & Hpos & Hmax & Hbuf & Hc1 & Hs1 & Ho1).
  destruct (Z.ltb_spec 0 n) as [H0|H0]; cycle 1.
  { exists w1. split_and!; [done | | intros p _; apply Hc1]. rewrite Hc1, Hb, take_ge; [done | lia]. }
  pose proof (write_append dst (take (Z.to_nat n) buf) w1 b (take o c)) as Hw.
  rewrite Ho1, Hc1 in Hw by done. specialize (Hw Hd Hb). destruct (fs_write dst _ w1) as [k w2]. destruct Hw as (Hb2 & Hc2 & Hd2 & Ho2).
  rewrite Hbuf, Nat2Z.id, take_take_drop in Hb2, Hd2. 
  destruct (IH (o + Z.to_nat n)%nat w2) as (w' & E & Hb' & Hc'); [| | done | done | lia |].
  - rewrite Ho2, Hs1 by done. do 2 f_equal. lia.
  - by rewrite Hc2, Hc1.
  - exists w'. split_and!; [done | done |]. intros p Hp. by rewrite Hc', Hc2, Hc1.
Qed.

(** cp copies.  For a source that exists and a different destination, with calls that
    keep their promises on regular files (reads may be short), cp ends; it returns 0 with
    the contents of the source in the destination, or 1 because the destination could not
    be created, and in either case no other file has changed. *)
Theorem cp_copies a b c w : a <> b -> content w a = Some c ->
  exists rc w', cp_main (S (length c)) [a; b] w = Some ([], rc, w') /\ (forall p, p <> b -> content w' p = content w p) /\
    ((rc = 0 /\ content w' b = Some c) \/ (rc = 1 /\ content w' b = content w b)).
Proof.
  intros Hab Ha. unfold cp_main. destruct (open_existing a w) as (src & w1 & -> & H0 & _ & Hc1 & Hs1 & Ho1); [by eexists|].
  rewrite (proj2 (Z.ltb_ge src 0)) by done. pose proof (open_create b w1) as Hcr.
  destruct (fs_open b _ w1) as [dst w2]. destruct Hcr as [[Hneg ->]|(Hd0 & Hdn & Hb2 & Hc2 & Hd2 & Ho2)].
  - rewrite (proj2 (Z.ltb_lt dst 0)) by done. pose proof (close_keeps src w1) as Hcl. destruct (fs_close src w1) as [r w3].
    exists 1, w3. split_and!; [done | intros p _; by rewrite Hcl | right; split; [done | by rewrite Hcl]].
  - rewrite (proj2 (Z.ltb_ge dst 0)) by done. assert (src <> dst) by congruence.
    destruct (copy_loop_ok a b c src dst Hab ltac:(done) (S (length c)) 0 w2) as (w3 & -> & Hb3 & Hc3);
      [by rewrite Ho2 | by rewrite Hc2, Hc1 | done | done | lia |].
    pose proof (close_keeps src w3) as Hcl. destruct (fs_close src w3) as [r w4]. pose proof (close_keeps dst w4) as Hcl2. destruct (fs_close dst w4) as [r2 w5].
    exists 0, w5. split_and!; [done | intros p Hp; by rewrite Hcl2, Hcl, Hc3, Hc2, Hc1 | left; split; [done | by rewrite Hcl2, Hcl]].
Qed.
End Cp.

(** ** Files in memory *)

Module MemFs.
Record fs := mkFs { f_files : gmap (list Z) (list Z); f_fds : gmap Z (list Z * Z) }.

(** A descriptor that is not in use. *)
Definition new_fd (m : gmap Z (list Z * Z)) : Z := 1 + map_fold (fun k _ n => Z.max k n) 0 m.

Definition open (a : list Z) (flags : Z) (w : fs) : Z * fs :=
  let fd := new_fd (f_fds w) in
  if Z.testbit flags 6 then (fd, mkFs (<[a := []]> (f_files w)) (<[fd := (a, 0)]> (f_fds w)))
  else match f_files w !! a with
       | Some _ => (fd, mkFs (f_files w) (<[fd := (a, 0)]> (f_fds w)))
       | None => (-1, w)
       end.

(** At most 100 bytes at a time. *)
Definition read (fd len : Z) (w : fs) : Z * list Z * fs :=
  match f_fds w !! fd with
  | Some (a, o) =>
      let d := take (Z.to_nat (Z.min 100 len)) (drop (Z.to_nat o) (default [] (f_files w !! a))) in
      (Z.of_nat (length d), d, mkFs (f_files w) (<[fd := (a, o + Z.of_nat (length d))]> (f_fds w)))
  | None => (-1, [], w)
  end.

Definition write (fd : Z) (data : list Z) (w : fs) : Z * fs :=
  match f_fds w !! fd with
  | Some (a, o) => (Z.of_nat (length data), mkFs (alter (fun c => c ++ data) a (f_files w)) (<[fd := (a, o + Z.of_nat (length data))]> (f_fds w)))
  | None => (-1, w)
  end.

#[global] Instance mem_sys : FileSys fs := {
  fs_open := open; fs_read := read; fs_write := write;
  fs_close fd w := (0, mkFs (f_files w) (delete fd (f_fds w)));
  fs_mkdir _ w := (-1, w);
  fs_unlink a w := (0, mkFs (delete a (f_files w)) (f_fds w));
  fs_rename _ _ w := (-1, w);
  fs_getdents _ _ w := (-1, [], w);
  fs_procinfo _ _ := None
}.

Lemma new_fd_spec m : 0 < new_fd m /\ m !! new_fd m = None.
Proof.
  assert (H : 0 <= map_fold (fun k (_ : list Z * Z) n => Z.max k n) 0 m /\ forall k x, m !! k = Some x -> k <= map_fold (fun k _ n => Z.max k n) 0 m).
  { apply (map_fold_weak_ind (fun r m => 0 <= r /\ forall k x, m !! k = Some x -> k <= r)); [done|]. intros i x m' r _ [H0 H]. split; [lia|].
    intros k y. rewrite lookup_insert_Some. intros [[<- _]|[_ Hk]]; [lia|]. specialize (H k y Hk). lia. }
  unfold new_fd. destruct H as [H0 H]. split; [lia|]. destruct (m !! _) eqn:E; [|done]. specialize (H _ _ E). lia.
Qed.

Lemma take_length_take {A} k (l : list A) : take (length (take k l)) l = take k l.
Proof. rewrite length_take. destruct (decide (k <= length l)%nat); [by rewrite Nat.min_l | rewrite Nat.min_r, !take_ge by lia; done]. Qed.

#[global] Instance mem_regular : RegularFiles fs.
Proof.
  refine {| content := fun w a => f_files w !! a; handle := fun w fd => f_fds w !! fd |}.
  - intros a w [c Hc]. destruct (new_fd_spec (f_fds w)) as [H1 H2]. eexists _, _. cbn [fs_open mem_sys]. unfold open. cbn [Z.testbit].
    rewrite Hc. split; [reflexivity|]. cbn. split_and!; [lia | done | done | apply lookup_insert_eq | intros f Hf; by apply lookup_insert_ne].
  - intros b w. destruct (new_fd_spec (f_fds w)) as [H1 H2]. cbn [fs_open mem_sys]. unfold open.
    change (Z.testbit (Z.lor 1 (Z.lor 64 512)) 6) with true. cbv iota. right. cbn.
    split_and!; [lia | done | apply lookup_insert_eq | intros p Hp; by apply lookup_insert_ne | apply lookup_insert_eq | intros f Hf; by apply lookup_insert_ne].
  - intros fd len w a o c Hh Hc Hlen Ho. cbn [fs_read mem_sys]. unfold read. rewrite Hh, Hc. cbn [default id from_option].
    set (d := take _ _). assert (Hd : length d = Nat.min (Z.to_nat (Z.min 100 len)) (length c - Z.to_nat o)) by (unfold d; by rewrite length_take, length_drop).
    cbn. split_and!; [lia | lia | lia | lia | | done | apply lookup_insert_eq | intros f Hf; by apply lookup_insert_ne].
    rewrite Nat2Z.id, firstn_all. symmetry. apply take_length_take.
  - intros fd data w b c Hh Hc. cbn [fs_write mem_sys]. unfold write. rewrite Hh. cbn.
    split_and!; [by rewrite lookup_alter_eq, Hc | intros p Hp; by apply lookup_alter_ne | | intros f Hf; by apply lookup_insert_ne].
    rewrite lookup_insert_eq. do 2 f_equal. rewrite length_app. lia.
  - done.
Defined.
End MemFs.

(** Copying a file of 250 bytes. *)
Lemma cp_copies_witness : exists w',
  cp_main 251 [cs "a"; cs "b"] (MemFs.mkFs {[ cs "a" := replicate 250 7 ]} ∅) = Some ([], 0, w') /\ MemFs.f_files w' !! cs "b" = Some (replicate 250 7).
Proof.
  destruct (cp_copies (cs "a") (cs "b") (replicate 250 7) (MemFs.mkFs {[ cs "a" := replicate 250 7 ]} ∅)) as (rc & w' & E & _ & H);
    [discriminate | reflexivity |]. exists w'. destruct H as [[-> H]|[-> H]]; [split; [exact E | exact H] | vm_compute in E; discriminate E].
Defined.
End FileUtils.
