(* ===== verification/Umalloc.v ===== *)
(** * The allocator of user programs (src/lib/noxlib/noxlib.h)

    [sbrk], [malloc], [free] and [realloc]: blocks with a 16-byte header, one
    after the other from [_hb] to [_he], never split and never merged.  The
    break moves as [sys_brk] moves it; whether the kernel has pages for a new
    break is a parameter. *)
From S2P Require Import Prelude Heap Syscalls.

Module Umalloc.

(** [_NH] *)
Definition NH : Z := 16.

(** The break, the memory by cells (the fields of the headers and the bytes of the
    payloads), [_hb] and [_he]. *)
Record um := mkUm { u_brk : Z; u_mem : mem; u_hb : Z; u_he : Z }.

Section Alloc.
(** Whether the pages up to an address can be mapped. *)
Context (avail : Z -> bool).

Definition brk (addr : Z) (s : um) : Z * um :=
  if (addr =? 0) || (addr <=? u_brk s) || (Syscalls.USER_HEAP_MAX <=? addr) || negb (avail addr) then (u_brk s, s)
  else (addr, mkUm addr (u_mem s) (u_hb s) (u_he s)).

(** [None] is [(void* )-1]. *)
Definition sbrk (incr : Z) (s : um) : option Z * um :=
  let cur := u_brk s in
  if incr =? 0 then (Some cur, s)
  else
    let target := u64 (cur + incr) in
    let '(nb, s) := brk target s in
    (if nb =? target then Some cur else None, s).

Definition h_size (m : mem) (h : Z) : Z := rd m h.
Definition h_free (m : mem) (h : Z) : Z := rd m (h + 8).

(** The first free block of at least [sz] bytes; [Some None] when there is none. *)
Fixpoint find_fit (fuel : nat) (m : mem) (h he sz : Z) : option (option Z) :=
  match fuel with
  | O => None
  | S fuel =>
      if h <? he then
        if ctrue (h_free m h) && (sz <=? h_size m h) then Some (Some h)
        else find_fit fuel m (u64 (h + NH + h_size m h)) he sz
      else Some None
  end.

Definition round16 (sz : Z) : Z := Z.land (u64 (sz + 15)) (u64 (Z.lnot 15)).

(** [None] when the walk does not end. *)
Definition malloc (sz : Z) (s : um) : option (Z * um) :=
  let s := if u_hb s =? 0 then mkUm (u_brk s) (u_mem s) (u_brk s) (u_brk s) else s in
  if sz =? 0 then Some (0, s)
  else
    let sz := round16 sz in
    match find_fit (S (Z.to_nat (u_he s - u_hb s))) (u_mem s) (u_hb s) (u_he s) sz with
    | None => None
    | Some (Some h) => Some (h + NH, mkUm (u_brk s) (wr (u_mem s) (h + 8) 0) (u_hb s) (u_he s))
    | Some None =>
        let need := u64 (NH + sz) in
        let '(r, s) := sbrk (s64 need) s in
        match r with
        | None => Some (0, s)
        | Some _ =>
            let h := u_he s in
            Some (h + NH, mkUm (u_brk s) (wr (wr (wr (u_mem s) h sz) (h + 8) 0) (h + 12) 0) (u_hb s) (u64 (h + need)))
        end
    end.

Definition free (ptr : Z) (s : um) : um :=
  if ptr =? 0 then s else mkUm (u_brk s) (wr (u_mem s) (ptr - NH + 8) 1) (u_hb s) (u_he s).

(** [memcpy] of bytes. *)
Definition copy_bytes (dst src n : Z) (m : mem) : mem := for_up 0 n (fun i m => wr m (dst + i) (rd m (src + i))) m.

Definition realloc (ptr sz : Z) (s : um) : option (Z * um) :=
  if ptr =? 0 then malloc sz s
  else if sz =? 0 then Some (0, free ptr s)
  else
    let size := h_size (u_mem s) (ptr - NH) in
    if sz <=? size then Some (ptr, s)
    else
      match malloc sz s with
      | None => None
      | Some (n, s) =>
          if n =? 0 then Some (0, s)
          else Some (n, free ptr (mkUm (u_brk s) (copy_bytes n ptr (h_size (u_mem s) (ptr - NH)) (u_mem s)) (u_hb s) (u_he s)))
      end.

(** ** Reference: a list of blocks *)

(** A block has a size and is free or in use. *)
Record ublock := mkUb { b_size : Z; b_free : bool }.

(** The headers from [h] on describe the blocks, up to [he]. *)
Fixpoint chain (m : mem) (h he : Z) (bs : list ublock) : Prop :=
  match bs with
  | [] => h = he
  | b :: bs => h_size m h = b_size b /\ ctrue (h_free m h) = b_free b /\ 0 <= b_size b /\ chain m (h + NH + b_size b) he bs
  end.

(** Where the payload of block [i] starts. *)
Definition payload (hb : Z) (bs : list ublock) (i : nat) : Z := hb + NH + foldr (fun b a => NH + b_size b + a) 0 (take i bs).

Definition heap_rep (s : um) (bs : list ublock) : Prop :=
  0 < u_hb s /\ chain (u_mem s) (u_hb s) (u_he s) bs /\ u_he s = u_brk s /\ u_brk s < Syscalls.USER_HEAP_MAX.

(** First fit: the index of the block used, and the blocks afterwards. *)
Fixpoint first_fit (sz : Z) (bs : list ublock) : option nat :=
  match bs with
  | [] => None
  | b :: bs => if b_free b && (sz <=? b_size b) then Some O else S <$> first_fit sz bs
  end.

(** ** Blocks in memory *)

Lemma payload_cons h b bs i : payload h (b :: bs) (S i) = payload (h + NH + b_size b) bs i.
Proof. unfold payload. cbn [take foldr]. lia. Qed.

Lemma payload_0 h bs : payload h bs 0 = h + NH.
Proof. unfold payload. rewrite take_0. cbn [foldr]. lia. Qed.

Lemma chain_le m bs : forall h he, chain m h he bs -> h <= he.
Proof. induction bs as [|b bs IH]; intros h he; cbn; [lia|]. intros (_ & _ & Hb & H). apply IH in H. unfold NH in *. lia. Qed.

Lemma chain_end m bs : forall h he, chain m h he bs -> payload h bs (length bs) = he + NH.
Proof. induction bs as [|b bs IH]; intros h he; cbn [chain length]; [intros ->; by rewrite payload_0|]. intros (_ & _ & _ & H). rewrite payload_cons. by apply IH. Qed.

(** The payloads lie one after the other, each behind its header, below the end. *)
Lemma payload_bounds m bs : forall h he i b, chain m h he bs -> bs !! i = Some b -> h + NH <= payload h bs i /\ payload h bs i + b_size b <= he /\ 0 <= b_size b.
Proof.
  induction bs as [|c bs IH]; intros h he i b; cbn [chain]; [done|]. intros (_ & _ & Hc & H) Hi. destruct i as [|i].
  - injection Hi as ->. rewrite payload_0. apply chain_le in H. lia.
  - rewrite payload_cons. destruct (IH _ _ i b H Hi). unfold NH in *. lia.
Qed.

Lemma payload_order m bs : forall h he i j b c, chain m h he bs -> bs !! i = Some b -> bs !! j = Some c -> (i < j)%nat -> payload h bs i + b_size b + NH <= payload h bs j.
Proof.
  induction bs as [|d bs IH]; intros h he i j b c; cbn [chain]; [done|]. intros (_ & _ & Hd & H) Hi Hj Hij. destruct j as [|j]; [lia|]. rewrite payload_cons. destruct i as [|i].
  - injection Hi as ->. rewrite payload_0. destruct (payload_bounds m bs _ _ j c H Hj). lia.
  - rewrite payload_cons. eapply IH; [done | done | done | lia].
Qed.

Lemma uchain_frame m m' bs : forall h he, chain m h he bs -> (forall a, h <= a < he -> rd m' a = rd m a) -> chain m' h he bs.
Proof.
  induction bs as [|b bs IH]; intros h he; cbn [chain]; [done|]. intros (H1 & H2 & Hb & H) E. pose proof (chain_le _ _ _ _ H) as Hle. unfold h_size, h_free, NH in *.
  rewrite !E by lia. split_and!; [done | done | done |]. apply IH; [done|]. intros a Ha. apply E. lia.
Qed.

Lemma chain_app m bs b : forall h he, chain m h he bs -> h_size m he = b_size b -> ctrue (h_free m he) = b_free b -> 0 <= b_size b -> chain m h (he + NH + b_size b) (bs ++ [b]).
Proof. induction bs as [|c bs IH]; intros h he; cbn [chain app]; [intros -> **; by split_and!|]. intros (H1 & H2 & Hc & H) **. split_and!; [done | done | done | by apply IH]. Qed.

(** Setting the flag of one block. *)
Lemma chain_flag m bs v : forall h he i b, chain m h he bs -> bs !! i = Some b -> chain (wr m (payload h bs i - NH + 8) v) h he (<[i := mkUb (b_size b) (ctrue v)]> bs).
Proof.
  induction bs as [|c bs IH]; intros h he i b; cbn [chain]; [done|]. intros (H1 & H2 & Hc & H) Hi. destruct i as [|i].
  - injection Hi as ->. rewrite payload_0. cbn [list_insert insert list_insert_id chain]. unfold h_size, h_free, NH in *. replace (h + 16 - 16 + 8) with (h + 8) by lia.
    cbn. rewrite rd_wr_ne, rd_wr_eq by lia. split_and!; [done | done | done |]. eapply uchain_frame; [exact H|]. intros a Ha. apply rd_wr_ne. lia.
  - rewrite payload_cons. destruct (payload_bounds m bs _ _ i b H Hi) as (Hb & _). cbn. unfold h_size, h_free, NH in *. rewrite !rd_wr_ne by lia. split_and!; [done | done | done |]. by apply IH.
Qed.

(** ** The search *)

Lemma find_fit_spec m sz bs : forall fuel h he, chain m h he bs -> 0 <= h -> he < 2 ^ 64 -> (Z.to_nat (he - h) < fuel)%nat ->
  find_fit fuel m h he sz = Some (match first_fit sz bs with Some i => Some (payload h bs i - NH) | None => None end).
Proof.
  induction bs as [|b bs IH]; intros fuel h he; cbn [chain]; intros H Hh He Hf; (destruct fuel as [|fuel]; [lia|]); cbn [find_fit first_fit].
  - subst. by rewrite Z.ltb_irrefl.
  - destruct H as (H1 & H2 & Hb & H). pose proof (chain_le _ _ _ _ H) as Hle. unfold NH in *. rewrite (proj2 (Z.ltb_lt _ _)) by lia. rewrite H2, H1. destruct (b_free b && (sz <=? b_size b)).
    + rewrite payload_0. unfold NH. do 2 f_equal. lia.
    + words. rewrite (IH fuel _ _ H) by lia. destruct (first_fit sz bs) as [i|]; cbn [fmap option_fmap option_map]; [|done]. by rewrite payload_cons.
Qed.

Lemma first_fit_Some sz bs : forall i, first_fit sz bs = Some i -> exists b, bs !! i = Some b /\ b_free b = true /\ sz <= b_size b.
Proof.
  induction bs as [|b bs IH]; intros i; cbn [first_fit]; [done|]. destruct (b_free b && (sz <=? b_size b)) eqn:E.
  - intros [= <-]. apply andb_prop in E as [? ?%Z.leb_le]. by exists b.
  - intros (j & Hj & ->)%fmap_Some. by apply IH.
Qed.

Lemma round16_spec sz : 0 < sz <= 2 ^ 62 -> sz <= round16 sz < sz + 16.
Proof. intros H. by destruct (Heap.ALIGN16_spec sz) as [_ E]; [lia|]. Qed.

Lemma s64_id x : 0 <= x < 2 ^ 63 -> s64 x = x.
Proof. intros H. unfold s64. words. by rewrite (proj2 (Z.ltb_lt _ _)) by lia. Qed.

(** Growing: the break moves by [incr] or nothing changes. *)
Lemma sbrk_grow incr s : 0 < incr < 2 ^ 63 -> 0 < u_brk s < Syscalls.USER_HEAP_MAX ->
  sbrk incr s = (None, s) \/
  (sbrk incr s = (Some (u_brk s), mkUm (u_brk s + incr) (u_mem s) (u_hb s) (u_he s)) /\ u_brk s + incr < Syscalls.USER_HEAP_MAX).
Proof.
  intros Hi Hb. unfold sbrk, brk. rewrite (proj2 (Z.eqb_neq incr 0)), (u64_id (u_brk s + incr)) by lia. destruct (_ || _) eqn:E.
  - left. by rewrite (proj2 (Z.eqb_neq _ _)) by lia.
  - right. rewrite Z.eqb_refl. apply orb_false_elim in E as [E _]. apply orb_false_elim in E as [_ E]. apply Z.leb_gt in E. done.
Qed.

(** What a call keeps of the blocks in use: the bytes of their payloads, and that the new
    payload [p] of [sz] bytes lies outside them. *)
Definition keeps_live (s s' : um) (bs : list ublock) (p sz : Z) : Prop :=
  forall j b, bs !! j = Some b -> b_free b = false ->
    (forall a, payload (u_hb s) bs j <= a < payload (u_hb s) bs j + b_size b -> rd (u_mem s') a = rd (u_mem s) a) /\
    (p <> 0 -> p + sz <= payload (u_hb s) bs j \/ payload (u_hb s) bs j + b_size b <= p).

Lemma use_free_block s bs i b sz : heap_rep s bs -> bs !! i = Some b -> b_free b = true -> sz <= b_size b ->
  let s' := mkUm (u_brk s) (wr (u_mem s) (payload (u_hb s) bs i - NH + 8) 0) (u_hb s) (u_he s) in
  heap_rep s' (<[i := mkUb (b_size b) false]> bs) /\ keeps_live s s' bs (payload (u_hb s) bs i) sz.
Proof.
  intros (H0 & Hc & He & Hm) Hi Hf Hsz s'. split; [split_and!; [done | by apply (chain_flag (u_mem s) bs 0) | done | done]|].
  destruct (payload_bounds _ _ _ _ i b Hc Hi) as (_ & _ & Hb0). intros j c Hj Hlive. assert (i <> j) by (intros ->; simplify_eq; congruence). destruct (decide (i < j)%nat) as [Hij|Hij].
  - pose proof (payload_order _ _ _ _ i j b c Hc Hi Hj Hij). split; [intros a Ha; unfold NH in *; apply rd_wr_ne; lia | unfold NH in *; lia].
  - pose proof (payload_order _ _ _ _ j i c b Hc Hj Hi ltac:(lia)). split; [intros a Ha; unfold NH in *; apply rd_wr_ne; lia | unfold NH in *; lia].
Qed.

Lemma append_block s bs size sz brk' : heap_rep s bs -> 0 <= size -> sz <= size -> brk' = u_he s + NH + size -> brk' < Syscalls.USER_HEAP_MAX ->
  let m := wr (wr (wr (u_mem s) (u_he s) size) (u_he s + 8) 0) (u_he s + 12) 0 in
  let s' := mkUm brk' m (u_hb s) brk' in
  heap_rep s' (bs ++ [mkUb size false]) /\ keeps_live s s' bs (payload (u_hb s) bs (length bs)) sz.
Proof.
  intros (H0 & Hc & He & Hm) Hs Hsz -> Hlim m s'. assert (Hfr : forall a, a < u_he s -> rd m a = rd (u_mem s) a) by (intros; unfold m; by rewrite !rd_wr_ne by lia). split.
  - split_and!; [done | | done | done]. cbn [u_mem u_hb u_he s']. apply (chain_app m bs (mkUb size false)); [| | | done].
    + eapply uchain_frame; [exact Hc|]. intros a Ha. apply Hfr. lia.
    + unfold h_size, m. rewrite !rd_wr_ne by lia. apply rd_wr_eq.
    + unfold h_free, m. rewrite rd_wr_ne by lia. by rewrite rd_wr_eq.
  - intros j b Hj Hlive. destruct (payload_bounds _ _ _ _ j b Hc Hj) as (_ & Hend & _). rewrite (chain_end _ _ _ _ Hc). split; [intros a Ha; apply Hfr; lia | unfold NH; lia].
Qed.


Lemma ufit_None sz bs : Forall (fun b => b_size b < sz) bs -> first_fit sz bs = None.
Proof. induction 1 as [|b bs Hb _ IH]; cbn [first_fit]; [done|]. rewrite (proj2 (Z.leb_gt _ _)), andb_false_r, IH by done. done. Qed.

(** Requests of 2^64 - 31 to 2^64 - 16 bytes succeed.  The size with its header wraps
    to zero, the break does not move, and the call returns the address behind a header
    written past the end of the heap. *)
Theorem umalloc_huge_request_succeeds s bs sz : heap_rep s bs -> 2 ^ 64 - 31 <= sz <= 2 ^ 64 - 16 ->
  exists s', malloc sz s = Some (u_he s + NH, s') /\ u_brk s' = u_brk s /\ u_he s' = u_he s.
Proof.
  intros (H0 & Hc & He & Hm) Hsz. pose proof (chain_le _ _ _ _ Hc) as Hle.
  assert (Er : round16 sz = 2 ^ 64 - 16).
  { destruct (Heap.ALIGN16_spec sz) as [[_ D] E]; [lia|]. change (Heap.ALIGN16 sz) with (round16 sz) in *. pose proof (Z.div_mod (round16 sz) 16 ltac:(lia)). lia. }
  unfold malloc. rewrite (proj2 (Z.eqb_neq (u_hb s) 0)), (proj2 (Z.eqb_neq sz 0)) by lia. rewrite (find_fit_spec _ (round16 sz) bs) by (done || lia).
  rewrite ufit_None.
  - rewrite Er. change (s64 (u64 (NH + (2 ^ 64 - 16)))) with 0. change (u64 (NH + (2 ^ 64 - 16))) with 0. cbn [sbrk Z.eqb]. eexists. split; [done|]. split; [done|]. cbn. rewrite Z.add_0_r, u64_id by lia. done.
  - apply Forall_forall. intros b (j & Hj)%list_elem_of_lookup. destruct (payload_bounds _ _ _ _ j b Hc Hj). unfold NH in *. lia.
Qed.
End Alloc.

Lemma umalloc_huge_request_succeeds_witness : exists s', malloc (fun _ => true) (2 ^ 64 - 20) (mkUm 4096 ∅ 4096 4096) = Some (4112, s') /\ u_brk s' = 4096 /\ u_he s' = 4096.
Proof. apply (umalloc_huge_request_succeeds (fun _ => true) (mkUm 4096 ∅ 4096 4096) [] (2 ^ 64 - 20)); [by split_and! | lia]. Defined.

End Umalloc.
