(* ===== verification/Traps.v ===== *)
(** * Descriptor tables, interrupts and the timer
    (src/kernel/hal/gdt.c, src/kernel/hal/pic.c, src/kernel/isr/isr.c,
    src/drivers/pit.c, src/kernel/syscall/syscall.c, src/kernel/hal/fpu.c)

    The tables the processor reads, the interrupt controller's ports, the
    dispatch of interrupts and the timer.  Loading a table register is the value
    of the table; the addresses of stubs, stacks and tables are parameters. *)
From S2P Require Import Prelude Bytes Proc Signal.

Module Traps.
Import Proc Signal.

(** ** Segments (gdt.c) *)

Definition seg (access flags : Z) : Z := Z.lor (Z.shiftl access 40) (Z.shiftl (Z.land flags 0x0F) 52).

(** [sizeof(struct tss64)] *)
Definition TSS_SIZE : Z := 104.

Record tss64 := mkTss { rsp0 : Z; ist1 : Z; iomap_base : Z }.

Definition gdt_set_kernel_stack (rsp : Z) (t : tss64) : tss64 := mkTss rsp (ist1 t) (iomap_base t).

(** [base] is the address of the task state segment, [stack] the end of the interrupt
    stack. *)
Definition gdt_init (base stack : Z) : list Z * tss64 :=
  let limit := TSS_SIZE - 1 in
  let lo := Z.lor (Z.lor (Z.lor (Z.lor (Z.land limit 0xFFFF) (Z.shiftl (Z.land base 0xFFFFFF) 16)) (Z.shiftl 0x89 40))
              (Z.shiftl (Z.land (Z.shiftr limit 16) 0xF) 48)) (Z.shiftl (Z.land (Z.shiftr base 24) 0xFF) 56) in
  ([0; seg 0x9A 0xA; seg 0x92 0xA; seg 0xF2 0xA; seg 0xFA 0xA; lo; Z.land (Z.shiftr base 32) 0xFFFFFFFF],
   mkTss stack stack TSS_SIZE).

(** ** System call registers (syscall.c) *)

Record msrs := mkMsrs { m_efer : Z; m_star : Z; m_lstar : Z; m_sfmask : Z }.

Definition syscall_init (syscall_entry : Z) (m : msrs) : msrs :=
  mkMsrs (Z.lor (m_efer m) 1) (Z.lor (Z.shiftl 0x10 48) (Z.shiftl 0x08 32)) syscall_entry 0x200.

(** ** The floating-point unit (fpu.c) *)

(** The control registers and the x87 control word, which [fninit] sets. *)
Record fpu := mkFpu { cr0 : Z; cr4 : Z; fcw : Z }.
Definition CR0_MP : Z := Z.shiftl 1 1.
Definition CR0_EM : Z := Z.shiftl 1 2.
Definition CR0_NE : Z := Z.shiftl 1 5.
Definition CR4_OSFXSR : Z := Z.shiftl 1 9.
Definition CR4_OSXMMEXCPT : Z := Z.shiftl 1 10.

Definition fpu_init (f : fpu) : os_status * fpu :=
  let c0 := Z.land (cr0 f) (u64 (Z.lnot CR0_EM)) in
  let c0 := Z.lor c0 CR0_MP in
  let c0 := Z.lor c0 CR0_NE in
  (OS_OK, mkFpu c0 (Z.lor (cr4 f) (Z.lor CR4_OSFXSR CR4_OSXMMEXCPT)) 0x37F).

(** ** Gates (isr.c) *)

Record gate := mkGate { off_lo : Z; sel : Z; ist : Z; gtype : Z; off_mid : Z; off_hi : Z }.

Definition set_gate (h type : Z) : gate :=
  mkGate (Z.land h 0xFFFF) 0x08 0 type (Z.land (Z.shiftr h 16) 0xFFFF) (Z.land (Z.shiftr h 32) 0xFFFFFFFF).

(** The functions the kernel registers. *)
Inductive handler := PageFault | PitIsr | KbdIsr.

(** [stubs] is [isr_stub_table]. *)
Definition isr_init (stubs : list Z) : list gate * list (option handler) :=
  (foldl (fun idt i => <[i := set_gate (nth i stubs 0) 0x8E]> idt) (replicate 256 (set_gate 0 0)) (seq 0 48), replicate 256 None).

Definition isr_register_handler (vector : Z) (h : option handler) (t : list (option handler)) : os_status * list (option handler) :=
  match h with None => (OS_ERR_NULL, t) | Some _ => (OS_OK, <[Z.to_nat (u8 vector) := h]> t) end.

(** ** The interrupt controller (pic.c) *)

(** Port writes in order; reading a data port gives the mask last written to it. *)
Record pic := mkPic { p_log : list (Z * Z); p_mask : Z -> Z }.

Abbreviation PIC_MASTER_CMD := 0x20.
Abbreviation PIC_MASTER_DATA := 0x21.
Abbreviation PIC_SLAVE_CMD := 0xA0.
Abbreviation PIC_SLAVE_DATA := 0xA1.
Abbreviation PIC_EOI := 0x20.

Definition port_byte_out (port v : Z) (p : pic) : pic :=
  mkPic (p_log p ++ [(port, u8 v)]) (fun q => if q =? port then u8 v else p_mask p q).

Definition pic_remap (p : pic) : pic :=
  foldl (fun p '(port, v) => port_byte_out port v p) p
    [(PIC_MASTER_CMD, 0x11); (PIC_SLAVE_CMD, 0x11); (PIC_MASTER_DATA, 0x20); (PIC_SLAVE_DATA, 0x28);
     (PIC_MASTER_DATA, 0x04); (PIC_SLAVE_DATA, 0x02); (PIC_MASTER_DATA, 0x01); (PIC_SLAVE_DATA, 0x01);
     (PIC_MASTER_DATA, 0xFF); (PIC_SLAVE_DATA, 0xFF)].

Definition pic_send_eoi (irq : Z) (p : pic) : pic :=
  let p := if 8 <=? irq then port_byte_out PIC_SLAVE_CMD PIC_EOI p else p in
  port_byte_out PIC_MASTER_CMD PIC_EOI p.

Definition pic_port (irq : Z) : Z * Z := if irq <? 8 then (PIC_MASTER_DATA, irq) else (PIC_SLAVE_DATA, irq - 8).

Definition pic_mask (irq : Z) (p : pic) : pic :=
  let '(port, bit) := pic_port irq in port_byte_out port (Z.lor (p_mask p port) (u8 (Z.shiftl 1 bit))) p.
Definition pic_unmask (irq : Z) (p : pic) : pic :=
  let '(port, bit) := pic_port irq in port_byte_out port (Z.land (p_mask p port) (u8 (Z.lnot (Z.shiftl 1 bit)))) p.

(** ** Dispatch (isr.c) *)

(** What the dispatcher does with an interrupt. *)
Inductive reaction := Calls (h : handler) | Ignores | HaltsMachine.

Definition isr_handler (t : list (option handler)) (f : isr_frame) (p : pic) : reaction * pic :=
  let vec := vector f in
  let h := if vec <? 256 then nth (Z.to_nat vec) t None else None in
  let call := match h with Some h => Calls h | None => Ignores end in
  if (32 <=? vec) && (vec <? 48) then (call, pic_send_eoi (u8 (vec - 32)) p)
  else
    match h with
    | Some h => (Calls h, p)
    | None => (if vec <? 32 then HaltsMachine else Ignores, p)
    end.

(** ** The timer (pit.c) *)

Abbreviation PIT_BASE_FREQ := 1193182.

(** The divisor programmed, and the three bytes written to the timer's ports. *)
Definition pit_divisor (hz : Z) : Z :=
  let d := PIT_BASE_FREQ / hz in let d := if 65535 <? d then 65535 else d in if d <? 1 then 1 else d.

Record timer := mkTimer { g_ticks : Z; pit_ports : list (Z * Z) }.

Definition pit_init (hz : Z) (tm : timer) (t : list (option handler)) (p : pic) : os_status * timer * list (option handler) * pic :=
  if (hz =? 0) || (PIT_BASE_FREQ <? hz) then (OS_ERR_INVALID, tm, t, p)
  else
    let d := pit_divisor hz in
    let '(st, t) := isr_register_handler 0x20 (Some PitIsr) t in
    match st with
    | OS_OK => (OS_OK, mkTimer 0 (pit_ports tm ++ [(0x43, 0x36); (0x40, u8 (Z.land d 0xFF)); (0x40, u8 (Z.land (Z.shiftr d 8) 0xFF))]), t, pic_unmask 0 p)
    | _ => (st, mkTimer 0 (pit_ports tm), t, p)
    end.

(** The tick, then the scheduler if its hook is set. *)
Definition pit_isr (kernel_pml4 : Z) (hook : bool) (f : isr_frame) (tm : timer) : MK (delivery isr_frame * timer) :=
  let tm := mkTimer (u32 (g_ticks tm + 1)) (pit_ports tm) in
  let* r := (if hook then scheduler_tick kernel_pml4 f else ret (Resume f None)) in
  ret (r, tm).

(** Busy waiting: [ticks] are the values of the counter at the successive tests. *)
Fixpoint pit_sleep_until (target : Z) (ticks : list Z) : option (list Z) :=
  match ticks with
  | [] => None
  | t :: ticks => if t <? target then pit_sleep_until target ticks else Some ticks
  end.
Definition pit_sleep_ms (ms now : Z) (ticks : list Z) : option (list Z) := pit_sleep_until (u32 (now + ms)) ticks.

(** ** What the processor reads *)

(** Fields of descriptors, gates and registers, as the processor takes them apart. *)
Definition desc_access (d : Z) : Z := (d / 2 ^ 40) mod 2 ^ 8.
Definition desc_limit (d : Z) : Z := d mod 2 ^ 16 + 2 ^ 16 * ((d / 2 ^ 48) mod 2 ^ 4).
Definition tss_base (lo hi : Z) : Z := (lo / 2 ^ 16) mod 2 ^ 24 + 2 ^ 24 * ((lo / 2 ^ 56) mod 2 ^ 8) + 2 ^ 32 * hi.
Definition gate_target (g : gate) : Z := off_lo g + 2 ^ 16 * off_mid g + 2 ^ 32 * off_hi g.
Definition syscall_cs (m : msrs) : Z := (m_star m / 2 ^ 32) mod 2 ^ 16.
Definition sysret_cs (m : msrs) : Z := m_star m / 2 ^ 48 + 16.
Definition sysret_ss (m : msrs) : Z := m_star m / 2 ^ 48 + 8.

(** The descriptor a selector names: the low three bits are not part of the index. *)
Definition selected (gdt : list Z) (sel : Z) : Z := nth (Z.to_nat (sel / 8)) gdt 0.
Definition KERNEL_CODE : Z := 0x9A.
Definition USER_DATA : Z := 0xF2.
Definition USER_CODE : Z := 0xFA.
Definition TSS_AVAILABLE : Z := 0x89.

(** The unit is real, its faults are reported, SSE is on, and every other
    control bit is kept. *)
Lemma fpu_init_bits f n : 0 <= n < 64 ->
  Z.testbit (cr0 (fpu_init f).2) n = (n =? 1) || (n =? 5) || (negb (n =? 2) && Z.testbit (cr0 f) n) /\
  Z.testbit (cr4 (fpu_init f).2) n = (n =? 9) || (n =? 10) || Z.testbit (cr4 f) n.
Proof.
  intros Hn. unfold fpu_init, CR0_MP, CR0_EM, CR0_NE, CR4_OSFXSR, CR4_OSXMMEXCPT. cbn [snd cr0 cr4].
  rewrite !Z.lor_spec, Z.land_spec, testbit_u64, Z.lnot_spec, !testbit_1_shiftl by lia. rewrite (proj2 (Z.ltb_lt n 64)) by lia.
  destruct (n =? 1), (n =? 2), (n =? 5), (n =? 9), (n =? 10), (Z.testbit (cr0 f) n), (Z.testbit (cr4 f) n); done.
Qed.

Lemma land_ones_mod x k : 0 <= k -> Z.land x (Z.ones k) = x mod 2 ^ k.
Proof. intros H. by apply Z.land_ones. Qed.

Lemma split_address h : 0 <= h < 2 ^ 64 -> h mod 2 ^ 16 + 2 ^ 16 * ((h / 2 ^ 16) mod 2 ^ 16) + 2 ^ 32 * ((h / 2 ^ 32) mod 2 ^ 32) = h.
Proof.
  intros H. pose proof (Z.div_mod h (2 ^ 16) ltac:(lia)). pose proof (Z.div_mod (h / 2 ^ 16) (2 ^ 16) ltac:(lia)).
  replace (h / 2 ^ 16 / 2 ^ 16) with (h / 2 ^ 32) in * by (rewrite Z.div_div by lia; done). rewrite (Z.mod_small (h / 2 ^ 32)); [lia|].
  split; [apply Z.div_pos; lia | apply Z.div_lt_upper_bound; lia].
Qed.

Lemma set_gate_target h type : 0 <= h < 2 ^ 64 -> gate_target (set_gate h type) = h.
Proof.
  intros H. unfold gate_target, set_gate. cbn [off_lo off_mid off_hi]. change 0xFFFF with (Z.ones 16). change 0xFFFFFFFF with (Z.ones 32).
  rewrite !land_ones_mod, !Z.shiftr_div_pow2 by lia. by apply split_address.
Qed.

(** The low half of the descriptor of the task state segment as a sum of its fields. *)
Lemma tss_low base stack : 0 <= base < 2 ^ 64 ->
  nth 5 (gdt_init base stack).1 0 = 103 + 2 ^ 16 * (base mod 2 ^ 24) + 2 ^ 40 * 0x89 + 2 ^ 56 * ((base / 2 ^ 24) mod 2 ^ 8).
Proof.
  intros H. unfold gdt_init. cbn [fst nth]. change 0xFFFFFF with (Z.ones 24). change 0xFF with (Z.ones 8).
  rewrite !land_ones_mod, !Z.shiftl_mul_pow2, !Z.shiftr_div_pow2 by lia. change (Z.land (TSS_SIZE - 1) 0xFFFF) with 103. change (Z.land ((TSS_SIZE - 1) / 2 ^ 16) 0xF * 2 ^ 48) with 0. rewrite Z.lor_0_r.
  pose proof (Z.mod_pos_bound base (2 ^ 24) ltac:(lia)) as B1. pose proof (Z.mod_pos_bound (base / 2 ^ 24) (2 ^ 8) ltac:(lia)) as B2.
  rewrite (Z.lor_comm 103), (lor_low 16 (base mod 2 ^ 24 * 2 ^ 16) 103) by (lia || (apply Z.mod_mul; lia)). rewrite (Z.lor_comm _ (0x89 * 2 ^ 40)), (lor_low 40 (0x89 * 2 ^ 40)) by (lia || done).
  rewrite Z.lor_comm, (lor_low 56) by (lia || (apply Z.mod_mul; lia)). lia.
Qed.

Lemma field x lo w hi n k : 0 <= lo < 2 ^ n -> 0 <= w < 2 ^ k -> 0 <= n -> 0 <= k -> x = lo + 2 ^ n * (w + 2 ^ k * hi) -> (x / 2 ^ n) mod 2 ^ k = w.
Proof.
  intros Hl Hw Hn Hk ->. rewrite (Z.mul_comm (2 ^ n)), Z.div_add by lia. rewrite Z.div_small, Z.add_0_l by lia. rewrite (Z.mul_comm (2 ^ k)), Z.mod_add by lia. by apply Z.mod_small.
Qed.

Lemma base_parts base : 0 <= base < 2 ^ 64 -> base mod 2 ^ 24 + 2 ^ 24 * ((base / 2 ^ 24) mod 2 ^ 8) + 2 ^ 32 * ((base / 2 ^ 32) mod 2 ^ 32) = base.
Proof.
  intros H. pose proof (Z.div_mod base (2 ^ 24) ltac:(lia)). pose proof (Z.div_mod (base / 2 ^ 24) (2 ^ 8) ltac:(lia)).
  replace (base / 2 ^ 24 / 2 ^ 8) with (base / 2 ^ 32) in * by (rewrite Z.div_div by lia; done). rewrite (Z.mod_small (base / 2 ^ 32)); [lia|].
  split; [apply Z.div_pos; lia | apply Z.div_lt_upper_bound; lia].
Qed.

(** The loop that fills the gates. *)
Lemma idt_gates_upto stubs idt0 n : (n <= length idt0)%nat -> forall i,
  foldl (fun idt i => <[i := set_gate (nth i stubs 0) 0x8E]> idt) idt0 (seq 0 n) !! i = if (i <? n)%nat then Some (set_gate (nth i stubs 0) 0x8E) else idt0 !! i.
Proof.
  induction n as [|n IH]; intros Hn i; [done|]. rewrite seq_S, foldl_app. cbn [foldl Nat.add].
  assert (L : length (foldl (fun idt i => <[i := set_gate (nth i stubs 0) 0x8E]> idt) idt0 (seq 0 n)) = length idt0).
  { clear. generalize (seq 0 n). intros l. revert idt0. induction l as [|x l IH]; intros idt0; cbn; [done|]. by rewrite IH, length_insert. }
  destruct (decide (i = n)) as [->|Hi].
  - rewrite list_lookup_insert_eq by lia. by rewrite (proj2 (Nat.ltb_lt _ _)) by lia.
  - rewrite list_lookup_insert_ne by done. rewrite IH by lia. destruct (Nat.ltb_spec i n), (Nat.ltb_spec i (S n)); done || lia.
Qed.

Lemma idt_gates stubs i : foldl (fun idt i => <[i := set_gate (nth i stubs 0) 0x8E]> idt) (replicate 256 (set_gate 0 0)) (seq 0 48) !! i
  = if (i <? 48)%nat then Some (set_gate (nth i stubs 0) 0x8E) else replicate 256 (set_gate 0 0) !! i.
Proof. apply idt_gates_upto. rewrite length_replicate. lia. Qed.

Lemma idt_length stubs : length (foldl (fun idt i => <[i := set_gate (nth i stubs 0) 0x8E]> idt) (replicate 256 (set_gate 0 0)) (seq 0 48)) = 256%nat.
Proof. reflexivity. Qed.

(** The processor reads back from the tables what the kernel put into them.  For any
    address of the task state segment, of the interrupt stacks, of the 48 stubs and of the
    entry point: the segment descriptor decodes to that base, the limit 103 and an
    available task segment; gate [i] decodes to stub [i], through a selector of kernel
    code; vectors from 48 on are not present; the system call instruction loads kernel
    code and returning from it user code and user data, the last two with privilege 3. *)
Theorem tables_decode (base stack entry : Z) (stubs : list Z) (m : msrs) :
  0 <= base < 2 ^ 64 -> length stubs = 48%nat -> Forall (fun a => 0 <= a < 2 ^ 64) stubs ->
  let gdt := (gdt_init base stack).1 in let idt := (isr_init stubs).1 in let m := syscall_init entry m in
  tss_base (nth 5 gdt 0) (nth 6 gdt 0) = base /\ desc_limit (nth 5 gdt 0) = 103 /\ desc_access (nth 5 gdt 0) = TSS_AVAILABLE /\
  length idt = 256%nat /\
  (forall i a, stubs !! i = Some a -> exists g, idt !! i = Some g /\ gate_target g = a /\ desc_access (selected gdt (sel g)) = KERNEL_CODE) /\
  (forall i g, idt !! i = Some g -> (48 <= i)%nat -> gtype g = 0) /\
  desc_access (selected gdt (syscall_cs m)) = KERNEL_CODE /\ desc_access (selected gdt (sysret_cs m)) = USER_CODE /\ desc_access (selected gdt (sysret_ss m)) = USER_DATA.
Proof.
  intros Hb Hl Hs gdt idt m'. pose proof (tss_low base stack Hb) as E. fold gdt in E. set (lo := nth 5 gdt 0) in *.
  pose proof (Z.mod_pos_bound base (2 ^ 24) ltac:(lia)) as B1. pose proof (Z.mod_pos_bound (base / 2 ^ 24) (2 ^ 8) ltac:(lia)) as B2.
  assert (F1 : (lo / 2 ^ 16) mod 2 ^ 24 = base mod 2 ^ 24) by (apply (field lo 103 _ (0x89 + 2 ^ 16 * ((base / 2 ^ 24) mod 2 ^ 8))); lia).
  assert (F2 : (lo / 2 ^ 56) mod 2 ^ 8 = (base / 2 ^ 24) mod 2 ^ 8) by (apply (field lo (103 + 2 ^ 16 * (base mod 2 ^ 24) + 2 ^ 40 * 0x89) _ 0); lia).
  assert (F3 : (lo / 2 ^ 40) mod 2 ^ 8 = 0x89) by (apply (field lo (103 + 2 ^ 16 * (base mod 2 ^ 24)) _ (2 ^ 8 * ((base / 2 ^ 24) mod 2 ^ 8))); lia).
  assert (F4 : (lo / 2 ^ 48) mod 2 ^ 4 = 0) by (apply (field lo (103 + 2 ^ 16 * (base mod 2 ^ 24) + 2 ^ 40 * 0x89) _ (2 ^ 4 * ((base / 2 ^ 24) mod 2 ^ 8))); lia).
  assert (F5 : lo mod 2 ^ 16 = 103) by (pose proof (field lo 0 103 (base mod 2 ^ 24 + 2 ^ 24 * (0x89 + 2 ^ 16 * ((base / 2 ^ 24) mod 2 ^ 8))) 0 16) as F; rewrite Z.pow_0_r, Z.div_1_r in F; apply F; lia).
  split_and!.
  - unfold tss_base. rewrite F1, F2. unfold gdt, gdt_init. cbn [fst nth]. change 0xFFFFFFFF with (Z.ones 32). rewrite land_ones_mod, Z.shiftr_div_pow2 by lia. by apply base_parts.
  - unfold desc_limit. rewrite F4, F5. done.
  - exact F3.
  - unfold idt, isr_init. cbn [fst]. by rewrite idt_length.
  - intros i a Hi. pose proof (lookup_lt_Some _ _ _ Hi). exists (set_gate a 0x8E). split; [|split; [apply set_gate_target; by eapply Forall_lookup_1 in Hs | done]].
    unfold idt, isr_init. cbn [fst]. rewrite idt_gates. rewrite (proj2 (Nat.ltb_lt _ _)) by lia. by rewrite (nth_lookup_Some _ _ _ _ Hi).
  - intros i g Hi Hge. unfold idt, isr_init in Hi. cbn [fst] in Hi. rewrite idt_gates, (proj2 (Nat.ltb_ge _ _)) in Hi by lia. apply lookup_replicate in Hi as [-> _]. done.
  - done.
  - done.
  - done.
Qed.

Lemma tables_decode_witness : exists g,
  (isr_init (replicate 48 0xFFFFFFFF80123456)).1 !! 33%nat = Some g /\ gate_target g = 0xFFFFFFFF80123456 /\
  tss_base (nth 5 (gdt_init 0xFFFFFFFF80ABCDEF 4096).1 0) (nth 6 (gdt_init 0xFFFFFFFF80ABCDEF 4096).1 0) = 0xFFFFFFFF80ABCDEF.
Proof.
  destruct (tables_decode 0xFFFFFFFF80ABCDEF 4096 0xFFFFFFFF80000000 (replicate 48 0xFFFFFFFF80123456) (mkMsrs 0 0 0 0)) as (H1 & _ & _ & _ & H5 & _).
  - lia.
  - reflexivity.
  - apply Forall_replicate. lia.
  - destruct (H5 33%nat 0xFFFFFFFF80123456 eq_refl) as (g & Hg & Ht & _). exists g. split; [exact Hg|]. split; [exact Ht | exact H1].
Defined.

(** ** Dispatch *)

(** The handlers registered by [kernel_main]: the page fault resolver, the timer and the
    keyboard. *)
Definition boot_handlers (stubs : list Z) : list (option handler) :=
  let t := (isr_init stubs).2 in
  let t := (isr_register_handler 14 (Some PageFault) t).2 in
  let t := (isr_register_handler 0x20 (Some PitIsr) t).2 in
  (isr_register_handler 0x21 (Some KbdIsr) t).2.

(** The end-of-interrupt commands for a line: the slave first, then the master. *)
Definition eoi_writes (irq : Z) : list (Z * Z) := (if 8 <=? irq then [(PIC_SLAVE_CMD, PIC_EOI)] else []) ++ [(PIC_MASTER_CMD, PIC_EOI)].

Lemma eoi_log irq p : p_log (pic_send_eoi irq p) = p_log p ++ eoi_writes irq.
Proof. unfold pic_send_eoi, eoi_writes. destruct (8 <=? irq); cbn; by rewrite <- ?app_assoc. Qed.

(** How the running kernel reacts to every interrupt vector.  A hardware interrupt is
    acknowledged exactly once, at the slave too for the lines from 8 on, before its handler
    runs, and only the timer and the keyboard have one; a page fault goes to the resolver;
    every other processor exception halts the whole machine, also when the frame is that
    of a user program, for which no code path kills the process instead. *)
Theorem isr_reactions (stubs : list Z) (f : isr_frame) (p : pic) : 0 <= vector f < 256 ->
  let '(r, p') := isr_handler (boot_handlers stubs) f p in
  if vector f <? 32 then p' = p /\ r = (if vector f =? 14 then Calls PageFault else HaltsMachine)
  else if vector f <? 48 then
    p_log p' = p_log p ++ eoi_writes (vector f - 32) /\
    r = (if vector f =? 32 then Calls PitIsr else if vector f =? 33 then Calls KbdIsr else Ignores)
  else p' = p /\ r = Ignores.
Proof.
  intros Hv. unfold isr_handler. rewrite (proj2 (Z.ltb_lt (vector f) 256)) by lia. set (v := vector f) in *. clearbody v.
  assert (T : nth (Z.to_nat v) (boot_handlers stubs) None = if v =? 14 then Some PageFault else if v =? 32 then Some PitIsr else if v =? 33 then Some KbdIsr else None).
  { assert (forall n, (n < 256)%nat -> nth n (boot_handlers stubs) None = if Z.of_nat n =? 14 then Some PageFault else if Z.of_nat n =? 32 then Some PitIsr else if Z.of_nat n =? 33 then Some KbdIsr else None) as G.
    { intros n Hn. do 256 (destruct n as [|n]; [reflexivity|]). lia. }
    rewrite G by lia. by rewrite Z2Nat.id by lia. }
  rewrite T. destruct (Z.ltb_spec v 32).
  - rewrite (proj2 (Z.leb_gt 32 v)) by lia. cbn [andb]. rewrite (proj2 (Z.eqb_neq v 32)), (proj2 (Z.eqb_neq v 33)) by lia. by destruct (v =? 14).
  - rewrite (proj2 (Z.leb_le 32 v)) by lia. rewrite (proj2 (Z.eqb_neq v 14)) by lia. destruct (Z.ltb_spec v 48); cbn [andb].
    + split; [rewrite eoi_log, u8_id by lia; done|]. destruct (v =? 32); [done|]. by destruct (v =? 33).
    + by rewrite (proj2 (Z.eqb_neq v 32)), (proj2 (Z.eqb_neq v 33)) by lia.
Qed.

(** A division by zero in a user program (code selector 0x23). *)
Lemma isr_reactions_witness :
  let f := mkIsr 0 0 0 0 0 0 0 0 0 0 0 0 0 0 0 0 0 0x400000 0x23 0x202 0x50000000 0x1B in
  let '(r, p') := isr_handler (boot_handlers []) f (mkPic [] (fun _ => 0)) in r = HaltsMachine.
Proof.
  intros f. pose proof (isr_reactions [] f (mkPic [] (fun _ => 0)) ltac:(cbn; lia)) as H. destruct (isr_handler _ _ _) as [r p']. exact (proj2 H).
Defined.
End Traps.
