(* ===== verification/Asm.v ===== *)
(** * Processor entry and context switch (the assembly files)

    The instructions of kthread_switch.asm, syscall_entry.asm, isr_stubs.asm,
    user_enter.asm and crt0.asm as lists, over a processor with its
    general registers, flags, selectors, model-specific registers and memory; the
    instructions [syscall], [sysret] and [iretq] as the processor defines them. *)
From S2P Require Import Prelude Heap Pipe Proc Fd Signal Sched PipeEnds Traps.

Module Asm.
Import Proc Fd Signal PipeEnds.

(** ** The processor *)

Inductive reg : Set :=
| RAX | RBX | RCX | RDX | RSI | RDI | RBP | RSP | R8 | R9 | R10 | R11 | R12 | R13 | R14 | R15.

#[export] Instance reg_eq_dec : EqDecision reg.
Proof. solve_decision. Defined.

Record cpu := mkCpu {
  regs : reg -> Z; c_rip : Z; c_rflags : Z; c_cs : Z; c_ss : Z; c_ds : Z; c_mem : mem;
  c_msrs : Traps.msrs; tss_rsp0 : Z
}.

Abbreviation m_star c := (Traps.m_star (c_msrs c)).
Abbreviation m_lstar c := (Traps.m_lstar (c_msrs c)).
Abbreviation m_sfmask c := (Traps.m_sfmask (c_msrs c)).
Abbreviation m_efer c := (Traps.m_efer (c_msrs c)).

Definition upd (r : reg) (v : Z) (f : reg -> Z) : reg -> Z := fun x => if decide (x = r) then v else f x.

Definition set_reg (r : reg) (v : Z) (c : cpu) : cpu :=
  let '(mkCpu f ip fl cs ss ds m ms t) := c in mkCpu (upd r v f) ip fl cs ss ds m ms t.
Definition set_cmem (m : mem) (c : cpu) : cpu :=
  let '(mkCpu f ip fl cs ss ds _ ms t) := c in mkCpu f ip fl cs ss ds m ms t.
Definition set_rip (v : Z) (c : cpu) : cpu :=
  let '(mkCpu f _ fl cs ss ds m ms t) := c in mkCpu f v fl cs ss ds m ms t.
Definition set_rflags (v : Z) (c : cpu) : cpu :=
  let '(mkCpu f ip _ cs ss ds m ms t) := c in mkCpu f ip v cs ss ds m ms t.
Definition set_sel (cs ss : Z) (c : cpu) : cpu :=
  let '(mkCpu f ip fl _ _ ds m ms t) := c in mkCpu f ip fl cs ss ds m ms t.
Definition set_ds (v : Z) (c : cpu) : cpu :=
  let '(mkCpu f ip fl cs ss _ m ms t) := c in mkCpu f ip fl cs ss v m ms t.
Definition set_msrs (ms : Traps.msrs) (c : cpu) : cpu :=
  let '(mkCpu f ip fl cs ss ds m _ t) := c in mkCpu f ip fl cs ss ds m ms t.

(** ** Instructions

    [GLOAD], [GSTORE] and [GPUSH] address a global variable relative to the
    instruction; [SETDATA] loads a data segment register. *)
Inductive instr :=
| PUSH (r : reg) | PUSHI (v : Z) | GPUSH (a : Z) | POP (r : reg)
| MOV (d s : reg) | MOVI (d : reg) (v : Z) | LEA (d s : reg) (off : Z) | ADDI (r : reg) (v : Z)
| LOAD (d b : reg) | STORE (b s : reg) | GLOAD (d : reg) (a : Z) | GSTORE (a : Z) (s : reg)
| SETDATA (v : Z) | STI | CLD
| CALL (back target : Z) | CALLR (back : Z) (r : reg) | JMP (target : Z) | RET | SYSCALL (back : Z) | SYSRET | IRETQ.

Definition push (v : Z) (c : cpu) : cpu :=
  let sp := u64 (regs c RSP - 8) in set_reg RSP sp (set_cmem (wr (c_mem c) sp v) c).
Definition top (c : cpu) : Z := rd (c_mem c) (regs c RSP).
Definition drop8 (c : cpu) : cpu := set_reg RSP (u64 (regs c RSP + 8)) c.

(** Selector fields of STAR, and the flags [sysret] takes from R11. *)
Definition star_kernel (c : cpu) : Z := Z.land (Z.shiftr (m_star c) 32) 0xFFFF.
Definition star_user (c : cpu) : Z := Z.land (Z.shiftr (m_star c) 48) 0xFFFF.
Definition sysret_flags (v : Z) : Z := Z.lor (Z.land v 0x3C7FD7) 2.

Definition step (i : instr) (c : cpu) : cpu :=
  match i with
  | PUSH r => push (regs c r) c
  | PUSHI v => push v c
  | GPUSH a => push (rd (c_mem c) a) c
  | POP r => set_reg r (top c) (drop8 c)
  | MOV d s => set_reg d (regs c s) c
  | MOVI d v => set_reg d v c
  | LEA d s off => set_reg d (u64 (regs c s + off)) c
  | ADDI r v => set_reg r (u64 (regs c r + v)) c
  | LOAD d b => set_reg d (rd (c_mem c) (regs c b)) c
  | STORE b s => set_cmem (wr (c_mem c) (regs c b) (regs c s)) c
  | GLOAD d a => set_reg d (rd (c_mem c) a) c
  | GSTORE a s => set_cmem (wr (c_mem c) a (regs c s)) c
  | SETDATA v => set_ds v c
  | STI => set_rflags (Z.lor (c_rflags c) 0x200) c
  | CLD => set_rflags (Z.land (c_rflags c) (u64 (Z.lnot 0x400))) c
  | CALL back t => set_rip t (push back c)
  | CALLR back r => set_rip (regs c r) (push back c)
  | JMP t => set_rip t c
  | RET => set_rip (top c) (drop8 c)
  | SYSCALL back =>
      set_rip (m_lstar c) (set_sel (star_kernel c) (star_kernel c + 8)
        (set_rflags (Z.land (c_rflags c) (u64 (Z.lnot (m_sfmask c)))) (set_reg R11 (c_rflags c) (set_reg RCX back c))))
  | SYSRET => set_rip (regs c RCX) (set_sel (Z.lor (star_user c + 16) 3) (Z.lor (star_user c + 8) 3) (set_rflags (sysret_flags (regs c R11)) c))
  | IRETQ =>
      let w k := rd (c_mem c) (u64 (regs c RSP + 8 * k)) in
      set_reg RSP (w 3) (set_rip (w 0) (set_sel (w 1) (w 4) (set_rflags (w 2) c)))
  end.

Definition run (p : list instr) (c : cpu) : cpu := foldl (fun c i => step i c) c p.

(** ** The code *)

(** kthread_switch.asm *)
Definition kthread_switch : list instr :=
  [PUSH RBX; PUSH RBP; PUSH R12; PUSH R13; PUSH R14; PUSH R15;
   STORE RDI RSP;
   MOV RSP RSI;
   POP R15; POP R14; POP R13; POP R12; POP RBP; POP RBX;
   RET].

Section Code.
(** Addresses of code and of the two globals of syscall.c. *)
Context (hang after_dispatch after_isr after_main : Z).
Context (g_user_rsp g_cur_kstack_addr syscall_entry_addr syscall_dispatch_addr isr_common_addr isr_handler_addr main_addr : Z).

Definition thread_trampoline_code : list instr := [STI; CALLR hang RBX].

(** user_enter.asm; the four data segment registers hold the same selector. *)
Definition enter_ring3 : list instr :=
  [SETDATA 0x1B;
   PUSHI 0x1B; PUSH RSI; PUSHI 0x202; PUSHI 0x23; PUSH RDI;
   IRETQ].

(** syscall_entry.asm: up to the call, and from [.return]. *)
Definition syscall_entry : list instr :=
  [GSTORE g_user_rsp RSP;
   GLOAD RSP g_cur_kstack_addr;
   GPUSH g_user_rsp;
   PUSH R11; PUSH RCX; PUSH R15; PUSH R14; PUSH R13; PUSH R12; PUSH RBP; PUSH RBX; PUSH R9; PUSH R8; PUSH R10; PUSH RDX; PUSH RSI; PUSH RDI; PUSH RAX;
   MOV RDI RSP;
   CALL after_dispatch syscall_dispatch_addr].
Definition syscall_return : list instr :=
  [POP RAX; POP RDI; POP RSI; POP RDX; POP R10; POP R8; POP R9; POP RBX; POP RBP; POP R12; POP R13; POP R14; POP R15; POP RCX; POP R11;
   LOAD RSP RSP;
   SYSRET].
Definition fork_ret_trampoline_code : list instr := JMP after_dispatch :: syscall_return.

(** isr_stubs.asm: the vectors for which the processor pushes an error code. *)
Definition isr_err : list Z := [8; 10; 11; 12; 13; 14; 17; 21].
Definition isr_stub (v : Z) : list instr :=
  (if bool_decide (v ∈ isr_err) then [] else [PUSHI 0]) ++ [PUSHI v; JMP isr_common_addr].
Definition isr_common_entry : list instr :=
  [PUSH RAX; PUSH RBX; PUSH RCX; PUSH RDX; PUSH RSI; PUSH RDI; PUSH RBP; PUSH R8; PUSH R9; PUSH R10; PUSH R11; PUSH R12; PUSH R13; PUSH R14; PUSH R15;
   MOV RDI RSP;
   CLD;
   CALL after_isr isr_handler_addr].
Definition isr_common_return : list instr :=
  [POP R15; POP R14; POP R13; POP R12; POP R11; POP R10; POP R9; POP R8; POP RBP; POP RDI; POP RSI; POP RDX; POP RCX; POP RBX; POP RAX;
   ADDI RSP 16;
   IRETQ].

(** The processor's part of an interrupt: from ring 3 the stack is that of the TSS, the
    stack pointer is aligned to 16 bytes, five words and for some vectors an error
    code are pushed, and interrupts are off. *)
Definition interrupt (v err kcs : Z) (c : cpu) : cpu :=
  let user := Z.land (c_cs c) 3 =? 3 in
  let sp := Z.land (if user then tss_rsp0 c else regs c RSP) (u64 (Z.lnot 15)) in
  let c1 := push (c_rip c) (push (c_cs c) (push (c_rflags c) (push (regs c RSP) (push (c_ss c) (set_reg RSP sp c))))) in
  let c2 := if bool_decide (v ∈ isr_err) then push err c1 else c1 in
  set_sel kcs (if user then 0 else c_ss c) (set_rflags (Z.land (c_rflags c) (u64 (Z.lnot 0x200))) c2).

(** crt0.asm: up to the call of [main], and the exit with its result. *)
Definition start_code : list instr := [MOVI RBP 0; LOAD RDI RSP; LEA RSI RSP 8; CALL after_main main_addr].
Definition exit_code_of_main : list instr := [MOV RDI RAX; MOVI RAX 0; SYSCALL hang].
End Code.

(** ** Runs of pushes and pops *)

(** What a stack operation leaves alone. *)
Definition control (c : cpu) : list Z :=
  [c_rip c; c_rflags c; c_cs c; c_ss c; c_ds c; m_star c; m_lstar c; m_sfmask c; m_efer c; tss_rsp0 c].

Lemma run_app p q c : run (p ++ q) c = run q (run p c).
Proof. apply foldl_app. Qed.

Lemma run_cons i p c : run (i :: p) c = run p (step i c).
Proof. done. Qed.

Lemma regs_set r v c x : regs (set_reg r v c) x = if decide (x = r) then v else regs c x.
Proof. by destruct c. Qed.
Lemma set_reg_same c r v : control (set_reg r v c) = control c /\ c_mem (set_reg r v c) = c_mem c.
Proof. by destruct c. Qed.
Lemma set_cmem_same c m : control (set_cmem m c) = control c /\ c_mem (set_cmem m c) = m /\ regs (set_cmem m c) = regs c.
Proof. by destruct c. Qed.

Record pushed (vs : list Z) (c c' : cpu) : Prop := {
  pu_rsp : regs c' RSP = regs c RSP - 8 * Z.of_nat (length vs);
  pu_regs : forall r, r <> RSP -> regs c' r = regs c r;
  pu_mem : c_mem c' = (push_words vs (regs c RSP) (c_mem c)).2;
  pu_control : control c' = control c
}.

Definition pushes (vs : list Z) (c : cpu) : cpu := foldl (fun c v => push v c) c vs.

Lemma push_pushed v c : 8 <= regs c RSP < 2 ^ 64 -> pushed [v] c (push v c).
Proof.
  intros H. unfold push. rewrite u64_id by lia. destruct c as [f ip fl cs ss ds m ms t]. cbn in *. split; cbn; try done.
  intros r Hr. unfold upd. by rewrite decide_False.
Qed.

Lemma pushes_pushed vs : forall c, 8 * Z.of_nat (length vs) <= regs c RSP < 2 ^ 64 -> pushed vs c (pushes vs c).
Proof.
  induction vs as [|v vs IH]; intros c H; cbn [pushes foldl length] in *; [split; cbn; done || lia|].
  destruct (push_pushed v c) as [P1 P2 P3 P4]; [lia|]. cbn [length] in P1. destruct (IH (push v c)) as [Q1 Q2 Q3 Q4]; [lia|].
  fold (pushes vs (push v c)) in *. split; [rewrite Q1, P1; cbn [length]; lia | intros r Hr; rewrite Q2, P2 by done; done | | congruence].
  rewrite Q3, P1, P3. cbn [push_words snd length]. by replace (regs c RSP - 8 * Z.of_nat 1) with (regs c RSP - 8) by lia.
Qed.

Lemma run_push_regs rs : forall c, RSP ∉ rs -> run (PUSH <$> rs) c = pushes (regs c <$> rs) c.
Proof.
  induction rs as [|r rs IH]; intros c Hr; [done|]. apply not_elem_of_cons in Hr as [Hr Hrs]. cbn [fmap list_fmap run foldl pushes step].
  fold (run (PUSH <$> rs) (push (regs c r) c)). rewrite IH by done. fold (pushes (regs c <$> rs) (push (regs c r) c)). f_equal.
  apply list_fmap_ext. intros i x Hx. unfold push. rewrite regs_set, decide_False by (intros ->; by apply Hrs, (list_elem_of_lookup_2 _ _ _ Hx)).
  by destruct c.
Qed.

Record popped (rs : list reg) (c c' : cpu) : Prop := {
  po_rsp : regs c' RSP = regs c RSP + 8 * Z.of_nat (length rs);
  po_regs : forall i r, rs !! i = Some r -> regs c' r = rd (c_mem c) (regs c RSP + 8 * Z.of_nat i);
  po_rest : forall r, r <> RSP -> r ∉ rs -> regs c' r = regs c r;
  po_mem : c_mem c' = c_mem c;
  po_control : control c' = control c
}.

Lemma run_pops rs : forall c, NoDup rs -> RSP ∉ rs -> 0 <= regs c RSP -> regs c RSP + 8 * Z.of_nat (length rs) < 2 ^ 64 ->
  popped rs c (run (POP <$> rs) c).
Proof.
  induction rs as [|r rs IH]; intros c Hnd Hr H0 H1; cbn [fmap list_fmap run foldl length] in *; [split; cbn; done || lia|].
  apply not_elem_of_cons in Hr as [Hr Hrs]. apply NoDup_cons in Hnd as [Hn Hnd]. set (c1 := step (POP r) c).
  assert (S : regs c1 RSP = regs c RSP + 8 /\ regs c1 r = top c /\ (forall x, x <> RSP -> x <> r -> regs c1 x = regs c x) /\ c_mem c1 = c_mem c /\ control c1 = control c).
  { unfold c1. cbn [step]. unfold drop8. rewrite u64_id by lia. destruct c. cbn. unfold upd. repeat split; intros; repeat case_decide; done. }
  destruct S as (S1 & S2 & S3 & S4 & S5). destruct (IH c1) as [Q1 Q2 Q3 Q4 Q5]; [done | done | lia | lia |]. fold (run (POP <$> rs) c1) in *.
  split; [rewrite Q1, S1; cbn [length]; lia | | | congruence | congruence].
  - intros [|i] x Hx; cbn in Hx.
    + injection Hx as <-. rewrite Q3 by done. rewrite S2. unfold top. f_equal. lia.
    + rewrite (Q2 i x Hx), S1, S4. f_equal. lia.
  - intros x Hx Hxs. apply not_elem_of_cons in Hxs as [Hxr Hxs]. by rewrite Q3, S3.
Qed.

(** The words pushed, and the others. *)
Lemma rd_push_words vs : forall sp m k v, vs !! k = Some v -> rd (push_words vs sp m).2 (sp - 8 * (Z.of_nat k + 1)) = v.
Proof.
  assert (Out : forall vs sp m a, sp <= a -> rd (push_words vs sp m).2 a = rd m a).
  { clear. induction vs as [|v vs IH]; intros sp m a Ha; [done|]. cbn [push_words]. rewrite IH by lia. apply rd_wr_ne. lia. }
  induction vs as [|w vs IH]; intros sp m k v Hk; [done|]. cbn [push_words]. destruct k as [|k]; cbn in Hk.
  - injection Hk as ->. rewrite Out by lia. replace (sp - 8 * (Z.of_nat 0 + 1)) with (sp - 8) by lia. apply rd_wr_eq.
  - replace (sp - 8 * (Z.of_nat (S k) + 1)) with (sp - 8 - 8 * (Z.of_nat k + 1)) by lia. by apply IH.
Qed.

Lemma push_words_rsp vs : forall sp m, (push_words vs sp m).1 = sp - 8 * Z.of_nat (length vs).
Proof. induction vs as [|v vs IH]; intros sp m; cbn [push_words length fst]; [lia|]. rewrite IH. lia. Qed.

Lemma rd_push_words_out vs : forall sp m a, a < sp - 8 * Z.of_nat (length vs) \/ sp <= a -> rd (push_words vs sp m).2 a = rd m a.
Proof.
  induction vs as [|v vs IH]; intros sp m a Ha; [done|]. cbn [push_words length] in *. rewrite IH by lia. apply rd_wr_ne. lia.
Qed.

(** Membership and distinctness of closed lists of registers. *)
Ltac by_decide := apply (bool_decide_unpack _); vm_compute; exact I.

(** ** The context switch *)

Definition callee_saved : list reg := [RBX; RBP; R12; R13; R14; R15].
Definition restored : list reg := [R15; R14; R13; R12; RBP; RBX].

(** The switch: memory after the outgoing half, registers and return address
    from the incoming stack. *)
Definition switched_mem (c : cpu) : mem :=
  wr (push_words (regs c <$> callee_saved) (regs c RSP) (c_mem c)).2 (regs c RDI) (regs c RSP - 48).

Lemma kthread_switch_runs c : 48 <= regs c RSP < 2 ^ 64 -> 0 <= regs c RSI < 2 ^ 64 - 56 ->
  let c' := run kthread_switch c in
  c_mem c' = switched_mem c /\
  (forall i r, restored !! i = Some r -> regs c' r = rd (switched_mem c) (regs c RSI + 8 * Z.of_nat i)) /\
  (forall r, r <> RSP -> r ∉ restored -> regs c' r = regs c r) /\
  regs c' RSP = regs c RSI + 56 /\ c_rip c' = rd (switched_mem c) (regs c RSI + 48) /\ tail (control c') = tail (control c).
Proof.
  intros Hsp Hsi. change kthread_switch with ((PUSH <$> callee_saved) ++ [STORE RDI RSP; MOV RSP RSI] ++ (POP <$> restored) ++ [RET]).
  rewrite !run_app. rewrite run_push_regs by by_decide.
  destruct (pushes_pushed (regs c <$> callee_saved) c) as [P1 P2 P3 P4]; [cbn; lia|]. cbn [length fmap list_fmap callee_saved] in P1. set (c1 := pushes _ c) in *. clearbody c1.
  set (c2 := run [STORE RDI RSP; MOV RSP RSI] c1).
  assert (E2 : regs c2 RSP = regs c RSI /\ (forall r, r <> RSP -> regs c2 r = regs c r) /\ c_mem c2 = switched_mem c /\ control c2 = control c).
  { unfold switched_mem. rewrite <- (P2 RSI), <- P3, <- (P2 RDI), <- P4 by done. replace (regs c RSP - 48) with (regs c1 RSP) by (rewrite P1; lia).
    unfold c2. cbn [run foldl step]. split_and!; [by destruct c1 | | by destruct c1 | by destruct c1].
    intros r Hr. rewrite <- P2 by done. destruct c1. cbn. unfold upd. by rewrite decide_False. }
  clearbody c2. destruct E2 as (E1 & E2 & E3 & E4).
  destruct (run_pops restored c2) as [Q1 Q2 Q3 Q4 Q5].
  { by_decide. }
  { by_decide. }
  { lia. }
  { change (length _) with 6%nat. lia. }
  change (length _) with 6%nat in Q1. set (c3 := run _ c2) in *. clearbody c3. cbn [run foldl step]. unfold drop8, top. rewrite u64_id by lia.
  assert (F : forall x v w, regs (set_rip v (set_reg x w c3)) = regs (set_reg x w c3) /\ c_mem (set_rip v (set_reg x w c3)) = c_mem c3 /\
    c_rip (set_rip v (set_reg x w c3)) = v /\ tail (control (set_rip v (set_reg x w c3))) = tail (control c3)) by (by destruct c3).
  destruct (F RSP (rd (c_mem c3) (regs c3 RSP)) (regs c3 RSP + 8)) as (-> & -> & -> & ->). split_and!.
  - congruence.
  - intros i r Hi. rewrite regs_set, decide_False, (Q2 i r Hi), E1, E3; [done|]. intros ->. apply list_elem_of_lookup_2 in Hi. revert Hi. by_decide.
  - intros r Hr Hn. rewrite regs_set, decide_False, Q3, E2 by done. done.
  - rewrite regs_set, decide_True by done. lia.
  - by rewrite Q4, E3, Q1, E1.
  - by rewrite Q5, E4.
Qed.

(** The words of a thread that is switched out: its registers and its return
    address; an address apart from them. *)
Definition saved_word (sp k : Z) : Z := sp - 48 + 8 * k.
Definition apart (a sp : Z) : Prop := a + 8 <= sp - 48 \/ sp + 8 <= a.

(** The outgoing half leaves the registers in these words. *)
Lemma switched_out c i r : 48 <= regs c RSP < 2 ^ 64 -> apart (regs c RDI) (regs c RSP) -> restored !! i = Some r ->
  rd (switched_mem c) (saved_word (regs c RSP) (Z.of_nat i)) = regs c r.
Proof.
  intros Hsp Hd Hi. unfold switched_mem, saved_word, apart in *. assert (Hlt : (i < 6)%nat) by (by apply lookup_lt_Some in Hi).
  rewrite rd_wr_ne by lia. replace (regs c RSP - 48 + 8 * Z.of_nat i) with (regs c RSP - 8 * (Z.of_nat (5 - i) + 1)) by lia.
  apply rd_push_words. do 6 (destruct i as [|i]; [injection Hi as <-; reflexivity|]). done.
Qed.

Lemma switched_return c : apart (regs c RDI) (regs c RSP) -> rd (switched_mem c) (saved_word (regs c RSP) 6) = top c.
Proof.
  intros Hd. unfold switched_mem, saved_word, apart, top in *. rewrite rd_wr_ne by lia. rewrite rd_push_words_out by lia. f_equal. lia.
Qed.

(** The incoming half of another thread's switch leaves these words alone. *)
Lemma switch_frame c sp k : 48 <= regs c RSP < 2 ^ 64 -> apart (regs c RDI) sp -> regs c RSP <= sp - 48 \/ sp + 56 <= regs c RSP -> 0 <= k < 7 ->
  rd (switched_mem c) (saved_word sp k) = rd (c_mem c) (saved_word sp k).
Proof.
  intros Hsp Hd Hs Hk. unfold switched_mem, saved_word, apart in *. rewrite rd_wr_ne by lia. apply rd_push_words_out. cbn. lia.
Qed.

Lemma callee_restored r : r ∈ callee_saved -> exists i, restored !! i = Some r.
Proof.
  intros H. apply list_elem_of_lookup_1. change restored with (reverse callee_saved). by apply elem_of_reverse.
Qed.

(** C13: a thread that is switched out comes back as if [kthread_switch] had been an ordinary
    call.  [c] is the processor at the entry of the outgoing call, [c2] at any later
    call whose incoming stack pointer is the one the first call stored; as long as nobody
    wrote to the seven words at the top of the thread's stack, and the other thread is on a
    stack of its own, the second call returns to the caller of the first, with
    its stack pointer and every register a callee must preserve. *)
Theorem context_switch_resumes c c2 :
  48 <= regs c RSP < 2 ^ 64 - 8 -> 0 <= regs c RSI < 2 ^ 64 - 56 -> apart (regs c RDI) (regs c RSP) ->
  48 <= regs c2 RSP < 2 ^ 64 -> regs c2 RSI = rd (c_mem (run kthread_switch c)) (regs c RDI) ->
  (forall k, 0 <= k < 7 -> rd (c_mem c2) (saved_word (regs c RSP) k) = rd (c_mem (run kthread_switch c)) (saved_word (regs c RSP) k)) ->
  apart (regs c2 RDI) (regs c RSP) -> regs c2 RSP <= regs c RSP - 48 \/ regs c RSP + 56 <= regs c2 RSP ->
  let c3 := run kthread_switch c2 in
  c_rip c3 = top c /\ regs c3 RSP = regs c RSP + 8 /\ forall r, r ∈ callee_saved -> regs c3 r = regs c r.
Proof.
  intros Hsp Hsi Hd Hsp2 Hsi2 Hkeep Hd2 Hst.
  destruct (kthread_switch_runs c) as (M1 & _); [lia | lia |]. rewrite M1 in Hsi2, Hkeep.
  assert (E : regs c2 RSI = regs c RSP - 48) by (rewrite Hsi2; unfold switched_mem; apply rd_wr_eq). clear Hsi2 M1.
  destruct (kthread_switch_runs c2) as (_ & R2 & _ & S2 & I2 & _); [lia | lia |]. rewrite E in *.
  assert (W : forall k, 0 <= k < 7 -> rd (switched_mem c2) (regs c RSP - 48 + 8 * k) = rd (switched_mem c) (saved_word (regs c RSP) k)).
  { intros k Hk. rewrite <- Hkeep by done. by apply switch_frame. }
  split_and!; [rewrite I2; change 48 with (8 * 6) at 2; rewrite W by lia; by apply switched_return | lia |].
  intros r (i & Hi)%callee_restored.
  assert ((i < 6)%nat) by (by apply lookup_lt_Some in Hi). rewrite (R2 i r Hi), W by lia. apply switched_out; [lia | done | done].
Qed.

(** Two threads, on stacks at 0x8000 and 0x9000; the second one gives the processor back. *)
Definition cpu0 (sp si di : Z) (m : mem) : cpu :=
  mkCpu (fun r => match r with RSP => sp | RSI => si | RDI => di | RBX => 11 | R15 => 15 | _ => 7 end) 0x100000 0x202 8 0 0 m (Traps.mkMsrs 0 0 0 0) 0.
Definition thread1 : cpu := cpu0 0x8000 0x9000 0x5000 (wr ∅ 0x8000 0x1234).
Definition thread2 : cpu := cpu0 0xA000 0x7FD0 0x5008 (c_mem (run kthread_switch thread1)).

Lemma context_switch_resumes_witness :
  c_rip (run kthread_switch thread2) = 0x1234 /\ regs (run kthread_switch thread2) RSP = 0x8008 /\ regs (run kthread_switch thread2) RBX = 11.
Proof.
  assert (E1 : forall c1, c_mem (cpu0 0xA000 0x7FD0 0x5008 c1) = c1) by reflexivity.
  destruct (context_switch_resumes thread1 thread2) as (H1 & H2 & H3).
  - by split.
  - by split.
  - left. by vm_compute.
  - by split.
  - vm_compute. reflexivity.
  - intros k _. unfold thread2. by rewrite E1.
  - left. by vm_compute.
  - right. by vm_compute.
  - split; [exact H1|]. split; [exact H2|]. apply H3. left.
Defined.

(** ** System calls *)

(** The registers in the order of [syscall_frame_t] and of the pops. *)
Definition frame_regs : list reg := [RAX; RDI; RSI; RDX; R10; R8; R9; RBX; RBP; R12; R13; R14; R15; RCX; R11].

(** The frame of a program that executes [syscall] with [next] behind it. *)
Definition frame_of (c : cpu) (next : Z) : syscall_frame :=
  mkFrame (regs c RAX) (regs c RDI) (regs c RSI) (regs c RDX) (regs c R10) (regs c R8) (regs c R9) (regs c RBX) (regs c RBP)
    (regs c R12) (regs c R13) (regs c R14) (regs c R15) next (c_rflags c) (regs c RSP).

Lemma frame_at_words m a i w : frame_words (frame_at m a) !! i = Some w -> rd m (a + 8 * Z.of_nat i) = w.
Proof.
  intros H. do 16 (destruct i as [|i]; [cbn [frame_words frame_at f_rax f_rdi f_rsi f_rdx f_r10 f_r8 f_r9 f_rbx f_rbp f_r12 f_r13 f_r14 f_r15 f_rip f_rflags f_ursp lookup list_lookup] in H;
    injection H as <-; f_equal; lia|]). done.
Qed.

Lemma frame_at_eq m a f : (forall i w, frame_words f !! i = Some w -> rd m (a + 8 * Z.of_nat i) = w) -> frame_at m a = f.
Proof.
  intros H. destruct f as [x0 x1 x2 x3 x4 x5 x6 x7 x8 x9 x10 x11 x12 x13 x14 x15]. unfold frame_at.
  pose proof (H 0%nat _ eq_refl) as H0. rewrite Z.add_0_r in H0. rewrite H0.
  f_equal; [exact (H 1%nat _ eq_refl) | exact (H 2%nat _ eq_refl) | exact (H 3%nat _ eq_refl) | exact (H 4%nat _ eq_refl) | exact (H 5%nat _ eq_refl)
    | exact (H 6%nat _ eq_refl) | exact (H 7%nat _ eq_refl) | exact (H 8%nat _ eq_refl) | exact (H 9%nat _ eq_refl) | exact (H 10%nat _ eq_refl)
    | exact (H 11%nat _ eq_refl) | exact (H 12%nat _ eq_refl) | exact (H 13%nat _ eq_refl) | exact (H 14%nat _ eq_refl) | exact (H 15%nat _ eq_refl)].
Qed.

Lemma frame_words_length f : length (frame_words f) = 16%nat.
Proof. done. Qed.

(** A frame pushed from its last word to its first. *)
Lemma frame_pushed f sp m : frame_at (push_words (reverse (frame_words f)) sp m).2 (sp - 128) = f.
Proof.
  apply frame_at_eq. intros i w Hi. pose proof (lookup_lt_Some _ _ _ Hi) as Hl. rewrite frame_words_length in Hl.
  replace (sp - 128 + 8 * Z.of_nat i) with (sp - 8 * (Z.of_nat (15 - i) + 1)) by lia. apply rd_push_words.
  rewrite reverse_lookup by (rewrite frame_words_length; lia). rewrite frame_words_length. by replace (16 - S (15 - i))%nat with i by lia.
Qed.

Lemma frame_at_keep m m' a : (forall x, a <= x < a + 128 -> rd m' x = rd m x) -> frame_at m' a = frame_at m a.
Proof.
  intros H. apply frame_at_eq. intros i w Hi. pose proof (lookup_lt_Some _ _ _ Hi) as Hl. rewrite frame_words_length in Hl.
  rewrite H by lia. by apply frame_at_words.
Qed.

(** The call of a C function with the stack pointer as its argument. *)
Lemma call_c_runs back t c : 8 <= regs c RSP < 2 ^ 64 -> let c1 := run [MOV RDI RSP; CALL back t] c in
  regs c1 RDI = regs c RSP /\ regs c1 RSP = regs c RSP - 8 /\ c_mem c1 = wr (c_mem c) (regs c RSP - 8) back /\ c_rip c1 = t /\ tail (control c1) = tail (control c) /\
  (forall r, r <> RSP -> r <> RDI -> regs c1 r = regs c r).
Proof.
  intros H. cbn [run foldl step]. unfold push. rewrite regs_set, decide_False, u64_id by (done || lia). destruct c. cbn in *. unfold upd.
  repeat split; intros; repeat case_decide; done.
Qed.

(** A program resumed from a frame. *)
Record resumed (f : syscall_frame) (c : cpu) : Prop := {
  re_regs : forall i r w, frame_regs !! i = Some r -> frame_words f !! i = Some w -> regs c r = w;
  re_rsp : regs c RSP = f_ursp f;
  re_rip : c_rip c = f_rip f;
  re_rflags : c_rflags c = sysret_flags (f_rflags f);
  re_user : c_cs c = 0x23 /\ c_ss c = 0x1B
}.

Definition syscalls_on (entry : Z) (c : cpu) : Prop :=
  m_star c = Z.lor (Z.shiftl 0x10 48) (Z.shiftl 0x08 32) /\ m_lstar c = entry /\ m_sfmask c = 0x200.

Lemma tail_control c l : tail (control c) = l -> c_rflags c = nth 0 l 0 /\ c_cs c = nth 1 l 0 /\ m_star c = nth 4 l 0.
Proof. by intros <-. Qed.

(** The interrupt flag is off. *)
Lemma mask_if v : Z.testbit (Z.land v (u64 (Z.lnot 0x200))) 9 = false.
Proof. rewrite Z.land_spec. unfold u64. by rewrite Z.mod_pow2_bits_low, Z.lnot_spec, andb_false_r by lia. Qed.

Lemma control_star c c' : control c' = control c -> m_star c' = m_star c.
Proof. intros E. by apply (f_equal (fun l => nth 5 l 0)) in E. Qed.

Lemma control_cs_flags c c' : control c' = control c -> c_cs c' = c_cs c /\ c_rflags c' = c_rflags c.
Proof. intros E. change (c_cs c') with (nth 2 (control c') 0). change (c_rflags c') with (nth 1 (control c') 0). by rewrite E. Qed.

Lemma frame_regs_no_rsp i r : frame_regs !! i = Some r -> r <> RSP.
Proof. intros Hi ->. apply list_elem_of_lookup_2 in Hi. revert Hi. by_decide. Qed.

(** The last two instructions. *)
Lemma sysret_runs f c : m_star c = Z.lor (Z.shiftl 0x10 48) (Z.shiftl 0x08 32) -> rd (c_mem c) (regs c RSP) = f_ursp f ->
  (forall i r w, frame_regs !! i = Some r -> frame_words f !! i = Some w -> regs c r = w) ->
  resumed f (run [LOAD RSP RSP; SYSRET] c) /\ c_mem (run [LOAD RSP RSP; SYSRET] c) = c_mem c.
Proof.
  intros Hst Hsp W. assert (E1 : regs c RCX = f_rip f) by (apply (W 13%nat); reflexivity). assert (E2 : regs c R11 = f_rflags f) by (apply (W 14%nat); reflexivity).
  destruct c as [g ip fl cs ss ds m [ef st ls sf] t]. cbn [regs c_mem c_msrs Traps.m_star] in *. subst st. cbn [run foldl step set_reg set_rip set_sel set_rflags regs c_mem].
  split; [split | done]; cbn [regs c_rip c_rflags c_cs c_ss].
  - intros i r w Hi Hw. unfold upd. rewrite decide_False by (by eapply frame_regs_no_rsp). by eapply W.
  - unfold upd. by rewrite decide_True.
  - exact E1.
  - change (upd RSP (rd m (g RSP)) g R11) with (g R11). by rewrite E2.
  - by split.
Qed.

Lemma syscall_return_runs c : 0 <= regs c RSP < 2 ^ 64 - 128 -> m_star c = Z.lor (Z.shiftl 0x10 48) (Z.shiftl 0x08 32) ->
  resumed (frame_at (c_mem c) (regs c RSP)) (run syscall_return c) /\ c_mem (run syscall_return c) = c_mem c.
Proof.
  intros Hsp Hst. change syscall_return with ((POP <$> frame_regs) ++ [LOAD RSP RSP; SYSRET]). rewrite run_app.
  destruct (run_pops frame_regs c) as [Q1 Q2 _ Q4 Q5]; [by_decide | by_decide | lia | change (length frame_regs) with 15%nat; lia |].
  change (length frame_regs) with 15%nat in Q1. set (c1 := run _ c) in *. clearbody c1. rewrite <- Q4. apply sysret_runs.
  - rewrite <- Hst. by apply control_star.
  - rewrite Q4, Q1. by apply (frame_at_words _ _ 15).
  - intros i r w Hi Hw. rewrite (Q2 i r Hi). rewrite Q4 in Hw. by apply frame_at_words.
Qed.

Section Syscall.
Context (after_dispatch g_user_rsp g_cur_kstack_addr syscall_entry_addr syscall_dispatch_addr : Z).
Abbreviation entry_code := (syscall_entry after_dispatch g_user_rsp g_cur_kstack_addr syscall_dispatch_addr).

(** The kernel stack of the running process, and the globals apart from it. *)
Definition kstack_ok (kst : Z) (c : cpu) : Prop :=
  rd (c_mem c) g_cur_kstack_addr = kst /\ 136 <= kst < 2 ^ 64 /\ g_user_rsp <> g_cur_kstack_addr /\
  (g_user_rsp + 8 <= kst - 136 \/ kst <= g_user_rsp).

(** After the instruction and the switch to the kernel stack. *)
Lemma enter_kernel c next kst : kstack_ok kst c -> syscalls_on syscall_entry_addr c ->
  let c1 := run [SYSCALL next; GSTORE g_user_rsp RSP; GLOAD RSP g_cur_kstack_addr] c in
  regs c1 RSP = kst /\ regs c1 RCX = next /\ regs c1 R11 = c_rflags c /\ (forall r, r ∉ [RSP; RCX; R11] -> regs c1 r = regs c r) /\
  c_mem c1 = wr (c_mem c) g_user_rsp (regs c RSP) /\ control c1 = [syscall_entry_addr; Z.land (c_rflags c) (u64 (Z.lnot 0x200)); 0x08; 0x10; c_ds c; m_star c; m_lstar c; m_sfmask c; m_efer c; tss_rsp0 c].
Proof using.
  intros (Hk & _ & Hne & _) (S1 & S2 & S3). destruct c as [g ip fl cs ss ds m [ef st ls sf] t]. cbn [c_mem regs c_msrs Traps.m_star Traps.m_lstar Traps.m_sfmask] in *. subst st ls sf.
  cbn [run foldl step set_reg set_rip set_sel set_rflags set_cmem regs c_mem c_rflags c_msrs Traps.m_lstar Traps.m_star Traps.m_sfmask].
  unfold upd. repeat split; try (repeat case_decide; done).
  - rewrite decide_True, rd_wr_ne by done. exact Hk.
  - intros r Hr. rewrite !not_elem_of_cons in Hr. destruct Hr as (? & ? & ? & _). by rewrite !decide_False.
Qed.

Definition entry_regs : list reg := [R11; RCX; R15; R14; R13; R12; RBP; RBX; R9; R8; R10; RDX; RSI; RDI; RAX].

Lemma run_gpush a rs c : RSP ∉ rs -> run (GPUSH a :: (PUSH <$> rs)) c = pushes (rd (c_mem c) a :: (regs c <$> rs)) c.
Proof using.
  intros Hr. change (run (GPUSH a :: (PUSH <$> rs)) c) with (run (PUSH <$> rs) (push (rd (c_mem c) a) c)). rewrite run_push_regs by done.
  cbn [pushes foldl]. fold (pushes (regs c <$> rs) (push (rd (c_mem c) a) c)). f_equal. apply list_fmap_ext. intros i x Hx.
  unfold push. rewrite regs_set, decide_False by (intros ->; by apply Hr, (list_elem_of_lookup_2 _ _ _ Hx)). by destruct c.
Qed.

Lemma entry_values c c1 next : regs c1 RCX = next -> regs c1 R11 = c_rflags c -> (forall r, r ∉ [RSP; RCX; R11] -> regs c1 r = regs c r) ->
  regs c RSP :: (regs c1 <$> entry_regs) = reverse (frame_words (frame_of c next)).
Proof using.
  intros E2 E3 E4. cbn [fmap list_fmap entry_regs]. rewrite E2, E3, !E4 by by_decide. reflexivity.
Qed.

Record in_dispatch (kst next : Z) (c c1 : cpu) : Prop := {
  id_arg : regs c1 RDI = kst - 128;
  id_rsp : regs c1 RSP = kst - 136;
  id_back : top c1 = after_dispatch;
  id_rip : c_rip c1 = syscall_dispatch_addr;
  id_frame : frame_at (c_mem c1) (kst - 128) = frame_of c next;
  id_ring0 : c_cs c1 = 0x08 /\ Z.testbit (c_rflags c1) 9 = false;
  id_star : m_star c1 = m_star c
}.

Lemma syscall_entry_runs c next kst : kstack_ok kst c -> syscalls_on syscall_entry_addr c ->
  in_dispatch kst next c (run (SYSCALL next :: entry_code) c).
Proof using.
  intros Hk Hs. change (SYSCALL next :: entry_code) with ([SYSCALL next; GSTORE g_user_rsp RSP; GLOAD RSP g_cur_kstack_addr] ++
    (GPUSH g_user_rsp :: (PUSH <$> entry_regs)) ++ [MOV RDI RSP; CALL after_dispatch syscall_dispatch_addr]). rewrite !run_app.
  destruct (enter_kernel c next kst Hk Hs) as (E1 & E2 & E3 & E4 & E5 & E6). set (c1 := run _ c) in *. clearbody c1.
  rewrite run_gpush by by_decide. destruct Hk as (_ & Hk & _ & Hg).
  assert (V : rd (c_mem c1) g_user_rsp :: (regs c1 <$> entry_regs) = reverse (frame_words (frame_of c next))).
  { rewrite E5, rd_wr_eq. by apply entry_values. }
  rewrite V. destruct (pushes_pushed (reverse (frame_words (frame_of c next))) c1) as [P1 _ P3 P4]; [rewrite length_reverse, frame_words_length; lia|].
  rewrite length_reverse, frame_words_length in P1. rewrite E1 in P1, P3. set (c2 := pushes _ c1) in *. clearbody c2.
  pose proof (frame_pushed (frame_of c next) kst (c_mem c1)) as F. rewrite <- P3 in F. rewrite E6 in P4. clear V P3 E2 E3 E4 E5 E6.
  destruct (call_c_runs after_dispatch syscall_dispatch_addr c2) as (C1 & C2 & C3 & C4 & C5 & _); [lia|]. set (c3 := run _ c2) in *. clearbody c3.
  rewrite P4 in C5. destruct (tail_control c3 _ C5) as (D1 & D2 & D5). cbn [tail nth] in D1, D2, D5. clear C5 P4.
  split; [lia | lia | | done | | | done].
  - unfold top. rewrite C3, C2. apply rd_wr_eq.
  - rewrite C3. rewrite <- F. apply frame_at_keep. intros x Hx. apply rd_wr_ne. lia.
  - split; [done|]. rewrite D1. apply mask_if.
Qed.


(** ** The first return of a forked child *)

Lemma rd_store_words vs : forall a m i v, vs !! i = Some v -> rd (store_words vs a m) (a + 8 * Z.of_nat i) = v.
Proof using.
  assert (Out : forall ws a m x, x < a -> rd (store_words ws a m) x = rd m x).
  { intros ws. induction ws as [|w ws IH]; intros a m x Hx; [done|]. cbn [store_words]. rewrite IH by lia. apply rd_wr_ne. lia. }
  induction vs as [|w vs IH]; intros a m i v Hi; [done|]. cbn [store_words]. destruct i as [|i]; cbn in Hi.
  - injection Hi as ->. rewrite Out by lia. replace (a + 8 * Z.of_nat 0) with a by lia. apply rd_wr_eq.
  - replace (a + 8 * Z.of_nat (S i)) with (a + 8 + 8 * Z.of_nat i) by lia. by apply IH.
Qed.

(** The child's kernel stack, as [fork_child] leaves it. *)
Lemma child_stack tr f top m sp m' : (sp, m') = push_words [tr; 0; 0; 0; 0; 0; 0] (top - FRAME_SIZE) (store_words (frame_words f) (top - FRAME_SIZE) m) ->
  sp = top - 184 /\ rd m' (top - 136) = tr /\ frame_at m' (top - 128) = f.
Proof using.
  unfold FRAME_SIZE. intros E. assert (E1 : sp = top - 184) by (apply (f_equal fst) in E; cbn [fst] in E; rewrite E, push_words_rsp; cbn [length]; lia).
  apply (f_equal snd) in E. cbn [snd] in E. subst m'. split; [done|]. split.
  - replace (top - 136) with (top - 128 - 8 * (Z.of_nat 0 + 1)) by lia. by apply rd_push_words.
  - apply frame_at_eq. intros i w Hi. rewrite rd_push_words_out by (cbn; lia). by apply rd_store_words.
Qed.

(** A switch on another stack leaves an area of memory alone. *)
Lemma switched_mem_keep c lo hi x : 48 <= regs c RSP < 2 ^ 64 -> regs c RDI + 8 <= lo \/ hi <= regs c RDI -> regs c RSP <= lo \/ hi + 48 <= regs c RSP ->
  lo <= x < hi -> rd (switched_mem c) x = rd (c_mem c) x.
Proof using. intros Hsp Hd Hs Hx. unfold switched_mem. rewrite rd_wr_ne by lia. apply rd_push_words_out. cbn. lia. Qed.

Context (new_proc : gmap Z process -> option (Z * process)) (new_stack : gmap Z process -> option Z) {HP : ProcHeap new_proc}.
Context (fork_ret_trampoline : Z).

(** C3: [fork] returns a second time, in the child.  After [fork_child] on any consistent
    system either there was no memory or a process is in the ready queue whose saved stack
    pointer has this property: a context switch to it from any other
    stack goes to [fork_ret_trampoline], and the code there ends in ring 3 with the
    registers, the instruction pointer and the stack pointer of the caller's frame, and with 0 in RAX. *)
Theorem fork_child_returns_zero f as_ s q l : sys_ok s q l ->
  runs (fork_child new_proc new_stack fork_ret_trampoline f as_) s (fun r s' => r = -1 \/ exists q' l' child p,
    sys_ok s' q' l' /\ child ∈ q' /\ k_procs s' !! child = Some p /\ forall c,
    c_mem c = k_stack s' -> regs c RSI = kctx_rsp p -> syscalls_on syscall_entry_addr c -> 184 <= kstack_top p < 2 ^ 64 -> 48 <= regs c RSP < 2 ^ 64 ->
    regs c RDI + 8 <= kstack_top p - 184 \/ kstack_top p <= regs c RDI -> regs c RSP <= kstack_top p - 184 \/ kstack_top p + 48 <= regs c RSP ->
    let c1 := run kthread_switch c in
    c_rip c1 = fork_ret_trampoline /\ resumed (set_rax 0 f) (run (fork_ret_trampoline_code after_dispatch) c1)).
Proof using HP.
  intros H. eapply runs_mono; [by apply (fork_child_ok _ _ _ _ _ _ q l)|]. intros r s' (q' & l' & H' & [->|(a & p & m & Ha & Hp & E)]); [by left|].
  right. exists q', l', a, p. split_and!; try done. intros c Hm Hsi (Hst & _) Ht Hsp Hd Hs. destruct (child_stack _ _ _ _ _ _ E) as (E1 & E2 & E3). clear E.
  destruct (kthread_switch_runs c) as (M1 & _ & _ & M4 & M5 & M6); [lia | lia |]. set (c1 := run kthread_switch c) in *. clearbody c1.
  assert (K : forall x, kstack_top p - 184 <= x < kstack_top p -> rd (switched_mem c) x = rd (k_stack s') x).
  { intros x Hx. rewrite <- Hm. by apply (switched_mem_keep c (kstack_top p - 184) (kstack_top p)). }
  rewrite Hsi, E1 in M4, M5. split; [rewrite M5, K by lia; rewrite <- E2; f_equal; lia|]. cbv zeta.
  unfold fork_ret_trampoline_code. rewrite run_cons.
  assert (J : regs (step (JMP after_dispatch) c1) = regs c1 /\ c_mem (step (JMP after_dispatch) c1) = c_mem c1 /\ m_star (step (JMP after_dispatch) c1) = m_star c1) by (by destruct c1).
  set (c2 := step _ c1) in *. clearbody c2. destruct J as (J1 & J2 & J3). destruct (tail_control c1 _ M6) as (_ & _ & D).
  destruct (syscall_return_runs c2) as [R _]; [rewrite J1, M4; lia | rewrite J3, D; exact Hst |].
  replace (frame_at (c_mem c2) (regs c2 RSP)) with (set_rax 0 f) in R; [done|]. rewrite J1, J2, M1, M4. replace (kstack_top p - 184 + 56) with (kstack_top p - 128) by lia.
  rewrite <- E3. symmetry. apply frame_at_keep. intros x Hx. apply K. lia.
Qed.
End Syscall.

(** ** Interrupts *)

(** Words at consecutive addresses. *)
Definition stored (ws : list Z) (m : mem) (a : Z) : Prop := forall i w, ws !! i = Some w -> rd m (a + 8 * Z.of_nat i) = w.

(** The words of [isr_frame_t], in the order of the structure. *)
Definition isr_words (f : isr_frame) : list Z :=
  [r15 f; r14 f; r13 f; r12 f; r11 f; r10 f; r9 f; r8 f; rbp f; rdi f; rsi f; rdx f; rcx f; rbx f; rax f;
   vector f; error_code f; rip f; cs f; rflags f; rsp f; ss f].

(** What an interrupt finds. *)
Definition interrupted (v err : Z) (c : cpu) : isr_frame :=
  mkIsr (regs c R15) (regs c R14) (regs c R13) (regs c R12) (regs c R11) (regs c R10) (regs c R9) (regs c R8) (regs c RBP) (regs c RDI)
    (regs c RSI) (regs c RDX) (regs c RCX) (regs c RBX) (regs c RAX) v (if bool_decide (v ∈ isr_err) then err else 0)
    (c_rip c) (c_cs c) (c_rflags c) (regs c RSP) (c_ss c).

Definition isr_regs : list reg := [R15; R14; R13; R12; R11; R10; R9; R8; RBP; RDI; RSI; RDX; RCX; RBX; RAX].

Lemma pushed_stored vs sp m : stored (reverse vs) (push_words vs sp m).2 (sp - 8 * Z.of_nat (length vs)).
Proof.
  intros i w Hi. pose proof (lookup_lt_Some _ _ _ Hi) as Hl. rewrite length_reverse in Hl.
  replace (sp - 8 * Z.of_nat (length vs) + 8 * Z.of_nat i) with (sp - 8 * (Z.of_nat (length vs - S i) + 1)) by lia.
  apply rd_push_words. by rewrite reverse_lookup in Hi.
Qed.

(** Pushes seen on the stack only. *)
Record stacked (vs : list Z) (c c' : cpu) : Prop := {
  st_rsp : regs c' RSP = regs c RSP - 8 * Z.of_nat (length vs);
  st_regs : forall r, r <> RSP -> regs c' r = regs c r;
  st_mem : c_mem c' = (push_words vs (regs c RSP) (c_mem c)).2
}.

Lemma pushes_stacked vs c : 8 * Z.of_nat (length vs) <= regs c RSP < 2 ^ 64 -> stacked vs c (pushes vs c).
Proof. intros H. destruct (pushes_pushed vs c H). by split. Qed.

Lemma push_words_app vs ws : forall sp m, push_words (vs ++ ws) sp m = push_words ws (sp - 8 * Z.of_nat (length vs)) (push_words vs sp m).2.
Proof.
  induction vs as [|v vs IH]; intros sp m; cbn [app push_words length snd]; [f_equal; lia|]. rewrite IH. f_equal. lia.
Qed.

Lemma stacked_trans vs ws c c1 c2 : stacked vs c c1 -> stacked ws c1 c2 -> stacked (vs ++ ws) c c2.
Proof.
  intros [P1 P2 P3] [Q1 Q2 Q3]. split; [rewrite length_app; lia | intros r Hr; by rewrite Q2, P2 | by rewrite push_words_app, <- P3, <- P1].
Qed.

(** The stack an interrupt is taken on. *)
Definition int_stack (c : cpu) : Z := Z.land (if Z.land (c_cs c) 3 =? 3 then tss_rsp0 c else regs c RSP) (u64 (Z.lnot 15)).

Definition int_pushes (v err : Z) (c : cpu) : list Z :=
  [c_ss c; regs c RSP; c_rflags c; c_cs c; c_rip c] ++ (if bool_decide (v ∈ isr_err) then [err] else []).

Lemma interrupt_runs v err kcs c : 48 <= int_stack c < 2 ^ 64 -> let c1 := interrupt v err kcs c in
  stacked (int_pushes v err c) (set_reg RSP (int_stack c) c) c1 /\ c_cs c1 = kcs /\ Z.testbit (c_rflags c1) 9 = false.
Proof.
  intros Hs. set (c0 := set_reg RSP (int_stack c) c). assert (R0 : regs c0 RSP = int_stack c) by (unfold c0; by rewrite regs_set, decide_True).
  assert (P : stacked (int_pushes v err c) c0 (pushes (int_pushes v err c) c0)).
  { apply pushes_stacked. rewrite R0. unfold int_pushes. case_bool_decide; cbn; lia. }
  assert (E : interrupt v err kcs c = set_sel kcs (if Z.land (c_cs c) 3 =? 3 then 0 else c_ss c) (set_rflags (Z.land (c_rflags c) (u64 (Z.lnot 0x200)))
    (pushes (int_pushes v err c) c0))) by (unfold interrupt, int_pushes; by case_bool_decide).
  cbv zeta. rewrite E. set (c1 := pushes _ c0) in *. clearbody c1. destruct P as [P1 P2 P3].
  split_and!; [split; destruct c1; done | by destruct c1 |]. transitivity (Z.testbit (Z.land (c_rflags c) (u64 (Z.lnot 0x200))) 9); [by destruct c1 | apply mask_if].
Qed.

Section Interrupts.
Context (after_isr isr_common_addr isr_handler_addr : Z).
Abbreviation entry_path := (fun v => isr_stub isr_common_addr v ++ isr_common_entry after_isr isr_handler_addr).

Definition stub_pushes (v : Z) : list Z := (if bool_decide (v ∈ isr_err) then [] else [0]) ++ [v].

Lemma stub_runs v c : 16 <= regs c RSP < 2 ^ 64 -> let c1 := run (isr_stub isr_common_addr v) c in
  stacked (stub_pushes v) c c1 /\ c_cs c1 = c_cs c /\ c_rflags c1 = c_rflags c.
Proof using.
  intros H. cbv zeta. assert (E : run (isr_stub isr_common_addr v) c = set_rip isr_common_addr (pushes (stub_pushes v) c)) by (unfold isr_stub, stub_pushes; by case_bool_decide).
  rewrite E. destruct (pushes_pushed (stub_pushes v) c) as [P1 P2 P3 P4]; [unfold stub_pushes; case_bool_decide; cbn; lia|].
  set (c1 := pushes _ c) in *. clearbody c1.
  destruct (control_cs_flags _ _ P4) as [<- <-]. split; [split|]; by destruct c1.
Qed.

Lemma common_split : isr_common_entry after_isr isr_handler_addr = (PUSH <$> reverse isr_regs) ++ [MOV RDI RSP; CLD; CALL after_isr isr_handler_addr].
Proof using. reflexivity. Qed.
Lemma return_split : isr_common_return = (POP <$> isr_regs) ++ [ADDI RSP 16; IRETQ].
Proof using. reflexivity. Qed.

Lemma common_runs c : 128 <= regs c RSP < 2 ^ 64 -> let c1 := run (isr_common_entry after_isr isr_handler_addr) c in
  regs c1 RDI = regs c RSP - 120 /\ regs c1 RSP = regs c RSP - 128 /\ c_rip c1 = isr_handler_addr /\ c_cs c1 = c_cs c /\
  (Z.testbit (c_rflags c) 9 = false -> Z.testbit (c_rflags c1) 9 = false) /\
  c_mem c1 = wr (push_words (regs c <$> reverse isr_regs) (regs c RSP) (c_mem c)).2 (regs c RSP - 128) after_isr.
Proof using.
  intros H. cbv zeta. rewrite common_split, run_app, run_push_regs by by_decide. destruct (pushes_pushed (regs c <$> reverse isr_regs) c) as [P1 _ P3 P4]; [cbn; lia|].
  set (c1 := pushes _ c) in *. clearbody c1. rewrite <- P3. change (length _) with 15%nat in P1.
  destruct (control_cs_flags _ _ P4) as [<- <-]. cbv zeta. replace (regs c RSP - 128) with (regs c1 RSP - 8) by lia. replace (regs c RSP - 120) with (regs c1 RSP) by lia.
  assert (B : 8 <= regs c1 RSP < 2 ^ 64) by lia. clear P1 P3 P4. rewrite !run_cons. cbn [step]. unfold push.
  destruct c1 as [g ip fl cs0 ss0 ds m ms t]. cbn [set_reg set_rflags set_cmem set_rip regs c_mem c_rflags c_cs c_rip run foldl] in *.
  unfold upd. repeat case_decide; try done. rewrite u64_id by lia. split_and!; try done.
  rewrite Z.land_spec. by intros ->.
Qed.

(** The way back. *)
Lemma isr_return_runs f c : 0 <= regs c RSP < 2 ^ 64 - 176 -> stored (isr_words f) (c_mem c) (regs c RSP) ->
  let c1 := run isr_common_return c in
  (forall i r w, isr_regs !! i = Some r -> isr_words f !! i = Some w -> regs c1 r = w) /\ regs c1 RSP = rsp f /\
  c_rip c1 = rip f /\ c_cs c1 = cs f /\ c_rflags c1 = rflags f /\ c_ss c1 = ss f.
Proof using.
  intros Hsp Hf. cbv zeta. rewrite return_split, run_app.
  destruct (run_pops isr_regs c) as [Q1 Q2 _ Q4 _]; [by_decide | by_decide | lia | change (length isr_regs) with 15%nat; lia |].
  change (length isr_regs) with 15%nat in Q1. set (c1 := run _ c) in *. clearbody c1.
  assert (W : forall i r w, isr_regs !! i = Some r -> isr_words f !! i = Some w -> regs c1 r = w) by (intros i r w Hi Hw; rewrite (Q2 i r Hi); by apply Hf).
  assert (G : forall k w, isr_words f !! (17 + k)%nat = Some w -> rd (c_mem c1) (regs c1 RSP + 16 + 8 * Z.of_nat k) = w).
  { intros k w Hw. rewrite <- (Hf _ _ Hw), Q4, Q1. f_equal. lia. }
  pose proof (G 0%nat _ eq_refl) as G0. pose proof (G 1%nat _ eq_refl) as G1. pose proof (G 2%nat _ eq_refl) as G2. pose proof (G 3%nat _ eq_refl) as G3.
  pose proof (G 4%nat _ eq_refl) as G4. assert (B : 0 <= regs c1 RSP < 2 ^ 64 - 56) by lia. clear Q1 Q2 Q4 G Hf.
  rewrite !run_cons. cbn [step]. destruct c1 as [g ip fl cs0 ss0 ds m ms t]. cbn [set_reg set_rflags set_sel set_rip regs c_mem c_rflags c_cs c_rip c_ss run foldl] in *.
  assert (U : upd RSP (u64 (g RSP + 16)) g RSP = g RSP + 16) by (unfold upd; rewrite decide_True by done; apply u64_id; lia). rewrite U.
  rewrite !u64_id by lia. split_and!; try done.
  - intros i r w Hi Hw. assert (r <> RSP) by (intros ->; apply list_elem_of_lookup_2 in Hi; revert Hi; by_decide).
    unfold upd. rewrite !decide_False by done. by eapply W.
Qed.

Record in_handler (v err kcs : Z) (c c1 : cpu) : Prop := {
  ih_arg : regs c1 RDI = int_stack c - 176;
  ih_rsp : regs c1 RSP = int_stack c - 184 /\ (regs c1 RSP + 8) mod 16 = 0;
  ih_rip : c_rip c1 = isr_handler_addr;
  ih_frame : stored (isr_words (interrupted v err c)) (c_mem c1) (int_stack c - 176);
  ih_ring0 : c_cs c1 = kcs /\ Z.testbit (c_rflags c1) 9 = false
}.

Lemma int_stack_aligned c : 0 <= (if Z.land (c_cs c) 3 =? 3 then tss_rsp0 c else regs c RSP) < 2 ^ 64 -> int_stack c mod 16 = 0.
Proof using.
  intros H. unfold int_stack. change 15 with (Z.ones 4). rewrite land_mask by lia. change (2 ^ 4) with 16. set (x := if Z.land (c_cs c) 3 =? 3 then tss_rsp0 c else regs c RSP) in *.
  replace (x - x mod 16) with (x / 16 * 16) by (pose proof (Z.div_mod x 16); lia). apply Z.mod_mul. lia.
Qed.

Lemma entry_stored v err c : let c0 := set_reg RSP (int_stack c) c in
  reverse ((int_pushes v err c ++ stub_pushes v) ++ (regs c0 <$> reverse isr_regs)) = isr_words (interrupted v err c).
Proof using. cbv zeta. unfold int_pushes, stub_pushes, isr_words, interrupted. destruct c. case_bool_decide; reflexivity. Qed.

Lemma isr_entry_runs v err kcs c : 0 <= (if Z.land (c_cs c) 3 =? 3 then tss_rsp0 c else regs c RSP) < 2 ^ 64 -> 184 <= int_stack c < 2 ^ 64 ->
  in_handler v err kcs c (run (entry_path v) (interrupt v err kcs c)).
Proof using.
  intros Hr Hs. pose proof (entry_stored v err c) as ES. cbv beta zeta in ES |- *. rewrite run_app.
  destruct (interrupt_runs v err kcs c) as (S1 & E1 & F1); [lia|]. set (c0 := set_reg _ _ c) in *.
  assert (R0 : regs c0 RSP = int_stack c) by (unfold c0; by rewrite regs_set, decide_True). clearbody c0.
  set (c1 := interrupt v err kcs c) in *. clearbody c1.
  assert (L : length (int_pushes v err c ++ stub_pushes v) = 7%nat) by (unfold int_pushes, stub_pushes; by case_bool_decide).
  destruct (stub_runs v c1) as (S2 & E2 & F2). { rewrite (st_rsp _ _ _ S1), R0. rewrite length_app in L. lia. }
  set (c2 := run _ c1) in *. clearbody c2. pose proof (stacked_trans _ _ _ _ _ S1 S2) as [S31 S32 S33]. rewrite L, R0 in S31. clear S1 S2.
  destruct (common_runs c2) as (C1 & C2 & C3 & C4 & C5 & C6); [lia|]. set (c3 := run _ c2) in *. clearbody c3.
  pose proof (int_stack_aligned c Hr) as Ha. split; [lia | split; [lia|] | done | | split; [congruence | apply C5; by rewrite F2]].
  { rewrite C2, S31. replace (int_stack c - 8 * Z.of_nat 7 - 128 + 8) with (int_stack c + (-11) * 16) by lia. by rewrite Z.mod_add by lia. }
  intros i w Hi. rewrite C6. pose proof (lookup_lt_Some _ _ _ Hi). rewrite rd_wr_ne by lia. rewrite S33, S31, R0.
  replace (regs c2 <$> reverse isr_regs) with (regs c0 <$> reverse isr_regs).
  - rewrite <- L, <- push_words_app. rewrite <- ES in Hi. pose proof (pushed_stored _ (int_stack c) (c_mem c0) _ _ Hi) as P.
    rewrite length_app, L in P. exact P.
  - apply list_fmap_ext. intros k r Hk. symmetry. apply S32. intros ->. apply list_elem_of_lookup_2 in Hk. revert Hk. by_decide.
Qed.

End Interrupts.

(** ** The first entry of a thread and of a program *)

(** The words [proc_spawn] leaves, lowest first: a switch to them reaches the trampoline,
    which calls the entry point with interrupts on. *)
Lemma thread_starts hang trampoline entry c : 48 <= regs c RSP < 2 ^ 64 -> 0 <= regs c RSI < 2 ^ 64 - 64 ->
  regs c RDI + 8 <= regs c RSI \/ regs c RSI + 56 <= regs c RDI -> regs c RSP <= regs c RSI \/ regs c RSI + 56 + 48 <= regs c RSP ->
  stored [0; 0; 0; 0; 0; entry; trampoline] (c_mem c) (regs c RSI) ->
  let c1 := run kthread_switch c in c_rip c1 = trampoline /\
  let c2 := run (thread_trampoline_code hang) c1 in
  c_rip c2 = entry /\ Z.testbit (c_rflags c2) 9 = true /\ regs c2 RSP = regs c RSI + 48 /\ top c2 = hang.
Proof.
  intros Hsp Hsi Hd Hs Hw. destruct (kthread_switch_runs c) as (_ & M2 & _ & M4 & M5 & _); [lia | lia |]. cbv zeta. set (c1 := run kthread_switch c) in *. clearbody c1.
  assert (K : forall i w, [0; 0; 0; 0; 0; entry; trampoline] !! i = Some w -> rd (switched_mem c) (regs c RSI + 8 * Z.of_nat i) = w).
  { intros i w Hi. pose proof (lookup_lt_Some _ _ _ Hi) as Hl. cbn in Hl. rewrite (switched_mem_keep c (regs c RSI) (regs c RSI + 56)) by lia. by apply Hw. }
  split; [rewrite M5; by apply (K 6%nat)|]. assert (B : regs c1 RBX = entry) by (rewrite (M2 5%nat RBX eq_refl); by apply (K 5%nat)).
  assert (T : forall v, Z.testbit (Z.lor v 0x200) 9 = true) by (intros v; rewrite Z.lor_spec; apply orb_true_r).
  unfold thread_trampoline_code. rewrite !run_cons. cbn [step]. unfold push, top. clear - M4 B Hsi T. destruct c1. cbn in *. unfold upd. repeat case_decide; try done.
  rewrite M4, u64_id by lia. split_and!; [done | apply T | lia | apply rd_wr_eq].
Qed.

(** [enter_ring3(entry, user_rsp)] *)
Lemma ring3_entered c : 40 <= regs c RSP < 2 ^ 64 -> let c1 := run enter_ring3 c in
  c_rip c1 = regs c RDI /\ regs c1 RSP = regs c RSI /\ c_cs c1 = 0x23 /\ c_ss c1 = 0x1B /\ c_ds c1 = 0x1B /\ c_rflags c1 = 0x202.
Proof.
  intros H. cbv zeta. set (c0 := set_ds 0x1B c). assert (E0 : regs c0 = regs c /\ c_ds c0 = 0x1B) by (by destruct c). destruct E0 as [E0 D0].
  assert (E : run enter_ring3 c = step IRETQ (pushes [0x1B; regs c0 RSI; 0x202; 0x23; regs c0 RDI] c0)) by (by destruct c).
  rewrite E. destruct (pushes_pushed [0x1B; regs c0 RSI; 0x202; 0x23; regs c0 RDI] c0) as [P1 P2 P3 P4]; [rewrite E0; cbn; lia|].
  rewrite E0 in *. set (c1 := pushes _ c0) in *. clearbody c1. change (length _) with 5%nat in P1.
  assert (W : stored (reverse [0x1B; regs c RSI; 0x202; 0x23; regs c RDI]) (c_mem c1) (regs c1 RSP)) by (rewrite P3, P1; apply pushed_stored).
  assert (G : forall k w, (reverse [0x1B; regs c RSI; 0x202; 0x23; regs c RDI]) !! k = Some w -> rd (c_mem c1) (u64 (regs c1 RSP + 8 * Z.of_nat k)) = w).
  { intros k w Hk. pose proof (lookup_lt_Some _ _ _ Hk) as Hl. cbn in Hl. rewrite u64_id by lia. by apply W. }
  assert (D1 : c_ds c1 = 0x1B) by (rewrite <- D0; change (c_ds c1) with (nth 4 (control c1) 0); by rewrite P4).
  cbn [step]. pose proof (G 0%nat _ eq_refl). pose proof (G 1%nat _ eq_refl). pose proof (G 2%nat _ eq_refl). pose proof (G 3%nat _ eq_refl). pose proof (G 4%nat _ eq_refl).
  clear G W P1 P2 P3 P4. destruct c1. cbn in *. unfold upd. by rewrite decide_True.
Qed.

(** [_start]: [main(argc, argv)] from the words on the initial stack, and the exit with its result. *)
Lemma start_calls_main after_main main_addr c : 8 <= regs c RSP < 2 ^ 64 - 8 -> let c1 := run (start_code after_main main_addr) c in
  c_rip c1 = main_addr /\ regs c1 RDI = rd (c_mem c) (regs c RSP) /\ regs c1 RSI = regs c RSP + 8 /\ top c1 = after_main.
Proof.
  intros H. cbv zeta. unfold start_code. rewrite !run_cons. cbn [step]. unfold push, top. destruct c. cbn in *. unfold upd. repeat case_decide; try done.
  rewrite !u64_id by lia. split_and!; try done. apply rd_wr_eq.
Qed.

(** ** Concrete runs *)

(** A program with its kernel stack at 0x9000. *)
Definition user0 : cpu := cpu0 0x50000800 2 1 (wr ∅ 0x7000 0x9000).



Lemma fork_child_returns_zero_witness : exists s' child p,
  fork_child one_slot (fun _ => Some 0x20000) 0x100060 frame0 0 boot1 = Some (2, s') /\ k_procs s' !! child = Some p.
Proof.
  pose proof (fork_child_returns_zero 0x100040 0x100000 one_slot (fun _ => Some 0x20000) 0x100060 frame0 0 boot1 [] [64] boot1_ok) as H.
  apply (proj1 (runs_result _ _ _)) in H. destruct H as (r & s' & E & H).
  assert (Er : r = 2).
  { assert (V : (fun x => x.1) <$> fork_child one_slot (fun _ => Some 0x20000) 0x100060 frame0 0 boot1 = Some 2) by (vm_compute; reflexivity).
    rewrite E in V. by injection V. }
  destruct H as [H|(q' & l' & child & p & _ & _ & Hp & _)]; [exfalso; lia|]. subst r. exists s', child, p. split; [exact E | exact Hp].
Defined.
End Asm.
