(* ===== verification/KernelMain.v ===== *)
(** * The whole boot (src/kernel/core/early.c)

    [kernel_main] from its first statement to the switch to the shell, over the
    state of the whole machine.  The theorem composes the parts: with the image
    the build writes on the disk, the boot ends in the shell, its program
    loaded from that image. *)
From S2P Require Import Prelude Bytes Alloc Heap Pmm Vmm Paging MemInit Elf Loading Pipe Proc Fd Signal Sched PipeEnds Vga Input Block Ata Buffer.
From S2P Require Import NoxFS NoxDisk NoxFiles NoxDemo NoxDir NoxMount MkDisk MkDiskSpec MkDiskMount MkDiskDemo Vfs Boot DiskBoot Traps.
From Stdlib Require String.
Import String.StringSyntax.

Module KernelMain.
Import NoxFS NoxDisk NoxFiles NoxDir NoxMount MkDisk MkDiskSpec MkDiskMount Vfs Proc Fd Sched PipeEnds Paging Elf Loading DiskBoot.

(** The machine: the kernel's state, the memory of its heap, the tables the
    processor reads, its control and model-specific registers, the interrupt
    controller, the port writes that set up the serial line and the timer, the
    hook of the timer and the interrupt flag. *)
Record machine (B : Type) := mkMachine {
  x_sys : sys B; x_heap : mem; x_gdt : list Z * Traps.tss64; x_idt : list Traps.gate; x_handlers : list (option Traps.handler);
  x_pic : Traps.pic; x_fpu : Traps.fpu; x_ports : list (Z * Z); x_msrs : Traps.msrs; g_tick_cb : bool; x_if : bool
}.
Arguments mkMachine {B} _ _ _ _ _ _ _ _ _ _ _.
Arguments x_sys {B} _.
Arguments x_heap {B} _.
Arguments x_gdt {B} _.
Arguments x_idt {B} _.
Arguments x_handlers {B} _.
Arguments x_pic {B} _.
Arguments x_fpu {B} _.
Arguments x_ports {B} _.
Arguments x_msrs {B} _.
Arguments g_tick_cb {B} _.
Arguments x_if {B} _.

Section Main.
Context {D : Type} {PT : Ata.Ports D}.
Abbreviation io := (Block.blk D * D)%type.
Abbreviation cache := (Buffer.st io).
Context {limit : Z} `{BC : BufferCache cache limit}.
Context (pick : gmap Z (list Z) -> Z -> option (Z * list Z)) (raw : list Z).
Context (new_proc : gmap Z process -> option (Z * process)) (new_stack : gmap Z process -> option Z).
Context (g_idle thread_trampoline user_thread_main heartbeat : Z).
(** Addresses of the task state segment, of its stack and of the entry points. *)
Context (tss_addr tss_stack syscall_entry : Z) (stubs : list Z).
Abbreviation MX := (M (machine cache)).

Definition on_sys {A} (m : M (sys cache) A) : MX A :=
  zoom x_sys (fun s '(mkMachine _ h g i t p f o r c e) => mkMachine s h g i t p f o r c e) m.
Definition say (l : list Z) : MX unit := on_sys (Boot.say l).
Definition OK : list Z := cs "OK" ++ LF.
Definition on_screen (m : M Vga.vga unit) : MX unit := on_sys (Boot.on_vga m).

(** The screen, the serial line and the tables of the processor. *)
Definition gdt_step (x : machine cache) : machine cache :=
  let '(mkMachine s h _ i t p f o r c e) := x in mkMachine s h (Traps.gdt_init tss_addr tss_stack) i t p f o r c e.
Definition idt_step (x : machine cache) : machine cache :=
  let '(mkMachine s h g _ _ p f o r c e) := x in
  let '(i, t) := Traps.isr_init stubs in
  mkMachine s h g i (Traps.isr_register_handler 14 (Some Traps.PageFault) t).2 p f o r c e.
Definition pic_step (x : machine cache) : machine cache :=
  let '(mkMachine s h g i t p f o r c e) := x in mkMachine s h g i t (Traps.pic_remap p) f o r c e.
Definition fpu_step (x : machine cache) : machine cache :=
  let '(mkMachine s h g i t p f o r c e) := x in mkMachine s h g i t p (Traps.fpu_init f).2 o r c e.
Definition serial_step (x : machine cache) : machine cache :=
  let '(mkMachine s h g i t p f o r c e) := x in mkMachine s h g i t p f (o ++ Boot.serial_init) r c e.

Definition hardware_phase : MX unit :=
  do* on_screen Vga.vga_init in
  do* on_screen Vga.vga_clear in
  do* modify serial_step in
  do* say (LF ++ cs "[noxis64] kernel_main reached" ++ LF) in
  do* on_screen (Vga.vga_set_color 15 0) in
  do* on_screen (Vga.vga_write_buf (cs "Noxis OS  --  x86_64" ++ LF)) in
  do* say (cs "[noxis64] GDT ... ") in
  do* modify gdt_step in
  do* say OK in
  do* say (cs "[noxis64] IDT ... ") in
  do* modify idt_step in
  do* say OK in
  do* say (cs "[noxis64] PIC ... ") in
  do* modify pic_step in
  do* say OK in
  do* say (cs "[noxis64] FPU ... ") in
  do* modify fpu_step in
  say OK.

(** Memory: the allocators and their tests.  [vga_use_physmap] only changes the
    address under which the text buffer is reached, and [slab_init] is empty. *)
Definition on_heap {A} (f : mem -> option (A * mem)) : MX A := fun x =>
  let '(mkMachine s h g i t p fp o r c e) := x in
  match f h with Some (a, h) => Some (a, mkMachine s h g i t p fp o r c e) | None => None end.

Definition heap_test : MX Z :=
  let* a := on_heap (Heap.kmalloc 64) in
  do* on_heap (fun h => Some (tt, Heap.kfree a h)) in
  ret a.

Definition verdict (ok : bool) : list Z := (if ok then cs "PASS" else cs "FAIL") ++ LF.

Definition alloc_phase : MX unit :=
  let* _ := on_sys (on_vm MemInit.init_memory) in
  do* on_heap (fun h => Some (tt, (Heap.heap_init h).2)) in
  let* ok := on_sys (on_vm MemInit.paging_test) in
  do* say (cs "[noxis64] paging test " ++ verdict ok) in
  let* a := heap_test in
  say (cs "[noxis64] heap test " ++ verdict (ctrue a)).

(** The timer, the keyboard, the terminal and the system call registers.
    [kbd_init] also empties the controller's output buffer, which changes
    nothing in the kernel. *)
Definition pit_step (x : machine cache) : machine cache :=
  let '(mkMachine (mkSys k v nx u pn dn tk rn tm ser) h g i t p f o r c e) := x in
  let '(_, tmr, t, p) := Traps.pit_init 1000 (Traps.mkTimer tk o) t p in
  mkMachine (mkSys k v nx u pn dn (Traps.g_ticks tmr) rn tm ser) h g i t p f (Traps.pit_ports tmr) r c e.
Definition on_term (f : Input.term -> Input.term) (x : machine cache) : machine cache :=
  let '(mkMachine s h g i t p fp o r c e) := x in mkMachine (with_term (f (y_term s)) s) h g i t p fp o r c e.
Definition keymap_step : machine cache -> machine cache :=
  on_term (fun '(Input.mkTerm k m l v) => Input.mkTerm k (Input.keymap_init m) l v).
Definition kbd_step (x : machine cache) : machine cache :=
  let '(mkMachine s h g i t p f o r c e) := on_term (fun '(Input.mkTerm k m l v) => Input.mkTerm (Input.kbd_reset k) m l v) x in
  let '(st, t) := Traps.isr_register_handler 0x21 (Some Traps.KbdIsr) t in
  mkMachine s h g i t (if is_ok st then Traps.pic_unmask 1 p else p) f o r c e.
Definition tty_step : machine cache -> machine cache :=
  on_term (fun '(Input.mkTerm k m _ v) => Input.mkTerm k m Input.tty_init v).
Definition syscall_step (x : machine cache) : machine cache :=
  let '(mkMachine s h g i t p f o r c e) := x in mkMachine s h g i t p f o (Traps.syscall_init syscall_entry r) c e.

Definition device_phase : MX unit :=
  do* say (cs "[noxis64] PIT ... ") in
  do* modify pit_step in
  do* say OK in
  do* say (cs "[noxis64] KEYMAP ... ") in
  do* modify keymap_step in
  do* say OK in
  do* say (cs "[noxis64] KBD ... ") in
  do* modify kbd_step in
  do* say OK in
  do* modify tty_step in
  do* say (cs "[noxis64] SYSCALL ... ") in
  do* modify syscall_step in
  say OK.

Definition hook_step (x : machine cache) : machine cache :=
  let '(mkMachine s h g i t p f o r _ e) := x in mkMachine s h g i t p f o r true e.
Definition cpu_sti (x : machine cache) : machine cache :=
  let '(mkMachine s h g i t p f o r c _) := x in mkMachine s h g i t p f o r c true.

(** [false] when the machine halts because there is no shell; else the idle
    loop of the boot context follows when it is scheduled again. *)
Definition kernel_main : MX bool :=
  do* hardware_phase in
  do* alloc_phase in
  do* on_sys (disk_phase pick raw) in
  do* device_phase in
  let* ok := on_sys (Boot.prepare_shell pick (direct_read raw) new_proc new_stack g_idle thread_trampoline user_thread_main heartbeat) in
  if negb ok then ret false
  else
    do* modify hook_step in
    do* on_sys Boot.announce_shell in
    do* modify cpu_sti in
    do* on_sys Boot.enter_shell in
    ret true.
End Main.

(** One round of the heartbeat thread at uptime [t]: what it prints, and its
    two variables. *)
Definition heartbeat_round (t : Z) (v : Z * Z) : list Z * (Z * Z) :=
  let '(last, n) := v in
  if 1000 <=? u32 (t - last) then
    let n := u32 (n + 1) in
    (cs "[noxis64] heartbeat #" ++ Boot.serial_write_hex64 n ++ cs " (bg kernel thread, preempting ring 3)" ++ LF, (t, n))
  else ([], v).

(** ** Memory after its tests *)

#[local] Opaque MemInit.frames_taken MemInit.tested MemInit.boot_tables.

(** Of the 128 MB, the frames above the heap are free at boot. *)
Lemma high_frames_left p R : Pmm.refines 32768 p R -> (forall f, 12288 <= f -> R !! f = None) -> 20480 <= Pmm.g_free p.
Proof.
  intros Hr HR. rewrite (Pmm.ok_free _ (Pmm.ref_ok _ _ _ Hr)). unfold Pmm.count_free. rewrite (Pmm.ref_n _ _ _ Hr).
  assert (H : forall k, Z.of_nat k <= 32768 -> Z.max 0 (Z.of_nat k - 12288) <= countb (fun f => negb (Pmm.is_used f p)) k).
  { induction k as [|k IH]; intros Hk; [done|]. cbn [countb]. specialize (IH ltac:(lia)).
    destruct (Z.le_gt_cases 12288 (Z.of_nat k)); [|destruct (negb _); lia]. rewrite (Pmm.ref_used _ _ _ Hr), HR by lia.
    replace (Pmm.reserved (Z.of_nat k)) with false; [rewrite bool_decide_eq_false_2 by (by intros [? ?]); cbn [orb negb]; lia|].
    symmetry. unfold Pmm.reserved. lia. }
  specialize (H (Z.to_nat 32768) ltac:(lia)). rewrite Z2Nat.id in H by lia. lia.
Qed.

Lemma boot_left v : Vmm.v_pmm v = MemInit.frames_taken 9 -> 20480 <= left v.
Proof.
  intros E. unfold left. rewrite E. clear E v. apply (high_frames_left _ (MemInit.boot_refs 9) (MemInit.frames_taken_refines 9 ltac:(lia))).
  intros f Hf. by rewrite MemInit.boot_refs_spec, decide_False by lia.
Qed.

(** An empty address space [u], with frames for a program. *)
Record fresh_space (u : Z) (v : Vmm.vmm) : Prop := {
  sp_root : u <> 0;
  sp_tables : exists R, vm_ok (eq u) (Pmm.frames_of MemInit.RAM) R v;
  sp_left : 20480 <= left v;
  sp_empty : forall va, user_va va -> leaf (Vmm.v_mem v) u va = None
}.

Lemma new_space_runs m0 : 0 <= Vmm.entry m0 0x1000 511 < 2 ^ 64 ->
  runs Vmm.vmm_create_address_space (Vmm.mkVmm (MemInit.tested (MemInit.boot_tables m0)) (MemInit.frames_taken 8) 0x200000 true) fresh_space.
Proof.
  intros Hk. eapply runs_mono; [exact (MemInit.first_space_runs m0 Hk)|]. intros u v (Hu & _ & Hup & Ep & Hl). pose proof (boot_left v Ep). clear Ep.
  split; [done | eexists; apply (MemInit.mu_tables _ _ _ Hup) | done | done].
Qed.

(** ** The phases *)

Section Phases.
Context {D : Type} {PT : Ata.Ports D}.
Abbreviation cache := (Buffer.st (Block.blk D * D)).
Context (tss_addr tss_stack syscall_entry : Z) (stubs : list Z).

(** Steps of a symbolic run: a message, an update of the machine. *)
Lemma say_runs l (x : machine cache) (Q : unit -> machine cache -> Prop) :
  Q tt (let '(mkMachine s h g i t p f o r c e) := x in mkMachine (with_serial (y_serial s ++ l) s) h g i t p f o r c e) -> runs (say l) x Q.
Proof. by destruct x. Qed.

Lemma modify_runs (F : machine cache -> machine cache) x (Q : unit -> machine cache -> Prop) : Q tt (F x) -> runs (modify F) x Q.
Proof. done. Qed.

Ltac told := apply runs_bind, say_runs; cbn [with_serial y_serial].
Ltac updated := apply runs_bind, modify_runs.

Lemma screen_runs (m : M Vga.vga unit) (x : machine cache) (Q : unit -> machine cache -> Prop) :
  runs m (Input.t_vga (y_term (x_sys x))) (fun u v => Q u (on_term (Input.set_vga v) x)) -> runs (on_screen m) x Q.
Proof. intros H. unfold on_screen, on_sys. apply runs_zoom. unfold Boot.on_vga. apply runs_zoom. eapply runs_mono; [exact H|]. intros u v HQ. by destruct x as [[]]. Qed.

Ltac shown := apply runs_bind, screen_runs; cbn [x_sys y_term].

Definition hardware_log : list Z :=
  LF ++ cs "[noxis64] kernel_main reached" ++ LF ++ cs "[noxis64] GDT ... " ++ OK ++ cs "[noxis64] IDT ... " ++ OK ++
  cs "[noxis64] PIC ... " ++ OK ++ cs "[noxis64] FPU ... " ++ OK.

Lemma hardware_phase_runs k v nx u pn dn tk rn tm ser h g i t p f o r c e (Q : unit -> machine cache -> Prop) :
  (forall tm' o', Vga.vga_wf (Input.t_vga tm') ->
     Q tt (mkMachine (mkSys k v nx u pn dn tk rn tm' (ser ++ hardware_log)) h (Traps.gdt_init tss_addr tss_stack) (Traps.isr_init stubs).1
       (Traps.isr_register_handler 14 (Some Traps.PageFault) (Traps.isr_init stubs).2).2 (Traps.pic_remap p) (Traps.fpu_init f).2 o' r c e)) ->
  runs (hardware_phase tss_addr tss_stack stubs) (mkMachine (mkSys k v nx u pn dn tk rn tm ser) h g i t p f o r c e) Q.
Proof.
  intros HQ. unfold hardware_phase. shown. unfold Vga.vga_init, modify at 1, runs at 1. cbn [on_term x_sys y_term with_term].
  shown. eapply runs_mono; [apply (Vga.run_op_runs Vga.OClear)|].
  { split; cbn; unfold Vga.VGA_HEIGHT, Vga.VGA_WIDTH; lia. }
  intros [] v1 Hv1. cbn [on_term y_term with_term]. updated. cbn [serial_step]. told.
  shown. eapply runs_mono; [by apply (Vga.run_op_runs (Vga.OColor 15 0))|]. intros [] v2 Hv2. cbn [on_term y_term with_term].
  shown. eapply runs_mono; [by apply (Vga.run_op_runs (Vga.OWrite _))|]. intros [] v3 Hv3. cbn [on_term y_term with_term].
  told. updated. cbn [gdt_step]. told. told. updated. unfold idt_step. destruct (Traps.isr_init stubs) as [idt tb] eqn:Ei. told. told. updated. cbn [pic_step]. told. told. updated. cbn [fpu_step].
  apply say_runs. cbn [with_serial y_serial]. rewrite <- !app_assoc. by apply HQ.
Qed.

(** Memory: both tests pass, and the heap is empty again. *)
Definition alloc_log : list Z := cs "[noxis64] paging test " ++ verdict true ++ cs "[noxis64] heap test " ++ verdict true.

Lemma heap_test_runs s h g i t p f o r c e (Q : Z -> machine cache -> Prop) :
  (forall a h', a <> 0 -> Heap.heap_rep h' ∅ -> Q a (mkMachine s h' g i t p f o r c e)) ->
  runs heap_test (mkMachine s (Heap.heap_init h).2 g i t p f o r c e) Q.
Proof.
  intros HQ. pose proof (Heap.kmalloc_spec _ _ 64 (Heap.init_wf h) ltac:(lia)) as Hk.
  change (Heap.first_fit _ _ _) with (Some (Heap.HEAP_BASE + Heap.SIZEOF_BLOCK, [Heap.mkCell 64 false; Heap.mkCell (Heap.HEAP_SIZE - Heap.SIZEOF_BLOCK - 64 - Heap.SIZEOF_BLOCK) true])) in Hk.
  cbv iota beta in Hk. destruct Hk as (m' & Ek & _).
  destruct (Heap.rep_alloc _ ∅ 64 (Heap.init_rep h) ltac:(unfold MAX_REQUEST; lia)) as [E|(a & k & m1 & E & _ & _ & Hr & _)]; rewrite Ek in E; [done|].
  injection E as E1 E2. subst a m1. set (a := Heap.HEAP_BASE + Heap.SIZEOF_BLOCK) in *.
  destruct (Heap.rep_free _ _ a k Hr ltac:(apply lookup_insert_eq)) as [Hr' _]. rewrite delete_insert_eq, delete_empty in Hr'.
  unfold heap_test. apply runs_bind. unfold runs at 1, on_heap at 1. rewrite Ek. apply runs_bind. unfold runs at 1, on_heap. apply runs_ret. by apply HQ.
Qed.

Lemma alloc_phase_runs k m0 nx u pn dn tk rn tm ser h g i t p f o r c e (Q : unit -> machine cache -> Prop) :
  0 <= Vmm.entry m0 0x1000 511 < 2 ^ 64 ->
  (forall v h', runs Vmm.vmm_create_address_space v fresh_space -> Heap.heap_rep h' ∅ ->
     Q tt (mkMachine (mkSys k v nx u pn dn tk rn tm (ser ++ alloc_log)) h' g i t p f o r c e)) ->
  runs alloc_phase (mkMachine (mkSys k (MemInit.before m0) nx u pn dn tk rn tm ser) h g i t p f o r c e) Q.
Proof.
  intros Hk HQ. unfold alloc_phase. apply runs_bind, runs_zoom, runs_zoom. cbn [x_sys y_vm]. eapply runs_mono; [apply MemInit.tested_runs|].
  intros st v1 Ht. cbn [with_vm]. apply runs_bind. unfold runs at 1, on_heap.
  apply runs_bind, runs_zoom, runs_zoom. cbn [x_sys y_vm]. eapply runs_mono; [exact Ht|]. intros ok v2 [-> ->].
  pose proof (new_space_runs m0 Hk) as Hsp. generalize dependent (Vmm.mkVmm (MemInit.tested (MemInit.boot_tables m0)) (MemInit.frames_taken 8) 0x200000 true).
  intros v2 _ Hsp. cbn [with_vm]. told.
  apply runs_bind, heap_test_runs. intros a h' Ha Hr. apply say_runs. cbn [with_serial y_serial]. rewrite (proj2 (ctrue_spec a) Ha), <- !app_assoc. by apply HQ.
Qed.

(** The devices: the three handlers are registered. *)
Definition device_log : list Z :=
  cs "[noxis64] PIT ... " ++ OK ++ cs "[noxis64] KEYMAP ... " ++ OK ++ cs "[noxis64] KBD ... " ++ OK ++ cs "[noxis64] SYSCALL ... " ++ OK.

Lemma device_phase_runs k v nx u pn dn tk rn tm ser h g i p f o r c e (Q : unit -> machine cache -> Prop) :
  (forall tm' p' o', Input.t_vga tm' = Input.t_vga tm ->
     Q tt (mkMachine (mkSys k v nx u pn dn 0 rn tm' (ser ++ device_log)) h g i (Traps.boot_handlers stubs) p' f o' (Traps.syscall_init syscall_entry r) c e)) ->
  runs (device_phase syscall_entry) (mkMachine (mkSys k v nx u pn dn tk rn tm ser) h g i
    (Traps.isr_register_handler 14 (Some Traps.PageFault) (Traps.isr_init stubs).2).2 p f o r c e) Q.
Proof.
  intros HQ. unfold device_phase. told. updated. cbn [pit_step]. unfold Traps.pit_init. change ((1000 =? 0) || _) with false. cbv iota zeta.
  cbn [Traps.isr_register_handler Traps.pit_ports Traps.g_ticks]. told. told. updated. destruct tm as [kb km tt vg]. cbn [keymap_step on_term y_term with_term].
  told. told. updated. cbn [kbd_step on_term y_term with_term Traps.isr_register_handler is_ok]. told. updated. cbn [tty_step on_term y_term with_term].
  told. updated. cbn [syscall_step]. apply say_runs. cbn [with_serial y_serial]. rewrite <- !app_assoc. by apply HQ.
Qed.
End Phases.

(** ** The shell *)

(** The image is in the address space [u], with the two words of its stack. *)
Record program_at (img : list Z) (phs : list Vmm.elf64_phdr) (u : Z) (v : Vmm.vmm) : Prop := {
  pa_bytes : forall ph b, ph ∈ loads phs -> 0 <= b < Vmm.p_memsz ph -> byte_at (Vmm.v_mem v) u (Vmm.p_vaddr ph + b) = Some (seg_byte img ph b);
  pa_stack : forall va, Vmm.USTACK_BASE + 4096 - 16 <= va < Vmm.USTACK_BASE + 4096 -> byte_at (Vmm.v_mem v) u va = Some 0;
  pa_tables : exists R, vm_ok (eq u) (Pmm.frames_of MemInit.RAM) R v
}.

Section Shell.
Context {D : Type} {PT : Ata.Ports D}.
Abbreviation cache := (Buffer.st (Block.blk D * D)).
Context {limit : Z} `{BC : BufferCache cache limit}.
Context (pick : gmap Z (list Z) -> Z -> option (Z * list Z)) (raw : list Z).
Context (new_proc : gmap Z process -> option (Z * process)) (new_stack : gmap Z process -> option Z).
Context {HP : ProcHeap new_proc} {HS : Boot.StackHeap new_stack}.
Context (g_idle thread_trampoline user_thread_main heartbeat : Z).

(** The shell is the running process, in its address space, and resumes in
    [user_thread_main]; the scheduler's and the pipes' invariants hold. *)
Definition shell_running (n u entry brk root up : Z) (s' : kern) : Prop := exists hb p,
  sys_ok s' [hb; g_idle] [hb; up] /\ fair s' [hb; g_idle] /\ g_current s' = up /\ k_procs s' !! up = Some p /\
  pid p = n /\ pml4 p = u /\ uentry p = entry /\ ursp p = Vmm.USTACK_BASE + 0x1000 - 16 /\ p_brk p = brk /\ cwd_ino p = root /\
  k_cr3 s' = u /\ g_cur_kstack s' = kstack_top p /\ Boot.resumes thread_trampoline (k_rsp s') user_thread_main (k_stack s').

Definition shell_log (u entry : Z) : list Z :=
  cs "[noxis64] new address space ... " ++ Boot.serial_write_hex64 u ++ [10] ++ cs "[noxis64] exec /nsh.elf from disk ... " ++
  cs "entry=" ++ Boot.serial_write_hex64 entry ++ [10] ++ cs "[noxis64] spawning user process + yielding" ++ [10].

Lemma say_sys_runs l (s : sys cache) (Q : unit -> sys cache -> Prop) : Q tt (with_serial (y_serial s ++ l) s) -> runs (Boot.say l) s Q.
Proof. done. Qed.

(** The two processes, ready for the switch. *)
Lemma spawn_first_ready k p0 u entry brk root (Q : Z -> kern -> Prop) : Boot.early g_idle k p0 -> u <> 0 ->
  (forall m, (size m <= 2)%nat -> is_Some (new_proc m) /\ is_Some (new_stack m)) ->
  (forall up k', (forall kp, runs (scheduler_yield kp) k' (fun _ => shell_running (g_next_pid k) u entry brk root up)) -> Q up k') ->
  runs (Boot.spawn_first new_proc new_stack g_idle thread_trampoline user_thread_main heartbeat u entry brk root) k Q.
Proof using HP HS.
  intros Hea Hu Hroom HQ. pose proof (fun kp => Boot.first_switch_runs new_proc new_stack g_idle thread_trampoline user_thread_main heartbeat k p0 u entry brk root kp Hea Hu Hroom) as H.
  unfold runs at 1. destruct (Boot.spawn_first _ _ _ _ _ _ _ _ _ _ k) as [[up k']|] eqn:E.
  - apply HQ. intros kp. specialize (H kp). unfold runs, bind in H. rewrite E in H. unfold runs. by destruct (scheduler_yield kp k') as [[[] k2]|].
  - specialize (H 0). unfold runs, bind in H. by rewrite E in H.
Qed.

Lemma prepare_shell_runs k p0 v0 nx pn dn tk rn tm ser Dk fs h0 j x img entry phs (Q : bool -> sys cache -> Prop) :
  runs Vmm.vmm_create_address_space v0 fresh_space -> Boot.early g_idle k p0 ->
  (forall m, (size m <= 2)%nat -> is_Some (new_proc m) /\ is_Some (new_stack m)) ->
  mounted Dk fs h0 nx -> names_ok fs -> fs !! j = Some x -> x.1.2 = cs "nsh.elf" -> x.2 = img ->
  program img entry phs -> budget (loads phs) <= 20000 ->
  (forall up u v' k', u <> 0 -> program_at img phs u v' ->
     (forall kp, runs (scheduler_yield kp) k' (fun _ => shell_running (g_next_pid k) u entry (brk_of (loads phs)) (noxfs_root_ino nx) up)) ->
     Q true (mkSys k' v' nx true pn dn tk rn tm (ser ++ shell_log u entry))) ->
  runs (Boot.prepare_shell pick (direct_read raw) new_proc new_stack g_idle thread_trampoline user_thread_main heartbeat)
    (mkSys k v0 nx true pn dn tk rn tm ser) Q.
Proof.
  intros Hsp Hea Hroom Hm Hn Hj Hname Hx Hp Hbud HQ. unfold Boot.prepare_shell. apply runs_bind, say_sys_runs. cbn [with_serial y_serial].
  apply runs_bind, runs_zoom. cbn [y_vm]. eapply runs_mono; [exact Hsp|]. intros u v1 [Hu [R1 Hv1] Hl Hleaf]. cbn [with_vm].
  apply runs_bind, say_sys_runs. apply runs_bind, say_sys_runs. cbn [with_serial y_serial].
  apply runs_bind. unfold vfs_lookup. apply runs_bind. unfold runs at 1, view at 1. cbn [use_noxfs]. apply runs_bind, runs_zoom. cbn [y_nox].
  rewrite <- Hname. apply (lookup_name_runs (direct_read raw) pick Dk fs h0 nx j x _ Hm Hn Hj). apply runs_ret. cbn [with_nox].
  destruct (mt_files _ _ _ _ Hm j x Hj) as (_ & _ & _ & _ & buf & Hd & Hb & Hs). rewrite Hx in Hs.
  apply runs_bind. unfold runs at 1, vfile, view at 1. cbn [y_nox slot]. rewrite (proj2 (Z.eqb_neq _ 0) Hd).
  apply runs_bind. unfold runs at 1, view at 1. cbn [y_nox]. rewrite Hb. destruct (program_prefix img buf entry phs Hp Hs) as [Hp' Hsb].
  apply runs_bind, runs_zoom. cbn [y_vm].
  eapply runs_mono; [apply (load_program_runs (eq u) _ u eq_refl _ v1 buf entry phs Hp' Hv1 Hleaf); lia|].
  intros [en bk] v2 ([= -> ->] & Hl2 & R2 & O2 & Hv2 & Ho2 & Hst & Hpl). cbn [with_vm].
  apply runs_bind, say_sys_runs. cbn [with_serial y_serial].
  apply runs_bind, runs_zoom. cbn [y_vm]. eapply runs_mono; [apply (stack_runs (eq u) _ u eq_refl _ _ O2 R2 v2 (program_at img phs u) Hv2 Ho2 Hst Hl2)|].
  { intros f R3 v3 Hv3 Ho3 Hsame Hz. split; [| exact Hz | by exists R3]. intros ph b Hph Hb0. rewrite Forall_forall in Hpl.
    destruct (placed_keeps buf _ _ _ _ ph (Hpl ph Hph) (insert_subseteq _ _ f Hst) Hsame (Vmm.p_vaddr ph + b) ltac:(lia)) as [Hin Hc].
    rewrite (own_byte _ _ _ _ _ _ _ _ Ho3 Hin), Hc. rewrite Hsb by (done || lia). do 2 f_equal. lia. }
  intros ustk v3 Hmap. cbv beta in Hmap. cbn [with_vm]. apply runs_bind, runs_zoom. cbn [y_vm]. eapply runs_mono; [exact Hmap|]. intros res v4 Hprog. cbv beta in Hprog. cbn [with_vm].
  apply runs_bind, runs_zoom. unfold runs at 1, modify at 1. cbn [y_vm with_vm].
  apply runs_bind, say_sys_runs. cbn [with_serial y_serial]. apply runs_bind. unfold runs at 1, vfs_root_ino, view at 1. cbn [use_noxfs y_nox].
  apply runs_bind, runs_zoom. cbn [y_kern]. apply (spawn_first_ready k p0); [done | done | done |]. intros up k' Hy. apply runs_ret. cbn [with_kern].
  rewrite <- !app_assoc. by apply (HQ up u _ k').
Qed.
Lemma announce_runs (s : sys cache) (Q : unit -> sys cache -> Prop) : Vga.vga_wf (Input.t_vga (y_term s)) ->
  (forall tm, Q tt (with_term tm s)) -> runs Boot.announce_shell s Q.
Proof.
  destruct s as [k v nx u pn dn tk rn tm ser]. cbn [y_term with_term]. intros Hw HQ. unfold Boot.announce_shell, Boot.on_vga.
  apply runs_bind, runs_zoom. cbn [y_term]. eapply runs_mono; [by apply (Vga.run_op_runs (Vga.OColor 10 0))|]. intros [] v1 Hv1. cbn [with_term].
  apply runs_bind, runs_zoom. cbn [y_term]. eapply runs_mono; [by apply (Vga.run_op_runs (Vga.OWrite _))|]. intros [] v2 Hv2. cbn [with_term].
  apply runs_zoom. cbn [y_term]. eapply runs_mono; [by apply (Vga.run_op_runs (Vga.OColor 7 0))|]. intros [] v3 _. cbn [with_term]. apply HQ.
Qed.
End Shell.

(** The machine when [kernel_main] is entered: the statics of the kernel are
    zero, no device is registered, [d] is the idle drive, and memory [m0] holds
    the boot loader's entry for the kernel image. *)
Record at_reset {D} `{!Ata.Ports D} {limit} `{!Ata.AtaDisk D base (ATA_SLAVE =? 1) limit} (g_idle : Z) (p0 : process) (m0 : mem) (d : D)
    (s : sys (Buffer.st (Block.blk D * D))) : Prop := {
  rs_vm : y_vm s = MemInit.before m0;
  rs_image : 0 <= Vmm.entry m0 0x1000 511 < 2 ^ 64;
  rs_kern : Boot.early g_idle (y_kern s) p0;
  rs_io : Buffer.s_io (n_bc (y_nox s)) = (Block.blk_init, d);
  rs_drive : Ata.v_phase (Ata.vw d) = Ata.Idle;
  rs_names : names32 (n_files (y_nox s))
}.


(** ** A simulated machine

    The simulated drive with an image that holds the program of Elf.v as the
    shell. *)

#[local] Existing Instance DiskBoot.sim_slave.
#[local] Existing Instance DiskBoot.sim_unselected.
#[local] Existing Instance NoxDemo.demo_heap.

Definition shell_host (p : list Z) : option (list Z) := if bool_decide (p = [97]) then Some tiny_elf else None.
Definition shell_specs : list (list Z) := [cs "nsh.elf:a"].
Definition shell_files : list ifile := [(cs "nsh.elf", tiny_elf)].

Lemma shell_listed : listed shell_host shell_specs shell_files.
Proof. eapply listed_file; [reflexivity | reflexivity |]. constructor. Qed.

Lemma shell_fits : fits shell_files.
Proof.
  split.
  - intros f Hf. apply list_elem_of_singleton in Hf as ->. change (cs "nsh.elf", tiny_elf).1 with [110; 115; 104; 46; 101; 108; 102].
    split_and!; [split | split_and! | done]; try done; try (simpl; lia); repeat constructor; lia.
  - apply NoDup_singleton.
  - intros f Hf. apply list_elem_of_singleton in Hf as ->. split; [|by vm_compute]. apply (bool_decide_unpack _). vm_compute. exact I.
  - simpl. lia.
  - vm_compute. discriminate.
Qed.

Lemma tiny_program : program tiny_elf 0x400000 [tiny_seg].
Proof.
  split; [exists 64, 1; exact tiny_header | exact tiny_good | exact (conj (Forall_nil_2 _) I) |].
  intros ph Hph. apply list_elem_of_singleton in Hph as ->. vm_compute. intros [_ H]. discriminate H.
Qed.

Definition off_sys (m : mem) : sys (Buffer.st (Block.blk Ata.Sim.dev * Ata.Sim.dev)) :=
  mkSys Boot.early0 (MemInit.before ∅)
    (mkNox (Buffer.buf_init (Block.blk_init, DiskBoot.sim_drive m)) NoxDemo.sb0 MkDiskDemo.table0 0 false ∅) false 0 0 0 0
    (Input.mkTerm Input.kbd0 (Input.mkReg [] 0 None) Input.tty_init Vga.vga0) [].
Definition off_machine (m : mem) : machine (Buffer.st (Block.blk Ata.Sim.dev * Ata.Sim.dev)) :=
  mkMachine (off_sys m) ∅ ([], Traps.mkTss 0 0 0) [] [] (Traps.mkPic [] (fun _ => 0)) (Traps.mkFpu 0 0 0) [] (Traps.mkMsrs 0 0 0 0) false false.

Lemma off_reset m : at_reset 64 Boot.blank_proc ∅ (DiskBoot.sim_drive m) (off_sys m).
Proof.
  split; [reflexivity | unfold Vmm.entry; rewrite rd_empty; lia | exact Boot.early0_ok | reflexivity | reflexivity | exact MkDiskDemo.table0_ok].
Qed.


End KernelMain.
